(* ===== verification/_CoqProject ===== *)
-Q . S2P
Prelude.v
Sha256.v
Datastore.v
Epoch.v
PriorityHeights.v
Subscriber.v
Types.v
Serialization.v
ProtoInst.v
SerializationFacts.v
Validation.v
Store.v
StoreFacts.v
StoreMaintenance.v
Pruner.v
StoreAPI.v
StoreAdapter.v
ChainWrites.v
BlockCache.v
Pending.v
CachedStore.v
CachedStoreFacts.v
PendingFacts.v
CacheManager.v
BatchQueue.v
BatchQueueFacts.v
BatchQueueProps.v
DAClient.v
DASubmitter.v
DASubmitterFacts.v
Batching.v
Submitter.v
SubmitterFacts.v
NodeInst.v
SubmitterWitness.v
Execution.v
Replayer.v
DARetriever.v
DARetrieverFacts.v
DecodeFacts.v
DARetrieverWitness.v
ForcedInclusion.v
ForcedInclusionFacts.v
Sequencing.v
SequencingFacts.v
ForcedCheck.v
ForcedCheckFacts.v
Syncer.v
SyncFlow.v
SyncerFacts.v
SyncRun.v
SyncStart.v
Executing.v
Raft.v
RaftFacts.v
Evm.v
EvmFacts.v
EvmWitness.v
BlockFacts.v
ExecutingFacts.v
ExecutingRun.v
ExecutingStart.v
Following.v
SingleSequencer.v
SingleSequencerFacts.v
SequencerInst.v
ReplayerWitness.v
ForcedCheckWitness.v
SyncWitness.v
SingleSequencerWitness.v
BasedSequencer.v
BasedSequencerFacts.v
BasedSequencerWitness.v
SoloSequencer.v
SequencerPorts.v
Reaper.v
ExecutingWitness.v
RaftWitness.v
ReaperWitness.v
CachedStoreWitness.v
