(* ===== verification/Prelude.v ===== *)
(** * A verification development for ev-node

    ev-node is a sovereign-rollup node in Go. An aggregator asks a sequencer for
    batches of transactions, executes them, turns them into signed blocks, stores
    them and publishes them to a data availability (DA) layer; other nodes
    retrieve the blocks from DA, from peers or from a raft cluster, validate them
    and follow the chain. Transactions that users post to the DA layer directly
    ("forced inclusion") must be included by the sequencer.

    ** Parts, files and how they interact

    Foundations:
    - [Prelude.v]: results and errors ([res], Go's [(value, error)]), the
      state-and-error monad [M] with its weakest preconditions [wp], uint64 and
      int64 arithmetic, bytes and slices, shared lemmas, tactics and hints.
    - [Sha256.v]: SHA-256, executable.
    - [Datastore.v]: the interface of the key-value database (go-datastore):
      class [Datastore] with [DatastoreLaws] (a batch commit applies everything or
      fails and applies nothing, which the store relies on and go-datastore leaves
      to the backend; ordered queries; any operation may fail), and [MemDS], an
      implementation with a schedule of injected failures.
    - [ProtoInst.v], [NodeInst.v], [SequencerInst.v]: instances of the external
      interfaces for the files whose names end in [Witness], which apply the
      theorems to concrete states and hold the runs that the findings rest on.

    Blocks ([types/]):
    - [Epoch.v]: DA epochs ([epoch.go]).
    - [Types.v], [Serialization.v], [SerializationFacts.v], [DecodeFacts.v]: the
      block types, their protobuf encodings with the legacy header fields carried
      as unknown fields, the DA and P2P envelopes, and the hashes
      ([serialization.go], [hashing.go], [p2p_envelope.go]). The protobuf runtime
      is the class [ProtoMsg] with [ProtoLaws], [protowire] is [Wire].
    - [Validation.v]: validation of headers, data and their sequence
      ([signed_header.go], [state.go], [data.go]).

    Storage ([pkg/store], [block/internal/cache], [block/internal/pruner]):
    - [Store.v], [StoreFacts.v], [StoreMaintenance.v]: the block store over a
      [Datastore]: blocks, states, metadata, rollback and pruning.
    - [StoreAPI.v], [ChainWrites.v]: the store as the class [BlockStore] that the
      node's components use, with its contract, and what writing blocks does.
    - [CachedStore.v], [CachedStoreFacts.v]: the caches in front of the store and
      the asynchronous metadata writes ([cached_store.go]).
    - [StoreAdapter.v]: the store and the items that are not stored yet, as the
      header exchange sees them ([store_adapter.go]), and the services that start
      the exchange ([pkg/sync]).
    - [Pruner.v]: the pruner.
    - [BlockCache.v], [Pending.v], [PendingFacts.v], [CacheManager.v]: seen blocks
      and DA inclusion, the lists of blocks that wait for submission, the manager.

    Data availability ([block/internal/da], [block/internal/submitting]):
    - [DAClient.v]: the read path of the DA client over the RPC of a DA node
      (class [BlobRPC]), the events of its subscription, namespaces, and a DA
      chain in memory.
    - [DASubmitter.v], [DASubmitterFacts.v], [Batching.v], [Submitter.v],
      [SubmitterFacts.v]: envelopes, batches, retries, and the DA included height.
    - [Subscriber.v]: the follow and catch-up loops as interleaved atomic steps.
    - [ForcedInclusion.v], [ForcedInclusionFacts.v]: the retriever of forced
      inclusion transactions and its prefetch cache.

    Sequencers ([core/], [pkg/sequencers], [block/internal/reaping]):
    - [Sequencing.v], [SequencingFacts.v]: what the sequencers share: the executor
      (class [Executor]), requests and batch hashes, the checkpoint, and the
      interface [FISource] of forced inclusion transactions, which the retriever
      implements.
    - [BatchQueue.v], [BatchQueueFacts.v], [BatchQueueProps.v]: the persistent
      queue of the single sequencer with its write-ahead log.
    - [SingleSequencer.v], [BasedSequencer.v], [SoloSequencer.v] with their facts;
      [SequencerPorts.v]: each of them as the executor's sequencer.
    - [Reaper.v]: transactions from the mempool to the sequencer.

    Following the chain ([block/internal/syncing], [block/internal/common]):
    - [DARetriever.v], [DARetrieverFacts.v]: from DA blobs to height events.
    - [PriorityHeights.v], [SyncFlow.v]: the DA follower, P2P and raft sources.
    - [ForcedCheck.v], [ForcedCheckFacts.v]: the forced inclusion check.
    - [Execution.v], [Replayer.v]: genesis, the execution client (class
      [Execution]), and replay of stored blocks to it.
    - [Syncer.v], [SyncerFacts.v], [SyncRun.v], [SyncStart.v]: the syncer.

    Producing the chain ([block/internal/executing], [pkg/raft], [node]):
    - [Executing.v], [BlockFacts.v], [ExecutingFacts.v], [ExecutingRun.v],
      [ExecutingStart.v]: block production; [Following.v] puts an aggregator and a
      full node side by side.
    - [Raft.v], [RaftFacts.v]: the replicated last block, the leader election and
      the catch-up phase of a node ([node/failover.go]); the consensus library is
      an interface.

    Execution ([execution/evm]):
    - [Evm.v], [EvmFacts.v]: the client of an Ethereum execution layer, its store
      and the negotiation of Engine API versions. The client is an instance of
      the sequencers' [Executor].

    A struct is a [Record] whose fields are those of the Go struct, a method is a
    computation on it of the same name, a part of the system that is reached
    through a Go interface is a type class, and its documented behaviour is a
    class of laws. [zoom] runs a method of a part on the field that holds it. An
    operation that Go runs under a mutex is one step; where a mutex is released
    in the middle (the solo sequencer), or atomics are used without one (the
    subscriber, the height subscription), the method is split into its steps and
    the theorems quantify over interleavings. Integers keep their width: uint64
    arithmetic is [add64], [sub64], [mul64] (the scope [u64]).

    ** What the theorems show

    - Production: every block an aggregator commits extends its chain by one
      height, is linked, signed and executed, whatever fails in between and over
      restarts; a start finds the chain it left, with a pending block of an older
      version moved to where production looks for it; a full node that receives
      these blocks ends in the same state.
    - Syncing: every block a node applies was validated against the state before
      it, from whichever source it came; a start resumes from the stored state or
      from the root that the execution client answers; events that wait are
      handed over in order; the follow and catch-up loops skip no DA height as
      long as no loop gives back a claim that the other has passed, and the
      catch-up loop on its own reaches the head; the forced inclusion check gives
      the verdict of its specification; replay restores the execution layer to
      the chain's state.
    - Publishing: what is counted as submitted is on the DA layer; a height
      becomes DA included only when both its parts are marked as included, in
      order and after the executor finalized it; a published block is delivered
      to a node that reads the DA block, and everything delivered is signed by its
      proposer.
    - Sequencers: a batch holds the forced transactions that the executor accepts,
      first and in order, then the accepted ones of the mempool; the forced
      transactions of an epoch are handed out exactly once; a retrieved epoch is
      that of the DA chain but for blocks whose subscription event was damaged;
      catch-up is based sequencing; nothing is lost, duplicated or reordered by
      the queue, also over a crash; a transaction that the reaper hands over is
      queued once.
    - Storage: a committed block reads back; rollback removes exactly the blocks
      above its height; a pruning tick keeps what its mode and configuration
      protect, and repeated ticks drain a backlog; reads through the caches are
      reads of the store, metadata writes made before [Close] keep their order; an
      item from a peer is served at once, and no waiting call misses its height.
    - Raft: replicas that applied equally many entries agree; the leader's worker
      starts only in step with the raft state, as compared with the follower that
      ran before; production starts only after catching up.
    - EVM: a state root that is returned is that of the canonical block at the
      height, and a payload is resumed after a crash only for the height, the time
      and the hash of the transactions it was asked for; execution is idempotent;
      filtering keeps the longest prefix within the limits; the client finds the
      Engine API version of the server, with at most two refused calls.
    - Encodings and validation: messages are read back up to the nil/empty
      distinction that protobuf does not keep, the legacy decoder is total, hashes
      survive a round trip; an accepted header is signed by the key of its
      proposer; an accepted chain has consecutive heights, non-decreasing times
      and linked hashes wherever the sequence checks apply.

    Where the code does not do what it means to, an [Example] in the component's
    witness file is a run that shows it.

    ** Bounds and fuel

    Every definition is total. Loops over lists are structural, loops over
    heights range over [z_range] or the like, which is what the Go loops do for
    bounds below [2^64-1]. Where a Go loop has no bound of its own the model has
    fuel, and the caller passes as much as the loop can use: [drain_loop], [drain_priority]
    (the length of the queue), [pending_loop] (the pending events), [prune_chunks]
    (the range over the chunk size), [check_epochs] (the DA height),
    [inclusion_loop] (the heights up to the head); retries and polls
    ([retry_loop], [submit_loop], [wait_landed]) have the source's own limits.
    [waitForSpace] of the store adapter and the wait for catching up go on for as
    long as their environment makes them, and say so in their types. Hypotheses
    that a list is shorter than [2^64] or that sizes add up to less than [2^64]
    are facts about Go slices in memory.

    ** Simplifications

    Go pointers that two components share (an event and its header, the block
    store of an aggregator and of its sequencer) are separate values, except
    where a method changes what another one reads. Contexts, clocks and the
    choice of a select are questions to an environment that may answer anything.
    Starting and stopping goroutines is not modelled, their bodies are.

    ** Not modelled

    Logging, metrics and tracing; libp2p ([pkg/p2p]) and go-header; RPC servers and clients ([pkg/rpc]); the raft
    consensus and its transport; opening, merging and reconnecting DA
    subscriptions; the JSON of execution payloads; configuration files, commands,
    signers and process set-up: plumbing around libraries, without state or
    decisions of their own that the parts above depend on. *)

From Stdlib Require Import ZArith Lia.
From Stdlib Require Strings.Byte.
From stdpp Require Import base gmap strings list numbers pretty.

Open Scope Z_scope.

(** ** Results: Go's (value, error) pairs *)

Inductive res (E A : Type) : Type :=
| Ok (a : A)
| Err (e : E).
Arguments Ok {E A} a.
Arguments Err {E A} e.

Definition is_ok {E A} (r : res E A) : bool :=
  match r with Ok _ => true | Err _ => false end.

Definition map_err {E F A} (f : E -> F) (r : res E A) : res F A :=
  match r with Ok a => Ok a | Err e => Err (f e) end.

#[export] Instance res_ret E : MRet (res E) := fun A a => Ok a.
#[export] Instance res_bind E : MBind (res E) :=
  fun A B f r => match r with Ok a => f a | Err e => Err e end.

(** [guard_err b e] is the Go idiom [if !b { return e }]. *)
Definition guard_err {E} (b : bool) (e : E) : res E unit :=
  if b then Ok tt else Err e.

(** ** A state and error monad

    [M S E A] is a computation on a component's state [S] that returns a value
    of type [A] or an error of type [E]; the state survives an error, as the
    fields a Go method has already assigned do. *)

Definition M (S E A : Type) : Type := S -> res E A * S.

#[export] Instance M_ret S E : MRet (M S E) := fun A a s => (Ok a, s).
#[export] Instance M_bind S E : MBind (M S E) :=
  fun A B f m s =>
    match m s with
    | (Ok a, s') => f a s'
    | (Err e, s') => (Err e, s')
    end.

Definition throw {S E A} (e : E) : M S E A := fun s => (Err e, s).
Definition gets {S E A} (f : S -> A) : M S E A := fun s => (Ok (f s), s).
Definition modify {S E} (f : S -> S) : M S E unit := fun s => (Ok tt, f s).
Definition lift_res {S E A} (r : res E A) : M S E A := fun s => (r, s).

(** [attempt m] runs [m] and hands its outcome to the caller as a value: the
    translation of a call whose error is inspected, logged or ignored. *)
Definition attempt {S E F A} (m : M S E A) : M S F (res E A) :=
  fun s => let '(r, s') := m s in (Ok r, s').

(** [wrap f m] is [fmt.Errorf("...: %w", err)] around a failing call. *)
Definition wrap {S E F A} (f : E -> F) (m : M S E A) : M S F A :=
  fun s => let '(r, s') := m s in (map_err f r, s').

(** [for_each xs f] is [for _, x := range xs { if err := f(x) ... }]. *)
Fixpoint for_each {S E A} (xs : list A) (f : A -> M S E unit) : M S E unit :=
  match xs with
  | [] => mret tt
  | x :: xs' => f x ≫= fun _ => for_each xs' f
  end.

(** Zooming from a component's state to the state of a part of it. *)
Definition zoom {S T E A} (get : S -> T) (set : T -> S -> S) (m : M T E A) : M S E A :=
  fun s => let '(r, t) := m (get s) in (r, set t s).

(** A call that cannot fail. *)
Definition infallible {S E A} (f : S -> A * S) : M S E A :=
  fun s => let '(a, s') := f s in (Ok a, s').

(** ** Weakest preconditions

    [wp m Q s] holds when running [m] in [s] ends in an outcome and a state
    related by [Q]; [m] always returns, so this is total correctness. *)

Definition wp {S E A} (m : M S E A) (Q : res E A -> S -> Prop) (s : S) : Prop :=
  Q (m s).1 (m s).2.

(** ** Machine integers: Go's uint64 and int64 *)

Definition two64 : Z := 18446744073709551616.
Definition max_u64 : Z := 18446744073709551615.

Definition u64 (z : Z) : Z := z mod two64.
Definition is_u64 (z : Z) : Prop := 0 <= z < two64.
Definition add64 (a b : Z) : Z := u64 (a + b).
Definition sub64 (a b : Z) : Z := u64 (a - b).
Definition mul64 (a b : Z) : Z := u64 (a * b).

(** Go's operators on uint64, in the scope [u64]. *)
Declare Scope u64_scope.
Delimit Scope u64_scope with u64.
Notation "x + y" := (add64 x%u64 y%u64) : u64_scope.
Notation "x - y" := (sub64 x%u64 y%u64) : u64_scope.
Notation "x * y" := (mul64 x%u64 y%u64) : u64_scope.
Notation "x / y" := (Z.div x%u64 y%u64) : u64_scope.

(** [int64(x)] of a uint64. *)
Definition to_i64 (z : Z) : Z := if z <? 9223372036854775808 then z else z - two64.
(** Any integer reduced to int64 by two's complement. *)
Definition i64 (z : Z) : Z := to_i64 (u64 z).

(** ** Bytes *)

Abbreviation byte := Init.Byte.byte.
Abbreviation bytes := (list Init.Byte.byte).

#[export] Instance byte_eq_dec : EqDecision byte := Byte.byte_eq_dec.
#[export] Instance byte_countable : Countable byte :=
  inj_countable Byte.to_N Byte.of_N Byte.of_to_N.

Definition Z_of_byte (b : byte) : Z := Z.of_N (Byte.to_N b).
Definition byte_of_Z (z : Z) : byte :=
  match Byte.of_N (Z.to_N (z mod 256)) with
  | Some b => b
  | None => Init.Byte.x00
  end.

(** [binary.LittleEndian]: the [n] low bytes of [z], least significant first. *)
Fixpoint le_bytes (n : nat) (z : Z) : bytes :=
  match n with
  | O => []
  | S n' => byte_of_Z z :: le_bytes n' (z / 256)
  end.

Fixpoint le_val (b : bytes) : Z :=
  match b with
  | [] => 0
  | x :: b' => Z_of_byte x + 256 * le_val b'
  end.

(** [binary.BigEndian]. *)
Definition be_bytes (n : nat) (z : Z) : bytes := reverse (le_bytes n z).
Definition be_val (b : bytes) : Z := le_val (reverse b).

Definition put_uint64_le (z : Z) : bytes := le_bytes 8 z.
Definition uint64_le (b : bytes) : Z := le_val (take 8 b).

(** [len(b)] as a Go integer. *)
Definition zlen {A} (l : list A) : Z := Z.of_nat (length l).

(** [lo, lo+1, ..., hi]: the values of [for h := lo; h <= hi; h++] for
    [hi < 2^64-1] (at [2^64-1] the condition never fails). *)
Definition z_range (lo hi : Z) : list Z :=
  (fun i => lo + Z.of_nat i) <$> seq 0 (Z.to_nat (hi - lo + 1)).

(** [encoding/hex.EncodeToString]: two lower-case digits per byte. *)
Definition hex_digit (z : Z) : Ascii.ascii :=
  if z <? 10 then Ascii.ascii_of_nat (48 + Z.to_nat z) else Ascii.ascii_of_nat (87 + Z.to_nat z).

Fixpoint hex_encode (b : bytes) : string :=
  match b with
  | [] => EmptyString
  | x :: b' =>
      String (hex_digit (Z_of_byte x / 16)) (String (hex_digit (Z_of_byte x mod 16)) (hex_encode b'))
  end.

(** ** Slices whose nilness the code observes

    A Go [[]byte] is [option bytes]: [None] is nil. [bytes.Equal] and [len] do
    not tell nil from empty, comparisons with nil do. *)

Abbreviation slice := (option (list Init.Byte.byte)).
Definition sl (s : slice) : bytes := default [] s.
Definition slen (s : slice) : Z := zlen (sl s).
Definition bytes_eqb (a b : bytes) : bool := bool_decide (a = b).
(** [bytes.Equal]. *)
Definition slice_equal (a b : slice) : bool := bytes_eqb (sl a) (sl b).
(** A slice with its empty values made nil. *)
Definition norm_slice (s : slice) : slice :=
  match s with Some [] => None | _ => s end.

(** Days, times and durations are counted in nanoseconds since the Unix epoch. *)
Definition second : Z := 1000000000.
Definition minute : Z := 60 * second.
Definition millisecond : Z := 1000000.
(** Go's zero [time.Time]: January 1, year 1, UTC. *)
Definition zero_time : Z := -62135596800 * second.

(** ** Lemmas on results, the monad and [wp] *)

Lemma wp_ret {S E A} (a : A) (Q : res E A -> S -> Prop) s :
  Q (Ok a) s -> wp (mret a) Q s.
Proof. done. Qed.

Lemma wp_bind {S E A B} (m : M S E A) (f : A -> M S E B) Q s :
  wp m (fun r s' => match r with Ok a => wp (f a) Q s' | Err e => Q (Err e) s' end) s ->
  wp (m ≫= f) Q s.
Proof. unfold wp, mbind, M_bind. destruct (m s) as [[a|e] s']; done. Qed.

Lemma wp_mono {S E A} (m : M S E A) (P Q : res E A -> S -> Prop) s :
  wp m P s -> (forall r s', P r s' -> Q r s') -> wp m Q s.
Proof. unfold wp. eauto. Qed.

Lemma wp_throw {S E A} (e : E) (Q : res E A -> S -> Prop) s :
  Q (Err e) s -> wp (throw e) Q s.
Proof. done. Qed.

Lemma wp_attempt {S E F A} (m : M S E A) (Q : res F (res E A) -> S -> Prop) s :
  wp m (fun r s' => Q (Ok r) s') s -> wp (attempt m) Q s.
Proof. unfold wp, attempt. destruct (m s); done. Qed.

Lemma wp_wrap {S E F A} (f : E -> F) (m : M S E A) (Q : res F A -> S -> Prop) s :
  wp m (fun r s' => Q (map_err f r) s') s -> wp (wrap f m) Q s.
Proof. unfold wp, wrap. destruct (m s); done. Qed.

Lemma wp_gets {S E A} (f : S -> A) (Q : res E A -> S -> Prop) s :
  Q (Ok (f s)) s -> wp (gets f) Q s.
Proof. done. Qed.

Lemma wp_modify {S E} (f : S -> S) (Q : res E unit -> S -> Prop) s :
  Q (Ok tt) (f s) -> wp (modify f) Q s.
Proof. done. Qed.

Lemma wp_lift_res {S E A} (r : res E A) (Q : res E A -> S -> Prop) s :
  Q r s -> wp (lift_res r) Q s.
Proof. done. Qed.

Lemma wp_zoom {S T E A} (get : S -> T) set (m : M T E A) (Q : res E A -> S -> Prop) s :
  wp m (fun r t => Q r (set t s)) (get s) -> wp (zoom get set m) Q s.
Proof. unfold wp, zoom. destruct (m (get s)); done. Qed.

Lemma wp_infallible {S E A} (f : S -> A * S) (Q : res E A -> S -> Prop) s :
  Q (Ok (f s).1) (f s).2 -> wp (infallible f) Q s.
Proof. unfold wp, infallible. destruct (f s); done. Qed.

Lemma wp_and {S E A} (m : M S E A) (P Q : res E A -> S -> Prop) s :
  wp m P s -> wp m Q s -> wp m (fun r s' => P r s' /\ Q r s') s.
Proof. by split. Qed.

Lemma wp_run {S E A} (m : M S E A) Q s r s' :
  wp m Q s -> m s = (r, s') -> Q r s'.
Proof. unfold wp. intros H Heq. by rewrite Heq in H. Qed.

Lemma wp_exists {S E A} (m : M S E A) (Q : res E A -> S -> Prop) s :
  wp m Q s -> exists r s', m s = (r, s') /\ Q r s'.
Proof. intros Hw. exists (m s).1, (m s).2. split; [apply surjective_pairing|exact Hw]. Qed.

Lemma run_eq {S E A} (m : M S E A) s r : (m s).1 = r -> m s = (r, (m s).2).
Proof. intros <-. by destruct (m s). Qed.

Lemma run_bind {S E A B} (m : M S E A) (f : A -> M S E B) s a s' :
  m s = (Ok a, s') -> (m ≫= f) s = f a s'.
Proof. intros Hm. unfold mbind, M_bind. by rewrite Hm. Qed.

Lemma run_bind_err {S E A B} (m : M S E A) (f : A -> M S E B) s e s' :
  m s = (Err e, s') -> (m ≫= f) s = (Err e, s').
Proof. intros Hm. unfold mbind, M_bind. by rewrite Hm. Qed.

Lemma run_gets {S E A B} (g : S -> A) (f : A -> M S E B) s : (gets g ≫= f) s = f (g s) s.
Proof. done. Qed.

Lemma run_ret {S E A B} (a : A) (f : A -> M S E B) s : (mret a ≫= f) s = f a s.
Proof. done. Qed.

Lemma run_lift {S E A B} (a : A) (f : A -> M S E B) s : (lift_res (Ok a) ≫= f) s = f a s.
Proof. done. Qed.

Lemma run_lift_err {S E A B} (e : E) (f : A -> M S E B) s : (lift_res (Err e) ≫= f) s = (Err e, s).
Proof. done. Qed.

(** Reading the state at the head of a computation. *)
Ltac wp_read := apply wp_bind, wp_gets; cbn [id].
Ltac run_read := rewrite run_gets; cbn [id].

(** A loop that preserves [I] and whose body establishes [I] again. *)
Lemma wp_for_each {S E A} (I : S -> Prop) (f : A -> M S E unit) xs s :
  (forall x s, x ∈ xs -> I s -> wp (f x) (fun r s' => I s') s) ->
  I s -> wp (for_each xs f) (fun r s' => I s') s.
Proof.
  revert s. induction xs as [|x xs IH]; intros s Hf HI; simpl; [done|].
  apply wp_bind. eapply wp_mono; [apply Hf; [left|done]|].
  intros [[]|e] s' HI'; [|done]. apply IH; [|done].
  intros y s0 Hy. apply Hf. by right.
Qed.

(** ** Invariants of computations

    [stable I m P]: whatever [m] returns it keeps the invariant [I], and a
    value that it returns satisfies [P]. *)

Definition stable {S E A} (I : S -> Prop) (m : M S E A) (P : A -> Prop) : Prop :=
  forall s, I s -> wp m (fun r s' => I s' /\ forall a, r = Ok a -> P a) s.

Section stable.
Context {S E : Type} (I : S -> Prop).

Lemma stable_ret {A} (a : A) (P : A -> Prop) : P a -> stable (E := E) I (mret a) P.
Proof. intros Ha s Hs. apply wp_ret. split; [done|]. by intros a' [= <-]. Qed.
Lemma stable_throw {A} (e : E) (P : A -> Prop) : stable I (throw e) P.
Proof. intros s Hs. by apply wp_throw. Qed.
Lemma stable_gets {A} (f : S -> A) (P : A -> Prop) : (forall s, I s -> P (f s)) -> stable (E := E) I (gets f) P.
Proof. intros Hf s Hs. apply wp_gets. split; [done|]. intros a [= <-]. auto. Qed.
Lemma stable_modify (f : S -> S) : (forall s, I s -> I (f s)) -> stable (E := E) I (modify f) (fun _ => True).
Proof. intros Hf s Hs. apply wp_modify. auto. Qed.
Lemma stable_lift {A} (r : res E A) (P : A -> Prop) : (forall a, r = Ok a -> P a) -> stable I (lift_res r) P.
Proof. intros Hr s Hs. by apply wp_lift_res. Qed.
Lemma stable_bind {A B} (m : M S E A) (k : A -> M S E B) P Q :
  stable I m P -> (forall a, P a -> stable I (k a) Q) -> stable I (m ≫= k) Q.
Proof.
  intros Hm Hk s Hs. apply wp_bind. eapply wp_mono; [by apply Hm|]. intros [a|e] s' [Hs' Ha]; [|done].
  by apply Hk; [apply Ha|].
Qed.
Lemma stable_mono {A} (m : M S E A) (P Q : A -> Prop) : stable I m P -> (forall a, P a -> Q a) -> stable I m Q.
Proof. intros Hm Hpq s Hs. eapply wp_mono; [by apply Hm|]. intros r s' [? Hr]. split; [done|]. eauto. Qed.
Lemma stable_attempt {F A} (m : M S E A) (P : A -> Prop) :
  stable I m P -> stable (E := F) I (attempt m) (fun r => forall a, r = Ok a -> P a).
Proof. intros Hm s Hs. apply wp_attempt. eapply wp_mono; [by apply Hm|]. intros r s' [? Hr]. split; [done|]. by intros r' [= <-]. Qed.
Lemma stable_zoom {T A} (get : S -> T) (set : T -> S -> S) (J : T -> Prop) (m : M T E A) (P : A -> Prop) :
  (forall s, I s -> J (get s)) -> (forall s t, I s -> J t -> I (set t s)) -> stable J m P ->
  stable I (zoom get set m) P.
Proof. intros Hg Hset Hm s Hs. apply wp_zoom. eapply wp_mono; [apply Hm, Hg, Hs|]. intros r t [? ?]. auto. Qed.
Lemma stable_any {A} (m : M S E A) (P : A -> Prop) : stable I m P -> stable I m (fun _ => True).
Proof. intros Hm. by eapply stable_mono. Qed.

End stable.

(** ** Lemmas on machine integers *)

Lemma u64_range z : is_u64 (u64 z).
Proof. unfold is_u64, u64. apply Z.mod_pos_bound. done. Qed.

Lemma u64_small z : is_u64 z -> u64 z = z.
Proof. unfold is_u64, u64. intros. by apply Z.mod_small. Qed.

Lemma add64_small a b : 0 <= a + b < two64 -> add64 a b = a + b.
Proof. intros. unfold add64. by apply u64_small. Qed.

Lemma sub64_small a b : 0 <= a - b < two64 -> sub64 a b = a - b.
Proof. intros. unfold sub64. by apply u64_small. Qed.

Lemma mul64_small a b : 0 <= a * b < two64 -> mul64 a b = a * b.
Proof. intros. unfold mul64. by apply u64_small. Qed.

Lemma to_i64_small z : 0 <= z < 9223372036854775808 -> to_i64 z = z.
Proof. unfold to_i64. intros. destruct (Z.ltb_spec z 9223372036854775808); lia. Qed.

(** ** Lemmas on bytes *)

Lemma Z_of_byte_range b : 0 <= Z_of_byte b < 256.
Proof. unfold Z_of_byte. pose proof (Byte.to_N_bounded b). lia. Qed.

Lemma Z_of_byte_of_Z z : Z_of_byte (byte_of_Z z) = z mod 256.
Proof.
  unfold Z_of_byte, byte_of_Z. pose proof (Z.mod_pos_bound z 256 ltac:(lia)).
  destruct (Byte.of_N (Z.to_N (z mod 256))) as [b|] eqn:Hb.
  - apply Byte.to_of_N in Hb. rewrite Hb. lia.
  - apply Byte.of_N_None_iff in Hb. lia.
Qed.

Lemma byte_of_Z_of_byte b : byte_of_Z (Z_of_byte b) = b.
Proof.
  unfold byte_of_Z. rewrite Z.mod_small by apply Z_of_byte_range.
  unfold Z_of_byte. rewrite N2Z.id, Byte.of_to_N. done.
Qed.

Lemma length_le_bytes n z : length (le_bytes n z) = n.
Proof. revert z. induction n; intros; simpl; auto. Qed.

Lemma length_be_bytes n z : length (be_bytes n z) = n.
Proof. unfold be_bytes. by rewrite length_reverse, length_le_bytes. Qed.

Lemma le_val_bytes n z : le_val (le_bytes n z) = z mod 256 ^ Z.of_nat n.
Proof.
  revert z. induction n as [|n IH]; intros z; cbn [le_bytes le_val].
  - by rewrite Z.mod_1_r.
  - rewrite IH, Z_of_byte_of_Z, Nat2Z.inj_succ, Z.pow_succ_r by lia.
    rewrite Z.rem_mul_r by lia. done.
Qed.

Lemma le_val_range b : 0 <= le_val b < 256 ^ Z.of_nat (length b).
Proof.
  induction b as [|x b IH]; cbn [le_val length]; [lia|].
  rewrite Nat2Z.inj_succ, Z.pow_succ_r by lia.
  pose proof (Z_of_byte_range x). nia.
Qed.

Lemma le_bytes_val b : le_bytes (length b) (le_val b) = b.
Proof.
  induction b as [|x b IH]; cbn [le_val length le_bytes]; [done|].
  pose proof (Z_of_byte_range x). f_equal.
  - rewrite <- (byte_of_Z_of_byte x) at 2. unfold byte_of_Z.
    replace ((Z_of_byte x + 256 * le_val b) mod 256) with (Z_of_byte x mod 256); [done|].
    rewrite (Z.mul_comm 256), Z.mod_add by lia. done.
  - rewrite (Z.mul_comm 256), Z.div_add, Z.div_small by lia. exact IH.
Qed.

Lemma uint64_le_put z : is_u64 z -> uint64_le (put_uint64_le z) = z.
Proof.
  intros H. unfold uint64_le, put_uint64_le.
  rewrite take_ge by (by rewrite length_le_bytes).
  rewrite le_val_bytes. apply Z.mod_small, H.
Qed.

Lemma put_uint64_le_inj a b :
  is_u64 a -> is_u64 b -> put_uint64_le a = put_uint64_le b -> a = b.
Proof. intros Ha Hb Heq. by rewrite <- (uint64_le_put a), Heq, uint64_le_put. Qed.

Lemma length_put_uint64_le z : length (put_uint64_le z) = 8%nat.
Proof. apply length_le_bytes. Qed.

Lemma uint64_le_range b : is_u64 (uint64_le b).
Proof.
  unfold uint64_le, is_u64, two64. pose proof (le_val_range (take 8 b)) as H.
  pose proof (length_take_le b 8). rewrite length_take in H.
  assert (256 ^ Z.of_nat (Nat.min 8 (length b)) <= 256 ^ 8).
  { apply Z.pow_le_mono_r; lia. } lia.
Qed.

Lemma bytes_eqb_spec a b : bytes_eqb a b = true <-> a = b.
Proof. unfold bytes_eqb. apply bool_decide_eq_true. Qed.

Lemma bytes_eqb_refl a : bytes_eqb a a = true.
Proof. by apply bytes_eqb_spec. Qed.

Lemma zlen_nonneg {A} (l : list A) : 0 <= zlen l.
Proof. unfold zlen. lia. Qed.

Lemma zlen_zero {A} (l : list A) : zlen l = 0 <-> l = [].
Proof. unfold zlen. destruct l; simpl; split; try done; lia. Qed.

Lemma elem_of_z_range x lo hi : x ∈ z_range lo hi <-> lo <= x <= hi.
Proof.
  unfold z_range. rewrite list_elem_of_fmap. split.
  - intros (i & -> & Hi%elem_of_seq). lia.
  - intros Hx. exists (Z.to_nat (x - lo)). split; [lia|]. apply elem_of_seq. lia.
Qed.

Lemma NoDup_z_range lo hi : NoDup (z_range lo hi).
Proof. apply NoDup_fmap_2; [|apply NoDup_seq]. intros a b. lia. Qed.

Lemma z_range_nil lo hi : hi < lo -> z_range lo hi = [].
Proof. intros Hlt. unfold z_range. by rewrite Z2Nat.nonpos by lia. Qed.

Lemma z_range_cons lo hi : lo <= hi -> z_range lo hi = lo :: z_range (lo + 1) hi.
Proof.
  intros Hle. unfold z_range. replace (Z.to_nat (hi - lo + 1)) with (S (Z.to_nat (hi - (lo + 1) + 1))) by lia.
  cbn [seq fmap list_fmap]. f_equal; [lia|]. rewrite <- (fmap_S_seq 0), <- list_fmap_compose.
  apply list_fmap_ext. intros i x _. simpl. lia.
Qed.

Lemma z_range_snoc lo hi : lo <= hi + 1 -> z_range lo (hi + 1) = z_range lo hi ++ [hi + 1].
Proof.
  intros Hle. unfold z_range. replace (Z.to_nat (hi + 1 - lo + 1)) with (Z.to_nat (hi - lo + 1) + 1)%nat by lia.
  rewrite seq_app, fmap_app. cbn. do 2 f_equal. lia.
Qed.

Lemma sl_norm s : sl (norm_slice s) = sl s.
Proof. destruct s as [[|]|]; done. Qed.

Lemma norm_slice_idemp s : norm_slice (norm_slice s) = norm_slice s.
Proof. destruct s as [[|]|]; done. Qed.

(** A fact about digits is checked on the sixteen of them. *)
Lemma digits_ind (P : Z -> Prop) : Forall P (Z.of_nat <$> seq 0 16) -> forall d, 0 <= d < 16 -> P d.
Proof.
  intros HP d Hd. rewrite Forall_forall in HP. apply HP, list_elem_of_fmap.
  exists (Z.to_nat d). rewrite elem_of_seq. lia.
Qed.

Lemma hex_digit_code d : 0 <= d < 16 ->
  Z.of_nat (Ascii.nat_of_ascii (hex_digit d)) = if d <? 10 then 48 + d else 87 + d.
Proof.
  revert d.
  apply (digits_ind (fun d => Z.of_nat (Ascii.nat_of_ascii (hex_digit d)) = if d <? 10 then 48 + d else 87 + d)).
  repeat constructor.
Qed.

Lemma hex_digit_inj d e : 0 <= d < 16 -> 0 <= e < 16 -> hex_digit d = hex_digit e -> d = e.
Proof.
  intros Hd He Heq. pose proof (hex_digit_code d Hd) as H1. rewrite Heq, hex_digit_code in H1 by done.
  destruct (Z.ltb_spec d 10), (Z.ltb_spec e 10); lia.
Qed.

(** ** Automation *)

Lemma add64_u64 a b : is_u64 (add64 a b).
Proof. apply u64_range. Qed.

Lemma sub64_u64 a b : is_u64 (sub64 a b).
Proof. apply u64_range. Qed.

Lemma mul64_u64 a b : is_u64 (mul64 a b).
Proof. apply u64_range. Qed.

(** Ranges of machine integers. *)
Create HintDb machine.
#[export] Hint Resolve u64_range add64_u64 sub64_u64 mul64_u64 uint64_le_range Z_of_byte_range zlen_nonneg : machine.
