(* ===== verification/Sha256.v ===== *)
(** * SHA-256

    Go's [crypto/sha256.Sum256], the standard library function behind block
    hashes, data commitments, proposer addresses and the de-duplication keys of
    the batch queue. It is executable, so that witnesses hash real inputs; the
    proofs of the library use only that the digest has 32 bytes. *)

From S2P Require Import Prelude.
From stdpp Require Import base gmap strings list numbers.
Open Scope Z_scope.

Module Sha256.

Definition w32 (z : Z) : Z := Z.land z 0xffffffff.
Definition rotr (n x : Z) : Z := w32 (Z.lor (Z.shiftr x n) (Z.shiftl x (32 - n))).

(** The constants are defined, not tabulated: the first 32 bits of the
    fractional parts of the cube roots (rounds) and the square roots (initial
    digest) of the first primes. *)
Definition primes (n : nat) : list Z :=
  take n (List.filter (fun p => forallb (fun d => negb (p mod d =? 0)) (Z.of_nat <$> seq 2 (Z.to_nat p - 2)))
            (Z.of_nat <$> seq 2 310)).

(** The largest [r] below [2 ^ bits] with [r ^ k <= n], bit by bit. *)
Fixpoint root (k n : Z) (bits : nat) (r : Z) : Z :=
  match bits with
  | O => r
  | S b =>
      let r' := r + 2 ^ Z.of_nat b in
      root k n b (if r' ^ k <=? n then r' else r)
  end.

Definition root_fraction (k p : Z) : Z := w32 (root k (p * 2 ^ (32 * k)) 40 0).

Definition round_constants : list Z := Eval vm_compute in root_fraction 3 <$> primes 64.

Record digest := Digest
  { ha : Z; hb : Z; hc : Z; hd : Z; he : Z; hf : Z; hg : Z; hh : Z }.

Definition initial : digest := Eval vm_compute in
  match root_fraction 2 <$> primes 8 with
  | [a; b; c; d; e; f; g; h] => Digest a b c d e f g h
  | _ => Digest 0 0 0 0 0 0 0 0
  end.

(** The message schedule, kept newest first; [nth] counts back from the newest word. *)
Fixpoint schedule (n : nat) (w : list Z) : list Z :=
  match n with
  | O => w
  | S n' =>
      let w2 := nth 1 w 0 in let w7 := nth 6 w 0 in
      let w15 := nth 14 w 0 in let w16 := nth 15 w 0 in
      let s0 := Z.lxor (Z.lxor (rotr 7 w15) (rotr 18 w15)) (Z.shiftr w15 3) in
      let s1 := Z.lxor (Z.lxor (rotr 17 w2) (rotr 19 w2)) (Z.shiftr w2 10) in
      schedule n' (w32 (w16 + s0 + w7 + s1) :: w)
  end.

Definition round (d : digest) (kw : Z * Z) : digest :=
  let '(k, w) := kw in
  let s1 := Z.lxor (Z.lxor (rotr 6 (he d)) (rotr 11 (he d))) (rotr 25 (he d)) in
  let ch := Z.lxor (Z.land (he d) (hf d)) (Z.land (Z.lxor (he d) 0xffffffff) (hg d)) in
  let t1 := w32 (hh d + s1 + ch + k + w) in
  let s0 := Z.lxor (Z.lxor (rotr 2 (ha d)) (rotr 13 (ha d))) (rotr 22 (ha d)) in
  let maj := Z.lxor (Z.lxor (Z.land (ha d) (hb d)) (Z.land (ha d) (hc d))) (Z.land (hb d) (hc d)) in
  let t2 := w32 (s0 + maj) in
  Digest (w32 (t1 + t2)) (ha d) (hb d) (hc d) (w32 (hd d + t1)) (he d) (hf d) (hg d).

Definition add_digest (a b : digest) : digest :=
  Digest (w32 (ha a + ha b)) (w32 (hb a + hb b)) (w32 (hc a + hc b)) (w32 (hd a + hd b))
         (w32 (he a + he b)) (w32 (hf a + hf b)) (w32 (hg a + hg b)) (w32 (hh a + hh b)).

(** A chunk of 64 bytes as sixteen big-endian words, newest first. *)
Fixpoint words (n : nat) (b : bytes) (acc : list Z) : list Z :=
  match n with
  | O => acc
  | S n' => words n' (drop 4 b) (be_val (take 4 b) :: acc)
  end.

Definition compress (d : digest) (chunk : bytes) : digest :=
  let ws := reverse (schedule 48 (words 16 chunk [])) in
  add_digest d (foldl round d (zip round_constants ws)).

(** Padding: 0x80, zeros up to 56 modulo 64, the length in bits. *)
Definition pad (m : bytes) : bytes :=
  let n := zlen m in
  let zeros := Z.to_nat ((55 - n) mod 64) in
  m ++ [Init.Byte.x80] ++ replicate zeros Init.Byte.x00 ++ be_bytes 8 (8 * n).

Fixpoint blocks (n : nat) (d : digest) (b : bytes) : digest :=
  match n with
  | O => d
  | S n' => blocks n' (compress d (take 64 b)) (drop 64 b)
  end.

Definition digest_bytes (d : digest) : bytes :=
  be_bytes 4 (ha d) ++ be_bytes 4 (hb d) ++ be_bytes 4 (hc d) ++ be_bytes 4 (hd d)
  ++ be_bytes 4 (he d) ++ be_bytes 4 (hf d) ++ be_bytes 4 (hg d) ++ be_bytes 4 (hh d).

Definition sum256 (m : bytes) : bytes :=
  let p := pad m in
  digest_bytes (blocks (Z.to_nat (zlen p / 64)) initial p).

Lemma length_sum256 m : length (sum256 m) = 32%nat.
Proof.
  unfold sum256, digest_bytes, be_bytes.
  by rewrite !length_app, !length_reverse, !length_le_bytes.
Qed.

Lemma sum256_nonempty m : sum256 m <> [].
Proof. intros H. pose proof (length_sum256 m) as Hl. by rewrite H in Hl. Qed.

(** The published test vector for "abc". *)
Example sum256_abc :
  hex_encode (sum256 [Init.Byte.x61; Init.Byte.x62; Init.Byte.x63])
  = "ba7816bf8f01cfea414140de5dae2223b00361a396177a9cb410ff61f20015ad"%string.
Proof. vm_compute. reflexivity. Qed.

(** The published test vector for the empty message. *)
Example sum256_empty :
  hex_encode (sum256 [])
  = "e3b0c44298fc1c149afbf4c8996fb92427ae41e4649b934ca495991b7852b855"%string.
Proof. vm_compute. reflexivity. Qed.

End Sha256.

Arguments Sha256.sum256 : simpl never.
