(* ===== verification/Datastore.v ===== *)
(** * The key-value datastore

    ev-node persists everything through [ds.Batching] of
    [github.com/ipfs/go-datastore], which is not part of the repository. It is
    an interface here: the operations are the fields of the class [Datastore],
    what the code relies on is stated by [DatastoreLaws], and every theorem of
    the clients is proved against that interface. [MemDS] is a concrete
    datastore with a schedule of injected failures that satisfies the laws.

    Keys are the strings the sources hand to [ds.NewKey] or [ds.RawKey]; both
    leave the keys built by ev-node unchanged. A prefixed namespace
    ([store.NewPrefixKVStore]) is a datastore of its own. *)

From S2P Require Import Prelude.
From stdpp Require Import base gmap strings list numbers sorting.
Open Scope Z_scope.

(** [ds.ErrNotFound], or any failure of the backend. *)
Inductive ds_error := ErrNotFound | ErrIO.
#[export] Instance ds_error_eq_dec : EqDecision ds_error.
Proof. solve_decision. Defined.

(** A staged operation of a [ds.Batch]. *)
Inductive bop :=
| BPut (k : string) (v : bytes)
| BDelete (k : string).

Definition bop_key (o : bop) : string :=
  match o with BPut k _ => k | BDelete k => k end.

Definition apply_bop (m : gmap string bytes) (o : bop) : gmap string bytes :=
  match o with
  | BPut k v => <[k := v]> m
  | BDelete k => delete k m
  end.

Definition apply_bops (m : gmap string bytes) (ops : list bop) : gmap string bytes :=
  foldl apply_bop m ops.

(** Byte-wise lexicographic order, the order of [query.OrderByKey]. *)
Definition key_lt (a b : string) : Prop := String.ltb a b = true.

Class Datastore (DB : Type) := {
  ds_view : DB -> gmap string bytes;
  (** The backend will not fail any more. *)
  ds_healthy : DB -> Prop;
  ds_get : string -> M DB ds_error bytes;
  ds_put : string -> bytes -> M DB ds_error unit;
  ds_delete : string -> M DB ds_error unit;
  (** [Batch(ctx)]: a new, empty batch. *)
  ds_batch : M DB ds_error unit;
  (** [batch.Put] and [batch.Delete]: staging, which writes nothing. *)
  ds_stage : bop -> M DB ds_error unit;
  ds_commit : list bop -> M DB ds_error unit;
  (** [Query] ordered by key: a stream of entries, each of which may be an error. *)
  ds_query : M DB ds_error (list (res ds_error (string * bytes)))
}.

Definition oks {E A} (l : list (res E A)) : list A :=
  omap (fun r => match r with Ok a => Some a | Err _ => None end) l.

Class DatastoreLaws (DB : Type) `{Datastore DB} := {
  get_law k d :
    wp (ds_get k) (fun r d' =>
      ds_view d' = ds_view d /\ (ds_healthy d -> ds_healthy d') /\
      match r with
      | Ok v => ds_view d !! k = Some v
      | Err ErrNotFound => ds_view d !! k = None
      | Err ErrIO => ~ ds_healthy d
      end) d;
  put_law k v d :
    wp (ds_put k v) (fun r d' =>
      (ds_healthy d -> ds_healthy d') /\
      match r with
      | Ok _ => ds_view d' = <[k := v]> (ds_view d)
      | Err _ => ds_view d' = ds_view d /\ ~ ds_healthy d
      end) d;
  delete_law k d :
    wp (ds_delete k) (fun r d' =>
      (ds_healthy d -> ds_healthy d') /\
      match r with
      | Ok _ => ds_view d' = delete k (ds_view d)
      | Err _ => ds_view d' = ds_view d /\ ~ ds_healthy d
      end) d;
  batch_law d :
    wp ds_batch (fun r d' =>
      ds_view d' = ds_view d /\ (ds_healthy d -> ds_healthy d') /\
      match r with Ok _ => True | Err _ => ~ ds_healthy d end) d;
  (** [ErrNotFound] is only returned for the deletion of an absent key. *)
  stage_law o d :
    wp (ds_stage o) (fun r d' =>
      ds_view d' = ds_view d /\ (ds_healthy d -> ds_healthy d') /\
      match r with
      | Ok _ => True
      | Err e => ~ ds_healthy d /\
                 (e = ErrNotFound -> exists k, o = BDelete k /\ ds_view d !! k = None)
      end) d;
  (** A commit applies every staged operation, or none when it fails. [batch.go]
      and [types.go] of the store rely on this ("commits all batched operations
      atomically"); go-datastore itself leaves it to the backend. *)
  commit_law ops d :
    wp (ds_commit ops) (fun r d' =>
      (ds_healthy d -> ds_healthy d') /\
      match r with
      | Ok _ => ds_view d' = apply_bops (ds_view d) ops
      | Err _ => ds_view d' = ds_view d /\ ~ ds_healthy d
      end) d;
  query_law d :
    wp ds_query (fun r d' =>
      ds_view d' = ds_view d /\ (ds_healthy d -> ds_healthy d') /\
      match r with
      | Ok l =>
          StronglySorted key_lt (oks l).*1 /\
          (forall k v, (k, v) ∈ oks l -> ds_view d !! k = Some v) /\
          (Forall (fun x => is_ok x = true) l -> forall k v, ds_view d !! k = Some v -> (k, v) ∈ oks l) /\
          (ds_healthy d -> Forall (fun x => is_ok x = true) l)
      | Err _ => ~ ds_healthy d
      end) d
}.

(** ** Helpers shared by the clients *)

(** Create a batch, stage [ops], commit: what a sequence of [batch.Put] and
    [batch.Delete] calls between [db.Batch] and [batch.Commit] does. *)
Definition ds_run_batch {DB} `{Datastore DB} (ops : list bop) : M DB ds_error unit :=
  ds_batch ≫= fun _ => for_each ops ds_stage ≫= fun _ => ds_commit ops.

Section laws.
Context {DB : Type} `{DatastoreLaws DB}.

Lemma for_each_stage_law ops d :
  wp (for_each ops ds_stage) (fun r d' =>
    ds_view d' = ds_view d /\ (ds_healthy d -> ds_healthy d') /\
    match r with Ok _ => True | Err _ => ~ ds_healthy d end) d.
Proof.
  revert d. induction ops as [|o ops IH]; intros d; simpl; [done|].
  apply wp_bind. eapply wp_mono; [apply stage_law|].
  intros [[]|e] d' (Hv & Hh & He); [|tauto].
  eapply wp_mono; [apply IH|]. intros r d'' (Hv' & Hh' & He').
  rewrite Hv'. split_and!; [done|tauto|]. destruct r; [done|tauto].
Qed.

Lemma run_batch_law ops d :
  wp (ds_run_batch ops) (fun r d' =>
    (ds_healthy d -> ds_healthy d') /\
    match r with
    | Ok _ => ds_view d' = apply_bops (ds_view d) ops
    | Err _ => ds_view d' = ds_view d /\ ~ ds_healthy d
    end) d.
Proof.
  unfold ds_run_batch. apply wp_bind. eapply wp_mono; [apply batch_law|].
  intros [[]|e] d1 (Hv1 & Hh1 & He1); [|tauto].
  apply wp_bind. eapply wp_mono; [apply for_each_stage_law|].
  intros [[]|e] d2 (Hv2 & Hh2 & He2); [|rewrite Hv2; tauto].
  eapply wp_mono; [apply commit_law|]. intros [[]|e] d3 (Hh3 & Hv3).
  - rewrite Hv3, Hv2, Hv1. tauto.
  - rewrite Hv2, Hv1 in Hv3. tauto.
Qed.

End laws.

Lemma apply_bops_lookup_ne ops m k :
  k ∉ (bop_key <$> ops) -> apply_bops m ops !! k = m !! k.
Proof.
  revert m. induction ops as [|o ops IH]; intros m Hk; simpl; [done|].
  rewrite fmap_cons in Hk. apply not_elem_of_cons in Hk as [Hne Hk].
  unfold apply_bops in *. simpl. rewrite (IH _ Hk).
  destruct o; simpl in *; [by rewrite lookup_insert_ne|by rewrite lookup_delete_ne].
Qed.

Lemma apply_bops_app m ops1 ops2 :
  apply_bops m (ops1 ++ ops2) = apply_bops (apply_bops m ops1) ops2.
Proof. apply foldl_app. Qed.

Lemma apply_bops_deletes m ks k :
  apply_bops m (BDelete <$> ks) !! k = if bool_decide (k ∈ ks) then None else m !! k.
Proof.
  revert m. induction ks as [|k' ks IH]; intros m; simpl; [done|].
  unfold apply_bops in *. simpl. rewrite IH. simpl.
  destruct (decide (k = k')) as [->|Hne].
  - rewrite lookup_delete_eq. rewrite (bool_decide_true (k' ∈ k' :: ks)) by left.
    by destruct (bool_decide _).
  - rewrite lookup_delete_ne by done.
    rewrite (bool_decide_ext (k ∈ k' :: ks) (k ∈ ks)); [done|].
    rewrite elem_of_cons. tauto.
Qed.

(** ** An in-memory datastore with injected failures *)

Module MemDS.

(** The contents and, for each coming operation, whether it fails. *)
Record memds := MemDS { mem : gmap string bytes; faults : list bool }.

Definition step {A} (f : gmap string bytes -> res ds_error A * gmap string bytes) : M memds ds_error A :=
  fun d =>
    match faults d with
    | true :: fs => (Err ErrIO, MemDS (mem d) fs)
    | fs => let '(r, m) := f (mem d) in (r, MemDS m (tail fs))
    end.

Definition key_le (a b : string * bytes) : Prop := String.leb a.1 b.1 = true.
#[export] Instance key_le_dec : RelDecision key_le.
Proof. intros a b. unfold key_le. apply _. Defined.

Definition sorted_entries (m : gmap string bytes) : list (string * bytes) :=
  merge_sort key_le (map_to_list m).

#[export] Instance memds_datastore : Datastore memds := {
  ds_view := mem;
  ds_healthy d := Forall (fun b => b = false) (faults d);
  ds_get k := step (fun m => (match m !! k with Some v => Ok v | None => Err ErrNotFound end, m));
  ds_put k v := step (fun m => (Ok tt, <[k := v]> m));
  ds_delete k := step (fun m => (Ok tt, delete k m));
  ds_batch := step (fun m => (Ok tt, m));
  ds_stage o := step (fun m => (Ok tt, m));
  ds_commit ops := step (fun m => (Ok tt, apply_bops m ops));
  ds_query := step (fun m => (Ok (Ok <$> sorted_entries m), m))
}.

Lemma step_spec {A} f (Q : res ds_error A -> memds -> Prop) d :
  (forall fs, (Forall (fun b => b = false) (faults d) -> Forall (fun b => b = false) fs) ->
     Q (f (mem d)).1 (MemDS (f (mem d)).2 fs)) ->
  (forall fs, ~ Forall (fun b => b = false) (faults d) -> Q (Err ErrIO) (MemDS (mem d) fs)) ->
  wp (step f) Q d.
Proof.
  intros Hok Herr. unfold wp, step. destruct (faults d) as [|[] fs] eqn:Hf.
  - specialize (Hok []). destruct (f (mem d)). by apply Hok.
  - apply Herr. intros Hall. by inversion Hall.
  - specialize (Hok fs). destruct (f (mem d)). apply Hok. by inversion 1.
Qed.

Lemma string_compare_trans a : forall b c,
  String.compare a b <> Gt -> String.compare b c <> Gt -> String.compare a c <> Gt.
Proof.
  induction a as [|x a IH]; intros [|y b] [|z c]; simpl; try done.
  unfold Ascii.compare.
  destruct (N.compare_spec (Ascii.N_of_ascii x) (Ascii.N_of_ascii y)) as [Hxy|Hxy|Hxy];
    destruct (N.compare_spec (Ascii.N_of_ascii y) (Ascii.N_of_ascii z)) as [Hyz|Hyz|Hyz];
    destruct (N.compare_spec (Ascii.N_of_ascii x) (Ascii.N_of_ascii z)) as [Hxz|Hxz|Hxz];
    intros H1 H2; try done; try (exfalso; lia); eauto.
Qed.

Lemma leb_compare a b : String.leb a b = true <-> String.compare a b <> Gt.
Proof. unfold String.leb. destruct (String.compare a b); split; done. Qed.

#[export] Instance key_le_total : Total key_le.
Proof. intros a b. apply String.leb_total. Qed.

#[export] Instance key_le_trans : Transitive key_le.
Proof.
  intros a b c. unfold key_le. rewrite !leb_compare. apply string_compare_trans.
Qed.

Lemma key_le_lt a b : String.leb a b = true -> a <> b -> key_lt a b.
Proof.
  unfold key_lt. rewrite leb_compare. unfold String.ltb.
  destruct (String.compare a b) eqn:Hc; try done.
  by apply String.compare_eq_iff in Hc.
Qed.

Lemma sorted_entries_keys m : StronglySorted key_lt (sorted_entries m).*1.
Proof.
  unfold sorted_entries.
  assert (Hs : StronglySorted key_le (merge_sort key_le (map_to_list m))).
  { apply Sorted_StronglySorted; [apply _|]. apply Sorted_merge_sort, _. }
  assert (Hn : NoDup (merge_sort key_le (map_to_list m)).*1).
  { rewrite merge_sort_Permutation. apply NoDup_fst_map_to_list. }
  induction Hs as [|[k v] l Hs IH Hall]; [constructor|].
  rewrite fmap_cons in Hn. apply NoDup_cons in Hn as [Hk Hn]. simpl in Hk.
  rewrite fmap_cons. constructor; [by apply IH|].
  rewrite Forall_fmap. rewrite Forall_forall in Hall |- *. intros [k' v'] Hin. simpl.
  apply key_le_lt; [apply (Hall _ Hin)|]. intros ->. apply Hk.
  apply list_elem_of_fmap. by exists (k', v').
Qed.

Lemma oks_fmap {A} (l : list A) : oks (E := ds_error) (Ok <$> l) = l.
Proof. induction l as [|x l IH]; [done|]. unfold oks in *. csimpl. by f_equal. Qed.

#[export] Instance memds_laws : DatastoreLaws memds.
Proof.
  split; intros; apply step_spec; simpl; intros fs Hfs; split_and!; try done; try tauto.
  - by destruct (mem d !! k) eqn:Hk.
  - rewrite oks_fmap. apply sorted_entries_keys.
  - intros k v. rewrite oks_fmap. unfold sorted_entries. by rewrite merge_sort_Permutation, elem_of_map_to_list.
  - intros _ k v. rewrite oks_fmap. unfold sorted_entries. by rewrite merge_sort_Permutation, elem_of_map_to_list.
  - intros _. apply Forall_fmap, Forall_forall. done.
Qed.

End MemDS.
