(* ===== verification/Epoch.v ===== *)
(** * DA epochs ([types/epoch.go])

    The mapping from DA heights to epochs that the sequencers, the forced
    inclusion retriever and the syncer share. All arithmetic is uint64. *)

From S2P Require Import Prelude.
From stdpp Require Import base list numbers.
Open Scope Z_scope.

Module Epoch.

Definition CalculateEpochNumber (daHeight daStartHeight daEpochSize : Z) : Z :=
  if daHeight <? daStartHeight then 0
  else if daEpochSize =? 0 then 1
  else ((daHeight - daStartHeight) / daEpochSize + 1)%u64.

(** Returns (start, end, epochNum). *)
Definition CalculateEpochBoundaries (daHeight daStartHeight daEpochSize : Z) : Z * Z * Z :=
  let epochNum := CalculateEpochNumber daHeight daStartHeight daEpochSize in
  if daEpochSize =? 0 then (daStartHeight, daStartHeight, epochNum)
  else if daHeight <? daStartHeight then
    (daStartHeight, (daStartHeight + daEpochSize - 1)%u64, epochNum)
  else
    let start := (daStartHeight + (epochNum - 1) * daEpochSize)%u64 in
    let end_ := (daStartHeight + epochNum * daEpochSize - 1)%u64 in
    (start, end_, epochNum).

(** Heights whose whole epoch fits in the uint64 range. *)
Definition epoch_in_range (h s e : Z) : Prop :=
  is_u64 h /\ is_u64 s /\ is_u64 e /\ 0 < e /\ s <= h /\ h + e < two64.

Section facts.
Context (h s e : Z).
Hypothesis Hr : epoch_in_range h s e.

Lemma epoch_number_eq : CalculateEpochNumber h s e = (h - s) / e + 1.
Proof.
  destruct Hr as (Hh & Hs & He & Hpos & Hle & Hup). unfold CalculateEpochNumber.
  destruct (Z.ltb_spec h s); [lia|]. destruct (Z.eqb_spec e 0); [lia|].
  unfold is_u64 in *. rewrite sub64_small by lia.
  assert (0 <= (h - s) / e <= h - s).
  { split; [apply Z.div_pos; lia|]. apply Z.div_le_upper_bound; nia. }
  apply add64_small. lia.
Qed.

Lemma epoch_boundaries_eq :
  CalculateEpochBoundaries h s e
  = (s + (h - s) / e * e, s + (h - s) / e * e + e - 1, (h - s) / e + 1).
Proof.
  pose proof epoch_number_eq as Hn.
  destruct Hr as (Hh & Hs & He & Hpos & Hle & Hup). unfold CalculateEpochBoundaries.
  destruct (Z.eqb_spec e 0); [lia|]. destruct (Z.ltb_spec h s); [lia|].
  rewrite Hn. unfold is_u64 in *.
  pose proof (Z.mul_div_le (h - s) e ltac:(lia)).
  assert (0 <= (h - s) / e) by (apply Z.div_pos; lia).
  set (q := (h - s) / e) in *. assert (q <= q * e) by nia.
  rewrite (sub64_small (q + 1) 1) by lia. replace (q + 1 - 1) with q by lia.
  assert (0 <= q * e) by nia. assert (Hq : (q + 1) * e = q * e + e) by ring.
  rewrite (mul64_small (q + 1) e), (mul64_small q e) by lia.
  rewrite (add64_small s (q * e)), (add64_small s ((q + 1) * e)) by lia.
  rewrite sub64_small by lia.
  by replace (s + (q + 1) * e - 1) with (s + q * e + e - 1) by lia.
Qed.

End facts.

(** The epoch of a DA height contains that height, has exactly
    [daEpochSize] heights, and is numbered from 1, for every height of the
    uint64 range whose epoch does not overflow it. *)
Theorem epoch_contains_height h s e :
  epoch_in_range h s e ->
  let '(start, end_, n) := CalculateEpochBoundaries h s e in
  start <= h <= end_ /\ end_ - start + 1 = e /\ s <= start /\ 1 <= n /\
  n = CalculateEpochNumber h s e.
Proof.
  intros Hr. rewrite epoch_boundaries_eq, epoch_number_eq by done.
  destruct Hr as (Hh & Hs & He & Hpos & Hle & Hup).
  pose proof (Z.mul_div_le (h - s) e ltac:(lia)).
  pose proof (Z.mul_succ_div_gt (h - s) e ltac:(lia)).
  assert (0 <= (h - s) / e) by (apply Z.div_pos; lia). split_and!; nia.
Qed.

Lemma epoch_contains_height_witness :
  epoch_in_range 117 100 10 /\ CalculateEpochBoundaries 117 100 10 = (110, 119, 2) /\
  (let '(start, end_, n) := CalculateEpochBoundaries 117 100 10 in
   start <= 117 <= end_ /\ end_ - start + 1 = 10 /\ 100 <= start /\ 1 <= n /\
   n = CalculateEpochNumber 117 100 10).
Proof.
  assert (Hr : epoch_in_range 117 100 10) by (unfold epoch_in_range, is_u64, two64; lia).
  split; [done|]. split; [reflexivity|]. exact (epoch_contains_height 117 100 10 Hr).
Defined.

(** Epochs partition the DA heights: two heights have the same epoch number
    exactly when the second lies between the boundaries computed for the first. *)
Theorem epochs_partition h h' s e :
  epoch_in_range h s e -> epoch_in_range h' s e ->
  let '(start, end_, _) := CalculateEpochBoundaries h s e in
  CalculateEpochNumber h s e = CalculateEpochNumber h' s e <-> start <= h' <= end_.
Proof.
  intros Hr Hr'. rewrite epoch_boundaries_eq, !epoch_number_eq by done.
  destruct Hr as (_ & _ & _ & Hpos & Hle & _), Hr' as (_ & _ & _ & _ & Hle' & _).
  pose proof (Z.mul_div_le (h' - s) e Hpos).
  pose proof (Z.mul_succ_div_gt (h' - s) e Hpos).
  split; intros Heq.
  - assert ((h - s) / e = (h' - s) / e) as -> by lia. nia.
  - assert ((h' - s) / e = (h - s) / e) by (symmetry; apply Z.div_unique with (h' - s - e * ((h - s) / e)); lia).
    lia.
Qed.

Lemma epochs_partition_witness :
  CalculateEpochNumber 117 100 10 = CalculateEpochNumber 110 100 10 <-> 110 <= 110 <= 119.
Proof.
  apply (epochs_partition 117 110 100 10); unfold epoch_in_range, is_u64, two64; lia.
Defined.

End Epoch.
