(* ===== verification/PriorityHeights.v ===== *)
(** * Priority DA heights ([block/internal/syncing/da_follower.go])

    The bounded sorted queue of the DA heights that P2P hints point to. *)

From S2P Require Import Prelude.
From stdpp Require Import base list sorting numbers.
Open Scope Z_scope.

Definition maxPriorityHeights : nat := 1024.

(** [slices.BinarySearch] in a sorted slice: the first position whose element is
    not below the target, and whether it is the target. *)
Fixpoint BinarySearch (l : list Z) (target : Z) : nat * bool :=
  match l with
  | [] => (O, false)
  | x :: l' => if x <? target then let '(i, found) := BinarySearch l' target in (S i, found) else (O, x =? target)
  end.

(** [slices.Insert]. *)
Definition slices_Insert (l : list Z) (i : nat) (x : Z) : list Z := take i l ++ x :: drop i l.

Definition QueuePriorityHeight (daHeight : Z) (priorityHeights : list Z) : list Z :=
  let '(idx, found) := BinarySearch priorityHeights daHeight in
  if found then priorityHeights else
  if Nat.leb maxPriorityHeights (length priorityHeights) then
    match list.last priorityHeights with
    | Some last =>
        if last <=? daHeight then priorityHeights
        else slices_Insert (take (length priorityHeights - 1) priorityHeights) idx daHeight
    | None => priorityHeights
    end
  else slices_Insert priorityHeights idx daHeight.

Definition popPriorityHeight (priorityHeights : list Z) : Z * list Z :=
  match priorityHeights with
  | [] => (0, [])
  | height :: rest => (height, rest)
  end.

(** ** Facts *)

Definition increasing (l : list Z) : Prop := StronglySorted Z.lt l.

Record queue_wf (l : list Z) : Prop := { qw_sorted : increasing l; qw_bounded : (length l <= maxPriorityHeights)%nat }.

Lemma BinarySearch_split l t i found :
  increasing l -> BinarySearch l t = (i, found) ->
  (i <= length l)%nat /\ Forall (fun x => x < t) (take i l) /\ Forall (fun x => t <= x) (drop i l) /\ (found = true <-> t ∈ l).
Proof.
  intros Hl. revert i. induction Hl as [|x l Hl IH Hx]; intros i; simpl.
  { intros [= <- <-]. split_and!; [done|constructor|constructor|]. split; [done|]. intros Hin. by apply not_elem_of_nil in Hin. }
  destruct (Z.ltb_spec x t) as [Hlt|Hge].
  - destruct (BinarySearch l t) as [j f] eqn:Hb. intros [= <- <-]. destruct (IH j eq_refl) as (Hj & Ht & Hd & Hf).
    split_and!; [simpl; lia|by constructor|done|]. rewrite Hf, elem_of_cons. split; [by right|]. intros [->|]; [lia|done].
  - intros [= <- <-]. split_and!; [lia|constructor| |].
    + constructor; [done|]. eapply list.Forall_impl; [exact Hx|]. simpl. lia.
    + rewrite Z.eqb_eq, elem_of_cons. split; [by left|]. intros [->|Hin]; [done|].
      assert (x < t) by (by apply (proj1 (list.Forall_forall _ _) Hx)). lia.
Qed.

Lemma increasing_app l1 l2 :
  increasing l1 -> increasing l2 -> (forall x y, x ∈ l1 -> y ∈ l2 -> x < y) -> increasing (l1 ++ l2).
Proof.
  intros H1 H2 Hlt. induction H1 as [|x l1 H1 IH Hx]; [done|]. simpl. constructor.
  - apply IH. intros a b Ha. apply Hlt. by right.
  - apply Forall_app. split; [done|]. apply list.Forall_forall. intros y Hy. apply Hlt; [left|done].
Qed.

Lemma increasing_take_drop n l : increasing l ->
  increasing (take n l) /\ increasing (drop n l) /\ forall x y, x ∈ take n l -> y ∈ drop n l -> x < y.
Proof.
  intros Hl. revert n. induction Hl as [|x l Hl IH Hx]; intros [|n]; simpl; split_and!; try constructor; try done;
    try (by intros a b Ha%not_elem_of_nil); try apply (IH n).
  - apply list.Forall_forall. intros y Hy. apply (proj1 (list.Forall_forall _ _) Hx).
    rewrite <- (take_drop n l). apply elem_of_app. by left.
  - intros a b [->|Ha]%elem_of_cons Hb.
    + apply (proj1 (list.Forall_forall _ _) Hx). rewrite <- (take_drop n l). apply elem_of_app. by right.
    + by apply (IH n).
Qed.

Lemma Insert_increasing l d i :
  increasing l -> Forall (fun x => x < d) (take i l) -> Forall (fun x => d < x) (drop i l) -> increasing (slices_Insert l i d).
Proof.
  intros Hl Ht Hd. destruct (increasing_take_drop i l Hl) as (H1 & H2 & H3). unfold slices_Insert.
  apply increasing_app; [done|by constructor|]. intros x y Hx [->|Hy]%elem_of_cons.
  - by apply (proj1 (list.Forall_forall _ _) Ht).
  - by apply H3.
Qed.

Lemma elem_of_Insert l d i x : x ∈ slices_Insert l i d <-> x = d \/ x ∈ l.
Proof.
  unfold slices_Insert. rewrite elem_of_app, elem_of_cons.
  rewrite <- (take_drop i l) at 3. rewrite elem_of_app. tauto.
Qed.

Lemma elem_of_Queue d l x : x ∈ QueuePriorityHeight d l -> x = d \/ x ∈ l.
Proof.
  unfold QueuePriorityHeight. destruct (BinarySearch l d) as [i []]; [by right|].
  destruct (Nat.leb _ _); [|by rewrite elem_of_Insert].
  destruct (list.last l) as [y|]; [|by right]. destruct (_ <=? _); [by right|]. rewrite elem_of_Insert.
  intros [->|Hx]; [by left|right]. eapply elem_of_submseteq; [exact Hx|]. apply sublist_submseteq, sublist_take.
Qed.

(** The queue of priority heights stays strictly increasing and bounded, and
    it keeps the lowest heights: queueing a height adds nothing else, and a
    height of the queue (or the new one) is dropped only when the queue is full
    of lower ones; popping returns the lowest. *)
Theorem priority_queue_correct d l :
  queue_wf l ->
  let l' := QueuePriorityHeight d l in
  queue_wf l' /\ (forall x, x ∈ l' -> x = d \/ x ∈ l) /\
  (forall x, x = d \/ x ∈ l -> x ∉ l' -> length l' = maxPriorityHeights /\ forall y, y ∈ l' -> y < x) /\
  (forall x, x ∈ l' -> (popPriorityHeight l').1 <= x) /\ queue_wf (popPriorityHeight l').2.
Proof.
  intros [Hs Hb] l'.
  assert (Hpop : queue_wf l' -> (forall x, x ∈ l' -> (popPriorityHeight l').1 <= x) /\ queue_wf (popPriorityHeight l').2).
  { intros [Hs' Hb']. destruct l' as [|y q]; simpl; [split; [by intros x ?%not_elem_of_nil|done]|].
    inversion Hs' as [|? ? Hq Hy]; subst. split; [|split; [done|simpl in Hb'; lia]].
    intros x [->|Hx]%elem_of_cons; [lia|].
    assert (Hx' : y < x) by (by apply (proj1 (list.Forall_forall _ _) Hy)). lia. }
  assert (Hmain : queue_wf l' /\ (forall x, x ∈ l' -> x = d \/ x ∈ l) /\
    (forall x, x = d \/ x ∈ l -> x ∉ l' -> length l' = maxPriorityHeights /\ forall y, y ∈ l' -> y < x)); [|tauto].
  clear Hpop. unfold l', QueuePriorityHeight. destruct (BinarySearch l d) as [i found] eqn:Hbs.
  destruct (BinarySearch_split _ _ _ _ Hs Hbs) as (Hi & Ht & Hd & Hf). destruct found.
  { split; [by split|]. split; [auto|]. intros x [->|Hx] Hn; [|done]. destruct Hn. by apply Hf. }
  assert (Hnd : d ∉ l) by (intros Hin; apply Hf in Hin; done).
  assert (Hd' : Forall (fun x => d < x) (drop i l)).
  { apply list.Forall_forall. intros x Hx. assert (Hx' : d <= x) by (by apply (proj1 (list.Forall_forall _ _) Hd)).
    assert (x <> d); [|lia]. intros ->. apply Hnd. rewrite <- (take_drop i l). apply elem_of_app. by right. }
  destruct (Nat.leb_spec maxPriorityHeights (length l)) as [Hfull|Hroom].
  - destruct (list.last l) as [z|] eqn:Hlast; [|apply last_None in Hlast; subst; unfold maxPriorityHeights in Hfull; simpl in Hfull; lia].
    apply last_Some in Hlast as [l0 ->]. rewrite length_app in *. simpl in Hfull, Hb, Hi |- *.
    assert (Hz : forall x, x ∈ l0 -> x < z).
    { intros x Hx. destruct (increasing_take_drop (length l0) (l0 ++ [z]) Hs) as (_ & _ & H3).
      apply H3; [by rewrite take_app_length|rewrite drop_app_length; left]. }
    destruct (Z.leb_spec z d) as [Hle|Hgt].
    + split; [split; [done|rewrite length_app; simpl; lia]|]. split; [auto|]. intros x Hx Hn.
      split; [rewrite length_app; simpl; lia|].
      destruct Hx as [->|]; [|done]. intros y [Hy|Hy]%elem_of_app; [specialize (Hz y Hy); lia|].
      apply list_elem_of_singleton in Hy as ->. assert (z <> d); [|lia]. intros ->. apply Hnd, elem_of_app. right. left.
    + assert (Hil : (i <= length l0)%nat).
      { destruct (Nat.le_gt_cases i (length l0)); [done|]. assert (i = length (l0 ++ [z])) as -> by (rewrite length_app; simpl; lia).
        rewrite firstn_all in Ht. apply Forall_app in Ht as [_ Ht]. apply Forall_cons_1 in Ht as [Ht _]. lia. }
      replace (length l0 + 1 - 1)%nat with (length l0) by lia. rewrite take_app_length.
      rewrite take_app_le in Ht by done. rewrite drop_app_le in Hd' by done. apply Forall_app in Hd' as [Hd' _].
      destruct (increasing_take_drop (length l0) (l0 ++ [z]) Hs) as (Hs0 & _ & _). rewrite take_app_length in Hs0.
      split; [split; [by apply Insert_increasing|]|].
      { unfold slices_Insert. rewrite length_app. simpl. rewrite length_take, length_drop. lia. }
      split; [intros x [->|Hx]%elem_of_Insert; [by left|right; apply elem_of_app; by left]|].
      intros x Hx Hn. split.
      { unfold slices_Insert. rewrite length_app. simpl. rewrite length_take, length_drop. unfold maxPriorityHeights in *. lia. }
      rewrite elem_of_Insert in Hn. destruct Hx as [->|[Hx|Hx]%elem_of_app]; [tauto|tauto|].
      apply list_elem_of_singleton in Hx as ->. intros y [->|Hy]%elem_of_Insert; [done|by apply Hz].
  - split; [split; [by apply Insert_increasing|]|].
    { unfold slices_Insert. rewrite length_app. simpl. rewrite length_take, length_drop. lia. }
    split; [intros x [->|Hx]%elem_of_Insert; auto|]. intros x Hx Hn. rewrite elem_of_Insert in Hn. tauto.
Qed.

(** A queue of three heights. *)
Lemma priority_queue_correct_witness :
  QueuePriorityHeight 5 [3; 7; 9] = [3; 5; 7; 9] /\ queue_wf (QueuePriorityHeight 5 [3; 7; 9]).
Proof.
  split; [reflexivity|]. apply (priority_queue_correct 5 [3; 7; 9]). split.
  - repeat constructor.
  - vm_compute. lia.
Defined.
