(* ===== verification/Subscriber.v ===== *)
(** * The DA subscriber ([block/internal/da/subscriber.go])

    Two goroutines share a few atomic variables: one follows the subscription
    (or polls the latest height) and handles an event inline when it is at the
    local height, the other catches up height by height. A step here is one
    atomic access of one of them, so that a run is any interleaving; the
    handler's answers, the events and the context are the labels of the steps. *)

From S2P Require Import Prelude.
From stdpp Require Import base list numbers.
Open Scope Z_scope.

(** ** State *)

(** Where the follow or poll loop is. *)
Inductive follow_pc :=
| FIdle
(** [updateHighest(h)], and whether it was called by [pollDAHeight]. *)
| FUpdate (h : Z) (poll : bool)
| FSwap (h cur : Z) (poll : bool)
| FSignal (h : Z) (poll : bool)
| FLoad (h : Z)
| FClaim (h local : Z)
| FHandle (h local : Z) (isInline : bool)
| FReached (h : Z)
(** [pollDAHeight], with the latest height and then with [cur]. *)
| FPolled (h : Z).

(** Where the catchup loop is. *)
Inductive catchup_pc :=
| CIdle
| CTop
| CLocal
| CHighest (local : Z)
| CTest (local highest : Z)
| CClaim (local highest : Z)
| CHandle (local highest : Z)
| CFailed (local highest : Z) (future : bool).

Record Subscriber := MkSubscriber
  { localDAHeight : Z;
    highestSeenDAHeight : Z;
    headReached : bool;
    seenSubscriptionEvent : bool;
    (** The buffered channel of capacity one. *)
    catchupSignal : bool;
    follow : follow_pc;
    catchup : catchup_pc;
    (** The heights that were handled without an error, latest first. *)
    handled : list Z }.

Definition set_local x s := MkSubscriber x (highestSeenDAHeight s) (headReached s) (seenSubscriptionEvent s) (catchupSignal s) (follow s) (catchup s) (handled s).
Definition set_highest x s := MkSubscriber (localDAHeight s) x (headReached s) (seenSubscriptionEvent s) (catchupSignal s) (follow s) (catchup s) (handled s).
Definition set_headReached x s := MkSubscriber (localDAHeight s) (highestSeenDAHeight s) x (seenSubscriptionEvent s) (catchupSignal s) (follow s) (catchup s) (handled s).
Definition set_seenEvent x s := MkSubscriber (localDAHeight s) (highestSeenDAHeight s) (headReached s) x (catchupSignal s) (follow s) (catchup s) (handled s).
Definition set_signal x s := MkSubscriber (localDAHeight s) (highestSeenDAHeight s) (headReached s) (seenSubscriptionEvent s) x (follow s) (catchup s) (handled s).
Definition goto_f x s := MkSubscriber (localDAHeight s) (highestSeenDAHeight s) (headReached s) (seenSubscriptionEvent s) (catchupSignal s) x (catchup s) (handled s).
Definition goto_c x s := MkSubscriber (localDAHeight s) (highestSeenDAHeight s) (headReached s) (seenSubscriptionEvent s) (catchupSignal s) (follow s) x (handled s).
Definition add_handled x s := MkSubscriber (localDAHeight s) (highestSeenDAHeight s) (headReached s) (seenSubscriptionEvent s) (catchupSignal s) (follow s) (catchup s) (x :: handled s).

Definition NewSubscriber (startHeight : Z) : Subscriber :=
  MkSubscriber startHeight startHeight false false (negb (startHeight =? 0)) FIdle CIdle [].

(** ** Steps *)

(** An event of the subscription, a polled height, an atomic access, or the
    answer of [HandleEvent]. *)
Inductive finput := IEvent (h : Z) | IPoll (h : Z) | ITick | IHandled (ok : bool).

(** The follow loop and the poll loop; a step that is not possible is [None]. *)
Definition follow_step (i : finput) (s : Subscriber) : option Subscriber :=
  match follow s, i with
  | FIdle, IEvent h => Some (goto_f (FUpdate h false) (set_seenEvent true s))
  | FIdle, IPoll h => Some (goto_f (FPolled h) s)
  | FPolled h, ITick =>
      if h <=? highestSeenDAHeight s then Some (goto_f FIdle s)
      else Some (goto_f (FUpdate h true) (set_seenEvent true s))
  (* updateHighest *)
  | FUpdate h poll, ITick =>
      if h <=? highestSeenDAHeight s then Some (goto_f (if poll then FIdle else FLoad h) s)
      else Some (goto_f (FSwap h (highestSeenDAHeight s) poll) s)
  | FSwap h cur poll, ITick =>
      if highestSeenDAHeight s =? cur then Some (goto_f (FSignal h poll) (set_highest h s))
      else Some (goto_f (FUpdate h poll) s)
  | FSignal h poll, ITick => Some (goto_f (if poll then FIdle else FLoad h) (set_signal true s))
  (* runSubscription *)
  | FLoad h, ITick => Some (goto_f (FClaim h (localDAHeight s)) s)
  | FClaim h local, ITick =>
      if (h =? local) && (localDAHeight s =? local) then Some (goto_f (FHandle h local true) (set_local (add64 local 1) s))
      else Some (goto_f (FHandle h local false) s)
  | FHandle h local isInline, IHandled ok =>
      if negb isInline then Some (goto_f FIdle s)
      else if ok then Some (goto_f (FReached h) (add_handled h s))
      else Some (goto_f FIdle (set_local local s))
  | FReached h, ITick =>
      Some (goto_f FIdle (if highestSeenDAHeight s <=? h then set_headReached true s else s))
  | _, _ => None
  end.

(** An atomic access, the context being done, or the answer of [HandleCatchup]:
    no error, [ErrHeightFromFuture], or another error. *)
Inductive cinput := JTick | JDone | JHandled | JFailed (future : bool).

Definition catchup_step (i : cinput) (s : Subscriber) : option Subscriber :=
  match catchup s, i with
  | CIdle, JTick => if catchupSignal s then Some (goto_c CTop (set_signal false s)) else None
  | CTop, JTick => Some (goto_c CLocal s)
  | CTop, JDone => Some (goto_c CIdle s)
  | CLocal, JTick => Some (goto_c (CHighest (localDAHeight s)) s)
  | CHighest local, JTick => Some (goto_c (CTest local (highestSeenDAHeight s)) s)
  | CTest local highest, JTick =>
      if seenSubscriptionEvent s && (highest <? local) then Some (goto_c CIdle (set_headReached true s))
      else Some (goto_c (CClaim local highest) s)
  | CClaim local highest, JTick =>
      if localDAHeight s =? local then Some (goto_c (CHandle local highest) (set_local (add64 local 1) s))
      else Some (goto_c CTop s)
  | CHandle local highest, JHandled => Some (goto_c CTop (add_handled local s))
  | CHandle local highest, JFailed future => Some (goto_c (CFailed local highest future) (set_local local s))
  (* the error, and shouldContinueCatchup with its backoff *)
  | CFailed local highest future, JTick =>
      if future && (highest <=? local) then Some (goto_c CIdle (set_headReached true s)) else Some (goto_c CTop s)
  | CFailed local highest future, JDone =>
      if future && (highest <=? local) then Some (goto_c CIdle (set_headReached true s)) else Some (goto_c CIdle s)
  | _, _ => None
  end.

Definition label : Type := finput + cinput.
Definition sub_step (l : label) (s : Subscriber) : option Subscriber :=
  match l with inl i => follow_step i s | inr j => catchup_step j s end.

Fixpoint sub_run (ls : list label) (s : Subscriber) : option Subscriber :=
  match ls with
  | [] => Some s
  | l :: ls' => s' ← sub_step l s; sub_run ls' s'
  end.

(** ** No height is skipped *)

(** The heights that are claimed and being handled. *)
Definition claimed (s : Subscriber) : list Z :=
  match follow s with FHandle _ local true => [local] | _ => [] end ++
  match catchup s with CHandle local _ => [local] | _ => [] end.

(** A step that gives a claim back finds the local height above the claim. *)
Definition rollback_ok (l : label) (s : Subscriber) : bool :=
  match l, follow s, catchup s with
  | inl (IHandled false), FHandle _ local true, _ => local <? localDAHeight s
  | inr (JFailed _), _, CHandle local _ => local <? localDAHeight s
  | _, _, _ => true
  end.

Fixpoint rollbacks_ok (ls : list label) (s : Subscriber) : bool :=
  match ls with
  | [] => true
  | l :: ls' => rollback_ok l s && match sub_step l s with Some s' => rollbacks_ok ls' s' | None => true end
  end.

Definition no_gap (start : Z) (s : Subscriber) : Prop :=
  forall h, start <= h < localDAHeight s -> h ∈ handled s \/ h ∈ claimed s.

Lemma add64_1_cases l : is_u64 l -> add64 l 1 = l + 1 \/ add64 l 1 = 0.
Proof.
  intros Hl. unfold is_u64 in Hl. destruct (decide (l + 1 < two64)); [left; apply add64_small; lia|right].
  assert (l = two64 - 1) as -> by lia. reflexivity.
Qed.

(** A claim covers the height that it adds. *)
Lemma no_gap_claim start s s' l :
  localDAHeight s = l -> is_u64 l -> 0 <= start -> localDAHeight s' = add64 l 1 -> handled s' = handled s -> l ∈ claimed s' ->
  (forall h, h ∈ claimed s -> h ∈ claimed s') -> no_gap start s -> no_gap start s'.
Proof.
  intros Hl Hu Hst Hl' Hh Hin Hmono Hg h Hr. rewrite Hl' in Hr. rewrite Hh.
  destruct (add64_1_cases l Hu) as [E|E]; rewrite E in Hr; [|lia].
  destruct (decide (h = l)) as [->|Hne]; [by right|]. destruct (Hg h) as [?|?]; [lia|by left|right; auto].
Qed.

(** Nothing that matters changes. *)
Lemma no_gap_same start s s' :
  localDAHeight s' = localDAHeight s -> (forall h, h ∈ handled s -> h ∈ handled s') ->
  (forall h, h ∈ claimed s -> h ∈ claimed s' \/ h ∈ handled s') -> no_gap start s -> no_gap start s'.
Proof. intros El Hh Hc Hg h Hr. rewrite El in Hr. destruct (Hg h Hr) as [?|Hx]; [auto|]. destruct (Hc _ Hx); auto. Qed.

(** A claim above which the local height is can be given back. *)
Lemma no_gap_rollback start s s' x :
  x < localDAHeight s -> localDAHeight s' = x -> handled s' = handled s ->
  (forall h, h ∈ claimed s -> h = x \/ h ∈ claimed s') -> no_gap start s -> no_gap start s'.
Proof.
  intros Hx Hl Hh Hc Hg h Hr. rewrite Hl in Hr. rewrite Hh. destruct (Hg h) as [?|Hin]; [lia|by left|].
  destruct (Hc _ Hin) as [->|?]; [lia|by right].
Qed.

(** What a step does to the local height, the claims and the handled heights. *)
Inductive effect (l : label) (s s' : Subscriber) : Prop :=
| eff_keep : localDAHeight s' = localDAHeight s -> (forall h, h ∈ handled s -> h ∈ handled s') ->
    (forall h, h ∈ claimed s -> h ∈ claimed s' \/ h ∈ handled s') -> (forall h, h ∈ claimed s' -> h ∈ claimed s) -> effect l s s'
| eff_claim : localDAHeight s' = add64 (localDAHeight s) 1 -> handled s' = handled s -> localDAHeight s ∈ claimed s' ->
    (forall h, h ∈ claimed s -> h ∈ claimed s') -> (forall h, h ∈ claimed s' -> h = localDAHeight s \/ h ∈ claimed s) -> effect l s s'
| eff_rollback x : (rollback_ok l s = true -> x < localDAHeight s) -> x ∈ claimed s -> localDAHeight s' = x -> handled s' = handled s ->
    (forall h, h ∈ claimed s -> h = x \/ h ∈ claimed s') -> (forall h, h ∈ claimed s' -> h ∈ claimed s) -> effect l s s'.

Ltac claims := unfold claimed in *; simpl in *; repeat match goal with E : follow _ = _ |- _ => rewrite E in * | E : catchup _ = _ |- _ => rewrite E in * end;
  simpl in *; intros; rewrite ?elem_of_app, ?elem_of_cons in *; try tauto; auto.

(** An inline claim is for the height of the event. *)
Definition inline_wf (s : Subscriber) : Prop := forall h local, follow s = FHandle h local true -> h = local.

Lemma follow_step_wf i s s' : follow_step i s = Some s' -> inline_wf s -> inline_wf s'.
Proof.
  unfold follow_step, inline_wf. intros Hs Hw h0 l0 Hf'. repeat case_match; simplify_eq/=; try done.
  by match goal with E : _ && _ = true |- _ => apply andb_true_iff in E as [E%Z.eqb_eq _] end.
Qed.
Lemma catchup_step_wf j s s' : catchup_step j s = Some s' -> inline_wf s -> inline_wf s'.
Proof. unfold catchup_step, inline_wf. intros Hs Hw h0 l0 Hf'. repeat case_match; simplify_eq/=; by eapply Hw. Qed.

Lemma follow_step_effect i s s' : inline_wf s -> follow_step i s = Some s' -> effect (inl i) s s'.
Proof.
  intros Hw. unfold follow_step. destruct (follow s) as [|h poll|h cur poll|h poll|h|h local|h local isInline|h|h] eqn:Hf;
    destruct i as [h'|h'| |ok]; try done; intros Hs.
  all: try (repeat case_match; simplify_eq; apply eff_keep; simpl; claims; fail).
  - destruct (Z.eqb_spec h local) as [->|], (Z.eqb_spec (localDAHeight s) local) as [El|]; simpl in Hs; simplify_eq;
      try (apply eff_keep; simpl; claims; fail).
    apply eff_claim; simpl; claims.
  - destruct isInline, ok; simpl in Hs; simplify_eq; try (apply eff_keep; simpl; claims; fail);
      assert (h = local) as -> by (by apply Hw).
    + apply eff_keep; simpl; claims.
    + apply (eff_rollback _ _ _ local); simpl; try (unfold rollback_ok; rewrite Hf; apply Z.ltb_lt); claims.
Qed.

Lemma catchup_step_effect j s s' : catchup_step j s = Some s' -> effect (inr j) s s'.
Proof.
  unfold catchup_step. destruct (catchup s) as [| | |local|local highest|local highest|local highest|local highest future] eqn:Hf;
    destruct j as [| | |fut]; try done; intros Hs.
  all: try (repeat case_match; simplify_eq; apply eff_keep; simpl; claims; fail).
  - destruct (Z.eqb_spec (localDAHeight s) local) as [El|]; simplify_eq; [apply eff_claim|apply eff_keep]; simpl; claims.
  - simplify_eq. apply (eff_rollback _ _ _ local); simpl; try (unfold rollback_ok; rewrite Hf; destruct (follow s); apply Z.ltb_lt); claims.
Qed.

Record sub_inv (start : Z) (s : Subscriber) : Prop := {
  su_local : is_u64 (localDAHeight s);
  su_claimed h : h ∈ claimed s -> is_u64 h;
  su_inline : inline_wf s;
  su_gap : no_gap start s }.

Lemma sub_step_inv start l s s' :
  0 <= start -> rollback_ok l s = true -> sub_step l s = Some s' -> sub_inv start s -> sub_inv start s'.
Proof.
  intros Hst Hok Hs [Hu Hc Hw Hg].
  assert (Hw' : inline_wf s') by (destruct l; [by eapply follow_step_wf|by eapply catchup_step_wf]).
  assert (He : effect l s s') by (destruct l; [by apply follow_step_effect|by apply catchup_step_effect]).
  destruct He as [El Hh Hm Hm'|El Hh Hin Hm Hm'|x Hx Hin El Hh Hm Hm'].
  - split; [by rewrite El|auto|done|by eapply no_gap_same].
  - split; [rewrite El; apply add64_u64| |done|by eapply (no_gap_claim start s)]. intros h Hi. destruct (Hm' _ Hi) as [->|]; auto.
  - split; [rewrite El; auto|auto|done|eapply (no_gap_rollback start s); eauto].
Qed.

Lemma sub_run_inv start ls s s' :
  0 <= start -> rollbacks_ok ls s = true -> sub_run ls s = Some s' -> sub_inv start s -> sub_inv start s'.
Proof.
  intros Hst. revert s. induction ls as [|l ls IH]; intros s Hok Hr Hi; [by simplify_eq/=|].
  simpl in Hok, Hr. apply bind_Some in Hr as (s1 & Hs & Hr). rewrite Hs in Hok. apply andb_true_iff in Hok as [Hok Hrest].
  eapply IH; [exact Hrest|exact Hr|]. by eapply sub_step_inv.
Qed.

(** C7: However the follow loop and the catchup loop interleave, whatever events
    arrive and whichever calls of the handler fail: as long as a claim that is
    given back is still below the local height, no DA height is skipped. Every
    height from the start height up to the local height was handled without an
    error or is being handled, and when neither loop is handling one, all were
    handled. *)
Theorem no_height_skipped start ls s' :
  is_u64 start -> rollbacks_ok ls (NewSubscriber start) = true -> sub_run ls (NewSubscriber start) = Some s' ->
  (forall h, start <= h < localDAHeight s' -> h ∈ handled s' \/ h ∈ claimed s') /\
  (claimed s' = [] -> forall h, start <= h < localDAHeight s' -> h ∈ handled s').
Proof.
  intros Hu Hok Hr. destruct (sub_run_inv start ls _ _ (proj1 Hu) Hok Hr) as [_ _ _ Hg].
  { clear Hr Hok. split; [exact Hu|intros h Hin; by apply not_elem_of_nil in Hin|intros ? ? [=]|]. intros h Hh. simpl in Hh. lia. }
  split; [exact Hg|]. intros Hc h Hh. destruct (Hg h Hh) as [|Hin]; [done|]. rewrite Hc in Hin. by apply not_elem_of_nil in Hin.
Qed.

(** ** Two claims at once *)

Definition ticks (n : nat) : list label := replicate n (inr JTick).

(** The catchup loop is handling 5 when the event of height 6 is claimed inline;
    both fail, the catchup first: the local height ends above 5, which nobody
    handles any more. *)
Definition skip_schedule : list label :=
  ticks 6 ++ inl (IEvent 6) :: replicate 5 (inl ITick) ++ [inr (JFailed false); inl (IHandled false)].
Definition summary (s : Subscriber) : Z * list Z * list Z := (localDAHeight s, handled s, claimed s).
Example height_skipped : summary <$> sub_run skip_schedule (NewSubscriber 5) = Some (6, [], []).
Proof. vm_compute. reflexivity. Qed.

(** The catchup loop retries 5, goes on to 6, and handles it while the follow
    loop still does. *)
Definition twice_schedule : list label :=
  ticks 6 ++ inl (IEvent 6) :: replicate 5 (inl ITick) ++ inr (JFailed false) :: ticks 6 ++ inr JHandled :: ticks 5.
Example handled_by_both : summary <$> sub_run twice_schedule (NewSubscriber 5) = Some (7, [5], [6; 6]).
Proof. vm_compute. reflexivity. Qed.

(** A schedule in which every claim is given back in time. *)
Definition calm_schedule : list label :=
  ticks 6 ++ inr JHandled :: inl (IEvent 6) :: replicate 5 (inl ITick) ++ [inl (IHandled false)] ++ ticks 5 ++ [inr (JFailed true)].

Lemma no_height_skipped_witness :
  exists s, sub_run calm_schedule (NewSubscriber 5) = Some s /\ localDAHeight s = 6 /\ 5 ∈ handled s.
Proof.
  destruct (sub_run calm_schedule (NewSubscriber 5)) as [s|] eqn:Hr; [|vm_compute in Hr; discriminate].
  exists s. assert (Hs : summary s = (6, [5], [])).
  { assert (E : summary <$> sub_run calm_schedule (NewSubscriber 5) = Some (6, [5], [])) by (vm_compute; reflexivity).
    rewrite Hr in E. exact (inj Some _ _ E). }
  assert (Hl : localDAHeight s = 6) by exact (f_equal (fun x => x.1.1) Hs).
  split; [done|]. split; [done|].
  apply (proj2 (no_height_skipped 5 calm_schedule s ltac:(split; [discriminate|reflexivity]) ltac:(vm_compute; reflexivity) Hr)).
  - exact (f_equal (fun x => x.2) Hs).
  - lia.
Defined.

(** ** Catching up ends at the head *)

(** One height that is handled without an error, and the last round. *)
Definition one_height : list label := ticks 5 ++ [inr JHandled].
Fixpoint catch_up (n : nat) : list label :=
  match n with O => ticks 4 | S n' => one_height ++ catch_up n' end.

Lemma sub_run_app ls1 ls2 s : sub_run (ls1 ++ ls2) s = sub_run ls1 s ≫= sub_run ls2.
Proof.
  revert s. induction ls1 as [|l ls1 IH]; intros s; [done|]. simpl. destruct (sub_step l s); [apply IH|done].
Qed.

Lemma one_height_run s :
  catchup s = CTop -> localDAHeight s <= highestSeenDAHeight s ->
  sub_run one_height s = Some (goto_c CTop (add_handled (localDAHeight s) (set_local (add64 (localDAHeight s) 1) s))).
Proof.
  intros Hc Hl. destruct s as [l hi hr se sg f c hd]. simpl in *. subst c.
  cbn -[add64 Z.ltb Z.eqb]. replace (hi <? l) with false by (symmetry; apply Z.ltb_ge; lia).
  rewrite andb_false_r. cbn -[add64 Z.ltb Z.eqb]. by rewrite Z.eqb_refl.
Qed.

(** The steps of the catchup loop when neither the handler fails nor the context
    is done. At most one of them is possible at a time. *)
Definition undisturbed (l : label) : Prop := l = inr JTick \/ l = inr JHandled.

Lemma undisturbed_once l1 l2 s :
  undisturbed l1 -> undisturbed l2 -> is_Some (sub_step l1 s) -> is_Some (sub_step l2 s) -> l1 = l2.
Proof.
  intros [-> | ->] [-> | ->] [s1 E1] [s2 E2]; try done; exfalso; cbn in E1, E2; unfold catchup_step in *;
    destruct (catchup s); simplify_eq/=.
Qed.

Lemma undisturbed_prefix ls1 ls2 s s1 s2 :
  Forall undisturbed ls1 -> Forall undisturbed ls2 -> sub_run ls1 s = Some s1 -> sub_run ls2 s = Some s2 ->
  ls1 `prefix_of` ls2 \/ ls2 `prefix_of` ls1.
Proof.
  revert ls2 s. induction ls1 as [|l1 ls1 IH]; intros [|l2 ls2] s F1 F2 R1 R2; [left|left|right|]; try by eexists.
  apply Forall_cons_1 in F1 as [U1 F1]. apply Forall_cons_1 in F2 as [U2 F2]. simpl in R1, R2.
  apply bind_Some in R1 as (t1 & E1 & R1). apply bind_Some in R2 as (t2 & E2 & R2).
  assert (l1 = l2) as -> by by eapply (undisturbed_once l1 l2 s); [| |eexists|eexists].
  rewrite E1 in E2. injection E2 as <-. destruct (IH ls2 t1 F1 F2 R1 R2); [left|right]; by apply prefix_cons.
Qed.

Lemma catch_up_undisturbed n : Forall undisturbed (catch_up n).
Proof.
  assert (Ht : forall k, Forall undisturbed (ticks k)) by (intros k; apply Forall_replicate; by left).
  induction n as [|n IH]; cbn [catch_up]; [apply Ht|]. apply Forall_app. split; [|exact IH].
  apply Forall_app. split; [apply Ht|]. constructor; [by right|constructor].
Qed.

Lemma catch_up_run s n :
  catchup s = CTop -> seenSubscriptionEvent s = true -> 0 <= localDAHeight s -> highestSeenDAHeight s < max_u64 ->
  highestSeenDAHeight s + 1 = localDAHeight s + Z.of_nat n ->
  exists s', sub_run (catch_up n) s = Some s' /\ catchup s' = CIdle /\ headReached s' = true /\
    localDAHeight s' = highestSeenDAHeight s + 1 /\
    handled s' = reverse (z_range (localDAHeight s) (highestSeenDAHeight s)) ++ handled s.
Proof.
  revert s. induction n as [|n IH]; intros s Hc Hs H0 Hmax Hn; cbn [catch_up].
  - destruct s as [l hi hr se sg f c hd]. simpl in *. subst c se. cbn -[Z.ltb].
    replace (hi <? l) with true by (symmetry; apply Z.ltb_lt; lia). cbn -[Z.ltb]. eexists. split; [done|]. simpl.
    rewrite z_range_nil by lia. split_and!; [done|done|lia|done].
  - rewrite sub_run_app, one_height_run by (done || lia). cbn [mbind option_bind].
    set (s1 := goto_c CTop _). unfold max_u64 in Hmax.
    assert (Hl1 : localDAHeight s1 = localDAHeight s + 1) by (simpl; apply add64_small; unfold two64; lia).
    destruct (IH s1) as (s' & Hr & A1 & A2 & A3 & A4); try done; [lia|simpl in *; lia|].
    exists s'. split; [exact Hr|]. split_and!; [done..|]. rewrite A4, Hl1.
    rewrite (z_range_cons (localDAHeight s)) by lia. rewrite reverse_cons. change (highestSeenDAHeight s1) with (highestSeenDAHeight s).
    by rewrite <- app_assoc.
Qed.

(** C8: Take a catchup run at its top, after a subscription event was seen, with
    [n] heights left up to the highest seen one, which is below the largest
    uint64. While the follow loop takes no step, the handler does not fail and
    the context is not done, the catchup loop runs in only one way, and it
    reaches the head in finitely many steps: after the steps [catch_up n] it is
    idle, it has handled every height from the local height to the highest seen
    one exactly once and in order, the local height is one above, and the head
    is marked as reached; every other such run is a part of this one or goes on
    from there. (When the follow loop claims heights at the same time, a height
    may be handled twice.) *)
Theorem catchup_reaches_head s n :
  catchup s = CTop -> seenSubscriptionEvent s = true -> 0 <= localDAHeight s -> highestSeenDAHeight s < max_u64 ->
  highestSeenDAHeight s + 1 = localDAHeight s + Z.of_nat n ->
  (exists s', sub_run (catch_up n) s = Some s' /\ catchup s' = CIdle /\ headReached s' = true /\
    localDAHeight s' = highestSeenDAHeight s + 1 /\
    handled s' = reverse (z_range (localDAHeight s) (highestSeenDAHeight s)) ++ handled s) /\
  (forall ls s', Forall undisturbed ls -> sub_run ls s = Some s' -> ls `prefix_of` catch_up n \/ catch_up n `prefix_of` ls).
Proof.
  intros Hc Hs H0 Hmax Hn. destruct (catch_up_run s n Hc Hs H0 Hmax Hn) as (s' & Hr & Hrest). split; [by exists s'|].
  intros ls s2 Hls Hr2. exact (undisturbed_prefix _ _ _ _ _ Hls (catch_up_undisturbed n) Hr2 Hr).
Qed.

Lemma catchup_reaches_head_witness :
  exists s', sub_run (catch_up 3) (goto_c CTop (set_seenEvent true (set_highest 7 (NewSubscriber 5)))) = Some s' /\
    localDAHeight s' = 8 /\ handled s' = [7; 6; 5].
Proof.
  destruct (catchup_reaches_head (goto_c CTop (set_seenEvent true (set_highest 7 (NewSubscriber 5)))) 3)
    as [(s' & Hr & _ & _ & Hl & Hh) _]; try reflexivity; [discriminate|].
  exists s'. split; [exact Hr|]. split; [exact Hl|]. rewrite Hh. reflexivity.
Defined.
