(* ===== verification/Types.v ===== *)
(** * Block types and their basic validation ([types/])

    The structs of [types/header.go], [types/data.go], [types/signed_header.go],
    [types/signer.go] and [types/state.go], and the operations on them that
    need neither serialization nor hashing. Byte slices whose nilness the code
    observes are [slice]; times are nanoseconds since the Unix epoch, and
    [time.Now()] is an argument. libp2p's [crypto.PubKey] is the class
    [PubKeys]. *)

From S2P Require Import Prelude Sha256.
From stdpp Require Import base gmap strings list numbers.
Open Scope Z_scope.

(** ** Errors of the package *)

Inductive terror :=
| ErrNoProposerAddress
| ErrInvalidTimestamp
| ErrSignatureEmpty
| ErrSignerPubKeyMissing
| ErrSignerAddressMismatch
| ErrProposerAddressMismatch
| ErrSignatureVerificationFailed
| ErrLastHeaderHashMismatch
| ErrHeaderDataMismatch
| ErrDataHashMismatch
| ErrUnexpectedProposer
| ErrInvalidChainID
| ErrInvalidBlockHeight
| ErrInvalidBlockTime
| ErrInvalidLastHeaderHash
| ErrInvalidLastAppHash
| ErrProvider            (* a custom signature payload provider failed *)
| ErrVerify              (* PubKey.Verify returned an error *)
| ErrPubKeyEncoding      (* crypto.MarshalPublicKey or UnmarshalPublicKey failed *)
| ErrProto               (* proto.Marshal or proto.Unmarshal failed *)
| ErrMsg (msg : string). (* errors.New or fmt.Errorf with no sentinel *)

#[export] Instance terror_eq_dec : EqDecision terror.
Proof. solve_decision. Defined.

(** ** libp2p public keys *)

Class PubKeys (PK : Type) := {
  pk_Raw : PK -> res unit bytes;
  pk_Verify : PK -> bytes -> bytes -> res unit bool;
  MarshalPublicKey : PK -> res unit bytes;
  UnmarshalPublicKey : bytes -> res unit PK
}.

(** What [crypto.MarshalPublicKey] documents: its output is not empty and
    [crypto.UnmarshalPublicKey] reads it back. *)
Class PubKeysLaws (PK : Type) `{PubKeys PK} := {
  marshal_pubkey_nonempty pk b : MarshalPublicKey pk = Ok b -> b <> [];
  unmarshal_marshal_pubkey pk b : MarshalPublicKey pk = Ok b -> UnmarshalPublicKey b = Ok pk
}.

(** ** Headers *)

Record Version := MkVersion { v_Block : Z; v_App : Z }.

Record BaseHeader := MkBaseHeader { b_Height : Z; b_Time : Z; b_ChainID : string }.

Record LegacyHeaderFields := MkLegacy
  { LastCommitHash : slice; ConsensusHash : slice; LastResultsHash : slice }.

Record Header := MkHeader
  { h_Base : BaseHeader;
    h_Version : Version;
    LastHeaderHash : slice;
    DataHash : slice;
    AppHash : slice;
    ValidatorHash : slice;
    ProposerAddress : slice;
    Legacy : option LegacyHeaderFields;
    cachedHash : slice }.

Definition MaxClockDrift : Z := 1 * minute.

(** The zero values [Version{}] and [new(Header)]. *)
Definition zero_version : Version := MkVersion 0 0.
Definition Header_New : Header :=
  MkHeader (MkBaseHeader 0 0 "") zero_version None None None None None None None.

Definition Header_ChainID (h : Header) : string := b_ChainID (h_Base h).
Definition Header_Height (h : Header) : Z := b_Height (h_Base h).
Definition Header_LastHeader (h : Header) : slice := LastHeaderHash h.

(** [time.Unix(0, int64(ns))]. *)
Definition unix_nano (ns : Z) : Z := to_i64 ns.
Definition Header_Time (h : Header) : Z := unix_nano (b_Time (h_Base h)).

Definition Header_ValidateBasic (now : Z) (h : Header) : res terror unit :=
  _ ← guard_err (negb (slen (ProposerAddress h) =? 0)) ErrNoProposerAddress;
  _ ← guard_err (negb (b_Time (h_Base h) =? 0)) ErrInvalidTimestamp;
  let maxAllowedTime := now + MaxClockDrift in
  let headerTime := Header_Time h in
  guard_err (negb (maxAllowedTime <? headerTime)) ErrInvalidTimestamp.

Definition Legacy_IsZero (l : option LegacyHeaderFields) : bool :=
  match l with
  | None => true
  | Some l =>
      (slen (LastCommitHash l) =? 0) && (slen (ConsensusHash l) =? 0)
      && (slen (LastResultsHash l) =? 0)
  end.

Definition EnsureDefaults (l : LegacyHeaderFields) : LegacyHeaderFields :=
  match ConsensusHash l with
  | None => MkLegacy (LastCommitHash l) (Some (replicate 32 Init.Byte.x00)) (LastResultsHash l)
  | Some _ => l
  end.

(** [cloneBytes]: nil for an empty slice, else a fresh copy. *)
Definition cloneBytes (b : slice) : slice :=
  if slen b =? 0 then None else Some (sl b).

Definition Legacy_Clone (l : option LegacyHeaderFields) : option LegacyHeaderFields :=
  match l with
  | None => None
  | Some l =>
      Some (MkLegacy (cloneBytes (LastCommitHash l)) (cloneBytes (ConsensusHash l))
                     (cloneBytes (LastResultsHash l)))
  end.

Definition set_Legacy (l : option LegacyHeaderFields) (h : Header) : Header :=
  MkHeader (h_Base h) (h_Version h) (LastHeaderHash h) (DataHash h) (AppHash h)
           (ValidatorHash h) (ProposerAddress h) l (cachedHash h).
Definition set_cachedHash (c : slice) (h : Header) : Header :=
  MkHeader (h_Base h) (h_Version h) (LastHeaderHash h) (DataHash h) (AppHash h)
           (ValidatorHash h) (ProposerAddress h) (Legacy h) c.

(** [InvalidateHash] on a possibly nil receiver. *)
Definition InvalidateHash (h : option Header) : option Header :=
  match h with
  | None => None
  | Some h => Some (set_cachedHash None h)
  end.

Definition ApplyLegacyDefaults (h : Header) : Header :=
  let l := match Legacy h with None => MkLegacy None None None | Some l => l end in
  set_cachedHash None (set_Legacy (Some (EnsureDefaults l)) h).

Definition Header_Clone (h : Header) : Header :=
  MkHeader (h_Base h) (h_Version h) (cloneBytes (LastHeaderHash h)) (cloneBytes (DataHash h))
           (cloneBytes (AppHash h)) (cloneBytes (ValidatorHash h)) (cloneBytes (ProposerAddress h))
           (Legacy_Clone (Legacy h)) None.

(** ** Data *)

Record Metadata := MkMetadata
  { m_ChainID : string; m_Height : Z; m_Time : Z; LastDataHash : slice }.

Record Data := MkData { d_Metadata : option Metadata; Txs : option (list bytes) }.

Definition data_txs (d : Data) : list bytes := default [] (Txs d).

Definition Signature_ValidateBasic (s : slice) : res terror unit :=
  guard_err (negb (slen s =? 0)) ErrSignatureEmpty.

Definition Metadata_Time (m : Metadata) : Z := unix_nano (m_Time m).

Definition Data_Validate (now : Z) (d : Data) : res terror unit :=
  match d_Metadata d with
  | None => Err (ErrMsg "data metadata cannot be nil")
  | Some m =>
      _ ← guard_err (negb (bool_decide (m_ChainID m = ""%string))) (ErrMsg "chain ID cannot be empty");
      _ ← guard_err (negb (m_Height m =? 0)) (ErrMsg "height cannot be zero");
      _ ← guard_err (negb (m_Time m =? 0)) (ErrMsg "timestamp cannot be zero");
      let maxAllowedTime := now + MaxClockDrift in
      guard_err (negb (maxAllowedTime <? Metadata_Time m)) (ErrMsg "timestamp too far in future")
  end.

Definition TxsByteSize (d : Data) : Z :=
  foldl (fun n tx => n + zlen tx) 0 (data_txs d).

(** ** Signers and signed values *)

Section signed.
Context {PK : Type}.

Record Signer := MkSigner { PubKey : option PK; s_Address : slice; marshalledPubKey : slice }.

Definition zero_signer : Signer := MkSigner None None None.

Record SignedHeader := MkSignedHeader
  { sh_Header : Header;
    sh_Signature : slice;
    sh_Signer : Signer;
    aggregatorSignatureProvider : option (Header -> res unit bytes);
    syncNodeSignatureBytesProvider : option (Header -> Data -> res unit bytes) }.

Record SignedData := MkSignedData
  { sd_Data : Data; sd_Signature : slice; sd_Signer : Signer }.

Definition SetCustomVerifierForAggregator p (sh : SignedHeader) : SignedHeader :=
  MkSignedHeader (sh_Header sh) (sh_Signature sh) (sh_Signer sh) p
                 (syncNodeSignatureBytesProvider sh).
Definition SetCustomVerifierForSyncNode p (sh : SignedHeader) : SignedHeader :=
  MkSignedHeader (sh_Header sh) (sh_Signature sh) (sh_Signer sh)
                 (aggregatorSignatureProvider sh) p.

Context `{PubKeys PK}.

(** [MarshalledPubKey], with the signer whose cache it may fill. *)
Definition MarshalledPubKey (s : Signer) : res terror slice * Signer :=
  if 0 <? slen (marshalledPubKey s) then (Ok (marshalledPubKey s), s)
  else
    match PubKey s with
    | None => (Ok None, s)
    | Some pk =>
        match MarshalPublicKey pk with
        | Err _ => (Err ErrPubKeyEncoding, s)
        | Ok bz => (Ok (Some bz), MkSigner (PubKey s) (s_Address s) (Some bz))
        end
    end.

Definition NewSigner (pk : PK) : res terror Signer :=
  match pk_Raw pk with
  | Err _ => Err ErrPubKeyEncoding
  | Ok bz =>
      match MarshalPublicKey pk with
      | Err _ => Err ErrPubKeyEncoding
      | Ok m => Ok (MkSigner (Some pk) (Some (Sha256.sum256 bz)) (Some m))
      end
  end.

Definition KeyAddress (pk : PK) : slice :=
  match pk_Raw pk with
  | Err _ => None
  | Ok bz => Some (Sha256.sum256 bz)
  end.

Definition validateSignerIdentity (sh : SignedHeader) : res terror unit :=
  match PubKey (sh_Signer sh) with
  | None => Err ErrSignerPubKeyMissing
  | Some pk =>
      guard_err (slice_equal (KeyAddress pk) (s_Address (sh_Signer sh))) ErrSignerAddressMismatch
  end.

End signed.
Arguments Signer : clear implicits.
Arguments SignedHeader : clear implicits.
Arguments SignedData : clear implicits.

(** ** State *)

Record State := MkState
  { st_Version : Version;
    st_ChainID : string;
    InitialHeight : Z;
    LastBlockHeight : Z;
    LastBlockTime : Z;
    st_LastHeaderHash : slice;
    DAHeight : Z;
    st_AppHash : slice;
    NextProposerAddress : slice }.

Definition InitStateVersion : Version := MkVersion 11 0.

(** [types.State{}]. *)
Definition zero_state : State :=
  MkState zero_version "" 0 0 zero_time None 0 None None.

Definition set_DAHeight (h : Z) (s : State) : State :=
  MkState (st_Version s) (st_ChainID s) (InitialHeight s) (LastBlockHeight s) (LastBlockTime s)
          (st_LastHeaderHash s) h (st_AppHash s) (NextProposerAddress s).

(** ** Lemmas *)

Lemma slen_zero s : (slen s =? 0) = true <-> sl s = [].
Proof. unfold slen. rewrite Z.eqb_eq. apply zlen_zero. Qed.

Lemma slen_zero_false s : (slen s =? 0) = false <-> sl s <> [].
Proof. rewrite <- slen_zero. by destruct (slen s =? 0). Qed.

Lemma cloneBytes_norm b : cloneBytes b = norm_slice b.
Proof. unfold cloneBytes. destruct b as [[|x b]|]; done. Qed.

Lemma sl_cloneBytes b : sl (cloneBytes b) = sl b.
Proof. rewrite cloneBytes_norm. apply sl_norm. Qed.

Lemma guard_err_ok {E} b (e : E) u : guard_err b e = Ok u <-> b = true.
Proof. destruct b, u; split; done. Qed.

Lemma bind_ok {E A B} (m : res E A) (f : A -> res E B) b :
  m ≫= f = Ok b <-> exists a, m = Ok a /\ f a = Ok b.
Proof. destruct m as [a|e]; simpl; split; [eauto|naive_solver|done|naive_solver]. Qed.

Lemma slice_equal_spec a b : slice_equal a b = true <-> sl a = sl b.
Proof. unfold slice_equal. apply bytes_eqb_spec. Qed.
