(* ===== verification/Serialization.v ===== *)
(** * Binary encodings and hashes ([types/serialization.go], [types/hashing.go],
      [types/p2p_envelope.go])

    Conversions between the block types and their protobuf messages, the
    legacy header encoding carried in protobuf unknown fields, and the hashes
    computed from the encodings. [google.golang.org/protobuf] is not part of
    the repository: [proto.Marshal]/[proto.Unmarshal] are the class [ProtoMsg]
    of each message and [protowire] is the class [Wire]; what their
    documentation promises is stated by [ProtoLaws] and [WireLaws]. Messages
    taken from a [sync.Pool] are arguments ([dirty]) with arbitrary contents. *)

From S2P Require Import Prelude Sha256 Types.
From stdpp Require Import base gmap strings list numbers.
Open Scope Z_scope.

(** ** Protobuf messages ([proto/evnode/v1]) *)

Record pbVersion := MkPbVersion { pv_Block : Z; pv_App : Z }.

(** [ph_unknown] is what [ProtoReflect().GetUnknown()] returns. *)
Record pbHeader := MkPbHeader
  { ph_Version : option pbVersion; ph_Height : Z; ph_Time : Z;
    ph_LastHeaderHash : slice; ph_DataHash : slice; ph_AppHash : slice;
    ph_ProposerAddress : slice; ph_ValidatorHash : slice; ph_ChainId : string;
    ph_unknown : bytes }.

Record pbSigner := MkPbSigner { psi_Address : slice; psi_PubKey : slice }.

Record pbSignedHeader := MkPbSignedHeader
  { psh_Header : option pbHeader; psh_Signature : slice; psh_Signer : option pbSigner }.

Record pbDAHeaderEnvelope := MkPbDAHeaderEnvelope
  { pde_Header : option pbHeader; pde_Signature : slice; pde_Signer : option pbSigner;
    pde_EnvelopeSignature : slice }.

Record pbMetadata := MkPbMetadata
  { pm_ChainId : string; pm_Height : Z; pm_Time : Z; pm_LastDataHash : slice }.

Record pbData := MkPbData { pd_Metadata : option pbMetadata; pd_Txs : list bytes }.

Record pbSignedData := MkPbSignedData
  { psd_Data : option pbData; psd_Signature : slice; psd_Signer : option pbSigner }.

(** [ps_LastBlockTime] is a [timestamppb.Timestamp]: seconds and nanoseconds. *)
Record pbState := MkPbState
  { ps_Version : option pbVersion; ps_ChainId : string; ps_InitialHeight : Z;
    ps_LastBlockHeight : Z; ps_LastBlockTime : option (Z * Z); ps_DaHeight : Z;
    ps_AppHash : slice; ps_LastHeaderHash : slice; ps_NextProposerAddress : slice }.

Record pbP2PSignedHeader := MkPbP2PSignedHeader
  { pph_Header : option pbHeader; pph_Signature : slice; pph_Signer : option pbSigner;
    pph_DaHeightHint : option Z }.

Record pbP2PData := MkPbP2PData
  { ppd_Metadata : option pbMetadata; ppd_Txs : list bytes; ppd_DaHeightHint : option Z }.

(** [Reset] of a generated message. *)
Definition pbVersion_Reset (_ : pbVersion) : pbVersion := MkPbVersion 0 0.
Definition pbHeader_Reset (_ : pbHeader) : pbHeader :=
  MkPbHeader None 0 0 None None None None None "" [].
Definition pbSigner_Reset (_ : pbSigner) : pbSigner := MkPbSigner None None.
Definition pbSignedHeader_Reset (_ : pbSignedHeader) : pbSignedHeader := MkPbSignedHeader None None None.
Definition pbMetadata_Reset (_ : pbMetadata) : pbMetadata := MkPbMetadata "" 0 0 None.
Definition pbData_Reset (_ : pbData) : pbData := MkPbData None [].
Definition pbState_Reset (_ : pbState) : pbState :=
  MkPbState None "" 0 0 None 0 None None None.

(** ** The protobuf runtime *)

Class ProtoMsg (A : Type) := {
  proto_Marshal : A -> res unit bytes;
  proto_Unmarshal : bytes -> res unit A
}.

(** A message that [ok] describes is read back, with empty bytes fields absent
    ([norm]): proto3 does not serialize fields that hold their default. *)
Class ProtoLaws (A : Type) `{ProtoMsg A} (norm : A -> A) (ok : A -> Prop) := {
  unmarshal_marshal m b : ok m -> proto_Marshal m = Ok b -> proto_Unmarshal b = Ok (norm m);
  marshal_norm m : proto_Marshal (norm m) = proto_Marshal m
}.

(** What is decoded from any bytes is a message of its type. *)
Class ProtoRange (A : Type) `{ProtoMsg A} (range : A -> bool) :=
  unmarshal_range : forall b m, proto_Unmarshal b = Ok m -> range m = true.

(** A message whose fields all hold their defaults is encoded as nothing. *)
Class ProtoEmptyData `{ProtoMsg pbData} := marshal_empty_data : proto_Marshal (MkPbData None []) = Ok [].

Definition norm_pbHeader (m : pbHeader) : pbHeader :=
  MkPbHeader (ph_Version m) (ph_Height m) (ph_Time m) (norm_slice (ph_LastHeaderHash m))
             (norm_slice (ph_DataHash m)) (norm_slice (ph_AppHash m))
             (norm_slice (ph_ProposerAddress m)) (norm_slice (ph_ValidatorHash m)) (ph_ChainId m)
             (ph_unknown m).
Definition norm_pbSigner (m : pbSigner) : pbSigner :=
  MkPbSigner (norm_slice (psi_Address m)) (norm_slice (psi_PubKey m)).
Definition norm_pbSignedHeader (m : pbSignedHeader) : pbSignedHeader :=
  MkPbSignedHeader (norm_pbHeader <$> psh_Header m) (norm_slice (psh_Signature m))
                   (norm_pbSigner <$> psh_Signer m).
Definition norm_pbDAHeaderEnvelope (m : pbDAHeaderEnvelope) : pbDAHeaderEnvelope :=
  MkPbDAHeaderEnvelope (norm_pbHeader <$> pde_Header m) (norm_slice (pde_Signature m))
                       (norm_pbSigner <$> pde_Signer m) (norm_slice (pde_EnvelopeSignature m)).
Definition norm_pbMetadata (m : pbMetadata) : pbMetadata :=
  MkPbMetadata (pm_ChainId m) (pm_Height m) (pm_Time m) (norm_slice (pm_LastDataHash m)).
Definition norm_pbData (m : pbData) : pbData :=
  MkPbData (norm_pbMetadata <$> pd_Metadata m) (pd_Txs m).
Definition norm_pbSignedData (m : pbSignedData) : pbSignedData :=
  MkPbSignedData (norm_pbData <$> psd_Data m) (norm_slice (psd_Signature m))
                 (norm_pbSigner <$> psd_Signer m).
Definition norm_pbState (m : pbState) : pbState :=
  MkPbState (ps_Version m) (ps_ChainId m) (ps_InitialHeight m) (ps_LastBlockHeight m)
            (ps_LastBlockTime m) (ps_DaHeight m) (norm_slice (ps_AppHash m))
            (norm_slice (ps_LastHeaderHash m)) (norm_slice (ps_NextProposerAddress m)).
Definition norm_pbP2PSignedHeader (m : pbP2PSignedHeader) : pbP2PSignedHeader :=
  MkPbP2PSignedHeader (norm_pbHeader <$> pph_Header m) (norm_slice (pph_Signature m))
                      (norm_pbSigner <$> pph_Signer m) (pph_DaHeightHint m).
Definition norm_pbP2PData (m : pbP2PData) : pbP2PData :=
  MkPbP2PData (norm_pbMetadata <$> ppd_Metadata m) (ppd_Txs m) (ppd_DaHeightHint m).

(** [protowire]; [Append*] functions append these bytes to their buffer. A
    negative length returned by a [Consume*] function is a parse error. *)
Class Wire := {
  wire_tag : Z -> Z -> bytes;
  wire_varint : Z -> bytes;
  ConsumeTag : bytes -> Z * Z * Z;
  ConsumeBytes : bytes -> bytes * Z;
  ConsumeFieldValue : Z -> Z -> bytes -> Z
}.

Definition VarintType : Z := 0.
Definition BytesType : Z := 2.

Class WireLaws `{Wire} := {
  consume_tag_append n t rest :
    1 <= n < 536870912 -> 0 <= t <= 5 ->
    ConsumeTag (wire_tag n t ++ rest) = (n, t, zlen (wire_tag n t));
  consume_bytes_append v rest :
    is_u64 (zlen v) ->
    ConsumeBytes (wire_varint (zlen v) ++ v ++ rest) = (v, zlen (wire_varint (zlen v)) + zlen v);
  consume_tag_size b n t k : ConsumeTag b = (n, t, k) -> k < 0 \/ 1 <= k <= zlen b;
  wire_tag_size n t : zlen (wire_tag n t) <= 10;
  wire_varint_size v : zlen (wire_varint v) <= 10;
  consume_bytes_size b v k : ConsumeBytes b = (v, k) -> k <= zlen b;
  consume_field_size n t b : ConsumeFieldValue n t b <= zlen b
}.

Section serialization.
Context {PK : Type} `{PubKeys PK} `{Wire}.
Context `{ProtoMsg pbVersion, ProtoMsg pbHeader, ProtoMsg pbSignedHeader,
          ProtoMsg pbDAHeaderEnvelope, ProtoMsg pbMetadata, ProtoMsg pbData,
          ProtoMsg pbSignedData, ProtoMsg pbState, ProtoMsg pbP2PSignedHeader,
          ProtoMsg pbP2PData}.

Definition lift_proto {A} (r : res unit A) : res terror A := map_err (fun _ => ErrProto) r.

(** ** Legacy header fields *)

Definition legacyLastCommitHashField : Z := 5.
Definition legacyConsensusHashField : Z := 7.
Definition legacyLastResultsHashField : Z := 9.
Definition maxUnknownFieldSize : Z := 1024 * 1024.
Definition maxLegacyHashSize : Z := 1024.

Definition appendBytesField (buf : bytes) (number : Z) (value : bytes) : bytes :=
  let buf := buf ++ wire_tag number BytesType in
  let buf := buf ++ wire_varint (u64 (zlen value)) in
  buf ++ value.

Definition encodeLegacyUnknownFields (legacy : option LegacyHeaderFields) : bytes :=
  match legacy with
  | None => []
  | Some l =>
      if Legacy_IsZero legacy then [] else
      let payload := [] in
      let payload := if 0 <? slen (LastCommitHash l)
        then appendBytesField payload legacyLastCommitHashField (sl (LastCommitHash l)) else payload in
      let payload := if 0 <? slen (ConsensusHash l)
        then appendBytesField payload legacyConsensusHashField (sl (ConsensusHash l)) else payload in
      if 0 <? slen (LastResultsHash l)
        then appendBytesField payload legacyLastResultsHashField (sl (LastResultsHash l)) else payload
  end.

(** [b[n:]]. *)
Definition slice_from (n : Z) (b : bytes) : bytes := drop (Z.to_nat n) b.

(** The loop of [decodeLegacyHeaderFields]; every iteration consumes a tag, so
    one more than the number of bytes is enough fuel ([None] is out of fuel). *)
Fixpoint decode_legacy_loop (fuel : nat) (unknown : bytes) (legacy : LegacyHeaderFields)
  : option (res terror LegacyHeaderFields) :=
  match fuel with
  | O => None
  | S fuel' =>
      if zlen unknown =? 0 then Some (Ok legacy) else
      let '(fieldNum, typ, n) := ConsumeTag unknown in
      if n <? 0 then Some (Err (ErrMsg "parse error")) else
      let unknown := slice_from n unknown in
      if (fieldNum =? legacyLastCommitHashField) || (fieldNum =? legacyConsensusHashField)
         || (fieldNum =? legacyLastResultsHashField)
      then
        if negb (typ =? BytesType) then
          let size := ConsumeFieldValue fieldNum typ unknown in
          if size <? 0 then Some (Err (ErrMsg "parse error"))
          else decode_legacy_loop fuel' (slice_from size unknown) legacy
        else
          let '(value, size) := ConsumeBytes unknown in
          if size <? 0 then Some (Err (ErrMsg "parse error")) else
          let unknown := slice_from size unknown in
          if maxLegacyHashSize <? zlen value then Some (Err (ErrMsg "legacy hash field too large")) else
          (* append([]byte(nil), value...) is nil when value is empty *)
          let copied := norm_slice (Some value) in
          let legacy :=
            if fieldNum =? legacyLastCommitHashField
            then MkLegacy copied (ConsensusHash legacy) (LastResultsHash legacy)
            else if fieldNum =? legacyConsensusHashField
            then MkLegacy (LastCommitHash legacy) copied (LastResultsHash legacy)
            else MkLegacy (LastCommitHash legacy) (ConsensusHash legacy) copied in
          decode_legacy_loop fuel' unknown legacy
      else
        let size := ConsumeFieldValue fieldNum typ unknown in
        if size <? 0 then Some (Err (ErrMsg "parse error"))
        else decode_legacy_loop fuel' (slice_from size unknown) legacy
  end.

Definition decodeLegacyHeaderFields (ph : pbHeader) : res terror (option LegacyHeaderFields) :=
  let unknown := ph_unknown ph in
  if zlen unknown =? 0 then Ok None else
  if maxUnknownFieldSize <? zlen unknown then Err (ErrMsg "unknown fields too large") else
  match decode_legacy_loop (S (length unknown)) unknown (MkLegacy None None None) with
  | None => Err (ErrMsg "out of fuel")
  | Some (Err e) => Err e
  | Some (Ok legacy) => if Legacy_IsZero (Some legacy) then Ok None else Ok (Some legacy)
  end.

(** [append(payload, s...)] of a Go string. *)
Fixpoint string_bytes (s : string) : bytes :=
  match s with
  | EmptyString => []
  | String c s' => byte_of_Z (Z.of_nat (Ascii.nat_of_ascii c)) :: string_bytes s'
  end.

Definition append_nonempty (payload : bytes) (number : Z) (value : slice) : bytes :=
  if 0 <? slen value then appendBytesField payload number (sl value) else payload.

Definition marshalLegacyHeader (h : option Header) : res terror bytes :=
  match h with
  | None => Err (ErrMsg "header is nil")
  | Some h =>
      let clone := ApplyLegacyDefaults (Header_Clone h) in
      let legacy := default (MkLegacy None None None) (Legacy clone) in
      versionBytes ← lift_proto (proto_Marshal (MkPbVersion (v_Block (h_Version clone)) (v_App (h_Version clone))));
      let payload := wire_tag 1 BytesType ++ wire_varint (u64 (zlen versionBytes)) ++ versionBytes in
      let payload := payload ++ wire_tag 2 VarintType ++ wire_varint (b_Height (h_Base clone)) in
      let payload := payload ++ wire_tag 3 VarintType ++ wire_varint (b_Time (h_Base clone)) in
      let payload := append_nonempty payload 4 (LastHeaderHash clone) in
      let payload := append_nonempty payload legacyLastCommitHashField (LastCommitHash legacy) in
      let payload := append_nonempty payload 6 (DataHash clone) in
      let payload := append_nonempty payload legacyConsensusHashField (ConsensusHash legacy) in
      let payload := append_nonempty payload 8 (AppHash clone) in
      let payload := append_nonempty payload legacyLastResultsHashField (LastResultsHash legacy) in
      let payload := append_nonempty payload 10 (ProposerAddress clone) in
      let payload := append_nonempty payload 11 (ValidatorHash clone) in
      let chainID := string_bytes (b_ChainID (h_Base clone)) in
      Ok (if 0 <? zlen chainID
          then payload ++ wire_tag 12 BytesType ++ wire_varint (u64 (zlen chainID)) ++ chainID
          else payload)
  end.

(** ** Headers *)

Definition Header_ToProto (h : Header) : pbHeader :=
  let unknown := encodeLegacyUnknownFields (Legacy h) in
  MkPbHeader (Some (MkPbVersion (v_Block (h_Version h)) (v_App (h_Version h))))
             (b_Height (h_Base h)) (b_Time (h_Base h)) (LastHeaderHash h) (DataHash h) (AppHash h)
             (ProposerAddress h) (ValidatorHash h) (b_ChainID (h_Base h))
             (if 0 <? zlen unknown then unknown else []).

(** The pooled [pb.Header] and [pb.Version] are reset before they are filled. *)
Definition fill_pooled_header (dirty : pbHeader) (dirtyv : pbVersion) (h : Header) : pbHeader :=
  let pv := pbVersion_Reset dirtyv in
  let pv := MkPbVersion (v_Block (h_Version h)) (v_App (h_Version h)) in
  let ph := pbHeader_Reset dirty in
  let unknown := encodeLegacyUnknownFields (Legacy h) in
  MkPbHeader (Some pv) (b_Height (h_Base h)) (b_Time (h_Base h)) (LastHeaderHash h) (DataHash h)
             (AppHash h) (ProposerAddress h) (ValidatorHash h) (b_ChainID (h_Base h))
             (if 0 <? zlen unknown then unknown else ph_unknown ph).

Definition Header_MarshalBinary (dirty : pbHeader) (dirtyv : pbVersion) (h : Header) : res terror bytes :=
  lift_proto (proto_Marshal (fill_pooled_header dirty dirtyv h)).

Definition Header_MarshalBinaryLegacy (h : Header) : res terror bytes := marshalLegacyHeader (Some h).

(** [append([]byte(nil), b...)] when [b] is not nil. *)
Definition copy_slice (b : slice) : slice :=
  match b with Some b => norm_slice (Some b) | None => None end.

(** [FromProto] assigns the receiver field by field: the receiver is the state,
    and what was assigned before an error stays. *)
Definition Header_FromProto (other : option pbHeader) : M Header terror unit := fun h =>
  match other with
  | None => (Err (ErrMsg "header is nil"), h)
  | Some o =>
      let version := match ph_Version o with
                     | Some v => MkVersion (pv_Block v) (pv_App v)
                     | None => zero_version end in
      let h := MkHeader (MkBaseHeader (ph_Height o) (ph_Time o) (ph_ChainId o)) version
                 (copy_slice (ph_LastHeaderHash o)) (copy_slice (ph_DataHash o))
                 (copy_slice (ph_AppHash o)) (copy_slice (ph_ValidatorHash o))
                 (copy_slice (ph_ProposerAddress o)) (Legacy h) None in
      match decodeLegacyHeaderFields o with
      | Err e => (Err e, h)
      | Ok legacy => (Ok tt, set_Legacy legacy h)
      end
  end.

Definition Header_UnmarshalBinary (data : bytes) : M Header terror unit :=
  pHeader ← lift_res (lift_proto (proto_Unmarshal data));
  Header_FromProto (Some pHeader).

(** ** Signed headers *)

(** The [Signer] of a converted message, and the signer with its cache filled. *)
Definition Signer_ToProto (s : Signer PK) : res terror pbSigner * Signer PK :=
  match PubKey s with
  | None => (Ok (MkPbSigner None None), s)
  | Some _ =>
      match MarshalledPubKey s with
      | (Err e, s') => (Err e, s')
      | (Ok pubKey, s') => (Ok (MkPbSigner (s_Address s) pubKey), s')
      end
  end.

Definition SignedHeader_ToProto (sh : SignedHeader PK) : res terror pbSignedHeader :=
  psi ← (Signer_ToProto (sh_Signer sh)).1;
  Ok (MkPbSignedHeader (Some (Header_ToProto (sh_Header sh))) (sh_Signature sh) (Some psi)).

(** [if other.Signature != nil { make; copy } else nil]. *)
Definition copy_signature (b : slice) : slice := b.

Definition Signer_FromProto (other : option pbSigner) : res terror (Signer PK) :=
  match other with
  | Some o =>
      if 0 <? slen (psi_PubKey o) then
        match UnmarshalPublicKey (sl (psi_PubKey o)) with
        | Err _ => Err ErrPubKeyEncoding
        | Ok pk => Ok (MkSigner (Some pk) (norm_slice (psi_Address o)) (norm_slice (psi_PubKey o)))
        end
      else Ok zero_signer
  | None => Ok zero_signer
  end.

Definition set_sh_Header (h : Header) (sh : SignedHeader PK) : SignedHeader PK :=
  MkSignedHeader h (sh_Signature sh) (sh_Signer sh) (aggregatorSignatureProvider sh)
                 (syncNodeSignatureBytesProvider sh).
Definition set_sh_Signature (s : slice) (sh : SignedHeader PK) : SignedHeader PK :=
  MkSignedHeader (sh_Header sh) s (sh_Signer sh) (aggregatorSignatureProvider sh)
                 (syncNodeSignatureBytesProvider sh).
Definition set_sh_Signer (s : Signer PK) (sh : SignedHeader PK) : SignedHeader PK :=
  MkSignedHeader (sh_Header sh) (sh_Signature sh) s (aggregatorSignatureProvider sh)
                 (syncNodeSignatureBytesProvider sh).

Definition SignedHeader_New : SignedHeader PK :=
  MkSignedHeader Header_New None zero_signer None None.

Definition SignedHeader_FromProto (other : option pbSignedHeader) : M (SignedHeader PK) terror unit :=
  match other with
  | None => throw (ErrMsg "signed header is nil")
  | Some o =>
      match psh_Header o with
      | None => throw (ErrMsg "signed header's Header is nil")
      | Some ph =>
          _ ← zoom sh_Header set_sh_Header (Header_FromProto (Some ph));
          _ ← modify (set_sh_Signature (copy_signature (psh_Signature o)));
          signer ← lift_res (Signer_FromProto (psh_Signer o));
          modify (set_sh_Signer signer)
      end
  end.

(** Pooled messages: the signed header, its header, version and signer. *)
Definition SignedHeader_MarshalBinary (dirty : pbSignedHeader) (dirtyh : pbHeader)
  (dirtyv : pbVersion) (dirtys : pbSigner) (sh : SignedHeader PK) : res terror bytes :=
  let psh := pbSignedHeader_Reset dirty in
  let ph := fill_pooled_header dirtyh dirtyv (sh_Header sh) in
  let psi := pbSigner_Reset dirtys in
  match PubKey (sh_Signer sh) with
  | None => lift_proto (proto_Marshal (MkPbSignedHeader (Some ph) (sh_Signature sh) (Some psi)))
  | Some _ =>
      pubKey ← (MarshalledPubKey (sh_Signer sh)).1;
      let psi := MkPbSigner (s_Address (sh_Signer sh)) pubKey in
      lift_proto (proto_Marshal (MkPbSignedHeader (Some ph) (sh_Signature sh) (Some psi)))
  end.

Definition SignedHeader_UnmarshalBinary (data : bytes) : M (SignedHeader PK) terror unit :=
  pHeader ← lift_res (lift_proto (proto_Unmarshal data));
  SignedHeader_FromProto (Some pHeader).

(** ** DA envelopes *)

Definition ToDAEnvelopeProto (envelopeSignature : slice) (sh : SignedHeader PK)
  : res terror pbDAHeaderEnvelope :=
  psi ← (Signer_ToProto (sh_Signer sh)).1;
  Ok (MkPbDAHeaderEnvelope (Some (Header_ToProto (sh_Header sh))) (sh_Signature sh) (Some psi)
                           envelopeSignature).

Definition FromDAEnvelopeProto (envelope : option pbDAHeaderEnvelope) : M (SignedHeader PK) terror unit :=
  match envelope with
  | None => throw (ErrMsg "da header envelope is nil")
  | Some o =>
      match pde_Header o with
      | None => throw (ErrMsg "da header envelope's Header is nil")
      | Some ph =>
          _ ← zoom sh_Header set_sh_Header (Header_FromProto (Some ph));
          _ ← modify (set_sh_Signature (copy_signature (pde_Signature o)));
          signer ← lift_res (Signer_FromProto (pde_Signer o));
          modify (set_sh_Signer signer)
      end
  end.

Definition MarshalDAEnvelope (envelopeSignature : slice) (sh : SignedHeader PK) : res terror bytes :=
  envelope ← ToDAEnvelopeProto envelopeSignature sh;
  lift_proto (proto_Marshal envelope).

Definition UnmarshalDAEnvelope (data : bytes) : M (SignedHeader PK) terror slice :=
  envelope ← lift_res (lift_proto (proto_Unmarshal data));
  _ ← FromDAEnvelopeProto (Some envelope);
  mret (pde_EnvelopeSignature envelope).

(** ** Metadata and data *)

Definition Metadata_ToProto (m : Metadata) : pbMetadata :=
  MkPbMetadata (m_ChainID m) (m_Height m) (m_Time m) (LastDataHash m).

Definition Metadata_FromProto (other : option pbMetadata) : M Metadata terror unit :=
  match other with
  | None => throw (ErrMsg "metadata is nil")
  | Some o => modify (fun _ => MkMetadata (pm_ChainId o) (pm_Height o) (pm_Time o) (copy_slice (pm_LastDataHash o)))
  end.

Definition Metadata_MarshalBinary (m : Metadata) : res terror bytes :=
  lift_proto (proto_Marshal (Metadata_ToProto m)).

Definition Metadata_UnmarshalBinary (b : bytes) : M Metadata terror unit :=
  pMetadata ← lift_res (lift_proto (proto_Unmarshal b));
  Metadata_FromProto (Some pMetadata).

Definition txsToByteSlices (txs : option (list bytes)) : list bytes := default [] txs.

(** Never nil: [Txs{}] for no transaction. *)
Definition byteSlicesToTxs (b : list bytes) : option (list bytes) :=
  if zlen b =? 0 then Some [] else Some b.

Definition Data_ToProto (d : Data) : pbData :=
  let mProto := match d_Metadata d with
                | Some m => Some (MkPbMetadata (m_ChainID m) (m_Height m) (m_Time m) (LastDataHash m))
                | None => None end in
  MkPbData mProto (txsToByteSlices (Txs d)).

Definition zero_metadata : Metadata := MkMetadata "" 0 0 None.

Definition Data_FromProto (other : option pbData) : M Data terror unit := fun d =>
  match other with
  | None => (Err (ErrMsg "data is nil"), d)
  | Some o =>
      let '(r, md) :=
        match pd_Metadata o with
        | Some pm =>
            let m0 := default zero_metadata (d_Metadata d) in
            let '(r, m) := Metadata_FromProto (Some pm) m0 in (r, Some m)
        | None => (Ok tt, None)
        end in
      match r with
      | Err e => (Err e, MkData md (Txs d))
      | Ok _ => (Ok tt, MkData md (byteSlicesToTxs (pd_Txs o)))
      end
  end.

Definition Data_MarshalBinary (dirty : pbData) (dirtym : pbMetadata) (d : Data) : res terror bytes :=
  let pd := pbData_Reset dirty in
  let md :=
    match d_Metadata d with
    | Some m =>
        let pm := pbMetadata_Reset dirtym in
        Some (MkPbMetadata (m_ChainID m) (m_Height m) (m_Time m) (LastDataHash m))
    | None => pd_Metadata pd
    end in
  let txs := match Txs d with Some txs => txs | None => pd_Txs pd end in
  lift_proto (proto_Marshal (MkPbData md txs)).

Definition Data_New : Data := MkData None None.

Definition Data_UnmarshalBinary (b : bytes) : M Data terror unit :=
  pData ← lift_res (lift_proto (proto_Unmarshal b));
  Data_FromProto (Some pData).

Definition SignedData_ToProto (sd : SignedData PK) : res terror pbSignedData :=
  psi ← (Signer_ToProto (sd_Signer sd)).1;
  Ok (MkPbSignedData (Some (Data_ToProto (sd_Data sd))) (sd_Signature sd) (Some psi)).

Definition SignedData_FromProto (other : option pbSignedData) : M (SignedData PK) terror unit := fun sd =>
  match other with
  | None => (Err (ErrMsg "signed data is nil"), sd)
  | Some o =>
      let '(r, d) := match psd_Data o with
                     | Some pd => Data_FromProto (Some pd) (sd_Data sd)
                     | None => (Ok tt, sd_Data sd) end in
      match r with
      | Err e => (Err e, MkSignedData d (sd_Signature sd) (sd_Signer sd))
      | Ok _ =>
          let sig := copy_signature (psd_Signature o) in
          match Signer_FromProto (psd_Signer o) with
          | Err e => (Err e, MkSignedData d sig (sd_Signer sd))
          | Ok signer => (Ok tt, MkSignedData d sig signer)
          end
      end
  end.

Definition SignedData_MarshalBinary (sd : SignedData PK) : res terror bytes :=
  p ← SignedData_ToProto sd;
  lift_proto (proto_Marshal p).

Definition SignedData_New : SignedData PK := MkSignedData Data_New None zero_signer.

Definition SignedData_UnmarshalBinary (b : bytes) : M (SignedData PK) terror unit :=
  pData ← lift_res (lift_proto (proto_Unmarshal b));
  SignedData_FromProto (Some pData).

(** ** State *)

(** [t.Unix()] and [t.Nanosecond()]. *)
Definition time_Unix (t : Z) : Z := t / second.
Definition time_Nanosecond (t : Z) : Z := t mod second.

Definition State_ToProto (s : State) : pbState :=
  let secs := time_Unix (LastBlockTime s) in
  let nanos := time_Nanosecond (LastBlockTime s) in
  MkPbState (Some (MkPbVersion (v_Block (st_Version s)) (v_App (st_Version s))))
            (st_ChainID s) (InitialHeight s) (LastBlockHeight s) (Some (secs, nanos))
            (DAHeight s) (st_AppHash s) (st_LastHeaderHash s) (NextProposerAddress s).

Definition State_MarshalBinary (dirty : pbState) (dirtyv : pbVersion) (s : State) : res terror bytes :=
  let ps := pbState_Reset dirty in
  let pv := pbVersion_Reset dirtyv in
  let pv := MkPbVersion (v_Block (st_Version s)) (v_App (st_Version s)) in
  let pts := (time_Unix (LastBlockTime s), time_Nanosecond (LastBlockTime s)) in
  lift_proto (proto_Marshal
    (MkPbState (Some pv) (st_ChainID s) (InitialHeight s) (LastBlockHeight s) (Some pts)
               (DAHeight s) (st_AppHash s) (st_LastHeaderHash s) (NextProposerAddress s))).

(** [LastBlockTime.AsTime()]. *)
Definition as_time (ts : Z * Z) : Z := ts.1 * second + ts.2.

Definition State_FromProto (other : option pbState) : M State terror unit :=
  match other with
  | None => throw (ErrMsg "state is nil")
  | Some o =>
      modify (fun _ =>
        MkState (match ps_Version o with
                 | Some v => MkVersion (pv_Block v) (pv_App v) | None => zero_version end)
                (ps_ChainId o) (ps_InitialHeight o) (ps_LastBlockHeight o)
                (match ps_LastBlockTime o with Some ts => as_time ts | None => zero_time end)
                (copy_slice (ps_LastHeaderHash o)) (ps_DaHeight o) (copy_slice (ps_AppHash o))
                (copy_slice (ps_NextProposerAddress o)))
  end.

(** ** P2P envelopes *)

Record P2PSignedHeader := MkP2PSignedHeader
  { p2p_SignedHeader : option (SignedHeader PK); p2p_h_DAHeightHint : Z }.
Record P2PData := MkP2PData { p2p_Data : option Data; p2p_d_DAHeightHint : Z }.

Definition P2PSignedHeader_MarshalBinary (sh : SignedHeader PK) (hint : Z) : res terror bytes :=
  psh ← SignedHeader_ToProto sh;
  lift_proto (proto_Marshal
    (MkPbP2PSignedHeader (psh_Header psh) (psh_Signature psh) (psh_Signer psh) (Some hint))).

Definition P2PSignedHeader_UnmarshalBinary (data : bytes) : M P2PSignedHeader terror unit := fun p =>
  match lift_proto (proto_Unmarshal data) with
  | Err e => (Err e, p)
  | Ok msg =>
      let psh := MkPbSignedHeader (pph_Header msg) (pph_Signature msg) (pph_Signer msg) in
      let sh := default SignedHeader_New (p2p_SignedHeader p) in
      match SignedHeader_FromProto (Some psh) sh with
      | (Err e, sh') => (Err e, MkP2PSignedHeader (Some sh') (p2p_h_DAHeightHint p))
      | (Ok _, sh') =>
          (Ok tt, MkP2PSignedHeader (Some sh')
                    (match pph_DaHeightHint msg with Some h => h | None => p2p_h_DAHeightHint p end))
      end
  end.

Definition P2PData_MarshalBinary (d : Data) (hint : Z) : res terror bytes :=
  let pData := Data_ToProto d in
  lift_proto (proto_Marshal (MkPbP2PData (pd_Metadata pData) (pd_Txs pData) (Some hint))).

Definition P2PData_UnmarshalBinary (data : bytes) : M P2PData terror unit := fun p =>
  match lift_proto (proto_Unmarshal data) with
  | Err e => (Err e, p)
  | Ok msg =>
      let pData := MkPbData (ppd_Metadata msg) (ppd_Txs msg) in
      let d := default Data_New (p2p_Data p) in
      match Data_FromProto (Some pData) d with
      | (Err e, d') => (Err e, MkP2PData (Some d') (p2p_d_DAHeightHint p))
      | (Ok _, d') =>
          (Ok tt, MkP2PData (Some d')
                    (match ppd_DaHeightHint msg with Some h => h | None => p2p_d_DAHeightHint p end))
      end
  end.

(** ** Hashes *)

(** The contents of pooled messages never reach the encoding
    ([header_marshal_pooled]); the hashes are computed from clean ones. *)
Definition clean_header : pbHeader := pbHeader_Reset (MkPbHeader None 0 0 None None None None None "" []).
Definition clean_version : pbVersion := MkPbVersion 0 0.
Definition clean_data : pbData := MkPbData None [].
Definition clean_metadata : pbMetadata := MkPbMetadata "" 0 0 None.

Definition HashSlim (h : option Header) : res terror bytes :=
  match h with
  | None => Err (ErrMsg "header is nil")
  | Some h =>
      bytes ← Header_MarshalBinary clean_header clean_version h;
      Ok (Sha256.sum256 bytes)
  end.

Definition HashLegacy (h : option Header) : res terror bytes :=
  match h with
  | None => Err (ErrMsg "header is nil")
  | Some h =>
      bytes ← Header_MarshalBinaryLegacy h;
      Ok (Sha256.sum256 bytes)
  end.

Definition computeHash (h : Header) : slice :=
  let slim := match HashSlim (Some h) with Ok b => Some b | Err _ => None end in
  if negb (Legacy_IsZero (Legacy h)) then
    match HashLegacy (Some h) with Ok b => Some b | Err _ => slim end
  else slim.

Definition Header_Hash (h : option Header) : slice :=
  match h with
  | None => None
  | Some h => match cachedHash h with Some c => Some c | None => computeHash h end
  end.

(** Returns the hash and the header whose cache it may fill. *)
Definition MemoizeHash (h : option Header) : slice * option Header :=
  match h with
  | None => (None, None)
  | Some h =>
      match cachedHash h with
      | Some c => (Some c, Some h)
      | None =>
          let hash := computeHash h in
          match hash with
          | Some _ => (hash, Some (set_cachedHash hash h))
          | None => (None, Some h)
          end
      end
  end.

Definition leafPrefix : bytes := [Init.Byte.x00].
Definition leafHashOpt (leaf : bytes) : bytes := Sha256.sum256 (leafPrefix ++ leaf).

(** The marshalling error is ignored, which hashes no bytes. *)
Definition ok_bytes {E} (r : res E bytes) : bytes := match r with Ok b => b | Err _ => [] end.

Definition Data_Hash (d : Data) : bytes :=
  leafHashOpt (ok_bytes (Data_MarshalBinary clean_data clean_metadata d)).

Definition DACommitment (d : Data) : bytes :=
  let txs := match Txs d with Some txs => txs | None => [] end in
  leafHashOpt (ok_bytes (proto_Marshal (MkPbData None txs))).

(** ** What the Go types guarantee of the messages

    Fields of Go type uint64 hold uint64 values, and the unknown fields of a
    header are the legacy ones; these are the messages [ProtoLaws] is asked
    about. *)

Definition pbVersion_ok (m : pbVersion) : Prop := is_u64 (pv_Block m) /\ is_u64 (pv_App m).
Definition pbHeader_ok (m : pbHeader) : Prop :=
  is_u64 (ph_Height m) /\ is_u64 (ph_Time m) /\
  (forall v, ph_Version m = Some v -> pbVersion_ok v) /\
  exists l, ph_unknown m = encodeLegacyUnknownFields l.
Definition pbMetadata_ok (m : pbMetadata) : Prop := is_u64 (pm_Height m) /\ is_u64 (pm_Time m).
Definition opt_ok {A} (P : A -> Prop) (o : option A) : Prop := forall a, o = Some a -> P a.
Definition pbSignedHeader_ok (m : pbSignedHeader) : Prop := opt_ok pbHeader_ok (psh_Header m).
Definition pbDAHeaderEnvelope_ok (m : pbDAHeaderEnvelope) : Prop := opt_ok pbHeader_ok (pde_Header m).
Definition pbData_ok (m : pbData) : Prop := opt_ok pbMetadata_ok (pd_Metadata m).
Definition pbSignedData_ok (m : pbSignedData) : Prop := opt_ok pbData_ok (psd_Data m).
Definition pbState_ok (m : pbState) : Prop :=
  is_u64 (ps_InitialHeight m) /\ is_u64 (ps_LastBlockHeight m) /\ is_u64 (ps_DaHeight m) /\
  opt_ok pbVersion_ok (ps_Version m) /\
  opt_ok (fun ts => -62135596800 <= ts.1 <= 253402300799 /\ 0 <= ts.2 < second) (ps_LastBlockTime m).
Definition pbP2PSignedHeader_ok (m : pbP2PSignedHeader) : Prop :=
  opt_ok pbHeader_ok (pph_Header m) /\ opt_ok is_u64 (pph_DaHeightHint m).
Definition pbP2PData_ok (m : pbP2PData) : Prop :=
  opt_ok pbMetadata_ok (ppd_Metadata m) /\ opt_ok is_u64 (ppd_DaHeightHint m).

(** What holds of any message that was decoded: an integer field of a message is
    in the range of its type. *)
Definition u64b (z : Z) : bool := (0 <=? z) && (z <? two64).
Definition optb {A} (f : A -> bool) (o : option A) : bool := match o with Some a => f a | None => true end.
Definition pbVersion_range (m : pbVersion) : bool := u64b (pv_Block m) && u64b (pv_App m).
Definition pbHeader_range (m : pbHeader) : bool :=
  u64b (ph_Height m) && u64b (ph_Time m) && optb pbVersion_range (ph_Version m).
Definition pbMetadata_range (m : pbMetadata) : bool := u64b (pm_Height m) && u64b (pm_Time m).
Definition pbSignedHeader_range (m : pbSignedHeader) : bool := optb pbHeader_range (psh_Header m).
Definition pbDAHeaderEnvelope_range (m : pbDAHeaderEnvelope) : bool := optb pbHeader_range (pde_Header m).
Definition pbData_range (m : pbData) : bool := optb pbMetadata_range (pd_Metadata m).
Definition pbSignedData_range (m : pbSignedData) : bool := optb pbData_range (psd_Data m).

End serialization.
Arguments P2PSignedHeader : clear implicits.
Arguments clean_header /.
