(* ===== verification/ProtoInst.v ===== *)
(** * Concrete instances of the external interfaces

    An implementation of the protobuf wire primitives, an injective encoding of
    every message, and a toy signature scheme, with proofs that they satisfy
    [WireLaws], [ProtoLaws] and [PubKeysLaws]: the interfaces the development
    is proved against are satisfiable, and witnesses can be evaluated. *)

From S2P Require Import Prelude Sha256 Types Serialization.
From stdpp Require Import base gmap strings list numbers countable.
Open Scope Z_scope.

Module ProtoInst.

(** ** Wire primitives *)

Fixpoint varint (fuel : nat) (z : Z) : bytes :=
  match fuel with
  | O => [byte_of_Z z]
  | S fuel' =>
      if z <? 128 then [byte_of_Z z]
      else byte_of_Z (z mod 128 + 128) :: varint fuel' (z / 128)
  end.

(** The value and the number of bytes read. *)
Fixpoint consume_varint (fuel : nat) (b : bytes) : option (Z * Z) :=
  match b with
  | [] => None
  | x :: b' =>
      if Z_of_byte x <? 128 then Some (Z_of_byte x, 1)
      else match fuel with
           | O => None
           | S fuel' =>
               '(v, k) ← consume_varint fuel' b';
               Some (Z_of_byte x - 128 + 128 * v, k + 1)
           end
  end.

Definition consume_bytes (b : bytes) : bytes * Z :=
  match consume_varint 9 b with
  | Some (n, k) =>
      if n <=? zlen b - k then (take (Z.to_nat n) (drop (Z.to_nat k) b), k + n) else ([], -1)
  | None => ([], -1)
  end.

#[export] Instance wire_inst : Wire := {
  wire_tag n t := varint 9 (u64 (n * 8 + t));
  wire_varint v := varint 9 (u64 v);
  ConsumeTag b :=
    match consume_varint 9 b with
    | Some (v, k) => if 1 <=? v / 8 then (v / 8, v mod 8, k) else (0, 0, -1)
    | None => (0, 0, -1)
    end;
  ConsumeBytes := consume_bytes;
  ConsumeFieldValue n t b :=
    if t =? 0 then match consume_varint 9 b with Some (_, k) => k | None => -1 end
    else if t =? 1 then if 8 <=? zlen b then 8 else -1
    else if t =? 5 then if 4 <=? zlen b then 4 else -1
    else if t =? 2 then (consume_bytes b).2
    else -1
}.

Lemma consume_varint_size fuel b v k :
  consume_varint fuel b = Some (v, k) -> 1 <= k <= zlen b.
Proof.
  revert b v k. induction fuel as [|fuel IH]; intros [|x b] v k; simpl; try done;
    destruct (Z_of_byte x <? 128); intros Hc; simplify_eq; unfold zlen; simpl; try lia.
  apply bind_Some in Hc as ([v' k'] & Hc & Hs). simplify_eq.
  apply IH in Hc. unfold zlen in Hc. lia.
Qed.

Lemma consume_varint_append fuel z rest :
  0 <= z < 128 * 128 ^ Z.of_nat fuel ->
  consume_varint fuel (varint fuel z ++ rest) = Some (z, zlen (varint fuel z)).
Proof.
  revert z. induction fuel as [|fuel IH]; intros z Hz.
  - simpl. rewrite Z_of_byte_of_Z, Z.mod_small by lia.
    destruct (Z.ltb_spec z 128); [done|lia].
  - cbn [varint]. destruct (Z.ltb_spec z 128) as [Hs|Hs].
    + simpl. rewrite Z_of_byte_of_Z, Z.mod_small by lia.
      destruct (Z.ltb_spec z 128); [done|lia].
    + simpl. pose proof (Z.mod_pos_bound z 128 ltac:(lia)).
      rewrite Z_of_byte_of_Z, (Z.mod_small (z mod 128 + 128)) by lia.
      destruct (Z.ltb_spec (z mod 128 + 128) 128); [lia|].
      rewrite IH.
      2:{ rewrite Nat2Z.inj_succ, Z.pow_succ_r in Hz by lia. split; [apply Z.div_pos; lia|].
          apply Z.div_lt_upper_bound; lia. }
      simpl. f_equal. f_equal; [|unfold zlen; simpl; lia].
      pose proof (Z.div_mod z 128 ltac:(lia)). lia.
Qed.

Lemma varint_size fuel z : zlen (varint fuel z) <= Z.of_nat fuel + 1.
Proof.
  revert z. induction fuel as [|fuel IH]; intros z; [done|]. cbn [varint].
  destruct (z <? 128); [unfold zlen; simpl; lia|].
  specialize (IH (z / 128)). unfold zlen in *. simpl length. lia.
Qed.

Lemma u64_varint z : 0 <= u64 z < 128 * 128 ^ Z.of_nat 9.
Proof. pose proof (u64_range z) as Hu. unfold is_u64, two64 in Hu. simpl. lia. Qed.

#[local] Arguments varint : simpl never.
#[local] Arguments consume_varint : simpl never.

#[export] Instance wire_inst_laws : WireLaws.
Proof.
  split.
  - intros n t rest Hn Ht. simpl. rewrite consume_varint_append by apply u64_varint.
    rewrite u64_small by (unfold is_u64, two64; lia).
    rewrite Z.div_add_l, (Z.div_small t), Z.add_0_r by lia.
    rewrite (Z.add_comm (n * 8)), Z.mod_add, Z.mod_small by lia.
    destruct (Z.leb_spec 1 n); [done|lia].
  - intros v rest Hv. simpl. unfold consume_bytes. rewrite consume_varint_append by apply u64_varint.
    rewrite u64_small by done. set (vi := varint 9 (zlen v)).
    assert (Hl : zlen (vi ++ v ++ rest) = zlen vi + zlen v + zlen rest)
      by (unfold zlen; rewrite !length_app; lia).
    pose proof (zlen_nonneg rest). rewrite Hl. destruct (Z.leb_spec (zlen v) (zlen vi + zlen v + zlen rest - zlen vi)); [|lia].
    f_equal. unfold zlen. rewrite !Nat2Z.id, drop_app_length. apply take_app_length.
  - intros b n t k. simpl. destruct (consume_varint 9 b) as [[v k']|] eqn:Hc; [|intros; simplify_eq; lia].
    case_match; intros; simplify_eq; [|lia]. apply consume_varint_size in Hc. lia.
  - intros n t. simpl. pose proof (varint_size 9 (u64 (n * 8 + t))). lia.
  - intros v. simpl. pose proof (varint_size 9 (u64 v)). lia.
  - intros b v k. simpl. unfold consume_bytes.
    destruct (consume_varint 9 b) as [[n k']|] eqn:Hc; [|intros; simplify_eq; pose proof (zlen_nonneg b); lia].
    case_match; intros; simplify_eq; [|pose proof (zlen_nonneg b); lia].
    apply Z.leb_le in H. lia.
  - intros n t b. simpl. pose proof (zlen_nonneg b). unfold consume_bytes.
    destruct (consume_varint 9 b) as [[v k]|] eqn:Hc;
      [apply consume_varint_size in Hc|]; repeat case_match; simpl; try lia.
    all: repeat match goal with H : (_ <=? _) = true |- _ => apply Z.leb_le in H end; try lia.
Qed.

(** ** Messages *)

(** A positive number as its bits, eight to a byte, padded with zeros. *)
Fixpoint pos_bits (p : positive) : list bool :=
  match p with
  | xH => [true]
  | xO p => false :: pos_bits p
  | xI p => true :: pos_bits p
  end.

Fixpoint bits_pos (l : list bool) : option positive :=
  match l with
  | [] => None
  | b :: l' =>
      match bits_pos l' with
      | Some p => Some (if b : bool then xI p else xO p)
      | None => if b : bool then Some xH else None
      end
  end.

Fixpoint pack (l : list bool) : bytes :=
  match l with
  | [] => []
  | a :: b :: c :: d :: e :: f :: g :: h :: r => Byte.of_bits (a, (b, (c, (d, (e, (f, (g, h))))))) :: pack r
  | _ => let bit i := nth i l false in
         [Byte.of_bits (bit 0%nat, (bit 1%nat, (bit 2%nat, (bit 3%nat, (bit 4%nat, (bit 5%nat, (bit 6%nat, bit 7%nat)))))))]
  end.

Definition unpack (b : bytes) : list bool :=
  flat_map (fun x => let '(a, (b, (c, (d, (e, (f, (g, h))))))) := Byte.to_bits x in [a; b; c; d; e; f; g; h]) b.

Definition pos_bytes (p : positive) : bytes := pack (pos_bits p).
Definition bytes_pos (b : bytes) : positive := default xH (bits_pos (unpack b)).

Lemma unpack_pack_size n l : (length l <= n)%nat -> exists k, unpack (pack l) = l ++ replicate k false.
Proof.
  revert l. induction n as [|n IH]; intros l Hl; [destruct l; [by exists 0%nat|simpl in Hl; lia]|].
  destruct l as [|a [|b [|c [|d [|e [|f [|g [|h r]]]]]]]];
    cbn [pack unpack flat_map nth]; rewrite ?Byte.to_bits_of_bits; [by exists 0%nat| ..|];
    [by exists 7%nat|by exists 6%nat|by exists 5%nat|by exists 4%nat|by exists 3%nat|by exists 2%nat|by exists 1%nat|].
  destruct (IH r) as [k Hk]; [simpl in Hl; lia|]. exists k. simpl. unfold unpack in Hk. by rewrite Hk.
Qed.

Lemma bits_pos_false k : bits_pos (replicate k false) = None.
Proof. induction k as [|k IH]; [done|]. simpl. by rewrite IH. Qed.

Lemma bits_pos_bits p k : bits_pos (pos_bits p ++ replicate k false) = Some p.
Proof. induction p as [p IH|p IH|]; simpl; rewrite ?IH, ?bits_pos_false; done. Qed.

Lemma bytes_pos_bytes p : bytes_pos (pos_bytes p) = p.
Proof.
  unfold bytes_pos, pos_bytes. destruct (unpack_pack_size _ (pos_bits p) (le_n _)) as [k ->].
  by rewrite bits_pos_bits.
Qed.

Definition countable_msg {A} `{Countable A} (norm : A -> A) : ProtoMsg A := {|
  proto_Marshal m := Ok (pos_bytes (encode (norm m)));
  proto_Unmarshal b := match decode (bytes_pos b) with Some m => Ok m | None => Err tt end
|}.

Lemma countable_msg_laws {A} `{Countable A} (norm : A -> A) ok :
  (forall m, norm (norm m) = norm m) -> @ProtoLaws A (countable_msg norm) norm ok.
Proof.
  intros Hn. split; simpl.
  - intros m b _ [= <-]. by rewrite bytes_pos_bytes, decode_encode.
  - intros m. by rewrite Hn.
Qed.

(** The same, for messages with integer fields. *)
Definition ranged_msg {A} `{Countable A} (norm : A -> A) (range : A -> bool) : ProtoMsg A := {|
  proto_Marshal m := Ok (pos_bytes (encode (norm m)));
  proto_Unmarshal b := match decode (bytes_pos b) with
                       | Some m => if range m then Ok m else Err tt
                       | None => Err tt
                       end
|}.

Lemma ranged_msg_laws {A} `{Countable A} (norm : A -> A) range ok :
  (forall m, norm (norm m) = norm m) -> (forall m, ok m -> range (norm m) = true) ->
  @ProtoLaws A (ranged_msg norm range) norm ok.
Proof.
  intros Hn Hr. split; simpl.
  - intros m b Hok [= <-]. by rewrite bytes_pos_bytes, decode_encode, Hr.
  - intros m. by rewrite Hn.
Qed.

Lemma ranged_msg_range {A} `{Countable A} (norm : A -> A) range : @ProtoRange A (ranged_msg norm range) range.
Proof. intros b m. simpl. destruct (decode _) as [x|]; [|done]. destruct (range x) eqn:Hx; [|done]. by intros [= <-]. Qed.

(** The same, with no bytes for the message [z]. *)
Definition with_empty {A} `{EqDecision A} (norm : A -> A) (z : A) (msg : ProtoMsg A) : ProtoMsg A := {|
  proto_Marshal m := if decide (norm m = z) then Ok [] else @proto_Marshal A msg m;
  proto_Unmarshal b := match b with [] => Ok z | _ => @proto_Unmarshal A msg b end
|}.

Lemma pos_bytes_nonempty p : pos_bytes p <> [].
Proof.
  unfold pos_bytes. assert (Hp : pos_bits p <> []) by by destruct p.
  destruct (pos_bits p) as [|? [|? [|? [|? [|? [|? [|? [|? ?]]]]]]]]; done.
Qed.

Lemma with_empty_laws {A} `{Countable A} (norm : A -> A) range ok z :
  (forall m, norm (norm m) = norm m) -> (forall m, ok m -> range (norm m) = true) ->
  @ProtoLaws A (with_empty norm z (ranged_msg norm range)) norm ok.
Proof.
  intros Hn Hr. destruct (ranged_msg_laws norm range ok Hn Hr) as [L1 L2]. split; simpl.
  - intros m b Hok Hb. destruct (decide (norm m = z)) as [<-|]; [by injection Hb as <-|].
    pose proof (L1 m b Hok Hb) as L. destruct b as [|x b]; [|exact L]. injection Hb as Hb. by apply pos_bytes_nonempty in Hb.
  - intros m. by rewrite Hn.
Qed.

Lemma with_empty_range {A} `{Countable A} (norm : A -> A) range z :
  range z = true -> @ProtoRange A (with_empty norm z (ranged_msg norm range)) range.
Proof. intros Hz [|x b] m; [simpl; by intros [= <-]|]. apply ranged_msg_range. Qed.

Lemma u64b_spec z : u64b z = true <-> is_u64 z.
Proof. unfold u64b, is_u64. rewrite andb_true_iff, Z.leb_le, Z.ltb_lt. done. Qed.

#[export] Instance pbVersion_eq_dec : EqDecision pbVersion.
Proof. solve_decision. Defined.
#[export] Instance pbVersion_countable : Countable pbVersion.
Proof.
  refine (inj_countable (fun m => [encode (pv_Block m);
      encode (pv_App m)])
    (fun l => match l with
              | [a; b] => a ← decode a; b ← decode b; Some (MkPbVersion a b)
              | _ => None end) _).
  intros []. cbv beta iota. rewrite !decode_encode. reflexivity.
Defined.
#[export] Instance pbHeader_eq_dec : EqDecision pbHeader.
Proof. solve_decision. Defined.
#[export] Instance pbHeader_countable : Countable pbHeader.
Proof.
  refine (inj_countable (fun m => [encode (ph_Version m);
      encode (ph_Height m);
      encode (ph_Time m);
      encode (ph_LastHeaderHash m);
      encode (ph_DataHash m);
      encode (ph_AppHash m);
      encode (ph_ProposerAddress m);
      encode (ph_ValidatorHash m);
      encode (ph_ChainId m);
      encode (ph_unknown m)])
    (fun l => match l with
              | [a; b; c; d; e; f; g; h; i; j] => a ← decode a; b ← decode b; c ← decode c; d ← decode d; e ← decode e; f ← decode f; g ← decode g; h ← decode h; i ← decode i; j ← decode j; Some (MkPbHeader a b c d e f g h i j)
              | _ => None end) _).
  intros []. cbv beta iota. rewrite !decode_encode. reflexivity.
Defined.
#[export] Instance pbSigner_eq_dec : EqDecision pbSigner.
Proof. solve_decision. Defined.
#[export] Instance pbSigner_countable : Countable pbSigner.
Proof.
  refine (inj_countable (fun m => [encode (psi_Address m);
      encode (psi_PubKey m)])
    (fun l => match l with
              | [a; b] => a ← decode a; b ← decode b; Some (MkPbSigner a b)
              | _ => None end) _).
  intros []. cbv beta iota. rewrite !decode_encode. reflexivity.
Defined.
#[export] Instance pbSignedHeader_eq_dec : EqDecision pbSignedHeader.
Proof. solve_decision. Defined.
#[export] Instance pbSignedHeader_countable : Countable pbSignedHeader.
Proof.
  refine (inj_countable (fun m => [encode (psh_Header m);
      encode (psh_Signature m);
      encode (psh_Signer m)])
    (fun l => match l with
              | [a; b; c] => a ← decode a; b ← decode b; c ← decode c; Some (MkPbSignedHeader a b c)
              | _ => None end) _).
  intros []. cbv beta iota. rewrite !decode_encode. reflexivity.
Defined.
#[export] Instance pbDAHeaderEnvelope_eq_dec : EqDecision pbDAHeaderEnvelope.
Proof. solve_decision. Defined.
#[export] Instance pbDAHeaderEnvelope_countable : Countable pbDAHeaderEnvelope.
Proof.
  refine (inj_countable (fun m => [encode (pde_Header m);
      encode (pde_Signature m);
      encode (pde_Signer m);
      encode (pde_EnvelopeSignature m)])
    (fun l => match l with
              | [a; b; c; d] => a ← decode a; b ← decode b; c ← decode c; d ← decode d; Some (MkPbDAHeaderEnvelope a b c d)
              | _ => None end) _).
  intros []. cbv beta iota. rewrite !decode_encode. reflexivity.
Defined.
#[export] Instance pbMetadata_eq_dec : EqDecision pbMetadata.
Proof. solve_decision. Defined.
#[export] Instance pbMetadata_countable : Countable pbMetadata.
Proof.
  refine (inj_countable (fun m => [encode (pm_ChainId m);
      encode (pm_Height m);
      encode (pm_Time m);
      encode (pm_LastDataHash m)])
    (fun l => match l with
              | [a; b; c; d] => a ← decode a; b ← decode b; c ← decode c; d ← decode d; Some (MkPbMetadata a b c d)
              | _ => None end) _).
  intros []. cbv beta iota. rewrite !decode_encode. reflexivity.
Defined.
#[export] Instance pbData_eq_dec : EqDecision pbData.
Proof. solve_decision. Defined.
#[export] Instance pbData_countable : Countable pbData.
Proof.
  refine (inj_countable (fun m => [encode (pd_Metadata m);
      encode (pd_Txs m)])
    (fun l => match l with
              | [a; b] => a ← decode a; b ← decode b; Some (MkPbData a b)
              | _ => None end) _).
  intros []. cbv beta iota. rewrite !decode_encode. reflexivity.
Defined.
#[export] Instance pbSignedData_eq_dec : EqDecision pbSignedData.
Proof. solve_decision. Defined.
#[export] Instance pbSignedData_countable : Countable pbSignedData.
Proof.
  refine (inj_countable (fun m => [encode (psd_Data m);
      encode (psd_Signature m);
      encode (psd_Signer m)])
    (fun l => match l with
              | [a; b; c] => a ← decode a; b ← decode b; c ← decode c; Some (MkPbSignedData a b c)
              | _ => None end) _).
  intros []. cbv beta iota. rewrite !decode_encode. reflexivity.
Defined.
#[export] Instance pbState_eq_dec : EqDecision pbState.
Proof. solve_decision. Defined.
#[export] Instance pbState_countable : Countable pbState.
Proof.
  refine (inj_countable (fun m => [encode (ps_Version m);
      encode (ps_ChainId m);
      encode (ps_InitialHeight m);
      encode (ps_LastBlockHeight m);
      encode (ps_LastBlockTime m);
      encode (ps_DaHeight m);
      encode (ps_AppHash m);
      encode (ps_LastHeaderHash m);
      encode (ps_NextProposerAddress m)])
    (fun l => match l with
              | [a; b; c; d; e; f; g; h; i] => a ← decode a; b ← decode b; c ← decode c; d ← decode d; e ← decode e; f ← decode f; g ← decode g; h ← decode h; i ← decode i; Some (MkPbState a b c d e f g h i)
              | _ => None end) _).
  intros []. cbv beta iota. rewrite !decode_encode. reflexivity.
Defined.
#[export] Instance pbP2PSignedHeader_eq_dec : EqDecision pbP2PSignedHeader.
Proof. solve_decision. Defined.
#[export] Instance pbP2PSignedHeader_countable : Countable pbP2PSignedHeader.
Proof.
  refine (inj_countable (fun m => [encode (pph_Header m);
      encode (pph_Signature m);
      encode (pph_Signer m);
      encode (pph_DaHeightHint m)])
    (fun l => match l with
              | [a; b; c; d] => a ← decode a; b ← decode b; c ← decode c; d ← decode d; Some (MkPbP2PSignedHeader a b c d)
              | _ => None end) _).
  intros []. cbv beta iota. rewrite !decode_encode. reflexivity.
Defined.
#[export] Instance pbP2PData_eq_dec : EqDecision pbP2PData.
Proof. solve_decision. Defined.
#[export] Instance pbP2PData_countable : Countable pbP2PData.
Proof.
  refine (inj_countable (fun m => [encode (ppd_Metadata m);
      encode (ppd_Txs m);
      encode (ppd_DaHeightHint m)])
    (fun l => match l with
              | [a; b; c] => a ← decode a; b ← decode b; c ← decode c; Some (MkPbP2PData a b c)
              | _ => None end) _).
  intros []. cbv beta iota. rewrite !decode_encode. reflexivity.
Defined.

#[export] Instance pbVersion_msg : ProtoMsg pbVersion := countable_msg (fun m => m).
#[export] Instance pbHeader_msg : ProtoMsg pbHeader := ranged_msg norm_pbHeader pbHeader_range.
#[export] Instance pbSignedHeader_msg : ProtoMsg pbSignedHeader := ranged_msg norm_pbSignedHeader pbSignedHeader_range.
#[export] Instance pbDAHeaderEnvelope_msg : ProtoMsg pbDAHeaderEnvelope := ranged_msg norm_pbDAHeaderEnvelope pbDAHeaderEnvelope_range.
#[export] Instance pbMetadata_msg : ProtoMsg pbMetadata := countable_msg norm_pbMetadata.
#[export] Instance pbData_msg : ProtoMsg pbData :=
  with_empty norm_pbData (MkPbData None []) (ranged_msg norm_pbData pbData_range).
#[export] Instance pbData_empty : ProtoEmptyData.
Proof. reflexivity. Qed.
#[export] Instance pbSignedData_msg : ProtoMsg pbSignedData := ranged_msg norm_pbSignedData pbSignedData_range.
#[export] Instance pbState_msg : ProtoMsg pbState := countable_msg norm_pbState.
#[export] Instance pbP2PSignedHeader_msg : ProtoMsg pbP2PSignedHeader := countable_msg norm_pbP2PSignedHeader.
#[export] Instance pbP2PData_msg : ProtoMsg pbP2PData := countable_msg norm_pbP2PData.

Lemma norm_pbHeader_idemp m : norm_pbHeader (norm_pbHeader m) = norm_pbHeader m.
Proof. unfold norm_pbHeader. simpl. by rewrite !norm_slice_idemp. Qed.
Lemma norm_pbSigner_idemp m : norm_pbSigner (norm_pbSigner m) = norm_pbSigner m.
Proof. unfold norm_pbSigner. simpl. by rewrite !norm_slice_idemp. Qed.
Lemma norm_pbMetadata_idemp m : norm_pbMetadata (norm_pbMetadata m) = norm_pbMetadata m.
Proof. unfold norm_pbMetadata. simpl. by rewrite !norm_slice_idemp. Qed.
Lemma fmap_idemp {A} (f : A -> A) (o : option A) :
  (forall a, f (f a) = f a) -> f <$> (f <$> o) = f <$> o.
Proof. intros Hf. destruct o; simpl; by rewrite ?Hf. Qed.
Lemma norm_pbData_idemp m : norm_pbData (norm_pbData m) = norm_pbData m.
Proof. unfold norm_pbData. simpl. f_equal. apply fmap_idemp, norm_pbMetadata_idemp. Qed.

Lemma pbHeader_ok_range m : pbHeader_ok m -> pbHeader_range (norm_pbHeader m) = true.
Proof.
  intros (Hh & Ht & Hv & _). unfold pbHeader_range. simpl. rewrite !andb_true_iff, !u64b_spec. split; [done|].
  destruct (ph_Version m) as [v|]; [|done]. simpl. unfold pbVersion_range. rewrite andb_true_iff, !u64b_spec. by apply Hv.
Qed.
Lemma pbData_ok_range m : pbData_ok m -> pbData_range (norm_pbData m) = true.
Proof.
  intros Hm. unfold pbData_range. simpl. destruct (pd_Metadata m) as [x|] eqn:Hx; [|done]. simpl.
  unfold pbMetadata_range. rewrite andb_true_iff, !u64b_spec. by apply (Hm x).
Qed.
Lemma opt_ok_range {A} (ok : A -> Prop) (norm : A -> A) range o :
  (forall a, ok a -> range (norm a) = true) -> opt_ok ok o -> optb range (norm <$> o) = true.
Proof. intros Hr Ho. destruct o as [a|]; [|done]. by apply Hr, Ho. Qed.

#[export] Instance pbVersion_laws ok : ProtoLaws pbVersion (fun m => m) ok.
Proof. by apply countable_msg_laws. Qed.
#[export] Instance pbHeader_range_law : ProtoRange pbHeader pbHeader_range.
Proof. apply ranged_msg_range. Qed.
#[export] Instance pbHeader_laws : ProtoLaws pbHeader norm_pbHeader pbHeader_ok.
Proof. apply ranged_msg_laws; [apply norm_pbHeader_idemp|apply pbHeader_ok_range]. Qed.
#[export] Instance pbSignedHeader_range_law : ProtoRange pbSignedHeader pbSignedHeader_range.
Proof. apply ranged_msg_range. Qed.
#[export] Instance pbSignedHeader_laws : ProtoLaws pbSignedHeader norm_pbSignedHeader pbSignedHeader_ok.
Proof.
  apply ranged_msg_laws; [|intros m; by apply opt_ok_range, pbHeader_ok_range]. intros m. unfold norm_pbSignedHeader. simpl.
  by rewrite norm_slice_idemp, !fmap_idemp by auto using norm_pbHeader_idemp, norm_pbSigner_idemp.
Qed.
#[export] Instance pbDAHeaderEnvelope_range_law : ProtoRange pbDAHeaderEnvelope pbDAHeaderEnvelope_range.
Proof. apply ranged_msg_range. Qed.
#[export] Instance pbDAHeaderEnvelope_laws : ProtoLaws pbDAHeaderEnvelope norm_pbDAHeaderEnvelope pbDAHeaderEnvelope_ok.
Proof.
  apply ranged_msg_laws; [|intros m; by apply opt_ok_range, pbHeader_ok_range]. intros m. unfold norm_pbDAHeaderEnvelope. simpl.
  by rewrite !norm_slice_idemp, !fmap_idemp by auto using norm_pbHeader_idemp, norm_pbSigner_idemp.
Qed.
#[export] Instance pbMetadata_laws ok : ProtoLaws pbMetadata norm_pbMetadata ok.
Proof. apply countable_msg_laws, norm_pbMetadata_idemp. Qed.
#[export] Instance pbData_range_law : ProtoRange pbData pbData_range.
Proof. by apply with_empty_range. Qed.
#[export] Instance pbData_laws : ProtoLaws pbData norm_pbData pbData_ok.
Proof. apply with_empty_laws; [apply norm_pbData_idemp|apply pbData_ok_range]. Qed.
#[export] Instance pbSignedData_range_law : ProtoRange pbSignedData pbSignedData_range.
Proof. apply ranged_msg_range. Qed.
#[export] Instance pbSignedData_laws : ProtoLaws pbSignedData norm_pbSignedData pbSignedData_ok.
Proof.
  apply ranged_msg_laws; [|intros m; by apply opt_ok_range, pbData_ok_range]. intros m. unfold norm_pbSignedData. simpl.
  by rewrite norm_slice_idemp, !fmap_idemp by auto using norm_pbData_idemp, norm_pbSigner_idemp.
Qed.
#[export] Instance pbState_laws ok : ProtoLaws pbState norm_pbState ok.
Proof. apply countable_msg_laws. intros m. unfold norm_pbState. simpl. by rewrite !norm_slice_idemp. Qed.
#[export] Instance pbP2PSignedHeader_laws ok : ProtoLaws pbP2PSignedHeader norm_pbP2PSignedHeader ok.
Proof.
  apply countable_msg_laws. intros m. unfold norm_pbP2PSignedHeader. simpl.
  by rewrite norm_slice_idemp, !fmap_idemp by auto using norm_pbHeader_idemp, norm_pbSigner_idemp.
Qed.
#[export] Instance pbP2PData_laws ok : ProtoLaws pbP2PData norm_pbP2PData ok.
Proof.
  apply countable_msg_laws. intros m. unfold norm_pbP2PData. simpl.
  by rewrite fmap_idemp by apply norm_pbMetadata_idemp.
Qed.

(** ** Keys: a public key is a byte string, a signature is the key before the message *)

#[export] Instance toy_keys : PubKeys bytes := {
  pk_Raw pk := Ok pk;
  pk_Verify pk msg sig := Ok (bytes_eqb sig (pk ++ msg));
  MarshalPublicKey pk := Ok (Init.Byte.x08 :: pk);
  UnmarshalPublicKey b := match b with [] => Err tt | _ :: pk => Ok pk end
}.
#[export] Instance toy_keys_laws : PubKeysLaws bytes.
Proof. split; simpl; intros pk b [= <-]; done. Qed.

End ProtoInst.
