(* ===== verification/SerializationFacts.v ===== *)
(** * Correctness of the encodings and hashes

    Round trips of every binary encoding of [types/], the equivalence of the
    pooled encoders with the message conversions, and the discipline of the
    memoized header hash. *)

From S2P Require Import Prelude Sha256 Types Serialization ProtoInst.
From stdpp Require Import base gmap strings list numbers.
Open Scope Z_scope.

(** ** Normal forms: what a value looks like after it was decoded *)

Definition norm_legacy (l : option LegacyHeaderFields) : option LegacyHeaderFields :=
  match l with
  | None => None
  | Some x =>
      if Legacy_IsZero l then None
      else Some (MkLegacy (norm_slice (LastCommitHash x)) (norm_slice (ConsensusHash x))
                          (norm_slice (LastResultsHash x)))
  end.

Definition norm_header (h : Header) : Header :=
  MkHeader (h_Base h) (h_Version h) (norm_slice (LastHeaderHash h)) (norm_slice (DataHash h))
           (norm_slice (AppHash h)) (norm_slice (ValidatorHash h)) (norm_slice (ProposerAddress h))
           (norm_legacy (Legacy h)) None.

Definition norm_metadata (m : Metadata) : Metadata :=
  MkMetadata (m_ChainID m) (m_Height m) (m_Time m) (norm_slice (LastDataHash m)).

Definition norm_data (d : Data) : Data :=
  MkData (norm_metadata <$> d_Metadata d) (Some (data_txs d)).

Definition norm_state (s : State) : State :=
  MkState (st_Version s) (st_ChainID s) (InitialHeight s) (LastBlockHeight s) (LastBlockTime s)
          (norm_slice (st_LastHeaderHash s)) (DAHeight s) (norm_slice (st_AppHash s))
          (norm_slice (NextProposerAddress s)).

(** The values the Go types can hold, with legacy hashes of the accepted size. *)
Definition legacy_wf (l : option LegacyHeaderFields) : Prop :=
  forall x, l = Some x ->
    slen (LastCommitHash x) <= maxLegacyHashSize /\ slen (ConsensusHash x) <= maxLegacyHashSize /\
    slen (LastResultsHash x) <= maxLegacyHashSize.
Definition version_wf (v : Version) : Prop := is_u64 (v_Block v) /\ is_u64 (v_App v).
Definition header_wf (h : Header) : Prop :=
  is_u64 (b_Height (h_Base h)) /\ is_u64 (b_Time (h_Base h)) /\ version_wf (h_Version h) /\
  legacy_wf (Legacy h).
Definition data_wf (d : Data) : Prop :=
  forall m, d_Metadata d = Some m -> is_u64 (m_Height m) /\ is_u64 (m_Time m).
Definition state_wf (s : State) : Prop :=
  is_u64 (InitialHeight s) /\ is_u64 (LastBlockHeight s) /\ is_u64 (DAHeight s) /\
  version_wf (st_Version s) /\
  -62135596800 <= time_Unix (LastBlockTime s) <= 253402300799.

(** A signer as [NewSigner] and [FromProto] build it: with a public key, its
    cached encoding is empty or is read as that key (it may be another encoding
    than the one [MarshalPublicKey] chooses); without one, it is the zero signer. *)
Definition signer_wf {PK} `{PubKeys PK} (s : Signer PK) : Prop :=
  match PubKey s with
  | None => s = zero_signer
  | Some pk => sl (marshalledPubKey s) = [] \/ UnmarshalPublicKey (sl (marshalledPubKey s)) = Ok pk
  end.

Definition norm_signer {PK} `{PubKeys PK} (s : Signer PK) : Signer PK :=
  match PubKey s with
  | None => zero_signer
  | Some pk => MkSigner (Some pk) (norm_slice (s_Address s))
                        (if 0 <? slen (marshalledPubKey s) then marshalledPubKey s
                         else match MarshalPublicKey pk with Ok b => Some b | Err _ => None end)
  end.

Definition norm_signed_header {PK} `{PubKeys PK} (sh sh0 : SignedHeader PK) : SignedHeader PK :=
  MkSignedHeader (norm_header (sh_Header sh)) (norm_slice (sh_Signature sh))
                 (norm_signer (sh_Signer sh)) (aggregatorSignatureProvider sh0)
                 (syncNodeSignatureBytesProvider sh0).

(** The memoized hash, when present, is the hash of the header's fields. *)
Definition hash_coherent `{Wire} `{ProtoMsg pbVersion, ProtoMsg pbHeader} (h : Header) : Prop :=
  forall c, cachedHash h = Some c -> computeHash h = Some c.

(** ** The legacy fields *)

Section legacy.
Context `{WireLaws}.

Lemma wire_tag_nonempty n t : 1 <= n < 536870912 -> 0 <= t <= 5 -> 1 <= zlen (wire_tag n t).
Proof.
  intros Hn Ht. pose proof (consume_tag_append n t [] Hn Ht) as Hc.
  apply consume_tag_size in Hc. pose proof (zlen_nonneg (wire_tag n t)). lia.
Qed.

Lemma slice_from_shorter n (b : bytes) k :
  1 <= n <= zlen b -> (length b <= S k)%nat -> (length (slice_from n b) <= k)%nat.
Proof. unfold slice_from, zlen. rewrite length_drop. lia. Qed.

Lemma slice_from_le n (b : bytes) k :
  (length b <= k)%nat -> (length (slice_from n b) <= k)%nat.
Proof. unfold slice_from. rewrite length_drop. lia. Qed.

Lemma decode_legacy_loop_total fuel unknown l :
  (length unknown < fuel)%nat -> is_Some (decode_legacy_loop fuel unknown l).
Proof.
  revert unknown l. induction fuel as [|fuel IH]; intros unknown l Hf; [lia|]. simpl.
  destruct (zlen unknown =? 0) eqn:Hz; [done|].
  destruct (ConsumeTag unknown) as [[n t] k] eqn:Ht.
  destruct (Z.ltb_spec k 0); [done|].
  apply consume_tag_size in Ht as [|Hk]; [lia|].
  assert (Hl : (length (slice_from k unknown) < fuel)%nat)
    by (unfold slice_from, zlen in *; rewrite length_drop; lia).
  assert (Hl' : forall j, (length (slice_from j (slice_from k unknown)) < fuel)%nat)
    by (intros j; unfold slice_from in *; rewrite length_drop; lia).
  destruct (_ || _).
  - destruct (negb _); [case_match; [done|apply IH, Hl']|].
    destruct (ConsumeBytes _) as [v sz]. case_match; [done|]. case_match; [done|]. apply IH, Hl'.
  - case_match; [done|apply IH, Hl'].
Qed.

(** One encoded field is consumed by one iteration. *)
Lemma decode_legacy_step fuel n v rest l :
  n = legacyLastCommitHashField \/ n = legacyConsensusHashField \/ n = legacyLastResultsHashField ->
  zlen v <= maxLegacyHashSize ->
  decode_legacy_loop (S fuel) (appendBytesField [] n v ++ rest) l =
  decode_legacy_loop fuel rest
    (if n =? legacyLastCommitHashField
     then MkLegacy (norm_slice (Some v)) (ConsensusHash l) (LastResultsHash l)
     else if n =? legacyConsensusHashField
     then MkLegacy (LastCommitHash l) (norm_slice (Some v)) (LastResultsHash l)
     else MkLegacy (LastCommitHash l) (ConsensusHash l) (norm_slice (Some v))).
Proof.
  intros Hn Hv. assert (Hnr : 1 <= n < 536870912)
    by (destruct Hn as [-> | [-> | ->]]; unfold legacyLastCommitHashField, legacyConsensusHashField,
        legacyLastResultsHashField; lia).
  assert (Hu : is_u64 (zlen v)).
  { unfold is_u64, two64, maxLegacyHashSize in *. pose proof (zlen_nonneg v). lia. }
  pose proof (wire_tag_nonempty n BytesType Hnr ltac:(unfold BytesType; lia)) as Hne.
  pose proof (zlen_nonneg (wire_varint (zlen v))). pose proof (zlen_nonneg v).
  unfold appendBytesField. rewrite u64_small by done. rewrite app_nil_l, <- !app_assoc.
  cbn [decode_legacy_loop]. rewrite consume_tag_append by (done || unfold BytesType; lia).
  destruct (Z.eqb_spec (zlen (wire_tag n BytesType ++ wire_varint (zlen v) ++ v ++ rest)) 0) as [Hz|_].
  { unfold zlen in Hz, Hne. rewrite length_app in Hz. lia. }
  destruct (Z.ltb_spec (zlen (wire_tag n BytesType)) 0); [lia|].
  assert (Hd : slice_from (zlen (wire_tag n BytesType))
                 (wire_tag n BytesType ++ wire_varint (zlen v) ++ v ++ rest)
               = wire_varint (zlen v) ++ v ++ rest).
  { unfold slice_from, zlen. rewrite Nat2Z.id. apply drop_app_length. }
  rewrite Hd, consume_bytes_append by done.
  destruct (Z.ltb_spec (zlen (wire_varint (zlen v)) + zlen v) 0); [lia|].
  destruct (Z.ltb_spec maxLegacyHashSize (zlen v)); [lia|].
  assert (Hd2 : slice_from (zlen (wire_varint (zlen v)) + zlen v) (wire_varint (zlen v) ++ v ++ rest) = rest).
  { unfold slice_from. rewrite app_assoc. apply drop_app_length'.
    unfold zlen. rewrite length_app. lia. }
  rewrite Hd2. destruct Hn as [-> | [-> | ->]]; reflexivity.
Qed.

Lemma appendBytesField_app buf n v : appendBytesField buf n v = buf ++ appendBytesField [] n v.
Proof. unfold appendBytesField. by rewrite app_nil_l, <- !app_assoc. Qed.

Lemma decode_legacy_loop_mono f1 f2 u l r :
  (f1 <= f2)%nat -> decode_legacy_loop f1 u l = Some r -> decode_legacy_loop f2 u l = Some r.
Proof.
  revert f2 u l. induction f1 as [|f1 IH]; intros f2 u l Hle; [done|].
  destruct f2 as [|f2]; [lia|]. simpl. intros Hr.
  destruct (zlen u =? 0); [done|]. destruct (ConsumeTag u) as [[n t] k].
  repeat (case_match; try done); apply IH; (lia || done).
Qed.

Lemma decode_legacy_loop_det f1 f2 u l r1 r2 :
  decode_legacy_loop f1 u l = Some r1 -> decode_legacy_loop f2 u l = Some r2 -> r1 = r2.
Proof.
  intros H1 H2. apply (decode_legacy_loop_mono _ (Nat.max f1 f2)) in H1; [|lia].
  apply (decode_legacy_loop_mono _ (Nat.max f1 f2)) in H2; [|lia]. congruence.
Qed.

(** One optional field of the encoding. *)
Definition enc_field (n : Z) (s : slice) : bytes :=
  if 0 <? slen s then appendBytesField [] n (sl s) else [].

Lemma slen_pos s : (0 <? slen s) = negb (slen s =? 0).
Proof. unfold slen. pose proof (zlen_nonneg (sl s)). destruct (Z.ltb_spec 0 (zlen (sl s))), (Z.eqb_spec (zlen (sl s)) 0); try done; lia. Qed.

Lemma encode_legacy_fields l :
  encodeLegacyUnknownFields (Some l) =
  enc_field 5 (LastCommitHash l) ++ enc_field 7 (ConsensusHash l) ++ enc_field 9 (LastResultsHash l).
Proof.
  unfold encodeLegacyUnknownFields, Legacy_IsZero, enc_field. rewrite !slen_pos.
  destruct (slen (LastCommitHash l) =? 0), (slen (ConsensusHash l) =? 0),
    (slen (LastResultsHash l) =? 0); simpl; try done;
    rewrite ?app_nil_r; try done;
    rewrite ?(appendBytesField_app (appendBytesField _ _ _)), <- ?app_assoc; done.
Qed.

Lemma enc_field_size n s : slen s <= maxLegacyHashSize -> zlen (enc_field n s) <= 20 + maxLegacyHashSize.
Proof.
  intros Hs. unfold enc_field. destruct (0 <? slen s); [|done].
  unfold appendBytesField. pose proof (wire_tag_size n BytesType) as Ht.
  pose proof (wire_varint_size (u64 (zlen (sl s)))) as Hv.
  unfold slen, zlen in *. rewrite app_nil_l, !length_app. lia.
Qed.

Lemma norm_slice_nonempty s : (0 <? slen s) = true -> norm_slice (Some (sl s)) = norm_slice s.
Proof. destruct s as [[|]|]; done. Qed.

Lemma norm_slice_empty s : (0 <? slen s) = false -> norm_slice s = None.
Proof. destruct s as [[|]|]; done. Qed.

(** Decoding an optional field sets it, or leaves the nil it started with. *)
Lemma decode_enc_field f n s rest l :
  n = legacyLastCommitHashField \/ n = legacyConsensusHashField \/ n = legacyLastResultsHashField ->
  slen s <= maxLegacyHashSize ->
  (n = legacyLastCommitHashField -> LastCommitHash l = None) ->
  (n = legacyConsensusHashField -> ConsensusHash l = None) ->
  (n = legacyLastResultsHashField -> LastResultsHash l = None) ->
  forall r,
  decode_legacy_loop f rest
    (if n =? legacyLastCommitHashField
     then MkLegacy (norm_slice s) (ConsensusHash l) (LastResultsHash l)
     else if n =? legacyConsensusHashField
     then MkLegacy (LastCommitHash l) (norm_slice s) (LastResultsHash l)
     else MkLegacy (LastCommitHash l) (ConsensusHash l) (norm_slice s)) = Some r ->
  decode_legacy_loop (S f) (enc_field n s ++ rest) l = Some r.
Proof.
  intros Hn Hs H1 H2 H3 r Hr. unfold enc_field. destruct (0 <? slen s) eqn:Hp.
  - rewrite decode_legacy_step by done. by rewrite norm_slice_nonempty.
  - rewrite norm_slice_empty in Hr by done. apply (decode_legacy_loop_mono f); [lia|].
    rewrite <- Hr. f_equal. destruct l as [a b c]; simpl in *.
    destruct Hn as [-> | [-> | ->]]; simpl; f_equal; auto.
Qed.

Lemma encode_legacy_nil l : encodeLegacyUnknownFields (Some l) = [] -> Legacy_IsZero (Some l) = true.
Proof.
  rewrite encode_legacy_fields. intros [H1 [H2 H3]%app_eq_nil]%app_eq_nil.
  assert (Hf : forall n s, enc_field n s = [] -> (slen s =? 0) = true).
  { intros n s. unfold enc_field. rewrite slen_pos. destruct (slen s =? 0) eqn:Hs; [done|].
    simpl. unfold appendBytesField. intros [_ Hv]%app_eq_nil. apply Z.eqb_neq in Hs.
    unfold slen in Hs. by rewrite Hv in Hs. }
  simpl. by rewrite (Hf 5), (Hf 7), (Hf 9).
Qed.

Lemma decode_encode_legacy_fields l ph :
  legacy_wf l -> ph_unknown ph = encodeLegacyUnknownFields l ->
  decodeLegacyHeaderFields ph = Ok (norm_legacy l).
Proof.
  intros Hwf Hu. unfold decodeLegacyHeaderFields. rewrite Hu.
  destruct l as [l|]; [|done]. destruct (Hwf l eq_refl) as (Hc & Hk & Hr).
  destruct (Z.eqb_spec (zlen (encodeLegacyUnknownFields (Some l))) 0) as [Hz|Hz].
  { apply zlen_zero, encode_legacy_nil in Hz. unfold norm_legacy. by rewrite Hz. }
  assert (Hsize : zlen (encodeLegacyUnknownFields (Some l)) <= maxUnknownFieldSize).
  { rewrite encode_legacy_fields. pose proof (enc_field_size 5 _ Hc). pose proof (enc_field_size 7 _ Hk).
    pose proof (enc_field_size 9 _ Hr). unfold maxUnknownFieldSize, maxLegacyHashSize, zlen in *.
    rewrite !length_app. lia. }
  destruct (Z.ltb_spec maxUnknownFieldSize (zlen (encodeLegacyUnknownFields (Some l)))); [lia|].
  destruct (decode_legacy_loop_total (S (length (encodeLegacyUnknownFields (Some l))))
              (encodeLegacyUnknownFields (Some l)) (MkLegacy None None None)) as [r Hd]; [lia|].
  rewrite Hd. set (out := MkLegacy (norm_slice (LastCommitHash l)) (norm_slice (ConsensusHash l))
                                   (norm_slice (LastResultsHash l))).
  assert (Hd4 : decode_legacy_loop 4 (encodeLegacyUnknownFields (Some l)) (MkLegacy None None None)
                = Some (Ok out)).
  { rewrite encode_legacy_fields, <- (app_nil_r (enc_field 9 _)).
    apply decode_enc_field; try done; [by left|]. apply decode_enc_field; try done; [by right; left|].
    apply decode_enc_field; try done; by right; right. }
  rewrite (decode_legacy_loop_det _ _ _ _ _ _ Hd Hd4). unfold norm_legacy.
  replace (Legacy_IsZero (Some out)) with (Legacy_IsZero (Some l)); [by case_match|].
  unfold Legacy_IsZero, slen, out; simpl. by rewrite !sl_norm.
Qed.

End legacy.

(** ** Conversions *)

Lemma copy_slice_norm s : copy_slice (norm_slice s) = norm_slice s.
Proof. destruct s as [[|]|]; done. Qed.

Lemma if_zlen_nil (u : bytes) : (if 0 <? zlen u then u else []) = u.
Proof. destruct u; done. Qed.

Lemma slen_norm s : slen (norm_slice s) = slen s.
Proof. unfold slen. by rewrite sl_norm. Qed.

Lemma version_eta v : MkVersion (v_Block v) (v_App v) = v.
Proof. by destruct v. Qed.

Lemma base_header_eta b : MkBaseHeader (b_Height b) (b_Time b) (b_ChainID b) = b.
Proof. by destruct b. Qed.

Lemma as_time_Unix t : as_time (time_Unix t, time_Nanosecond t) = t.
Proof. unfold as_time, time_Unix, time_Nanosecond. cbn [fst snd]. rewrite Z.mul_comm. symmetry. by apply Z.div_mod. Qed.

Section conversions.
Context `{WireLaws}.

Lemma header_from_to_proto h h0 :
  header_wf h ->
  Header_FromProto (Some (norm_pbHeader (Header_ToProto h))) h0 = (Ok tt, norm_header h).
Proof.
  intros (_ & _ & _ & Hl). unfold Header_FromProto.
  rewrite (decode_encode_legacy_fields (Legacy h)) by (done || apply if_zlen_nil).
  unfold norm_header, set_Legacy. simpl.
  by rewrite !copy_slice_norm, version_eta, base_header_eta.
Qed.

Lemma pbHeader_ok_ToProto h : header_wf h -> pbHeader_ok (Header_ToProto h).
Proof.
  intros (Hh & Ht & Hv & _). split_and!; try done.
  - simpl. intros v [= <-]. exact Hv.
  - exists (Legacy h). simpl. apply if_zlen_nil.
Qed.

Lemma data_from_to_proto d d0 :
  Data_FromProto (Some (norm_pbData (Data_ToProto d))) d0 = (Ok tt, norm_data d).
Proof.
  unfold Data_FromProto, norm_data, byteSlicesToTxs, data_txs.
  destruct d as [[m|] txs]; simpl; rewrite ?copy_slice_norm;
    by destruct txs as [[|]|].
Qed.

Lemma pbData_ok_ToProto d : data_wf d -> pbData_ok (Data_ToProto d).
Proof. intros Hd pm. simpl. destruct (d_Metadata d) eqn:Hm; [|done]. intros [= <-]. by apply Hd. Qed.

Lemma state_from_to_proto s s0 :
  State_FromProto (Some (norm_pbState (State_ToProto s))) s0 = (Ok tt, norm_state s).
Proof.
  unfold State_FromProto, modify, norm_state. simpl.
  by rewrite as_time_Unix, !copy_slice_norm, version_eta.
Qed.

Lemma pbState_ok_ToProto s : state_wf s -> pbState_ok (State_ToProto s).
Proof.
  intros (? & ? & ? & Hv & Ht). split_and!; try done.
  - intros v [= <-]. exact Hv.
  - intros ts [= <-]. simpl. split; [done|]. by apply Z.mod_pos_bound.
Qed.

Context {PK : Type} `{PubKeysLaws PK}.

Lemma marshalled_pubkey_eq (s : Signer PK) pk m s' :
  PubKey s = Some pk -> signer_wf s -> MarshalledPubKey s = (Ok m, s') ->
  UnmarshalPublicKey (sl m) = Ok pk /\ (0 <? slen m) = true /\ marshalledPubKey (norm_signer s) = m.
Proof.
  intros Hpk Hwf Hm. unfold MarshalledPubKey, signer_wf, norm_signer in *. rewrite Hpk in *. cbn [marshalledPubKey].
  destruct (Z.ltb_spec 0 (slen (marshalledPubKey s))) as [Hp|Hp].
  - simplify_eq. destruct Hwf as [Hwf|Hwf]; [unfold slen in Hp; by rewrite Hwf in Hp|].
    split_and!; [done|by apply Z.ltb_lt|done].
  - destruct (MarshalPublicKey pk) as [b|] eqn:Hb; simplify_eq.
    split_and!; [by apply unmarshal_marshal_pubkey| |done].
    apply marshal_pubkey_nonempty in Hb. destruct b; [done|]. apply Z.ltb_lt. unfold slen, zlen. simpl. lia.
Qed.

Lemma signer_from_to_proto (s s' : Signer PK) psi :
  signer_wf s -> Signer_ToProto s = (Ok psi, s') ->
  Signer_FromProto (Some (norm_pbSigner psi)) = Ok (norm_signer s).
Proof.
  intros Hwf Hto. unfold Signer_ToProto in *.
  destruct (PubKey s) as [pk|] eqn:Hpk; [|unfold norm_signer; rewrite Hpk; by simplify_eq].
  destruct (MarshalledPubKey s) as [[m|e] s''] eqn:Hm; simplify_eq.
  destruct (marshalled_pubkey_eq _ _ _ _ Hpk Hwf Hm) as (Hun & Hpos & Hn).
  unfold Signer_FromProto. simpl. rewrite slen_norm, sl_norm, Hpos, Hun, !norm_slice_idemp.
  unfold norm_signer in *. rewrite Hpk in *. cbn [marshalledPubKey] in Hn. rewrite Hn. do 2 f_equal.
  destruct m as [[|]|]; done.
Qed.

End conversions.

(** ** Decoding untrusted legacy fields *)

Section untrusted.
Context `{WireLaws}.

Definition legacy_bounded (l : LegacyHeaderFields) : Prop :=
  slen (LastCommitHash l) <= maxLegacyHashSize /\ slen (ConsensusHash l) <= maxLegacyHashSize /\
  slen (LastResultsHash l) <= maxLegacyHashSize.

Lemma decode_legacy_loop_bounded fuel u l l' :
  legacy_bounded l -> decode_legacy_loop fuel u l = Some (Ok l') -> legacy_bounded l'.
Proof.
  revert u l. induction fuel as [|fuel IH]; intros u l Hl; simpl; [done|].
  destruct (zlen u =? 0); [by intros [= <-]|].
  destruct (ConsumeTag u) as [[n t] k]. destruct (k <? 0); [done|].
  destruct (_ || _); [|case_match; [done|by apply IH]].
  destruct (negb _); [case_match; [done|by apply IH]|].
  destruct (ConsumeBytes _) as [v sz]. case_match; [done|].
  destruct (Z.ltb_spec maxLegacyHashSize (zlen v)) as [|Hv]; [done|].
  apply IH. destruct Hl as (? & ? & ?).
  assert (Hn : slen (norm_slice (Some v)) <= maxLegacyHashSize) by by rewrite slen_norm.
  destruct (n =? legacyLastCommitHashField), (n =? legacyConsensusHashField);
    repeat split; first [exact Hn | assumption].
Qed.

(** C40: Decoding the legacy fields of an arbitrary, untrusted header message
    returns: the loop ends within one iteration per byte for any fuel above
    that, its answer does not depend on the fuel, and the fields of an accepted
    message are at most 1024 bytes each and not all empty. *)
Theorem legacy_decode_total ph fuel :
  (length (ph_unknown ph) < fuel)%nat ->
  is_Some (decode_legacy_loop fuel (ph_unknown ph) (MkLegacy None None None)) /\
  decode_legacy_loop fuel (ph_unknown ph) (MkLegacy None None None) =
    decode_legacy_loop (S (length (ph_unknown ph))) (ph_unknown ph) (MkLegacy None None None) /\
  forall l, decodeLegacyHeaderFields ph = Ok (Some l) ->
    legacy_bounded l /\ Legacy_IsZero (Some l) = false.
Proof.
  intros Hf. set (z := MkLegacy None None None).
  destruct (decode_legacy_loop_total fuel (ph_unknown ph) z Hf) as [r Hr].
  destruct (decode_legacy_loop_total (S (length (ph_unknown ph))) (ph_unknown ph) z ltac:(lia)) as [r' Hr'].
  split_and!; [by eexists|by rewrite Hr, Hr', (decode_legacy_loop_det _ _ _ _ _ _ Hr Hr')|].
  intros l. unfold decodeLegacyHeaderFields. fold z. rewrite Hr'.
  destruct (_ =? 0); [done|]. destruct (_ <? _); [done|].
  destruct r' as [l'|]; [|done]. destruct (Legacy_IsZero (Some l')) eqn:Hz; [done|].
  intros [= <-]. split; [|done]. eapply decode_legacy_loop_bounded; [|exact Hr'].
  by unfold legacy_bounded.
Qed.

End untrusted.

(** ** Binary round trips *)

Section roundtrips.
Context {PK : Type} `{PubKeysLaws PK} `{WireLaws}.
Context `{ProtoMsg pbVersion, ProtoMsg pbHeader, ProtoMsg pbSignedHeader,
          ProtoMsg pbDAHeaderEnvelope, ProtoMsg pbMetadata, ProtoMsg pbData,
          ProtoMsg pbSignedData, ProtoMsg pbState, ProtoMsg pbP2PSignedHeader,
          ProtoMsg pbP2PData}.
Context `{!ProtoLaws pbHeader norm_pbHeader pbHeader_ok,
          !ProtoLaws pbSignedHeader norm_pbSignedHeader pbSignedHeader_ok,
          !ProtoLaws pbDAHeaderEnvelope norm_pbDAHeaderEnvelope pbDAHeaderEnvelope_ok,
          !ProtoLaws pbData norm_pbData pbData_ok,
          !ProtoLaws pbState norm_pbState pbState_ok,
          !ProtoLaws pbP2PSignedHeader norm_pbP2PSignedHeader pbP2PSignedHeader_ok,
          !ProtoLaws pbP2PData norm_pbP2PData pbP2PData_ok}.

Lemma lift_proto_ok {A} (r : res unit A) a : lift_proto r = Ok a -> r = Ok a.
Proof. by destruct r; simpl; intros [= <-]. Qed.

Lemma lift_proto_unmarshal {A} `{ProtoMsg A} norm ok `{!ProtoLaws A norm ok} (m : A) b :
  ok m -> lift_proto (proto_Marshal m) = Ok b -> lift_proto (proto_Unmarshal b) = Ok (norm m).
Proof. intros Hok Hm. apply lift_proto_ok in Hm. by rewrite (unmarshal_marshal m b Hok Hm). Qed.

(** The pooled encoders compute the encoding of the converted message, whatever
    the pooled objects held. *)
Lemma fill_pooled_header_eq dirty dirtyv h : fill_pooled_header dirty dirtyv h = Header_ToProto h.
Proof. done. Qed.

Lemma signed_header_marshal_eq d dh dv ds (sh : SignedHeader PK) :
  SignedHeader_MarshalBinary d dh dv ds sh =
  (psh ← SignedHeader_ToProto sh; lift_proto (proto_Marshal psh)).
Proof.
  unfold SignedHeader_MarshalBinary, SignedHeader_ToProto, Signer_ToProto.
  rewrite fill_pooled_header_eq. destruct (PubKey _); [|done].
  by destruct (MarshalledPubKey _) as [[]].
Qed.

Lemma data_marshal_eq d dm (x : Data) :
  Data_MarshalBinary d dm x = lift_proto (proto_Marshal (Data_ToProto x)).
Proof. unfold Data_MarshalBinary, Data_ToProto. by destruct (d_Metadata x), (Txs x). Qed.

(** Conversion of a signed header and back. *)
Lemma signed_header_from_to_proto (sh sh0 : SignedHeader PK) psh :
  header_wf (sh_Header sh) -> signer_wf (sh_Signer sh) -> SignedHeader_ToProto sh = Ok psh ->
  pbSignedHeader_ok psh /\
  SignedHeader_FromProto (Some (norm_pbSignedHeader psh)) sh0 = (Ok tt, norm_signed_header sh sh0).
Proof.
  intros Hh Hs Hto. unfold SignedHeader_ToProto in Hto.
  destruct (Signer_ToProto (sh_Signer sh)) as [[psi|] s'] eqn:Hsi; simpl in Hto; simplify_eq.
  split. { intros ph [= <-]. by apply pbHeader_ok_ToProto. }
  pose proof (header_from_to_proto _ (sh_Header sh0) Hh) as Hfh.
  pose proof (signer_from_to_proto _ _ _ Hs Hsi) as Hfs.
  unfold SignedHeader_FromProto, norm_pbSignedHeader. cbn [psh_Header psh_Signature psh_Signer fmap option_fmap option_map].
  unfold mbind, M_bind, zoom, modify, lift_res. by rewrite Hfh, Hfs.
Qed.

(** A header that is encoded (with any leftover contents in the pooled
    messages) and decoded into any receiver gives back the header, legacy
    fields included, up to nil for empty slices. *)
Theorem header_roundtrip dirty dirtyv h h0 b :
  header_wf h -> Header_MarshalBinary dirty dirtyv h = Ok b ->
  Header_UnmarshalBinary b h0 = (Ok tt, norm_header h).
Proof.
  intros Hwf Hm. unfold Header_UnmarshalBinary, mbind, M_bind, lift_res.
  rewrite (lift_proto_unmarshal _ _ _ b (pbHeader_ok_ToProto h Hwf) Hm).
  by apply header_from_to_proto.
Qed.

Lemma signed_header_decode d dh dv ds (sh sh0 : SignedHeader PK) b :
  header_wf (sh_Header sh) -> signer_wf (sh_Signer sh) ->
  SignedHeader_MarshalBinary d dh dv ds sh = Ok b ->
  SignedHeader_UnmarshalBinary b sh0 = (Ok tt, norm_signed_header sh sh0).
Proof.
  intros Hh Hs. rewrite signed_header_marshal_eq. intros (psh & Hto & Hm)%bind_ok.
  destruct (signed_header_from_to_proto sh sh0 psh Hh Hs Hto) as [Hok Hfrom].
  unfold SignedHeader_UnmarshalBinary, mbind, M_bind, lift_res.
  by rewrite (lift_proto_unmarshal _ _ _ b Hok Hm).
Qed.

Lemma data_decode dirty dirtym d d0 b :
  data_wf d -> Data_MarshalBinary dirty dirtym d = Ok b ->
  Data_UnmarshalBinary b d0 = (Ok tt, norm_data d).
Proof.
  intros Hwf. rewrite data_marshal_eq. intros Hm.
  unfold Data_UnmarshalBinary, mbind, M_bind, lift_res.
  rewrite (lift_proto_unmarshal _ _ _ b (pbData_ok_ToProto d Hwf) Hm).
  apply data_from_to_proto.
Qed.

Lemma state_decode dirty dirtyv s s0 b :
  state_wf s -> State_MarshalBinary dirty dirtyv s = Ok b ->
  exists pb, lift_proto (proto_Unmarshal b) = Ok pb /\
    State_FromProto (Some pb) s0 = (Ok tt, norm_state s).
Proof.
  intros Hwf Hm. eexists.
  split; [apply (lift_proto_unmarshal _ _ _ b (pbState_ok_ToProto s Hwf) Hm)|].
  apply state_from_to_proto.
Qed.

(** A signed header that is encoded by the pooled encoder and decoded gives
    back the header, the signature and the signer's key and address; the
    receiver keeps its own signature payload providers. *)
Theorem signed_header_roundtrip d dh dv ds (sh sh0 : SignedHeader PK) b :
  header_wf (sh_Header sh) -> signer_wf (sh_Signer sh) ->
  SignedHeader_MarshalBinary d dh dv ds sh = Ok b ->
  SignedHeader_UnmarshalBinary b sh0 = (Ok tt, norm_signed_header sh sh0).
Proof. apply signed_header_decode. Qed.

Lemma da_envelope_decode (sh sh0 : SignedHeader PK) sig b :
  header_wf (sh_Header sh) -> signer_wf (sh_Signer sh) ->
  MarshalDAEnvelope sig sh = Ok b ->
  UnmarshalDAEnvelope b sh0 = (Ok (norm_slice sig), norm_signed_header sh sh0).
Proof.
  intros Hh Hs. unfold MarshalDAEnvelope, ToDAEnvelopeProto.
  destruct (Signer_ToProto (sh_Signer sh)) as [[psi|] s'] eqn:Hsi; [|done].
  set (psh := MkPbSignedHeader (Some (Header_ToProto (sh_Header sh))) (sh_Signature sh) (Some psi)).
  set (env := MkPbDAHeaderEnvelope (psh_Header psh) (psh_Signature psh) (psh_Signer psh) sig).
  change (lift_proto (proto_Marshal env) = Ok b ->
    UnmarshalDAEnvelope b sh0 = (Ok (norm_slice sig), norm_signed_header sh sh0)).
  intros Hm. destruct (signed_header_from_to_proto sh sh0 psh Hh Hs) as [Hok Hfrom];
    [by unfold SignedHeader_ToProto; rewrite Hsi|].
  change (FromDAEnvelopeProto (Some (norm_pbDAHeaderEnvelope env)) sh0
          = (Ok tt, norm_signed_header sh sh0)) in Hfrom.
  unfold UnmarshalDAEnvelope, mbind, M_bind, lift_res.
  rewrite (lift_proto_unmarshal norm_pbDAHeaderEnvelope pbDAHeaderEnvelope_ok env b Hok Hm).
  by rewrite Hfrom.
Qed.

(** A DA header envelope carries the signed header and the envelope
    signature through encoding and decoding. *)
Theorem da_envelope_roundtrip (sh sh0 : SignedHeader PK) sig b :
  header_wf (sh_Header sh) -> signer_wf (sh_Signer sh) ->
  MarshalDAEnvelope sig sh = Ok b ->
  UnmarshalDAEnvelope b sh0 = (Ok (norm_slice sig), norm_signed_header sh sh0).
Proof. apply da_envelope_decode. Qed.

(** Block data that is encoded by the pooled encoder and decoded gives back
    the metadata and the transactions in order; a nil list of transactions
    comes back empty. *)
Theorem data_roundtrip dirty dirtym d d0 b :
  data_wf d -> Data_MarshalBinary dirty dirtym d = Ok b ->
  Data_UnmarshalBinary b d0 = (Ok tt, norm_data d).
Proof.
  apply data_decode.
Qed.

(** A chain state that is encoded and decoded gives back the state, its
    time to the nanosecond. *)
Theorem state_roundtrip dirty dirtyv s s0 b :
  state_wf s -> State_MarshalBinary dirty dirtyv s = Ok b ->
  exists pb, lift_proto (proto_Unmarshal b) = Ok pb /\
    State_FromProto (Some pb) s0 = (Ok tt, norm_state s).
Proof. apply state_decode. Qed.

End roundtrips.

(** ** Hashes *)

Section hashes.
Context `{WireLaws} `{ProtoMsg pbVersion, ProtoMsg pbHeader}.
Context `{!ProtoLaws pbHeader norm_pbHeader pbHeader_ok}.

Lemma Legacy_IsZero_norm l : Legacy_IsZero (norm_legacy l) = Legacy_IsZero l.
Proof.
  destruct l as [l|]; [|done]. unfold norm_legacy. destruct (Legacy_IsZero (Some l)) eqn:Hz; [done|].
  rewrite <- Hz. simpl. by rewrite !slen_norm.
Qed.

Lemma encode_legacy_norm l : encodeLegacyUnknownFields (norm_legacy l) = encodeLegacyUnknownFields l.
Proof.
  destruct l as [l|]; [|done]. unfold norm_legacy. destruct (Legacy_IsZero (Some l)) eqn:Hz.
  - simpl in *. by rewrite Hz.
  - rewrite !encode_legacy_fields. unfold enc_field. simpl. by rewrite !slen_norm, !sl_norm.
Qed.

Lemma norm_ToProto h : norm_pbHeader (Header_ToProto (norm_header h)) = norm_pbHeader (Header_ToProto h).
Proof.
  unfold norm_pbHeader, Header_ToProto, norm_header.
  cbn [h_Base h_Version LastHeaderHash DataHash AppHash ValidatorHash ProposerAddress Legacy
       ph_Version ph_Height ph_Time ph_LastHeaderHash ph_DataHash ph_AppHash ph_ProposerAddress
       ph_ValidatorHash ph_ChainId ph_unknown].
  by rewrite encode_legacy_norm, !norm_slice_idemp.
Qed.

Lemma Legacy_Clone_norm l : Legacy_IsZero l = false -> Legacy_Clone (norm_legacy l) = Legacy_Clone l.
Proof.
  destruct l as [l|]; [|done]. intros Hz. unfold norm_legacy. rewrite Hz. simpl.
  by rewrite !cloneBytes_norm, !norm_slice_idemp.
Qed.

(** The hash does not tell a header from its normal form. *)
Lemma computeHash_norm h : computeHash (norm_header h) = computeHash h.
Proof.
  unfold computeHash. cbn [Legacy norm_header]. rewrite Legacy_IsZero_norm.
  assert (HashSlim (Some (norm_header h)) = HashSlim (Some h)) as ->.
  { unfold HashSlim, Header_MarshalBinary. rewrite !fill_pooled_header_eq.
    by rewrite <- marshal_norm, norm_ToProto, marshal_norm. }
  destruct (Legacy_IsZero (Legacy h)) eqn:Hz; [done|]. simpl negb. cbv iota.
  assert (Header_Clone (norm_header h) = Header_Clone h) as Hc.
  { unfold Header_Clone, norm_header.
    cbn [h_Base h_Version LastHeaderHash DataHash AppHash ValidatorHash ProposerAddress Legacy].
    by rewrite Legacy_Clone_norm, !cloneBytes_norm, !norm_slice_idemp. }
  unfold HashLegacy, Header_MarshalBinaryLegacy, marshalLegacyHeader. by rewrite Hc.
Qed.

(** A header that is encoded and decoded has the hash it had before,
    whichever of the slim and the legacy hash applies to it, when the hash
    memoized in it (if any) was the hash of its fields. *)
Theorem hash_survives_roundtrip dirty dirtyv h h0 b :
  header_wf h -> hash_coherent h -> Header_MarshalBinary dirty dirtyv h = Ok b ->
  (Header_UnmarshalBinary b h0).1 = Ok tt /\
  Header_Hash (Some (Header_UnmarshalBinary b h0).2) = Header_Hash (Some h).
Proof.
  intros Hwf Hco Hm. unfold Header_UnmarshalBinary, mbind, M_bind, lift_res.
  rewrite (lift_proto_unmarshal _ _ _ b (pbHeader_ok_ToProto h Hwf) Hm).
  rewrite (header_from_to_proto h h0 Hwf). split; [done|].
  cbn [Header_Hash snd cachedHash norm_header]. rewrite computeHash_norm.
  destruct (cachedHash h) as [c|] eqn:Hc; [|done]. by apply Hco.
Qed.

Lemma computeHash_set_cached c h : computeHash (set_cachedHash c h) = computeHash h.
Proof. by destruct h. Qed.

(** The memoized hash stays coherent with the header's fields: memoizing a
    coherent header returns the hash of its fields, changes no field, and
    leaves it coherent; decoding, cloning, invalidating and filling in the
    legacy defaults all produce coherent headers, whatever was cached before. *)
Theorem memoized_hash_coherent h :
  (hash_coherent h ->
   let '(hash, h') := MemoizeHash (Some h) in
   hash = computeHash h /\ hash = Header_Hash (Some h) /\
   exists x, h' = Some x /\ hash_coherent x /\ set_cachedHash None x = set_cachedHash None h) /\
  (forall o, o <> None -> hash_coherent (Header_FromProto o h).2) /\
  hash_coherent (Header_Clone h) /\ hash_coherent (ApplyLegacyDefaults h) /\
  (forall x, InvalidateHash (Some h) = Some x -> hash_coherent x).
Proof.
  split_and!; try (by intros ? ?); try (by intros x [= <-] ?).
  - intros Hco. unfold MemoizeHash, Header_Hash. destruct (cachedHash h) as [c|] eqn:Hc.
    + rewrite (Hco c Hc). split_and!; eauto.
    + destruct (computeHash h) as [c|] eqn:Hh; split_and!; eauto.
      eexists. split_and!; [done| |done]. intros c' [= <-]. by rewrite computeHash_set_cached.
  - intros [o|] Ho; [|done]. unfold Header_FromProto. by destruct (decodeLegacyHeaderFields o).
Qed.

End hashes.

(** ** The theorems at concrete headers *)

Module SerializationWitness.
Import ProtoInst.

Definition h1 : Header :=
  MkHeader (MkBaseHeader 5 1700000000000000000 "c") (MkVersion 11 1) (Some [byte_of_Z 1])
           (Some [byte_of_Z 2]) (Some []) None (Some [byte_of_Z 3])
           (Some (MkLegacy None (Some [byte_of_Z 7]) None)) None.
Definition key1 : bytes := [byte_of_Z 9].
Definition signer1 : Signer bytes :=
  MkSigner (Some key1) (Some (Sha256.sum256 key1)) None.
Definition sh1 : SignedHeader bytes := MkSignedHeader h1 (Some key1) signer1 None None.
Definition d1 : Data := MkData (Some (MkMetadata "c" 5 6 None)) (Some [key1; []]).
Definition s1 : State := MkState (MkVersion 11 1) "c" 1 4 1700000000000000007 (Some key1) 3 None (Some []).

Lemma h1_wf : header_wf h1.
Proof.
  unfold header_wf, version_wf, legacy_wf, is_u64, two64, maxLegacyHashSize. simpl. split_and!; try lia.
  intros x [= <-]. done.
Qed.

Lemma legacy_decode_total_witness :
  let ph := Header_ToProto h1 in
  is_Some (decode_legacy_loop 100 (ph_unknown ph) (MkLegacy None None None)).
Proof.
  intros ph. apply (legacy_decode_total ph 100). vm_compute. repeat constructor.
Defined.

Lemma header_roundtrip_witness :
  exists b, Header_MarshalBinary clean_header clean_version h1 = Ok b /\
  Header_UnmarshalBinary b Header_New = (Ok tt, norm_header h1).
Proof.
  eexists. split; [reflexivity|]. apply (header_roundtrip clean_header clean_version); [apply h1_wf|reflexivity].
Defined.

Lemma signed_header_roundtrip_witness :
  exists b, SignedHeader_MarshalBinary (MkPbSignedHeader None None None) clean_header clean_version
              (MkPbSigner None None) sh1 = Ok b /\
  SignedHeader_UnmarshalBinary b SignedHeader_New = (Ok tt, norm_signed_header sh1 SignedHeader_New).
Proof.
  eexists. split; [reflexivity|].
  apply (signed_header_roundtrip (MkPbSignedHeader None None None) clean_header clean_version
           (MkPbSigner None None)); [apply h1_wf|by left|reflexivity].
Defined.

Lemma da_envelope_roundtrip_witness :
  exists b, MarshalDAEnvelope (Some key1) sh1 = Ok b /\
  UnmarshalDAEnvelope b SignedHeader_New = (Ok (Some key1), norm_signed_header sh1 SignedHeader_New).
Proof.
  eexists. split; [reflexivity|].
  apply (da_envelope_roundtrip sh1 SignedHeader_New (Some key1)); [apply h1_wf|by left|reflexivity].
Defined.

Lemma data_roundtrip_witness :
  exists b, Data_MarshalBinary clean_data clean_metadata d1 = Ok b /\
  Data_UnmarshalBinary b Data_New = (Ok tt, norm_data d1).
Proof.
  eexists. split; [reflexivity|]. apply (data_roundtrip clean_data clean_metadata); [|reflexivity].
  intros m [= <-]. unfold is_u64, two64. simpl. lia.
Defined.

Lemma state_roundtrip_witness :
  exists b pb, State_MarshalBinary (MkPbState None "" 0 0 None 0 None None None) clean_version s1 = Ok b /\
  lift_proto (proto_Unmarshal b) = Ok pb /\ State_FromProto (Some pb) zero_state = (Ok tt, norm_state s1).
Proof.
  destruct (State_MarshalBinary (MkPbState None "" 0 0 None 0 None None None) clean_version s1)
    as [b|e] eqn:Hm; [|discriminate Hm].
  destruct (state_roundtrip (MkPbState None "" 0 0 None 0 None None None) clean_version s1 zero_state b)
    as (pb & Hu & Hf); [|exact Hm|by exists b, pb].
  unfold state_wf, version_wf, is_u64, two64. simpl. split_and!; try lia; vm_compute; discriminate.
Defined.

Lemma hash_survives_roundtrip_witness :
  exists b, Header_MarshalBinary clean_header clean_version h1 = Ok b /\
  Header_Hash (Some (Header_UnmarshalBinary b Header_New).2) = Header_Hash (Some h1).
Proof.
  eexists. split; [reflexivity|].
  apply (hash_survives_roundtrip clean_header clean_version h1 Header_New); [apply h1_wf|done|reflexivity].
Defined.

Lemma memoized_hash_coherent_witness :
  let '(hash, h') := MemoizeHash (Some h1) in hash = computeHash h1.
Proof.
  assert (Hco : hash_coherent h1) by done.
  pose proof (proj1 (memoized_hash_coherent h1) Hco) as Hm.
  destruct (MemoizeHash (Some h1)). apply Hm.
Defined.

End SerializationWitness.
