(* ===== verification/Validation.v ===== *)
(** * Block validation ([types/signed_header.go], [types/data.go], [types/state.go])

    Signature checks of headers, header/data agreement, and the checks of a
    block against the chain state. [AssertValidSequence] reads and writes the
    two package variables [basedSequencerTracking] and
    [lastHeaderHashErrCount]; they are the state of the monad here. *)

From S2P Require Import Prelude Sha256 Types Serialization SerializationFacts ProtoInst.
From stdpp Require Import base gmap strings list numbers.
Open Scope Z_scope.

(** The process-wide variables of [types/state.go]: whether the [sync.Once]
    has fired, and the counter it increments. *)
Record SeqTracking := MkSeqTracking
  { basedSequencerTracking : bool; lastHeaderHashErrCount : Z }.
Definition initial_tracking : SeqTracking := MkSeqTracking false 0.

Section validation.
Context {PK : Type} `{PubKeys PK} `{Wire}.
Context `{ProtoMsg pbVersion, ProtoMsg pbHeader, ProtoMsg pbData}.

(** ** Signatures *)

(** [tryPayload]: the payloads tried so far are the state. *)
Definition tryPayload (pk : PK) (signature payload : bytes) : M (list bytes) terror bool := fun tried =>
  if zlen payload =? 0 then (Ok false, tried)
  else if existsb (fun p => bytes_eqb p payload) tried then (Ok false, tried)
  else
    let tried := tried ++ [payload] in
    match pk_Verify pk payload signature with
    | Err _ => (Err ErrVerify, tried)
    | Ok verified => (Ok verified, tried)
    end.

(** The attempts shared by [ValidateBasic] and [ValidateBasicWithData]:
    [custom] is the result of the configured provider, if there is one. *)
Definition trySignaturePayloads (pk : PK) (sh : SignedHeader PK) (custom : option (res unit bytes))
  : M (list bytes) terror unit :=
  let try := tryPayload pk (sl (sh_Signature sh)) in
  ok ← match custom with
       | None => mret false
       | Some (Err _) => throw ErrProvider
       | Some (Ok bz) => try bz
       end;
  if (ok : bool) then mret tt else
  slim ← lift_res (Header_MarshalBinary clean_header clean_version (sh_Header sh));
  ok ← try slim;
  if (ok : bool) then mret tt else
  legacy ← lift_res (Header_MarshalBinaryLegacy (sh_Header sh));
  ok ← try legacy;
  if (ok : bool) then mret tt else throw ErrSignatureVerificationFailed.

Definition validate_signed (now : Z) (custom : option (res unit bytes)) (sh : SignedHeader PK)
  : res terror unit :=
  _ ← Header_ValidateBasic now (sh_Header sh);
  _ ← Signature_ValidateBasic (sh_Signature sh);
  _ ← validateSignerIdentity sh;
  _ ← guard_err (slice_equal (ProposerAddress (sh_Header sh)) (s_Address (sh_Signer sh)))
        ErrProposerAddressMismatch;
  match PubKey (sh_Signer sh) with
  | None => Err ErrSignerPubKeyMissing
  | Some pk => (trySignaturePayloads pk sh custom []).1
  end.

Definition ValidateBasic (now : Z) (sh : SignedHeader PK) : res terror unit :=
  validate_signed now ((fun p => p (sh_Header sh)) <$> aggregatorSignatureProvider sh) sh.

Definition ValidateBasicWithData (now : Z) (sh : SignedHeader PK) (data : Data) : res terror unit :=
  validate_signed now ((fun p => p (sh_Header sh) data) <$> syncNodeSignatureBytesProvider sh) sh.

(** ** Adjacent headers *)

Definition isAdjacent (sh untrstH : SignedHeader PK) : bool :=
  add64 (Header_Height (sh_Header sh)) 1 =? Header_Height (sh_Header untrstH).

Definition verifyHeaderHash (sh untrstH : SignedHeader PK) : res terror unit :=
  let hash := Header_Hash (Some (sh_Header sh)) in
  guard_err (slice_equal hash (Header_LastHeader (sh_Header untrstH))) ErrLastHeaderHashMismatch.

Definition SignedHeader_Verify (sh untrstH : SignedHeader PK) : res terror unit :=
  if isAdjacent sh untrstH then verifyHeaderHash sh untrstH else Ok tt.

(** ** Headers and data *)

Definition Validate (sh : SignedHeader PK) (data : Data) : res terror unit :=
  let header := sh_Header sh in
  _ ← match d_Metadata data with
      | Some m =>
          guard_err (bool_decide (Header_ChainID header = m_ChainID m)
                     && (Header_Height header =? m_Height m)
                     && (Header_Time header =? Metadata_Time m)) ErrHeaderDataMismatch
      | None => Ok tt
      end;
  let d := MkData None (Txs data) in
  guard_err (slice_equal (Some (DACommitment d)) (DataHash header)) ErrDataHashMismatch.

(** The untrusted data's [LastDataHash] is read through its [Metadata], a nil
    dereference when there is none. *)
Definition Data_Verify (d : Data) (untrustedData : option Data) : res terror unit :=
  match untrustedData with
  | None => Err (ErrMsg "untrusted block cannot be nil")
  | Some u =>
      let dataHash := Data_Hash d in
      match d_Metadata u with
      | None => Err (ErrMsg "panic: nil metadata")
      | Some m =>
          guard_err (slice_equal (Some dataHash) (LastDataHash m))
            (ErrMsg "data hash of the trusted data does not match with last data hash of the untrusted data")
      end
  end.

(** ** State transitions *)

Definition NextState (s : State) (header : Header) (stateRoot nextProposerAddress : slice) : State :=
  let height := Header_Height header in
  let nextProposer := NextProposerAddress s in
  let nextProposer := if 0 <? slen nextProposerAddress then nextProposerAddress else nextProposer in
  let nextProposer := if slen nextProposer =? 0 then ProposerAddress header else nextProposer in
  MkState (st_Version s) (st_ChainID s) (InitialHeight s) height (Header_Time header)
          (Header_Hash (Some header)) (DAHeight s) stateRoot (cloneBytes nextProposer).

Definition AssertExpectedProposer (s : State) (header : SignedHeader PK) : res terror unit :=
  guard_err (negb ((0 <? slen (NextProposerAddress s))
                   && negb (slice_equal (ProposerAddress (sh_Header header)) (NextProposerAddress s))))
            ErrUnexpectedProposer.

(** [basedSequencerTracking.Do]. *)
Definition track_once : M SeqTracking terror unit :=
  modify (fun t => if basedSequencerTracking t then t
                   else MkSeqTracking true (lastHeaderHashErrCount t + 1)).

Definition AssertValidSequence (s : State) (sh : SignedHeader PK) : M SeqTracking terror unit :=
  let header := sh_Header sh in
  _ ← lift_res (guard_err (bool_decide (Header_ChainID header = st_ChainID s)) ErrInvalidChainID);
  if slen (st_LastHeaderHash s) =? 0 then mret tt else
  let expdHeight := add64 (LastBlockHeight s) 1 in
  _ ← lift_res (guard_err (Header_Height header =? expdHeight) ErrInvalidBlockHeight);
  _ ← lift_res (guard_err (negb (Header_Time header <? LastBlockTime s)) ErrInvalidBlockTime);
  _ ← (if negb (slice_equal (LastHeaderHash header) (st_LastHeaderHash s)) then
         n ← gets lastHeaderHashErrCount;
         if n =? 1 then throw ErrInvalidLastHeaderHash else track_once
       else mret tt);
  lift_res (guard_err (slice_equal (AppHash header) (st_AppHash s)) ErrInvalidLastAppHash).

Definition AssertValidForNextState (s : State) (sh : SignedHeader PK) (data : Data)
  : M SeqTracking terror unit :=
  _ ← lift_res (AssertExpectedProposer s sh);
  _ ← AssertValidSequence s sh;
  lift_res (Validate sh data).

(** The execution of a block: header, data, the returned state root and next
    proposer. A chain is applied by validating each block against the state
    and moving to the next state. *)
Definition block : Type := SignedHeader PK * Data * slice * slice.

Definition apply_block (s : State) (b : block) : M SeqTracking terror State :=
  let '(sh, data, root, next) := b in
  _ ← AssertValidForNextState s sh data;
  mret (NextState s (sh_Header sh) root next).

Fixpoint apply_chain (s : State) (bs : list block) : M SeqTracking terror State :=
  match bs with
  | [] => mret s
  | b :: bs' => s' ← apply_block s b; apply_chain s' bs'
  end.

(** ** Signatures: facts *)

(** A payload the signature may cover: what the configured provider returns,
    the slim encoding, or the legacy encoding. *)
Definition signed_payload (custom : option (res unit bytes)) (sh : SignedHeader PK) (p : bytes) : Prop :=
  custom = Some (Ok p) \/
  Header_MarshalBinary clean_header clean_version (sh_Header sh) = Ok p \/
  Header_MarshalBinaryLegacy (sh_Header sh) = Ok p.

Lemma tryPayload_spec pk sig p tried :
  wp (tryPayload pk sig p) (fun r _ =>
    r = Ok true -> (p <> []) /\ (p ∉ tried) /\ pk_Verify pk p sig = Ok true) tried.
Proof.
  unfold wp, tryPayload. destruct (Z.eqb_spec (zlen p) 0) as [Hz|Hz]; [done|].
  destruct (existsb _ tried) eqn:Hex; [done|].
  destruct (pk_Verify pk p sig) as [v|] eqn:Hv; simpl; [|done]. intros [= ->]. split_and!; [|..].
  - intros ->. done.
  - intros Hin. apply Bool.not_true_iff_false in Hex. apply Hex, existsb_exists.
    exists p. split; [by apply list_elem_of_In|apply bytes_eqb_refl].
  - done.
Qed.

Lemma trySignaturePayloads_sound pk sh custom tried :
  wp (trySignaturePayloads pk sh custom) (fun r _ =>
    r = Ok tt -> exists p, signed_payload custom sh p /\ p <> [] /\
                           pk_Verify pk p (sl (sh_Signature sh)) = Ok true) tried.
Proof.
  assert (Htry : forall p tried (Q : res terror bool -> list bytes -> Prop),
    (forall b s', (b = true -> p <> [] /\ pk_Verify pk p (sl (sh_Signature sh)) = Ok true) -> Q (Ok b) s') ->
    (forall e s', Q (Err e) s') -> wp (tryPayload pk (sl (sh_Signature sh)) p) Q tried).
  { intros p t Q Hok Herr. eapply wp_mono; [apply tryPayload_spec|].
    intros [b|e] s' Hb; [|by apply Herr]. apply Hok. intros ->. destruct Hb as (? & _ & ?); done. }
  unfold trySignaturePayloads. apply wp_bind.
  assert (Hrest : forall s,
    wp (slim ← lift_res (Header_MarshalBinary clean_header clean_version (sh_Header sh));
        ok ← tryPayload pk (sl (sh_Signature sh)) slim;
        if (ok : bool) then mret tt else
        legacy ← lift_res (Header_MarshalBinaryLegacy (sh_Header sh));
        ok ← tryPayload pk (sl (sh_Signature sh)) legacy;
        if (ok : bool) then mret tt else throw ErrSignatureVerificationFailed)
      (fun r _ => r = Ok tt -> exists p, signed_payload custom sh p /\ p <> [] /\
         pk_Verify pk p (sl (sh_Signature sh)) = Ok true) s).
  { intros s. apply wp_bind, wp_lift_res. destruct (Header_MarshalBinary _ _ _) as [slim|] eqn:Hslim; [|done].
    apply wp_bind, Htry; [|done]. intros [] s1 Hb; [intros _; exists slim; unfold signed_payload; naive_solver|].
    apply wp_bind, wp_lift_res. destruct (Header_MarshalBinaryLegacy _) as [leg|] eqn:Hleg; [|done].
    apply wp_bind, Htry; [|done]. intros [] s2 Hb2; [intros _; exists leg; unfold signed_payload; naive_solver|done]. }
  destruct custom as [[bz|]|]; [|done|apply Hrest].
  apply Htry; [|done]. intros [] s1 Hb; [|apply Hrest].
  intros _. exists bz. unfold signed_payload. naive_solver.
Qed.

Lemma validate_signed_sound now custom sh :
  validate_signed now custom sh = Ok tt ->
  exists pk addr p,
    PubKey (sh_Signer sh) = Some pk /\ pk_Raw pk = Ok addr /\
    sl (ProposerAddress (sh_Header sh)) = Sha256.sum256 addr /\
    Header_Time (sh_Header sh) <= now + MaxClockDrift /\
    signed_payload custom sh p /\ p <> [] /\
    pk_Verify pk p (sl (sh_Signature sh)) = Ok true.
Proof.
  unfold validate_signed. intros ([] & Hhd & (_ & _ & ([] & Hid & ([] & Hpa & Hsig)%bind_ok)%bind_ok)%bind_ok)%bind_ok.
  unfold validateSignerIdentity in Hid. destruct (PubKey (sh_Signer sh)) as [pk|]; [|done].
  apply guard_err_ok, slice_equal_spec in Hid. apply guard_err_ok, slice_equal_spec in Hpa.
  unfold Header_ValidateBasic in Hhd.
  apply bind_ok in Hhd as ([] & Hne & (_ & _ & Ht)%bind_ok).
  apply guard_err_ok, negb_true_iff, slen_zero_false in Hne.
  apply guard_err_ok, negb_true_iff, Z.ltb_ge in Ht.
  destruct (trySignaturePayloads_sound pk sh custom [] Hsig) as (p & Hp & Hpne & Hv).
  rewrite <- Hid in Hpa. unfold KeyAddress in Hpa. destruct (pk_Raw pk) as [addr|] eqn:Hraw;
    [|by rewrite Hpa in Hne].
  exists pk, addr, p. done.
Qed.

(** C34: A signed header accepted by [ValidateBasic] or
    [ValidateBasicWithData] is genuinely signed: it names a proposer, its
    proposer address is the SHA-256 address of the signer's public key, its
    time is at most the allowed clock drift ahead, and its signature verifies
    under that key over a non-empty payload that is the configured provider's
    output for this header, the slim encoding or the legacy encoding. *)
Theorem validate_basic_sound now sh data :
  (ValidateBasic now sh = Ok tt \/ ValidateBasicWithData now sh data = Ok tt) ->
  exists pk raw p,
    PubKey (sh_Signer sh) = Some pk /\ pk_Raw pk = Ok raw /\
    sl (ProposerAddress (sh_Header sh)) = Sha256.sum256 raw /\
    Header_Time (sh_Header sh) <= now + MaxClockDrift /\
    (signed_payload ((fun f => f (sh_Header sh)) <$> aggregatorSignatureProvider sh) sh p \/
     signed_payload ((fun f => f (sh_Header sh) data) <$> syncNodeSignatureBytesProvider sh) sh p) /\
    p <> [] /\ pk_Verify pk p (sl (sh_Signature sh)) = Ok true.
Proof.
  intros [Hv|Hv]; apply validate_signed_sound in Hv as (pk & raw & p & ? & ? & ? & ? & ? & ? & ?);
    exists pk, raw, p; split_and!; try done; [by left|by right].
Qed.

(** ** Chains: facts *)

(** The [sync.Once] fires exactly when the counter becomes one. *)
Definition tracking_inv (t : SeqTracking) : Prop :=
  t = MkSeqTracking false 0 \/ t = MkSeqTracking true 1.

Definition unlinked (prev : slice) (sh : SignedHeader PK) : Z :=
  if slice_equal (LastHeaderHash (sh_Header sh)) prev then 0 else 1.

(** What the checks against a state establish once the chain has started. *)
Definition follows (s : State) (sh : SignedHeader PK) : Prop :=
  Header_ChainID (sh_Header sh) = st_ChainID s /\
  Header_Height (sh_Header sh) = add64 (LastBlockHeight s) 1 /\
  LastBlockTime s <= Header_Time (sh_Header sh) /\
  sl (AppHash (sh_Header sh)) = sl (st_AppHash s).

Lemma AssertValidSequence_spec s sh t :
  sl (st_LastHeaderHash s) <> [] -> tracking_inv t ->
  wp (AssertValidSequence s sh) (fun r t' =>
    tracking_inv t' /\ lastHeaderHashErrCount t <= lastHeaderHashErrCount t' /\
    (r = Ok tt -> follows s sh /\
       lastHeaderHashErrCount t + unlinked (st_LastHeaderHash s) sh <= lastHeaderHashErrCount t')) t.
Proof.
  intros Hne Ht. apply slen_zero_false in Hne. unfold AssertValidSequence, follows, unlinked.
  apply wp_bind, wp_lift_res. case_bool_decide as Hcid; [|done]. simpl guard_err. cbv beta iota. rewrite Hne.
  apply wp_bind, wp_lift_res. destruct (Z.eqb_spec (Header_Height (sh_Header sh)) (add64 (LastBlockHeight s) 1)); [|done].
  apply wp_bind, wp_lift_res. destruct (Z.ltb_spec (Header_Time (sh_Header sh)) (LastBlockTime s)); [done|].
  apply wp_bind. destruct (slice_equal (AppHash (sh_Header sh)) (st_AppHash s)) eqn:Happ;
    [apply slice_equal_spec in Happ|];
    destruct (slice_equal (LastHeaderHash (sh_Header sh)) (st_LastHeaderHash s));
    destruct Ht as [-> | ->]; unfold wp; simpl; unfold tracking_inv;
    split_and!; try lia; auto; intros; simplify_eq; split_and!; done || lia.
Qed.

Lemma Validate_commitment sh data :
  Validate sh data = Ok tt -> sl (DataHash (sh_Header sh)) = DACommitment data.
Proof.
  unfold Validate. intros (_ & _ & Hd)%bind_ok. apply guard_err_ok, slice_equal_spec in Hd. done.
Qed.

Lemma apply_block_spec s sh data root next t :
  sl (st_LastHeaderHash s) <> [] -> tracking_inv t ->
  wp (apply_block s (sh, data, root, next)) (fun r t' =>
    tracking_inv t' /\ lastHeaderHashErrCount t <= lastHeaderHashErrCount t' /\
    forall s', r = Ok s' -> s' = NextState s (sh_Header sh) root next /\
       follows s sh /\ sl (DataHash (sh_Header sh)) = DACommitment data /\
       (sl (NextProposerAddress s) <> [] -> sl (ProposerAddress (sh_Header sh)) = sl (NextProposerAddress s)) /\
       lastHeaderHashErrCount t + unlinked (st_LastHeaderHash s) sh <= lastHeaderHashErrCount t') t.
Proof.
  intros Hne Ht. unfold apply_block, AssertValidForNextState. do 2 apply wp_bind. apply wp_lift_res.
  destruct (AssertExpectedProposer s sh) as [[]|] eqn:Hp; [|by split_and!].
  apply wp_bind. eapply wp_mono; [by apply AssertValidSequence_spec|].
  intros [[]|e] t' (Hi & Hle & Hs); [|by split_and!]. apply wp_lift_res.
  destruct (Validate sh data) as [[]|] eqn:Hv; [|by split_and!].
  apply wp_ret. split_and!; [done|done|]. intros s' [= <-].
  destruct (Hs eq_refl) as [Hf Hu]. split_and!; try done; [by apply Validate_commitment|].
  intros Hnp. unfold AssertExpectedProposer in Hp. apply guard_err_ok, negb_true_iff in Hp.
  apply slen_zero_false in Hnp. rewrite slen_pos, Hnp in Hp. simpl in Hp.
  apply negb_false_iff, slice_equal_spec in Hp. done.
Qed.

(** The number of headers of a chain that do not name their predecessor. *)
Fixpoint unlinked_count (prev : slice) (bs : list block) : Z :=
  match bs with
  | [] => 0
  | (sh, _, _, _) :: bs' => unlinked prev sh + unlinked_count (Header_Hash (Some (sh_Header sh))) bs'
  end.

(** Every block follows the state its predecessors lead to. *)
Fixpoint chained (s : State) (bs : list block) : Prop :=
  match bs with
  | [] => True
  | (sh, data, root, next) :: bs' =>
      follows s sh /\ sl (DataHash (sh_Header sh)) = DACommitment data /\
      (sl (NextProposerAddress s) <> [] -> sl (ProposerAddress (sh_Header sh)) = sl (NextProposerAddress s)) /\
      chained (NextState s (sh_Header sh) root next) bs'
  end.

Definition block_header (b : block) : Header := sh_Header b.1.1.1.
Definition hashes (b : block) : Prop := sl (Header_Hash (Some (block_header b))) <> [].

Lemma apply_chain_spec s bs t :
  sl (st_LastHeaderHash s) <> [] -> Forall hashes bs -> tracking_inv t ->
  wp (apply_chain s bs) (fun r t' =>
    tracking_inv t' /\ lastHeaderHashErrCount t <= lastHeaderHashErrCount t' /\
    forall s', r = Ok s' -> chained s bs /\
      s' = foldl (fun s b => NextState s (block_header b) b.1.2 b.2) s bs /\
      lastHeaderHashErrCount t + unlinked_count (st_LastHeaderHash s) bs <= lastHeaderHashErrCount t') t.
Proof.
  revert s t. induction bs as [|[[[sh data] root] next] bs IH]; intros s t Hne Hall Ht.
  { apply wp_ret. split_and!; [done|lia|]. intros s' [= <-]. split_and!; [done|done|simpl; lia]. }
  apply Forall_cons_1 in Hall as [Hh Hall].
  apply wp_bind. eapply wp_mono; [by apply apply_block_spec|].
  intros [s1|e] t1 (Hi & Hle & Hs); [|by split_and!].
  destruct (Hs s1 eq_refl) as (-> & Hf & Hc & Hp & Hu).
  eapply wp_mono; [apply IH; [exact Hh|done|done]|].
  intros r t2 (Hi2 & Hle2 & Hr). split_and!; [done|lia|]. intros s' Hs'.
  destruct (Hr s' Hs') as (Hch & -> & Hcount).
  change (st_LastHeaderHash (NextState s (sh_Header sh) root next))
    with (Header_Hash (Some (sh_Header sh))) in Hcount.
  split_and!; [done|done|]. cbn [unlinked_count]. lia.
Qed.

Lemma chained_heights s bs i b :
  chained s bs -> bs !! i = Some b ->
  Header_Height (block_header b) = u64 (LastBlockHeight s + 1 + Z.of_nat i) /\
  Header_ChainID (block_header b) = st_ChainID s /\ LastBlockTime s <= Header_Time (block_header b).
Proof.
  revert s i. induction bs as [|[[[sh data] root] next] bs IH]; intros s i Hc Hi; [done|].
  destruct Hc as ((Hid & Hh & Ht & _) & _ & _ & Hc). destruct i as [|i]; simpl in Hi.
  - injection Hi as <-. unfold block_header; simpl. unfold add64 in Hh.
    rewrite Z.add_0_r. done.
  - destruct (IH _ _ Hc Hi) as (H1' & H2' & H3'). simpl in H1', H2', H3'.
    rewrite Hh in H1'. split_and!; [|done|lia]. rewrite H1'. unfold add64, u64.
    rewrite <- Z.add_assoc, Z.add_mod_idemp_l by done. f_equal. lia.
Qed.

(** C35: Take a state that has a last header hash, as every state but that of a
    new chain has: against the latter the code compares neither height, time,
    predecessor nor app hash. Blocks whose headers have a hash, accepted one
    after the other against the evolving state, are then a chain: heights are
    consecutive (as uint64), the chain id is the state's, times do not go back,
    every block's transactions match its header's data hash, every header
    carries the previous execution's app hash and is proposed by the proposer
    that the state names, if it names one, and in a process whose tracking
    variables are as they start, or as an earlier acceptance left them, at most
    one header in the whole run fails to name its predecessor's hash. *)
Theorem accepted_chain_is_chained s bs t s' t' :
  sl (st_LastHeaderHash s) <> [] -> Forall hashes bs -> tracking_inv t ->
  apply_chain s bs t = (Ok s', t') ->
  chained s bs /\
  (forall i b, bs !! i = Some b ->
     Header_Height (block_header b) = u64 (LastBlockHeight s + 1 + Z.of_nat i) /\
     Header_ChainID (block_header b) = st_ChainID s /\
     LastBlockTime s <= Header_Time (block_header b)) /\
  s' = foldl (fun s b => NextState s (block_header b) b.1.2 b.2) s bs /\
  tracking_inv t' /\
  lastHeaderHashErrCount t + unlinked_count (st_LastHeaderHash s) bs <= 1.
Proof.
  intros Hne Hall Ht Hrun.
  destruct (wp_run _ _ _ _ _ (apply_chain_spec s bs t Hne Hall Ht) Hrun) as (Hi & Hle & Hr).
  destruct (Hr s' eq_refl) as (Hc & -> & Hcount). split_and!; try done.
  - intros i b. by apply chained_heights.
  - destruct Hi as [-> | ->]; simpl in Hcount; lia.
Qed.

End validation.

(** ** The theorems at concrete blocks *)

Module ValidationWitness.
Import ProtoInst.

Definition key : bytes := [byte_of_Z 9].
Definition mk_header (height time : Z) (last : slice) : Header :=
  MkHeader (MkBaseHeader height time "c") (MkVersion 11 1) last
           (Some (DACommitment (MkData None (Some [])))) (Some [byte_of_Z 4]) None
           (Some (Sha256.sum256 key)) None None.
Definition sign (h : Header) : SignedHeader bytes :=
  MkSignedHeader h (Some (key ++ ok_bytes (Header_MarshalBinary clean_header clean_version h)))
                 (MkSigner (Some key) (Some (Sha256.sum256 key)) None) None None.
Definition b1 : SignedHeader bytes := sign (mk_header 5 100 (Some key)).
Definition b2 : SignedHeader bytes := sign (mk_header 6 101 (Header_Hash (Some (sh_Header b1)))).
Definition s0 : State := MkState (MkVersion 11 1) "c" 1 4 99 (Some key) 3 (Some [byte_of_Z 4]) None.
Definition blocks : list (@block bytes) :=
  [(b1, MkData None (Some []), Some [byte_of_Z 4], None); (b2, MkData None (Some []), None, None)].

Lemma validate_basic_sound_witness :
  ValidateBasic 1000 b1 = Ok tt /\
  exists pk raw p, PubKey (sh_Signer b1) = Some pk /\ pk_Raw pk = Ok raw /\
    pk_Verify pk p (sl (sh_Signature b1)) = Ok true.
Proof.
  assert (Hv : ValidateBasic 1000 b1 = Ok tt) by (vm_compute; reflexivity). split; [exact Hv|].
  destruct (validate_basic_sound 1000 b1 Data_New (or_introl Hv)) as (pk & raw & p & ? & ? & _ & _ & _ & _ & ?).
  exists pk, raw, p. repeat split; assumption.
Defined.

Lemma run_ok : is_ok (apply_chain s0 blocks initial_tracking).1 = true.
Proof. vm_compute. reflexivity. Qed.

Lemma accepted_chain_is_chained_witness :
  exists s' t', apply_chain s0 blocks initial_tracking = (Ok s', t') /\
  chained s0 blocks /\ LastBlockHeight s' = 6 /\ unlinked_count (st_LastHeaderHash s0) blocks = 0.
Proof.
  pose proof run_ok as Hok.
  destruct (apply_chain s0 blocks initial_tracking) as [[s'|e] t'] eqn:Hrun; [|discriminate Hok].
  exists s', t'. split; [reflexivity|].
  destruct (accepted_chain_is_chained s0 blocks initial_tracking s' t') as (Hc & _ & Hs' & _).
  - discriminate.
  - unfold hashes. repeat constructor; vm_compute; discriminate.
  - by left.
  - exact Hrun.
  - split; [exact Hc|]. split; [rewrite Hs'; vm_compute; reflexivity|vm_compute; reflexivity].
Defined.

End ValidationWitness.
