(* ===== verification/Store.v ===== *)
(** * The block store ([pkg/store/keys.go], [kv.go], [store.go], [batch.go])

    Blocks, states and metadata over a key-value datastore. Operations are
    computations on the datastore; a [DefaultBatch] is the list of operations
    staged so far, next to the datastore. The text form of a hash
    ([header.Hash.String] of [github.com/celestiaorg/go-header]) is the class
    [HashText]. *)

From S2P Require Import Prelude Sha256 Datastore Types Serialization SerializationFacts ProtoInst.
From stdpp Require Import base gmap strings list numbers pretty.
Open Scope Z_scope.

(** [Hash.String]: hexadecimal digits, distinct for distinct hashes. *)
Class HashText := { hash_String : bytes -> string }.
Class HashTextLaws `{HashText} := { hash_String_inj : forall a b, hash_String a = hash_String b -> a = b }.

(** ** Keys *)

Definition GenesisDAHeightKey : string := "gdh".
Definition HeightToDAHeightKey : string := "rhb".
Definition DAIncludedHeightKey : string := "d".
Definition LastSubmittedHeaderHeightKey : string := "last-submitted-header-height".
Definition LastPrunedBlockHeightKey : string := "lst-prnd-b".
Definition LastPrunedStateHeightKey : string := "lst-prnd-s".

Definition headerPrefix : string := "h".
Definition dataPrefix : string := "d".
Definition signaturePrefix : string := "c".
Definition statePrefix : string := "s".
Definition metaPrefix : string := "m".
Definition indexPrefix : string := "i".
Definition heightPrefix : string := "t".

(** [strconv.FormatUint(height, 10)]. *)
Definition format_uint (height : Z) : string := pretty (Z.to_N height).

Definition heightKey (prefix : string) (height : Z) : string :=
  "/" +:+ prefix +:+ "/" +:+ format_uint height.

Fixpoint GenerateKey (fields : list string) : string :=
  match fields with
  | [] => ""
  | f :: fields' => "/" +:+ f +:+ GenerateKey fields'
  end.

Definition getHeaderKey (height : Z) : string := heightKey headerPrefix height.
Definition getDataKey (height : Z) : string := heightKey dataPrefix height.
Definition getSignatureKey (height : Z) : string := heightKey signaturePrefix height.
Definition getStateAtHeightKey (height : Z) : string := heightKey statePrefix height.
Definition GetMetaKey (key : string) : string := GenerateKey [metaPrefix; key].
Definition GetIndexKey `{HashText} (hash : bytes) : string := GenerateKey [indexPrefix; hash_String hash].
Definition getHeightKey : string := "/" +:+ heightPrefix.
Definition GetHeightToDAHeightHeaderKey (height : Z) : string :=
  HeightToDAHeightKey +:+ "/" +:+ format_uint height +:+ "/h".
Definition GetHeightToDAHeightDataKey (height : Z) : string :=
  HeightToDAHeightKey +:+ "/" +:+ format_uint height +:+ "/d".

(** ** Heights *)

Definition heightLength : Z := 8.
Definition encodeHeight (height : Z) : bytes := put_uint64_le height.

(** Errors; [errors.Is(err, ds.ErrNotFound)] sees through the wrapping. *)
Inductive store_error :=
| SDs (e : ds_error)
| STypes (e : terror)
| SMsg (msg : string).
#[export] Instance store_error_eq_dec : EqDecision store_error.
Proof. solve_decision. Defined.

Definition decodeHeight (heightBytes : bytes) : res store_error Z :=
  if negb (zlen heightBytes =? heightLength) then Err (SMsg "invalid height length")
  else Ok (uint64_le heightBytes).

Section store.
Context {DB : Type} `{Datastore DB} `{HashText}.
Context {PK : Type} `{PubKeys PK} `{Wire}.
Context `{ProtoMsg pbVersion, ProtoMsg pbHeader, ProtoMsg pbSignedHeader,
          ProtoMsg pbMetadata, ProtoMsg pbData, ProtoMsg pbState}.

Definition db {A} (m : M DB ds_error A) : M DB store_error A := wrap SDs m.
Definition types {A} (r : res terror A) : res store_error A := map_err STypes r.

(** ** Reads *)

Definition Height : M DB store_error Z :=
  r ← attempt (ds_get getHeightKey);
  match r with
  | Err ErrNotFound => mret 0
  | Err e => throw (SDs e)
  | Ok heightBytes => lift_res (decodeHeight heightBytes)
  end.

Definition GetHeader (height : Z) : M DB store_error (SignedHeader PK) :=
  headerBlob ← db (ds_get (getHeaderKey height));
  let '(r, header) := SignedHeader_UnmarshalBinary headerBlob SignedHeader_New in
  _ ← lift_res (types r);
  mret header.

Definition GetBlockData (height : Z) : M DB store_error (SignedHeader PK * Data) :=
  header ← GetHeader height;
  dataBlob ← db (ds_get (getDataKey height));
  let '(r, data) := Data_UnmarshalBinary dataBlob Data_New in
  _ ← lift_res (types r);
  mret (header, data).

Definition getHeightByHash (hash : bytes) : M DB store_error Z :=
  heightBytes ← db (ds_get (GetIndexKey hash));
  lift_res (decodeHeight heightBytes).

Definition GetBlockByHash (hash : bytes) : M DB store_error (SignedHeader PK * Data) :=
  height ← getHeightByHash hash;
  GetBlockData height.

Definition GetSignature (height : Z) : M DB store_error bytes :=
  db (ds_get (getSignatureKey height)).

Definition GetSignatureByHash (hash : bytes) : M DB store_error bytes :=
  height ← getHeightByHash hash;
  GetSignature height.

Definition decode_state (blob : bytes) : res store_error State :=
  pbState ← types (lift_proto (proto_Unmarshal blob));
  let '(r, state) := State_FromProto (Some pbState) zero_state in
  _ ← types r;
  Ok state.

Definition GetState : M DB store_error State :=
  currentHeight ← Height;
  blob ← db (ds_get (getStateAtHeightKey currentHeight));
  lift_res (decode_state blob).

Definition GetStateAtHeight (height : Z) : M DB store_error State :=
  blob ← db (ds_get (getStateAtHeightKey height));
  lift_res (decode_state blob).

(** ** Single writes *)

Definition DeleteStateAtHeight (height : Z) : M DB store_error unit :=
  r ← attempt (ds_delete (getStateAtHeightKey height));
  match r with
  | Err ErrNotFound => mret tt
  | Err e => throw (SDs e)
  | Ok _ => mret tt
  end.

Definition SetMetadata (key : string) (value : bytes) : M DB store_error unit :=
  db (ds_put (GetMetaKey key) value).

Definition GetMetadata (key : string) : M DB store_error bytes :=
  db (ds_get (GetMetaKey key)).

Definition DeleteMetadata (key : string) : M DB store_error unit :=
  db (ds_delete (GetMetaKey key)).

Definition BatchMetadata (puts : list (string * bytes)) (deletes : list string)
  : M DB store_error unit :=
  if (zlen puts =? 0) && (zlen deletes =? 0) then mret tt else
  _ ← db ds_batch;
  _ ← db (for_each ((fun kv => BPut (GetMetaKey kv.1) kv.2) <$> puts) ds_stage);
  _ ← db (for_each ((fun k => BDelete (GetMetaKey k)) <$> deletes) ds_stage);
  db (ds_commit (((fun kv => BPut (GetMetaKey kv.1) kv.2) <$> puts)
                 ++ ((fun k => BDelete (GetMetaKey k)) <$> deletes))).

(** ** Batches *)

(** The datastore and the operations staged in the open batch. *)
Definition BM (A : Type) : Type := M (DB * list bop) store_error A.

Definition on_store {A} (m : M DB store_error A) : BM A :=
  zoom fst (fun d s => (d, s.2)) m.

(** [batch.Put] / [batch.Delete]: an operation that fails is not staged. *)
Definition batch_stage (o : bop) : BM unit :=
  _ ← on_store (db (ds_stage o));
  modify (fun s => (s.1, s.2 ++ [o])).

Definition NewBatch : M DB store_error unit := db ds_batch.

Definition Batch_SetHeight (height : Z) : BM unit :=
  currentHeight ← on_store Height;
  if height <=? currentHeight then mret tt
  else batch_stage (BPut getHeightKey (encodeHeight height)).

Definition Batch_SaveBlockDataFromBytes (header : SignedHeader PK) (headerBlob dataBlob : bytes)
  (signature : slice) : BM unit :=
  let height := Header_Height (sh_Header header) in
  let signatureHash := sl signature in
  _ ← batch_stage (BPut (getHeaderKey height) headerBlob);
  _ ← batch_stage (BPut (getDataKey height) dataBlob);
  _ ← batch_stage (BPut (getSignatureKey height) signatureHash);
  let headerHash := Sha256.sum256 headerBlob in
  let heightBytes := encodeHeight height in
  batch_stage (BPut (GetIndexKey headerHash) heightBytes).

Definition clean_signed_header : pbSignedHeader := MkPbSignedHeader None None None.
Definition clean_signer : pbSigner := MkPbSigner None None.
Definition clean_state : pbState := MkPbState None "" 0 0 None 0 None None None.

Definition marshal_signed_header (header : SignedHeader PK) : res terror bytes :=
  SignedHeader_MarshalBinary clean_signed_header clean_header clean_version clean_signer header.

Definition Batch_SaveBlockData (header : SignedHeader PK) (data : Data) (signature : slice) : BM unit :=
  headerBlob ← lift_res (types (marshal_signed_header header));
  dataBlob ← lift_res (types (Data_MarshalBinary clean_data clean_metadata data));
  Batch_SaveBlockDataFromBytes header headerBlob dataBlob signature.

Definition Batch_UpdateState (state : State) : BM unit :=
  let height := LastBlockHeight state in
  data ← lift_res (types (State_MarshalBinary clean_state clean_version state));
  batch_stage (BPut (getStateAtHeightKey height) data).

Definition Batch_Put (key : string) (value : bytes) : BM unit := batch_stage (BPut key value).
Definition Batch_Delete (key : string) : BM unit := batch_stage (BDelete key).

Definition Batch_Commit : BM unit := fun s =>
  let '(r, d) := db (ds_commit s.2) s.1 in (r, (d, s.2)).

(** [batch, err := store.NewBatch(ctx)] followed by the calls [m] on it. *)
Definition with_batch {A} (m : BM A) : M DB store_error A := fun d =>
  match NewBatch d with
  | (Err e, d') => (Err e, d')
  | (Ok _, d') => let '(r, (d'', _)) := m (d', []) in (r, d'')
  end.

(** ** Rollback and pruning *)

(** [current, current-1, ..., height+1]. *)
Definition rollback_heights (current height : Z) : list Z :=
  (fun i => current - Z.of_nat i) <$> seq 0 (Z.to_nat (current - height)).

Definition rollback_height (h : Z) : BM unit :=
  headerBlob ← on_store (db (ds_get (getHeaderKey h)));
  _ ← batch_stage (BDelete (getHeaderKey h));
  _ ← batch_stage (BDelete (getDataKey h));
  _ ← batch_stage (BDelete (getSignatureKey h));
  let headerHash := Sha256.sum256 headerBlob in
  _ ← batch_stage (BDelete (GetIndexKey headerHash));
  batch_stage (BDelete (getStateAtHeightKey h)).

(** The check of the DA included height, which a non-aggregator lowers. *)
Definition rollback_da_included (height : Z) (aggregator : bool) : BM unit :=
  daIncludedHeightBz ← attempt (on_store (GetMetadata DAIncludedHeightKey));
  match daIncludedHeightBz with
  | Err (SDs ErrNotFound) => mret tt
  | Err e => throw e
  | Ok bz =>
      if zlen bz =? 8 then
        let daIncludedHeight := uint64_le bz in
        if height <? daIncludedHeight then
          if aggregator then throw (SMsg "cannot rollback a finalized height")
          else batch_stage (BPut (GetMetaKey DAIncludedHeightKey) (put_uint64_le height))
        else mret tt
      else mret tt
  end.

Definition Rollback (height : Z) (aggregator : bool) : M DB store_error unit :=
  with_batch (
    currentHeight ← on_store Height;
    if currentHeight <=? height then throw (SMsg "already at or below the rollback height") else
    _ ← rollback_da_included height aggregator;
    _ ← for_each (rollback_heights currentHeight height) rollback_height;
    _ ← batch_stage (BPut getHeightKey (encodeHeight height));
    Batch_Commit).

Definition getLastPrunedHeight (key : string) : M DB store_error Z :=
  r ← attempt (GetMetadata key);
  match r with
  | Err (SDs ErrNotFound) => mret 0
  | Err e => throw e
  | Ok meta => if negb (zlen meta =? heightLength) then mret 0 else lift_res (decodeHeight meta)
  end.

(** [lastPruned+1, ..., height]: the loop [for h := lastPruned+1; h <= height; h++]
    for [height < 2^64-1] (at [2^64-1] the condition never fails). *)
Definition prune_heights (lastPruned height : Z) : list Z :=
  (fun i => lastPruned + 1 + Z.of_nat i) <$> seq 0 (Z.to_nat (height - lastPruned)).

(** A staged delete whose [ErrNotFound] is ignored. *)
Definition batch_delete_ignoring (k : string) : BM unit :=
  r ← attempt (batch_stage (BDelete k));
  match r with
  | Ok _ => mret tt
  | Err (SDs ErrNotFound) => mret tt
  | Err e => throw e
  end.

Definition prune_height (h : Z) : BM unit :=
  r ← attempt (on_store (db (ds_get (getHeaderKey h))));
  match r with
  | Err (SDs ErrNotFound) => mret tt
  | Err e => throw e
  | Ok headerBlob =>
      _ ← batch_delete_ignoring (getHeaderKey h);
      _ ← batch_delete_ignoring (getDataKey h);
      _ ← batch_delete_ignoring (getSignatureKey h);
      _ ← batch_delete_ignoring (GetMetaKey (GetHeightToDAHeightHeaderKey h));
      _ ← batch_delete_ignoring (GetMetaKey (GetHeightToDAHeightDataKey h));
      let headerHash := Sha256.sum256 headerBlob in
      batch_delete_ignoring (GetIndexKey headerHash)
  end.

Definition PruneBlocks (height : Z) : M DB store_error unit :=
  with_batch (
    lastPruned ← on_store (getLastPrunedHeight LastPrunedBlockHeightKey);
    if height <=? lastPruned then mret tt else
    _ ← for_each (prune_heights lastPruned height) prune_height;
    _ ← batch_stage (BPut (GetMetaKey LastPrunedBlockHeightKey) (encodeHeight height));
    Batch_Commit).

Definition PruneStates (height : Z) : M DB store_error unit :=
  lastPruned ← getLastPrunedHeight LastPrunedStateHeightKey;
  if height <=? lastPruned then mret tt else
  with_batch (
    _ ← for_each (prune_heights lastPruned height) (fun h => batch_delete_ignoring (getStateAtHeightKey h));
    _ ← batch_stage (BPut (GetMetaKey LastPrunedStateHeightKey) (encodeHeight height));
    Batch_Commit).

End store.
