(* ===== verification/StoreFacts.v ===== *)
(** * Correctness of the block store

    Keys are injective and do not overlap; a committed block is read back; the
    height never decreases except by a rollback; rollback and pruning remove
    exactly what they announce; a failed operation leaves the store unchanged. *)

From S2P Require Import Prelude Sha256 Datastore Types Serialization SerializationFacts ProtoInst Store.
From stdpp Require Import base gmap strings list numbers pretty.
Open Scope Z_scope.

(** ** The keys, symbolically *)

Inductive skey :=
| KHeader (h : Z) | KData (h : Z) | KSignature (h : Z) | KState (h : Z)
| KHeight | KMeta (k : string) | KIndex (hash : bytes).
#[export] Instance skey_eq_dec : EqDecision skey.
Proof. solve_decision. Defined.

Definition skey_ok (k : skey) : Prop :=
  match k with KHeader h | KData h | KSignature h | KState h => 0 <= h | _ => True end.

Section keys.
Context `{HashText}.

Definition skey_string (k : skey) : string :=
  match k with
  | KHeader h => getHeaderKey h
  | KData h => getDataKey h
  | KSignature h => getSignatureKey h
  | KState h => getStateAtHeightKey h
  | KHeight => getHeightKey
  | KMeta k => GetMetaKey k
  | KIndex hash => GetIndexKey hash
  end.

Lemma string_app_inj_l s a b : s +:+ a = s +:+ b -> a = b.
Proof. apply (inj (String.append s)). Qed.

Lemma string_app_nil_r s : s +:+ "" = s.
Proof.
  induction s as [|c s IH]; [reflexivity|]. change (String c (s +:+ "") = String c s). by rewrite IH.
Qed.

Lemma format_uint_inj a b : 0 <= a -> 0 <= b -> format_uint a = format_uint b -> a = b.
Proof. unfold format_uint. intros Ha Hb Heq%(inj pretty). lia. Qed.

Lemma skey_string_inj `{!HashTextLaws} a b :
  skey_ok a -> skey_ok b -> skey_string a = skey_string b -> a = b.
Proof.
  destruct a, b; simpl; intros Ha Hb Heq; try discriminate Heq; try done; f_equal;
    try (injection Heq; intros Hf; by apply format_uint_inj).
  - injection Heq as Heq. by rewrite !string_app_nil_r in Heq.
  - injection Heq as Heq. rewrite !string_app_nil_r in Heq. by apply hash_String_inj.
Qed.

Lemma skey_string_ne `{!HashTextLaws} a b :
  skey_ok a -> skey_ok b -> a <> b -> skey_string a <> skey_string b.
Proof. intros Ha Hb Hne Heq. by apply Hne, skey_string_inj. Qed.

End keys.

(** ** Programs that read the store and stage operations

    [stages m f e]: [m] does not change the store; when it returns [a] it has
    staged a list of operations related to the view by [f]; when it fails with
    [err] the backend was unhealthy or [e view err] holds. [commits] is the same
    for programs that end by committing (or return without having staged). *)

Abbreviation view := (gmap string bytes).

Section staging.
Context {DB : Type} `{DatastoreLaws DB}.

Definition stages {A} (m : BM (DB := DB) A) (f : view -> A -> list bop -> Prop)
  (e : view -> store_error -> Prop) : Prop :=
  forall d ops, wp m (fun r s' =>
    ds_view s'.1 = ds_view d /\ (ds_healthy d -> ds_healthy s'.1) /\
    match r with
    | Ok a => exists l, s'.2 = ops ++ l /\ f (ds_view d) a l
    | Err err => ~ ds_healthy d \/ e (ds_view d) err
    end) (d, ops).

Definition commits (m : BM (DB := DB) unit) (g : view -> list bop -> view -> Prop)
  (e : view -> store_error -> Prop) : Prop :=
  forall d ops, wp m (fun r s' =>
    (ds_healthy d -> ds_healthy s'.1) /\
    match r with
    | Ok _ => g (ds_view d) ops (ds_view s'.1)
    | Err err => ds_view s'.1 = ds_view d /\ (~ ds_healthy d \/ e (ds_view d) err)
    end) (d, ops).

Lemma stages_ret {A} (a : A) e : stages (mret a) (fun _ b l => b = a /\ l = []) e.
Proof. intros d ops. apply wp_ret. split_and!; try done. exists []. by rewrite app_nil_r. Qed.

Lemma stages_throw {A} err (f : view -> A -> list bop -> Prop) :
  stages (throw err) f (fun _ x => x = err).
Proof. intros d ops. apply wp_throw. split_and!; try done. by right. Qed.

Lemma stages_bind {A B} (m : BM (DB := DB) A) (k : A -> BM B) f g (e : view -> store_error -> Prop) :
  stages m f e -> (forall a, stages (k a) (g a) e) ->
  stages (m ≫= k) (fun v b l => exists a l1 l2, l = l1 ++ l2 /\ f v a l1 /\ g a v b l2) e.
Proof.
  intros Hm Hk d ops. apply wp_bind. eapply wp_mono; [apply Hm|].
  intros [a|err] [d1 ops1] (Hv & Hh & Hr); simpl in *; [|done].
  destruct Hr as (l1 & -> & Hf). eapply wp_mono; [apply (Hk a d1)|].
  intros [b|err] [d2 ops2] (Hv2 & Hh2 & Hr2); simpl in *; rewrite Hv in *.
  - destruct Hr2 as (l2 & -> & Hg). split_and!; [done|tauto|].
    exists (l1 ++ l2). rewrite app_assoc. eauto 10.
  - split_and!; [done|tauto|]. destruct Hr2; [left; tauto|by right].
Qed.

Lemma stages_mono {A} (m : BM (DB := DB) A) f g (e e' : view -> store_error -> Prop) :
  stages m f e -> (forall v a l, f v a l -> g v a l) -> (forall v x, e v x -> e' v x) -> stages m g e'.
Proof.
  intros Hm Hf He d ops. eapply wp_mono; [apply Hm|].
  intros [a|err] s' (Hv & Hh & Hr); split_and!; try done; [|naive_solver].
  destruct Hr as (l & ? & ?). eauto.
Qed.

Lemma stages_for_each {A} (xs : list A) (body : A -> BM (DB := DB) unit) (f : A -> view -> list bop -> Prop) e :
  (forall x, x ∈ xs -> stages (body x) (fun v _ l => f x v l) e) ->
  stages (for_each xs body) (fun v _ l => exists ls, Forall2 (fun x l => f x v l) xs ls /\ l = mjoin ls) e.
Proof.
  induction xs as [|x xs IH]; intros Hb; simpl.
  - eapply stages_mono; [apply stages_ret| |done]. intros v a l [? ->]. by exists [].
  - eapply stages_mono; [eapply stages_bind; [apply Hb; left|intros ?; apply IH; intros y Hy; apply Hb; by right]| |done].
    intros v a l (? & l1 & l2 & -> & Hf & ls & Hls & ->). exists (l1 :: ls). split; [by constructor|done].
Qed.

Lemma stages_stage o e : stages (batch_stage (DB := DB) o) (fun _ _ l => l = [o]) e.
Proof.
  intros d ops. unfold batch_stage, on_store. apply wp_bind, wp_zoom, wp_wrap.
  eapply wp_mono; [apply stage_law|]. intros [[]|err] d' (Hv & Hh & He); simpl.
  - apply wp_modify. simpl. split_and!; try done. by exists [o].
  - split_and!; try done. left. apply He.
Qed.

Lemma stages_delete_ignoring k e :
  stages (batch_delete_ignoring (DB := DB) k)
    (fun v _ l => l = [BDelete k] \/ (l = [] /\ v !! k = None)) e.
Proof.
  intros d ops. unfold batch_delete_ignoring, batch_stage, on_store.
  apply wp_bind, wp_attempt, wp_bind, wp_zoom, wp_wrap.
  eapply wp_mono; [apply stage_law|]. intros [[]|err] d' (Hv & Hh & He); simpl.
  - apply wp_modify, wp_ret. simpl. split_and!; try done. exists [BDelete k]. by split; [|left].
  - destruct He as [He Hnf]. destruct err; [apply wp_ret|apply wp_throw]; simpl; split_and!; try done.
    + destruct (Hnf eq_refl) as (k' & [= <-] & Hk). exists []. rewrite app_nil_r. by split; [|right].
    + by left.
Qed.

(** Reads of the store stage nothing. *)
Lemma stages_on_store {A} (m : M DB store_error A) (f : view -> A -> Prop) (e : view -> store_error -> Prop) :
  (forall d, wp m (fun r d' => ds_view d' = ds_view d /\ (ds_healthy d -> ds_healthy d') /\
     match r with Ok a => f (ds_view d) a | Err err => ~ ds_healthy d \/ e (ds_view d) err end) d) ->
  stages (on_store m) (fun v a l => f v a /\ l = []) e.
Proof.
  intros Hm d ops. unfold on_store. apply wp_zoom. eapply wp_mono; [apply Hm|].
  intros [a|err] d' (Hv & Hh & Hr); simpl; split_and!; try done. exists []. by rewrite app_nil_r.
Qed.

Lemma commits_commit e : commits (Batch_Commit (DB := DB)) (fun v ops v' => v' = apply_bops v ops) e.
Proof.
  intros d ops. unfold Batch_Commit, wp. simpl. pose proof (commit_law ops d) as Hc.
  unfold wp in Hc. unfold db, wrap. destruct (ds_commit ops d) as [[[]|err] d']; simpl in *; tauto.
Qed.

(** The errors of the continuation may rely on what [m] read. *)
Lemma commits_bind_dep {A} (m : BM (DB := DB) A) (k : A -> BM unit) f g (e : view -> store_error -> Prop)
  (e' : A -> view -> store_error -> Prop) :
  stages m f e -> (forall a, commits (k a) (g a) (e' a)) ->
  (forall v a l x, f v a l -> e' a v x -> e v x) ->
  commits (m ≫= k) (fun v ops v' => exists a l, f v a l /\ g a v (ops ++ l) v') e.
Proof.
  intros Hm Hk He d ops. apply wp_bind. eapply wp_mono; [apply Hm|].
  intros [a|err] [d1 ops1] (Hv & Hh & Hr); simpl in *; [|done].
  destruct Hr as (l1 & -> & Hf). eapply wp_mono; [apply (Hk a d1)|].
  intros [[]|err] [d2 ops2] (Hh2 & Hr2); simpl in *; rewrite Hv in *; [by eauto 10|].
  destruct Hr2 as [-> Hr2]. split_and!; [tauto|done|]. destruct Hr2; [left; tauto|right; by eapply He].
Qed.

Lemma commits_bind {A} (m : BM (DB := DB) A) (k : A -> BM unit) f g (e : view -> store_error -> Prop) :
  stages m f e -> (forall a, commits (k a) (g a) e) ->
  commits (m ≫= k) (fun v ops v' => exists a l, f v a l /\ g a v (ops ++ l) v') e.
Proof. intros Hm Hk. apply (commits_bind_dep m k f g e (fun _ => e)); auto. Qed.

Lemma commits_mono m g g' (e e' : view -> store_error -> Prop) :
  commits m g e -> (forall v ops v', g v ops v' -> g' v ops v') -> (forall v x, e v x -> e' v x) ->
  commits m g' e'.
Proof.
  intros Hm Hg He d ops. eapply wp_mono; [apply Hm|].
  intros [[]|err] s' [Hh Hr]; split; naive_solver.
Qed.

Lemma commits_ret e : commits (mret tt) (fun v _ v' => v' = v) e.
Proof. intros d ops. by apply wp_ret. Qed.

Lemma commits_throw err g : commits (throw err) g (fun _ x => x = err).
Proof. intros d ops. apply wp_throw. split_and!; try done. by right. Qed.

Lemma with_batch_spec m g e d :
  commits m g e ->
  wp (with_batch m) (fun r d' =>
    (ds_healthy d -> ds_healthy d') /\
    match r with
    | Ok _ => g (ds_view d) [] (ds_view d')
    | Err err => ds_view d' = ds_view d /\ (~ ds_healthy d \/ e (ds_view d) err)
    end) d.
Proof.
  intros Hm. pose proof (batch_law d) as Hb. unfold wp, with_batch, NewBatch, db, wrap in *.
  destruct ds_batch as [[[]|err] d1]; simpl in *.
  - specialize (Hm d1 []). unfold wp in Hm. destruct (m (d1, [])) as [[[]|err] [d2 ops]]; simpl in *;
      destruct Hb as (Hv & Hh & _); rewrite Hv in Hm; [tauto|].
    destruct Hm as (Hh2 & -> & Hr). split_and!; try tauto.
  - destruct Hb as (-> & Hh & He). tauto.
Qed.

(** ** Reads *)

(** The height a view records; [None] is a value of the wrong length. *)
Definition view_height (v : view) : option Z :=
  match v !! getHeightKey with
  | None => Some 0
  | Some b => if zlen b =? 8 then Some (uint64_le b) else None
  end.

Definition bad_length (x : store_error) : Prop := x = SMsg "invalid height length".

Lemma Height_spec d :
  wp Height (fun r d' => ds_view d' = ds_view d /\ (ds_healthy d -> ds_healthy d') /\
    match r with
    | Ok h => view_height (ds_view d) = Some h
    | Err err => ~ ds_healthy d \/ (bad_length err /\ view_height (ds_view d) = None)
    end) d.
Proof.
  unfold Height, view_height. apply wp_bind, wp_attempt. eapply wp_mono; [apply get_law|].
  intros [b|[]] d' (Hv & Hh & Hr); simpl.
  - apply wp_lift_res. rewrite Hr. unfold decodeHeight, heightLength, bad_length.
    destruct (zlen b =? 8); simpl; split_and!; auto.
  - apply wp_ret. by rewrite Hr.
  - apply wp_throw. split_and!; try done. by left.
Qed.

Lemma get_spec k d :
  wp (db (ds_get k)) (fun r d' => ds_view d' = ds_view d /\ (ds_healthy d -> ds_healthy d') /\
    match r with
    | Ok b => ds_view d !! k = Some b
    | Err err => ~ ds_healthy d \/ (err = SDs ErrNotFound /\ ds_view d !! k = None)
    end) d.
Proof.
  unfold db. apply wp_wrap. eapply wp_mono; [apply get_law|].
  intros [b|[]] d' (Hv & Hh & Hr); simpl; split_and!; auto.
Qed.

Lemma stages_get k :
  stages (on_store (db (ds_get k))) (fun v b l => v !! k = Some b /\ l = [])
    (fun v err => err = SDs ErrNotFound /\ v !! k = None).
Proof. apply (stages_on_store (db (ds_get k)) (fun v b => v !! k = Some b)). intros d. apply get_spec. Qed.

End staging.

(** ** The store as a map from symbolic keys

    [sops] are the staged operations on symbolic keys; applying them to the
    abstract map is what committing their concrete form does to the view. *)

Inductive sop := SPut (k : skey) (v : bytes) | SDel (k : skey).

Definition sop_key (o : sop) : skey := match o with SPut k _ | SDel k => k end.

Definition sapply (f : skey -> option bytes) (o : sop) : skey -> option bytes :=
  match o with
  | SPut k v => fun k' => if decide (k' = k) then Some v else f k'
  | SDel k => fun k' => if decide (k' = k) then None else f k'
  end.

Section symbolic.
Context `{HashTextLaws}.

Definition sop_bop (o : sop) : bop :=
  match o with
  | SPut k v => BPut (skey_string k) v
  | SDel k => BDelete (skey_string k)
  end.

Definition sview (v : view) (k : skey) : option bytes := v !! skey_string k.

Lemma apply_sops v L k :
  Forall (fun o => skey_ok (sop_key o)) L -> skey_ok k ->
  sview (apply_bops v (sop_bop <$> L)) k = foldl sapply (sview v) L k.
Proof.
  intros HL Hk.
  assert (Hg : forall w f, (forall k, skey_ok k -> sview w k = f k) ->
    sview (apply_bops w (sop_bop <$> L)) k = foldl sapply f L k); [|by apply Hg].
  induction HL as [|o L Ho HL IH]; intros w f Hwf; [by apply Hwf|].
  rewrite fmap_cons. unfold apply_bops in *. cbn [foldl]. apply IH.
  intros k' Hk'. unfold sview. destruct o as [k0 x|k0]; simpl in *; case_decide as Hd; subst;
    [by rewrite lookup_insert_eq| |by rewrite lookup_delete_eq| ].
  - rewrite lookup_insert_ne; [by apply Hwf|]. intros Heq. by apply Hd, eq_sym, skey_string_inj.
  - rewrite lookup_delete_ne; [by apply Hwf|]. intros Heq. by apply Hd, eq_sym, skey_string_inj.
Qed.

(** A key no operation names keeps its value. *)
Lemma sapply_other f L k : k ∉ (sop_key <$> L) -> foldl sapply f L k = f k.
Proof.
  revert f. induction L as [|o L IH]; intros f Hk; [done|].
  rewrite fmap_cons in Hk. apply not_elem_of_cons in Hk as [Hne Hk]. simpl. rewrite IH by done.
  destruct o; simpl in *; by rewrite decide_False.
Qed.

Lemma sapply_deletes f ks k :
  foldl sapply f (SDel <$> ks) k = if bool_decide (k ∈ ks) then None else f k.
Proof.
  revert f. induction ks as [|k' ks IH]; intros f; [done|].
  rewrite fmap_cons. cbn [foldl]. rewrite IH. simpl. destruct (decide (k = k')) as [->|Hne].
  - rewrite (bool_decide_true (k' ∈ k' :: ks)) by left. by destruct (bool_decide _).
  - rewrite (bool_decide_ext (k ∈ k' :: ks) (k ∈ ks)); [done|]. rewrite elem_of_cons. tauto.
Qed.

Lemma sapply_app f L1 L2 : foldl sapply f (L1 ++ L2) = foldl sapply (foldl sapply f L1) L2.
Proof. apply foldl_app. Qed.

End symbolic.

(** ** Committing a block *)

Section commit.
Context {DB : Type} `{DatastoreLaws DB} `{HashTextLaws}.
Context {PK : Type} `{PubKeysLaws PK} `{WireLaws}.
Context `{ProtoMsg pbVersion, ProtoMsg pbHeader, ProtoMsg pbSignedHeader,
          ProtoMsg pbMetadata, ProtoMsg pbData, ProtoMsg pbState}.
Context `{!ProtoLaws pbHeader norm_pbHeader pbHeader_ok,
          !ProtoLaws pbSignedHeader norm_pbSignedHeader pbSignedHeader_ok,
          !ProtoLaws pbData norm_pbData pbData_ok,
          !ProtoLaws pbState norm_pbState pbState_ok}.

(** The batch that block production and block synchronisation write. *)
Definition commit_block (header : SignedHeader PK) (data : Data) (signature : slice) (state : State)
  : M DB store_error unit :=
  with_batch (
    _ ← Batch_SaveBlockData header data signature;
    _ ← Batch_SetHeight (Header_Height (sh_Header header));
    _ ← Batch_UpdateState state;
    Batch_Commit).

Definition block_sops (header : SignedHeader PK) (hb db sig sb : bytes) (state : State) (h0 : Z) : list sop :=
  let h := Header_Height (sh_Header header) in
  [SPut (KHeader h) hb; SPut (KData h) db; SPut (KSignature h) sig;
   SPut (KIndex (Sha256.sum256 hb)) (encodeHeight h)]
  ++ (if h <=? h0 then [] else [SPut KHeight (encodeHeight h)])
  ++ [SPut (KState (LastBlockHeight state)) sb].

(** The marshalling failures of the three blobs. *)
Definition unmarshallable (header : SignedHeader PK) (data : Data) (state : State) (err : store_error) : Prop :=
  exists e, err = STypes e /\
    (marshal_signed_header header = Err e \/ Data_MarshalBinary clean_data clean_metadata data = Err e \/
     State_MarshalBinary clean_state clean_version state = Err e).

Lemma stages_lift {A} (r : res terror A) (e : view -> store_error -> Prop) :
  (forall v x, r = Err x -> e v (STypes x)) ->
  stages (DB := DB) (lift_res (types r)) (fun _ a l => r = Ok a /\ l = []) e.
Proof.
  intros He d ops. apply wp_lift_res. destruct r; simpl; split_and!; try done.
  - exists []. by rewrite app_nil_r.
  - right. by apply He.
Qed.

Lemma stages_SaveBlockData header data signature (e : view -> store_error -> Prop) :
  (forall v x, marshal_signed_header header = Err x -> e v (STypes x)) ->
  (forall v x, Data_MarshalBinary clean_data clean_metadata data = Err x -> e v (STypes x)) ->
  stages (DB := DB) (Batch_SaveBlockData header data signature) (fun v _ l =>
    let h := Header_Height (sh_Header header) in
    exists hb db, marshal_signed_header header = Ok hb /\
      Data_MarshalBinary clean_data clean_metadata data = Ok db /\
      l = [BPut (getHeaderKey h) hb; BPut (getDataKey h) db; BPut (getSignatureKey h) (sl signature);
           BPut (GetIndexKey (Sha256.sum256 hb)) (encodeHeight h)]) e.
Proof.
  intros He1 He2. unfold Batch_SaveBlockData, Batch_SaveBlockDataFromBytes.
  eapply stages_mono.
  - eapply stages_bind; [by apply stages_lift|intros hb].
    eapply stages_bind; [by apply stages_lift|intros db].
    repeat (eapply stages_bind; [apply stages_stage|intros ?]). apply stages_stage.
  - intros v u l Hl. simpl in Hl. naive_solver.
  - done.
Qed.

Lemma stages_Height :
  stages (DB := DB) (on_store Height) (fun v h l => view_height v = Some h /\ l = [])
    (fun v err => bad_length err /\ view_height v = None).
Proof. apply (stages_on_store Height). intros d. apply Height_spec. Qed.

Lemma stages_SetHeight h (e : view -> store_error -> Prop) :
  (forall v err, bad_length err -> view_height v = None -> e v err) ->
  stages (DB := DB) (Batch_SetHeight h) (fun v _ l => exists h0, view_height v = Some h0 /\
    l = if h <=? h0 then [] else [BPut getHeightKey (encodeHeight h)]) e.
Proof.
  intros He. unfold Batch_SetHeight. eapply stages_mono with (e := e).
  - eapply stages_bind with (g := fun h0 v _ l => l = if h <=? h0 then [] else [BPut getHeightKey (encodeHeight h)]).
    + eapply stages_mono; [apply stages_Height|done|]. intros v x [? ?]. by apply He.
    + intros h0. destruct (h <=? h0); [|apply stages_stage].
      eapply stages_mono; [apply stages_ret|by intros ? ? ? [? ->]|done].
  - intros v u l (h0 & l1 & l2 & -> & [Hh ->] & ->). by exists h0.
  - done.
Qed.

Lemma commit_block_spec header data signature state d :
  wp (commit_block header data signature state) (fun r d' =>
    (ds_healthy d -> ds_healthy d') /\
    match r with
    | Ok _ => exists hb db sb h0,
        marshal_signed_header header = Ok hb /\
        Data_MarshalBinary clean_data clean_metadata data = Ok db /\
        State_MarshalBinary clean_state clean_version state = Ok sb /\
        view_height (ds_view d) = Some h0 /\
        ds_view d' = apply_bops (ds_view d) (sop_bop <$> block_sops header hb db (sl signature) sb state h0)
    | Err err => ds_view d' = ds_view d /\
        (~ ds_healthy d \/ unmarshallable header data state err \/
         (bad_length err /\ view_height (ds_view d) = None))
    end) d.
Proof.
  set (e := fun (v : view) err => unmarshallable header data state err \/
              (bad_length err /\ view_height v = None)).
  eapply wp_mono; [eapply (with_batch_spec _ _ e)|].
  - eapply commits_bind; [apply stages_SaveBlockData; intros v x Hx; left; exists x; by auto|intros ?].
    eapply commits_bind; [apply stages_SetHeight; intros v err ? ?; by right|intros ?].
    eapply commits_bind; [|intros ?; apply commits_commit].
    eapply stages_bind; [apply stages_lift; intros v x Hx; left; exists x; by auto|intros sb; apply stages_stage].
  - intros [[]|err] d' [Hh Hr]; split; try done.
    destruct Hr as (? & ? & (hb & db & Hhb & Hdb & ->) & ? & ? & (h0 & Hh0 & ->) & ? & ? &
                    (sb & ? & ? & -> & [Hsb ->] & ->) & Hv).
    exists hb, db, sb, h0. split_and!; try done. rewrite Hv. f_equal.
    unfold block_sops. by destruct (_ <=? h0).
Qed.

(** ** Reads that succeed *)

Definition returns {A} (m : M DB store_error A) (d : DB) (a : A) : Prop :=
  exists d', m d = (Ok a, d') /\ ds_view d' = ds_view d /\ ds_healthy d'.

Lemma returns_get k d b : ds_healthy d -> ds_view d !! k = Some b -> returns (db (ds_get k)) d b.
Proof.
  intros Hh Hk. pose proof (get_spec k d) as Hg. unfold wp, returns in *.
  destruct (db (ds_get k) d) as [[b'|err] d']; simpl in *;
    destruct Hg as (Hv & Hd & Hr); [exists d'; split_and!; try tauto; by simplify_eq|].
  destruct Hr as [Hr|[_ Hr]]; [done|by rewrite Hk in Hr].
Qed.

Lemma returns_bind {A B} (m : M DB store_error A) (k : A -> M DB store_error B) d a b :
  returns m d a -> (forall d1, ds_view d1 = ds_view d -> ds_healthy d1 -> returns (k a) d1 b) ->
  returns (m ≫= k) d b.
Proof.
  intros (d1 & Hm & Hv & Hh) Hk. destruct (Hk d1 Hv Hh) as (d2 & Hk2 & Hv2 & Hh2).
  exists d2. unfold mbind, M_bind. rewrite Hm, Hk2, Hv2. done.
Qed.

Lemma returns_ret {A} (a : A) d : ds_healthy d -> returns (mret a) d a.
Proof. intros Hh. exists d. done. Qed.

Lemma returns_Height d h : ds_healthy d -> view_height (ds_view d) = Some h -> returns Height d h.
Proof.
  intros Hh Hv. pose proof (Height_spec d) as Hs. unfold wp, returns in *.
  destruct (Height d) as [[h'|err] d']; simpl in *; destruct Hs as (? & ? & Hr).
  - exists d'. rewrite Hv in Hr. injection Hr as ->. tauto.
  - rewrite Hv in Hr. naive_solver.
Qed.

Lemma returns_GetBlockData d h hb db (sh : SignedHeader PK) data :
  ds_healthy d -> sview (ds_view d) (KHeader h) = Some hb -> sview (ds_view d) (KData h) = Some db ->
  SignedHeader_UnmarshalBinary hb SignedHeader_New = (Ok tt, sh) ->
  Data_UnmarshalBinary db Data_New = (Ok tt, data) ->
  returns (GetBlockData h) d (sh, data).
Proof.
  intros Hh Hhb Hdb Hush Hud. unfold GetBlockData, GetHeader.
  eapply returns_bind.
  - eapply returns_bind; [by apply returns_get|]. intros d1 Hv1 Hh1. rewrite Hush.
    by apply returns_ret.
  - intros d1 Hv1 Hh1. eapply returns_bind; [apply returns_get; [done|by rewrite Hv1]|].
    intros d2 Hv2 Hh2. rewrite Hud. by apply returns_ret.
Qed.

Lemma view_height_encode v h : is_u64 h -> sview v KHeight = Some (encodeHeight h) -> view_height v = Some h.
Proof.
  intros Hh Hv. unfold view_height. unfold sview in Hv. simpl in Hv. rewrite Hv.
  unfold encodeHeight, zlen. rewrite length_put_uint64_le. simpl. by rewrite uint64_le_put.
Qed.

Lemma decodeHeight_encode h : is_u64 h -> decodeHeight (encodeHeight h) = Ok h.
Proof.
  intros Hh. unfold decodeHeight, encodeHeight, heightLength, zlen. rewrite length_put_uint64_le.
  simpl. by rewrite uint64_le_put.
Qed.

Lemma decode_state_marshal s b :
  state_wf s -> State_MarshalBinary clean_state clean_version s = Ok b -> decode_state b = Ok (norm_state s).
Proof.
  intros Hwf Hm. destruct (state_decode clean_state clean_version s zero_state b Hwf Hm) as (pb & Hu & Hf).
  unfold decode_state. rewrite Hu. cbn [types map_err mbind res_bind]. by rewrite Hf.
Qed.

(** What [commit_block] leaves in the store. *)
Lemma commit_block_keys header data signature state d d' :
  let h := Header_Height (sh_Header header) in
  is_u64 h -> LastBlockHeight state = h ->
  commit_block header data signature state d = (Ok tt, d') ->
  exists hb db sb h0,
    marshal_signed_header header = Ok hb /\
    Data_MarshalBinary clean_data clean_metadata data = Ok db /\
    State_MarshalBinary clean_state clean_version state = Ok sb /\
    view_height (ds_view d) = Some h0 /\
    sview (ds_view d') (KHeader h) = Some hb /\ sview (ds_view d') (KData h) = Some db /\
    sview (ds_view d') (KSignature h) = Some (sl signature) /\ sview (ds_view d') (KState h) = Some sb /\
    sview (ds_view d') (KIndex (Sha256.sum256 hb)) = Some (encodeHeight h) /\
    view_height (ds_view d') = Some (Z.max h0 h) /\
    (forall k, skey_ok k ->
       k ∉ [KHeader h; KData h; KSignature h; KState h; KIndex (Sha256.sum256 hb); KHeight] ->
       sview (ds_view d') k = sview (ds_view d) k).
Proof.
  intros h Hu Hst Hrun.
  destruct (wp_run _ _ _ _ _ (commit_block_spec header data signature state d) Hrun)
    as (Hh & hb & db & sb & h0 & Hhb & Hdb & Hsb & Hh0 & Hv).
  exists hb, db, sb, h0.
  assert (Hok : Forall (fun o => skey_ok (sop_key o)) (block_sops header hb db (sl signature) sb state h0)).
  { unfold block_sops, is_u64 in *. rewrite Hst. fold h. destruct (h <=? h0); repeat constructor; simpl; lia. }
  assert (Hk : forall k, skey_ok k -> sview (ds_view d') k =
    foldl sapply (sview (ds_view d)) (block_sops header hb db (sl signature) sb state h0) k).
  { intros k Hk. rewrite Hv. by apply apply_sops. }
  unfold block_sops in Hk. rewrite Hst in Hk. fold h in Hk. unfold is_u64 in Hu.
  split_and!; try done; try (rewrite Hk by (simpl; lia); destruct (h <=? h0); simpl;
    repeat case_decide; simplify_eq; done).
  - destruct (Z.leb_spec h h0) as [Hle|Hgt].
    + rewrite Z.max_l by lia. rewrite <- Hh0. unfold view_height.
      specialize (Hk KHeight I). unfold sview in Hk. simpl in Hk. by rewrite Hk.
    + rewrite Z.max_r by lia. apply view_height_encode; [done|]. by rewrite Hk.
  - intros k Hkok Hnin. rewrite Hk by done. rewrite sapply_other; [done|].
    intros Hin. apply Hnin. destruct (h <=? h0); simpl in Hin; set_solver.
Qed.

(** C36: A block that was committed is read back: its header, data, signature
    and state by height, and the block by the hash its index entry is stored
    under; the recorded height is the maximum of the old height and the
    block's; and no other key of the store changed. *)
Theorem committed_block_reads_back header data signature state d d' :
  let h := Header_Height (sh_Header header) in
  header_wf (sh_Header header) -> signer_wf (sh_Signer header) -> data_wf data -> state_wf state ->
  LastBlockHeight state = h ->
  commit_block header data signature state d = (Ok tt, d') -> ds_healthy d' ->
  exists hb h0,
    marshal_signed_header header = Ok hb /\ view_height (ds_view d) = Some h0 /\
    returns Height d' (Z.max h0 h) /\
    returns (GetBlockData h) d' (norm_signed_header header SignedHeader_New, norm_data data) /\
    returns (GetBlockByHash (Sha256.sum256 hb)) d' (norm_signed_header header SignedHeader_New, norm_data data) /\
    returns (GetSignature h) d' (sl signature) /\
    returns (GetStateAtHeight h) d' (norm_state state) /\
    (forall k, skey_ok k ->
       k ∉ [KHeader h; KData h; KSignature h; KState h; KIndex (Sha256.sum256 hb); KHeight] ->
       sview (ds_view d') k = sview (ds_view d) k).
Proof.
  intros h Hwf Hsi Hdw Hsw Hst Hrun Hh'.
  assert (Hu : is_u64 h) by apply Hwf.
  destruct (commit_block_keys header data signature state d d' Hu Hst Hrun)
    as (hb & db & sb & h0 & Hhb & Hdb & Hsb & Hh0 & K1 & K2 & K3 & K4 & K5 & K6 & Kframe).
  assert (Hget : forall d1, ds_view d1 = ds_view d' -> ds_healthy d1 ->
    returns (GetBlockData h) d1 (norm_signed_header header SignedHeader_New, norm_data data)).
  { intros d1 Hv1 Hh1. apply returns_GetBlockData with hb db; try (by rewrite Hv1); [done|..].
    - by apply (signed_header_decode clean_signed_header clean_header clean_version clean_signer).
    - by apply (data_decode clean_data clean_metadata). }
  exists hb, h0. split_and!; try done; [by apply returns_Height|by apply Hget|..].
  - eapply returns_bind; [eapply returns_bind; [by apply returns_get|]|].
    + intros d1 Hv1 Hh1. exists d1. by rewrite decodeHeight_encode.
    + intros d1 Hv1 Hh1. by apply Hget.
  - by apply returns_get.
  - eapply returns_bind; [by apply returns_get|]. intros d1 Hv1 Hh1. exists d1.
    by rewrite (decode_state_marshal state sb).
Qed.

End commit.
