(* ===== verification/StoreMaintenance.v ===== *)
(** * Rollback and pruning of the block store

    [Rollback], [PruneBlocks] and [PruneStates] stage their deletions in one
    batch: what is removed, what stays, and what an error leaves behind. *)

From S2P Require Import Prelude Sha256 Datastore Types Serialization SerializationFacts ProtoInst Store StoreFacts.
From stdpp Require Import base gmap strings list numbers pretty.
Open Scope Z_scope.

Section maintenance.
Context {DB : Type} `{DatastoreLaws DB} `{HashTextLaws}.

(** ** Heights of the loops *)

Lemma elem_of_rollback_heights cur height h :
  h ∈ rollback_heights cur height <-> height < h <= cur.
Proof.
  unfold rollback_heights. rewrite list_elem_of_fmap. split.
  - intros (i & -> & Hi%elem_of_seq). lia.
  - intros Hh. exists (Z.to_nat (cur - h)). rewrite elem_of_seq. lia.
Qed.

Lemma elem_of_prune_heights last height h :
  h ∈ prune_heights last height <-> last < h <= height.
Proof.
  unfold prune_heights. rewrite list_elem_of_fmap. split.
  - intros (i & -> & Hi%elem_of_seq). lia.
  - intros Hh. exists (Z.to_nat (h - last - 1)). rewrite elem_of_seq. lia.
Qed.

(** ** Rollback *)

(** The deletions of one height, given the header blob found there. *)
Definition rollback_sops (v : view) (h : Z) : list skey :=
  [KHeader h; KData h; KSignature h;
   KIndex (Sha256.sum256 (default [] (sview v (KHeader h)))); KState h].

Lemma sop_bop_deletes (ks : list skey) : sop_bop <$> (SDel <$> ks) = (fun k => BDelete (skey_string k)) <$> ks.
Proof. rewrite <- list_fmap_compose. done. Qed.

Lemma stages_rollback_height h :
  stages (DB := DB) (rollback_height h)
    (fun v _ l => is_Some (sview v (KHeader h)) /\ l = sop_bop <$> (SDel <$> rollback_sops v h))
    (fun v err => err = SDs ErrNotFound /\ sview v (KHeader h) = None).
Proof.
  unfold rollback_height. eapply stages_mono.
  - eapply stages_bind; [apply stages_get|intros blob].
    repeat (eapply stages_bind; [apply stages_stage|intros ?]). apply stages_stage.
  - intros v u l (blob & l1 & l2 & -> & [Hb ->] & Hl). unfold rollback_sops, sview in *.
    simpl skey_string. rewrite Hb. split; [done|]. simpl in Hl. naive_solver.
  - done.
Qed.

(** The part of [Rollback] between the height check and the deletions. *)
Definition rollback_marker (v : view) (height : Z) (aggregator : bool) (l : list sop) : Prop :=
  match sview v (KMeta DAIncludedHeightKey) with
  | Some bz =>
      if (zlen bz =? 8) && (height <? uint64_le bz)
      then aggregator = false /\ l = [SPut (KMeta DAIncludedHeightKey) (put_uint64_le height)]
      else l = []
  | None => l = []
  end.

(** Why a rollback is refused. *)
Definition rollback_refused (v : view) (height : Z) (aggregator : bool) : Prop :=
  view_height v = None \/
  exists cur, view_height v = Some cur /\
    (cur <= height \/
     (aggregator = true /\ exists bz, sview v (KMeta DAIncludedHeightKey) = Some bz /\
        zlen bz = 8 /\ height < uint64_le bz) \/
     exists h, height < h <= cur /\ sview v (KHeader h) = None).

Lemma stages_marker height aggregator :
  stages (DB := DB) (rollback_da_included height aggregator)
    (fun v _ l => exists L, rollback_marker v height aggregator L /\ l = sop_bop <$> L)
    (fun v _ => aggregator = true /\ exists bz, sview v (KMeta DAIncludedHeightKey) = Some bz /\
        zlen bz = 8 /\ height < uint64_le bz).
Proof.
  intros d ops. unfold rollback_da_included, on_store, GetMetadata, db. apply wp_bind, wp_attempt, wp_zoom, wp_wrap.
  eapply wp_mono; [apply get_law|]. unfold rollback_marker, sview. simpl skey_string.
  intros [bz|[]] d' (Hv & Hh & Hr); cbn [fst snd map_err] in *; cbv iota; try rewrite Hr.
  - destruct (Z.eqb_spec (zlen bz) 8) as [Hl|Hl];
      [destruct (Z.ltb_spec height (uint64_le bz)); [destruct aggregator|]|]; cbn [andb].
    + apply wp_throw. split_and!; try done. right. eauto.
    + eapply wp_mono; [apply (stages_stage _ (fun _ _ => False) d' ops)|].
      intros [[]|err] s' (Hv' & Hh' & Hr'); rewrite Hv' in *; split_and!; try tauto.
      destruct Hr' as (l & -> & ->). eexists. split; [done|].
      by exists [SPut (KMeta DAIncludedHeightKey) (put_uint64_le height)].
    + apply wp_ret. split_and!; try done. exists []. rewrite app_nil_r. split; [done|by exists []].
    + apply wp_ret. split_and!; try done. exists []. rewrite app_nil_r. split; [done|by exists []].
  - apply wp_ret. split_and!; try done. exists []. rewrite app_nil_r. split; [done|by exists []].
  - apply wp_throw. split_and!; try done. by left.
Qed.

Definition all_rollback_keys (v : view) (hs : list Z) : list skey := hs ≫= rollback_sops v.

(** The body of [Rollback] once the current height is known. *)
Lemma commits_rollback_body cur height aggregator :
  commits (DB := DB)
    (if cur <=? height then throw (SMsg "already at or below the rollback height") else
     rollback_da_included height aggregator ≫= fun _ =>
     for_each (rollback_heights cur height) rollback_height ≫= fun _ =>
     batch_stage (BPut getHeightKey (encodeHeight height)) ≫= fun _ => Batch_Commit)
    (fun v ops v' => height < cur /\ exists L, rollback_marker v height aggregator L /\
       Forall (fun h => is_Some (sview v (KHeader h))) (rollback_heights cur height) /\
       v' = apply_bops v (ops ++ (sop_bop <$>
          (L ++ (SDel <$> all_rollback_keys v (rollback_heights cur height))
             ++ [SPut KHeight (encodeHeight height)]))))
    (fun v _ => view_height v = Some cur -> rollback_refused v height aggregator).
Proof.
  destruct (Z.leb_spec cur height) as [Hle|Hgt].
  { eapply commits_mono; [apply commits_throw with (g := fun _ _ _ => False)|by intros ? ? ? []|].
    intros v x -> Hv. right. exists cur. auto. }
  set (e := fun (v : view) (_ : store_error) => view_height v = Some cur -> rollback_refused v height aggregator).
  eapply commits_mono with (e := e); [|..|by intros v x].
  - eapply commits_bind.
    { eapply stages_mono; [apply stages_marker|done|]. intros v x Hx Hv. right. exists cur. auto. }
    intros ?. eapply commits_bind; [|intros ?; eapply commits_bind; [apply stages_stage|intros ?; apply commits_commit]].
    eapply stages_for_each with (f := fun h v l => is_Some (sview v (KHeader h)) /\
      l = sop_bop <$> (SDel <$> rollback_sops v h)).
    intros h Hh. eapply stages_mono; [apply stages_rollback_height|done|].
    intros v x [_ Hx] Hv. right. exists cur. apply elem_of_rollback_heights in Hh. split; [done|].
    right. right. by exists h.
  - intros v ops v' (? & l1 & (L & HL & ->) & ? & l2 & (ls & Hls & ->) & ? & l3 & -> & ->).
    split; [done|]. exists L. split_and!; [done| |].
    + clear -Hls. induction Hls as [|h l hs ls [Hh _] _ IH]; constructor; auto.
    + f_equal. rewrite <- !app_assoc, !fmap_app. f_equal. f_equal. f_equal.
      clear -Hls. unfold all_rollback_keys. induction Hls as [|h l hs ls [_ ->] _ IH]; [done|].
      rewrite bind_cons, !fmap_app, <- IH. done.
Qed.

Lemma Rollback_spec height aggregator d :
  wp (Rollback height aggregator) (fun r d' =>
    (ds_healthy d -> ds_healthy d') /\
    match r with
    | Ok _ => exists cur L,
        view_height (ds_view d) = Some cur /\ height < cur /\
        rollback_marker (ds_view d) height aggregator L /\
        Forall (fun h => is_Some (sview (ds_view d) (KHeader h))) (rollback_heights cur height) /\
        ds_view d' = apply_bops (ds_view d) (sop_bop <$>
          (L ++ (SDel <$> all_rollback_keys (ds_view d) (rollback_heights cur height))
             ++ [SPut KHeight (encodeHeight height)]))
    | Err err => ds_view d' = ds_view d /\
        (~ ds_healthy d \/ rollback_refused (ds_view d) height aggregator)
    end) d.
Proof.
  eapply wp_mono; [eapply (with_batch_spec _ _ (fun v _ => rollback_refused v height aggregator))|].
  - eapply commits_bind_dep.
    + eapply stages_mono; [apply stages_Height|done|]. intros v x [_ Hv]. by left.
    + intros cur. apply commits_rollback_body.
    + intros v cur l x [Hv _] Hx. by apply Hx.
  - intros [[]|err] d' [Hh Hr]; split; try done.
    destruct Hr as (cur & l & [Hc ->] & Hlt & L & HL & Hall & Hv). by exists cur, L.
Qed.

(** The symbolic operations of a rollback, and what they do to a key. *)
Definition rollback_ops (v : view) (L : list sop) (cur height : Z) : list sop :=
  L ++ (SDel <$> all_rollback_keys v (rollback_heights cur height)) ++ [SPut KHeight (encodeHeight height)].

Lemma elem_of_all_rollback_keys v cur height k :
  k ∈ all_rollback_keys v (rollback_heights cur height) <->
  exists h, height < h <= cur /\ k ∈ rollback_sops v h.
Proof.
  unfold all_rollback_keys. rewrite list_elem_of_bind. split.
  - intros (h & Hk & Hh%elem_of_rollback_heights). eauto.
  - intros (h & Hh & Hk). exists h. by rewrite elem_of_rollback_heights.
Qed.

Lemma rollback_marker_keys v height agg L :
  rollback_marker v height agg L -> Forall (fun o => sop_key o = KMeta DAIncludedHeightKey) L.
Proof. unfold rollback_marker. repeat case_match; intros; destruct_and?; subst; repeat constructor. Qed.

Lemma rollback_ops_lookup v v' L cur height agg k :
  0 <= height -> rollback_marker v height agg L ->
  v' = apply_bops v (sop_bop <$> rollback_ops v L cur height) -> skey_ok k ->
  sview v' k =
  if decide (k = KHeight) then Some (encodeHeight height)
  else if bool_decide (k ∈ all_rollback_keys v (rollback_heights cur height)) then None
  else foldl sapply (sview v) L k.
Proof.
  intros Hh HL -> Hk. rewrite apply_sops; [|unfold rollback_ops|done].
  - unfold rollback_ops. rewrite !sapply_app. simpl. case_decide; [done|]. apply sapply_deletes.
  - apply Forall_app. split.
    { eapply Forall_impl; [by eapply rollback_marker_keys|]. by intros o ->. }
    apply Forall_app. split; [|by repeat constructor].
    apply Forall_forall. intros o (k' & -> & Hk')%list_elem_of_fmap. simpl.
    apply elem_of_all_rollback_keys in Hk' as (h & Hr & Hin). unfold rollback_sops in Hin.
    repeat (apply elem_of_cons in Hin as [-> | Hin]; [simpl; done || lia|]). by apply elem_of_nil in Hin.
Qed.

Definition block_key (h : Z) (k : skey) : Prop :=
  k = KHeader h \/ k = KData h \/ k = KSignature h \/ k = KState h.

Lemma block_key_rollback_sops h h' v k : block_key h k -> k ∈ rollback_sops v h' -> h = h'.
Proof.
  unfold rollback_sops. rewrite !elem_of_cons, elem_of_nil.
  intros [-> | [-> | [-> | ->]]] Hk; naive_solver.
Qed.

(** C37: A successful rollback to [height] leaves the store at [height]: every
    block above it is gone (header, data, signature, state and its hash index
    entry), every block at or below it is untouched, metadata other than the
    DA included height is untouched, and an aggregator never rolls back below
    its recorded DA included height. *)
Theorem rollback_correct height aggregator d d' :
  is_u64 height -> Rollback height aggregator d = (Ok tt, d') ->
  exists cur,
    view_height (ds_view d) = Some cur /\ height < cur /\ view_height (ds_view d') = Some height /\
    (forall h, height < h <= cur -> exists hb, sview (ds_view d) (KHeader h) = Some hb /\
       (forall k, block_key h k -> sview (ds_view d') k = None) /\
       sview (ds_view d') (KIndex (Sha256.sum256 hb)) = None) /\
    (forall h k, 0 <= h <= height -> block_key h k -> sview (ds_view d') k = sview (ds_view d) k) /\
    (forall k, k <> DAIncludedHeightKey -> sview (ds_view d') (KMeta k) = sview (ds_view d) (KMeta k)) /\
    (aggregator = true -> forall bz, sview (ds_view d) (KMeta DAIncludedHeightKey) = Some bz ->
       zlen bz = 8 -> uint64_le bz <= height).
Proof.
  intros Hu Hrun.
  destruct (wp_run _ _ _ _ _ (Rollback_spec height aggregator d) Hrun) as (_ & cur & L & Hcur & Hlt & HL & Hall & Hv).
  pose proof (fun k => rollback_ops_lookup _ _ L cur height aggregator k (proj1 Hu) HL Hv) as Hk.
  assert (HLo : forall k, k <> KMeta DAIncludedHeightKey -> foldl sapply (sview (ds_view d)) L k = sview (ds_view d) k).
  { intros k Hne. apply sapply_other. intros (o & -> & Ho)%list_elem_of_fmap. apply Hne.
    apply rollback_marker_keys in HL. rewrite Forall_forall in HL. by apply HL. }
  unfold is_u64 in Hu. exists cur. split_and!; try done.
  - apply view_height_encode; [done|]. by rewrite Hk.
  - intros h Hh. rewrite Forall_forall in Hall.
    destruct (Hall h) as [hb Hhb]; [by apply elem_of_rollback_heights|]. exists hb.
    assert (Hin : forall k, k ∈ rollback_sops (ds_view d) h -> k <> KHeight -> skey_ok k -> sview (ds_view d') k = None).
    { intros k Hin Hne Hok. rewrite Hk, decide_False by done. rewrite bool_decide_true; [done|].
      apply elem_of_all_rollback_keys. by exists h. }
    unfold rollback_sops in Hin. rewrite Hhb in Hin. simpl in Hin. split_and!; [done|..].
    + intros k [-> | [-> | [-> | ->]]]; apply Hin; first [done | simpl; lia | set_solver].
    + apply Hin; first [done | set_solver].
  - intros h k Hh Hb. assert (k <> KHeight /\ k <> KMeta DAIncludedHeightKey /\ skey_ok k) as (? & ? & ?)
      by (destruct Hb as [-> | [-> | [-> | ->]]]; simpl; split_and!; try done; lia).
    rewrite Hk, decide_False by done. rewrite bool_decide_false; [by apply HLo|].
    intros (h' & Hr & Hin)%elem_of_all_rollback_keys. pose proof (block_key_rollback_sops _ _ _ _ Hb Hin). lia.
  - intros k Hne. rewrite Hk, decide_False by done. rewrite bool_decide_false; [apply HLo; congruence|].
    intros (h' & Hr & Hin)%elem_of_all_rollback_keys. unfold rollback_sops in Hin. set_solver.
  - intros -> bz Hbz Hl. unfold rollback_marker in HL. rewrite Hbz in HL.
    destruct (Z.eqb_spec (zlen bz) 8), (Z.ltb_spec height (uint64_le bz)); simpl in HL; try lia; by destruct HL.
Qed.

(** A rollback that fails leaves the store as it was; on a healthy backend
    it fails exactly when it is refused: the recorded height is corrupt or not
    above the target, a header of the range is missing, or the node is an
    aggregator that would roll back a DA included height. *)
Theorem rollback_refusal height aggregator d :
  ds_healthy d ->
  ((exists err, (Rollback height aggregator d).1 = Err err) <->
     rollback_refused (ds_view d) height aggregator) /\
  (forall err d', Rollback height aggregator d = (Err err, d') -> ds_view d' = ds_view d).
Proof.
  intros Hh. pose proof (Rollback_spec height aggregator d) as Hs. unfold wp in Hs.
  destruct (Rollback height aggregator d) as [[[]|err] d']; simpl in *; destruct Hs as [_ Hs]; split; try done.
  - split; [naive_solver|]. destruct Hs as (cur & L & Hcur & Hlt & HL & Hall & Hv). unfold rollback_refused.
    rewrite Hcur. intros [|(c & [= <-] & [? | [(-> & bz & Hbz & Hl & Hd) | (h & Hhr & Hnone)]])];
      [done|lia|..]; exfalso.
    + unfold rollback_marker in HL. rewrite Hbz in HL.
      destruct (Z.eqb_spec (zlen bz) 8), (Z.ltb_spec height (uint64_le bz)); simpl in HL; try lia; by destruct HL.
    + rewrite Forall_forall in Hall. destruct (Hall h) as [hb Hhb]; [by apply elem_of_rollback_heights|].
      by rewrite Hnone in Hhb.
  - split; [tauto|eauto].
  - intros err' d'' Heq. simplify_eq. apply Hs.
Qed.

(** ** Pruning *)

Definition prune_keys (v : view) (h : Z) : list skey :=
  match sview v (KHeader h) with
  | None => []
  | Some hb =>
      [KHeader h; KData h; KSignature h; KMeta (GetHeightToDAHeightHeaderKey h);
       KMeta (GetHeightToDAHeightDataKey h); KIndex (Sha256.sum256 hb)]
  end.

(** A list of staged deletions of [ks], some of which may be missing because
    the backend reported the key absent. *)
Definition deletes_of (v : view) (ks : list skey) (l : list bop) : Prop :=
  exists ks', l = sop_bop <$> (SDel <$> ks') /\ ks' ⊆ ks /\
    forall k, k ∈ ks -> k ∈ ks' \/ sview v k = None.

Lemma deletes_of_app v ks1 ks2 l1 l2 :
  deletes_of v ks1 l1 -> deletes_of v ks2 l2 -> deletes_of v (ks1 ++ ks2) (l1 ++ l2).
Proof.
  intros (k1 & -> & Hs1 & Ha1) (k2 & -> & Hs2 & Ha2). exists (k1 ++ k2).
  rewrite !fmap_app. split_and!; [done|set_solver|]. intros k. rewrite !elem_of_app. naive_solver.
Qed.

Lemma stages_delete_key k e :
  stages (DB := DB) (batch_delete_ignoring (skey_string k)) (fun v _ l => deletes_of v [k] l) e.
Proof.
  eapply stages_mono; [apply stages_delete_ignoring| |done].
  intros v _ l [-> | [-> Hn]]; [exists [k]|exists []]; (split; [done|split; [set_solver|]]);
    intros k' ->%list_elem_of_singleton; [left; set_solver|by right].
Qed.

(** A sequence of deletions, as the code chains them. *)
Fixpoint delete_seq (ks : list skey) : BM (DB := DB) unit :=
  match ks with
  | [] => mret tt
  | [k] => batch_delete_ignoring (skey_string k)
  | k :: ks' => batch_delete_ignoring (skey_string k) ≫= fun _ => delete_seq ks'
  end.

Lemma stages_delete_seq ks e : stages (delete_seq ks) (fun v _ l => deletes_of v ks l) e.
Proof.
  induction ks as [|k [|k' ks] IH]; [|apply stages_delete_key|].
  - eapply stages_mono; [apply stages_ret| |done]. intros v u l [_ ->]. exists []. set_solver.
  - eapply stages_mono; [eapply stages_bind; [apply stages_delete_key|intros ?; apply IH]| |done].
    intros v u l (? & l1 & l2 & -> & H1' & H2'). by apply (deletes_of_app v [k]).
Qed.

Lemma stages_prune_height h e :
  stages (DB := DB) (prune_height h) (fun v _ l => deletes_of v (prune_keys v h) l) e.
Proof.
  intros d ops. unfold prune_height, on_store, db. apply wp_bind, wp_attempt, wp_zoom, wp_wrap.
  eapply wp_mono; [apply get_law|].
  intros [hb|[]] d' (Hv & Hh & Hr); cbn [fst snd map_err] in *; cbv iota.
  - assert (Hpk : prune_keys (ds_view d) h = [KHeader h; KData h; KSignature h;
      KMeta (GetHeightToDAHeightHeaderKey h); KMeta (GetHeightToDAHeightDataKey h); KIndex (Sha256.sum256 hb)]).
    { unfold prune_keys, sview. simpl skey_string. by rewrite Hr. }
    eapply wp_mono; [apply (stages_delete_seq [KHeader h; KData h; KSignature h;
      KMeta (GetHeightToDAHeightHeaderKey h); KMeta (GetHeightToDAHeightDataKey h);
      KIndex (Sha256.sum256 hb)] e d' ops)|].
    rewrite Hpk, <- Hv. intros [[]|err] s' (? & ? & ?); split_and!; tauto.
  - apply wp_ret. split_and!; try done. exists []. rewrite app_nil_r. split; [done|].
    assert (prune_keys (ds_view d) h = []) as ->; [|exists []; set_solver].
    unfold prune_keys, sview. simpl skey_string. by rewrite Hr.
  - apply wp_throw. split_and!; try done. by left.
Qed.

(** The recorded progress of a pruning, zero when absent or malformed. *)
Definition view_pruned (v : view) (key : string) : Z :=
  match sview v (KMeta key) with
  | Some b => if zlen b =? 8 then uint64_le b else 0
  | None => 0
  end.

Lemma getLastPrunedHeight_spec key d :
  wp (getLastPrunedHeight key) (fun r d' => ds_view d' = ds_view d /\ (ds_healthy d -> ds_healthy d') /\
    match r with Ok h => h = view_pruned (ds_view d) key | Err _ => ~ ds_healthy d end) d.
Proof.
  unfold getLastPrunedHeight, GetMetadata, db. apply wp_bind, wp_attempt, wp_wrap.
  eapply wp_mono; [apply get_law|]. unfold view_pruned, sview. simpl skey_string.
  intros [b|[]] d' (Hv & Hh & Hr); simpl; try rewrite Hr.
  - unfold decodeHeight, heightLength. destruct (zlen b =? 8); done.
  - by apply wp_ret.
  - by apply wp_throw.
Qed.

Lemma stages_last_pruned key :
  stages (DB := DB) (on_store (getLastPrunedHeight key))
    (fun v h l => h = view_pruned v key /\ l = []) (fun _ _ => False).
Proof.
  apply (stages_on_store _ (fun v h => h = view_pruned v key)). intros d.
  eapply wp_mono; [apply getLastPrunedHeight_spec|]. intros [] d' (? & ? & ?); auto.
Qed.

Lemma deletes_of_bind {A} v (f : A -> list skey) xs ls :
  Forall2 (fun x l => deletes_of v (f x) l) xs ls -> deletes_of v (xs ≫= f) (mjoin ls).
Proof.
  induction 1 as [|x l xs ls Hx _ IH]; [exists []; set_solver|].
  rewrite bind_cons. by apply deletes_of_app.
Qed.

(** Pruning [keys] of the heights in (last, height] and recording [height]. *)
Definition pruned (key : string) (keys : view -> Z -> list skey) (height : Z) (v v' : view) : Prop :=
  let last := view_pruned v key in
  if height <=? last then v' = v
  else exists l, deletes_of v (prune_heights last height ≫= keys v) l /\
         v' = apply_bops v (l ++ [sop_bop (SPut (KMeta key) (encodeHeight height))]).

Lemma commits_prune_body key keys (body : Z -> BM (DB := DB) unit) last height :
  (forall h e, stages (body h) (fun v _ l => deletes_of v (keys v h) l) e) ->
  commits
    (for_each (prune_heights last height) body ≫= fun _ =>
     batch_stage (BPut (GetMetaKey key) (encodeHeight height)) ≫= fun _ => Batch_Commit)
    (fun v ops v' => exists l, deletes_of v (prune_heights last height ≫= keys v) l /\
       v' = apply_bops v (ops ++ l ++ [sop_bop (SPut (KMeta key) (encodeHeight height))]))
    (fun _ _ => False).
Proof.
  intros Hb. eapply commits_mono with (e := fun _ _ => False).
  - eapply commits_bind; [apply stages_for_each; intros h Hh; apply Hb|intros ?].
    eapply commits_bind; [apply stages_stage|intros ?; apply commits_commit].
  - intros v ops v' (? & l1 & (ls & Hls & ->) & ? & l2 & -> & ->).
    exists (mjoin ls). split; [by apply deletes_of_bind|]. by rewrite <- app_assoc.
  - done.
Qed.

Lemma PruneBlocks_spec height d :
  wp (PruneBlocks height) (fun r d' =>
    (ds_healthy d -> ds_healthy d') /\
    match r with
    | Ok _ => pruned LastPrunedBlockHeightKey prune_keys height (ds_view d) (ds_view d')
    | Err _ => ds_view d' = ds_view d /\ ~ ds_healthy d
    end) d.
Proof.
  eapply wp_mono; [eapply (with_batch_spec _ _ (fun _ _ => False))|].
  - eapply commits_bind with (g := fun last v ops v' => if height <=? last then v' = v else _);
      [apply stages_last_pruned|intros last].
    destruct (height <=? last); [apply commits_ret|].
    apply (commits_prune_body LastPrunedBlockHeightKey prune_keys). intros. apply stages_prune_height.
  - intros [[]|err] d' [Hh Hr]; split; [done| |done|naive_solver].
    destruct Hr as (last & l & [-> ->] & Hr). unfold pruned. by destruct (_ <=? _).
Qed.

Lemma PruneStates_spec height d :
  wp (PruneStates height) (fun r d' =>
    (ds_healthy d -> ds_healthy d') /\
    match r with
    | Ok _ => pruned LastPrunedStateHeightKey (fun _ h => [KState h]) height (ds_view d) (ds_view d')
    | Err _ => ds_view d' = ds_view d /\ ~ ds_healthy d
    end) d.
Proof.
  unfold PruneStates. apply wp_bind. eapply wp_mono; [apply getLastPrunedHeight_spec|].
  intros [last|err] d1 (Hv1 & Hh1 & Hr1); [|by split]. subst last. unfold pruned.
  destruct (height <=? _); [apply wp_ret; by split|].
  eapply wp_mono; [eapply with_batch_spec, (commits_prune_body LastPrunedStateHeightKey (fun _ h => [KState h]))|].
  - intros h e. apply (stages_delete_key (KState h)).
  - rewrite Hv1. intros [[]|err] d' [Hh Hr]; split; tauto.
Qed.

Lemma pruned_lookup key keys height v v' k :
  pruned key keys height v v' -> view_pruned v key < height -> skey_ok k ->
  (forall h k', view_pruned v key < h <= height -> k' ∈ keys v h -> skey_ok k') ->
  (k = KMeta key -> sview v' k = Some (encodeHeight height)) /\
  (k <> KMeta key ->
     (forall h, view_pruned v key < h <= height -> k ∈ keys v h -> sview v' k = None) /\
     ((forall h, view_pruned v key < h <= height -> k ∉ keys v h) -> sview v' k = sview v k)).
Proof.
  unfold pruned. intros Hp Hlt Hk Hok. destruct (Z.leb_spec height (view_pruned v key)); [lia|].
  destruct Hp as (l & (ks & -> & Hsub & Hall) & ->).
  assert (Hin : forall k, k ∈ prune_heights (view_pruned v key) height ≫= keys v <->
    exists h, view_pruned v key < h <= height /\ k ∈ keys v h).
  { intros k0. rewrite list_elem_of_bind. setoid_rewrite elem_of_prune_heights. naive_solver. }
  replace ((sop_bop <$> (SDel <$> ks)) ++ [sop_bop (SPut (KMeta key) (encodeHeight height))])
    with (sop_bop <$> ((SDel <$> ks) ++ [SPut (KMeta key) (encodeHeight height)])) by by rewrite fmap_app.
  rewrite apply_sops; [|apply Forall_app; split; [|by repeat constructor]|done].
  2:{ apply Forall_fmap, Forall_forall. intros k' Hk'. apply Hsub, Hin in Hk' as (h & Hh & Hk'). by eapply Hok. }
  rewrite sapply_app. simpl. rewrite sapply_deletes. split; [intros ->; by rewrite decide_True|].
  intros Hne. rewrite decide_False by done. split.
  - intros h Hh Hkin. case_bool_decide as Hb; [done|].
    destruct (Hall k) as [|Hn]; [apply Hin; eauto|done|done].
  - intros Hnot. rewrite bool_decide_false; [done|]. intros Hk'. apply Hsub, Hin in Hk' as (h & Hh & Hk').
    by eapply Hnot.
Qed.

Lemma elem_of_prune_keys v h k :
  k ∈ prune_keys v h <-> exists hb, sview v (KHeader h) = Some hb /\
    (k = KHeader h \/ k = KData h \/ k = KSignature h \/ k = KMeta (GetHeightToDAHeightHeaderKey h) \/
     k = KMeta (GetHeightToDAHeightDataKey h) \/ k = KIndex (Sha256.sum256 hb)).
Proof.
  unfold prune_keys. destruct (sview v (KHeader h)) as [hb|]; [|rewrite elem_of_nil; naive_solver].
  rewrite !elem_of_cons, elem_of_nil. naive_solver.
Qed.

Lemma view_pruned_nonneg v key : 0 <= view_pruned v key.
Proof.
  unfold view_pruned. repeat case_match; try lia. apply (uint64_le_range l).
Qed.

Lemma view_pruned_u64 v key : is_u64 (view_pruned v key).
Proof. unfold view_pruned. repeat case_match; [apply uint64_le_range|done..]. Qed.

Lemma view_height_u64 v h : view_height v = Some h -> is_u64 h.
Proof. unfold view_height. repeat case_match; intros [= <-]; [apply uint64_le_range|done]. Qed.

Lemma view_pruned_encode v key h :
  is_u64 h -> sview v (KMeta key) = Some (encodeHeight h) -> view_pruned v key = h.
Proof.
  intros Hu Hk. unfold view_pruned. rewrite Hk. unfold encodeHeight, zlen.
  rewrite length_put_uint64_le. simpl. by apply uint64_le_put.
Qed.

(** Key by key, what a pruning of blocks that had work to do did. *)
Lemma pruned_blocks_lookup height v v' k :
  let last := view_pruned v LastPrunedBlockHeightKey in
  pruned LastPrunedBlockHeightKey prune_keys height v v' -> last < height -> skey_ok k ->
  k <> KMeta LastPrunedBlockHeightKey ->
  (forall h, last < h <= height -> k ∈ prune_keys v h -> sview v' k = None) /\
  ((forall h, last < h <= height -> k ∉ prune_keys v h) -> sview v' k = sview v k).
Proof.
  intros last Hp Hlt Hk Hne. apply (pruned_lookup _ _ _ _ _ k Hp Hlt Hk); [|done].
  intros h k' Hh (hb & _ & Hk')%elem_of_prune_keys.
  pose proof (view_pruned_nonneg v LastPrunedBlockHeightKey). naive_solver lia.
Qed.

Lemma pruned_blocks_header height v v' h :
  let last := view_pruned v LastPrunedBlockHeightKey in
  pruned LastPrunedBlockHeightKey prune_keys height v v' -> last < h <= height ->
  sview v' (KHeader h) = None.
Proof.
  intros last Hp Hh. pose proof (view_pruned_nonneg v LastPrunedBlockHeightKey).
  destruct (pruned_blocks_lookup height v v' (KHeader h) Hp ltac:(lia) ltac:(simpl; lia) ltac:(done)) as [Hd Hf].
  destruct (sview v (KHeader h)) as [hb|] eqn:Hhb.
  - apply (Hd h Hh), elem_of_prune_keys. eauto.
  - apply Hf. intros h' Hh' (hb & Hhb' & Hin)%elem_of_prune_keys. naive_solver.
Qed.

Lemma pruned_blocks_marker height v v' :
  is_u64 height -> pruned LastPrunedBlockHeightKey prune_keys height v v' ->
  view_pruned v' LastPrunedBlockHeightKey = Z.max (view_pruned v LastPrunedBlockHeightKey) height.
Proof.
  intros Hu Hp. set (last := view_pruned v LastPrunedBlockHeightKey).
  destruct (Z.le_gt_cases height last) as [Hle|Hgt].
  - unfold pruned in Hp. fold last in Hp. destruct (Z.leb_spec height last); [|lia].
    rewrite Hp. fold last. lia.
  - rewrite (view_pruned_encode _ _ height Hu); [lia|].
    apply (pruned_lookup _ _ _ _ _ (KMeta LastPrunedBlockHeightKey) Hp Hgt I); [|done].
    intros h k' Hh (hb & _ & Hk')%elem_of_prune_keys.
    pose proof (view_pruned_nonneg v LastPrunedBlockHeightKey). naive_solver lia.
Qed.

(** A successful pruning of blocks up to [height] removes the header, data,
    signature, hash index entry and DA metadata of every block above the last
    pruned height and up to [height], touches no block outside that range, no
    state and not the chain height, records [height], and pruning to the same
    height again changes nothing; a failed pruning changes nothing. *)
Theorem prune_blocks_correct height d r d' :
  is_u64 height -> PruneBlocks height d = (r, d') ->
  let last := view_pruned (ds_view d) LastPrunedBlockHeightKey in
  match r with
  | Err _ => ds_view d' = ds_view d /\ ~ ds_healthy d
  | Ok _ =>
      (height <= last -> ds_view d' = ds_view d) /\
      (last < height ->
         (forall h, last < h <= height -> sview (ds_view d') (KHeader h) = None /\
            forall hb k, sview (ds_view d) (KHeader h) = Some hb ->
              k = KData h \/ k = KSignature h \/ k = KIndex (Sha256.sum256 hb) \/
              k = KMeta (GetHeightToDAHeightHeaderKey h) \/ k = KMeta (GetHeightToDAHeightDataKey h) ->
              sview (ds_view d') k = None) /\
         (forall h k, 0 <= h -> h <= last \/ height < h -> k = KHeader h \/ k = KData h \/ k = KSignature h ->
            sview (ds_view d') k = sview (ds_view d) k) /\
         (forall h, 0 <= h -> sview (ds_view d') (KState h) = sview (ds_view d) (KState h)) /\
         sview (ds_view d') KHeight = sview (ds_view d) KHeight) /\
      view_pruned (ds_view d') LastPrunedBlockHeightKey = Z.max last height /\
      forall d'', PruneBlocks height d' = (Ok tt, d'') -> ds_view d'' = ds_view d'
  end.
Proof.
  intros Hu Hrun last. pose proof (wp_run _ _ _ _ _ (PruneBlocks_spec height d) Hrun) as [_ Hr].
  destruct r as [[]|err]; [|done]. pose proof (pruned_blocks_marker height _ _ Hu Hr) as Hmax. fold last in Hmax.
  pose proof (fun k => pruned_blocks_lookup height _ _ k Hr) as Hl. fold last in Hl.
  pose proof (view_pruned_nonneg (ds_view d) LastPrunedBlockHeightKey) as Hnn. fold last in Hnn.
  split_and!; [| |done|].
  - intros Hle. unfold pruned in Hr. fold last in Hr. by destruct (Z.leb_spec height last); [|lia].
  - intros Hlt. split_and!.
    + intros h Hh. split; [by apply (pruned_blocks_header height _ _ h Hr)|].
      intros hb k Hhb Hk. destruct (Hl k Hlt) as [Hd _]; [naive_solver lia|naive_solver|].
      apply (Hd h Hh), elem_of_prune_keys. naive_solver.
    + intros h k Hh0 Hr' Hk. apply (Hl k Hlt); [naive_solver|naive_solver|].
      intros h' Hh' (hb & _ & Hin)%elem_of_prune_keys. naive_solver lia.
    + intros h Hh0. apply (Hl (KState h) Hlt Hh0); [done|].
      intros h' Hh' (hb & _ & Hin)%elem_of_prune_keys. naive_solver.
    + apply (Hl KHeight Hlt I); [done|]. intros h' Hh' (hb & _ & Hin)%elem_of_prune_keys. naive_solver.
  - intros d'' Hrun2. pose proof (wp_run _ _ _ _ _ (PruneBlocks_spec height d') Hrun2) as [_ Hr2].
    unfold pruned in Hr2. rewrite Hmax in Hr2. by destruct (Z.leb_spec height (Z.max last height)); [|lia].
Qed.

End maintenance.

(** ** The theorems at a concrete store *)

Module StoreWitness.
Import ProtoInst MemDS.

#[export] Instance hex_hash_text : HashText := { hash_String := hex_encode }.

#[export] Instance hex_hash_text_laws : HashTextLaws.
Proof.
  split. intros a. induction a as [|x a IH]; intros [|y b]; simpl; try done.
  intros Heq. injection Heq as H1 H2 H3. pose proof (Z_of_byte_range x). pose proof (Z_of_byte_range y).
  apply hex_digit_inj in H1; [|split; [apply Z.div_pos; lia|apply Z.div_lt_upper_bound; lia]..].
  apply hex_digit_inj in H2; [|apply Z.mod_pos_bound; lia..].
  rewrite (IH b H3). f_equal. rewrite <- (byte_of_Z_of_byte x), <- (byte_of_Z_of_byte y). f_equal.
  rewrite (Z.div_mod (Z_of_byte x) 16), (Z.div_mod (Z_of_byte y) 16) by lia. by rewrite H1, H2.
Qed.

Definition key : bytes := [byte_of_Z 9].
Definition header_at (h : Z) : SignedHeader bytes :=
  MkSignedHeader (MkHeader (MkBaseHeader h 7 "c") (MkVersion 11 1) None None None None (Some key) None None)
                 (Some key) (MkSigner (Some key) (Some key) None) None None.
Definition data_at (h : Z) : Data := MkData (Some (MkMetadata "c" h 7 None)) (Some [key]).
Definition state_at (h : Z) : State := MkState (MkVersion 11 1) "c" 1 h 7 (Some key) 3 None None.
Definition empty_db : memds := MemDS.MemDS ∅ [].
Definition commit_at (h : Z) (d : memds) : memds :=
  (commit_block (header_at h) (data_at h) (Some key) (state_at h) d).2.
Definition db1 : memds := commit_at 1 empty_db.
Definition db2 : memds := commit_at 2 db1.

Lemma wf_at h : is_u64 h -> header_wf (sh_Header (header_at h)) /\ signer_wf (sh_Signer (header_at h)) /\
  data_wf (data_at h) /\ state_wf (state_at h).
Proof.
  intros Hu. unfold is_u64, two64 in Hu. split_and!.
  - unfold header_wf, version_wf, is_u64, two64. cbn [h_Base b_Height b_Time h_Version v_Block v_App sh_Header header_at].
    split_and!; try lia. intros x Hx. discriminate Hx.
  - left. reflexivity.
  - intros m [= <-]. unfold is_u64, two64. cbn [m_Height m_Time]. lia.
  - unfold state_wf, version_wf, is_u64, two64, time_Unix, second.
    cbn [InitialHeight LastBlockHeight DAHeight st_Version v_Block v_App LastBlockTime state_at].
    change (7 / 1000000000) with 0. split_and!; lia.
Qed.

Lemma committed_block_reads_back_witness :
  returns Height db2 2 /\
  returns (GetBlockData 2) db2 (norm_signed_header (header_at 2) SignedHeader_New, norm_data (data_at 2)).
Proof.
  destruct (wf_at 2 ltac:(unfold is_u64, two64; lia)) as (W1 & W2 & W3 & W4).
  destruct (committed_block_reads_back (header_at 2) (data_at 2) (Some key) (state_at 2) db1 db2 W1 W2 W3 W4)
    as (hb & h0 & _ & Hh0 & Hh & Hg & _).
  - reflexivity.
  - vm_compute. reflexivity.
  - vm_compute. constructor.
  - split; [|exact Hg]. replace 2 with (Z.max h0 (Header_Height (sh_Header (header_at 2)))) at 1; [exact Hh|].
    assert (Hv : view_height (ds_view db1) = Some 1) by (vm_compute; reflexivity).
    rewrite Hv in Hh0. injection Hh0 as <-. reflexivity.
Defined.

Definition rolled_back : memds := (Rollback (DB := memds) 1 true db2).2.

Lemma rollback_correct_witness :
  view_height (ds_view rolled_back) = Some 1 /\ sview (ds_view rolled_back) (KHeader 2) = None /\
  sview (ds_view rolled_back) (KHeader 1) = sview (ds_view db2) (KHeader 1).
Proof.
  destruct (rollback_correct 1 true db2 rolled_back) as (cur & Hc & Hlt & Hv & Habove & Hbelow & _).
  - unfold is_u64, two64. lia.
  - vm_compute. reflexivity.
  - split; [exact Hv|]. assert (Hc2 : view_height (ds_view db2) = Some 2) by (vm_compute; reflexivity).
    rewrite Hc2 in Hc. injection Hc as <-. split.
    + destruct (Habove 2 ltac:(lia)) as (hb & _ & Hn & _). apply Hn. by left.
    + apply (Hbelow 1); [lia|by left].
Defined.

Lemma rollback_refusal_witness :
  (exists err, (Rollback (DB := memds) 5 false db2).1 = Err err) <-> rollback_refused (ds_view db2) 5 false.
Proof. apply (rollback_refusal 5 false db2). vm_compute. constructor. Defined.

Definition pruned_db : memds := (PruneBlocks (DB := memds) 1 db2).2.

Lemma prune_blocks_correct_witness :
  sview (ds_view pruned_db) (KHeader 1) = None /\
  sview (ds_view pruned_db) (KHeader 2) = sview (ds_view db2) (KHeader 2).
Proof.
  assert (Hl : view_pruned (ds_view db2) LastPrunedBlockHeightKey = 0) by (vm_compute; reflexivity).
  assert (Hrun : PruneBlocks (DB := memds) 1 db2 = (Ok tt, pruned_db)) by (vm_compute; reflexivity).
  destruct (prune_blocks_correct 1 db2 (Ok tt) pruned_db ltac:(unfold is_u64, two64; lia) Hrun)
    as (_ & Hp & _). rewrite Hl in Hp. destruct (Hp ltac:(lia)) as (Hgone & Hkept & _). split.
  - apply (Hgone 1); lia.
  - apply (Hkept 2); [lia|lia|by left].
Defined.

End StoreWitness.
