(* ===== verification/Pruner.v ===== *)
(** * The pruner ([block/internal/pruner])

    Periodically removes old blocks and states. The record [Pruner] has the
    fields of the Go struct; the store is the block store over a datastore, the
    execution client may have a pruning interface of its own, and a context that
    may be done is a question to the environment. *)

From S2P Require Import Prelude Sha256 Datastore Types Serialization ProtoInst SerializationFacts Store StoreFacts StoreMaintenance.
From stdpp Require Import base gmap strings list numbers.
Open Scope Z_scope.

Inductive exec_prune_error := XNotFound | XFailed (msg : string).

(** [coreexecutor.ExecPruner]. *)
Class ExecPruner (X : Type) := { PruneExec : Z -> M X exec_prune_error unit }.
(** [ctx.Err() != nil]. *)
Class Cancellation (V : Type) := { ctx_done : V -> bool * V }.

(** ** Configuration ([pkg/config]) *)

Record PruningConfig := MkPruning { cfg_Mode : string; cfg_KeepRecent : Z; cfg_Interval : Z }.

Definition PruningModeDisabled : string := "disabled".
Definition PruningModeAll : string := "all".
Definition PruningModeMetadata : string := "metadata".

Definition IsPruningEnabled (c : PruningConfig) : bool :=
  negb (bool_decide (cfg_Mode c = PruningModeDisabled)) && negb (bool_decide (cfg_Mode c = EmptyString)).

Definition PruningConfig_Validate (blockTime : Z) (c : PruningConfig) : res string unit :=
  if negb (bool_decide (cfg_Mode c = PruningModeDisabled)) && negb (bool_decide (cfg_Mode c = PruningModeAll)) &&
     negb (bool_decide (cfg_Mode c = PruningModeMetadata)) then Err "invalid pruning mode" else
  if bool_decide (cfg_Mode c = PruningModeDisabled) then Ok tt else
  if cfg_Interval c =? 0 then Err "pruning_interval must be >= 1s" else
  if cfg_Interval c <? blockTime then Err "pruning_interval must be greater than or equal to block time" else
  if cfg_KeepRecent c =? 0 then Err "pruning_keep_recent must be > 0" else Ok tt.

(** ** State *)

Inductive prune_error :=
| PStore (e : store_error)
| PExec (e : exec_prune_error)
| PInvalidMarker
| PCanceled
| PPanic
| PFuel.

Record Pruner (DB X V : Type) := MkPruner
  { p_store : DB; p_exec : option X; p_cfg : PruningConfig; p_blockTime : Z; p_daEnabled : bool; p_ctx : V;
    p_cancel : bool (* cancel is not nil: the loop was started *) }.
Arguments MkPruner {DB X V}. Arguments p_store {DB X V}. Arguments p_exec {DB X V}. Arguments p_cfg {DB X V}.
Arguments p_blockTime {DB X V}. Arguments p_daEnabled {DB X V}. Arguments p_ctx {DB X V}. Arguments p_cancel {DB X V}.

(** [New]; DA is enabled if there is an address. *)
Definition New_Pruner {DB X V} (store : DB) (exec : option X) (cfg : PruningConfig) (blockTime : Z) (daAddress : string) (ctx : V)
  : Pruner DB X V :=
  MkPruner store exec cfg blockTime (negb (bool_decide (daAddress = EmptyString))) ctx false.

Definition maxPruneChunk : Z := 10000.

Section pruner.
Context {DB X V : Type} `{Datastore DB} `{HashText} `{ExecPruner X} `{Cancellation V}.
Abbreviation P := (Pruner DB X V).
Definition PrM (A : Type) : Type := M P prune_error A.

Definition set_p_store d (p : P) : P := MkPruner d (p_exec p) (p_cfg p) (p_blockTime p) (p_daEnabled p) (p_ctx p) (p_cancel p).
Definition set_p_exec x (p : P) : P := MkPruner (p_store p) x (p_cfg p) (p_blockTime p) (p_daEnabled p) (p_ctx p) (p_cancel p).
Definition set_p_ctx c (p : P) : P := MkPruner (p_store p) (p_exec p) (p_cfg p) (p_blockTime p) (p_daEnabled p) c (p_cancel p).

Definition on_p_store {A} (m : M DB store_error A) : PrM A := zoom p_store set_p_store (wrap PStore m).
Definition on_p_ctx : PrM bool := zoom p_ctx set_p_ctx (infallible ctx_done).

(** The division of durations panics for a zero block time; the result becomes
    a uint64. *)
Definition pruneBudget : PrM Z :=
  p ← gets id;
  if p_blockTime p =? 0 then throw PPanic else
  let blocksPerInterval := u64 (i64 (Z.quot (cfg_Interval (p_cfg p)) (p_blockTime p))) in
  mret (Z.max (mul64 blocksPerInterval 4) maxPruneChunk).

(** The loop runs at most [fuel] times. *)
Fixpoint prune_chunks (fuel : nat) (from to : Z) (prune : Z -> M DB store_error unit) : PrM unit :=
  if to <=? from then mret tt else
  match fuel with
  | O => throw PFuel
  | S fuel' =>
      done ← on_p_ctx;
      if (done : bool) then throw PCanceled else
      let end_ := Z.min (add64 from maxPruneChunk) to in
      _ ← on_p_store (prune end_);
      prune_chunks fuel' end_ to prune
  end.
Definition pruneInChunks (from to : Z) (prune : Z -> M DB store_error unit) : PrM unit :=
  prune_chunks (Z.to_nat ((to - from) / maxPruneChunk + 1)) from to prune.

(** [getLastPrunedBlockHeight] and [getLastPrunedStateHeight]. *)
Definition last_pruned (key : string) : PrM Z :=
  r ← attempt (on_p_store (GetMetadata key));
  match r with
  | Err (PStore (SDs ErrNotFound)) => mret 0
  | Err e => throw e
  | Ok bz =>
      if negb (zlen bz =? 8) then throw PInvalidMarker else
      let h := uint64_le bz in
      if h =? 0 then throw PInvalidMarker else mret h
  end.
Definition getLastPrunedBlockHeight : PrM Z := last_pruned LastPrunedBlockHeightKey.
Definition getLastPrunedStateHeight : PrM Z := last_pruned LastPrunedStateHeightKey.

Definition pruneStates (upTo : Z) : PrM Z :=
  lastPrunedState ← getLastPrunedStateHeight;
  if upTo <=? lastPrunedState then mret lastPrunedState else
  budget ← pruneBudget;
  let statesEnd := Z.min (add64 lastPrunedState budget) upTo in
  _ ← pruneInChunks lastPrunedState statesEnd PruneStates;
  mret statesEnd.

(** The execution client prunes what it has; nothing found is no error. *)
Definition prune_exec (height : Z) : PrM unit := fun p =>
  match p_exec p with
  | None => (Ok tt, p)
  | Some x =>
      let '(r, x') := PruneExec height x in
      let p := set_p_exec (Some x') p in
      match r with Ok _ | Err XNotFound => (Ok tt, p) | Err e => (Err (PExec e), p) end
  end.

(** The highest height that may be pruned; [None] when the DA included height
    is not known yet. *)
Definition upper_bound : PrM (option Z) :=
  storeHeight ← on_p_store Height;
  da ← gets p_daEnabled;
  if negb (da : bool) then mret (Some storeHeight) else
  r ← attempt (F := prune_error) (on_p_store (GetMetadata DAIncludedHeightKey));
  mret (match r with
        | Ok bz => if zlen bz =? 8 then Some (Z.min storeHeight (uint64_le bz)) else None
        | Err _ => None
        end).

Definition pruneBlocks : PrM unit :=
  bound ← upper_bound;
  match bound with
  | None => mret tt
  | Some upperBound =>
      cfg ← gets p_cfg;
      if upperBound <=? cfg_KeepRecent cfg then mret tt else
      let targetHeight := sub64 upperBound (cfg_KeepRecent cfg) in
      lastPruned ← getLastPrunedBlockHeight;
      budget ← pruneBudget;
      let blocksEnd := Z.max (Z.min (add64 lastPruned budget) targetHeight) lastPruned in
      _ ← pruneInChunks lastPruned blocksEnd PruneBlocks;
      if blocksEnd =? 0 then mret tt else
      _ ← pruneStates (sub64 blocksEnd 1);
      prune_exec blocksEnd
  end.

Definition pruneMetadata : PrM unit :=
  height ← on_p_store Height;
  cfg ← gets p_cfg;
  if height <=? add64 (cfg_KeepRecent cfg) 1 then mret tt else
  let target := sub64 height (cfg_KeepRecent cfg) in
  statesEnd ← pruneStates (sub64 target 1);
  if statesEnd =? 0 then mret tt else prune_exec statesEnd.

(** A tick of [pruneLoop]; errors are logged. *)
Definition prune_tick : PrM unit :=
  cfg ← gets p_cfg;
  _ ← attempt (F := prune_error)
        (if bool_decide (cfg_Mode cfg = PruningModeMetadata) then pruneMetadata
         else if bool_decide (cfg_Mode cfg = PruningModeAll) then pruneBlocks else mret tt);
  mret tt.

(** [Start] spawns [pruneLoop], once, with a context derived from the caller's.
    [Stop] cancels that context and waits; it changes nothing else. *)
Definition Start (ctx : V) : M P string unit := fun p =>
  if p_cancel p then (Err "pruner already started", p)
  else if negb (IsPruningEnabled (p_cfg p)) then (Ok tt, p)
  else (Ok tt, MkPruner (p_store p) (p_exec p) (p_cfg p) (p_blockTime p) (p_daEnabled p) ctx true).

End pruner.

(** * What a tick of the pruner removes, and what it keeps

    Whatever fails, a tick removes no block above the bound set by the
    configuration and by DA inclusion, and no state that is needed to replay the
    first block that is kept; on a healthy store a backlog is drained, at least
    [maxPruneChunk] heights per tick. *)

Section facts.
Context {DB X V : Type} `{DatastoreLaws DB} `{HashTextLaws} `{ExecPruner X} `{Cancellation V}.
Abbreviation P := (Pruner DB X V).
Implicit Types (p : P) (v : view).

Definition pview (p : P) : view := ds_view (p_store p).
Definition same (p p' : P) : Prop :=
  p_cfg p' = p_cfg p /\ p_blockTime p' = p_blockTime p /\ p_daEnabled p' = p_daEnabled p.

Lemma same_trans p1 p2 p3 : same p1 p2 -> same p2 p3 -> same p1 p3.
Proof. unfold same. intuition congruence. Qed.

Lemma wp_on_p_store {A} (m : M DB store_error A) (Q : res prune_error A -> P -> Prop) p :
  wp m (fun r d => Q (map_err PStore r) (set_p_store d p)) (p_store p) -> wp (on_p_store m) Q p.
Proof. intros Hm. by apply wp_zoom, wp_wrap. Qed.

(** ** What is kept *)

(** Blocks above [bb] and states from [sb] on are as before, and so are the
    chain height and the DA included height. *)
Definition keeps (bb sb : Z) (v v' : view) : Prop :=
  sview v' KHeight = sview v KHeight /\
  sview v' (KMeta DAIncludedHeightKey) = sview v (KMeta DAIncludedHeightKey) /\
  forall h, 0 <= h ->
    (bb < h -> sview v' (KHeader h) = sview v (KHeader h) /\ sview v' (KData h) = sview v (KData h) /\
               sview v' (KSignature h) = sview v (KSignature h)) /\
    (sb <= h -> sview v' (KState h) = sview v (KState h)).

#[local] Instance keeps_preorder bb sb : PreOrder (keeps bb sb).
Proof.
  split; [by intros v|]. intros v1 v2 v3 (A1 & A2 & A3) (B1 & B2 & B3). unfold keeps.
  rewrite B1, B2. split_and!; [done..|]. intros h Hh. destruct (A3 h Hh) as [C1 C2], (B3 h Hh) as [D1 D2]. split.
  - intros Hlt. destruct (C1 Hlt) as (? & ? & ?), (D1 Hlt) as (? & ? & ?). split_and!; congruence.
  - intros Hle. rewrite D2, C2; done.
Qed.

Lemma keeps_mono bb sb bb' sb' v v' : keeps bb sb v v' -> bb <= bb' -> sb <= sb' -> keeps bb' sb' v v'.
Proof. intros (A1 & A2 & A3) Hb Hs. split_and!; [done..|]. intros h Hh. destruct (A3 h Hh). split; intros; [|]; auto with lia. Qed.

Lemma keeps_height bb sb v v' : keeps bb sb v v' -> view_height v' = view_height v.
Proof. intros (Hk & _). unfold view_height. unfold sview in Hk. simpl in Hk. by rewrite Hk. Qed.

(** Pruning blocks up to [e] touches no block above and no state; pruning states
    up to [e] touches no block and no state above. *)
Lemma pruned_blocks_keeps e v v' : pruned LastPrunedBlockHeightKey prune_keys e v v' -> keeps e 0 v v'.
Proof.
  intros Hp. destruct (Z.le_gt_cases e (view_pruned v LastPrunedBlockHeightKey)) as [Hle|Hgt].
  { unfold pruned in Hp. destruct (Z.leb_spec e (view_pruned v LastPrunedBlockHeightKey)); [by rewrite Hp|lia]. }
  assert (Hk : forall k, skey_ok k -> k <> KMeta LastPrunedBlockHeightKey ->
    (forall h, h <= e -> k ∉ prune_keys v h) -> sview v' k = sview v k).
  { intros k Hok Hne Hnin. apply (pruned_blocks_lookup e v v' k Hp Hgt Hok Hne). intros h Hh. apply Hnin. lia. }
  unfold keeps. split_and!.
  - apply Hk; [done..|]. intros h _ (hb & _ & Hin)%elem_of_prune_keys. naive_solver.
  - apply Hk; [done..|]. intros h _ (hb & _ & Hin)%elem_of_prune_keys.
    destruct Hin as [|[|[|[Hin|[Hin|]]]]]; try discriminate;
      injection Hin as Hin; revert Hin; unfold DAIncludedHeightKey, GetHeightToDAHeightHeaderKey, GetHeightToDAHeightDataKey,
        DAIncludedHeightKey; discriminate.
  - intros h Hh. split; intros Hlt; [split_and!|]; apply Hk; try done; intros h' Hh' (hb & _ & Hin)%elem_of_prune_keys; naive_solver lia.
Qed.

Lemma pruned_states_lookup e v v' k :
  pruned LastPrunedStateHeightKey (fun _ h => [KState h]) e v v' -> skey_ok k ->
  k <> KMeta LastPrunedStateHeightKey -> (forall h, h <= e -> k <> KState h) -> sview v' k = sview v k.
Proof.
  intros Hp Hok Hne Hnin. destruct (Z.le_gt_cases e (view_pruned v LastPrunedStateHeightKey)) as [Hle|Hgt].
  { unfold pruned in Hp. destruct (Z.leb_spec e (view_pruned v LastPrunedStateHeightKey)); [by rewrite Hp|lia]. }
  pose proof (view_pruned_nonneg v LastPrunedStateHeightKey) as Hnn.
  apply (pruned_lookup _ _ _ _ _ k Hp Hgt Hok); [|done|].
  - intros h k' Hh ->%list_elem_of_singleton. simpl. lia.
  - intros h Hh Hin%list_elem_of_singleton. apply (Hnin h); [lia|done].
Qed.

Lemma pruned_states_keeps e v v' : pruned LastPrunedStateHeightKey (fun _ h => [KState h]) e v v' -> keeps (-1) (e + 1) v v'.
Proof.
  intros Hp. unfold keeps. split_and!; [by apply (pruned_states_lookup e)..|].
  intros h Hh. split; intros Hlt; [split_and!|]; apply (pruned_states_lookup e); try done. naive_solver lia.
Qed.

(** ** Chunks *)

Section chunks.
Context (key : string) (keys : view -> Z -> list skey) (prune : Z -> M DB store_error unit).
Hypothesis prune_spec : forall e d, wp (prune e) (fun r d' => (ds_healthy d -> ds_healthy d') /\
  match r with
  | Ok _ => pruned key keys e (ds_view d) (ds_view d')
  | Err _ => ds_view d' = ds_view d /\ ~ ds_healthy d
  end) d.

Definition prune_step (to : Z) (v v' : view) : Prop := exists e, e <= to /\ pruned key keys e v v'.

(** Successive calls, none beyond [to]; the last one, if all went well, at [to];
    all goes well if the store is healthy and the context is not done, and then
    the number of iterations is enough. *)
Lemma prune_chunks_spec fuel : forall from to p,
  wp (prune_chunks fuel from to prune) (fun r p' =>
    same p p' /\ (ds_healthy (p_store p) -> ds_healthy (p_store p')) /\
    rtc (prune_step to) (pview p) (pview p') /\
    (r = Ok tt -> from < to -> exists v1, rtc (prune_step to) (pview p) v1 /\ pruned key keys to v1 (pview p')) /\
    (r = Ok tt -> to <= from -> pview p' = pview p) /\
    (ds_healthy (p_store p) -> (forall c, (ctx_done c).1 = false) -> 0 <= from -> to + maxPruneChunk < two64 ->
     to - from <= Z.of_nat fuel * maxPruneChunk -> r = Ok tt)) p.
Proof.
  induction fuel as [|fuel IH]; intros from to p; simpl; destruct (Z.leb_spec to from) as [Hle|Hgt].
  - apply wp_ret. split_and!; try done; try lia. 
  - apply wp_throw. split_and!; try done; try lia.
  - apply wp_ret. split_and!; try done; try lia.
  - unfold on_p_ctx. apply wp_bind, wp_zoom, wp_infallible. destruct (ctx_done (p_ctx p)) as [[] c] eqn:Hc; simpl.
    { apply wp_throw. split_and!; try done. intros _ Hl. specialize (Hl (p_ctx p)). by rewrite Hc in Hl. }
    set (end_ := Z.min (add64 from maxPruneChunk) to). apply wp_bind, wp_on_p_store. simpl.
    eapply wp_mono; [apply prune_spec|]. intros [[]|err] d1 (Hh1 & Hr1); simpl.
    2:{ destruct Hr1 as [Hv1 Hn]. unfold pview. simpl. rewrite Hv1. split_and!; try done; intros; tauto. }
    eapply wp_mono; [apply IH|]. intros r p' (Hs & Hh & Hrtc & Hok & Hid & Hlive).
    assert (Hst : prune_step to (pview p) (ds_view d1)) by (exists end_; split; [lia|done]).
    unfold pview in *. simpl in *. split_and!; [by apply Hs|by eauto| |intros Hrr _|lia|].
    + by eapply rtc_l.
    + destruct (Z.lt_ge_cases end_ to) as [Hlt|Hge].
      * destruct (Hok Hrr Hlt) as (v1 & Hv1 & Hp1). exists v1. split; [by eapply rtc_l|done].
      * assert (end_ = to) as Heq by lia. rewrite (Hid Hrr Hge). exists (ds_view (p_store p)).
        split; [done|]. by rewrite Heq in Hr1.
    + intros Hhe Hl H0f Hov Hf. unfold maxPruneChunk in *.
      assert (Hadd : add64 from 10000 = from + 10000) by (apply add64_small; lia).
      apply Hlive; [by apply Hh1|done|lia|lia|]. unfold end_. lia.
Qed.

Lemma pruneInChunks_spec from to p :
  wp (pruneInChunks from to prune) (fun r p' =>
    same p p' /\ (ds_healthy (p_store p) -> ds_healthy (p_store p')) /\
    rtc (prune_step to) (pview p) (pview p') /\
    (r = Ok tt -> from < to -> exists v1, rtc (prune_step to) (pview p) v1 /\ pruned key keys to v1 (pview p')) /\
    (r = Ok tt -> to <= from -> pview p' = pview p) /\
    (ds_healthy (p_store p) -> (forall c, (ctx_done c).1 = false) -> 0 <= from -> to + maxPruneChunk < two64 ->
     r = Ok tt)) p.
Proof.
  eapply wp_mono; [apply prune_chunks_spec|]. intros r p' (Hs & Hh & Hrtc & Hok & Hid & Hlive).
  split_and!; try done. intros Hhe Hl Hf Hov. apply Hlive; try done.
  destruct (Z.le_gt_cases to from) as [Hle|Hgt]; [unfold maxPruneChunk; lia|].
  pose proof (Z.div_mod (to - from) maxPruneChunk ltac:(done)) as Hdm.
  pose proof (Z.mod_pos_bound (to - from) maxPruneChunk ltac:(done)).
  assert (0 <= (to - from) / maxPruneChunk) by (apply Z.div_pos; [lia|done]).
  unfold maxPruneChunk in *. lia.
Qed.
End chunks.

Abbreviation block_step := (prune_step LastPrunedBlockHeightKey prune_keys).
Abbreviation state_step := (prune_step LastPrunedStateHeightKey (fun _ h => [KState h])).

Lemma block_steps_keep to v v' : rtc (block_step to) v v' -> keeps to 0 v v'.
Proof.
  induction 1 as [v|v1 v2 v3 (e & He & Hp) _ IH]; [done|]. etrans; [|exact IH].
  eapply keeps_mono; [by apply pruned_blocks_keeps|lia|lia].
Qed.

Lemma state_steps_keep to v v' : rtc (state_step to) v v' -> keeps (-1) (to + 1) v v'.
Proof.
  induction 1 as [v|v1 v2 v3 (e & He & Hp) _ IH]; [done|]. etrans; [|exact IH].
  eapply keeps_mono; [by apply pruned_states_keeps|lia|lia].
Qed.

(** ** Reads *)

Lemma last_pruned_spec key p :
  wp (last_pruned key) (fun r p' => same p p' /\ pview p' = pview p /\
    (ds_healthy (p_store p) -> ds_healthy (p_store p')) /\
    match r with
    | Ok h => h = view_pruned (pview p) key
    | Err _ => ds_healthy (p_store p) -> exists b, sview (pview p) (KMeta key) = Some b /\ (zlen b <> 8 \/ uint64_le b = 0)
    end) p.
Proof.
  unfold last_pruned. apply wp_bind, wp_attempt, wp_on_p_store. unfold GetMetadata, db. apply wp_wrap.
  eapply wp_mono; [apply get_law|]. unfold view_pruned, sview. simpl skey_string.
  intros [b|[]] d' (Hv & Hh & Hr); simpl; unfold pview in *; try rewrite Hr.
  - destruct (Z.eqb_spec (zlen b) 8) as [Hl|Hl]; simpl; [|apply wp_throw; split_and!; try done; eauto 10].
    destruct (Z.eqb_spec (uint64_le b) 0) as [Hz|Hz]; [apply wp_throw|apply wp_ret]; split_and!; try done; eauto 10.
  - by apply wp_ret.
  - apply wp_throw. split_and!; try done.
Qed.

(** The bound on what may be pruned, as the store records it. *)
Definition view_bound (da : bool) (v : view) : option Z :=
  match view_height v with
  | None => None
  | Some h =>
      if negb da then Some h else
      match sview v (KMeta DAIncludedHeightKey) with
      | Some bz => if zlen bz =? 8 then Some (Z.min h (uint64_le bz)) else None
      | None => None
      end
  end.

Lemma upper_bound_spec p :
  wp upper_bound (fun r p' => same p p' /\ pview p' = pview p /\
    (ds_healthy (p_store p) -> ds_healthy (p_store p')) /\
    match r with
    | Ok (Some b) => view_bound (p_daEnabled p) (pview p) = Some b
    | Ok None | Err _ => ds_healthy (p_store p) -> view_bound (p_daEnabled p) (pview p) = None
    end) p.
Proof.
  unfold upper_bound, view_bound. apply wp_bind, wp_on_p_store. eapply wp_mono; [apply Height_spec|].
  intros [h|err] d1 (Hv1 & Hh1 & Hr1); simpl.
  2:{ split_and!; try done. intros Hhe. unfold pview. destruct Hr1 as [|[_ ->]]; done. }
  wp_read. simpl. unfold pview. rewrite Hr1. destruct (p_daEnabled p) eqn:Hda; simpl; [|by apply wp_ret].
  apply wp_bind, wp_attempt, wp_on_p_store. unfold GetMetadata, db. apply wp_wrap. simpl.
  eapply wp_mono; [apply get_law|]. unfold sview. simpl skey_string.
  intros r d' (Hv & Hh & Hr). apply wp_ret. simpl. split_and!; try done; [congruence|auto|]. rewrite <- Hv1.
  destruct r as [bz|[]]; simpl; try rewrite Hr; try done; [by destruct (zlen bz =? 8)|]. intros Hhe. exfalso; auto.
Qed.

(** ** The states *)

Definition budget (p : P) : Z :=
  Z.max (mul64 (u64 (i64 (Z.quot (cfg_Interval (p_cfg p)) (p_blockTime p)))) 4) maxPruneChunk.

Lemma pruneBudget_spec p :
  wp pruneBudget (fun r p' => p' = p /\ match r with Ok b => b = budget p | Err _ => p_blockTime p = 0 end) p.
Proof.
  unfold pruneBudget. wp_read. destruct (Z.eqb_spec (p_blockTime p) 0); [by apply wp_throw|by apply wp_ret].
Qed.

Lemma pruneStates_spec upTo p :
  wp (pruneStates upTo) (fun r p' => same p p' /\ (ds_healthy (p_store p) -> ds_healthy (p_store p')) /\
    rtc (state_step upTo) (pview p) (pview p')) p.
Proof.
  unfold pruneStates, getLastPrunedStateHeight. apply wp_bind. eapply wp_mono; [apply last_pruned_spec|].
  intros [last|err] p1 (Hs1 & Hv1 & Hh1 & _); [|by rewrite Hv1].
  destruct (Z.leb_spec upTo last); [apply wp_ret; by rewrite Hv1|].
  apply wp_bind. eapply wp_mono; [apply pruneBudget_spec|]. intros [b|err] p2 [-> _]; [|by rewrite Hv1].
  apply wp_bind. eapply wp_mono; [apply pruneInChunks_spec, PruneStates_spec|].
  rewrite Hv1. intros [[]|err] p3 (Hs & Hh & Hrtc & _); [apply wp_ret|];
  split_and!; try (by eapply same_trans); try (by auto); eapply rtc_subrel; try exact Hrtc; intros ? ? (e & He & Hp); exists e; (split; [lia|done]).
Qed.

Lemma prune_exec_spec h p : wp (prune_exec h) (fun r p' => same p p' /\ p_store p' = p_store p) p.
Proof.
  unfold wp, prune_exec. destruct (p_exec p) as [x|]; [|done]. by destruct (PruneExec h x) as [[|[]] x'].
Qed.

(** ** A tick *)

(** The last height to prune, given the bound [b] and the last pruned height. *)
Definition blocks_end (p : P) (b last : Z) : Z :=
  Z.max (Z.min (add64 last (budget p)) (sub64 b (cfg_KeepRecent (p_cfg p)))) last.

(** The conditions under which the blocks up to [blocks_end] are really pruned:
    a store and a context that do not fail, a readable marker, no overflow. *)
Definition prunable (p : P) (b : Z) : Prop :=
  let last := view_pruned (pview p) LastPrunedBlockHeightKey in
  ds_healthy (p_store p) /\ (forall c, (ctx_done c).1 = false) /\ p_blockTime p <> 0 /\ cfg_KeepRecent (p_cfg p) < b /\
  (forall bz, sview (pview p) (KMeta LastPrunedBlockHeightKey) = Some bz -> zlen bz = 8 /\ uint64_le bz <> 0) /\
  blocks_end p b last + maxPruneChunk < two64 /\ last < blocks_end p b last.

(** Blocks up to [blocks_end] first, then states below it. *)
Definition blocks_pruned (p : P) (b : Z) (v' : view) : Prop :=
  let e := blocks_end p b (view_pruned (pview p) LastPrunedBlockHeightKey) in
  exists v1, rtc (block_step e) (pview p) v1 /\ rtc (state_step (e - 1)) v1 v' /\
    (prunable p b -> exists v0, rtc (block_step e) (pview p) v0 /\
       pruned LastPrunedBlockHeightKey prune_keys e v0 v1).

Lemma blocks_pruned_none p b : ~ prunable p b -> blocks_pruned p b (pview p).
Proof. intros Hn. exists (pview p). split_and!; [done..|]. by intros Hp. Qed.

Lemma blocks_end_range p b last :
  is_u64 last -> is_u64 (blocks_end p b last).
Proof.
  intros Hl. pose proof (add64_u64 last (budget p)) as Hu. pose proof (sub64_u64 b (cfg_KeepRecent (p_cfg p))) as Hs.
  unfold is_u64, blocks_end in *. lia.
Qed.

(** The part of [pruneBlocks] from the chunks on. *)
Lemma prune_to_spec p p2 b :
  let e := blocks_end p b (view_pruned (pview p) LastPrunedBlockHeightKey) in
  same p p2 -> pview p2 = pview p -> (ds_healthy (p_store p) -> ds_healthy (p_store p2)) ->
  wp (pruneInChunks (view_pruned (pview p) LastPrunedBlockHeightKey) e PruneBlocks ≫= fun _ =>
      if e =? 0 then mret tt else pruneStates (sub64 e 1) ≫= fun _ => prune_exec e)
     (fun _ p' => same p p' /\ (ds_healthy (p_store p) -> ds_healthy (p_store p')) /\ blocks_pruned p b (pview p')) p2.
Proof.
  intros e Hs2 Hv2 Hh2. set (last := view_pruned (pview p) LastPrunedBlockHeightKey) in *.
  apply wp_bind. eapply wp_mono; [apply pruneInChunks_spec, PruneBlocks_spec|]. rewrite Hv2.
  intros r p3 (Hs3 & Hh3 & Hrtc & Hok & Hid & Hlive). assert (Hs13 : same p p3) by by eapply same_trans.
  assert (Hprog : prunable p b -> exists v0, rtc (block_step e) (pview p) v0 /\
    pruned LastPrunedBlockHeightKey prune_keys e v0 (pview p3)).
  { intros (Hhe & Hl & _ & _ & _ & Hov & Hlt). apply Hok; [|done]. apply Hlive; auto. apply view_pruned_nonneg. }
  assert (Hgoal : forall v', rtc (state_step (e - 1)) (pview p3) v' -> blocks_pruned p b v') by (exists (pview p3); done).
  destruct r as [[]|err]; [|split_and!; auto; by apply Hgoal].
  destruct (Z.eqb_spec e 0); [apply wp_ret; split_and!; auto; by apply Hgoal|].
  pose proof (blocks_end_range p b last (view_pruned_u64 _ _)) as Hu. fold e in Hu.
  rewrite (sub64_small e 1) by (unfold is_u64 in Hu; lia).
  apply wp_bind. eapply wp_mono; [apply pruneStates_spec|]. intros [se|err] p4 (Hs4 & Hh4 & Hrtc4).
  - eapply wp_mono; [apply prune_exec_spec|]. intros r5 p5 [Hs5 Hst]. unfold pview. rewrite Hst.
    split_and!; [|by auto|by apply Hgoal]. eapply same_trans; [|exact Hs5]. by eapply same_trans.
  - split_and!; [by eapply same_trans|by auto|by apply Hgoal].
Qed.

Lemma pruneBlocks_spec p :
  wp pruneBlocks (fun _ p' => same p p' /\ (ds_healthy (p_store p) -> ds_healthy (p_store p')) /\
    match view_bound (p_daEnabled p) (pview p) with
    | None => pview p' = pview p
    | Some b => (b <= cfg_KeepRecent (p_cfg p) -> pview p' = pview p) /\ blocks_pruned p b (pview p')
    end) p.
Proof.
  unfold pruneBlocks. apply wp_bind. eapply wp_mono; [apply upper_bound_spec|].
  intros [[b|]|err] p1 (Hs1 & Hv1 & Hh1 & Hr1).
  2-3: cbn [option_bind]; first [apply wp_ret|idtac]; rewrite Hv1; split_and!; try done;
       destruct (view_bound _ _) as [b|]; [|done]; (split; [done|]); apply blocks_pruned_none; intros [Hhe _];
       discriminate (Hr1 Hhe).
  rewrite Hr1. wp_read. assert (Hc1 : p_cfg p1 = p_cfg p) by apply Hs1. rewrite Hc1.
  destruct (Z.leb_spec b (cfg_KeepRecent (p_cfg p))) as [Hle|Hgt].
  { apply wp_ret. rewrite Hv1. split_and!; try done. apply blocks_pruned_none. intros (_ & _ & _ & Hlt & _). lia. }
  apply wp_bind. eapply wp_mono; [apply last_pruned_spec|]. rewrite Hv1.
  intros [l|err] p2 (Hs2 & Hv2 & Hh2 & Hr2); assert (Hs12 : same p p2) by by eapply same_trans.
  2:{ rewrite Hv2. split_and!; [done|auto|lia|]. apply blocks_pruned_none.
      intros (Hhe & _ & _ & _ & Hmk & _). destruct (Hr2 (Hh1 Hhe)) as (bz & Hbz & Hbad). destruct (Hmk bz Hbz). tauto. }
  apply wp_bind. eapply wp_mono; [apply pruneBudget_spec|]. intros [bu|err] p3 [-> Hbu].
  2:{ rewrite Hv2. split_and!; [done|auto|lia|]. apply blocks_pruned_none.
      intros (_ & _ & Hbt & _). destruct Hs12 as (_ & Hbt' & _). congruence. }
  assert (Hbe : Z.max (Z.min (add64 l bu) (sub64 b (cfg_KeepRecent (p_cfg p)))) l = blocks_end p b l).
  { unfold blocks_end. rewrite Hbu. unfold budget. destruct Hs12 as (-> & -> & _). done. }
  rewrite Hbe, Hr2. eapply wp_mono; [apply prune_to_spec; auto|]. intros r p4 (Hs4 & Hh4 & Hb4). split_and!; [done..|lia|done].
Qed.

Lemma view_bound_u64 da v b : view_bound da v = Some b -> is_u64 b.
Proof.
  unfold view_bound. destruct (view_height v) as [h|] eqn:Hh; [|done]. apply view_height_u64 in Hh.
  destruct da; simpl; [|by intros [= <-]]. destruct (sview _ _) as [bz|]; [|done].
  destruct (zlen bz =? 8); [|done]. intros [= <-]. pose proof (uint64_le_range bz). unfold is_u64 in *. lia.
Qed.

Lemma blocks_pruned_keeps p b v' :
  blocks_pruned p b v' ->
  let e := blocks_end p b (view_pruned (pview p) LastPrunedBlockHeightKey) in keeps e e (pview p) v'.
Proof.
  intros (v1 & Hb & Hs & _) e. etrans.
  - eapply keeps_mono; [by eapply block_steps_keep|done|]. pose proof (view_pruned_nonneg (pview p) LastPrunedBlockHeightKey).
    unfold e, blocks_end. lia.
  - eapply keeps_mono; [by eapply state_steps_keep|..]; pose proof (view_pruned_nonneg (pview p) LastPrunedBlockHeightKey);
      unfold e, blocks_end; lia.
Qed.

Lemma pruneMetadata_spec p :
  0 <= cfg_KeepRecent (p_cfg p) -> cfg_KeepRecent (p_cfg p) + 1 < two64 ->
  wp pruneMetadata (fun _ p' => same p p' /\
    match view_height (pview p) with
    | None => pview p' = pview p
    | Some h => (h <= cfg_KeepRecent (p_cfg p) + 1 -> pview p' = pview p) /\ keeps (-1) (h - cfg_KeepRecent (p_cfg p)) (pview p) (pview p')
    end) p.
Proof.
  intros Hk0 Hk1. unfold pruneMetadata. apply wp_bind, wp_on_p_store. eapply wp_mono; [apply Height_spec|].
  intros [h|err] d1 (Hv1 & _ & Hr1); simpl.
  2:{ unfold pview. simpl. rewrite Hv1. split; [done|]. by destruct (view_height _). }
  fold (pview p) in Hr1. rewrite Hr1. wp_read. simpl. rewrite add64_small by lia.
  assert (Hp1 : pview (set_p_store d1 p) = pview p) by done.
  apply view_height_u64 in Hr1. unfold is_u64 in Hr1. destruct (Z.leb_spec h (cfg_KeepRecent (p_cfg p) + 1)).
  { apply wp_ret. rewrite Hp1. by split. }
  rewrite (sub64_small h) by lia. rewrite sub64_small by lia.
  apply wp_bind. eapply wp_mono; [apply pruneStates_spec|]. rewrite Hp1.
  intros r p2 (Hs2 & _ & Hrtc). apply state_steps_keep in Hrtc.
  replace (h - cfg_KeepRecent (p_cfg p) - 1 + 1) with (h - cfg_KeepRecent (p_cfg p)) in Hrtc by lia.
  destruct r as [se|err]; [|split_and!; [done|lia|done]].
  destruct (se =? 0); [apply wp_ret; split_and!; [done|lia|done]|].
  eapply wp_mono; [apply prune_exec_spec|]. intros r3 p3 [Hs3 Hst]. unfold pview at 2 4. rewrite Hst.
  split_and!; [by eapply same_trans|lia|done].
Qed.

(** C18: A tick of the pruner is safe whatever fails during it; it returns no
    error. In the mode that prunes everything the bound is the recorded height,
    or with DA enabled the lower of it and the DA included height; if this bound
    is not known or not above [KeepRecent], nothing changes. Otherwise the
    blocks above the bound less [KeepRecent] are as before, so among them those
    above the bound and the [KeepRecent] last ones up to it, unless the marker
    of an earlier run is already beyond (then those above the marker are), and
    so are the states from that height on: the first retained block is replayed
    on the first of them. In the mode that prunes metadata, which looks at the
    recorded height and not at the DA layer, no block changes, and neither do
    the states from [KeepRecent] below that height on. In any other mode nothing
    changes. The recorded height and the DA included height never change.
    [KeepRecent] is below the largest uint64. *)
Theorem prune_tick_safe p r p' :
  0 <= cfg_KeepRecent (p_cfg p) -> cfg_KeepRecent (p_cfg p) + 1 < two64 ->
  prune_tick p = (r, p') ->
  let keep := cfg_KeepRecent (p_cfg p) in
  let last := view_pruned (pview p) LastPrunedBlockHeightKey in
  r = Ok tt /\
  if bool_decide (cfg_Mode (p_cfg p) = PruningModeMetadata) then
    match view_height (pview p) with
    | None => pview p' = pview p
    | Some h => (h <= keep + 1 -> pview p' = pview p) /\ keeps (-1) (h - keep) (pview p) (pview p')
    end
  else if bool_decide (cfg_Mode (p_cfg p) = PruningModeAll) then
    match view_bound (p_daEnabled p) (pview p) with
    | None => pview p' = pview p
    | Some b => (b <= keep -> pview p' = pview p) /\
                keeps (Z.max last (b - keep)) (Z.max last (b - keep)) (pview p) (pview p')
    end
  else pview p' = pview p.
Proof.
  intros Hk0 Hk1 Hrun keep last. pattern r, p'. eapply wp_run; [|exact Hrun]. unfold prune_tick. wp_read.
  apply wp_bind, wp_attempt. case_bool_decide; [|case_bool_decide].
  - eapply wp_mono; [by apply pruneMetadata_spec|]. intros ? ? [_ Hr]. apply wp_ret. by split.
  - eapply wp_mono; [apply pruneBlocks_spec|]. intros ? p2 (_ & _ & Hr). apply wp_ret. split; [done|].
    destruct (view_bound (p_daEnabled p) (pview p)) as [b|] eqn:Hb; [|done]. destruct Hr as [Hle Hbp].
    split; [done|]. apply view_bound_u64 in Hb. unfold is_u64 in Hb.
    destruct (Z.le_gt_cases b keep) as [Hbk|Hbk]; [by rewrite (Hle Hbk)|].
    eapply keeps_mono; [by apply blocks_pruned_keeps|..]; unfold blocks_end; fold keep last;
      rewrite (sub64_small b keep) by lia; lia.
  - apply wp_ret. by split.
Qed.

(** ** Draining a backlog *)

Abbreviation marker v := (view_pruned v LastPrunedBlockHeightKey).
Definition marker_ok (v : view) : Prop :=
  forall bz, sview v (KMeta LastPrunedBlockHeightKey) = Some bz -> zlen bz = 8 /\ uint64_le bz <> 0.

Lemma block_step_marker to v v' : to < two64 -> block_step to v v' ->
  marker v <= marker v' <= Z.max (marker v) to /\ (marker_ok v -> marker_ok v') /\
  forall h, 0 <= h -> (sview v (KHeader h) = None \/ marker v < h <= marker v') -> sview v' (KHeader h) = None.
Proof.
  intros Hto (e & He & Hp). pose proof (view_pruned_nonneg v LastPrunedBlockHeightKey) as Hnn.
  destruct (Z.le_gt_cases e (marker v)) as [Hle|Hgt].
  { unfold pruned in Hp. destruct (Z.leb_spec e (marker v)); [|lia]. rewrite Hp. split_and!; [lia|lia|done|].
    intros h Hh [|]; [done|lia]. }
  assert (Hu : is_u64 e) by (unfold is_u64; lia).
  pose proof (pruned_blocks_marker e v v' Hu Hp) as Hm. split_and!; [lia|lia| |].
  - intros _ bz Hbz. assert (Hk : sview v' (KMeta LastPrunedBlockHeightKey) = Some (encodeHeight e)).
    { apply (pruned_lookup _ _ _ _ _ (KMeta LastPrunedBlockHeightKey) Hp Hgt I); [|done].
      intros h k' Hh (hb & _ & Hk')%elem_of_prune_keys. naive_solver lia. }
    rewrite Hk in Hbz. injection Hbz as <-. unfold encodeHeight, zlen. rewrite length_put_uint64_le.
    split; [done|]. rewrite uint64_le_put by done. lia.
  - intros h Hh [Hn|Hr]; [|apply (pruned_blocks_header e v v' h Hp); lia].
    destruct (pruned_blocks_lookup e v v' (KHeader h) Hp Hgt Hh ltac:(done)) as [_ Hs]. rewrite Hs; [done|].
    intros h' Hh' (hb & Hhb & Hin)%elem_of_prune_keys. naive_solver.
Qed.

Lemma block_steps_marker to v v' : to < two64 -> rtc (block_step to) v v' ->
  marker v <= marker v' <= Z.max (marker v) to /\ (marker_ok v -> marker_ok v') /\
  forall h, 0 <= h -> (sview v (KHeader h) = None \/ marker v < h <= marker v') -> sview v' (KHeader h) = None.
Proof.
  intros Hto. induction 1 as [v|v1 v2 v3 Hs _ (Hm & Hok & Hg)]; [split_and!; auto; [lia|lia|]; intros h Hh [|]; [done|lia]|].
  destruct (block_step_marker to _ _ Hto Hs) as (Hm1 & Hok1 & Hg1). split_and!; [lia|lia|auto|].
  intros h Hh Hc. apply Hg; [done|]. destruct (Z.le_gt_cases h (marker v2)); [left; apply Hg1; [done|]|]; naive_solver lia.
Qed.

Lemma state_steps_other to v v' k : rtc (state_step to) v v' -> skey_ok k ->
  k <> KMeta LastPrunedStateHeightKey -> (forall h, k <> KState h) -> sview v' k = sview v k.
Proof.
  induction 1 as [v|v1 v2 v3 (e & _ & Hp) _ IH]; intros Hok Hne Hns; [done|].
  rewrite IH by done. by apply (pruned_states_lookup e).
Qed.

Lemma blocks_pruned_progress p b v' : prunable p b -> blocks_pruned p b v' ->
  let e := blocks_end p b (marker (pview p)) in
  marker v' = e /\ marker_ok v' /\
  forall h, 0 <= h -> (sview (pview p) (KHeader h) = None \/ marker (pview p) < h <= e) -> sview v' (KHeader h) = None.
Proof.
  intros Hp (v1 & _ & Hst & Hprog) e. destruct (Hprog Hp) as (v0 & Hrtc & Hlast).
  destruct Hp as (_ & _ & _ & _ & Hmk & Hov & Hlt). fold e in Hrtc, Hlast, Hst, Hov, Hlt.
  assert (He : e < two64) by (unfold maxPruneChunk in *; lia).
  assert (Hall : rtc (block_step e) (pview p) v1) by (eapply rtc_r; [exact Hrtc|exists e; by split]).
  pose proof (view_pruned_nonneg (pview p) LastPrunedBlockHeightKey) as Hnn.
  destruct (block_steps_marker e _ _ He Hall) as (Hm & Hok & Hg).
  destruct (block_steps_marker e _ _ He Hrtc) as (Hm0 & _).
  assert (Hme : marker v1 = e) by (rewrite (pruned_blocks_marker e v0 v1 ltac:(unfold is_u64; lia) Hlast); lia).
  assert (Hk : forall k, skey_ok k -> k <> KMeta LastPrunedStateHeightKey -> (forall h, k <> KState h) -> sview v' k = sview v1 k)
    by (intros; by eapply state_steps_other).
  split_and!.
  - unfold view_pruned. rewrite Hk by done. exact Hme.
  - intros bz. rewrite Hk by done. apply Hok. exact Hmk.
  - intros h Hh Hc. rewrite Hk by done. apply Hg; [done|]. by rewrite Hme.
Qed.

Definition ticks (n : nat) (p : P) : P := Nat.iter n (fun p => (prune_tick p).2) p.

Lemma view_bound_keeps da bb sb v v' : keeps bb sb v v' -> view_bound da v' = view_bound da v.
Proof. intros Hk. unfold view_bound. rewrite (keeps_height _ _ _ _ Hk). destruct Hk as (_ & -> & _). done. Qed.

(** What is assumed of the pruner and its environment while it drains. *)
Definition draining (p : P) (b : Z) : Prop :=
  cfg_Mode (p_cfg p) = PruningModeAll /\ ds_healthy (p_store p) /\ (forall c : V, (ctx_done c).1 = false) /\
  p_blockTime p <> 0 /\ marker_ok (pview p) /\ view_bound (p_daEnabled p) (pview p) = Some b /\
  0 <= cfg_KeepRecent (p_cfg p) < b /\ marker (pview p) + budget p < two64 /\ b + budget p < two64.

Lemma draining_end p b : draining p b ->
  blocks_end p b (marker (pview p)) =
  Z.max (Z.min (marker (pview p) + budget p) (b - cfg_KeepRecent (p_cfg p))) (marker (pview p)).
Proof.
  intros (_ & _ & _ & _ & _ & _ & Hk & Ho1 & Ho2). pose proof (view_pruned_nonneg (pview p) LastPrunedBlockHeightKey).
  assert (maxPruneChunk <= budget p) by (unfold budget; lia). unfold maxPruneChunk in *.
  unfold blocks_end. rewrite add64_small, sub64_small by lia. lia.
Qed.

Lemma draining_tick p b : draining p b ->
  let p' := (prune_tick p).2 in let e := blocks_end p b (marker (pview p)) in
  same p p' /\ draining p' b /\ marker (pview p') = e /\ keeps e e (pview p) (pview p') /\
  forall h, 0 <= h -> (sview (pview p) (KHeader h) = None \/ marker (pview p) < h <= e) -> sview (pview p') (KHeader h) = None.
Proof.
  intros Hd. pose proof (draining_end p b Hd) as Hend. destruct Hd as (Hm & Hhe & Hctx & Hbt & Hmk & Hb & Hk & Ho1 & Ho2).
  assert (Hrun : wp prune_tick (fun _ p' => same p p' /\ ds_healthy (p_store p') /\ blocks_pruned p b (pview p')) p).
  { unfold prune_tick. wp_read. rewrite Hm. apply wp_bind, wp_attempt. simpl.
    eapply wp_mono; [apply pruneBlocks_spec|]. rewrite Hb. intros ? p' (? & ? & _ & ?). apply wp_ret. auto. }
  unfold wp in Hrun. destruct (prune_tick p) as [r p']. simpl in *. destruct Hrun as (Hs & Hh' & Hbp).
  pose proof (view_pruned_nonneg (pview p) LastPrunedBlockHeightKey) as Hnn.
  assert (Hbu : maxPruneChunk <= budget p) by (unfold budget; lia). unfold maxPruneChunk in Hbu.
  pose proof (blocks_pruned_keeps p b _ Hbp) as Hkeep. set (e := blocks_end p b (marker (pview p))) in *.
  assert (Hpr : marker (pview p') = e /\ marker_ok (pview p') /\ forall h, 0 <= h ->
    (sview (pview p) (KHeader h) = None \/ marker (pview p) < h <= e) -> sview (pview p') (KHeader h) = None).
  { destruct (Z.le_gt_cases e (marker (pview p))) as [Hle|Hgt].
    - destruct Hbp as (v1 & Hbs & Hss & _). fold e in Hbs, Hss.
      destruct (block_steps_marker e _ _ ltac:(lia) Hbs) as (Hm1 & Hok1 & Hg1).
      assert (Hsk : forall k, skey_ok k -> k <> KMeta LastPrunedStateHeightKey -> (forall h, k <> KState h) ->
        sview (pview p') k = sview v1 k) by (intros; by eapply state_steps_other).
      unfold view_pruned, marker_ok. rewrite Hsk by done. fold (view_pruned v1 LastPrunedBlockHeightKey).
      split_and!; [lia|by apply Hok1|]. intros h Hh Hc. rewrite Hsk by done. apply Hg1; [done|].
      fold (marker (pview p)) in Hc. destruct Hc; [by left|lia].
    - apply blocks_pruned_progress; [|done]. unfold prunable. fold e.
      split_and!; try done; unfold maxPruneChunk; lia. }
  destruct Hpr as (Hme & Hok & Hg). destruct Hs as (Hc & Ht & Hda). split_and!; [done| |done|done|done].
  unfold draining. rewrite Hc, Ht, Hda, Hme, (view_bound_keeps _ _ _ _ _ Hkeep).
  replace (budget p') with (budget p) by (unfold budget; by rewrite Hc, Ht). split_and!; try done; lia.
Qed.

(** C19: On a healthy store, with a context that is not done, repeated ticks drain
    any backlog: [n] ticks, of at least [maxPruneChunk] heights each, prune the
    chain up to [KeepRecent] blocks below the bound, every header there is gone,
    and all that the bound protects is still there. *)
Theorem pruner_drains_backlog n p b :
  draining p b -> b - cfg_KeepRecent (p_cfg p) - marker (pview p) <= Z.of_nat n * maxPruneChunk ->
  let v' := pview (ticks n p) in let target := Z.max (marker (pview p)) (b - cfg_KeepRecent (p_cfg p)) in
  marker v' = target /\
  (forall h, 0 <= h -> sview (pview p) (KHeader h) = None \/ marker (pview p) < h <= target -> sview v' (KHeader h) = None) /\
  keeps target target (pview p) v'.
Proof.
  revert p. induction n as [|n IH]; intros p Hd Hn.
  { simpl in *. split_and!; [lia| |reflexivity]. intros h Hh [Hc|Hc]; [done|lia]. }
  pose proof (draining_end p b Hd) as Hend. destruct (draining_tick p b Hd) as ((Hc & Ht & _) & Hd1 & Hm1 & Hk1 & Hg1).
  unfold ticks. rewrite Nat.iter_succ_r. fold (ticks n (prune_tick p).2). set (p1 := (prune_tick p).2) in *.
  pose proof (view_pruned_nonneg (pview p) LastPrunedBlockHeightKey) as Hnn.
  assert (maxPruneChunk <= budget p) by (unfold budget; lia). unfold maxPruneChunk in *.
  destruct (IH p1 Hd1) as (Hm & Hg & Hk); [rewrite Hc, Hm1, Hend; lia|]. rewrite Hc, Hm1 in *.
  replace (Z.max (blocks_end p b (marker (pview p))) (b - cfg_KeepRecent (p_cfg p)))
    with (Z.max (marker (pview p)) (b - cfg_KeepRecent (p_cfg p))) in * by lia.
  split_and!; [done| |].
  - intros h Hh Hr. apply Hg; [done|].
    destruct (Z.le_gt_cases h (blocks_end p b (marker (pview p)))); [left; apply Hg1; [done|]|]; naive_solver lia.
  - etrans; [|exact Hk]. eapply keeps_mono; [exact Hk1|lia|lia].
Qed.

End facts.

(** ** The theorems at a concrete store *)

Module PrunerWitness.
Import ProtoInst MemDS StoreWitness.

#[export] Instance no_exec_pruner : ExecPruner unit := { PruneExec _ := mret tt }.
#[export] Instance never_done : Cancellation unit := { ctx_done c := (false, c) }.

(** Three blocks, of which two are included in the DA layer. *)
Definition db3 : memds := (SetMetadata DAIncludedHeightKey (put_uint64_le 2) (commit_at 3 db2)).2.
Definition keep1 : PruningConfig := MkPruning PruningModeAll 1 (60 * second).
Definition pruner1 : Pruner memds unit unit := New_Pruner db3 (Some tt) keep1 second "da" tt.

Lemma prune_tick_safe_witness :
  keeps 1 1 (pview pruner1) (pview (prune_tick pruner1).2) /\ sview (pview pruner1) (KHeader 2) <> None.
Proof.
  assert (Hb : view_bound (p_daEnabled pruner1) (pview pruner1) = Some 2) by (vm_compute; reflexivity).
  assert (Hl : view_pruned (pview pruner1) LastPrunedBlockHeightKey = 0) by (vm_compute; reflexivity).
  destruct (prune_tick_safe pruner1 (prune_tick pruner1).1 (prune_tick pruner1).2) as [_ Hk].
  - cbn [cfg_KeepRecent p_cfg pruner1 New_Pruner keep1]. lia.
  - vm_compute. reflexivity.
  - apply surjective_pairing.
  - rewrite Hb, Hl in Hk. destruct Hk as [_ Hk]. split; [exact Hk|]. vm_compute. discriminate.
Defined.

Lemma pruner_drains_backlog_witness :
  view_pruned (pview (ticks 1 pruner1)) LastPrunedBlockHeightKey = 1 /\
  sview (pview (ticks 1 pruner1)) (KHeader 1) = None.
Proof.
  assert (Hb : view_bound (p_daEnabled pruner1) (pview pruner1) = Some 2) by (vm_compute; reflexivity).
  assert (Hl : view_pruned (pview pruner1) LastPrunedBlockHeightKey = 0) by (vm_compute; reflexivity).
  destruct (pruner_drains_backlog 1 pruner1 2) as (Hm & Hg & _).
  - unfold draining. rewrite Hl, Hb. split; [vm_compute; reflexivity|].
    split; [vm_compute; constructor|]. split; [intros c; reflexivity|]. split; [vm_compute; discriminate|].
    split; [intros bz Hbz; vm_compute in Hbz; discriminate Hbz|]. split; [reflexivity|].
    split; [vm_compute; split; [discriminate|reflexivity]|]. split; vm_compute; reflexivity.
  - rewrite Hl. vm_compute. discriminate.
  - rewrite Hl in *. change (cfg_KeepRecent (p_cfg pruner1)) with 1 in *. split; [exact Hm|].
    apply Hg; [lia|right; lia].
Defined.

End PrunerWitness.
