(* ===== verification/StoreAPI.v ===== *)
(** * The block store as an interface ([pkg/store/types.go])

    The components of [block/internal] reach the store through the Go interface
    [store.Store]. Here it is the class [BlockStore]: its operations, and what
    the store holds ([contents]). [BlockStoreLaws] is its contract: a read
    returns what the store holds or fails because the backend did, a metadata
    write changes one key, and a batch is applied whole or not at all. The block
    store of [Store.v] implements it over any datastore. *)

From stdpp Require Import base gmap strings list numbers.
From S2P Require Import Prelude Sha256 Datastore Types Serialization SerializationFacts.
From S2P Require Import Store StoreFacts.
Open Scope Z_scope.

(** ** Contents *)

(** What each read returns on a backend that does not fail. *)
Record contents (PK : Type) := MkContents
  { c_height : res store_error Z;
    c_header : Z -> res store_error (SignedHeader PK);
    c_block : Z -> res store_error (SignedHeader PK * Data);
    c_signature : Z -> res store_error bytes;
    c_states : Z -> res store_error State;
    c_meta : string -> res store_error bytes }.
Arguments MkContents {PK}.
Arguments c_height {PK}.
Arguments c_header {PK}.
Arguments c_block {PK}.
Arguments c_signature {PK}.
Arguments c_states {PK}.
Arguments c_meta {PK}.

(** Two stores hold the same when every read agrees. *)
Record same_contents {PK} (c d : contents PK) : Prop := MkSame
  { same_height : c_height c = c_height d;
    same_header h : 0 <= h -> c_header c h = c_header d h;
    same_block h : 0 <= h -> c_block c h = c_block d h;
    same_signature h : 0 <= h -> c_signature c h = c_signature d h;
    same_states h : 0 <= h -> c_states c h = c_states d h;
    same_meta k : c_meta c k = c_meta d k }.

#[export] Instance contents_equiv PK : Equiv (contents PK) := same_contents.
#[export] Instance contents_equivalence PK : Equivalence (≡@{contents PK}).
Proof.
  split.
  - intros c. by constructor.
  - intros c d []. constructor; intros; symmetry; auto.
  - intros c d e [A1 A2 A3 A4 A5 A6] [B1 B2 B3 B4 B5 B6].
    constructor; intros; [by rewrite A1|by rewrite A2, B2|by rewrite A3, B3|by rewrite A4, B4|
                          by rewrite A5, B5|by rewrite A6].
Qed.
#[export] Instance c_height_proper PK : Proper ((≡) ==> (=)) (@c_height PK).
Proof. by intros c d []. Qed.
#[export] Instance c_meta_proper PK : Proper ((≡) ==> (=) ==> (=)) (@c_meta PK).
Proof. intros c d [] k ? <-. auto. Qed.

(** [GetState] reads the state at the recorded height. *)
Definition c_state {PK} (c : contents PK) : res store_error State := c_height c ≫= c_states c.

Definition not_found {A} : res store_error A := Err (SDs ErrNotFound).

(** A function changed at one point. *)
Definition upd {K A} `{EqDecision K} (k : K) (a : A) (f : K -> A) : K -> A :=
  fun k' => if decide (k' = k) then a else f k'.

Lemma upd_eq {K A} `{EqDecision K} (k : K) (a : A) f : upd k a f k = a.
Proof. unfold upd. by rewrite decide_True. Qed.
Lemma upd_ne {K A} `{EqDecision K} (k k' : K) (a : A) f : k' <> k -> upd k a f k' = f k'.
Proof. intros. unfold upd. by rewrite decide_False. Qed.

Definition with_meta {PK} (k : string) (v : res store_error bytes) (c : contents PK) : contents PK :=
  MkContents (c_height c) (c_header c) (c_block c) (c_signature c) (c_states c) (upd k v (c_meta c)).

#[export] Instance with_meta_proper PK k v : Proper ((≡) ==> (≡)) (@with_meta PK k v).
Proof.
  intros c d []. constructor; simpl; auto. intros k'. unfold upd. by destruct (decide _).
Qed.

(** ** Staged operations of a batch *)

(** The keys of a block, which a batch may delete. *)
Inductive block_key := BKHeader (h : Z) | BKData (h : Z) | BKSignature (h : Z) | BKIndex (hash : bytes).

Inductive staged (PK : Type) :=
| StBlock (header : SignedHeader PK) (data : Data) (signature : slice)
| StHeight (height : Z)
| StState (state : State)
| StMeta (key : string) (value : bytes)
| StDelete (key : block_key).
Arguments StBlock {PK}.
Arguments StHeight {PK}.
Arguments StState {PK}.
Arguments StMeta {PK}.
Arguments StDelete {PK}.

Section staged.
Context {PK : Type} `{PubKeys PK}.

Definition staged_wf (o : staged PK) : Prop :=
  match o with
  | StBlock header data _ => header_wf (sh_Header header) /\ signer_wf (sh_Signer header) /\ data_wf data
  | StHeight height => is_u64 height
  | StState state => state_wf state
  | StMeta _ _ => True
  | StDelete (BKHeader h | BKData h | BKSignature h) => is_u64 h
  | StDelete (BKIndex _) => True
  end.

(** What is read back after the operation; encoding does not keep the
    difference between nil and empty slices. *)
Definition apply_staged (c : contents PK) (o : staged PK) : contents PK :=
  match o with
  | StBlock header data signature =>
      let h := Header_Height (sh_Header header) in
      let header' := norm_signed_header header SignedHeader_New in
      MkContents (c_height c) (upd h (Ok header') (c_header c))
                 (upd h (Ok (header', norm_data data)) (c_block c))
                 (upd h (Ok (sl signature)) (c_signature c)) (c_states c) (c_meta c)
  | StHeight h => MkContents (Ok h) (c_header c) (c_block c) (c_signature c) (c_states c) (c_meta c)
  | StState s =>
      MkContents (c_height c) (c_header c) (c_block c) (c_signature c)
                 (upd (LastBlockHeight s) (Ok (norm_state s)) (c_states c)) (c_meta c)
  | StMeta k v => with_meta k (Ok v) c
  | StDelete (BKHeader h) =>
      MkContents (c_height c) (upd h not_found (c_header c)) (upd h not_found (c_block c)) (c_signature c) (c_states c) (c_meta c)
  | StDelete (BKData h) =>
      let missing := match c_header c h with Ok _ => not_found | Err e => Err e end in
      MkContents (c_height c) (c_header c) (upd h missing (c_block c)) (c_signature c) (c_states c) (c_meta c)
  | StDelete (BKSignature h) =>
      MkContents (c_height c) (c_header c) (c_block c) (upd h not_found (c_signature c)) (c_states c) (c_meta c)
  | StDelete (BKIndex _) => c
  end.

Definition apply_batch (c : contents PK) (l : list (staged PK)) : contents PK := foldl apply_staged c l.

#[export] Instance apply_staged_proper : Proper ((≡) ==> (=) ==> (≡)) apply_staged.
Proof.
  intros c d Hcd o ? <-. destruct o as [hd dt sg|h|st|k v|[h|h|h|hash]]; [| | |by apply with_meta_proper| | | |done];
    destruct Hcd as [A1 A2 A3 A4 A5 A6]; constructor; simpl; auto; intros h' Hh'; unfold upd;
    destruct (decide _) as [->|]; auto. by rewrite A2.
Qed.

Lemma apply_staged_equiv c d o : c ≡ d -> apply_staged c o ≡ apply_staged d o.
Proof. intros Hcd. by apply apply_staged_proper. Qed.

#[export] Instance apply_batch_proper : Proper ((≡) ==> (=) ==> (≡)) apply_batch.
Proof.
  intros c d Hcd l ? <-. revert c d Hcd. induction l as [|o l IH]; intros c d Hcd; [done|].
  apply (IH (apply_staged c o) (apply_staged d o)). by rewrite Hcd.
Qed.

End staged.

(** ** The interface *)

Class BlockStore (ST PK : Type) := {
  bs_contents : ST -> contents PK;
  (** The backend will not fail any more. *)
  bs_healthy : ST -> Prop;
  st_Height : M ST store_error Z;
  st_GetHeader : Z -> M ST store_error (SignedHeader PK);
  st_GetBlockData : Z -> M ST store_error (SignedHeader PK * Data);
  st_GetSignature : Z -> M ST store_error bytes;
  st_GetState : M ST store_error State;
  st_GetStateAtHeight : Z -> M ST store_error State;
  st_GetMetadata : string -> M ST store_error bytes;
  st_SetMetadata : string -> bytes -> M ST store_error unit;
  st_DeleteMetadata : string -> M ST store_error unit;
  bs_batch : Type;
  st_NewBatch : M ST store_error bs_batch;
  batch_SaveBlockData : SignedHeader PK -> Data -> slice -> bs_batch -> M ST store_error bs_batch;
  batch_SetHeight : Z -> bs_batch -> M ST store_error bs_batch;
  batch_UpdateState : State -> bs_batch -> M ST store_error bs_batch;
  (** [Put] of a metadata key, and [Delete] of a key of a block. *)
  batch_PutMeta : string -> bytes -> bs_batch -> M ST store_error bs_batch;
  batch_Delete : block_key -> bs_batch -> M ST store_error bs_batch;
  batch_Commit : bs_batch -> M ST store_error unit;
  (** The operations that a batch has staged. *)
  bs_staged : bs_batch -> list (staged PK) -> Prop
}.
Arguments bs_batch ST PK {_}.

Section contract.
Context {ST PK : Type} `{BlockStore ST PK} `{!PubKeys PK}.

(** An operation that changes nothing and returns [f] of the contents, unless
    the backend failed. *)
Definition reads {A} (m : M ST store_error A) (f : contents PK -> res store_error A) : Prop :=
  forall s, wp m (fun r s' =>
    bs_contents s' ≡ bs_contents s /\ (bs_healthy s -> bs_healthy s') /\
    (r = f (bs_contents s) \/ (~ bs_healthy s /\ exists e, r = Err e /\ e <> SDs ErrNotFound))) s.

(** An operation that changes the contents as [f] says, or fails and changes nothing. *)
Definition writes (m : M ST store_error unit) (f : contents PK -> contents PK) : Prop :=
  forall s, wp m (fun r s' =>
    (bs_healthy s -> bs_healthy s') /\
    match r with
    | Ok _ => bs_contents s' ≡ f (bs_contents s)
    | Err e => bs_contents s' ≡ bs_contents s /\ ~ bs_healthy s
    end) s.

(** An operation that stages [f] of the contents. *)
Definition stages_ops (m : bs_batch ST PK -> M ST store_error (bs_batch ST PK))
  (f : contents PK -> list (staged PK) -> Prop) : Prop :=
  forall b l s, bs_staged b l -> wp (m b) (fun r s' =>
    bs_contents s' ≡ bs_contents s /\ (bs_healthy s -> bs_healthy s') /\
    match r with
    | Ok b' => exists l', f (bs_contents s) l' /\ bs_staged b' (l ++ l')
    | Err _ => True
    end) s.

Class BlockStoreLaws := {
  Height_law : reads st_Height c_height;
  GetHeader_law h : is_u64 h -> reads (st_GetHeader h) (fun c => c_header c h);
  GetBlockData_law h : is_u64 h -> reads (st_GetBlockData h) (fun c => c_block c h);
  GetSignature_law h : is_u64 h -> reads (st_GetSignature h) (fun c => c_signature c h);
  GetState_law : reads st_GetState c_state;
  GetStateAtHeight_law h : is_u64 h -> reads (st_GetStateAtHeight h) (fun c => c_states c h);
  GetMetadata_law k : reads (st_GetMetadata k) (fun c => c_meta c k);
  SetMetadata_law k v : writes (st_SetMetadata k v) (with_meta k (Ok v));
  DeleteMetadata_law k : writes (st_DeleteMetadata k) (with_meta k not_found);
  NewBatch_law s : wp st_NewBatch (fun r s' =>
    bs_contents s' ≡ bs_contents s /\ (bs_healthy s -> bs_healthy s') /\
    match r with Ok b => bs_staged b [] | Err _ => True end) s;
  SaveBlockData_law header data signature :
    stages_ops (batch_SaveBlockData header data signature) (fun _ l => l = [StBlock header data signature]);
  SetHeight_law h :
    stages_ops (batch_SetHeight h) (fun c l =>
      exists h0, c_height c = Ok h0 /\ l = if h <=? h0 then [] else [StHeight h]);
  UpdateState_law state : stages_ops (batch_UpdateState state) (fun _ l => l = [StState state]);
  PutMeta_law k v : stages_ops (batch_PutMeta k v) (fun _ l => l = [StMeta k v]);
  Delete_law k : stages_ops (batch_Delete k) (fun _ l => l = [StDelete k]);
  Commit_law b l : bs_staged b l -> Forall staged_wf l -> writes (batch_Commit b) (fun c => apply_batch c l);
  contents_u64 s h : c_height (bs_contents s) = Ok h -> is_u64 h
}.

End contract.
Arguments BlockStoreLaws ST PK {_ _}.

(** ** The block store implements the interface *)

Section instance.
Context {DB : Type} `{DatastoreLaws DB} `{HashTextLaws}.
Context {PK : Type} `{PubKeysLaws PK} `{WireLaws}.
Context `{ProtoMsg pbVersion, ProtoMsg pbHeader, ProtoMsg pbSignedHeader,
          ProtoMsg pbMetadata, ProtoMsg pbData, ProtoMsg pbState}.
Context `{!ProtoLaws pbHeader norm_pbHeader pbHeader_ok,
          !ProtoLaws pbSignedHeader norm_pbSignedHeader pbSignedHeader_ok,
          !ProtoLaws pbData norm_pbData pbData_ok,
          !ProtoLaws pbState norm_pbState pbState_ok}.

(** The reads, as functions of the database's contents. *)
Definition view_get (v : view) (k : string) : res store_error bytes :=
  match v !! k with Some b => Ok b | None => not_found end.

Definition decode_header (blob : bytes) : res store_error (SignedHeader PK) :=
  let '(r, header) := SignedHeader_UnmarshalBinary blob SignedHeader_New in
  _ ← types r; Ok header.

Definition decode_data (blob : bytes) : res store_error Data :=
  let '(r, data) := Data_UnmarshalBinary blob Data_New in
  _ ← types r; Ok data.

Definition view_Height (v : view) : res store_error Z :=
  match v !! getHeightKey with None => Ok 0 | Some b => decodeHeight b end.
Definition view_header (v : view) (h : Z) : res store_error (SignedHeader PK) :=
  view_get v (getHeaderKey h) ≫= decode_header.
Definition view_block (v : view) (h : Z) : res store_error (SignedHeader PK * Data) :=
  header ← view_header v h;
  data ← view_get v (getDataKey h) ≫= decode_data;
  Ok (header, data).
Definition view_states (v : view) (h : Z) : res store_error State :=
  view_get v (getStateAtHeightKey h) ≫= decode_state.

Definition view_contents (v : view) : contents PK :=
  MkContents (view_Height v) (view_header v) (view_block v) (fun h => view_get v (getSignatureKey h))
             (view_states v) (fun k => view_get v (GetMetaKey k)).

(** A method of a batch, as a function of the operations staged before it. *)
Definition on_batch (m : BM (DB := DB) unit) (b : list bop) : M DB store_error (list bop) :=
  fun d => match m (d, b) with
           | (Ok _, (d', b')) => (Ok b', d')
           | (Err e, (d', _)) => (Err e, d')
           end.

Definition block_key_string (k : block_key) : string :=
  match k with
  | BKHeader h => getHeaderKey h
  | BKData h => getDataKey h
  | BKSignature h => getSignatureKey h
  | BKIndex hash => GetIndexKey hash
  end.

(** The database operations behind one staged operation. *)
Definition staged_bops (o : staged PK) (ops : list bop) : Prop :=
  match o with
  | StBlock header data signature => exists hb db,
      marshal_signed_header header = Ok hb /\ Data_MarshalBinary clean_data clean_metadata data = Ok db /\
      let h := Header_Height (sh_Header header) in
      ops = sop_bop <$> [SPut (KHeader h) hb; SPut (KData h) db; SPut (KSignature h) (sl signature);
                         SPut (KIndex (Sha256.sum256 hb)) (encodeHeight h)]
  | StHeight h => ops = [BPut getHeightKey (encodeHeight h)]
  | StState state => exists sb, State_MarshalBinary clean_state clean_version state = Ok sb /\
      ops = [BPut (getStateAtHeightKey (LastBlockHeight state)) sb]
  | StMeta k v => ops = [BPut (GetMetaKey k) v]
  | StDelete k => ops = [BDelete (block_key_string k)]
  end.

Definition staged_rel (b : list bop) (l : list (staged PK)) : Prop :=
  exists opss, b = concat opss /\ Forall2 staged_bops l opss.

#[export] Instance store_block_store : BlockStore DB PK := {
  bs_contents d := view_contents (ds_view d);
  bs_healthy := ds_healthy;
  st_Height := Height;
  st_GetHeader := GetHeader;
  st_GetBlockData := GetBlockData;
  st_GetSignature := GetSignature;
  st_GetState := GetState;
  st_GetStateAtHeight := GetStateAtHeight;
  st_GetMetadata := GetMetadata;
  st_SetMetadata := SetMetadata;
  st_DeleteMetadata := DeleteMetadata;
  bs_batch := list bop;
  st_NewBatch := _ ← NewBatch; mret [];
  batch_SaveBlockData header data signature := on_batch (Batch_SaveBlockData header data signature);
  batch_SetHeight h := on_batch (Batch_SetHeight h);
  batch_UpdateState state := on_batch (Batch_UpdateState state);
  batch_PutMeta k v := on_batch (Batch_Put (GetMetaKey k) v);
  batch_Delete k := on_batch (Batch_Delete (block_key_string k));
  batch_Commit b := fun d => let '(r, (d', _)) := Batch_Commit (d, b) in (r, d');
  bs_staged := staged_rel
}.

(** Reads compose. *)
Definition view_reads {A} (m : M DB store_error A) (f : view -> res store_error A) : Prop :=
  forall d, wp m (fun r d' => ds_view d' = ds_view d /\ (ds_healthy d -> ds_healthy d') /\
    (r = f (ds_view d) \/ (~ ds_healthy d /\ exists e, r = Err e /\ e <> SDs ErrNotFound))) d.

Lemma view_reads_get k : view_reads (db (ds_get k)) (fun v => view_get v k).
Proof.
  intros d. unfold db, view_get. apply wp_wrap. eapply wp_mono; [apply get_law|].
  intros [b|[]] d' (Hv & Hh & Hr); simpl; split_and!; try done; try (by rewrite Hr; left).
  right. split; [done|]. by exists (SDs ErrIO).
Qed.

Lemma view_reads_lift {A} (r : res store_error A) : view_reads (lift_res r) (fun _ => r).
Proof. intros d. apply wp_lift_res. auto. Qed.

Lemma view_reads_bind {A B} (m : M DB store_error A) (k : A -> M DB store_error B) f g :
  view_reads m f -> (forall a, view_reads (k a) (g a)) -> view_reads (m ≫= k) (fun v => f v ≫= fun a => g a v).
Proof.
  intros Hm Hk d. apply wp_bind. eapply wp_mono; [apply Hm|].
  intros [a|e] d1 (Hv & Hh & Hr).
  - destruct Hr as [Hr|(? & e & ? & _)]; [|done]. rewrite <- Hr. cbn [mbind res_bind].
    eapply wp_mono; [apply Hk|]. intros r d2 (Hv2 & Hh2 & Hr2). rewrite Hv in *.
    split_and!; [done|tauto|]. destruct Hr2 as [->|[Hn He]]; [by left|right; tauto].
  - split_and!; [done..|]. destruct Hr as [Hr|(Hn & e' & ? & ?)].
    + left. by rewrite <- Hr.
    + right. split; [done|]. exists e'. by simplify_eq.
Qed.

Lemma view_reads_ext {A} (m : M DB store_error A) f g :
  view_reads m f -> (forall v, f v = g v) -> view_reads m g.
Proof. intros Hm Hfg d. eapply wp_mono; [apply Hm|]. intros r d'. by rewrite Hfg. Qed.

Lemma view_reads_reads {A} (m : M DB store_error A) f (g : contents PK -> res store_error A) :
  view_reads m f -> (forall v, f v = g (view_contents v)) -> reads m g.
Proof.
  intros Hm Hfg d. eapply wp_mono; [apply Hm|]. intros r d' (Hv & Hh & Hr). simpl.
  rewrite Hv, <- Hfg. done.
Qed.

Lemma view_reads_Height : view_reads Height view_Height.
Proof.
  intros d. unfold Height, view_Height. apply wp_bind, wp_attempt. eapply wp_mono; [apply get_law|].
  intros [b|[]] d' (Hv & Hh & Hr); simpl.
  - apply wp_lift_res. rewrite Hr. auto.
  - apply wp_ret. rewrite Hr. auto.
  - apply wp_throw. split_and!; try done. right. split; [done|]. by exists (SDs ErrIO).
Qed.

Lemma view_reads_decode {A B} (p : res terror unit * A) (k : A -> M DB store_error B) g :
  (forall a, view_reads (k a) (g a)) ->
  view_reads (let '(r, a) := p in _ ← lift_res (types r); k a)
             (fun v => (let '(r, a) := p in _ ← types r; Ok a) ≫= fun a => g a v).
Proof.
  intros Hk. destruct p as [r a]. eapply view_reads_ext.
  - apply view_reads_bind with (g := fun _ v => g a v); [apply view_reads_lift|]. intros _. apply Hk.
  - intros v. by destruct (types r) as [[]|].
Qed.

Lemma view_reads_ret {A} (a : A) : view_reads (mret a) (fun _ => Ok a).
Proof. intros d. apply wp_ret. auto. Qed.

Lemma view_reads_GetHeader h : view_reads (GetHeader h) (fun v => view_header v h).
Proof.
  unfold GetHeader, view_header. eapply view_reads_ext.
  - eapply view_reads_bind; [apply view_reads_get|]. intros blob.
    eapply view_reads_decode. intros a. apply view_reads_ret.
  - intros v. cbn beta. destruct (view_get v _) as [b|]; [|done]. cbn [mbind res_bind]. unfold decode_header.
    destruct (SignedHeader_UnmarshalBinary b SignedHeader_New) as [[[]|] ?]; done.
Qed.

Lemma view_reads_GetBlockData h : view_reads (GetBlockData h) (fun v => view_block v h).
Proof.
  unfold GetBlockData, view_block. eapply view_reads_ext.
  - eapply view_reads_bind; [apply view_reads_GetHeader|]. intros header.
    eapply view_reads_bind; [apply view_reads_get|]. intros blob.
    eapply view_reads_decode. intros a. apply view_reads_ret.
  - intros v. cbn beta. destruct (view_header v h) as [hd|]; [|done]. cbn [mbind res_bind].
    destruct (view_get v _) as [b|]; [|done]. cbn [mbind res_bind]. unfold decode_data.
    destruct (Data_UnmarshalBinary b Data_New) as [[[]|] ?]; done.
Qed.

Lemma view_reads_GetState : view_reads GetState (fun v => view_Height v ≫= view_states v).
Proof.
  unfold GetState. eapply view_reads_ext.
  - eapply view_reads_bind; [apply view_reads_Height|]. intros h.
    eapply view_reads_bind with (g := fun b _ => decode_state b); [apply view_reads_get|].
    intros b. apply view_reads_lift.
  - done.
Qed.

Lemma view_reads_GetStateAtHeight h : view_reads (GetStateAtHeight h) (fun v => view_states v h).
Proof.
  unfold GetStateAtHeight, view_states. eapply view_reads_ext.
  - eapply view_reads_bind with (g := fun b _ => decode_state b); [apply view_reads_get|].
    intros b. apply view_reads_lift.
  - done.
Qed.

(** Staging. *)

Lemma on_batch_stages m f e (g : contents PK -> list (staged PK) -> Prop) :
  stages m f e ->
  (forall v u ops, f v u ops -> exists l opss, g (view_contents v) l /\ ops = concat opss /\ Forall2 staged_bops l opss) ->
  stages_ops (on_batch m) g.
Proof.
  intros Hm Hfg b l d (opss & -> & Hl). specialize (Hm d (concat opss)). unfold wp, on_batch in *.
  destruct (m (d, concat opss)) as [[u|err] [d' b']]; simpl in *.
  - destruct Hm as (Hv & Hh & lops & -> & Hf). rewrite Hv. split_and!; [done..|].
    destruct (Hfg _ _ _ Hf) as (l' & opss' & Hg & -> & Hl'). exists l'. split; [done|].
    exists (opss ++ opss'). split; [by rewrite concat_app|]. by apply Forall2_app.
  - destruct Hm as (Hv & Hh & _). by rewrite Hv.
Qed.

Definition any_error (_ : view) (_ : store_error) : Prop := True.

Lemma view_Height_ok v h : view_height v = Some h -> view_Height v = Ok h.
Proof.
  unfold view_height, view_Height, decodeHeight, heightLength.
  destruct (v !! getHeightKey) as [b|]; [|by intros [= ->]].
  destruct (zlen b =? 8); [|done]. by intros [= ->].
Qed.

(** ** Commits: the database operations of well-formed staged operations
    change the contents as [apply_staged] says *)

(** Reads after puts. *)
Ltac read_puts :=
  constructor; cbn [view_contents apply_staged with_meta c_height c_header c_block c_signature c_states c_meta];
  intros; unfold view_Height, view_header, view_block, view_header, view_states, view_get.

Lemma staged_block_view header data signature hb dbz v :
  marshal_signed_header header = Ok hb -> Data_MarshalBinary clean_data clean_metadata data = Ok dbz ->
  staged_wf (StBlock header data signature) ->
  let h := Header_Height (sh_Header header) in
  view_contents (apply_bops v (sop_bop <$> [SPut (KHeader h) hb; SPut (KData h) dbz;
    SPut (KSignature h) (sl signature); SPut (KIndex (Sha256.sum256 hb)) (encodeHeight h)]))
  ≡ apply_staged (view_contents v) (StBlock header data signature).
Proof.
  intros Hhb Hdb (Hwf & Hsi & Hdw) h. assert (Hh : 0 <= h) by apply Hwf.
  set (L := [_; _; _; _]).
  assert (Hk : forall k, skey_ok k -> sview (apply_bops v (sop_bop <$> L)) k = foldl sapply (sview v) L k).
  { intros k Hk. apply apply_sops; [repeat constructor; simpl; lia|done]. }
  revert Hk. generalize (apply_bops v (sop_bop <$> L)). intros w Hk.
  assert (Hhd : decode_header hb = Ok (norm_signed_header header SignedHeader_New)).
  { unfold decode_header. by rewrite (signed_header_decode clean_signed_header clean_header clean_version
      clean_signer header SignedHeader_New hb Hwf Hsi Hhb). }
  assert (Hdd : decode_data dbz = Ok (norm_data data)).
  { unfold decode_data. by rewrite (data_decode clean_data clean_metadata data Data_New dbz Hdw Hdb). }
  assert (K1 : w !! getHeightKey = v !! getHeightKey) by apply (Hk KHeight I).
  assert (K2 : forall k, w !! GetMetaKey k = v !! GetMetaKey k) by (intros k; apply (Hk (KMeta k) I)).
  assert (K3 : forall h', 0 <= h' -> w !! getHeaderKey h' = if decide (h' = h) then Some hb else v !! getHeaderKey h').
  { intros h' Hh'. etrans; [apply (Hk (KHeader h') Hh')|]. simpl. by repeat case_decide; simplify_eq. }
  assert (K4 : forall h', 0 <= h' -> w !! getDataKey h' = if decide (h' = h) then Some dbz else v !! getDataKey h').
  { intros h' Hh'. etrans; [apply (Hk (KData h') Hh')|]. simpl. by repeat case_decide; simplify_eq. }
  assert (K5 : forall h', 0 <= h' ->
    w !! getSignatureKey h' = if decide (h' = h) then Some (sl signature) else v !! getSignatureKey h').
  { intros h' Hh'. etrans; [apply (Hk (KSignature h') Hh')|]. simpl. by repeat case_decide; simplify_eq. }
  assert (K6 : forall h', 0 <= h' -> w !! getStateAtHeightKey h' = v !! getStateAtHeightKey h').
  { intros h' Hh'. apply (Hk (KState h') Hh'). }
  clear Hk. clearbody L. read_puts; rewrite ?K1, ?K2, ?K3, ?K4, ?K5, ?K6 by done; try done;
    unfold upd; fold h; case_decide; try done; cbn [mbind res_bind]; by rewrite ?Hhd, ?Hdd.
Qed.

Lemma staged_height_view h v :
  is_u64 h -> view_contents (apply_bops v [BPut getHeightKey (encodeHeight h)])
              ≡ apply_staged (view_contents v) (StHeight h).
Proof.
  intros Hh. unfold apply_bops; cbn [foldl apply_bop]. read_puts; rewrite ?lookup_insert_eq; [by apply decodeHeight_encode|..];
    by rewrite !lookup_insert_ne by done.
Qed.

Lemma staged_state_view state sb v :
  state_wf state -> State_MarshalBinary clean_state clean_version state = Ok sb ->
  view_contents (apply_bops v [BPut (getStateAtHeightKey (LastBlockHeight state)) sb])
  ≡ apply_staged (view_contents v) (StState state).
Proof.
  intros Hwf Hsb. assert (Hh : 0 <= LastBlockHeight state) by apply Hwf.
  unfold apply_bops; cbn [foldl apply_bop]. read_puts; try by rewrite !lookup_insert_ne by done.
  unfold upd. case_decide as Heq.
  - rewrite Heq, lookup_insert_eq. cbn [mbind res_bind]. by apply decode_state_marshal.
  - rewrite lookup_insert_ne; [done|]. intros Hs. apply Heq.
    by pose proof (skey_string_inj (KState (LastBlockHeight state)) (KState h) Hh ltac:(done) Hs) as [= ->].
Qed.

Lemma put_meta_view k x v : view_contents (<[GetMetaKey k := x]> v) ≡ with_meta k (Ok x) (view_contents v).
Proof.
  read_puts; try by rewrite !lookup_insert_ne by done. unfold upd. case_decide as Hk; subst.
  - by rewrite lookup_insert_eq.
  - rewrite lookup_insert_ne; [done|]. intros Hs. apply Hk.
    by pose proof (skey_string_inj (KMeta k) (KMeta k0) I I Hs) as [= ->].
Qed.

Lemma delete_key_view k v :
  staged_wf (StDelete k) ->
  view_contents (apply_bops v [BDelete (block_key_string k)]) ≡ apply_staged (view_contents v) (StDelete k).
Proof.
  intros Hk. set (sk := match k with BKHeader h => KHeader h | BKData h => KData h | BKSignature h => KSignature h | BKIndex x => KIndex x end).
  assert (Hsk : skey_ok sk) by (destruct k; simpl in *; apply Hk || exact I).
  assert (Hw : forall k', skey_ok k' -> sview (apply_bops v [BDelete (block_key_string k)]) k' = if decide (k' = sk) then None else sview v k').
  { intros k' Hk'. replace [BDelete (block_key_string k)] with (sop_bop <$> [SDel sk]) by by destruct k.
    rewrite apply_sops; [done|by repeat constructor|done]. }
  revert Hw. generalize (apply_bops v [BDelete (block_key_string k)]). intros w Hw.
  assert (K1 : w !! getHeightKey = v !! getHeightKey) by (etrans; [apply (Hw KHeight I)|]; by destruct k).
  assert (K2 : forall x, w !! GetMetaKey x = v !! GetMetaKey x) by (intros x; etrans; [apply (Hw (KMeta x) I)|]; by destruct k).
  assert (K3 : forall h, 0 <= h -> w !! getStateAtHeightKey h = v !! getStateAtHeightKey h)
    by (intros h Hh; etrans; [apply (Hw (KState h) Hh)|]; by destruct k).
  pose proof (fun h (Hh : 0 <= h) => Hw (KHeader h) Hh) as K4. pose proof (fun h (Hh : 0 <= h) => Hw (KData h) Hh) as K5.
  pose proof (fun h (Hh : 0 <= h) => Hw (KSignature h) Hh) as K6. unfold sview in K4, K5, K6. simpl in K4, K5, K6. clear Hw.
  destruct k as [h|h|h|hash]; simpl in sk; subst sk; read_puts; rewrite ?K1, ?K2, ?K3, ?K4, ?K5, ?K6 by done;
    unfold upd; repeat case_decide; simplify_eq; try done.
Qed.

Lemma staged_view o ops v :
  staged_bops o ops -> staged_wf o -> view_contents (apply_bops v ops) ≡ apply_staged (view_contents v) o.
Proof.
  destruct o as [header data signature|h|state|k x|k].
  - intros (hb & dbz & Hhb & Hdb & ->). by apply staged_block_view.
  - intros ->. apply staged_height_view.
  - intros (sb & Hsb & ->) Hwf. by apply staged_state_view.
  - intros -> _. apply put_meta_view.
  - intros ->. apply delete_key_view.
Qed.

Lemma batch_view l opss v :
  Forall2 staged_bops l opss -> Forall staged_wf l ->
  view_contents (apply_bops v (concat opss)) ≡ apply_batch (view_contents v) l.
Proof.
  intros Hl. revert v. induction Hl as [|o ops l opss Ho Hl IH]; intros v Hwf; [done|].
  apply Forall_cons_1 in Hwf as [Ho' Hwf]. simpl. rewrite apply_bops_app, IH by done.
  unfold apply_batch. simpl. apply apply_batch_proper; [by apply staged_view|done].
Qed.

Lemma delete_meta_view k v : view_contents (delete (GetMetaKey k) v) ≡ with_meta k not_found (view_contents v).
Proof.
  read_puts; try by rewrite !lookup_delete_ne by done. unfold upd. case_decide as Hk; subst.
  - by rewrite lookup_delete_eq.
  - rewrite lookup_delete_ne; [done|]. intros Hs. apply Hk.
    by pose proof (skey_string_inj (KMeta k) (KMeta k0) I I Hs) as [= ->].
Qed.

#[export] Instance store_block_store_laws : BlockStoreLaws DB PK.
Proof.
  split.
  - eapply view_reads_reads; [apply view_reads_Height|done].
  - intros h _. eapply view_reads_reads; [apply view_reads_GetHeader|done].
  - intros h _. eapply view_reads_reads; [apply view_reads_GetBlockData|done].
  - intros h _. eapply view_reads_reads; [apply view_reads_get|done].
  - eapply view_reads_reads; [apply view_reads_GetState|done].
  - intros h _. eapply view_reads_reads; [apply view_reads_GetStateAtHeight|done].
  - intros k. eapply view_reads_reads; [apply view_reads_get|done].
  - intros k v d. apply wp_wrap. eapply wp_mono; [apply put_law|].
    intros [[]|e] d' [Hh Hv]; simpl; split; try done; [rewrite Hv; apply put_meta_view|].
    destruct Hv as [-> ?]. done.
  - intros k d. apply wp_wrap. eapply wp_mono; [apply delete_law|].
    intros [[]|e] d' [Hh Hv]; simpl; split; try done; [rewrite Hv; apply delete_meta_view|].
    destruct Hv as [-> ?]. done.
  - intros d. apply wp_bind. apply wp_wrap. eapply wp_mono; [apply batch_law|].
    intros [[]|e] d' (Hv & Hh & _); simpl; [apply wp_ret|]; cbn; rewrite Hv; split_and!; try done.
    exists []. done.
  - intros header data signature. eapply on_batch_stages; [by apply stages_SaveBlockData with (e := any_error)|].
    intros v u ops (hb & dbz & Hhb & Hdb & ->). exists [StBlock header data signature].
    eexists [_]. split_and!; [done|simpl; by rewrite app_nil_r|]. constructor; [|done]. by exists hb, dbz.
  - intros h. eapply on_batch_stages; [by apply stages_SetHeight with (e := any_error)|].
    intros v u ops (h0 & Hh0 & ->). eexists. exists (if h <=? h0 then [] else [[BPut getHeightKey (encodeHeight h)]]).
    split_and!; [exists h0; split; [by apply view_Height_ok|done]|by destruct (h <=? h0)|].
    destruct (h <=? h0); by repeat constructor.
  - intros state. eapply on_batch_stages.
    + eapply stages_bind with (e := any_error); [by apply stages_lift|intros sb; apply stages_stage].
    + intros v u ops (sb & ? & ? & -> & [Hsb ->] & ->). exists [StState state]. eexists [_].
      split_and!; [done|simpl; by rewrite app_nil_r|]. constructor; [|done]. by exists sb.
  - intros k x. eapply on_batch_stages; [by apply stages_stage with (e := any_error)|].
    intros v u ops ->. exists [StMeta k x]. eexists [_]. split_and!; [done|simpl; by rewrite app_nil_r|]. by constructor.
  - intros k. eapply on_batch_stages; [by apply stages_stage with (e := any_error)|].
    intros v u ops ->. exists [StDelete k]. eexists [_]. split_and!; [done|simpl; by rewrite app_nil_r|]. by constructor.
  - intros b l (opss & -> & Hl) Hwf d. pose proof (commit_law (concat opss) d) as Hc.
    unfold wp, batch_Commit, store_block_store, Batch_Commit, db, wrap in *. simpl.
    destruct (ds_commit (concat opss) d) as [[[]|e] d']; simpl in *; destruct Hc as [Hh Hv]; split; try done.
    + rewrite Hv. by apply batch_view.
    + destruct Hv as [-> ?]. done.
  - intros d h. simpl. unfold view_Height, decodeHeight. destruct (ds_view d !! getHeightKey) as [b|].
    + destruct (negb _); [done|]. intros [= <-]. apply uint64_le_range.
    + by intros [= <-].
Qed.

End instance.
