(* ===== verification/StoreAdapter.v ===== *)
(** * The store adapter ([pkg/store/store_adapter.go])

    The store as the header exchange sees it: what is stored, and in front of it
    the items received from peers that are not stored yet. A call that asks for a
    height to come waits for it.

    Methods run between their waits; the channels of waiting calls have numbers,
    and what the other goroutines do while a call waits is a parameter. Items are
    values: [SetDAHint] on an item of the cache is written back to it. The second
    part has the services that initialize the exchange and publish to it. *)

From S2P Require Import Prelude Sha256 Datastore Types Serialization Store.
From stdpp Require Import base gmap strings list numbers.
Open Scope Z_scope.

Definition maxPendingCacheSize : Z := 10000.

(** [EntityWithDAHint]. *)
Class EntityWithDAHint (H : Type) := {
  it_IsZero : H -> bool;
  it_Height : H -> Z;
  it_Hash : H -> bytes;
  it_DAHint : H -> Z;
  it_SetDAHint : Z -> H -> H
}.

(** [StoreGetter], on the state [G] of the store, and [Store.GetMetadata]. *)
Class StoreGetter (G H : Type) := {
  gt_GetByHeight : Z -> M G store_error H;
  gt_GetByHash : bytes -> M G store_error H;
  gt_Height : M G store_error Z;
  gt_HasAt : Z -> G -> bool * G;
  gt_GetDAHint : Z -> M G store_error Z;
  gt_SetDAHint : Z -> Z -> M G store_error unit;
  gt_GetMetadata : string -> M G store_error bytes
}.

(** ** Waiting for heights *)

Module HeightSub.

(** [heightChs], and the channels that were closed. *)
Record heightSub := MkHeightSub { hs_height : Z; hs_chs : gmap Z (list nat); hs_closed : list nat }.

Definition newHeightSub (initialHeight : Z) : heightSub := MkHeightSub initialHeight ∅ [].
Definition Height (hs : heightSub) : Z := hs_height hs.

Definition notifyUpTo (h : Z) (hs : heightSub) : heightSub :=
  MkHeightSub (hs_height hs) (filter (fun x => ~ x.1 <= h) (hs_chs hs))
    (hs_closed hs ++ concat (map_to_list (filter (fun x => x.1 <= h) (hs_chs hs))).*2).
(** [hs.height.Store(h)], the first half of [SetHeight]. *)
Definition store_height (h : Z) (hs : heightSub) : heightSub := MkHeightSub h (hs_chs hs) (hs_closed hs).
Definition SetHeight (h : Z) (hs : heightSub) : heightSub := notifyUpTo h (store_height h hs).

(** [Wait] up to its select: [None] if the height has elapsed, else the channel
    [ch] is registered. *)
Definition wait_register (height : Z) (ch : nat) (hs : heightSub) : option heightSub :=
  if height <=? hs_height hs then None
  else Some (MkHeightSub (hs_height hs) (<[height := default [] (hs_chs hs !! height) ++ [ch]]> (hs_chs hs)) (hs_closed hs)).

(** The first occurrence. *)
Fixpoint remove_ch (target : nat) (chs : list nat) : list nat :=
  match chs with
  | [] => []
  | ch :: rest => if Nat.eqb ch target then rest else ch :: remove_ch target rest
  end.
Definition removeWaiter (height : Z) (target : nat) (hs : heightSub) : heightSub :=
  match hs_chs hs !! height with
  | None => hs
  | Some chs =>
      let chs' := remove_ch target chs in
      MkHeightSub (hs_height hs)
        (if bool_decide (chs' = []) && bool_decide (target ∈ chs) then delete height (hs_chs hs) else <[height := chs']> (hs_chs hs)) (hs_closed hs)
  end.
End HeightSub.

(** ** Items that are not stored yet *)

Module PendingCache.

Record pendingCache (H : Type) := MkPendingCache
  { pc_items : gmap Z H; pc_byHash : gmap bytes Z; pc_daHints : gmap Z Z; pc_maxHeight : Z }.
Arguments MkPendingCache {H}. Arguments pc_items {H}. Arguments pc_byHash {H}. Arguments pc_daHints {H}. Arguments pc_maxHeight {H}.

Definition newPendingCache {H} : pendingCache H := MkPendingCache ∅ ∅ ∅ 0.

Section cache.
Context {H : Type} `{EntityWithDAHint H}.
Implicit Types (c : pendingCache H).

Definition len c : Z := Z.of_nat (size (pc_items c)).

Definition add (item : H) c : pendingCache H :=
  let height := it_Height item in
  MkPendingCache (<[height := item]> (pc_items c)) (<[it_Hash item := height]> (pc_byHash c))
    (if 0 <? it_DAHint item then <[height := it_DAHint item]> (pc_daHints c) else pc_daHints c)
    (if pc_maxHeight c <? height then height else pc_maxHeight c).

Definition get (height : Z) c : option H := pc_items c !! height.
Definition getByHash (hash : bytes) c : option H := height ← pc_byHash c !! hash; pc_items c !! height.
Definition has (height : Z) c : bool := bool_decide (is_Some (pc_items c !! height)).
Definition hasByHash (hash : bytes) c : bool := bool_decide (is_Some (pc_byHash c !! hash)).
Definition getDAHint (height : Z) c : option Z := pc_daHints c !! height.
Definition setDAHint (height hint : Z) c : pendingCache H :=
  MkPendingCache (pc_items c) (pc_byHash c) (<[height := hint]> (pc_daHints c)) (pc_maxHeight c).
Definition getMaxHeight c : Z := pc_maxHeight c.

Definition max_key (m : gmap Z H) : Z := map_fold (fun h _ acc => Z.max h acc) 0 m.
Definition recalcMaxHeight c : pendingCache H := MkPendingCache (pc_items c) (pc_byHash c) (pc_daHints c) (max_key (pc_items c)).

Definition delete (height : Z) c : pendingCache H :=
  let c1 :=
    match pc_items c !! height with
    | None => c
    | Some item =>
        let c' := MkPendingCache (base.delete height (pc_items c)) (base.delete (it_Hash item) (pc_byHash c)) (pc_daHints c) (pc_maxHeight c) in
        if height =? pc_maxHeight c then recalcMaxHeight c' else c'
    end in
  MkPendingCache (pc_items c1) (pc_byHash c1) (base.delete height (pc_daHints c1)) (pc_maxHeight c1).

(** The highest item and its height, or nothing and 0. *)
Definition head c : option H * Z :=
  if pc_maxHeight c =? 0 then (None, 0)
  else match pc_items c !! pc_maxHeight c with None => (None, 0) | Some item => (Some item, pc_maxHeight c) end.

(** The order in which a Go map is traversed does not matter: every key that goes
    is removed from each map. *)
Definition pruneIf (pred : Z -> bool) c : pendingCache H :=
  let gone := filter (fun x => pred x.1 = true) (pc_items c) in
  let hashes := (it_Hash <$> (map_to_list gone).*2) in
  let c' := MkPendingCache (filter (fun x => ~ pred x.1 = true) (pc_items c))
              (filter (fun x => x.1 ∉ hashes) (pc_byHash c))
              (filter (fun x => gone !! x.1 = None) (pc_daHints c)) (pc_maxHeight c) in
  if bool_decide (is_Some (gone !! pc_maxHeight c)) then recalcMaxHeight c' else c'.

(** A pending item is shared with the callers that have read it. *)
Definition update_item (item : H) c : pendingCache H :=
  MkPendingCache (<[it_Height item := item]> (pc_items c)) (pc_byHash c) (pc_daHints c) (pc_maxHeight c).
End cache.
End PendingCache.

(** ** The adapter *)

Inductive adapter_error := SAEmptyStore | SANotFound | SACanceled | SAStore (e : store_error) | SAHook (msg : string) | SAFuel.

Module Adapter.
Import HeightSub PendingCache.

(** [onDeleteFn] with the state behind it. *)
Record StoreAdapter (G H D : Type) := MkAdapter
  { sa_getter : G;
    sa_genesisInitialHeight : Z;
    sa_heightSub : heightSub;
    sa_initialized : bool;
    sa_pending : pendingCache H;
    sa_onDelete : option D }.
Arguments MkAdapter {G H D}. Arguments sa_getter {G H D}. Arguments sa_genesisInitialHeight {G H D}.
Arguments sa_heightSub {G H D}. Arguments sa_initialized {G H D}. Arguments sa_pending {G H D}. Arguments sa_onDelete {G H D}.

Class DeleteHook (D : Type) := { run_hook : Z -> M D string unit }.
(** What happens while a call waits: the context is done ([false]), or the wait
    is over; the other goroutines may have changed anything. *)
Class Meanwhile (A : Type) := { meanwhile : A -> bool * A }.

Section adapter.
Context {G H D : Type} `{EntityWithDAHint H} `{StoreGetter G H} `{DeleteHook D}.
Abbreviation A := (StoreAdapter G H D).
Definition AM (X : Type) : Type := M A adapter_error X.

Definition set_sa_getter x (a : A) : A := MkAdapter x (sa_genesisInitialHeight a) (sa_heightSub a) (sa_initialized a) (sa_pending a) (sa_onDelete a).
Definition set_sa_heightSub x (a : A) : A := MkAdapter (sa_getter a) (sa_genesisInitialHeight a) x (sa_initialized a) (sa_pending a) (sa_onDelete a).
Definition set_sa_initialized x (a : A) : A := MkAdapter (sa_getter a) (sa_genesisInitialHeight a) (sa_heightSub a) x (sa_pending a) (sa_onDelete a).
Definition set_sa_pending x (a : A) : A := MkAdapter (sa_getter a) (sa_genesisInitialHeight a) (sa_heightSub a) (sa_initialized a) x (sa_onDelete a).
Definition set_sa_onDelete x (a : A) : A := MkAdapter (sa_getter a) (sa_genesisInitialHeight a) (sa_heightSub a) (sa_initialized a) (sa_pending a) x.

Definition on_getter {X} (m : M G store_error X) : AM X := zoom sa_getter set_sa_getter (wrap SAStore m).
Definition ask_getter {X} (f : G -> X * G) : AM X := zoom sa_getter set_sa_getter (infallible f).
Definition on_pending (f : pendingCache H -> pendingCache H) : AM unit := modify (fun a => set_sa_pending (f (sa_pending a)) a).
Definition set_height (h : Z) : AM unit := modify (fun a => set_sa_heightSub (SetHeight h (sa_heightSub a)) a).

Definition NewStoreAdapter (getter : G) (initialHeight : Z) : A :=
  let '(r, getter) := gt_Height getter in
  let storeHeight := match r with Ok h => h | Err _ => 0 end in
  MkAdapter getter (Z.max initialHeight 1) (newHeightSub storeHeight) (0 <? storeHeight) newPendingCache None.

Definition Start : AM unit :=
  h ← on_getter gt_Height;
  if 0 <? h then
    _ ← set_height h;
    modify (set_sa_initialized true)
  else mret tt.

Definition store_height_or_0 : AM Z :=
  r ← attempt (F := adapter_error) (on_getter gt_Height);
  mret (match r with Ok h => h | Err _ => 0 end).

(** The item of the cache, if the store has no head. *)
Definition head_pending (pendingHead : option H) (pendingHeight : Z) : AM H :=
  if 0 <? pendingHeight then
    _ ← set_height pendingHeight;
    match pendingHead with Some item => mret item | None => throw SAEmptyStore end
  else throw SAEmptyStore.
Definition Head : AM H :=
  storeHeight ← store_height_or_0;
  p ← gets sa_pending;
  let '(pendingHead, pendingHeight) := head p in
  if storeHeight <? pendingHeight then head_pending pendingHead pendingHeight else
  if 0 <? storeHeight then
    _ ← set_height storeHeight;
    r ← attempt (on_getter (gt_GetByHeight storeHeight));
    match r with
    | Ok item => mret item
    | Err _ => head_pending pendingHead pendingHeight
    end
  else head_pending pendingHead pendingHeight.

(** [n] heights from [h] on. *)
Fixpoint tail_loop (h : Z) (n : nat) : AM H :=
  match n with
  | O => throw SAEmptyStore
  | S n' =>
      r ← attempt (F := adapter_error) (on_getter (gt_GetByHeight h));
      match r with
      | Ok item => mret item
      | Err _ =>
          p ← gets sa_pending;
          match get h p with Some item => mret item | None => tail_loop (h + 1) n' end
      end
  end.
Definition tail_start : AM Z :=
  g ← gets sa_genesisInitialHeight;
  r ← attempt (F := adapter_error) (on_getter (gt_GetMetadata LastPrunedBlockHeightKey));
  mret (match r with
        | Ok bz =>
            if zlen bz =? heightLength then
              match decodeHeight bz with
              | Ok lastPruned => if g <? add64 lastPruned 1 then add64 lastPruned 1 else g
              | Err _ => g
              end
            else g
        | Err _ => g
        end).
Definition Tail : AM H :=
  cached ← gets (fun a => HeightSub.Height (sa_heightSub a));
  height ← (if cached =? 0 then
              r ← attempt (F := adapter_error) (on_getter gt_Height);
              match r with Ok h => if h =? 0 then throw SAEmptyStore else mret h | Err _ => throw SAEmptyStore end
            else mret cached);
  startHeight ← tail_start;
  r ← attempt (F := adapter_error) (on_getter (gt_GetByHeight startHeight));
  match r with
  | Ok item => mret item
  | Err _ =>
      a ← gets id;
      match get (sa_genesisInitialHeight a) (sa_pending a) with
      | Some item => mret item
      | None => tail_loop (startHeight + 1) (Z.to_nat (height - startHeight))
      end
  end.

(** The item with the hint of the cache or else of the store. *)
Definition applyDAHint (item : H) : AM H :=
  if it_IsZero item then mret item else
  let height := it_Height item in
  p ← gets sa_pending;
  match getDAHint height p with
  | Some hint => mret (it_SetDAHint hint item)
  | None =>
      r ← attempt (F := adapter_error) (on_getter (gt_GetDAHint height));
      match r with
      | Ok diskHint =>
          if 0 <? diskHint then
            _ ← on_pending (setDAHint height diskHint);
            mret (it_SetDAHint diskHint item)
          else mret item
      | Err _ => mret item
      end
  end.
(** The same for an item of the cache, which is changed in place. *)
Definition hint_pending (item : H) : AM H :=
  item' ← applyDAHint item;
  _ ← on_pending (update_item item');
  mret item'.

Definition Get (hash : bytes) : AM H :=
  r ← attempt (F := adapter_error) (on_getter (gt_GetByHash hash));
  match r with
  | Ok item => applyDAHint item
  | Err _ =>
      p ← gets sa_pending;
      match getByHash hash p with Some item => hint_pending item | None => throw SANotFound end
  end.

Definition getByHeightNoWait (height : Z) : AM H :=
  r ← attempt (F := adapter_error) (on_getter (gt_GetByHeight height));
  match r with
  | Ok item => applyDAHint item
  | Err _ =>
      p ← gets sa_pending;
      match get height p with Some item => hint_pending item | None => throw SANotFound end
  end.

Definition Has (hash : bytes) : AM bool :=
  r ← attempt (F := adapter_error) (on_getter (gt_GetByHash hash));
  match r with
  | Ok _ => mret true
  | Err _ => p ← gets sa_pending; mret (hasByHash hash p)
  end.

Definition HasAt (height : Z) : AM bool :=
  stored ← ask_getter (gt_HasAt height);
  if (stored : bool) then mret true else
  p ← gets sa_pending;
  mret (has height p).

Definition Height : AM Z :=
  r ← attempt (F := adapter_error) (on_getter gt_Height);
  let cached : AM Z :=
    a ← gets id;
    let height := HeightSub.Height (sa_heightSub a) in
    mret (if 0 <? height then height else if height <? getMaxHeight (sa_pending a) then getMaxHeight (sa_pending a) else height) in
  match r with
  | Ok h =>
      if 0 <? h then
        p ← gets sa_pending;
        let h' := if h <? getMaxHeight p then getMaxHeight p else h in
        _ ← set_height h';
        mret h'
      else cached
  | Err _ => cached
  end.

Definition prunePersisted : AM unit :=
  r ← attempt (F := adapter_error) (on_getter gt_Height);
  match r with
  | Ok storeHeight => if storeHeight =? 0 then mret tt else on_pending (pruneIf (fun height => height <=? storeHeight))
  | Err _ => mret tt
  end.

Definition Init (item : H) : AM unit :=
  initialized ← gets sa_initialized;
  if (initialized : bool) then mret tt else
  if it_IsZero item then mret tt else
  _ ← on_pending (add item);
  _ ← set_height (it_Height item);
  modify (set_sa_initialized true).

Fixpoint run_hooks (heights : list Z) : AM unit :=
  match heights with
  | [] => mret tt
  | h :: rest =>
      a ← gets id;
      match sa_onDelete a with
      | None => mret tt
      | Some d =>
          let '(r, d') := run_hook h d in
          _ ← modify (set_sa_onDelete (Some d'));
          match r with Ok _ => run_hooks rest | Err e => throw (SAHook e) end
      end
  end.
Definition DeleteRange (from to : Z) : AM unit :=
  _ ← for_each (z_range from (to - 1)) (fun h => on_pending (delete h));
  _ ← run_hooks (z_range from (to - 1));
  h ← gets (fun a => HeightSub.Height (sa_heightSub a));
  if from <=? h then set_height (sub64 from 1) else mret tt.

(** ** Calls that wait *)

Context `{Meanwhile A}.

(** [Wait] on a channel of its own; a call whose context is done removes it. *)
Definition Wait (height : Z) (ch : nat) : AM unit :=
  hs ← gets sa_heightSub;
  match wait_register height ch hs with
  | None => mret tt
  | Some hs' =>
      _ ← modify (set_sa_heightSub hs');
      closed ← infallible meanwhile;
      if (closed : bool) then mret tt else
      _ ← modify (fun a => set_sa_heightSub (removeWaiter height ch (sa_heightSub a)) a);
      throw SACanceled
  end.

Definition GetByHeight (height : Z) (ch : nat) : AM H :=
  r ← attempt (F := adapter_error) (getByHeightNoWait height);
  match r with
  | Ok item => mret item
  | Err _ => _ ← Wait height ch; getByHeightNoWait height
  end.

Fixpoint range_loop (heights : list Z) (ch : nat) (items : list H) : AM (list H) :=
  match heights with
  | [] => mret items
  | h :: rest =>
      r ← attempt (F := adapter_error) (GetByHeight h ch);
      match r with
      | Ok item => range_loop rest (S ch) (items ++ [item])
      | Err _ => match items with [] => throw SANotFound | _ => mret items end
      end
  end.
Definition GetRange (from to : Z) (ch : nat) : AM (list H) :=
  if to <=? from then mret [] else range_loop (z_range from (to - 1)) ch [].
Definition GetRangeByHeight (from : H) (to : Z) (ch : nat) : AM (list H) :=
  if it_IsZero from then throw SANotFound else
  let startHeight := add64 (it_Height from) 1 in
  if to <=? startHeight then mret [] else GetRange startHeight to ch.

(** The loop ends when there is room or the context is done; [fuel] bounds the
    waits. *)
Fixpoint waitForSpace (fuel : nat) : AM unit :=
  n ← gets (fun a => len (sa_pending a));
  if n <? maxPendingCacheSize then mret tt else
  _ ← prunePersisted;
  n ← gets (fun a => len (sa_pending a));
  if n <? maxPendingCacheSize then mret tt else
  match fuel with
  | O => throw SAFuel
  | S fuel' =>
      again ← infallible meanwhile;
      if (again : bool) then waitForSpace fuel' else throw SACanceled
  end.

Definition append_item (fuel : nat) (item : H) : AM unit :=
  if it_IsZero item then mret tt else
  let height := it_Height item in
  stored ← ask_getter (gt_HasAt height);
  if (stored : bool) then mret tt else
  _ ← waitForSpace fuel;
  _ ← on_pending (add item);
  _ ← (if 0 <? it_DAHint item then
         _ ← attempt (F := adapter_error) (on_getter (gt_SetDAHint height (it_DAHint item))); mret tt
       else mret tt);
  h ← gets (fun a => HeightSub.Height (sa_heightSub a));
  if h <? height then set_height height else mret tt.
Definition Append (fuel : nat) (items : list H) : AM unit := for_each items (append_item fuel).
End adapter.
End Adapter.

(** ** Headers and data *)

Section getters.
Context {DB : Type} `{Datastore DB} `{HashText} {PK : Type} `{PubKeys PK} `{Wire}.
Context `{ProtoMsg pbVersion, ProtoMsg pbHeader, ProtoMsg pbSignedHeader, ProtoMsg pbMetadata, ProtoMsg pbData, ProtoMsg pbState}.

#[export] Instance header_entity : EntityWithDAHint (P2PSignedHeader PK) := {
  it_IsZero p := match p2p_SignedHeader p with None => true | Some _ => false end;
  it_Height p := match p2p_SignedHeader p with None => 0 | Some sh => Header_Height (sh_Header sh) end;
  it_Hash p := match p2p_SignedHeader p with None => [] | Some sh => sl (Header_Hash (Some (sh_Header sh))) end;
  it_DAHint := p2p_h_DAHeightHint;
  it_SetDAHint n p := MkP2PSignedHeader (p2p_SignedHeader p) n
}.
(** The height of data without metadata is a nil dereference in the source. *)
#[export] Instance data_entity : EntityWithDAHint P2PData := {
  it_IsZero p := match p2p_Data p with None => true | Some _ => false end;
  it_Height p := match p2p_Data p ≫= d_Metadata with None => 0 | Some m => m_Height m end;
  it_Hash p := match p2p_Data p with None => [] | Some d => Data_Hash d end;
  it_DAHint := p2p_d_DAHeightHint;
  it_SetDAHint n p := MkP2PData (p2p_Data p) n
}.

(** A hint under a metadata key. *)
Definition read_hint (key : string) : M DB store_error Z :=
  data ← GetMetadata key;
  if negb (zlen data =? 8) then throw (SMsg "invalid da hint data length") else mret (uint64_le data).
Definition write_hint (key : string) (daHint : Z) : M DB store_error unit := SetMetadata key (put_uint64_le daHint).
Definition hint_or_0 (m : M DB store_error Z) : M DB store_error Z :=
  r ← attempt m; mret (match r with Ok h => h | Err _ => 0 end).
(** [err == nil]. *)
Definition succeeds {X} (m : M DB store_error X) : DB -> bool * DB := fun d => let '(r, d') := m d in (is_ok r, d').

Definition HeaderStoreGetter_GetDAHint (height : Z) := read_hint (GetHeightToDAHeightHeaderKey height).
Definition HeaderStoreGetter_SetDAHint (height daHint : Z) := write_hint (GetHeightToDAHeightHeaderKey height) daHint.
Definition HeaderStoreGetter_GetByHeight (height : Z) : M DB store_error (P2PSignedHeader PK) :=
  header ← GetHeader height;
  daHint ← hint_or_0 (HeaderStoreGetter_GetDAHint height);
  mret (MkP2PSignedHeader (Some header) daHint).
Definition HeaderStoreGetter_GetByHash (hash : bytes) : M DB store_error (P2PSignedHeader PK) :=
  b ← GetBlockByHash hash;
  daHint ← hint_or_0 (HeaderStoreGetter_GetDAHint (Header_Height (sh_Header b.1)));
  mret (MkP2PSignedHeader (Some b.1) daHint).
#[export] Instance HeaderStoreGetter : StoreGetter DB (P2PSignedHeader PK) := {
  gt_GetByHeight := HeaderStoreGetter_GetByHeight;
  gt_GetByHash := HeaderStoreGetter_GetByHash;
  gt_Height := Store.Height;
  gt_HasAt height := succeeds (GetHeader (PK := PK) height);
  gt_GetDAHint := HeaderStoreGetter_GetDAHint;
  gt_SetDAHint := HeaderStoreGetter_SetDAHint;
  gt_GetMetadata := GetMetadata
}.

Definition DataStoreGetter_GetDAHint (height : Z) := read_hint (GetHeightToDAHeightDataKey height).
Definition DataStoreGetter_SetDAHint (height daHint : Z) := write_hint (GetHeightToDAHeightDataKey height) daHint.
Definition DataStoreGetter_GetByHeight (height : Z) : M DB store_error P2PData :=
  b ← GetBlockData (PK := PK) height;
  daHint ← hint_or_0 (DataStoreGetter_GetDAHint height);
  mret (MkP2PData (Some b.2) daHint).
Definition DataStoreGetter_GetByHash (hash : bytes) : M DB store_error P2PData :=
  b ← GetBlockByHash (PK := PK) hash;
  daHint ← hint_or_0 (DataStoreGetter_GetDAHint (match d_Metadata b.2 with None => 0 | Some m => m_Height m end));
  mret (MkP2PData (Some b.2) daHint).
Definition DataStoreGetter : StoreGetter DB P2PData := {|
  gt_GetByHeight := DataStoreGetter_GetByHeight;
  gt_GetByHash := DataStoreGetter_GetByHash;
  gt_Height := Store.Height;
  gt_HasAt height := succeeds (GetBlockData (PK := PK) height);
  gt_GetDAHint := DataStoreGetter_GetDAHint;
  gt_SetDAHint := DataStoreGetter_SetDAHint;
  gt_GetMetadata := GetMetadata
|}.
End getters.

(** * The sync service ([pkg/sync/sync_service.go], [syncer_status.go])

    Starts the exchange of headers or data with peers over the store adapter. The
    exchange, the syncer and the topic are go-header's, an interface here. *)

(** How a broadcast fails: the two reasons that the code tells apart. *)
Inductive broadcast_error := RejectValidationIgnored | RejectValidationFailed | BroadcastOther (msg : string).

Class GoHeader (X H : Type) := {
  gh_GetByHeight : Z -> M X string H;
  gh_syncer_Start : M X string unit;
  gh_syncer_Stop : M X string unit;
  gh_Broadcast : H -> M X broadcast_error unit
}.

Module SyncService.
Import Adapter.

Inductive sync_service_error := SSStore (e : adapter_error) | SSMsg (msg : string).

Record SyncService (G H D X : Type) := MkSyncService
  { ss_store : StoreAdapter G H D;
    ss_p2p : X;
    ss_InitialHeight : Z;
    (** [keepRetryingP2PInit]: a catch-up that needs P2P continuity. *)
    ss_aggregator : bool;
    ss_catchupTimeout : Z;
    ss_peers : bool;
    (** [SyncerStatus.started]. *)
    ss_started : bool;
    ss_storeInitialized : bool;
    ss_p2pInitialized : bool }.
Arguments MkSyncService {G H D X}. Arguments ss_store {G H D X}. Arguments ss_p2p {G H D X}. Arguments ss_InitialHeight {G H D X}.
Arguments ss_aggregator {G H D X}. Arguments ss_catchupTimeout {G H D X}. Arguments ss_peers {G H D X}. Arguments ss_started {G H D X}.
Arguments ss_storeInitialized {G H D X}. Arguments ss_p2pInitialized {G H D X}.

Section service.
Context {G H D X : Type} `{EntityWithDAHint H} `{StoreGetter G H} `{DeleteHook D} `{Meanwhile (StoreAdapter G H D)} `{GoHeader X H}.
Abbreviation S := (SyncService G H D X).
Definition SSM (A : Type) : Type := M S sync_service_error A.

Definition set_ss_store x (s : S) : S := MkSyncService x (ss_p2p s) (ss_InitialHeight s) (ss_aggregator s) (ss_catchupTimeout s) (ss_peers s) (ss_started s) (ss_storeInitialized s) (ss_p2pInitialized s).
Definition set_ss_p2p x (s : S) : S := MkSyncService (ss_store s) x (ss_InitialHeight s) (ss_aggregator s) (ss_catchupTimeout s) (ss_peers s) (ss_started s) (ss_storeInitialized s) (ss_p2pInitialized s).
Definition set_ss_started x (s : S) : S := MkSyncService (ss_store s) (ss_p2p s) (ss_InitialHeight s) (ss_aggregator s) (ss_catchupTimeout s) (ss_peers s) x (ss_storeInitialized s) (ss_p2pInitialized s).
Definition set_ss_storeInitialized x (s : S) : S := MkSyncService (ss_store s) (ss_p2p s) (ss_InitialHeight s) (ss_aggregator s) (ss_catchupTimeout s) (ss_peers s) (ss_started s) x (ss_p2pInitialized s).
Definition set_ss_p2pInitialized x (s : S) : S := MkSyncService (ss_store s) (ss_p2p s) (ss_InitialHeight s) (ss_aggregator s) (ss_catchupTimeout s) (ss_peers s) (ss_started s) (ss_storeInitialized s) x.

Definition on_adapter {A} (m : M (StoreAdapter G H D) adapter_error A) : SSM A := zoom ss_store set_ss_store (wrap SSStore m).
Definition on_p2p {A} (m : M X string A) : SSM A := zoom ss_p2p set_ss_p2p (wrap SSMsg m).

Definition startOnce (startFn : SSM unit) : SSM bool :=
  started ← gets ss_started;
  if (started : bool) then mret false else
  _ ← startFn;
  _ ← modify (set_ss_started true);
  mret true.
Definition stopIfStarted (stopFn : SSM unit) : SSM unit :=
  started ← gets ss_started;
  if negb started then mret tt else
  _ ← stopFn;
  modify (set_ss_started false).

Definition startSyncer : SSM bool := startOnce (on_p2p gh_syncer_Start).

(** Whether this call initialized the store. *)
Definition initStore (fuel : nat) (initial : H) : SSM bool :=
  if it_IsZero initial then throw (SSMsg "failed to initialize the store") else
  r ← attempt (on_adapter Head);
  match r with
  | Ok _ => mret false
  | Err (SSStore SANotFound) | Err (SSStore SAEmptyStore) => _ ← on_adapter (Append fuel [initial]); mret true
  | Err e => throw e
  end.

(** The flag is claimed by one caller, and given back when the store cannot be
    initialized. *)
Definition init_once (fuel : nat) (initial : H) : SSM bool :=
  done ← gets ss_storeInitialized;
  if (done : bool) then mret false else
  _ ← modify (set_ss_storeInitialized true);
  r ← attempt (initStore fuel initial);
  match r with
  | Ok b => mret b
  | Err e => _ ← modify (set_ss_storeInitialized false); throw e
  end.

(** A broadcast that fails is logged at most. *)
Definition WriteToStoreAndBroadcast (fuel : nat) (headerOrData : H) : SSM unit :=
  initial ← gets ss_InitialHeight;
  if initial =? 0 then throw (SSMsg "invalid initial height; cannot be zero") else
  if it_IsZero headerOrData then throw (SSMsg "empty header/data cannot write to store or broadcast") else
  _ ← init_once fuel headerOrData;
  _ ← startSyncer;
  _ ← attempt (F := sync_service_error) (zoom ss_p2p set_ss_p2p (gh_Broadcast headerOrData));
  mret tt.

(** The items of the heights, with the hint. *)
Fixpoint hinted (daHeight : Z) (heights : list Z) (ch : nat) : SSM (list H) :=
  match heights with
  | [] => mret []
  | h :: rest =>
      r ← attempt (on_adapter (GetByHeight h ch));
      match r with
      | Ok v => vs ← hinted daHeight rest (Datatypes.S ch); mret (it_SetDAHint daHeight v :: vs)
      | Err (SSStore SANotFound) => hinted daHeight rest (Datatypes.S ch)
      | Err e => throw e
      end
  end.
Definition AppendDAHint (fuel : nat) (daHeight : Z) (heights : list Z) (ch : nat) : SSM unit :=
  entries ← hinted daHeight heights ch;
  on_adapter (Append fuel entries).

(** The height to start from: that of the head, or the first one. *)
Definition height_to_query : SSM Z :=
  head ← attempt (on_adapter Head);
  match head with
  | Ok h => mret (it_Height h)
  | Err (SSStore SANotFound) | Err (SSStore SAEmptyStore) => gets ss_InitialHeight
  | Err e => throw e
  end.
Definition fetch_and_start (fuel : nat) (height : Z) : SSM bool :=
  trusted ← on_p2p (gh_GetByHeight height);
  _ ← init_once fuel trusted;
  _ ← startSyncer;
  _ ← modify (set_ss_p2pInitialized true);
  mret true.
Definition tryInitFromP2P (fuel : nat) : SSM bool :=
  heightToQuery ← height_to_query;
  fetch_and_start fuel heightToQuery.

Definition keepRetryingP2PInit (s : S) : bool := ss_aggregator s && (0 <? ss_catchupTimeout s) && ss_peers s.

(** What the select receives after a failed attempt. *)
Inductive retry_event := RDone | RTimeout | RTimer.
(** [None] while the loop waits; the timeout is absent if [giveUpAfter] is 0. *)
Fixpoint retryInitFromP2P (fuel : nat) (timeout : bool) (evs : list retry_event) : SSM (option unit) :=
  r ← attempt (F := sync_service_error) (tryInitFromP2P fuel);
  match r with
  | Ok true => mret (Some tt)
  | _ =>
      match evs with
      | [] => mret None
      | RDone :: _ => throw (SSMsg "context canceled")
      | RTimeout :: rest => if (timeout : bool) then mret (Some tt) else retryInitFromP2P fuel timeout rest
      | RTimer :: rest => retryInitFromP2P fuel timeout rest
      end
  end.
Definition initFromP2PWithRetry (fuel : nat) (peers : nat) (evs : list retry_event) : SSM (option unit) :=
  match peers with
  | O => mret (Some tt)
  | Datatypes.S _ =>
      keep ← gets keepRetryingP2PInit;
      if (keep : bool) then
        r ← attempt (F := sync_service_error) (tryInitFromP2P fuel);
        match r, evs with
        | Ok true, _ => mret (Some tt)
        | _, RDone :: _ => throw (SSMsg "context canceled")
        | _, _ => mret (Some tt)
        end
      else retryInitFromP2P fuel true evs
  end.

(** ** Facts *)

(** The service counts as initialized from peers only with an initialized store
    and a running syncer. *)
Definition ss_inv (s : S) : Prop := ss_p2pInitialized s = true -> ss_storeInitialized s = true /\ ss_started s = true.

Lemma startSyncer_spec (s : S) : wp startSyncer (fun r s' =>
  ss_p2pInitialized s' = ss_p2pInitialized s /\ ss_storeInitialized s' = ss_storeInitialized s /\
  (ss_started s = true -> ss_started s' = true) /\ (is_ok r = true -> ss_started s' = true)) s.
Proof.
  unfold startSyncer, startOnce. wp_read. destruct (ss_started s) eqn:Hs; [by apply wp_ret|]. apply wp_bind, wp_zoom, wp_wrap.
  unfold wp. by destruct (gh_syncer_Start (ss_p2p s)) as [[[]|e] x].
Qed.

(** An operation on the adapter leaves the flags alone. *)
Lemma wp_on_adapter_flags {A} (m : M (StoreAdapter G H D) adapter_error A) (s : S) : wp (on_adapter m) (fun r s' =>
  ss_p2pInitialized s' = ss_p2pInitialized s /\ ss_storeInitialized s' = ss_storeInitialized s /\ ss_started s' = ss_started s) s.
Proof. apply wp_zoom, wp_wrap. unfold wp. by destruct (m (ss_store s)). Qed.

Lemma initStore_flags fuel initial (s : S) : wp (initStore fuel initial) (fun r s' =>
  ss_p2pInitialized s' = ss_p2pInitialized s /\ ss_storeInitialized s' = ss_storeInitialized s /\ ss_started s' = ss_started s) s.
Proof.
  unfold initStore. destruct (it_IsZero initial); [by apply wp_throw|]. apply wp_bind, wp_attempt.
  eapply wp_mono; [apply wp_on_adapter_flags|]. intros [h|e] s1 (A1 & A2 & A3); [by apply wp_ret|].
  assert (Happ : wp (_ ← on_adapter (Append fuel [initial]); mret true) (fun _ s' =>
    ss_p2pInitialized s' = ss_p2pInitialized s /\ ss_storeInitialized s' = ss_storeInitialized s /\ ss_started s' = ss_started s) s1).
  { apply wp_bind. eapply wp_mono; [apply wp_on_adapter_flags|]. intros [[]|e'] s2 (B1 & B2 & B3); rewrite <- A1, <- A2, <- A3; done. }
  destruct e as [[]|]; try exact Happ; by apply wp_throw.
Qed.

Lemma init_once_spec fuel initial (s : S) : wp (init_once fuel initial) (fun r s' =>
  ss_p2pInitialized s' = ss_p2pInitialized s /\ ss_started s' = ss_started s /\
  (ss_storeInitialized s = true -> ss_storeInitialized s' = true) /\ (is_ok r = true -> ss_storeInitialized s' = true)) s.
Proof.
  unfold init_once. wp_read. destruct (ss_storeInitialized s) eqn:Hs; [by apply wp_ret|]. apply wp_bind, wp_modify, wp_bind, wp_attempt.
  eapply wp_mono; [apply initStore_flags|]. intros [b|e] s1 (A1 & A2 & A3); simpl in *; [apply wp_ret; by split_and!|].
  apply wp_bind, wp_modify, wp_throw. by split_and!.
Qed.

Lemma height_to_query_flags (s : S) : wp height_to_query (fun r s' =>
  ss_p2pInitialized s' = ss_p2pInitialized s /\ ss_storeInitialized s' = ss_storeInitialized s /\ ss_started s' = ss_started s) s.
Proof.
  apply wp_bind, wp_attempt. eapply wp_mono; [apply wp_on_adapter_flags|]. intros [h|[[]|]] s1 HA; done.
Qed.

Lemma fetch_and_start_spec fuel n (s : S) : ss_inv s -> wp (fetch_and_start fuel n) (fun r s' =>
  ss_inv s' /\ (r = Ok true -> ss_p2pInitialized s' = true) /\ (is_ok r = false -> ss_p2pInitialized s' = ss_p2pInitialized s)) s.
Proof.
  intros Hinv. apply wp_bind, wp_zoom, wp_wrap. unfold wp at 1. destruct (gh_GetByHeight n (ss_p2p s)) as [[t|e] x]; simpl; [|done].
  apply wp_bind. eapply wp_mono; [apply init_once_spec|]. intros [b|e] s2 (B1 & B2 & B3 & B4); simpl in *.
  2:{ split_and!; [|done|done]. unfold ss_inv. rewrite B1, B2. intros Hp. destruct (Hinv Hp). by auto. }
  apply wp_bind. eapply wp_mono; [apply startSyncer_spec|]. intros [b2|e] s3 (D1 & D2 & D3 & D4).
  - apply wp_bind, wp_modify, wp_ret. split_and!; [|done|done]. intros _. simpl. rewrite D2. auto.
  - split_and!; [|done|intros _; congruence]. unfold ss_inv. rewrite D1, D2, B1. intros Hp. destruct (Hinv Hp).
    split; [by apply B4|]. apply D3. by rewrite B2.
Qed.

(** Publishing a block or fetching one from a peer: a success leaves the store
    initialized and the syncer running, a failure never claims more than was
    there, and only an answer of a peer makes the service count as initialized
    from peers. *)
Theorem sync_service_starts fuel (item : H) (s : S) : ss_inv s ->
  wp (WriteToStoreAndBroadcast fuel item) (fun r s' => ss_inv s' /\ ss_p2pInitialized s' = ss_p2pInitialized s /\
    (r = Ok tt -> ss_storeInitialized s' = true /\ ss_started s' = true)) s /\
  wp (tryInitFromP2P fuel) (fun r s' => ss_inv s' /\ (r = Ok true -> ss_p2pInitialized s' = true) /\
    (is_ok r = false -> ss_p2pInitialized s' = ss_p2pInitialized s)) s.
Proof.
  intros Hinv. split.
  - unfold WriteToStoreAndBroadcast. wp_read. destruct (_ =? 0); [by apply wp_throw|]. destruct (it_IsZero item); [by apply wp_throw|].
    apply wp_bind. eapply wp_mono; [apply init_once_spec|]. intros [b|e] s1 (A1 & A2 & A3 & A4).
    2:{ split_and!; [|done|done]. unfold ss_inv. rewrite A1, A2. intros Hp. destruct (Hinv Hp). by auto. }
    apply wp_bind. eapply wp_mono; [apply startSyncer_spec|]. intros r s2 (B1 & B2 & B3 & B4).
    assert (Hi2 : ss_inv s2).
    { unfold ss_inv. rewrite B1, B2, A1. intros Hp. destruct (Hinv Hp). split; [by apply A4|]. apply B3. by rewrite A2. }
    destruct r as [b2|e]; [|split_and!; [done|congruence|done]]. apply wp_bind, wp_attempt, wp_zoom. unfold wp at 1.
    destruct (gh_Broadcast item (ss_p2p s2)) as [r x]. apply wp_ret. split_and!; [done|simpl; congruence|]. simpl. intros _. rewrite B2. auto.
  - unfold tryInitFromP2P. apply wp_bind. eapply wp_mono; [apply height_to_query_flags|]. intros [n|e] s1 (A1 & A2 & A3).
    + assert (Hi1 : ss_inv s1) by (unfold ss_inv; rewrite A1, A2, A3; done).
      eapply wp_mono; [by apply fetch_and_start_spec|]. rewrite <- A1. done.
    + split_and!; [unfold ss_inv; rewrite A1, A2, A3; done|done|done].
Qed.
End service.
End SyncService.

(** ** No wake-up is lost *)

Module HeightSubFacts.
Import HeightSub.

(** The subscription with what is under way: the heights that were stored but not
    announced yet; every wait so far, and those that were given up. *)
Record shared := MkShared { sh_hs : heightSub; sh_storing : list Z; sh_waits : list (Z * nat); sh_gone : list nat }.
Definition start (h : Z) : shared := MkShared (newHeightSub h) [] [] [].

(** Goroutines interleave between the atomic accesses: [SetHeight] stores the
    height and announces it later under the lock; [Wait] checks the height and
    registers a new channel under the lock; a cancelled wait removes its channel. *)
Inductive hs_step : shared -> shared -> Prop :=
| hs_store h s : hs_step s (MkShared (store_height h (sh_hs s)) (h :: sh_storing s) (sh_waits s) (sh_gone s))
| hs_notify h pre post s : sh_storing s = pre ++ h :: post ->
    hs_step s (MkShared (notifyUpTo h (sh_hs s)) (pre ++ post) (sh_waits s) (sh_gone s))
| hs_wait height ch hs' s : ch ∉ (sh_waits s).*2 -> wait_register height ch (sh_hs s) = Some hs' ->
    hs_step s (MkShared hs' (sh_storing s) ((height, ch) :: sh_waits s) (sh_gone s))
| hs_cancel height ch s : (height, ch) ∈ sh_waits s -> ch ∉ hs_closed (sh_hs s) ->
    hs_step s (MkShared (removeWaiter height ch (sh_hs s)) (sh_storing s) (sh_waits s) (ch :: sh_gone s)).

Definition waiting (hs : heightSub) (w : Z) (ch : nat) : Prop := exists chs, hs_chs hs !! w = Some chs /\ ch ∈ chs.

Record hs_inv (s : shared) : Prop := {
  inv_above w ch : waiting (sh_hs s) w ch -> hs_height (sh_hs s) < w \/ exists h, h ∈ sh_storing s /\ w <= h;
  inv_kept w ch : (w, ch) ∈ sh_waits s -> waiting (sh_hs s) w ch \/ ch ∈ hs_closed (sh_hs s) \/ ch ∈ sh_gone s
}.

Lemma waiting_notify h hs w ch : waiting (notifyUpTo h hs) w ch <-> waiting hs w ch /\ h < w.
Proof.
  unfold waiting, notifyUpTo. simpl. setoid_rewrite map_lookup_filter_Some. simpl. split.
  - intros (chs & [Hl Hh] & Hin). split; [by exists chs|lia].
  - intros [(chs & Hl & Hin) Hh]. exists chs. split; [|done]. split; [done|lia].
Qed.

Lemma closed_notify h hs w ch : waiting hs w ch -> w <= h -> ch ∈ hs_closed (notifyUpTo h hs).
Proof.
  intros (chs & Hl & Hin) Hw. simpl. apply elem_of_app. right. apply list_elem_of_In, in_concat. exists chs.
  split; [|by apply list_elem_of_In]. apply list_elem_of_In, list_elem_of_fmap. exists (w, chs). split; [done|].
  apply elem_of_map_to_list, map_lookup_filter_Some. done.
Qed.

Lemma remove_ch_in t ch chs : ch ∈ remove_ch t chs -> ch ∈ chs.
Proof.
  induction chs as [|c chs IH]; simpl; [done|]. destruct (Nat.eqb_spec c t); rewrite !elem_of_cons; tauto.
Qed.
Lemma remove_ch_keeps t ch chs : ch ∈ chs -> ch <> t -> ch ∈ remove_ch t chs.
Proof.
  induction chs as [|c chs IH]; simpl; [done|]. rewrite elem_of_cons. destruct (Nat.eqb_spec c t) as [->|]; [naive_solver|].
  rewrite elem_of_cons. naive_solver.
Qed.

Lemma waiting_remove height t hs w ch : waiting (removeWaiter height t hs) w ch -> waiting hs w ch.
Proof.
  unfold waiting, removeWaiter. destruct (hs_chs hs !! height) as [chs0|] eqn:Hl; [|done]. simpl.
  destruct (_ && _); intros (chs & Hc & Hin).
  - apply lookup_delete_Some in Hc as [_ Hc]. by exists chs.
  - apply lookup_insert_Some in Hc as [[-> <-]|[_ Hc]]; [|by exists chs]. exists chs0. split; [done|]. by eapply remove_ch_in.
Qed.
Lemma waiting_remove_other height t hs w ch : waiting hs w ch -> ch <> t -> waiting (removeWaiter height t hs) w ch.
Proof.
  intros (chs & Hc & Hin) Hne. unfold waiting, removeWaiter. destruct (hs_chs hs !! height) as [chs0|] eqn:Hl; [|by exists chs]. simpl.
  destruct (decide (w = height)) as [->|Hw].
  - rewrite Hl in Hc. injection Hc as ->. pose proof (remove_ch_keeps t ch chs Hin Hne) as Hk.
    rewrite bool_decide_eq_false_2; [|by intros Hnil; rewrite Hnil in Hk; apply elem_of_nil in Hk]. simpl.
    exists (remove_ch t chs). by rewrite lookup_insert_eq.
  - exists chs. destruct (_ && _); [by rewrite lookup_delete_ne|by rewrite lookup_insert_ne].
Qed.
Lemma waiting_register height ch hs hs' w c : wait_register height ch hs = Some hs' ->
  hs_height hs' = hs_height hs /\ hs_height hs < height /\ hs_closed hs' = hs_closed hs /\
  (waiting hs' w c <-> waiting hs w c \/ w = height /\ c = ch).
Proof.
  unfold wait_register. destruct (Z.leb_spec height (hs_height hs)); [done|]. intros [= <-]. simpl. split_and!; try done.
  unfold waiting. simpl. destruct (decide (w = height)) as [->|].
  - rewrite lookup_insert_eq. split.
    + intros (chs & [= <-] & [Hin| ->%list_elem_of_singleton]%elem_of_app); [|by right]. left.
      destruct (hs_chs hs !! height) as [chs|]; simpl in Hin; [by exists chs|by apply elem_of_nil in Hin].
    + intros [(chs & Hl & Hin)|[_ ->]]; eexists; (split; [done|]); apply elem_of_app; [left; by rewrite Hl|right; by left].
  - rewrite lookup_insert_ne by done. naive_solver.
Qed.

Lemma hs_step_inv s s' : hs_step s s' -> hs_inv s -> hs_inv s'.
Proof.
  intros Hst [Ha Hk]. destruct Hst as [h s|h pre post s Heq|height ch hs' s Hnew Hreg|height ch s Hin Hopen]; split; simpl.
  - intros w ch Hw. destruct (Z.lt_ge_cases h w) as [|Hge]; [by left|]. right. exists h. split; [left|lia].
  - intros w ch Hw. exact (Hk w ch Hw).
  - intros w ch [Hw Hlt]%waiting_notify. destruct (Ha w ch Hw) as [|(h' & Hh' & Hle)]; [by left|]. right. exists h'. split; [|done].
    rewrite Heq in Hh'. apply elem_of_app in Hh' as [|Hh']; [apply elem_of_app; by left|].
    apply elem_of_cons in Hh' as [->|]; [lia|apply elem_of_app; by right].
  - intros w ch Hw. destruct (Hk w ch Hw) as [Hwt|[|]]; [|right; left; apply elem_of_app; by left|by right; right].
    destruct (Z.lt_ge_cases h w) as [|Hge]; [left; by apply waiting_notify|]. right. left. by apply (closed_notify h _ w).
  - intros w c Hw. destruct (waiting_register _ _ _ _ w c Hreg) as (Hh & Hlt & _ & Hiff). apply Hiff in Hw as [Hw|[-> ->]].
    + rewrite Hh. by apply (Ha w c).
    + rewrite Hh. by left.
  - intros w c Hw. destruct (waiting_register _ _ _ _ w c Hreg) as (_ & _ & Hc & Hiff). rewrite Hc.
    apply elem_of_cons in Hw as [[= -> ->]|Hw]; [left; apply Hiff; by right|].
    destruct (Hk w c Hw) as [|[|]]; [left; apply Hiff; by left|by right; left|by right; right].
  - intros w c Hw%waiting_remove. apply Ha in Hw. unfold removeWaiter. by destruct (hs_chs (sh_hs s) !! height).
  - intros w c Hw. assert (Hcl : hs_closed (removeWaiter height ch (sh_hs s)) = hs_closed (sh_hs s)).
    { unfold removeWaiter. by destruct (hs_chs (sh_hs s) !! height). }
    rewrite Hcl. destruct (decide (c = ch)) as [->|Hne]; [right; right; left|].
    destruct (Hk w c Hw) as [|[|]]; [left; by apply waiting_remove_other|by right; left|right; right; by right].
Qed.

(** C22: No wake-up is lost, in any interleaving of setters, waiters and
    cancellations: a call that waits for a height is either still registered, or
    its channel was closed, or it gave up; and once no announcement is under way,
    no call is left waiting for a height that has been reached. *)
Theorem no_lost_wakeup h0 s : rtc hs_step (start h0) s ->
  (forall w ch, (w, ch) ∈ sh_waits s -> waiting (sh_hs s) w ch \/ ch ∈ hs_closed (sh_hs s) \/ ch ∈ sh_gone s) /\
  (sh_storing s = [] -> forall w ch, (w, ch) ∈ sh_waits s -> w <= hs_height (sh_hs s) ->
     ch ∈ hs_closed (sh_hs s) \/ ch ∈ sh_gone s).
Proof.
  intros Hrun. assert (Hinv : hs_inv s).
  { assert (H0 : hs_inv (start h0)) by (split; [intros w ch (chs & Hl & _); done|by intros w ch ?%elem_of_nil]).
    induction Hrun as [|s1 s2 s3 Hst _ IH]; [done|]. by eapply IH, hs_step_inv. }
  destruct Hinv as [Ha Hk]. split; [done|]. intros Hq w ch Hw Hle. destruct (Hk w ch Hw) as [Hwt|]; [|done].
  destruct (Ha w ch Hwt) as [|(h & Hh & _)]; [lia|]. rewrite Hq in Hh. by apply elem_of_nil in Hh.
Qed.

(** A waiter for 5 registers after 7 was stored over a height of 3 that someone
    set back: it is woken by the announcement of 7. *)
Definition woken : shared :=
  let s0 := start 3 in
  let s1 := MkShared (store_height 7 (sh_hs s0)) [7] [] [] in
  let s2 := MkShared (store_height 3 (sh_hs s1)) [3; 7] [] [] in
  let s3 := MkShared (default (sh_hs s2) (wait_register 5 0 (sh_hs s2))) [3; 7] [(5, 0%nat)] [] in
  let s4 := MkShared (notifyUpTo 3 (sh_hs s3)) [7] [(5, 0%nat)] [] in
  let s5 := MkShared (notifyUpTo 7 (sh_hs s4)) [] [(5, 0%nat)] [] in
  let s6 := MkShared (store_height 7 (sh_hs s5)) [7] [(5, 0%nat)] [] in
  let s7 := MkShared (notifyUpTo 7 (sh_hs s6)) [] [(5, 0%nat)] [] in
  s7.
Lemma no_lost_wakeup_witness : 0%nat ∈ hs_closed (sh_hs woken) \/ 0%nat ∈ sh_gone woken.
Proof.
  refine (proj2 (no_lost_wakeup 3 woken _) eq_refl 5 0%nat _ _).
  - eapply rtc_l; [apply (hs_store 7)|]. eapply rtc_l; [apply (hs_store 3)|].
    eapply rtc_l; [apply (hs_wait 5 0); [apply not_elem_of_nil|reflexivity]|].
    eapply rtc_l; [by apply (hs_notify 3 [] [7])|]. eapply rtc_l; [by apply (hs_notify 7 [] [])|].
    eapply rtc_l; [apply (hs_store 7)|]. eapply rtc_l; [by apply (hs_notify 7 [] [])|]. apply rtc_refl.
  - left.
  - by vm_compute.
Defined.
End HeightSubFacts.

(** ** The index of the pending items *)

(** Two items with one hash have one height, and the hint is no part of the hash. *)
Class EntityLaws (H : Type) `{EntityWithDAHint H} := {
  hash_height (x y : H) : it_Hash x = it_Hash y -> it_Height x = it_Height y;
  height_nonneg (x : H) : 0 <= it_Height x;
  hint_hash n (x : H) : it_Hash (it_SetDAHint n x) = it_Hash x;
  hint_height n (x : H) : it_Height (it_SetDAHint n x) = it_Height x
}.

Module PendingCacheFacts.
Import PendingCache.

Section facts.
Context {H : Type} `{EntityLaws H}.
Implicit Types (c : pendingCache H) (m : gmap Z H).

(** The largest height, or 0. *)
Definition is_max m (k : Z) : Prop := (forall h, is_Some (m !! h) -> h <= k) /\ (k = 0 \/ is_Some (m !! k)).

(** Items are at their height and found by their hash, and the maximum is right. *)
Record cache_wf c : Prop := {
  wf_height h x : pc_items c !! h = Some x -> it_Height x = h;
  wf_indexed h x : pc_items c !! h = Some x -> pc_byHash c !! it_Hash x = Some h;
  wf_max : is_max (pc_items c) (pc_maxHeight c)
}.
(** Every hash of the index is that of a pending item. *)
Definition index_sound c : Prop := forall k h, pc_byHash c !! k = Some h -> exists x, pc_items c !! h = Some x /\ it_Hash x = k.

Lemma max_key_spec m : (forall h x, m !! h = Some x -> 0 <= h) -> is_max m (max_key m).
Proof.
  unfold max_key. apply (map_fold_weak_ind (fun r m => (forall h x, m !! h = Some x -> 0 <= h) -> is_max m r)).
  - intros _. split; [|by left]. intros h [x Hx]. done.
  - intros i x m' r Hi IH Hpos. destruct IH as [Hle Hin].
    { intros h y Hy. apply (Hpos h y). by rewrite lookup_insert_ne by congruence. }
    assert (0 <= i) by (apply (Hpos i x), lookup_insert_eq). split.
    + intros h [y Hy]. apply lookup_insert_Some in Hy as [[-> _]|[_ Hy]]; [lia|]. specialize (Hle h (mk_is_Some _ _ Hy)). lia.
    + destruct (Z.le_gt_cases r i) as [Hri|Hri].
      * right. rewrite Z.max_l by lia. rewrite lookup_insert_eq. by eexists.
      * rewrite Z.max_r by lia. destruct Hin as [|[y Hy]]; [lia|]. right. exists y. rewrite lookup_insert_ne; [done|]. lia.
Qed.

Lemma add_wf item c : cache_wf c -> cache_wf (add item c).
Proof.
  intros [Hh Hix [Hle Hin]]. split; simpl.
  - intros h x [[<- <-]|[_ Hx]]%lookup_insert_Some; [done|by apply Hh].
  - intros h x [[<- <-]|[Hne Hx]]%lookup_insert_Some; [by rewrite lookup_insert_eq|].
    rewrite lookup_insert_ne; [by apply Hix|]. intros Heq%hash_height. apply Hne. rewrite Heq. by apply Hh.
  - split.
    + intros h [x Hx]. apply lookup_insert_Some in Hx as [[<- _]|[_ Hx]].
      * destruct (Z.ltb_spec (pc_maxHeight c) (it_Height item)); lia.
      * specialize (Hle h (mk_is_Some _ _ Hx)). destruct (Z.ltb_spec (pc_maxHeight c) (it_Height item)); lia.
    + destruct (Z.ltb_spec (pc_maxHeight c) (it_Height item)) as [|Hge]; [right; by rewrite lookup_insert_eq|].
      destruct Hin as [|[x Hx]]; [by left|]. right. destruct (decide (pc_maxHeight c = it_Height item)) as [->|];
        [rewrite lookup_insert_eq; by eexists|rewrite lookup_insert_ne by done; by exists x].
Qed.

(** Unless another item of the height is replaced. *)
Lemma add_sound item c : cache_wf c -> index_sound c ->
  (forall x, pc_items c !! it_Height item = Some x -> it_Hash x = it_Hash item) -> index_sound (add item c).
Proof.
  intros Hwf Hs Hrep k h Hk. simpl in Hk |- *. apply lookup_insert_Some in Hk as [[<- <-]|[Hne Hk]].
  - exists item. by rewrite lookup_insert_eq.
  - destruct (Hs k h Hk) as (x & Hx & Hxk). destruct (decide (h = it_Height item)) as [->|].
    + by rewrite (Hrep x Hx) in Hxk.
    + exists x. by rewrite lookup_insert_ne by done.
Qed.

(** A set of heights goes, with its hashes; the maximum is computed anew if it
    may have gone. *)
Definition removed (gone : gmap Z H) c c' : Prop :=
  (forall h x, pc_items c' !! h = Some x <-> pc_items c !! h = Some x /\ gone !! h = None) /\
  (forall k h, pc_byHash c' !! k = Some h <-> pc_byHash c !! k = Some h /\ ~ exists i x, gone !! i = Some x /\ it_Hash x = k) /\
  (forall h x, gone !! h = Some x -> pc_items c !! h = Some x) /\
  (pc_maxHeight c' = max_key (pc_items c') \/ pc_maxHeight c' = pc_maxHeight c /\ gone !! pc_maxHeight c = None).

Lemma removed_wf gone c c' : cache_wf c -> removed gone c c' -> cache_wf c'.
Proof.
  intros [Hh Hix [Hle Hin]] (Hi & Hb & Hg & Hm). split.
  - intros h x [Hx _]%Hi. by apply Hh.
  - intros h x [Hx Hng]%Hi. apply Hb. split; [by apply Hix|]. intros (i & y & Hy & Heq%hash_height).
    rewrite (Hh _ _ Hx), (Hh _ _ (Hg _ _ Hy)) in Heq. congruence.
  - destruct Hm as [->|[-> Hng]].
    + apply max_key_spec. intros h x [Hx _]%Hi. rewrite <- (Hh _ _ Hx). apply height_nonneg.
    + split; [|destruct Hin as [|[x Hx]]; [by left|right; exists x; by apply Hi]].
      intros h [x [Hx _]%Hi]. apply Hle. by eexists.
Qed.
Lemma removed_sound gone c c' : cache_wf c -> index_sound c -> removed gone c c' -> index_sound c'.
Proof.
  intros [Hh _ _] Hs (Hi & Hb & Hg & _) k h [Hk Hno]%Hb. destruct (Hs k h Hk) as (x & Hx & <-). exists x. split; [|done].
  apply Hi. split; [done|]. destruct (gone !! h) as [y|] eqn:Hy; [|done]. exfalso. apply Hno. exists h, y. split; [done|].
  apply Hg in Hy. congruence.
Qed.

Lemma delete_removed height c : cache_wf c ->
  removed (match pc_items c !! height with Some x => {[height := x]} | None => ∅ end) c (delete height c).
Proof.
  intros Hwf. unfold delete. destruct (pc_items c !! height) as [x|] eqn:Hx.
  2:{ unfold removed. simpl. setoid_rewrite lookup_empty. split_and!; try naive_solver. }
  assert (Hgone : forall i y, ({[height := x]} : gmap Z H) !! i = Some y <-> i = height /\ y = x)
    by (intros i y; rewrite lookup_singleton_Some; naive_solver).
  destruct (Z.eqb_spec height (pc_maxHeight c)) as [Heq|Hne]; unfold removed; simpl; setoid_rewrite Hgone; split_and!.
  all: try (intros h y; rewrite lookup_delete_Some, lookup_singleton_None; naive_solver).
  all: try (intros k h; rewrite lookup_delete_Some; split; [intros [Hne' Hk]; split; [done|]; intros (i & y & [-> ->] & Hy); done|];
            intros [Hk Hno]; split; [|done]; intros <-; apply Hno; by exists height, x).
  all: try (intros h y [-> ->]; exact Hx).
  - by left.
  - right. split; [done|]. apply lookup_singleton_None. done.
Qed.

Lemma pruneIf_removed pred c : removed (filter (fun x => pred x.1 = true) (pc_items c)) c (pruneIf pred c).
Proof.
  unfold pruneIf. set (gone := filter (fun x => pred x.1 = true) (pc_items c)).
  assert (Hitems : forall h x, filter (fun x => ~ pred x.1 = true) (pc_items c) !! h = Some x <-> pc_items c !! h = Some x /\ gone !! h = None).
  { intros h x. unfold gone. rewrite map_lookup_filter_Some, map_lookup_filter_None. simpl. naive_solver. }
  assert (Hhash : forall k h, filter (fun x => x.1 ∉ it_Hash <$> (map_to_list gone).*2) (pc_byHash c) !! k = Some h <->
    pc_byHash c !! k = Some h /\ ~ exists i x, gone !! i = Some x /\ it_Hash x = k).
  { intros k h. rewrite map_lookup_filter_Some. simpl.
    assert (k ∈ it_Hash <$> (map_to_list gone).*2 <-> exists i x, gone !! i = Some x /\ it_Hash x = k) as ->; [|done].
    rewrite list_elem_of_fmap. setoid_rewrite list_elem_of_fmap. split.
    - intros (x & -> & [i y] & -> & Hin%elem_of_map_to_list). by exists i, y.
    - intros (i & x & Hx & <-). exists x. split; [done|]. exists (i, x). split; [done|]. by apply elem_of_map_to_list. }
  destruct (bool_decide_reflect (is_Some (gone !! pc_maxHeight c))) as [|Hno]; unfold removed; simpl; split_and!; try done.
  - intros h x [Hx _]%map_lookup_filter_Some. done.
  - by left.
  - intros h x [Hx _]%map_lookup_filter_Some. done.
  - right. split; [done|]. by apply eq_None_not_Some.
Qed.

(** The operations that leave the items' hashes alone. *)
Lemma update_item_wf n x h c : cache_wf c -> pc_items c !! h = Some x -> cache_wf (update_item (it_SetDAHint n x) c).
Proof.
  intros [Hh Hix [Hle Hin]] Hx. assert (Hhx : it_Height (it_SetDAHint n x) = h) by (rewrite hint_height; by apply Hh).
  split; simpl; rewrite Hhx.
  - intros h' y [[<- <-]|[_ Hy]]%lookup_insert_Some; [done|by apply Hh].
  - intros h' y [[<- <-]|[_ Hy]]%lookup_insert_Some; [rewrite hint_hash; by apply Hix|by apply Hix].
  - split.
    + intros h' [y [[<- _]|[_ Hy]]%lookup_insert_Some]; apply Hle; by eexists.
    + destruct Hin as [|[y Hy]]; [by left|]. right. destruct (decide (pc_maxHeight c = h)) as [->|];
        [rewrite lookup_insert_eq; by eexists|rewrite lookup_insert_ne by done; by exists y].
Qed.
Lemma update_item_sound n x h c : cache_wf c -> index_sound c -> pc_items c !! h = Some x -> index_sound (update_item (it_SetDAHint n x) c).
Proof.
  intros [Hh _ _] Hs Hx k h' Hk. destruct (Hs k h' Hk) as (y & Hy & <-). simpl. rewrite hint_height, (Hh _ _ Hx).
  destruct (decide (h' = h)) as [->|]; [|exists y; by rewrite lookup_insert_ne]. exists (it_SetDAHint n x).
  rewrite lookup_insert_eq. split; [done|]. rewrite hint_hash. congruence.
Qed.

(** ** Reachable caches *)

(** Whether a step replaces a pending item by another one of its height. *)
Inductive pc_step : bool -> pendingCache H -> pendingCache H -> Prop :=
| st_add item c : pc_step (match pc_items c !! it_Height item with Some x => negb (bool_decide (it_Hash x = it_Hash item)) | None => false end)
    c (add item c)
| st_delete h c : pc_step false c (delete h c)
| st_prune pred c : pc_step false c (pruneIf pred c)
| st_hint h n c : pc_step false c (setDAHint h n c)
| st_update h n x c : pc_items c !! h = Some x -> pc_step false c (update_item (it_SetDAHint n x) c).

Inductive pc_reach : bool -> pendingCache H -> Prop :=
| pr_new : pc_reach false newPendingCache
| pr_step b b' c c' : pc_reach b c -> pc_step b' c c' -> pc_reach (b || b') c'.

Lemma reach_wf b c : pc_reach b c -> cache_wf c /\ (b = false -> index_sound c).
Proof.
  induction 1 as [|b b' c c' _ [IHw IHs] Hst].
  - split; [|by intros _ k h Hk]. split; simpl; try done. split; [intros h [x Hx]; done|by left].
  - destruct Hst as [item c|h c|pred c|h n c|h n x c Hx].
    + split; [by apply add_wf|]. intros [Hb Hr]%orb_false_iff. apply add_sound; [done|by apply IHs|].
      intros x Hx. rewrite Hx in Hr. destruct (bool_decide_reflect (it_Hash x = it_Hash item)); done.
    + pose proof (delete_removed h c IHw) as Hd. split; [by eapply removed_wf|]. intros [Hb _]%orb_false_iff.
      eapply removed_sound; [done|by apply IHs|done].
    + pose proof (pruneIf_removed pred c) as Hd. split; [by eapply removed_wf|]. intros [Hb _]%orb_false_iff.
      eapply removed_sound; [done|by apply IHs|done].
    + split; [by destruct IHw|]. intros [Hb _]%orb_false_iff. by apply IHs.
    + split; [by eapply update_item_wf|]. intros [Hb _]%orb_false_iff. eapply update_item_sound; [done|by apply IHs|done].
Qed.
End facts.
End PendingCacheFacts.

(** ** Items that are appended *)

Module AdapterFacts.
Import HeightSub PendingCache PendingCacheFacts Adapter.

Section facts.
Context {G H D : Type} `{EntityLaws H} `{StoreGetter G H} `{DeleteHook D} `{Meanwhile (StoreAdapter G H D)}.
Abbreviation A := (StoreAdapter G H D).
Implicit Types (a : A) (item : H).

(** Nobody waits for a height that has been reached. *)
Definition hs_ok (hs : heightSub) : Prop := forall w, is_Some (hs_chs hs !! w) -> hs_height hs < w.
Definition good (a : A) : Prop := cache_wf (sa_pending a) /\ hs_ok (sa_heightSub a).

Hypothesis meanwhile_good : forall a, good a -> good (meanwhile a).2.

Lemma SetHeight_ok h hs : hs_ok (SetHeight h hs).
Proof. intros w [chs [_ Hw]%map_lookup_filter_Some]. simpl in *. lia. Qed.

Lemma prunePersisted_good a : good a -> wp prunePersisted (fun r a' => r = Ok tt /\ good a') a.
Proof.
  intros [Hc Hh]. unfold prunePersisted. apply wp_bind, wp_attempt, wp_zoom, wp_wrap. unfold wp.
  destruct (gt_Height (sa_getter a)) as [[n|e] g]; simpl; [|done]. destruct (n =? 0); [done|]. split; [done|]. split; [|done].
  eapply removed_wf; [exact Hc|apply pruneIf_removed].
Qed.

Lemma waitForSpace_good fuel : forall a, good a -> wp (waitForSpace fuel) (fun r a' => good a' /\
  (r = Ok tt -> len (sa_pending a') < maxPendingCacheSize) /\ (len (sa_pending a) < maxPendingCacheSize -> r = Ok tt /\ a' = a)) a.
Proof.
  induction fuel as [|fuel IH]; intros a Ha; simpl; wp_read;
    (destruct (Z.ltb_spec (len (sa_pending a)) maxPendingCacheSize); [by apply wp_ret|]); apply wp_bind;
    (eapply wp_mono; [by apply prunePersisted_good|]); intros r a1 [-> Ha1]; wp_read;
    (destruct (Z.ltb_spec (len (sa_pending a1)) maxPendingCacheSize); [apply wp_ret; split_and!; [done|done|lia]|]).
  - apply wp_throw. split_and!; [done|done|lia].
  - apply wp_bind, wp_infallible. pose proof (meanwhile_good a1 Ha1) as Hm. destruct (meanwhile a1) as [[] a2]; simpl in *.
    + eapply wp_mono; [by apply IH|]. intros r a3 (Hg & Hl & _). split_and!; [done|done|lia].
    + apply wp_throw. split_and!; [done|done|lia].
Qed.

(** What holds after an item was put into the cache. *)
Definition held item (a : A) : Prop := pc_items (sa_pending a) !! it_Height item = Some item /\ it_Height item <= hs_height (sa_heightSub a).

Lemma append_item_spec fuel item a : good a -> it_IsZero item = false -> (gt_HasAt (it_Height item) (sa_getter a)).1 = false ->
  wp (append_item fuel item) (fun r a' => good a' /\ (r = Ok tt -> held item a') /\
    (len (sa_pending a) < maxPendingCacheSize -> r = Ok tt)) a.
Proof.
  intros Ha Hz Hs. unfold append_item. rewrite Hz. apply wp_bind, wp_zoom, wp_infallible.
  destruct (gt_HasAt (it_Height item) (sa_getter a)) as [b g]. simpl in Hs. subst b. apply wp_bind.
  assert (Ha0 : good (set_sa_getter g a)) by done.
  eapply wp_mono; [by apply waitForSpace_good|]. intros [[]|e] a1 (Ha1 & _ & Hroom).
  2:{ split_and!; [done|done|]. intros Hl. by destruct (Hroom Hl). }
  apply wp_bind, wp_modify. set (a2 := set_sa_pending (add item (sa_pending a1)) a1).
  assert (Ha2 : good a2 /\ pc_items (sa_pending a2) !! it_Height item = Some item).
  { destruct Ha1 as [Hc Hh]. split; [split; [by apply add_wf|done]|]. apply lookup_insert_eq. }
  apply wp_bind.
  assert (Hend : forall a3, good a3 -> pc_items (sa_pending a3) !! it_Height item = Some item ->
    wp (h ← gets (fun a => HeightSub.Height (sa_heightSub a)); if h <? it_Height item then set_height (it_Height item) else mret tt)
      (fun r a' => good a' /\ (r = Ok tt -> held item a') /\ (len (sa_pending a) < maxPendingCacheSize -> r = Ok tt)) a3).
  { intros a3 [Hc Hh] Hi. wp_read. unfold HeightSub.Height. destruct (Z.ltb_spec (hs_height (sa_heightSub a3)) (it_Height item)).
    - apply wp_modify. split_and!; [split; [done|apply SetHeight_ok]| |done]. intros _. split; [done|]. simpl. lia.
    - apply wp_ret. split_and!; [done| |done]. intros _. split; [done|]. lia. }
  destruct Ha2 as [Hg2 Hi2]. destruct (0 <? it_DAHint item); [|apply wp_ret; by apply Hend].
  apply wp_bind, wp_attempt, wp_zoom, wp_wrap. unfold wp at 1.
  destruct (gt_SetDAHint (it_Height item) (it_DAHint item) (sa_getter a2)) as [r g2]. apply wp_ret. by apply Hend.
Qed.

(** Reading it back: from the store, if it is there by now, else from the cache. *)
Definition serves (read : AM H) (stored : M G store_error H) item (a : A) : Prop :=
  exists x, (read a).1 = Ok x /\
    (it_Hash x = it_Hash item \/ exists y, (stored (sa_getter a)).1 = Ok y /\ it_Hash x = it_Hash y).

Lemma applyDAHint_spec x a : wp (applyDAHint x) (fun r a' => exists y, r = Ok y /\ it_Hash y = it_Hash x) a.
Proof.
  unfold applyDAHint. destruct (it_IsZero x); [apply wp_ret; by exists x|]. wp_read.
  destruct (getDAHint _ _) as [n|]; [apply wp_ret; eexists; split; [done|]; apply hint_hash|].
  apply wp_bind, wp_attempt, wp_zoom, wp_wrap. unfold wp at 1.
  destruct (gt_GetDAHint (it_Height x) (sa_getter a)) as [[n|e] g]; simpl; [|by exists x].
  destruct (0 <? n); [|by exists x]. eexists. split; [done|]. apply hint_hash.
Qed.
Lemma hint_pending_spec x a : wp (hint_pending x) (fun r a' => exists y, r = Ok y /\ it_Hash y = it_Hash x) a.
Proof.
  unfold hint_pending. apply wp_bind. eapply wp_mono; [apply applyDAHint_spec|]. intros r a' (y & -> & Hy). by exists y.
Qed.

(** A read of the store with the cache behind it. *)
Lemma serves_read (stored : M G store_error H) (lookup : pendingCache H -> option H) item a : lookup (sa_pending a) = Some item ->
  serves (r ← attempt (F := adapter_error) (on_getter stored);
    match r with
    | Ok item => applyDAHint item
    | Err _ => p ← gets sa_pending; match lookup p with Some item => hint_pending item | None => throw SANotFound end
    end) stored item a.
Proof.
  intros Hl. unfold serves, mbind, M_bind, attempt, on_getter, zoom, wrap. destruct (stored (sa_getter a)) as [[y|e] g]; simpl.
  - pose proof (applyDAHint_spec y (set_sa_getter g a)) as Hh. apply wp_exists in Hh as (r & a' & Hr & x & -> & Hx).
    rewrite Hr. exists x. split; [done|]. right. by exists y.
  - rewrite Hl. pose proof (hint_pending_spec item (set_sa_getter g a)) as Hh. apply wp_exists in Hh as (r & a' & Hr & x & -> & Hx).
    rewrite Hr. exists x. split; [done|]. by left.
Qed.
End facts.

Section claim.
Context {G H D : Type} `{EntityLaws H} `{StoreGetter G H} `{DeleteHook D} `{Meanwhile (StoreAdapter G H D)}.
Abbreviation A := (StoreAdapter G H D).

(** C23: An item that a peer sent and that is not stored is served at once: after
    [Append] it is returned by height and by hash, from the cache or, when it has
    been stored meanwhile, from the store; nobody is left waiting for its height;
    and the append does not wait unless the cache is full. The cache stays well
    formed: items at their height, all of them in the index, the right maximum. *)
Theorem appended_is_served fuel (item : H) (a : A) :
  (forall b : A, good b -> good (meanwhile b).2) ->
  good a -> it_IsZero item = false -> (gt_HasAt (it_Height item) (sa_getter a)).1 = false ->
  exists r a', Append fuel [item] a = (r, a') /\ good a' /\
    (len (sa_pending a) < maxPendingCacheSize -> r = Ok tt) /\
    (r = Ok tt ->
       serves (getByHeightNoWait (it_Height item)) (gt_GetByHeight (it_Height item)) item a' /\
       serves (Get (it_Hash item)) (gt_GetByHash (it_Hash item)) item a' /\
       forall w, w <= it_Height item -> hs_chs (sa_heightSub a') !! w = None).
Proof.
  intros Hm Ha Hz Hs. pose proof (append_item_spec Hm fuel item a Ha Hz Hs) as Hw. apply wp_exists in Hw as (r & a' & Hrun & Hg & Hheld & Hroom).
  exists r, a'. split_and!.
  - unfold Append. simpl. unfold mbind, M_bind. rewrite Hrun. by destruct r as [[]|].
  - done.
  - done.
  - intros Hr. destruct (Hheld Hr) as [Hi Hh]. destruct Hg as [Hc Hok]. split_and!.
    + by apply serves_read.
    + apply serves_read. unfold getByHash. rewrite (wf_indexed _ Hc _ _ Hi). done.
    + intros w Hle. apply eq_None_not_Some. intros Hsome. specialize (Hok w Hsome). lia.
Qed.
End claim.
End AdapterFacts.

(** ** On a small store *)

Module AdapterWitness.
Import HeightSub PendingCache PendingCacheFacts Adapter AdapterFacts.

(** Items with a height, a tag and a hint; the hash shows height and tag. *)
Record entry := MkEntry { en_height : nat; en_tag : byte; en_hint : Z }.
#[export] Instance entry_entity : EntityWithDAHint entry := {
  it_IsZero x := false;
  it_Height x := Z.of_nat (en_height x);
  it_Hash x := en_tag x :: replicate (en_height x) (byte_of_Z 0);
  it_DAHint := en_hint;
  it_SetDAHint n x := MkEntry (en_height x) (en_tag x) n
}.
#[export] Instance entry_laws : EntityLaws entry.
Proof.
  split; try done.
  - intros x y [= _ Hr]. simpl. apply (f_equal length) in Hr. rewrite !length_replicate in Hr. by rewrite Hr.
  - intros x. simpl. lia.
Qed.

(** The stored items, by height, and the hints. *)
Record shelf := MkShelf { shelf_items : gmap Z entry; shelf_hints : gmap Z Z }.
Definition found {X} (o : option X) : res store_error X := match o with Some x => Ok x | None => Err (SDs ErrNotFound) end.
#[export] Instance shelf_getter : StoreGetter shelf entry := {
  gt_GetByHeight h := fun g => (found (shelf_items g !! h), g);
  gt_GetByHash k := fun g => (found (snd <$> list_find (fun x => it_Hash x = k) (map_to_list (shelf_items g)).*2), g);
  gt_Height := fun g => (Ok (max_key (shelf_items g)), g);
  gt_HasAt h := fun g => (bool_decide (is_Some (shelf_items g !! h)), g);
  gt_GetDAHint h := fun g => (found (shelf_hints g !! h), g);
  gt_SetDAHint h n := fun g => (Ok tt, MkShelf (shelf_items g) (<[h := n]> (shelf_hints g)));
  gt_GetMetadata k := fun g => (Err (SDs ErrNotFound), g)
}.
#[export] Instance no_hook : DeleteHook unit := { run_hook h := fun d => (Ok tt, d) }.
#[export] Instance impatient : Meanwhile (StoreAdapter shelf entry unit) := { meanwhile a := (false, a) }.

Definition a0 : StoreAdapter shelf entry unit := NewStoreAdapter (MkShelf {[1 := MkEntry 1 Byte.x01 0]} ∅) 1.
Lemma a0_good : good a0.
Proof.
  split; [|intros w [chs Hw]; done]. apply (reach_wf false). apply pr_new.
Qed.

(** The item of height 2 arrives; its hint is kept. *)
Lemma appended_is_served_witness :
  serves (getByHeightNoWait 2) (gt_GetByHeight 2) (MkEntry 2 Byte.x01 9) (Append 0 [MkEntry 2 Byte.x01 9] a0).2.
Proof.
  destruct (appended_is_served 0 (MkEntry 2 Byte.x01 9) a0) as (r & a' & Hrun & _ & Hroom & Hok).
  - intros b Hb. exact Hb.
  - exact a0_good.
  - reflexivity.
  - reflexivity.
  - rewrite Hrun. apply Hok, Hroom. by vm_compute.
Defined.

(** A second item of the same height replaces the first in the cache, but the
    index keeps the first hash: asked for it, the adapter returns the second
    item, and says it has it after both are gone. *)
Definition x1 : entry := MkEntry 5 Byte.x01 0.
Definition x2 : entry := MkEntry 5 Byte.x02 0.
Definition a2 : StoreAdapter shelf entry unit := (Append 0 [x1; x2] a0).2.
Example replaced_item_answers :
  (Get (it_Hash x1) a2).1 = Ok x2 /\ it_Hash x2 <> it_Hash x1 /\
  let a3 := (DeleteRange 5 6 a2).2 in (Has (it_Hash x1) a3).1 = Ok true /\ (Get (it_Hash x1) a3).1 = Err SANotFound.
Proof. cbv zeta. split_and!; [vm_compute; reflexivity|by intros [=]|vm_compute; reflexivity..]. Qed.

(** The hint for a block that is stored already, as every block is when it is
    submitted to DA, is dropped: [Append] skips stored items. *)
#[export] Instance offline : GoHeader unit entry := {
  gh_GetByHeight h := fun x => (Err "no peers", x);
  gh_syncer_Start := fun x => (Ok tt, x);
  gh_syncer_Stop := fun x => (Ok tt, x);
  gh_Broadcast i := fun x => (Ok tt, x)
}.
Definition service0 : SyncService.SyncService shelf entry unit unit := SyncService.MkSyncService a0 tt 1 true 0 false false false false.
Example hint_of_stored_block_is_lost :
  let '(r, s) := SyncService.AppendDAHint 0 77 [1] 0 service0 in
  r = Ok tt /\ (getByHeightNoWait 1 (SyncService.ss_store s)).1 = Ok (MkEntry 1 Byte.x01 0) /\
  shelf_hints (sa_getter (SyncService.ss_store s)) = ∅.
Proof. vm_compute. split_and!; reflexivity. Qed.

(** Deleting from height 0 on sets the height to the largest number. *)
Example delete_from_zero : hs_height (sa_heightSub (DeleteRange 0 1 a0).2) = max_u64.
Proof. vm_compute. reflexivity. Qed.
End AdapterWitness.
