(* ===== verification/ChainWrites.v ===== *)
(** * Writing blocks to the store

    The part of a store's contents that is the chain, the batch that appends a
    block, and the rules for staging operations through a lens: a component
    whose state contains the store stages and commits batches step by step, and
    every step can fail. *)

From S2P Require Import Prelude Sha256 Datastore Types Serialization SerializationFacts Store StoreFacts StoreAPI.
From stdpp Require Import base gmap strings list numbers.
Open Scope Z_scope.

Section chain.
Context {PK : Type}.

(** The chain of a store: what it holds, without the metadata. *)
Definition chain_part (c : contents PK) : contents PK :=
  MkContents (c_height c) (c_header c) (c_block c) (c_signature c) (c_states c) (fun _ => not_found).
#[export] Instance chain_part_proper : Proper ((≡) ==> (≡)) chain_part.
Proof. intros c d []. by constructor. Qed.

(** What the batch of a block holds. *)
Definition block_batch (header : SignedHeader PK) (data : Data) (st : State) : list (staged PK) :=
  [StBlock header data (sh_Signature header); StHeight (Header_Height (sh_Header header)); StState st].

Context `{PubKeys PK}.

Lemma chain_part_block (c : contents PK) header data st :
  chain_part (apply_batch c (block_batch header data st)) = apply_batch (chain_part c) (block_batch header data st).
Proof. done. Qed.

(** The metadata is not part of the chain. *)
Lemma chain_part_meta (c : contents PK) k v : chain_part (with_meta k v c) = chain_part c.
Proof. done. Qed.

Lemma block_batch_wf header data st :
  header_wf (sh_Header header) -> signer_wf (sh_Signer header) -> data_wf data -> state_wf st ->
  Forall staged_wf (block_batch header data st).
Proof. intros Hh Hs Hd Hst. repeat apply Forall_cons_2; [by split_and!|apply Hh|done|constructor]. Qed.

End chain.

Section lens.
Context {ST PK X E : Type} `{BlockStoreLaws ST PK}.
Context (get : X -> ST) (set : ST -> X -> X) (err : store_error -> E).
Context (get_set : forall st x, get (set st x) = st) (set_set : forall st st' x, set st (set st' x) = set st x).
#[local] Abbreviation on m := (zoom get set (wrap err m)).

(** The store may have moved to one with the same contents. *)
Definition same_store (x : X) (st : ST) : Prop := bs_contents st ≡ bs_contents (get x).

Lemma wp_new_batch {A} (k : bs_batch ST PK -> M X E A) Q x :
  (forall st b, same_store x st -> bs_staged b [] -> wp (k b) Q (set st x)) ->
  (forall st e, same_store x st -> Q (Err (err e)) (set st x)) ->
  wp (on st_NewBatch ≫= k) Q x.
Proof.
  intros Hk He. apply wp_bind, wp_zoom, wp_wrap. eapply wp_mono; [apply NewBatch_law|].
  intros [b|e] st (Hc & _ & Hb); [by apply Hk|by apply He].
Qed.

Lemma wp_stage {A} (m : bs_batch ST PK -> M ST store_error (bs_batch ST PK)) f
  (k : bs_batch ST PK -> M X E A) Q x st b l :
  stages_ops m f -> bs_staged b l -> same_store x st ->
  (forall st' b' l', same_store x st' -> f (bs_contents st) l' -> bs_staged b' (l ++ l') -> wp (k b') Q (set st' x)) ->
  (forall st' e, same_store x st' -> Q (Err (err e)) (set st' x)) ->
  wp (on (m b) ≫= k) Q (set st x).
Proof.
  intros Hm Hb Hst Hk He. apply wp_bind, wp_zoom, wp_wrap. rewrite get_set. eapply wp_mono; [by apply Hm|].
  intros [b'|e] st' (Hc & _ & Hb'); cbn [map_err]; rewrite set_set.
  - destruct Hb' as (l' & Hf & Hb'). eapply Hk; [|done..]. unfold same_store in *. by rewrite Hc.
  - apply He. unfold same_store in *. by rewrite Hc.
Qed.

Lemma wp_commit b l Q x st :
  bs_staged b l -> Forall staged_wf l -> same_store x st ->
  (forall st', bs_contents st' ≡ apply_batch (bs_contents (get x)) l -> Q (Ok tt) (set st' x)) ->
  (forall st' e, same_store x st' -> Q (Err (err e)) (set st' x)) ->
  wp (on (batch_Commit b)) Q (set st x).
Proof.
  intros Hb Hl Hst Hk He. apply wp_zoom, wp_wrap. rewrite get_set. eapply wp_mono; [by apply Commit_law|].
  intros [[]|e] st' [_ Hc]; cbn [map_err]; rewrite set_set.
  - apply Hk. etrans; [exact Hc|]. by apply apply_batch_proper.
  - apply He. destruct Hc as [Hc _]. unfold same_store in *. by rewrite Hc.
Qed.

(** Staging the block, its height and its state. *)
Lemma wp_stage_block {A} header data signature st h (k : bs_batch ST PK -> M X E A) Q x :
  c_height (bs_contents (get x)) = Ok h -> h < Header_Height (sh_Header header) -> signature = sh_Signature header ->
  (forall s b, same_store x s -> bs_staged b (block_batch header data st) -> wp (k b) Q (set s x)) ->
  (forall s e, same_store x s -> Q (Err (err e)) (set s x)) ->
  wp (batch ← on st_NewBatch;
      batch ← on (batch_SaveBlockData header data signature batch);
      batch ← on (batch_SetHeight (Header_Height (sh_Header header)) batch);
      batch ← on (batch_UpdateState st batch);
      k batch) Q x.
Proof.
  intros Hc Hlt -> Hk He. apply wp_new_batch; [|done]. intros s1 b1 S1 B1.
  eapply wp_stage; [apply SaveBlockData_law|exact B1|done| |done]. intros s2 b2 l2 S2 -> B2.
  eapply wp_stage; [apply SetHeight_law|exact B2|done| |done]. intros s3 b3 l3 S3 (h0 & Hh0 & ->) B3.
  assert (h0 = h) as -> by (rewrite (c_height_proper _ _ _ S2) in Hh0; congruence).
  replace (_ <=? h) with false in B3 by (symmetry; apply Z.leb_gt; lia).
  eapply wp_stage; [apply UpdateState_law|exact B3|done| |done]. intros s4 b4 l4 S4 -> B4. by apply Hk.
Qed.

(** Staging and committing a state and its height. *)
Lemma wp_persist st h Q x :
  c_height (bs_contents (get x)) = Ok h -> h <= LastBlockHeight st -> state_wf st ->
  (forall s, bs_contents s ≡ apply_batch (bs_contents (get x)) [StHeight (LastBlockHeight st); StState st] -> Q (Ok tt) (set s x)) ->
  (forall s e, same_store x s -> Q (Err (err e)) (set s x)) ->
  wp (batch ← on st_NewBatch;
      batch ← on (batch_SetHeight (LastBlockHeight st) batch);
      batch ← on (batch_UpdateState st batch);
      on (batch_Commit batch)) Q x.
Proof.
  intros Hc Hle Hst Hk He. apply wp_new_batch; [|done]. intros s1 b1 S1 B1.
  eapply wp_stage; [apply SetHeight_law|exact B1|done| |done]. intros s2 b2 l2 S2 (h0 & Hh0 & ->) B2.
  assert (h0 = h) as -> by (rewrite (c_height_proper _ _ _ S1) in Hh0; congruence).
  eapply wp_stage; [apply UpdateState_law|exact B2|done| |done]. intros s3 b3 l3 S3 -> B3.
  eapply wp_commit; [exact B3| |done| |done].
  { assert (is_u64 (LastBlockHeight st)) by apply Hst. destruct (_ <=? _); repeat apply Forall_cons_2; done. }
  intros s4 C4. apply Hk. etrans; [exact C4|]. destruct (Z.leb_spec (LastBlockHeight st) h) as [Hge|]; [|done].
  assert (LastBlockHeight st = h) as -> by lia. simpl. constructor; done.
Qed.

End lens.
