(* ===== verification/BlockCache.v ===== *)
(** * The cache of seen blocks and DA inclusion ([block/internal/cache/generic_cache.go])

    A [Cache] remembers which hashes were seen and at which DA height the block
    of a height was included. Its maps are volatile; [SaveToStore] writes the
    pairs (block height, DA height) as one metadata value, and
    [RestoreFromStore] installs them again under placeholder hashes. The
    theorems: what each operation does to the inclusion status of a height, and
    that a save followed by a restart keeps it for every height that is not
    final. *)

From S2P Require Import Prelude Datastore Types Store StoreFacts StoreAPI.
From stdpp Require Import base gmap strings list numbers.
Open Scope Z_scope.

(** [for h, hash := range m]: every entry once, in an order that Go leaves open. *)
Class MapOrder := { range_map : gmap Z string -> list (Z * string) }.
Class MapOrderLaws `{MapOrder} := { range_map_perm m : range_map m ≡ₚ map_to_list m }.

Record snapshotEntry := MkEntry { blockHeight : Z; daHeight : Z }.

Definition snapshotEntrySize : Z := 16.

Record Cache := MkCache
  { hashes : gmap string bool;
    daIncluded : gmap string Z;
    hashByHeight : gmap Z string;
    maxDAHeight : Z;
    (** [store != nil]. *)
    hasStore : bool;
    storeKeyPrefix : string }.

Definition set_hashes x (c : Cache) : Cache :=
  MkCache x (daIncluded c) (hashByHeight c) (maxDAHeight c) (hasStore c) (storeKeyPrefix c).
Definition set_daIncluded x (c : Cache) : Cache :=
  MkCache (hashes c) x (hashByHeight c) (maxDAHeight c) (hasStore c) (storeKeyPrefix c).
Definition set_hashByHeight x (c : Cache) : Cache :=
  MkCache (hashes c) (daIncluded c) x (maxDAHeight c) (hasStore c) (storeKeyPrefix c).
Definition set_maxDAHeight x (c : Cache) : Cache :=
  MkCache (hashes c) (daIncluded c) (hashByHeight c) x (hasStore c) (storeKeyPrefix c).

Definition NewCache (s : bool) (keyPrefix : string) : Cache := MkCache ∅ ∅ ∅ 0 s keyPrefix.

Definition snapshotKey (c : Cache) : string := storeKeyPrefix c +:+ "__snap".

(** ** Operations in memory *)

Definition isSeen (hash : string) (c : Cache) : bool := default false (hashes c !! hash).

Definition setSeen (hash : string) (height : Z) (c : Cache) : Cache :=
  match hashByHeight c !! height with
  | Some existing =>
      if decide (existing = hash) then set_hashes (<[existing := true]> (hashes c)) c
      else set_hashByHeight (<[height := hash]> (hashByHeight c)) (set_hashes (<[hash := true]> (hashes c)) c)
  | None => set_hashByHeight (<[height := hash]> (hashByHeight c)) (set_hashes (<[hash := true]> (hashes c)) c)
  end.

Definition getDAIncluded (hash : string) (c : Cache) : option Z := daIncluded c !! hash.

Definition getDAIncludedByHeight (height : Z) (c : Cache) : option Z :=
  match hashByHeight c !! height with
  | None => None
  | Some hash => daIncluded c !! hash
  end.

(** The compare-and-swap loop, which succeeds in its first round as the cache's
    lock is held. *)
Definition setMaxDAHeight (daHeight : Z) (c : Cache) : Cache :=
  if daHeight <=? maxDAHeight c then c else set_maxDAHeight daHeight c.

Definition setDAIncluded (hash : string) (daHeight height : Z) (c : Cache) : Cache :=
  let c :=
    match hashByHeight c !! height with
    | Some prev => if decide (prev = hash) then c else set_daIncluded (delete prev (daIncluded c)) c
    | None => c
    end in
  let c := set_daIncluded (<[hash := daHeight]> (daIncluded c)) c in
  let c := set_hashByHeight (<[height := hash]> (hashByHeight c)) c in
  setMaxDAHeight daHeight c.

Definition removeDAIncluded (hash : string) (c : Cache) : Cache :=
  set_daIncluded (delete hash (daIncluded c)) c.

Definition deleteAllForHeight (height : Z) (c : Cache) : Cache :=
  match hashByHeight c !! height with
  | None => c
  | Some hash =>
      let c := set_hashByHeight (delete height (hashByHeight c)) c in
      let c := set_hashes (delete hash (hashes c)) c in
      set_daIncluded (delete hash (daIncluded c)) c
  end.

Definition daIncludedLen (c : Cache) : nat := size (daIncluded c).

(** ** Snapshots *)

Definition encodeSnapshot (entries : list snapshotEntry) : bytes :=
  entries ≫= fun e => put_uint64_le (blockHeight e) ++ put_uint64_le (daHeight e).

Fixpoint decode_entries (n : nat) (buf : bytes) : list snapshotEntry :=
  match n with
  | O => []
  | S n' => MkEntry (uint64_le buf) (uint64_le (drop 8 buf)) :: decode_entries n' (drop 16 buf)
  end.

Definition decodeSnapshot (buf : bytes) : list snapshotEntry :=
  if (zlen buf =? 0) || negb (zlen buf mod snapshotEntrySize =? 0) then []
  else decode_entries (Z.to_nat (zlen buf / snapshotEntrySize)) buf.

(** The sixteen digits of [height], written from the last to the first. *)
Fixpoint place_digits (n : nat) (height : Z) (acc : string) : string :=
  match n with
  | O => acc
  | S n' => place_digits n' (Z.shiftr height 4) (String (hex_digit (Z.land height 15)) acc)
  end.

Definition HeightPlaceholderKey (prefix : string) (height : Z) : string :=
  prefix +:+ "__h/" +:+ place_digits 16 height "".

Definition restore_entry (finalizedHeight : Z) (c : Cache) (e : snapshotEntry) : Cache :=
  let c := setMaxDAHeight (daHeight e) c in
  if blockHeight e <=? finalizedHeight then c else
  let placeholder := HeightPlaceholderKey (storeKeyPrefix c) (blockHeight e) in
  let c := set_daIncluded (<[placeholder := daHeight e]> (daIncluded c)) c in
  set_hashByHeight (<[blockHeight e := placeholder]> (hashByHeight c)) c.

Section persistence.
Context {ST PK : Type} `{BlockStore ST PK} `{MapOrder}.

Definition snapshot_entries (c : Cache) : list snapshotEntry :=
  omap (fun '(h, hash) =>
          match daIncluded c !! hash with
          | None => None
          | Some daH => Some (MkEntry h daH)
          end) (range_map (hashByHeight c)).

(** [hasStore c] and a prefix: the cache is persistent. *)
Definition persistent (c : Cache) : bool := hasStore c && negb (bool_decide (storeKeyPrefix c = "")).

Definition persistSnapshot (c : Cache) : M ST store_error unit :=
  if negb (persistent c) then mret tt else
  st_SetMetadata (snapshotKey c) (encodeSnapshot (snapshot_entries c)).

Definition RestoreFromStore (finalizedHeight : Z) (c : Cache) : M ST store_error Cache :=
  if negb (persistent c) then mret c else
  r ← attempt (st_GetMetadata (snapshotKey c));
  match r with
  | Err (SDs ErrNotFound) => mret c
  | Err e => throw e
  | Ok buf => mret (foldl (restore_entry finalizedHeight) c (decodeSnapshot buf))
  end.

Definition SaveToStore (c : Cache) : M ST store_error unit :=
  if negb (hasStore c) then mret tt else persistSnapshot c.

Definition ClearFromStore (c : Cache) : M ST store_error unit :=
  if negb (hasStore c) then mret tt else st_DeleteMetadata (snapshotKey c).

End persistence.

(** ** Facts *)

Lemma place_digits_inj n : forall a b acc acc',
  0 <= a -> 0 <= b -> String.length acc = String.length acc' ->
  place_digits n a acc = place_digits n b acc' -> a mod 16 ^ Z.of_nat n = b mod 16 ^ Z.of_nat n /\ acc = acc'.
Proof.
  induction n as [|n IH]; intros a b acc acc' Ha Hb Hl Heq; cbn [place_digits] in Heq.
  - by rewrite !Z.mod_1_r.
  - apply IH in Heq as [Hm Hacc]; [|by apply Z.shiftr_nonneg..|by cbn; rewrite Hl].
    injection Hacc as Hd ->. split; [|done].
    assert (Hland : forall z, Z.land z 15 = z mod 16) by (intros z; apply (Z.land_ones z 4); lia).
    assert (Hshift : forall z, Z.shiftr z 4 = z / 16) by (intros z; by rewrite Z.shiftr_div_pow2).
    rewrite !Hland in Hd. rewrite !Hshift in Hm.
    apply hex_digit_inj in Hd; try (apply Z.mod_pos_bound; lia).
    rewrite Nat2Z.inj_succ, Z.pow_succ_r by lia.
    rewrite !(Z.rem_mul_r _ 16) by lia. by rewrite Hd, Hm.
Qed.

Lemma placeholder_inj p a b :
  is_u64 a -> is_u64 b -> HeightPlaceholderKey p a = HeightPlaceholderKey p b -> a = b.
Proof.
  intros Ha Hb Heq. unfold HeightPlaceholderKey in Heq. do 2 apply string_app_inj_l in Heq.
  unfold is_u64 in *. apply place_digits_inj in Heq as [Hm _]; try done; try lia.
  change (16 ^ Z.of_nat 16) with two64 in Hm. by rewrite !Z.mod_small in Hm by done.
Qed.

Definition entry_wf (e : snapshotEntry) : Prop := is_u64 (blockHeight e) /\ is_u64 (daHeight e).

Lemma uint64_le_app z (b : bytes) : is_u64 z -> uint64_le (put_uint64_le z ++ b) = z.
Proof.
  intros Hz. unfold uint64_le. rewrite take_app_length' by (by rewrite length_put_uint64_le).
  rewrite <- (uint64_le_put z Hz) at 2. unfold uint64_le.
  by rewrite take_ge by (by rewrite length_put_uint64_le).
Qed.

Lemma length_encodeSnapshot es : length (encodeSnapshot es) = (16 * length es)%nat.
Proof.
  induction es as [|e es IH]; [done|]. unfold encodeSnapshot in *. cbn [mbind list_bind length].
  rewrite !length_app, IH, !length_put_uint64_le. lia.
Qed.

Lemma decode_entries_encode es : Forall entry_wf es -> decode_entries (length es) (encodeSnapshot es) = es.
Proof.
  induction 1 as [|e es [Hb Hd] Hes IH]; [done|]. unfold encodeSnapshot in *.
  cbn [mbind list_bind length decode_entries]. rewrite <- !app_assoc, uint64_le_app by done.
  rewrite drop_app_length' by (by rewrite length_put_uint64_le). rewrite uint64_le_app by done.
  rewrite (app_assoc (put_uint64_le (blockHeight e))).
  rewrite drop_app_length' by (by rewrite length_app, !length_put_uint64_le). rewrite IH. by destruct e.
Qed.

Lemma decode_encode_snapshot es : Forall entry_wf es -> decodeSnapshot (encodeSnapshot es) = es.
Proof.
  intros Hes. unfold decodeSnapshot, snapshotEntrySize, zlen. rewrite length_encodeSnapshot.
  destruct es as [|e es]; [done|].
  replace (Z.of_nat (16 * length (e :: es))) with (Z.of_nat (length (e :: es)) * 16) by lia.
  rewrite Z.mod_mul, Z.div_mul by lia. rewrite Nat2Z.id.
  destruct (Z.eqb_spec (Z.of_nat (length (e :: es)) * 16) 0) as [Hl|_]; [cbn in Hl; lia|].
  cbn [orb negb Z.eqb]. by apply decode_entries_encode.
Qed.

(** The inclusion status of a block height. *)
Definition status (c : Cache) (h : Z) : option Z := getDAIncludedByHeight h c.

(** No two heights share a hash, and the recorded maximum is one. *)
Record cache_inv (c : Cache) : Prop := MkCacheInv
  { inv_hash h h' k : hashByHeight c !! h = Some k -> hashByHeight c !! h' = Some k -> h = h';
    inv_max k d : daIncluded c !! k = Some d -> d <= maxDAHeight c }.

(** [hash] belongs to [height] only. *)
Definition hash_of (hash : string) (height : Z) (c : Cache) : Prop :=
  forall h, hashByHeight c !! h = Some hash -> h = height.

Lemma setMaxDAHeight_spec d c :
  hashByHeight (setMaxDAHeight d c) = hashByHeight c /\ daIncluded (setMaxDAHeight d c) = daIncluded c /\
  maxDAHeight (setMaxDAHeight d c) = Z.max (maxDAHeight c) d /\ storeKeyPrefix (setMaxDAHeight d c) = storeKeyPrefix c.
Proof. unfold setMaxDAHeight. destruct (Z.leb_spec d (maxDAHeight c)); simpl; split_and!; try done; lia. Qed.

Lemma setDAIncluded_hashes hash da height c :
  hashByHeight (setDAIncluded hash da height c) = <[height := hash]> (hashByHeight c).
Proof.
  unfold setDAIncluded. rewrite (proj1 (setMaxDAHeight_spec _ _)). cbn [hashByHeight set_hashByHeight set_daIncluded].
  destruct (hashByHeight c !! height) as [prev|]; [|done]. by destruct (decide (prev = hash)).
Qed.

Lemma setDAIncluded_included hash da height c :
  daIncluded (setDAIncluded hash da height c) =
  <[hash := da]> (match hashByHeight c !! height with
                  | Some prev => if decide (prev = hash) then daIncluded c else delete prev (daIncluded c)
                  | None => daIncluded c
                  end).
Proof.
  unfold setDAIncluded. rewrite (proj1 (proj2 (setMaxDAHeight_spec _ _))). cbn [daIncluded set_hashByHeight set_daIncluded].
  destruct (hashByHeight c !! height) as [prev|]; [|done]. by destruct (decide (prev = hash)).
Qed.

Lemma setDAIncluded_inv hash da height c :
  cache_inv c -> hash_of hash height c -> cache_inv (setDAIncluded hash da height c).
Proof.
  intros [Hinj Hmax] Hof. split.
  - rewrite setDAIncluded_hashes. intros h h' k.
    rewrite !lookup_insert. intros Hh Hh'. repeat case_decide; simplify_eq; try done;
      [by apply Hof|symmetry; by apply Hof|by eapply Hinj].
  - intros k d. rewrite setDAIncluded_included.
    assert (Hm : maxDAHeight (setDAIncluded hash da height c) = Z.max (maxDAHeight c) da).
    { unfold setDAIncluded. rewrite (proj1 (proj2 (proj2 (setMaxDAHeight_spec _ _)))). cbn [maxDAHeight set_hashByHeight set_daIncluded].
      destruct (hashByHeight c !! height) as [prev|]; [|done]. by destruct (decide (prev = hash)). }
    rewrite Hm, lookup_insert. case_decide; [intros [= <-]; lia|].
    destruct (hashByHeight c !! height) as [prev|]; [destruct (decide (prev = hash))|].
    + intros ?%Hmax. lia.
    + rewrite lookup_delete_Some. intros [_ ?%Hmax]. lia.
    + intros ?%Hmax. lia.
Qed.

(** Recording an inclusion sets the status of its height and of no other. *)
Lemma setDAIncluded_status hash da height c h :
  cache_inv c -> hash_of hash height c ->
  status (setDAIncluded hash da height c) h = if decide (h = height) then Some da else status c h.
Proof.
  intros [Hinj Hmax] Hof. unfold status, getDAIncludedByHeight.
  rewrite setDAIncluded_hashes, setDAIncluded_included, lookup_insert.
  case_decide; subst; [rewrite decide_True by done; by rewrite lookup_insert_eq|].
  rewrite decide_False by done. destruct (hashByHeight c !! h) as [k|] eqn:Hk; [|done].
  rewrite lookup_insert_ne by (intros <-; apply Hof in Hk; congruence).
  destruct (hashByHeight c !! height) as [prev|] eqn:Hp; [|done]. destruct (decide (prev = hash)); [done|].
  rewrite lookup_delete_ne; [done|]. intros ->. by pose proof (Hinj _ _ _ Hp Hk).
Qed.

(** [c'] is [c] once the heights above [lo] and up to [hi] are forgotten. A hash
    that a forgotten height shares with another one takes the status of that one
    away too; no other status changes. *)
Record forgot (lo hi : Z) (c c' : Cache) : Prop := {
  fg_hash h : hashByHeight c' !! h = if decide (lo < h <= hi) then None else hashByHeight c !! h;
  fg_gone h : lo < h <= hi -> status c' h = None;
  fg_either h : status c' h = None \/ status c' h = status c h;
  fg_kept h : ~ (lo < h <= hi) -> (forall h', lo < h' <= hi -> hashByHeight c !! h' <> hashByHeight c !! h) ->
    status c' h = status c h }.

Lemma forgot_none lo c : forgot lo lo c c.
Proof. split; intros; [by rewrite decide_False by lia|lia|by right|done]. Qed.

Lemma deleteAllForHeight_forgot height c : forgot (height - 1) height c (deleteAllForHeight height c).
Proof.
  assert (Hin : forall h, height - 1 < h <= height <-> h = height) by lia.
  unfold deleteAllForHeight. destruct (hashByHeight c !! height) as [k|] eqn:Hk; simpl.
  - assert (Hh : forall h, delete height (hashByHeight c) !! h = if decide (height - 1 < h <= height) then None else hashByHeight c !! h).
    { intros h. rewrite lookup_delete. by repeat case_decide; try lia. }
    split; unfold status, getDAIncludedByHeight; simpl; intros h; rewrite ?Hh.
    + done.
    + intros Hr. by rewrite decide_True.
    + case_decide; [by left|]. destruct (hashByHeight c !! h) as [k'|]; [|by right]. rewrite lookup_delete. case_decide; auto.
    + intros Hn Hd. rewrite decide_False by done. specialize (Hd height ltac:(lia)). rewrite Hk in Hd.
      destruct (hashByHeight c !! h) as [k'|]; [|done]. rewrite lookup_delete_ne; [done|congruence].
  - split; intros h; unfold status, getDAIncludedByHeight.
    + case_decide as Hr; [by apply Hin in Hr as ->|done].
    + intros ->%Hin. by rewrite Hk.
    + by right.
    + done.
Qed.

Lemma forgot_trans lo mid hi c c1 c2 : lo <= mid <= hi -> forgot lo mid c c1 -> forgot mid hi c1 c2 -> forgot lo hi c c2.
Proof.
  intros Hle [A1 A2 A3 A4] [B1 B2 B3 B4]. split; intros h.
  - rewrite B1, A1. by repeat case_decide; try lia.
  - intros Hr. destruct (decide (h <= mid)); [|apply B2; lia].
    destruct (B3 h) as [?|Heq]; [done|]. rewrite Heq. apply A2. lia.
  - destruct (B3 h) as [?|Heq]; [by left|]. rewrite Heq. apply A3.
  - intros Hn Hd. rewrite B4, A4; [done|lia| |lia|].
    + intros h' Hh'. apply Hd. lia.
    + intros h' Hh'. rewrite !A1. rewrite !decide_False by lia. apply Hd. lia.
Qed.

(** ** A save, a restart and a restore *)

Section restart.
Context {ST PK : Type} `{BlockStore ST PK} `{!PubKeys PK} `{!BlockStoreLaws ST PK} `{MapOrderLaws}.

Definition cache_wf (c : Cache) : Prop :=
  (forall h k, hashByHeight c !! h = Some k -> is_u64 h) /\
  (forall k d, daIncluded c !! k = Some d -> is_u64 d).

Lemma elem_of_snapshot c e :
  e ∈ snapshot_entries c <-> status c (blockHeight e) = Some (daHeight e).
Proof.
  unfold snapshot_entries, status, getDAIncludedByHeight. rewrite list_elem_of_omap. split.
  - intros ([h k] & Hin & He). rewrite range_map_perm, elem_of_map_to_list in Hin.
    destruct (daIncluded c !! k) as [d|] eqn:Hd; simplify_eq. simpl. by rewrite Hin.
  - destruct (hashByHeight c !! blockHeight e) as [k|] eqn:Hk; [|done]. intros Hd.
    exists (blockHeight e, k). rewrite range_map_perm, elem_of_map_to_list, Hd. by destruct e.
Qed.

Lemma snapshot_wf c : cache_wf c -> Forall entry_wf (snapshot_entries c).
Proof.
  intros [Hh Hd]. apply list.Forall_forall. intros e He%elem_of_snapshot. revert He.
  unfold status, getDAIncludedByHeight. destruct (hashByHeight c !! _) as [k|] eqn:Hk; [|done].
  intros He. split; eauto.
Qed.

Lemma NoDup_snapshot c : NoDup (blockHeight <$> snapshot_entries c).
Proof.
  unfold snapshot_entries. pose proof (NoDup_fst_map_to_list (hashByHeight c)) as Hnd.
  rewrite <- range_map_perm in Hnd. revert Hnd. generalize (range_map (hashByHeight c)) as l.
  induction l as [|[h k] l IH]; simpl; intros Hnd; [constructor|].
  apply list.NoDup_cons in Hnd as [Hh Hnd]. destruct (daIncluded c !! k); [|by apply IH].
  simpl. apply list.NoDup_cons. split; [|by apply IH]. intros (e & -> & He)%list_elem_of_fmap.
  apply Hh. apply list_elem_of_omap in He as ([h' k'] & Hin & He). simpl in *.
  destruct (daIncluded c !! k'); simplify_eq. apply list_elem_of_fmap. by exists (h', k').
Qed.

(** Restoring entries, one after the other. *)
Lemma restore_fold f es : forall c,
  Forall entry_wf es -> NoDup (blockHeight <$> es) ->
  (forall e, e ∈ es -> hashByHeight c !! blockHeight e = None) ->
  (forall h k, hashByHeight c !! h = Some k -> is_u64 h /\ k = HeightPlaceholderKey (storeKeyPrefix c) h) ->
  let c' := foldl (restore_entry f) c es in
  (forall e, e ∈ es -> f < blockHeight e -> status c' (blockHeight e) = Some (daHeight e)) /\
  (forall h, (forall e, e ∈ es -> f < blockHeight e -> blockHeight e <> h) -> status c' h = status c h) /\
  maxDAHeight c' = foldl Z.max (maxDAHeight c) (daHeight <$> es).
Proof.
  induction es as [|e es IH]; intros c Hwf Hnd Hfree Hph; simpl; [split_and!; [by intros ? ?%elem_of_nil|done..]|].
  apply Forall_cons_1 in Hwf as [[Heb Hed] Hwf]. cbn [fmap list_fmap] in Hnd. apply list.NoDup_cons in Hnd as [Hnin Hnd].
  destruct (setMaxDAHeight_spec (daHeight e) c) as (Mh & Md & Mm & Mp).
  set (c1 := restore_entry f c e).
  assert (Hc1 : storeKeyPrefix c1 = storeKeyPrefix c /\ maxDAHeight c1 = Z.max (maxDAHeight c) (daHeight e) /\
    (forall h, hashByHeight c1 !! h =
       if decide (h = blockHeight e /\ f < blockHeight e) then Some (HeightPlaceholderKey (storeKeyPrefix c) h)
       else hashByHeight c !! h) /\
    (forall h, status c1 h = if decide (h = blockHeight e /\ f < blockHeight e) then Some (daHeight e) else status c h)).
  { unfold c1, restore_entry, status, getDAIncludedByHeight. rewrite Mp.
    destruct (Z.leb_spec (blockHeight e) f) as [Hle|Hgt].
    - rewrite Mp, Mm, Mh, Md. split_and!; try done; intros h; rewrite decide_False by lia; done.
    - cbn [storeKeyPrefix maxDAHeight hashByHeight daIncluded set_hashByHeight set_daIncluded].
      rewrite Mp, Mm, Mh, Md. split_and!; try done; intros h; rewrite lookup_insert; case_decide; subst.
      + by rewrite decide_True.
      + rewrite decide_False by naive_solver. done.
      + rewrite lookup_insert_eq. by rewrite decide_True.
      + rewrite decide_False by naive_solver. destruct (hashByHeight c !! h) as [k|] eqn:Hk; [|done].
        rewrite lookup_insert_ne; [done|]. intros Heq. destruct (Hph _ _ Hk) as [Hhu ->].
        by apply placeholder_inj in Heq. }
  destruct Hc1 as (Cp & Cm & Ch & Cs).
  destruct (IH c1) as (A1 & A2 & A3); [done|done|..].
  - intros e' He'. rewrite Ch, decide_False; [apply Hfree; by right|].
    intros [Heq _]. apply Hnin. rewrite <- Heq. by apply list_elem_of_fmap_2.
  - intros h k. rewrite Ch, Cp. destruct (decide _) as [[-> _]|_]; [|apply Hph]. intros Hk. by simplify_eq.
  - split_and!.
    + intros e' [->|He']%elem_of_cons Hgt; [|by apply A1]. rewrite A2, Cs, decide_True; [done..|].
      intros e' He' _ Heq. apply Hnin. rewrite <- Heq. by apply list_elem_of_fmap_2.
    + intros h Hh. rewrite A2, Cs.
      * rewrite decide_False; [done|]. intros [-> Hgt]. by apply (Hh e); [left|..].
      * intros e' He'. apply Hh. by right.
    + by rewrite A3, Cm.
Qed.

(** A graceful shutdown and a start: [SaveToStore], then [NewCache] and
    [RestoreFromStore] with the height that is final by then. *)
Definition restart (finalizedHeight : Z) (c : Cache) : M ST store_error Cache :=
  _ ← SaveToStore c;
  RestoreFromStore finalizedHeight (NewCache (hasStore c) (storeKeyPrefix c)).

Lemma foldl_max_le (l : list Z) m : m <= foldl Z.max m l /\ Forall (fun x => x <= foldl Z.max m l) l.
Proof.
  revert m. induction l as [|x l IH]; intros m; simpl; [split; [lia|constructor]|].
  destruct (IH (Z.max m x)) as [Hle Hall]. split; [lia|]. constructor; [lia|done].
Qed.

Lemma foldl_max_ub (l : list Z) m b : m <= b -> Forall (fun x => x <= b) l -> foldl Z.max m l <= b.
Proof. intros Hm Hl. revert m Hm. induction Hl; intros m Hm; simpl; [done|]. apply IHHl. lia. Qed.

(** The cache that a restore builds from a snapshot of [c]. *)
Lemma restore_snapshot f c :
  cache_inv c -> cache_wf c ->
  let c' := foldl (restore_entry f) (NewCache (hasStore c) (storeKeyPrefix c)) (snapshot_entries c) in
  (forall h, status c' h = if decide (f < h) then status c h else None) /\
  (forall h d, status c h = Some d -> d <= maxDAHeight c') /\
  maxDAHeight c' <= Z.max 0 (maxDAHeight c).
Proof.
  intros Hinv Hwf.
  destruct (restore_fold f (snapshot_entries c) (NewCache (hasStore c) (storeKeyPrefix c)))
    as (A1 & A2 & A3); [by apply snapshot_wf|by apply NoDup_snapshot|by intros|by intros|].
  split_and!.
  - intros h. destruct (status c h) as [d|] eqn:Hs.
    + destruct (decide (f < h)) as [Hf|Hf].
      * apply (A1 (MkEntry h d)); [|done]. by apply elem_of_snapshot.
      * rewrite A2; [done|]. intros e He Hgt Heq. lia.
    + replace (if decide (f < h) then None else None) with (None (A := Z)) by by destruct (decide _).
      rewrite A2; [done|]. intros e He%elem_of_snapshot Hgt <-. congruence.
  - intros h d Hd. rewrite A3. destruct (foldl_max_le (daHeight <$> snapshot_entries c) 0) as [_ Hall].
    rewrite Forall_fmap, list.Forall_forall in Hall. apply (Hall (MkEntry h d)).
    by apply (elem_of_snapshot c (MkEntry h d)).
  - rewrite A3. apply foldl_max_ub; [simpl; lia|]. rewrite Forall_fmap. apply list.Forall_forall.
    intros e He%elem_of_snapshot. simpl. revert He. unfold status, getDAIncludedByHeight.
    destruct (hashByHeight c !! _) as [k|]; [|done]. intros Hd. pose proof (inv_max c Hinv _ _ Hd). lia.
Qed.

(** C28: The DA inclusion status survives a restart. On a store that does not
    fail, saving the cache and restoring it with some height final succeeds; in
    the restored cache every height above the final one has the DA height it
    had, the heights that are final have none, and the highest DA height is at
    least that of every block included before and no more than it was. *)
Theorem snapshot_survives_restart f c s :
  persistent c = true -> cache_inv c -> cache_wf c -> bs_healthy s ->
  exists c' s', restart f c s = (Ok c', s') /\
    (forall h, getDAIncludedByHeight h c' = if decide (f < h) then getDAIncludedByHeight h c else None) /\
    (forall h d, getDAIncludedByHeight h c = Some d -> d <= maxDAHeight c') /\
    maxDAHeight c' <= Z.max 0 (maxDAHeight c).
Proof.
  intros Hp Hinv Hwf Hh. unfold restart, SaveToStore, persistSnapshot. rewrite Hp.
  unfold persistent in Hp. apply andb_prop in Hp as [Hst Hpre]. rewrite Hst. cbn [negb].
  pose proof (SetMetadata_law (snapshotKey c) (encodeSnapshot (snapshot_entries c)) s) as Hset.
  unfold wp in Hset. destruct (st_SetMetadata _ _ s) as [[[]|e] s1] eqn:Hrun; simpl in Hset; [|tauto].
  destruct Hset as [Hh1 Hc1]. specialize (Hh1 Hh). rewrite (run_bind _ _ _ _ _ Hrun).
  unfold RestoreFromStore, persistent. cbn [hasStore storeKeyPrefix NewCache]. rewrite Hpre. cbn [andb negb].
  pose proof (GetMetadata_law (snapshotKey c) s1) as Hget. unfold wp in Hget.
  change (snapshotKey (NewCache true (storeKeyPrefix c))) with (snapshotKey c).
  assert (Hm : c_meta (bs_contents s1) (snapshotKey c) = Ok (encodeSnapshot (snapshot_entries c))).
  { rewrite Hc1. apply upd_eq. }
  unfold attempt at 1. unfold mbind at 1, M_bind at 1.
  destruct (st_GetMetadata (snapshotKey c) s1) as [r s2]. simpl in Hget.
  destruct Hget as (_ & _ & [->|[? _]]); [|done]. rewrite Hm.
  eexists _, s2. split; [done|]. rewrite decode_encode_snapshot by by apply snapshot_wf.
  rewrite <- Hst. by apply restore_snapshot.
Qed.

End restart.
