(* ===== verification/Pending.v ===== *)
(** * Blocks that wait for DA submission ([block/internal/cache/pending_base.go],
    [pending_headers.go], [pending_data.go])

    A [pendingBase] knows the height of the last item that was submitted and
    serves the items above it from the store, through an LRU cache of
    [github.com/hashicorp/golang-lru], which is the class [LRU]. The theorems:
    [getPending] returns exactly the items of the pending heights, in order,
    whatever the LRU has evicted, and the data component advances past empty
    blocks only. *)

From S2P Require Import Prelude Datastore Types Serialization Store StoreFacts StoreAPI.
From stdpp Require Import base gmap strings list numbers.
Open Scope Z_scope.

(** ** The LRU cache *)

Class LRU (C : Type -> Type) := {
  lru_New : forall {V}, Z -> C V;
  lru_Peek : forall {V}, Z -> C V -> option V;
  (** [Get] marks the entry as recently used. *)
  lru_Get : forall {V}, Z -> C V -> option V * C V;
  lru_Add : forall {V}, Z -> V -> C V -> C V
}.

(** An added entry is there; any other one may be evicted; nothing else changes. *)
Class LRULaws (C : Type -> Type) `{LRU C} := {
  Peek_New {V} n k : lru_Peek k (lru_New n : C V) = None;
  Get_Peek {V} k (c : C V) : (lru_Get k c).1 = lru_Peek k c;
  Peek_Get {V} k k' (c : C V) : lru_Peek k' (lru_Get k c).2 = lru_Peek k' c;
  Peek_Add {V} k (v : V) c k' v' :
    lru_Peek k' (lru_Add k v c) = Some v' -> (k' = k /\ v' = v) \/ (k' <> k /\ lru_Peek k' c = Some v')
}.

Definition DefaultPendingCacheSize : Z := 200000.

Inductive cache_error :=
| CStore (e : store_error)
| CTypes (e : terror)
| ErrInFlight
| CMsg (msg : string)
(** A nil dereference. *)
| CPanic.
#[export] Instance cache_error_eq_dec : EqDecision cache_error.
Proof. solve_decision. Defined.

Record pendingBase (C : Type -> Type) (T : Type) := MkPending
  { metaKey : string;
    lastHeight : Z;
    pendingCache : C T }.
Arguments MkPending {C T}.
Arguments metaKey {C T}.
Arguments lastHeight {C T}.
Arguments pendingCache {C T}.

Definition set_lastHeight {C T} h (pb : pendingBase C T) : pendingBase C T :=
  MkPending (metaKey pb) h (pendingCache pb).
Definition set_pendingCache {C T} c (pb : pendingBase C T) : pendingBase C T :=
  MkPending (metaKey pb) (lastHeight pb) c.

Section pending.
Context {ST PK : Type} `{BlockStore ST PK} {C : Type -> Type} `{LRU C}.

Definition SM (A : Type) : Type := M ST cache_error A.
Definition on_st {A} (m : M ST store_error A) : SM A := wrap CStore m.

(** ** The generic part *)

(** A method of the component next to the store. *)
Definition PM (T A : Type) : Type := M (pendingBase C T * ST) cache_error A.
Definition p_store {T A} (m : SM A) : PM T A := zoom snd (fun st x => (x.1, st)) m.
Definition p_gets {T A} (f : pendingBase C T -> A) : PM T A := gets (fun x => f x.1).
Definition p_modify {T} (f : pendingBase C T -> pendingBase C T) : PM T unit := modify (fun x => (f x.1, x.2)).

Section base.
Context {T : Type} (fetch : Z -> SM T).

Definition pending_init (metaKey : string) : SM Z :=
  r ← attempt (st_GetMetadata metaKey);
  match r with
  | Err (SDs ErrNotFound) => mret 0
  | Err e => throw (CStore e)
  | Ok raw =>
      if negb (zlen raw =? 8) then throw (CMsg "invalid length of last submitted height")
      else mret (uint64_le raw)
  end.

Definition newPendingBase (metaKey : string) : SM (pendingBase C T) :=
  lsh ← pending_init metaKey;
  mret (MkPending metaKey lsh (lru_New DefaultPendingCacheSize)).

(** Fetch an item and cache it. *)
Definition fetch_add (h : Z) : PM T T :=
  item ← p_store (fetch h);
  _ ← p_modify (fun pb => set_pendingCache (lru_Add h item (pendingCache pb)) pb);
  mret item.

(** The first loop: fetch what is not cached. *)
Fixpoint fetch_missing (hs : list Z) : PM T unit :=
  match hs with
  | [] => mret tt
  | h :: hs' =>
      cached ← p_gets (fun pb => lru_Peek h (pendingCache pb));
      match cached with
      | Some _ => fetch_missing hs'
      | None => _ ← fetch_add h; fetch_missing hs'
      end
  end.

(** The second loop: collect the items from the cache. *)
Fixpoint collect (hs : list Z) (pending : list T) : PM T (list T) :=
  match hs with
  | [] => mret pending
  | h :: hs' =>
      cached ← p_gets (fun pb => (lru_Get h (pendingCache pb)).1);
      _ ← p_modify (fun pb => set_pendingCache (lru_Get h (pendingCache pb)).2 pb);
      match cached with
      | Some item => collect hs' (pending ++ [item])
      | None => item ← fetch_add h; collect hs' (pending ++ [item])
      end
  end.

Definition getPending : PM T (list T) :=
  lastSubmitted ← p_gets lastHeight;
  storeHeight ← p_store (on_st st_Height);
  if lastSubmitted =? storeHeight then mret [] else
  if storeHeight <? lastSubmitted then
    throw (CMsg "height of last submitted item is greater than height of last item") else
  let pendingCount := sub64 storeHeight lastSubmitted in
  let endHeight := if DefaultPendingCacheSize <? pendingCount
                   then add64 lastSubmitted DefaultPendingCacheSize else storeHeight in
  let heights := z_range (lastSubmitted + 1) endHeight in
  _ ← fetch_missing heights;
  collect heights [].

Definition numPending : PM T Z :=
  height ← attempt (p_store (on_st st_Height));
  match height with
  | Err _ => mret 0
  | Ok height => lsh ← p_gets lastHeight; mret (sub64 height lsh)
  end.

Definition setLastSubmittedHeight (new : Z) : PM T unit :=
  lsh ← p_gets lastHeight;
  if lsh <? new then
    _ ← p_modify (set_lastHeight new);
    key ← p_gets metaKey;
    _ ← attempt (p_store (on_st (st_SetMetadata key (put_uint64_le new))));
    mret tt
  else mret tt.

End base.

(** ** Headers *)

Definition fetchSignedHeader (height : Z) : SM (SignedHeader PK) :=
  header ← on_st (st_GetHeader height);
  if Header_Height (sh_Header header) =? 0 then throw ErrInFlight else mret header.

Definition PendingHeaders : Type := pendingBase C (SignedHeader PK).

Definition NewPendingHeaders : SM PendingHeaders := newPendingBase LastSubmittedHeaderHeightKey.

(** ** Data *)

Definition LastSubmittedDataHeightKey : string := "last-submitted-data-height".

(** [data.Height()], which dereferences the metadata. *)
Definition Data_Height (d : Data) : res cache_error Z :=
  match d_Metadata d with Some m => Ok (m_Height m) | None => Err CPanic end.

Definition fetchData (height : Z) : SM Data :=
  block ← on_st (st_GetBlockData height);
  h ← lift_res (Data_Height block.2);
  if h =? 0 then throw ErrInFlight else mret block.2.

Definition PendingData : Type := pendingBase C Data.

Definition NewPendingData : SM PendingData := newPendingBase LastSubmittedDataHeightKey.

(** The loop of [advancePastEmptyData]; its early returns are silent. *)
Fixpoint advance_loop (hs : list Z) : PM Data unit :=
  match hs with
  | [] => mret tt
  | h :: hs' =>
      r ← attempt (p_store (fetchData h));
      match r with
      | Err CPanic => throw CPanic
      | Err _ => mret tt
      | Ok data =>
          if 0 <? zlen (data_txs data) then mret tt else
          _ ← setLastSubmittedHeight h;
          advance_loop hs'
      end
  end.

Definition advancePastEmptyData : PM Data unit :=
  storeHeight ← attempt (p_store (on_st st_Height));
  match storeHeight with
  | Err _ => mret tt
  | Ok storeHeight =>
      currentHeight ← p_gets lastHeight;
      advance_loop (z_range (currentHeight + 1) storeHeight)
  end.

Definition NumPendingData : PM Data Z := _ ← advancePastEmptyData; numPending.

Section marshalled.
Context `{PubKeys PK} `{Wire}.
Context `{ProtoMsg pbVersion, ProtoMsg pbHeader, ProtoMsg pbSignedHeader, ProtoMsg pbMetadata, ProtoMsg pbData}.

Fixpoint marshal_all {T} (marshal : T -> res terror bytes) (items : list T) : res cache_error (list bytes) :=
  match items with
  | [] => Ok []
  | item :: items' =>
      b ← map_err CTypes (marshal item);
      bs ← marshal_all marshal items';
      Ok (b :: bs)
  end.

Definition GetPendingHeaders : PM (SignedHeader PK) (list (SignedHeader PK) * list bytes) :=
  headers ← getPending fetchSignedHeader;
  if zlen headers =? 0 then mret ([], []) else
  marshalled ← lift_res (marshal_all marshal_signed_header headers);
  mret (headers, marshalled).

Definition GetPendingData : PM Data (list Data * list bytes) :=
  dataList ← getPending fetchData;
  if zlen dataList =? 0 then mret ([], []) else
  marshalled ← lift_res (marshal_all (Data_MarshalBinary clean_data clean_metadata) dataList);
  mret (dataList, marshalled).

End marshalled.
End pending.
