(* ===== verification/CachedStore.v ===== *)
(** * The cached store ([pkg/store/cached_store.go])

    Full and light nodes put two LRU caches and a queue of metadata writes in
    front of the block store. The record has the fields of the Go struct; the
    write loop is a goroutine, so what it has taken from the channel is a field
    too, and its two kinds of steps, taking one operation and flushing what it
    has taken, are definitions of their own. Cached headers and data are values:
    the pointers that the caches share with their callers are not modelled. *)

From stdpp Require Import base gmap strings list numbers.
From S2P Require Import Prelude Sha256 Datastore Types Serialization Store StoreAPI Pending.
Open Scope Z_scope.

(** [Remove] and [Purge] of the LRU library. *)
Class LRURemove (C : Type -> Type) := {
  lru_Remove : forall {V}, Z -> C V -> C V;
  lru_Purge : forall {V}, C V -> C V
}.

Definition DefaultHeaderCacheSize : Z := 200000.
Definition DefaultBlockDataCacheSize : Z := 200000.
Definition asyncWriteBufferSize : Z := 8192.

Record asyncWriteOp := MkWriteOp { op_key : string; op_value : bytes; op_isDelete : bool }.

(** A send on a full channel blocks: the caller waits and tries again. *)
Inductive cached_error := CSStore (e : store_error) | CSBlocked.

Module Cached.

Record CachedStore (DB PK : Type) (C : Type -> Type) := MkCached
  { cs_Store : DB;
    cs_headerCache : C (SignedHeader PK);
    cs_blockDataCache : C (SignedHeader PK * Data)%type;
    cs_writeCh : list asyncWriteOp;
    (** What the write loop has taken since its last flush. *)
    cs_ops : list asyncWriteOp;
    (** The channel is closed when the store is stopped. *)
    cs_stopped : bool }.
Arguments MkCached {DB PK C}. Arguments cs_Store {DB PK C}. Arguments cs_headerCache {DB PK C}.
Arguments cs_blockDataCache {DB PK C}. Arguments cs_writeCh {DB PK C}. Arguments cs_ops {DB PK C}.
Arguments cs_stopped {DB PK C}.

Section cached.
Context {DB : Type} `{Datastore DB} `{HashText} {PK : Type} `{PubKeys PK} `{Wire}.
Context `{ProtoMsg pbVersion, ProtoMsg pbHeader, ProtoMsg pbSignedHeader, ProtoMsg pbMetadata, ProtoMsg pbData, ProtoMsg pbState}.
Context {C : Type -> Type} `{LRU C} `{LRURemove C}.
Abbreviation CS := (CachedStore DB PK C).
Definition CM (A : Type) : Type := M CS cached_error A.

Definition set_cs_Store x (cs : CS) : CS := MkCached x (cs_headerCache cs) (cs_blockDataCache cs) (cs_writeCh cs) (cs_ops cs) (cs_stopped cs).
Definition set_cs_headerCache x (cs : CS) : CS := MkCached (cs_Store cs) x (cs_blockDataCache cs) (cs_writeCh cs) (cs_ops cs) (cs_stopped cs).
Definition set_cs_blockDataCache x (cs : CS) : CS := MkCached (cs_Store cs) (cs_headerCache cs) x (cs_writeCh cs) (cs_ops cs) (cs_stopped cs).
Definition set_cs_queue ch ops (cs : CS) : CS := MkCached (cs_Store cs) (cs_headerCache cs) (cs_blockDataCache cs) ch ops (cs_stopped cs).
Definition set_cs_stopped x (cs : CS) : CS := MkCached (cs_Store cs) (cs_headerCache cs) (cs_blockDataCache cs) (cs_writeCh cs) (cs_ops cs) x.

(** The embedded store. *)
Definition on_inner {A} (m : M DB store_error A) : CM A := zoom cs_Store set_cs_Store (wrap CSStore m).

(** Sizes of the caches, as [WithHeaderCacheSize] and [WithBlockDataCacheSize]
    set them; the library refuses a size that is not positive. *)
Definition NewCachedStore (store : DB) (headers blocks : Z) : res string CS :=
  if (headers <=? 0) || (blocks <=? 0) then Err "must provide a positive size"
  else Ok (MkCached store (lru_New headers) (lru_New blocks) [] [] false).

(** [header.MemoizeHash()] on a header of the caller. *)
Definition memoized (sh : SignedHeader PK) : SignedHeader PK :=
  match (MemoizeHash (Some (sh_Header sh))).2 with
  | Some h => MkSignedHeader h (sh_Signature sh) (sh_Signer sh) (aggregatorSignatureProvider sh) (syncNodeSignatureBytesProvider sh)
  | None => sh
  end.

Definition GetHeader (height : Z) : CM (SignedHeader PK) :=
  cs ← gets id;
  let '(hit, cache) := lru_Get height (cs_headerCache cs) in
  _ ← modify (set_cs_headerCache cache);
  match hit with
  | Some header => mret header
  | None =>
      header ← on_inner (Store.GetHeader height);
      let header := memoized header in
      _ ← modify (fun cs => set_cs_headerCache (lru_Add height header (cs_headerCache cs)) cs);
      mret header
  end.

Definition GetBlockData (height : Z) : CM (SignedHeader PK * Data) :=
  cs ← gets id;
  let '(hit, cache) := lru_Get height (cs_blockDataCache cs) in
  _ ← modify (set_cs_blockDataCache cache);
  match hit with
  | Some entry => mret entry
  | None =>
      block ← on_inner (Store.GetBlockData height);
      let '(header, data) := block in
      let header := memoized header in
      _ ← modify (fun cs => set_cs_blockDataCache (lru_Add height (header, data) (cs_blockDataCache cs)) cs);
      _ ← modify (fun cs => set_cs_headerCache (lru_Add height header (cs_headerCache cs)) cs);
      mret (header, data)
  end.

(** The loop from [fromHeight] to [toHeight]. *)
Fixpoint invalidate (h : Z) (count : nat) (cs : CS) : CS :=
  match count with
  | O => cs
  | S n => invalidate (h + 1) n
             (set_cs_blockDataCache (lru_Remove h (cs_blockDataCache cs))
               (set_cs_headerCache (lru_Remove h (cs_headerCache cs)) cs))
  end.
Definition InvalidateRange (fromHeight toHeight : Z) (cs : CS) : CS :=
  invalidate fromHeight (Z.to_nat (toHeight - fromHeight + 1)) cs.

Definition ClearCache (cs : CS) : CS :=
  set_cs_blockDataCache (lru_Purge (cs_blockDataCache cs)) (set_cs_headerCache (lru_Purge (cs_headerCache cs)) cs).

Definition Rollback (height : Z) (aggregator : bool) : CM unit :=
  currentHeight ← on_inner Height;
  _ ← on_inner (Store.Rollback height aggregator);
  modify (InvalidateRange (add64 height 1) currentHeight).

Definition PruneBlocks (height : Z) : CM unit :=
  _ ← on_inner (Store.PruneBlocks height);
  modify (InvalidateRange 1 height).

(** ** Metadata writes *)

Definition send (op : asyncWriteOp) : CM unit :=
  cs ← gets id;
  if asyncWriteBufferSize <=? zlen (cs_writeCh cs) then throw CSBlocked
  else modify (set_cs_queue (cs_writeCh cs ++ [op]) (cs_ops cs)).

Definition SetMetadata (key : string) (value : bytes) : CM unit :=
  stopped ← gets cs_stopped;
  if (stopped : bool) then on_inner (Store.SetMetadata key value) else send (MkWriteOp key value false).

Definition DeleteMetadata (key : string) : CM unit :=
  stopped ← gets cs_stopped;
  if (stopped : bool) then on_inner (Store.DeleteMetadata key) else send (MkWriteOp key [] true).

(** The write loop takes one operation. *)
Definition loop_take (cs : CS) : CS :=
  match cs_writeCh cs with
  | [] => cs
  | op :: rest => set_cs_queue rest (cs_ops cs ++ [op]) cs
  end.

(** The map [last]. *)
Definition last_ops (ops : list asyncWriteOp) : gmap string asyncWriteOp :=
  foldl (fun m o => <[op_key o := o]> m) ∅ ops.
(** The two slices; [order] is the order in which the map is iterated. *)
Definition batch_puts (order : list string) (last : gmap string asyncWriteOp) : list (string * bytes) :=
  omap (fun k => match last !! k with
                 | Some o => if op_isDelete o then None else Some (op_key o, op_value o)
                 | None => None
                 end) order.
Definition batch_deletes (order : list string) (last : gmap string asyncWriteOp) : list string :=
  omap (fun k => match last !! k with
                 | Some o => if op_isDelete o then Some (op_key o) else None
                 | None => None
                 end) order.

(** The flush after the batch window; an error is logged, and what was taken is
    given up. *)
Definition loop_flush (order : list string) (cs : CS) : CS :=
  let last := last_ops (cs_ops cs) in
  let '(_, d) := BatchMetadata (batch_puts order last) (batch_deletes order last) (cs_Store cs) in
  set_cs_queue (cs_writeCh cs) [] (set_cs_Store d cs).

(** [Close] stops the senders, waits until the loop has flushed everything, and
    clears the caches; the datastore is then closed. *)
Definition close_begin (cs : CS) : CS := set_cs_stopped true cs.
Definition close_end (cs : CS) : CS := ClearCache cs.

End cached.
End Cached.
