(* ===== verification/CachedStoreFacts.v ===== *)
(** * The cached store answers like the store behind it

    As long as blocks are written once, a read through the caches returns what
    the store holds; and metadata writes reach the store in the order in which
    they were made, however the write loop groups them. *)

From stdpp Require Import base gmap strings list numbers relations.
From S2P Require Import Prelude Sha256 Datastore Types Serialization SerializationFacts Store StoreFacts StoreMaintenance StoreAPI Pending CachedStore.
Open Scope Z_scope.

Import Cached.

(** What is removed from an LRU cache is gone, and nothing else. *)
Class LRURemoveLaws (C : Type -> Type) `{LRU C} `{LRURemove C} := {
  Peek_Remove {V} k k' (c : C V) : lru_Peek k' (lru_Remove k c) = if decide (k' = k) then None else lru_Peek k' c;
  Peek_Purge {V} k (c : C V) : lru_Peek k (lru_Purge c) = None
}.

Section facts.
Context {DB : Type} `{DatastoreLaws DB} `{HashTextLaws} {PK : Type} `{PubKeys PK} `{Wire}.
Context `{ProtoMsg pbVersion, ProtoMsg pbHeader, ProtoMsg pbSignedHeader, ProtoMsg pbMetadata, ProtoMsg pbData, ProtoMsg pbState}.
Context {C : Type -> Type} `{LRULaws C} `{!LRURemove C} `{!LRURemoveLaws C}.
Abbreviation CS := (CachedStore DB PK C).
Implicit Types (cs : CS) (v : view).
Abbreviation v_header := (view_header (PK := PK)).
Abbreviation v_block := (view_block (PK := PK)).

Definition cview (cs : CS) : view := ds_view (cs_Store cs).

(** ** Coherence *)

Record coherent (cs : CS) : Prop := {
  co_header h sh : 0 <= h -> lru_Peek h (cs_headerCache cs) = Some sh ->
    exists sh0, v_header (cview cs) h = Ok sh0 /\ sh = memoized sh0;
  co_block h b : 0 <= h -> lru_Peek h (cs_blockDataCache cs) = Some b ->
    exists sh0 d, v_block (cview cs) h = Ok (sh0, d) /\ b = (memoized sh0, d)
}.

(** The headers and blocks at the heights [P] that can be read are still read. *)
Definition kept_at (P : Z -> Prop) (v v' : view) : Prop :=
  forall h, 0 <= h -> P h ->
    (forall sh, v_header v h = Ok sh -> v_header v' h = Ok sh) /\
    (forall b, v_block v h = Ok b -> v_block v' h = Ok b).

Lemma kept_same (P : Z -> Prop) v v' :
  (forall h, 0 <= h -> P h -> sview v' (KHeader h) = sview v (KHeader h) /\ sview v' (KData h) = sview v (KData h)) ->
  kept_at P v v'.
Proof.
  intros Hs h Hh Hp. destruct (Hs h Hh Hp) as [Hk Hd]. unfold sview in *. simpl in *.
  unfold view_block, view_header, view_get. rewrite Hk, Hd. done.
Qed.

Lemma kept_block_header v h b : v_block v h = Ok b -> v_header v h = Ok b.1.
Proof.
  unfold view_block. destruct (v_header v h) as [sh|e]; simpl; [|done].
  destruct (view_get v (getDataKey h) ≫= decode_data); simpl; [|done]. by intros [= <-].
Qed.

(** A change of the store that keeps the cached heights. *)
Lemma coherent_store cs d P :
  coherent cs -> kept_at P (cview cs) (ds_view d) ->
  (forall h, 0 <= h -> lru_Peek h (cs_headerCache cs) <> None \/ lru_Peek h (cs_blockDataCache cs) <> None -> P h) ->
  coherent (set_cs_Store d cs).
Proof.
  intros [Hh Hb] Hk Hp. split.
  - intros h sh Hh0 Hpk. destruct (Hh h sh Hh0 Hpk) as (sh0 & Hv & ->). exists sh0. split; [|done].
    apply Hk; [done| |done]. apply Hp; [done|left]. simpl in Hpk. by rewrite Hpk.
  - intros h b Hh0 Hpk. destruct (Hb h b Hh0 Hpk) as (sh0 & dt & Hv & ->). exists sh0, dt. split; [|done].
    apply Hk; [done| |done]. apply Hp; [done|right]. simpl in Hpk. by rewrite Hpk.
Qed.

(** Removing entries. *)
Lemma coherent_fewer cs cs' :
  coherent cs -> cs_Store cs' = cs_Store cs ->
  (forall h sh, lru_Peek h (cs_headerCache cs') = Some sh -> lru_Peek h (cs_headerCache cs) = Some sh) ->
  (forall h b, lru_Peek h (cs_blockDataCache cs') = Some b -> lru_Peek h (cs_blockDataCache cs) = Some b) -> coherent cs'.
Proof.
  intros [Hh Hb] Hs H1' H2'. split; unfold cview; rewrite Hs; [intros h sh Hh0 Hp; by apply Hh, H1'|intros h b Hh0 Hp; by apply Hb, H2'].
Qed.

Lemma invalidate_spec count : forall h cs,
  let cs' := invalidate h count cs in
  cs_Store cs' = cs_Store cs /\ cs_writeCh cs' = cs_writeCh cs /\ cs_ops cs' = cs_ops cs /\ cs_stopped cs' = cs_stopped cs /\
  (forall h', lru_Peek h' (cs_headerCache cs') =
     if decide (h <= h' < h + Z.of_nat count) then None else lru_Peek h' (cs_headerCache cs)) /\
  (forall h', lru_Peek h' (cs_blockDataCache cs') =
     if decide (h <= h' < h + Z.of_nat count) then None else lru_Peek h' (cs_blockDataCache cs)).
Proof.
  induction count as [|n IH]; intros h cs; cbn [invalidate].
  { split_and!; try done; intros h'; rewrite decide_False by lia; done. }
  match goal with |- context [invalidate (h + 1) n ?c] => destruct (IH (h + 1) c) as (A1 & A2 & A3 & A4 & A5 & A6) end.
  split_and!; try done; intros h'; rewrite ?A5, ?A6; simpl; rewrite Peek_Remove;
    repeat case_decide; try done; lia.
Qed.

Lemma InvalidateRange_spec from to cs : let cs' := InvalidateRange from to cs in
  cs_Store cs' = cs_Store cs /\ cs_writeCh cs' = cs_writeCh cs /\ cs_ops cs' = cs_ops cs /\ cs_stopped cs' = cs_stopped cs /\
  (forall h, from <= h <= to -> lru_Peek h (cs_headerCache cs') = None /\ lru_Peek h (cs_blockDataCache cs') = None) /\
  (forall h, ~ from <= h <= to -> lru_Peek h (cs_headerCache cs') = lru_Peek h (cs_headerCache cs) /\
                                  lru_Peek h (cs_blockDataCache cs') = lru_Peek h (cs_blockDataCache cs)).
Proof.
  unfold InvalidateRange. destruct (invalidate_spec (Z.to_nat (to - from + 1)) from cs) as (A1 & A2 & A3 & A4 & A5 & A6).
  split_and!; try done; intros h Hr; rewrite A5, A6; case_decide; done || lia.
Qed.

(** ** Reads *)

Lemma coherent_add_header cs h sh0 : coherent cs -> v_header (cview cs) h = Ok sh0 ->
  coherent (set_cs_headerCache (lru_Add h (memoized sh0) (cs_headerCache cs)) cs).
Proof.
  intros [Hh Hb] Hv. split; [|exact Hb]. intros h' sh Hh0 [[-> ->]|[_ Hp]]%Peek_Add; [by exists sh0|by apply Hh].
Qed.

Lemma on_inner_view {A} (m : M DB store_error A) f cs :
  view_reads m f -> wp (on_inner m) (fun r cs' => exists d, cs' = set_cs_Store d cs /\ ds_view d = cview cs /\
    (ds_healthy (cs_Store cs) -> ds_healthy d) /\
    (r = map_err CSStore (f (cview cs)) \/ (~ ds_healthy (cs_Store cs) /\ exists e, r = Err e))) cs.
Proof.
  intros Hm. apply wp_zoom, wp_wrap. eapply wp_mono; [apply Hm|]. intros r d (Hv & Hh & Hr). exists d. split_and!; try done.
  destruct Hr as [->|(Hn & e & -> & _)]; [by left|right; eauto].
Qed.

(** What a read through the cache returns, given what the store holds. *)
Definition answers {A} (r : res cached_error A) (held : res store_error A) (cs : CS) : Prop :=
  r = map_err CSStore held \/ (~ ds_healthy (cs_Store cs) /\ exists e, r = Err e).

Definition map_res {A B} (f : A -> B) (r : res store_error A) : res store_error B :=
  match r with Ok a => Ok (f a) | Err e => Err e end.
Definition held_header cs h := map_res memoized (v_header (cview cs) h).
Definition held_block cs h := map_res (fun b => (memoized b.1, b.2)) (v_block (cview cs) h).

Definition kept_queue cs cs' : Prop := cs_writeCh cs' = cs_writeCh cs /\ cs_ops cs' = cs_ops cs /\ cs_stopped cs' = cs_stopped cs.

Lemma InvalidateRange_queue from to cs : kept_queue cs (InvalidateRange from to cs).
Proof. destruct (InvalidateRange_spec from to cs) as (_ & A2 & A3 & A4 & _). done. Qed.

Lemma GetHeader_spec h cs : 0 <= h -> coherent cs ->
  wp (GetHeader h) (fun r cs' => coherent cs' /\ kept_queue cs cs' /\ cview cs' = cview cs /\
    (ds_healthy (cs_Store cs) -> ds_healthy (cs_Store cs')) /\ answers r (held_header cs h) cs) cs.
Proof.
  intros Hh Hco. unfold GetHeader. wp_read. pose proof (Get_Peek h (cs_headerCache cs)) as Hg.
  pose proof (fun k => Peek_Get h k (cs_headerCache cs)) as Hpg.
  destruct (lru_Get h (cs_headerCache cs)) as [hit cache]. simpl in Hg, Hpg. apply wp_bind, wp_modify.
  assert (Hco1 : coherent (set_cs_headerCache cache cs)).
  { eapply coherent_fewer; [exact Hco|done|intros k sh; simpl; by rewrite Hpg|done]. }
  destruct hit as [sh|].
  - apply wp_ret. split_and!; try done. left. unfold held_header.
    destruct (co_header _ Hco h sh Hh (eq_sym Hg)) as (sh0 & -> & ->). done.
  - apply wp_bind. eapply wp_mono; [apply on_inner_view, view_reads_GetHeader|].
    intros r cs1 (d & -> & Hv & Hhe & Hr). change (cview (set_cs_headerCache cache cs)) with (cview cs) in *.
    assert (Hco2 : coherent (set_cs_Store d (set_cs_headerCache cache cs))).
    { apply (coherent_store _ d (fun _ => True)); [done| |done]. rewrite Hv. by intros ? ? _. }
    destruct r as [sh|e].
    + destruct Hr as [Hr|(_ & e & Hr)]; [|done]. destruct (v_header (cview cs) h) as [sh0|e0] eqn:Hvh; [|done].
      injection Hr as ->. apply wp_bind, wp_modify, wp_ret. split_and!; try done.
      * apply (coherent_add_header _ h sh0 Hco2). unfold cview. simpl. rewrite Hv. done.
      * left. unfold held_header. by rewrite Hvh.
    + split_and!; try done. unfold answers, held_header. destruct Hr as [Hr|Hr]; [left|by right].
      by destruct (v_header (cview cs) h).
Qed.

Lemma GetBlockData_spec h cs : 0 <= h -> coherent cs ->
  wp (GetBlockData h) (fun r cs' => coherent cs' /\ kept_queue cs cs' /\ cview cs' = cview cs /\
    (ds_healthy (cs_Store cs) -> ds_healthy (cs_Store cs')) /\ answers r (held_block cs h) cs) cs.
Proof.
  intros Hh Hco. unfold GetBlockData. wp_read. pose proof (Get_Peek h (cs_blockDataCache cs)) as Hg.
  pose proof (fun k => Peek_Get h k (cs_blockDataCache cs)) as Hpg.
  destruct (lru_Get h (cs_blockDataCache cs)) as [hit cache]. simpl in Hg, Hpg. apply wp_bind, wp_modify.
  assert (Hco1 : coherent (set_cs_blockDataCache cache cs)).
  { eapply coherent_fewer; [exact Hco|done|done|intros k sh; simpl; by rewrite Hpg]. }
  destruct hit as [b|].
  - apply wp_ret. split_and!; try done. left. unfold held_block.
    destruct (co_block _ Hco h b Hh (eq_sym Hg)) as (sh0 & dt & -> & ->). done.
  - apply wp_bind. eapply wp_mono; [apply on_inner_view, view_reads_GetBlockData|].
    intros r cs1 (d & -> & Hv & Hhe & Hr). change (cview (set_cs_blockDataCache cache cs)) with (cview cs) in *.
    assert (Hco2 : coherent (set_cs_Store d (set_cs_blockDataCache cache cs))).
    { apply (coherent_store _ d (fun _ => True)); [done| |done]. rewrite Hv. by intros ? ? _. }
    destruct r as [[sh dt]|e].
    + destruct Hr as [Hr|(_ & e & Hr)]; [|done]. destruct (v_block (cview cs) h) as [[sh0 dt0]|e0] eqn:Hvh; [|done].
      injection Hr as -> ->. apply wp_bind, wp_modify, wp_bind, wp_modify, wp_ret. split_and!; try done.
      * apply (coherent_add_header _ h sh0); [|unfold cview; simpl; rewrite Hv; by apply kept_block_header in Hvh].
        destruct Hco2 as [Hch Hcb]. split; [exact Hch|].
        intros h' b Hh0 [[-> ->]|[_ Hp]]%Peek_Add; [|by apply Hcb]. exists sh0, dt0. unfold cview. simpl. by rewrite Hv.
      * left. unfold held_block. by rewrite Hvh.
    + split_and!; try done. unfold answers, held_block. destruct Hr as [Hr|Hr]; [left|by right].
      by destruct (v_block (cview cs) h).
Qed.

(** ** Rollback and pruning *)

Lemma rollback_keeps height aggregator d cur d' :
  is_u64 height -> view_height (ds_view d) = Some cur -> Store.Rollback height aggregator d = (Ok tt, d') ->
  height < cur /\ kept_at (fun h => ~ height < h <= cur) (ds_view d) (ds_view d').
Proof.
  intros Hu Hcur Hrun.
  destruct (wp_run _ _ _ _ _ (Rollback_spec height aggregator d) Hrun) as (_ & cur' & L & Hcur' & Hlt & HL & _ & Hv).
  rewrite Hcur in Hcur'. injection Hcur' as <-. split; [done|]. apply kept_same. intros h Hh Hout.
  assert (Hk : forall k, skey_ok k -> StoreMaintenance.block_key h k -> sview (ds_view d') k = sview (ds_view d) k).
  { intros k Hok Hbk. rewrite (rollback_ops_lookup _ _ L cur height aggregator k (proj1 Hu) HL Hv Hok).
    rewrite decide_False by (intros ->; unfold StoreMaintenance.block_key in Hbk; naive_solver).
    rewrite bool_decide_false.
    - apply sapply_other. intros (o & -> & Ho)%list_elem_of_fmap. apply rollback_marker_keys in HL.
      rewrite Forall_forall in HL. rewrite (HL o Ho) in Hbk. unfold StoreMaintenance.block_key in Hbk. naive_solver.
    - intros (h' & Hh' & Hin)%elem_of_all_rollback_keys. pose proof (block_key_rollback_sops _ _ _ _ Hbk Hin). lia. }
  split; apply Hk; try done; unfold StoreMaintenance.block_key; auto.
Qed.

Lemma prune_keeps height v v' :
  pruned LastPrunedBlockHeightKey prune_keys height v v' -> kept_at (fun h => ~ 1 <= h <= height) v v'.
Proof.
  intros Hp. pose proof (view_pruned_nonneg v LastPrunedBlockHeightKey) as Hnn.
  destruct (Z.le_gt_cases height (view_pruned v LastPrunedBlockHeightKey)) as [Hle|Hgt].
  { unfold pruned in Hp. destruct (Z.leb_spec height (view_pruned v LastPrunedBlockHeightKey)); [|lia].
    rewrite Hp. by intros h _ _. }
  apply kept_same. intros h Hh Hout.
  split; (apply (pruned_blocks_lookup height v v'); [done|done|done|done|]);
    intros h' Hh' (hb & _ & Hin)%elem_of_prune_keys; naive_solver lia.
Qed.

(** After a change of the store and the removal of the changed heights. *)
Lemma coherent_invalidated cs d from to :
  coherent cs -> kept_at (fun h => ~ from <= h <= to) (cview cs) (ds_view d) ->
  coherent (InvalidateRange from to (set_cs_Store d cs)).
Proof.
  intros [Hh Hb] Hk. destruct (InvalidateRange_spec from to (set_cs_Store d cs)) as (A1 & _ & _ & _ & A5 & A6).
  split; intros h x Hh0 Hp; (destruct (decide (from <= h <= to)) as [Hin|Hout];
    [destruct (A5 h Hin) as [B1 B2]; congruence|]); destruct (A6 h Hout) as [B1 B2];
    rewrite ?B1, ?B2 in Hp; unfold cview; rewrite A1; simpl in *.
  - destruct (Hh h x Hh0 Hp) as (sh0 & Hv & ->). exists sh0. split; [|done]. by apply (Hk h Hh0 Hout).
  - destruct (Hb h x Hh0 Hp) as (sh0 & dt & Hv & ->). exists sh0, dt. split; [|done]. by apply (Hk h Hh0 Hout).
Qed.

Lemma coherent_same_view cs d : coherent cs -> ds_view d = cview cs -> coherent (set_cs_Store d cs).
Proof. intros Hco Hv. apply (coherent_store _ d (fun _ => True)); [done| |done]. rewrite Hv. by intros ? ? _. Qed.

Lemma Rollback_coherent height aggregator cs : is_u64 height -> coherent cs ->
  wp (Rollback height aggregator) (fun _ cs' => coherent cs' /\ kept_queue cs cs') cs.
Proof.
  intros Hu Hco. unfold Rollback. apply wp_bind, wp_zoom, wp_wrap. eapply wp_mono; [apply Height_spec|].
  intros [cur|e] d1 (Hv1 & Hh1 & Hr1); simpl; [|split; [by apply coherent_same_view|done]].
  pose proof (coherent_same_view cs d1 Hco Hv1) as Hco1. apply wp_bind, wp_zoom, wp_wrap. unfold wp at 1. simpl.
  pose proof (Rollback_spec height aggregator d1) as Hs. unfold wp in Hs. destruct (Store.Rollback height aggregator d1) as [[[]|e] d2] eqn:Hrun.
  - apply wp_modify. simpl. destruct (rollback_keeps height aggregator d1 cur d2 Hu) as [Hlt Hk]; [by rewrite Hv1|done|].
    apply view_height_u64 in Hr1 as Hcu. unfold is_u64 in *. rewrite add64_small by lia.
    split; [|exact (InvalidateRange_queue _ _ (set_cs_Store d2 (set_cs_Store d1 cs)))].
    apply coherent_invalidated; [exact Hco1|]. intros h Hh0 Hout. apply Hk; [done|lia].
  - destruct Hs as (_ & Hv2 & _). split; [|done]. apply coherent_same_view; [done|]. exact Hv2.
Qed.

Lemma PruneBlocks_coherent height cs : coherent cs ->
  wp (PruneBlocks height) (fun _ cs' => coherent cs' /\ kept_queue cs cs') cs.
Proof.
  intros Hco. unfold PruneBlocks. apply wp_bind, wp_zoom, wp_wrap. eapply wp_mono; [apply PruneBlocks_spec|].
  intros [[]|e] d1 (Hh1 & Hr1); simpl.
  - apply wp_modify. split; [|exact (InvalidateRange_queue _ _ (set_cs_Store d1 cs))]. apply coherent_invalidated; [done|].
    by apply prune_keeps.
  - split; [|done]. apply coherent_same_view; [done|apply Hr1].
Qed.

(** ** Flushes *)

(** The operations of a flush, on symbolic keys. *)
Definition meta_sops (puts : list (string * bytes)) (deletes : list string) : list sop :=
  ((fun kv => SPut (KMeta kv.1) kv.2) <$> puts) ++ ((fun k => SDel (KMeta k)) <$> deletes).

Lemma BatchMetadata_spec puts deletes d :
  wp (BatchMetadata puts deletes) (fun r d' => (ds_healthy d -> ds_healthy d' /\ r = Ok tt) /\
    match r with
    | Ok _ => ds_view d' = apply_bops (ds_view d) (sop_bop <$> meta_sops puts deletes)
    | Err _ => ds_view d' = ds_view d
    end) d.
Proof.
  unfold BatchMetadata. destruct (Z.eqb_spec (zlen puts) 0) as [Hp|Hp]; simpl.
  1: destruct (Z.eqb_spec (zlen deletes) 0) as [Hd|Hd].
  { apply zlen_zero in Hp, Hd. subst. by apply wp_ret. }
  all: unfold db; apply wp_bind, wp_wrap; (eapply wp_mono; [apply batch_law|]);
    intros [[]|e] d1 (Hv1 & Hh1 & Hr1); simpl; [|split; [tauto|done]];
    apply wp_bind, wp_wrap; (eapply wp_mono; [apply for_each_stage_law|]);
    intros [[]|e] d2 (Hv2 & Hh2 & Hr2); simpl; [|split; [tauto|congruence]];
    apply wp_bind, wp_wrap; (eapply wp_mono; [apply for_each_stage_law|]);
    intros [[]|e'] d3 (Hv3 & Hh3 & Hr3); simpl; [|split; [tauto|congruence]];
    apply wp_wrap; (eapply wp_mono; [apply commit_law|]);
    intros [[]|e''] d4 (Hh4 & Hr4); simpl; (split; [tauto|]).
  all: try (destruct Hr4 as [Hv4 _]; congruence).
  all: rewrite Hr4, Hv3, Hv2, Hv1; f_equal; unfold meta_sops; rewrite fmap_app, <- !list_fmap_compose; done.
Qed.

Lemma meta_sops_ok puts deletes : Forall (fun o => skey_ok (sop_key o)) (meta_sops puts deletes).
Proof. unfold meta_sops. apply Forall_app. split; apply Forall_fmap, Forall_forall; by intros. Qed.

Lemma meta_sops_other puts deletes v k : skey_ok k -> (forall m, k <> KMeta m) ->
  sview (apply_bops v (sop_bop <$> meta_sops puts deletes)) k = sview v k.
Proof.
  intros Hok Hn. rewrite apply_sops by (done || apply meta_sops_ok). apply sapply_other.
  unfold meta_sops. rewrite fmap_app, <- !list_fmap_compose, elem_of_app, !list_elem_of_fmap. naive_solver.
Qed.

Lemma flush_coherent order cs : coherent cs -> coherent (loop_flush order cs).
Proof.
  intros Hco. unfold loop_flush.
  pose proof (BatchMetadata_spec (batch_puts order (last_ops (cs_ops cs))) (batch_deletes order (last_ops (cs_ops cs))) (cs_Store cs)) as Hs.
  unfold wp in Hs. destruct (BatchMetadata _ _ (cs_Store cs)) as [r d]. simpl in Hs. destruct Hs as [_ Hs].
  assert (Hd : coherent (set_cs_Store d cs)).
  { destruct r; [|by apply coherent_same_view]. apply (coherent_store _ d (fun _ => True)); [done| |done].
    apply kept_same. intros h Hh _. rewrite Hs. split; by apply meta_sops_other. }
  destruct Hd as [Hh Hb]. by split.
Qed.

(** ** Runs *)

(** What happens to a cached store. Batches go to the store directly: blocks are
    written once means that what could be read before is read after. *)
Inductive cs_step : CS -> CS -> Prop :=
| step_header h cs : 0 <= h -> cs_step cs (GetHeader h cs).2
| step_block h cs : 0 <= h -> cs_step cs (GetBlockData h cs).2
| step_rollback height aggregator cs : is_u64 height -> cs_step cs (Rollback height aggregator cs).2
| step_prune height cs : cs_step cs (PruneBlocks height cs).2
| step_set k x cs : cs_step cs (SetMetadata k x cs).2
| step_delete k cs : cs_step cs (DeleteMetadata k cs).2
| step_take cs : cs_step cs (loop_take cs)
| step_flush order cs : cs_step cs (loop_flush order cs)
| step_clear cs : cs_step cs (ClearCache cs)
| step_invalidate from to cs : cs_step cs (InvalidateRange from to cs)
| step_close cs : cs_step cs (close_begin cs)
| step_write d cs : kept_at (fun _ => True) (cview cs) (ds_view d) -> cs_step cs (set_cs_Store d cs).

Lemma coherent_fields cs cs' : coherent cs -> cs_Store cs' = cs_Store cs -> cs_headerCache cs' = cs_headerCache cs ->
  cs_blockDataCache cs' = cs_blockDataCache cs -> coherent cs'.
Proof. intros Hco Hs Hh Hb. eapply coherent_fewer; [exact Hco|done|by rewrite Hh|by rewrite Hb]. Qed.

Lemma kept_put k x v : kept_at (fun _ => True) v (<[GetMetaKey k := x]> v).
Proof.
  apply kept_same. intros h Hh _. pose proof (meta_sops_other [(k, x)] [] v) as Hm.
  split; [by apply (Hm (KHeader h))|by apply (Hm (KData h))].
Qed.
Lemma kept_delete k v : kept_at (fun _ => True) v (delete (GetMetaKey k) v).
Proof.
  apply kept_same. intros h Hh _. pose proof (meta_sops_other [] [k] v) as Hm.
  split; [by apply (Hm (KHeader h))|by apply (Hm (KData h))].
Qed.

Lemma send_coherent op cs : coherent cs -> wp (send op) (fun _ cs' => coherent cs') cs.
Proof.
  intros Hco. unfold send. wp_read. destruct (asyncWriteBufferSize <=? _); [by apply wp_throw|].
  apply wp_modify. by eapply coherent_fields.
Qed.

Lemma inner_write_coherent (m : M DB ds_error unit) cs f :
  coherent cs -> kept_at (fun _ => True) (cview cs) (f (cview cs)) ->
  wp m (fun r d' => ds_view d' = f (cview cs) \/ ds_view d' = cview cs) (cs_Store cs) ->
  wp (on_inner (db m)) (fun _ cs' => coherent cs') cs.
Proof.
  intros Hco Hk Hm. unfold on_inner, db. apply wp_zoom, wp_wrap, wp_wrap. eapply wp_mono; [exact Hm|].
  intros r d' [Hv|Hv]; [|by apply coherent_same_view]. apply (coherent_store _ d' (fun _ => True)); [done|by rewrite Hv|done].
Qed.

Lemma SetMetadata_coherent k x cs : coherent cs -> wp (SetMetadata k x) (fun _ cs' => coherent cs') cs.
Proof.
  intros Hco. unfold SetMetadata. wp_read. destruct (cs_stopped cs); [|by apply send_coherent].
  apply (inner_write_coherent _ cs (fun v => <[GetMetaKey k := x]> v)); [done|apply kept_put|].
  eapply wp_mono; [apply put_law|]. intros [] d' [_ Hr]; [by left|right; apply Hr].
Qed.

Lemma DeleteMetadata_coherent k cs : coherent cs -> wp (DeleteMetadata k) (fun _ cs' => coherent cs') cs.
Proof.
  intros Hco. unfold DeleteMetadata. wp_read. destruct (cs_stopped cs); [|by apply send_coherent].
  apply (inner_write_coherent _ cs (fun v => delete (GetMetaKey k) v)); [done|apply kept_delete|].
  eapply wp_mono; [apply delete_law|]. intros [] d' [_ Hr]; [by left|right; apply Hr].
Qed.

Lemma cs_step_coherent cs cs' : cs_step cs cs' -> coherent cs -> coherent cs'.
Proof.
  destruct 1; intros Hco.
  - apply (GetHeader_spec h cs); done.
  - apply (GetBlockData_spec h cs); done.
  - apply (Rollback_coherent height aggregator cs); done.
  - apply (PruneBlocks_coherent height cs); done.
  - by apply (SetMetadata_coherent k x cs).
  - by apply (DeleteMetadata_coherent k cs).
  - unfold loop_take. destruct (cs_writeCh cs); [done|by eapply coherent_fields].
  - by apply flush_coherent.
  - eapply coherent_fewer; [exact Hco|done|..]; intros h x; simpl; by rewrite Peek_Purge.
  - destruct (InvalidateRange_spec from to cs) as (A1 & _ & _ & _ & A5 & A6).
    eapply coherent_fewer; [exact Hco|done|..]; intros h x; destruct (decide (from <= h <= to)) as [Hin|Hout];
      [destruct (A5 h Hin)| destruct (A6 h Hout)|destruct (A5 h Hin)|destruct (A6 h Hout)]; congruence.
  - by eapply coherent_fields.
  - by apply (coherent_store _ d (fun _ => True)).
Qed.

Lemma new_coherent d n m cs : NewCachedStore d n m = Ok cs -> coherent cs.
Proof.
  unfold NewCachedStore. destruct (_ || _); [done|]. intros [= <-]. split; simpl; intros h x Hh; by rewrite Peek_New.
Qed.

(** C17: Whatever reads, rollbacks, prunings, metadata writes and flushes came
    before, in any order, and whatever else was written that kept the blocks the
    store had: reading a header or a block through the cache returns exactly
    what the store holds (with its hash memoized), or the error of the store. *)
Theorem cached_reads_exact d n m cs0 cs h :
  NewCachedStore d n m = Ok cs0 -> rtc cs_step cs0 cs -> 0 <= h ->
  answers (GetHeader h cs).1 (held_header cs h) cs /\ answers (GetBlockData h cs).1 (held_block cs h) cs /\
  cview (GetHeader h cs).2 = cview cs /\ cview (GetBlockData h cs).2 = cview cs.
Proof.
  intros Hnew Hrun Hh. assert (Hco : coherent cs).
  { apply new_coherent in Hnew. induction Hrun as [|cs1 cs2 cs3 Hst _ IH]; [done|]. apply IH. by eapply cs_step_coherent. }
  destruct (GetHeader_spec h cs Hh Hco) as (_ & _ & Hv1 & _ & Ha1).
  destruct (GetBlockData_spec h cs Hh Hco) as (_ & _ & Hv2 & _ & Ha2). done.
Qed.

(** ** Metadata in order *)

(** The value of a key after a list of writes. *)
Definition after_ops (k : string) (ops : list asyncWriteOp) (init : option bytes) : option bytes :=
  foldl (fun acc o => if decide (op_key o = k) then (if op_isDelete o then None else Some (op_value o)) else acc) init ops.

Lemma last_ops_key ops k o : last_ops ops !! k = Some o -> op_key o = k.
Proof.
  unfold last_ops. induction ops as [|o' ops IH] using rev_ind; [done|]. rewrite foldl_snoc.
  destruct (decide (op_key o' = k)) as [<-|Hne]; [rewrite lookup_insert_eq; by intros [= <-]|by rewrite lookup_insert_ne].
Qed.

(** Only the last write of a key counts. *)
Lemma after_ops_last ops k init :
  after_ops k ops init =
  match last_ops ops !! k with Some o => if op_isDelete o then None else Some (op_value o) | None => init end.
Proof.
  unfold last_ops, after_ops. induction ops as [|o ops IH] using rev_ind; [done|]. rewrite !foldl_snoc.
  destruct (decide (op_key o = k)) as [<-|Hne]; [by rewrite lookup_insert_eq|by rewrite lookup_insert_ne].
Qed.

(** All operations on a key are the same one. *)
Lemma sapply_unique f L k o :
  o ∈ L -> sop_key o = k -> (forall o', o' ∈ L -> sop_key o' = k -> o' = o) -> foldl sapply f L k = sapply f o k.
Proof.
  intros Hin Hk Hu. assert (Hg : forall g, o ∈ L \/ g k = sapply f o k -> foldl sapply g L k = sapply f o k);
    [|by apply Hg; left]. clear Hin. induction L as [|o' L IH]; intros g Hor; simpl.
  { destruct Hor as [Hin|]; [by apply not_elem_of_nil in Hin|done]. }
  apply IH; [intros o0 Ho0; apply Hu; by right|]. destruct (decide (sop_key o' = k)) as [Hk'|Hne].
  - right. rewrite (Hu o'); [|left|done]. subst k. destruct o; simpl; by rewrite !decide_True.
  - destruct Hor as [Hin|Hg].
    + apply elem_of_cons in Hin as [->|Hin]; [done|by left].
    + right. rewrite <- Hg. destruct o'; simpl in *; by rewrite decide_False.
Qed.

(** What a flush does to the metadata: the effect of the operations, in order. *)
Lemma flush_meta order ops v k :
  (forall j, j ∈ order <-> is_Some (last_ops ops !! j)) ->
  sview (apply_bops v (sop_bop <$> meta_sops (batch_puts order (last_ops ops)) (batch_deletes order (last_ops ops)))) (KMeta k)
  = after_ops k ops (sview v (KMeta k)).
Proof.
  intros Hord. rewrite apply_sops by (done || apply meta_sops_ok). rewrite after_ops_last.
  set (last := last_ops ops). set (L := meta_sops _ _).
  assert (Hin : forall o, o ∈ L -> exists j w, j ∈ order /\ last !! j = Some w /\
    o = if op_isDelete w then SDel (KMeta (op_key w)) else SPut (KMeta (op_key w)) (op_value w)).
  { intros o Ho. unfold L, meta_sops in Ho. apply elem_of_app in Ho as [Ho|Ho]; apply list_elem_of_fmap in Ho as (x & -> & Hx);
      unfold batch_puts, batch_deletes in Hx; apply list_elem_of_omap in Hx as (j & Hj & Hx);
      destruct (last !! j) as [w|] eqn:Hw; try discriminate; destruct (op_isDelete w) eqn:Hd; try discriminate;
      injection Hx as <-; exists j, w; by rewrite Hd. }
  destruct (last !! k) as [w|] eqn:Hw.
  - pose proof (last_ops_key ops k w Hw) as Hkey.
    set (o := if op_isDelete w then SDel (KMeta k) else SPut (KMeta k) (op_value w)).
    assert (Ho : o ∈ L).
    { unfold L, meta_sops, o, batch_puts, batch_deletes. assert (Hk : k ∈ order) by (apply Hord; by exists w).
      apply elem_of_app. destruct (op_isDelete w) eqn:Hd; [right|left]; apply list_elem_of_fmap.
      - exists k. split; [done|]. apply list_elem_of_omap. exists k. by rewrite Hw, Hd, Hkey.
      - exists (k, op_value w). split; [done|]. apply list_elem_of_omap. exists k. by rewrite Hw, Hd, Hkey. }
    rewrite (sapply_unique _ L (KMeta k) o Ho); [unfold o; destruct (op_isDelete w); simpl; by rewrite decide_True| |].
    + unfold o. by destruct (op_isDelete w).
    + intros o' (j & w' & Hj & Hw' & ->)%Hin Hk'. pose proof (last_ops_key ops j w' Hw') as Hkey'.
      assert (j = k) as -> by (destruct (op_isDelete w'); simpl in Hk'; congruence). fold last in Hw'.
      rewrite Hw in Hw'. injection Hw' as <-. unfold o. by rewrite Hkey.
  - apply sapply_other. intros (o & Hk & (j & w & Hj & Hw' & ->)%Hin)%list_elem_of_fmap.
    pose proof (last_ops_key ops j w Hw') as Hkey. assert (j = k) as -> by (destruct (op_isDelete w); simpl in Hk; congruence).
    fold last in Hw'. congruence.
Qed.

(** A run in which [tr] are the metadata writes that were accepted, in order. The
    backend is healthy and no other metadata is written; reads through the cache
    may come in between. *)
Inductive meta_run (cs0 : CS) : list asyncWriteOp -> CS -> Prop :=
| mr_start : meta_run cs0 [] cs0
| mr_set tr cs k x cs' : meta_run cs0 tr cs -> cs_stopped cs = false -> SetMetadata k x cs = (Ok tt, cs') ->
    meta_run cs0 (tr ++ [MkWriteOp k x false]) cs'
| mr_delete tr cs k cs' : meta_run cs0 tr cs -> cs_stopped cs = false -> DeleteMetadata k cs = (Ok tt, cs') ->
    meta_run cs0 (tr ++ [MkWriteOp k [] true]) cs'
| mr_take tr cs : meta_run cs0 tr cs -> meta_run cs0 tr (loop_take cs)
| mr_flush tr cs order : meta_run cs0 tr cs -> (forall j, j ∈ order <-> is_Some (last_ops (cs_ops cs) !! j)) ->
    meta_run cs0 tr (loop_flush order cs)
| mr_close tr cs : meta_run cs0 tr cs -> meta_run cs0 tr (close_begin cs).

Lemma after_ops_app k l1 l2 init : after_ops k (l1 ++ l2) init = after_ops k l2 (after_ops k l1 init).
Proof. apply foldl_app. Qed.

Lemma send_spec op cs cs' : send op cs = (Ok tt, cs') -> cs' = set_cs_queue (cs_writeCh cs ++ [op]) (cs_ops cs) cs.
Proof.
  unfold send. rewrite run_gets. simpl. destruct (asyncWriteBufferSize <=? _); [done|]. by intros [= <-].
Qed.

Lemma meta_run_inv cs0 tr cs : cs_ops cs0 = [] -> cs_writeCh cs0 = [] -> ds_healthy (cs_Store cs0) -> meta_run cs0 tr cs ->
  ds_healthy (cs_Store cs) /\
  forall k, after_ops k (cs_ops cs ++ cs_writeCh cs) (sview (cview cs) (KMeta k)) = after_ops k tr (sview (cview cs0) (KMeta k)).
Proof.
  intros Ho Hc Hh. induction 1 as [|tr cs k x cs' _ [IHh IH] Hst Hs|tr cs k cs' _ [IHh IH] Hst Hs|tr cs _ [IHh IH]|tr cs order _ [IHh IH] Hord|tr cs _ IH].
  - rewrite Ho, Hc. done.
  - unfold SetMetadata, mbind, M_bind, gets in Hs. rewrite Hst in Hs. apply send_spec in Hs as ->. split; [done|]. intros j.
    unfold cview in *. simpl. by rewrite app_assoc, after_ops_app, IH, after_ops_app.
  - unfold DeleteMetadata, mbind, M_bind, gets in Hs. rewrite Hst in Hs. apply send_spec in Hs as ->. split; [done|]. intros j.
    unfold cview in *. simpl. by rewrite app_assoc, after_ops_app, IH, after_ops_app.
  - unfold loop_take. destruct (cs_writeCh cs) as [|op rest] eqn:Hch; [by rewrite Hch in *|]. split; [done|]. intros j.
    rewrite <- IH. unfold cview. simpl. by rewrite <- app_assoc.
  - unfold loop_flush. pose proof (BatchMetadata_spec (batch_puts order (last_ops (cs_ops cs)))
      (batch_deletes order (last_ops (cs_ops cs))) (cs_Store cs)) as Hs. unfold wp in Hs.
    destruct (BatchMetadata _ _ (cs_Store cs)) as [r d]. simpl in Hs. destruct Hs as [Hs1 Hs2].
    destruct (Hs1 IHh) as [Hh' ->]. split; [done|]. intros j. unfold cview. simpl. rewrite Hs2, flush_meta by done.
    rewrite <- IH, after_ops_app. done.
  - destruct IH as [IHh IH]. by split.
Qed.

(** C26: Metadata writes made before [Close] begins are applied in the order in
    which they were made, however the write loop groups them and whatever the
    iteration order of its map, also when [Close] begins before the loop has
    taken them: when the queue has drained, which [Close] waits for, every key has
    the value of the last write of it, and a key that was not written has its old
    value. This is on a healthy datastore (a failed flush is only logged) to which
    nothing else writes. It does not extend to writes made once [Close] has begun:
    they go straight to the store, and the loop may write an older value over
    them ([late_write_lost]). *)
Theorem metadata_writes_in_order cs0 tr cs k :
  cs_ops cs0 = [] -> cs_writeCh cs0 = [] -> ds_healthy (cs_Store cs0) -> meta_run cs0 tr cs ->
  cs_ops cs = [] -> cs_writeCh cs = [] ->
  sview (cview cs) (KMeta k) = after_ops k tr (sview (cview cs0) (KMeta k)).
Proof.
  intros Ho Hc Hh Hrun Ho' Hc'. destruct (meta_run_inv cs0 tr cs Ho Hc Hh Hrun) as [_ Hk].
  specialize (Hk k). by rewrite Ho', Hc' in Hk.
Qed.

End facts.
