(* ===== verification/PendingFacts.v ===== *)
(** * What the pending lists return *)

From S2P Require Import Prelude Datastore Types Serialization Store StoreFacts StoreAPI Pending.
From stdpp Require Import base gmap strings list numbers.
Open Scope Z_scope.

Section facts.
Context {ST PK : Type} `{BlockStore ST PK} `{!PubKeys PK} `{!BlockStoreLaws ST PK}.
Context {C : Type -> Type} `{LRULaws C}.

(** [fetch] reads what [item] says the store holds. *)
Definition fetches {T} (fetch : Z -> SM (ST := ST) T) (item : contents PK -> Z -> res cache_error T) : Prop :=
  (forall h s, is_u64 h -> wp (fetch h) (fun r s' =>
     bs_contents s' ≡ bs_contents s /\ (bs_healthy s -> bs_healthy s') /\
     (r = item (bs_contents s) h \/ (~ bs_healthy s /\ exists e, r = Err e /\ e <> CPanic))) s) /\
  (forall c d h, is_u64 h -> c ≡ d -> item c h = item d h).

Lemma wp_on_st {A} (m : M ST store_error A) f s :
  reads m f ->
  wp (on_st m) (fun r s' =>
    bs_contents s' ≡ bs_contents s /\ (bs_healthy s -> bs_healthy s') /\
    (r = map_err CStore (f (bs_contents s)) \/ (~ bs_healthy s /\ exists e, r = Err e /\ e <> CPanic))) s.
Proof.
  intros Hm. apply wp_wrap. eapply wp_mono; [apply Hm|]. intros r s' (Hc & Hh & Hr). split_and!; [done..|].
  destruct Hr as [->|(Hn & e & -> & _)]; [by left|right]. split; [done|]. by eexists.
Qed.

(** What the two components fetch. *)
Definition header_item (c : contents PK) (h : Z) : res cache_error (SignedHeader PK) :=
  header ← map_err CStore (c_header c h);
  if Header_Height (sh_Header header) =? 0 then Err ErrInFlight else Ok header.

Definition data_item (c : contents PK) (h : Z) : res cache_error Data :=
  block ← map_err CStore (c_block c h);
  n ← Data_Height block.2;
  if n =? 0 then Err ErrInFlight else Ok block.2.

Lemma fetches_header : fetches fetchSignedHeader header_item.
Proof.
  split.
  - intros h s Hu. unfold fetchSignedHeader, header_item. apply wp_bind.
    eapply wp_mono; [apply (wp_on_st _ (fun c => c_header c h)), (GetHeader_law h Hu)|].
    intros [hd|e] s' (Hc & Hh & [Hr|(Hn & e' & He & Hp)]); try done.
    + rewrite <- Hr. cbn [mbind res_bind]. destruct (_ =? 0); [apply wp_throw|apply wp_ret]; auto.
    + rewrite <- Hr. cbn [mbind res_bind]. auto.
    + split_and!; try done. right. split; [done|]. exists e'. by simplify_eq.
  - intros c d h [? _] Hcd. unfold header_item. by rewrite (same_header _ _ Hcd).
Qed.

Lemma fetches_data : fetches fetchData data_item.
Proof.
  split.
  - intros h s Hu. unfold fetchData, data_item. apply wp_bind.
    eapply wp_mono; [apply (wp_on_st _ (fun c => c_block c h)), (GetBlockData_law h Hu)|].
    intros [blk|e] s' (Hc & Hh & [Hr|(Hn & e' & He & Hp)]); try done.
    + rewrite <- Hr. cbn [mbind res_bind]. apply wp_bind, wp_lift_res.
      destruct (Data_Height blk.2) as [n|e]; cbn [mbind res_bind]; [|by auto].
      destruct (n =? 0); [apply wp_throw|apply wp_ret]; auto.
    + rewrite <- Hr. cbn [mbind res_bind]. auto.
    + split_and!; try done. right. split; [done|]. exists e'. by simplify_eq.
  - intros c d h [? _] Hcd. unfold data_item. by rewrite (same_block _ _ Hcd).
Qed.

Section base.
Context {T : Type} (fetch : Z -> SM (ST := ST) T) (item : contents PK -> Z -> res cache_error T).
Context (Hfetch : fetches fetch item).

(** Cached items are those of the store. *)
Definition coherent (c : contents PK) (pb : pendingBase C T) : Prop :=
  forall h v, 0 <= h -> lru_Peek h (pendingCache pb) = Some v -> item c h = Ok v.

(** A step that leaves the store's contents, the last height and the key alone
    and the cache coherent. *)
Definition kept (c : contents PK) (pb : pendingBase C T) (s : ST) (x : pendingBase C T * ST) : Prop :=
  bs_contents x.2 ≡ c /\ (bs_healthy s -> bs_healthy x.2) /\ coherent c x.1 /\
  lastHeight x.1 = lastHeight pb /\ metaKey x.1 = metaKey pb.

Lemma coherent_add c h v pb :
  coherent c pb -> item c h = Ok v -> coherent c (set_pendingCache (lru_Add h v (pendingCache pb)) pb).
Proof.
  intros Hco Hv h' v' Hh Hp. simpl in Hp. apply Peek_Add in Hp as [[-> ->]|[_ Hp]]; [done|by apply Hco].
Qed.

Lemma coherent_get c h pb :
  coherent c pb -> coherent c (set_pendingCache (lru_Get h (pendingCache pb)).2 pb).
Proof. intros Hco h' v'. simpl. rewrite Peek_Get. apply Hco. Qed.

(** Fetch an item and remember it. *)
Lemma wp_fetch_add c h pb s (Q : res cache_error T -> pendingBase C T * ST -> Prop) :
  is_u64 h -> bs_contents s ≡ c -> coherent c pb ->
  (forall r x, kept c pb s x ->
     match r with Ok v => item c h = Ok v | Err e => item c h = Err e \/ ~ bs_healthy s end -> Q r x) ->
  wp (fetch_add fetch h) Q (pb, s).
Proof.
  intros Hu Hc Hco HQ. unfold fetch_add. apply wp_bind, wp_zoom. eapply wp_mono; [by apply Hfetch|].
  intros r s' (Hc' & Hh & Hr). cbn [fst snd] in *.
  assert (Hi : item (bs_contents s) h = item c h) by by apply (proj2 Hfetch). rewrite Hi in Hr.
  destruct r as [v|e].
  - destruct Hr as [Hr|(_ & e & ? & _)]; [|done].
    apply wp_bind, wp_modify, wp_ret, HQ; [|done]. split_and!; cbn; try done; [by rewrite Hc'|by apply coherent_add].
  - apply HQ; [split_and!; cbn; try done; by rewrite Hc'|].
    destruct Hr as [Hr|[Hn _]]; [by left|by right].
Qed.

Lemma kept_trans c pb s x y : kept c pb s x -> kept c x.1 x.2 y -> kept c pb s y.
Proof. intros (? & ? & ? & ? & ?) (? & ? & ? & ? & ?). split_and!; try done; [tauto|congruence..]. Qed.

Definition failed (c : contents PK) (hs : list Z) (s : ST) (e : cache_error) : Prop :=
  ~ bs_healthy s \/ exists h, h ∈ hs /\ item c h = Err e.

Lemma fetch_pending_spec c hs : forall pb s,
  Forall is_u64 hs -> bs_contents s ≡ c -> coherent c pb ->
  wp (fetch_missing fetch hs) (fun r x => kept c pb s x /\
    match r with Ok _ => True | Err e => failed c hs s e end) (pb, s).
Proof.
  induction hs as [|h hs IH]; intros pb s Hu Hc Hco; cbn [fetch_missing]; [apply wp_ret; split; [|done]; split_and!; done|].
  apply Forall_cons_1 in Hu as [Hh Hu]. apply wp_bind, wp_gets. cbn [fst].
  destruct (lru_Peek h (pendingCache pb)) as [v|] eqn:Hp.
  - eapply wp_mono; [by apply IH|]. intros r x [Hk Hr]. split; [done|]. destruct r as [|e]; [done|].
    destruct Hr as [?|(h' & ? & ?)]; [by left|right]. exists h'. split; [by right|done].
  - apply wp_bind.
    apply wp_fetch_add with c; [done..|]. intros r x Hk Hr. destruct r as [v|e].
    + destruct Hk as (Kc & Kh & Kco & Kl & Km). destruct x as [pb1 s1]; cbn in *.
      eapply wp_mono; [by apply IH|]. intros r y [Hk Hy]. split.
      * eapply kept_trans with (pb1, s1); [by split_and!|done].
      * destruct r as [|e]; [done|]. destruct Hy as [?|(h' & ? & ?)]; [left; tauto|right].
        exists h'. split; [by right|done].
    + split; [done|]. destruct Hr as [?|?]; [right; exists h; split; [left|done]|by left].
Qed.

Lemma failed_cons c h hs s e : failed c hs s e -> failed c (h :: hs) s e.
Proof. intros [?|(h' & ? & ?)]; [by left|right]. exists h'. split; [by right|done]. Qed.

Lemma failed_healthy c hs s s' e : (bs_healthy s -> bs_healthy s') -> failed c hs s' e -> failed c hs s e.
Proof. intros Hs [?|?]; [left; tauto|by right]. Qed.

Lemma collect_spec c hs : forall acc pb s,
  Forall is_u64 hs -> bs_contents s ≡ c -> coherent c pb ->
  wp (collect fetch hs acc) (fun r x => kept c pb s x /\
    match r with
    | Ok items => exists new, items = acc ++ new /\ Ok <$> new = item c <$> hs
    | Err e => failed c hs s e
    end) (pb, s).
Proof.
  induction hs as [|h hs IH]; intros acc pb s Hu Hc Hco; cbn [collect].
  { apply wp_ret. split; [by split_and!|]. exists []. by rewrite app_nil_r. }
  apply Forall_cons_1 in Hu as [Hh Hu]. apply wp_bind, wp_gets. apply wp_bind, wp_modify. cbn [fst snd].
  rewrite Get_Peek. set (pb1 := set_pendingCache _ pb).
  assert (Hk1 : kept c pb s (pb1, s)) by (split_and!; cbn; try done; by apply coherent_get).
  assert (Hcont : forall v x, item c h = Ok v -> kept c pb s x ->
    wp (collect fetch hs (acc ++ [v])) (fun r y => kept c pb s y /\
      match r with
      | Ok items => exists new, items = acc ++ new /\ Ok <$> new = item c <$> h :: hs
      | Err e => failed c (h :: hs) s e
      end) x).
  { intros v [pb2 s2] Hv Hk. pose proof Hk as (Kc & Kh & Kco & Kl & Km). cbn in *.
    eapply wp_mono; [by apply IH|]. intros r y [Hky Hy]. split; [by eapply kept_trans|]. destruct r as [items|e].
    - destruct Hy as (new & -> & Hn). exists (v :: new). rewrite <- app_assoc. split; [done|].
      cbn. by rewrite Hv, Hn.
    - apply failed_cons. by eapply failed_healthy. }
  destruct (lru_Peek h (pendingCache pb)) as [v|] eqn:Hp; [apply Hcont; [apply Hco; [unfold is_u64 in *; lia|done]|done]|].
  apply wp_bind. pose proof Hk1 as (_ & _ & Kco & _ & _).
  apply wp_fetch_add with c; [done..|]. intros r x Hk Hr.
  pose proof (kept_trans c pb s (pb1, s) x Hk1 Hk) as Hk'. destruct r as [v|e]; [by apply Hcont|].
  split; [done|]. destruct Hr as [?|?]; [right; exists h; split; [left|done]|by left].
Qed.

(** The heights that a call may return. *)
Definition pending_heights (lastSubmitted storeHeight : Z) : list Z :=
  z_range (lastSubmitted + 1) (Z.min storeHeight (lastSubmitted + DefaultPendingCacheSize)).

Lemma pending_range last top : 0 <= last -> last < top < max_u64 ->
  z_range (last + 1) (if DefaultPendingCacheSize <? sub64 top last then add64 last DefaultPendingCacheSize else top)
  = pending_heights last top.
Proof.
  intros Hl Htop. unfold pending_heights, DefaultPendingCacheSize, max_u64 in *. f_equal.
  rewrite sub64_small by (unfold two64; lia). destruct (Z.ltb_spec 200000 (top - last)).
  - rewrite add64_small by (unfold two64; lia). lia.
  - lia.
Qed.

Lemma getPending_spec pb s :
  coherent (bs_contents s) pb -> 0 <= lastHeight pb ->
  wp (getPending fetch) (fun r x => kept (bs_contents s) pb s x /\
    forall top, c_height (bs_contents s) = Ok top -> top < max_u64 ->
    match r with
    | Ok items => lastHeight pb <= top /\ Ok <$> items = item (bs_contents s) <$> pending_heights (lastHeight pb) top
    | Err e => failed (bs_contents s) (pending_heights (lastHeight pb) top) s e \/ top < lastHeight pb
    end) (pb, s).
Proof.
  intros Hco Hl. set (c := bs_contents s) in *. unfold getPending. apply wp_bind, wp_gets. apply wp_bind, wp_zoom.
  cbn [fst snd]. eapply wp_mono; [apply (wp_on_st _ c_height), Height_law|].
  intros r s1 (Hc & Hh & Hr). cbn [fst snd] in *. fold c in Hc, Hr.
  assert (Hk : kept c pb s (pb, s1)) by by split_and!.
  destruct r as [h|e].
  2:{ split; [done|]. intros top Htop _. rewrite Htop in Hr. left. left. destruct Hr as [?|[? _]]; done. }
  destruct Hr as [Hr|(_ & e & ? & _)]; [|done].
  assert (Hch : c_height c = Ok h) by (destruct (c_height c); cbn in Hr; by simplify_eq).
  destruct (Z.eqb_spec (lastHeight pb) h) as [He|He].
  { apply wp_ret. split; [done|]. intros top Htop _. rewrite Hch in Htop. simplify_eq.
    split; [lia|]. unfold pending_heights, z_range. by rewrite Z2Nat.nonpos by lia. }
  destruct (Z.ltb_spec h (lastHeight pb)) as [Hlt|Hge].
  { apply wp_throw. split; [done|]. intros top Htop _. rewrite Hch in Htop. simplify_eq. by right. }
  set (hs := z_range _ _).
  assert (Hu : Forall is_u64 hs).
  { apply list.Forall_forall. intros x Hx%elem_of_z_range. pose proof (contents_u64 s h Hch) as Hhu.
    assert (is_u64 (add64 (lastHeight pb) DefaultPendingCacheSize)) by auto with machine.
    unfold is_u64 in *. destruct (_ <? _); lia. }
  assert (Hhs : forall top, c_height c = Ok top -> top < max_u64 -> hs = pending_heights (lastHeight pb) top).
  { intros top Htop Hmax. rewrite Hch in Htop. simplify_eq. apply pending_range; lia. }
  apply wp_bind. eapply wp_mono; [by apply (fetch_pending_spec c)|].
  intros r [pb2 s2] [Hk2 Hr2]. pose proof (kept_trans c pb s (pb, s1) (pb2, s2) Hk Hk2) as Hk'.
  destruct r as [[]|e]; [|split; [done|]; intros top Htop Hmax; left; rewrite <- (Hhs top Htop Hmax); by eapply failed_healthy].
  pose proof Hk' as (Kc & Kh & Kco & Kl & Km). cbn in *.
  eapply wp_mono; [by apply (collect_spec c)|]. intros r y [Hky Hy].
  split; [exact (kept_trans c pb s (pb2, s2) y Hk' Hky)|].
  intros top Htop Hmax. rewrite <- (Hhs top Htop Hmax). rewrite Hch in Htop. simplify_eq. destruct r as [items|e].
  - destruct Hy as (new & -> & Hn). split; [lia|done].
  - left. by eapply failed_healthy.
Qed.

(** The last submitted height only grows, and a growth is recorded in the
    store's metadata unless the backend fails. *)
Lemma setLast_spec new (pb : pendingBase C T) s :
  wp (setLastSubmittedHeight new) (fun r x =>
    r = Ok tt /\ x.1 = set_lastHeight (Z.max (lastHeight pb) new) pb /\ (bs_healthy s -> bs_healthy x.2) /\
    (bs_contents x.2 ≡ bs_contents s /\ (new <= lastHeight pb \/ ~ bs_healthy s) \/
     lastHeight pb < new /\ bs_contents x.2 ≡ with_meta (metaKey pb) (Ok (put_uint64_le new)) (bs_contents s)))
    (pb, s).
Proof.
  unfold setLastSubmittedHeight. apply wp_bind, wp_gets. cbn [fst].
  destruct (Z.ltb_spec (lastHeight pb) new) as [Hlt|Hge].
  - apply wp_bind, wp_modify. apply wp_bind, wp_gets. apply wp_bind, wp_attempt, wp_zoom. cbn [fst snd].
    apply wp_wrap. eapply wp_mono; [apply SetMetadata_law|]. intros r s' [Hh Hr]. apply wp_ret. cbn [fst snd].
    rewrite Z.max_r by lia. split_and!; [done..|]. destruct r as [u|e]; [right; by split|left; tauto].
  - apply wp_ret. cbn [fst snd]. rewrite Z.max_l by lia. split_and!; try done; [by destruct pb|]. left. split; [done|by left].
Qed.

End base.

(** The stores agree but for one metadata key. *)
Definition agree_but (k : string) (c d : contents PK) : Prop := with_meta k not_found c ≡ with_meta k not_found d.

#[export] Instance agree_but_equivalence k : Equivalence (agree_but k).
Proof.
  split; [by intros c| |]; unfold agree_but.
  - intros c d Hcd. by symmetry.
  - intros c d e Hcd Hde. by transitivity (with_meta k not_found d).
Qed.

Lemma agree_but_meta k v (c : contents PK) : agree_but k (with_meta k v c) c.
Proof. constructor; simpl; intros; try done. unfold upd. by destruct (decide _). Qed.

Lemma agree_but_same k (c d : contents PK) : c ≡ d -> agree_but k c d.
Proof. intros Hcd. unfold agree_but. by rewrite Hcd. Qed.

Lemma agree_but_item k (c d : contents PK) h : 0 <= h -> agree_but k c d -> data_item c h = data_item d h.
Proof. intros Hh Hcd. unfold data_item. pose proof (same_block _ _ Hcd h Hh) as Hb. simpl in Hb. by rewrite Hb. Qed.

Lemma agree_but_height k (c d : contents PK) : agree_but k c d -> c_height c = c_height d.
Proof. intros Hcd. exact (same_height _ _ Hcd). Qed.

(** Where the loop stops: at the top, at data with transactions, or at data
    that cannot be fetched. *)
Definition stops_at (c : contents PK) (h top : Z) : Prop :=
  top < h \/ (exists d, data_item c h = Ok d /\ data_txs d <> []) \/ (exists e, data_item c h = Err e).

Definition empty_at (c : contents PK) (h : Z) : Prop := exists d, data_item c h = Ok d /\ data_txs d = [].

Lemma advance_loop_spec c n : forall top (pb : pendingBase C Data) s,
  n = Z.to_nat (top - lastHeight pb) -> 0 <= lastHeight pb -> top < two64 -> agree_but (metaKey pb) (bs_contents s) c ->
  wp (advance_loop (z_range (lastHeight pb + 1) top)) (fun r x =>
    metaKey x.1 = metaKey pb /\ pendingCache x.1 = pendingCache pb /\ (bs_healthy s -> bs_healthy x.2) /\
    agree_but (metaKey pb) (bs_contents x.2) c /\
    lastHeight pb <= lastHeight x.1 <= Z.max (lastHeight pb) top /\
    (forall h, lastHeight pb < h <= lastHeight x.1 -> empty_at c h) /\
    match r with
    | Ok _ => bs_healthy s -> stops_at c (lastHeight x.1 + 1) top
    | Err e => e = CPanic /\ data_item c (lastHeight x.1 + 1) = Err CPanic
    end) (pb, s).
Proof.
  induction n as [|n IH]; intros top pb s Hn Hl Htop Hc.
  { rewrite z_range_nil by lia. apply wp_ret. cbn [fst snd]. split_and!; try done; try lia.
    intros _. left. lia. }
  rewrite z_range_cons by lia. set (h := lastHeight pb + 1). cbn [advance_loop].
  apply wp_bind, wp_attempt, wp_zoom. cbn [fst snd].
  assert (Hu : is_u64 h) by (unfold is_u64; lia).
  eapply wp_mono; [apply (proj1 fetches_data h s Hu)|]. intros r s1 (Hc1 & Hh1 & Hr). cbn [fst snd] in *.
  assert (Hi : data_item (bs_contents s) h = data_item c h) by (by apply (agree_but_item (metaKey pb)); [lia|]).
  assert (Hc2 : agree_but (metaKey pb) (bs_contents s1) c).
  { etransitivity; [by apply agree_but_same|done]. }
  rewrite Hi in Hr. destruct r as [d|e].
  - destruct Hr as [Hr|(_ & e & ? & _)]; [|done]. destruct (Z.ltb_spec 0 (zlen (data_txs d))) as [Hd|Hd].
    + apply wp_ret. cbn [fst snd]. split_and!; try done; try lia. intros _. right. left. exists d.
      split; [done|]. intros Hnil. rewrite Hnil in Hd. done.
    + apply wp_bind. eapply wp_mono; [apply setLast_spec|].
      intros r [pb2 s2] (-> & Hpb & Hh2 & Hc3). cbn [fst snd] in *. subst pb2.
      assert (Hc4 : agree_but (metaKey pb) (bs_contents s2) c).
      { destruct Hc3 as [[Hc3 _]|[_ Hc3]]; (etransitivity; [apply agree_but_same, Hc3|]); [done|].
        etransitivity; [apply agree_but_meta|done]. }
      set (pb2 := set_lastHeight _ pb). assert (Hl2 : lastHeight pb2 = h) by (unfold pb2; cbn; lia).
      rewrite <- Hl2. eapply wp_mono; [apply IH; [lia|lia|done|done]|].
      intros r x (Hm & Hpc & Hh & Ha & Hle & Hemp & Hres). cbn in Hm, Hpc, Ha.
      split_and!; try done; try lia; [tauto| |destruct r; [tauto|done]].
      intros h' Hh'. destruct (decide (h' = h)) as [->|Hne]; [|apply Hemp; lia].
      exists d. split; [done|]. apply zlen_zero. pose proof (zlen_nonneg (data_txs d)). lia.
  - destruct (decide (e = CPanic)) as [->|Hne].
    + destruct Hr as [Hr|(_ & e & He & Hp)]; [|by simplify_eq]. apply wp_throw. cbn [fst snd].
      split_and!; try done; lia.
    + assert (Hend : wp (match e with CPanic => throw CPanic | _ => mret tt end : PM (ST := ST) (C := C) Data unit) (fun r x => r = Ok tt /\ x = (pb, s1)) (pb, s1)).
      { by destruct e; try apply wp_ret. }
      eapply wp_mono; [exact Hend|]. intros r x [-> ->]. cbn [fst snd]. split_and!; try done; try lia.
      intros Hh. destruct Hr as [Hr|[Hn' _]]; [|done]. right. right. by exists e.
Qed.

Lemma numPending_spec {A} (pb : pendingBase C A) s :
  wp numPending (fun r x => exists n, r = Ok n /\ x.1 = pb /\ bs_contents x.2 ≡ bs_contents s /\
    (bs_healthy s -> bs_healthy x.2) /\
    forall top, bs_healthy s -> c_height (bs_contents s) = Ok top -> n = sub64 top (lastHeight pb)) (pb, s).
Proof.
  unfold numPending. apply wp_bind, wp_attempt, wp_zoom. cbn [fst snd].
  eapply wp_mono; [apply (wp_on_st _ c_height), Height_law|]. intros r s1 (Hc & Hh & Hr). cbn [fst snd] in *.
  destruct r as [h|e].
  - apply wp_bind, wp_gets, wp_ret. cbn [fst snd]. eexists. split_and!; try done.
    intros top _ Htop. rewrite Htop in Hr. destruct Hr as [[= ->]|(_ & e & ? & _)]; done.
  - apply wp_ret. exists 0. split_and!; try done. intros top Hs Htop. rewrite Htop in Hr.
    destruct Hr as [?|[? _]]; done.
Qed.

(** [NumPendingData] counts what is left to publish. It advances the last
    submitted height past blocks without transactions only, up to the first
    block that has some or cannot be read, changes nothing in the store but the
    record of that height, and on a store that does not fail returns the
    distance to the store's height, which does not wrap around as long as the
    last submitted height was not above it. *)
Theorem num_pending_data_exact (pb : pendingBase C Data) s top :
  0 <= lastHeight pb <= top -> c_height (bs_contents s) = Ok top -> bs_healthy s ->
  exists r x, NumPendingData (pb, s) = (r, x) /\
    agree_but (metaKey pb) (bs_contents x.2) (bs_contents s) /\ pendingCache x.1 = pendingCache pb /\
    lastHeight pb <= lastHeight x.1 <= top /\
    (forall h, lastHeight pb < h <= lastHeight x.1 -> empty_at (bs_contents s) h) /\
    match r with
    | Ok n => n = top - lastHeight x.1 /\ stops_at (bs_contents s) (lastHeight x.1 + 1) top
    | Err e => e = CPanic /\ data_item (bs_contents s) (lastHeight x.1 + 1) = Err CPanic
    end.
Proof.
  intros Hl Htop Hs.
  assert (Hw : wp NumPendingData (fun r x =>
    agree_but (metaKey pb) (bs_contents x.2) (bs_contents s) /\ pendingCache x.1 = pendingCache pb /\
    lastHeight pb <= lastHeight x.1 <= top /\
    (forall h, lastHeight pb < h <= lastHeight x.1 -> empty_at (bs_contents s) h) /\
    match r with
    | Ok n => n = top - lastHeight x.1 /\ stops_at (bs_contents s) (lastHeight x.1 + 1) top
    | Err e => e = CPanic /\ data_item (bs_contents s) (lastHeight x.1 + 1) = Err CPanic
    end) (pb, s)); [|eexists _, _; split; [apply surjective_pairing|exact Hw]].
  pose proof (contents_u64 s top Htop) as Htu. unfold is_u64 in Htu.
  unfold NumPendingData, advancePastEmptyData. apply wp_bind. apply wp_bind, wp_attempt, wp_zoom. cbn [fst snd].
  eapply wp_mono; [apply (wp_on_st _ c_height), Height_law|]. intros r s1 (Hc & Hh & Hr). cbn [fst snd] in *.
  rewrite Htop in Hr. destruct Hr as [->|[? _]]; [|done]. cbn [map_err]. apply wp_bind, wp_gets. cbn [fst snd].
  eapply wp_mono; [apply (advance_loop_spec (bs_contents s) (Z.to_nat (top - lastHeight pb)) top pb s1);
    [done|lia|lia|by apply agree_but_same]|].
  intros r [pb2 s2] (Hm & Hpc & Hh2 & Ha & Hle & Hemp & Hres). cbn [fst snd] in *. rewrite Z.max_r in Hle by lia.
  destruct r as [u|e]; [|destruct Hres; split_and!; first [done|lia]].
  eapply wp_mono; [apply numPending_spec|]. intros r x (n & -> & -> & Hc3 & Hh3 & Hn). cbn [fst snd] in *.
  split_and!; try done; try lia.
  - etransitivity; [by apply agree_but_same|done].
  - rewrite (Hn top); [apply sub64_small; lia|tauto|].
    by rewrite (agree_but_height _ _ _ Ha).
  - apply Hres. tauto.
Qed.

Section marshalled.
Context `{Wire} `{ProtoMsg pbVersion, ProtoMsg pbHeader, ProtoMsg pbSignedHeader, ProtoMsg pbMetadata, ProtoMsg pbData}.

Lemma marshal_all_spec {T} (m : T -> res terror bytes) items :
  match marshal_all m items with
  | Ok bs => Forall2 (fun x b => m x = Ok b) items bs
  | Err e => exists x t, x ∈ items /\ m x = Err t /\ e = CTypes t
  end.
Proof.
  induction items as [|x items IH]; cbn [marshal_all]; [constructor|].
  destruct (m x) as [b|t] eqn:Hm; cbn [map_err mbind res_bind]; [|exists x, t; split_and!; try done; left].
  destruct (marshal_all m items) as [bs|e]; cbn [mbind res_bind]; [by constructor|].
  destruct IH as (y & t & Hy & ? & ?). exists y, t. split_and!; try done. by right.
Qed.

(** [GetPendingHeaders] returns exactly the headers of the pending heights:
    those above the last submitted height, up to the store's height and at most
    200000, in order, each with its encoding, whatever the LRU cache has kept
    or evicted; and it changes neither the store nor the last submitted height.
    It fails only if the backend does, if a header of the range cannot be read
    or encoded, or if the last submitted height is above the store's. *)
Lemma pending_headers_exact (pb : pendingBase C (SignedHeader PK)) s top :
  coherent header_item (bs_contents s) pb -> 0 <= lastHeight pb ->
  c_height (bs_contents s) = Ok top -> top < max_u64 ->
  exists r x, GetPendingHeaders (pb, s) = (r, x) /\
    bs_contents x.2 ≡ bs_contents s /\ coherent header_item (bs_contents s) x.1 /\
    lastHeight x.1 = lastHeight pb /\ metaKey x.1 = metaKey pb /\
    match r with
    | Ok (headers, blobs) =>
        lastHeight pb <= top /\
        Ok <$> headers = header_item (bs_contents s) <$> pending_heights (lastHeight pb) top /\
        Forall2 (fun header b => marshal_signed_header header = Ok b) headers blobs
    | Err e =>
        ~ bs_healthy s \/ top < lastHeight pb \/
        (exists h, h ∈ pending_heights (lastHeight pb) top /\ header_item (bs_contents s) h = Err e) \/
        (exists h header t, header_item (bs_contents s) h = Ok header /\
           marshal_signed_header header = Err t /\ e = CTypes t)
    end.
Proof.
  intros Hco Hl Htop Hmax.
  assert (Hw := getPending_spec _ _ fetches_header pb s Hco Hl).
  unfold GetPendingHeaders, mbind, M_bind.
  destruct (getPending fetchSignedHeader (pb, s)) as [[items|e] x] eqn:Hg;
    destruct (wp_run _ _ _ _ _ Hw Hg) as [(Kc & Kh & Kco & Kl & Km) Hr]; specialize (Hr top Htop Hmax).
  - destruct Hr as [Hle Hit]. destruct (Z.eqb_spec (zlen items) 0) as [Hz|Hz].
    { eexists _, x. split; [done|]. apply zlen_zero in Hz. subst. by split_and!. }
    pose proof (marshal_all_spec marshal_signed_header items) as Hms.
    unfold lift_res. destruct (marshal_all marshal_signed_header items) as [bs|e]; eexists _, x; (split; [done|]);
      split_and!; try done.
    destruct Hms as (hd & t & Hin & Hm & ->). right. right. right.
    assert (Hin' : Ok hd ∈ (Ok (E := cache_error) <$> items)) by by apply list_elem_of_fmap_2.
    rewrite Hit in Hin'. apply list_elem_of_fmap in Hin' as (h & Hh & _). exists h, hd, t. by split_and!.
  - eexists _, x. split; [done|]. split_and!; try done. destruct Hr as [[?|Hr]|?]; auto.
Qed.

End marshalled.
End facts.
