(* ===== verification/CacheManager.v ===== *)
(** * The cache manager ([block/internal/cache/manager.go])

    The caches of headers and of data, the events that wait for their turn, and
    the pending lists, over one store. What its operations guarantee is shown
    where they are used: for the snapshots in [BlockCache], for the pending lists
    in [PendingFacts], for the DA included height in [SubmitterFacts]. *)

From S2P Require Import Prelude Datastore Types Serialization Store StoreFacts StoreAPI BlockCache Pending PendingFacts.
From stdpp Require Import base gmap strings list numbers.
Open Scope Z_scope.

(** ** Events ([block/internal/common/event.go]) *)

(** [SourceUnset] is the empty source of an event built without one. *)
Inductive EventSource := SourceDA | SourceP2P | SourceRaft | SourceUnset.
#[export] Instance EventSource_eq_dec : EqDecision EventSource.
Proof. solve_decision. Defined.

Record DAHeightEvent (PK : Type) := MkEvent
  { ev_Header : SignedHeader PK;
    ev_Data : Data;
    ev_DaHeight : Z;
    ev_Source : EventSource;
    ev_DaHeightHints : Z * Z }.
Arguments MkEvent {PK}.
Arguments ev_Header {PK}.
Arguments ev_Data {PK}.
Arguments ev_DaHeight {PK}.
Arguments ev_Source {PK}.
Arguments ev_DaHeightHints {PK}.

Definition HeaderDAIncludedPrefix : string := "cache/header-da-included/".
Definition DataDAIncludedPrefix : string := "cache/data-da-included/".

Record Manager (ST PK : Type) (C : Type -> Type) := MkManager
  { headerCache : Cache;
    dataCache : Cache;
    pendingEvents : gmap Z (DAHeightEvent PK);
    pendingHeaders : pendingBase C (SignedHeader PK);
    pendingData : pendingBase C Data;
    mgr_store : ST }.
Arguments MkManager {ST PK C}.
Arguments headerCache {ST PK C}.
Arguments dataCache {ST PK C}.
Arguments pendingEvents {ST PK C}.
Arguments pendingHeaders {ST PK C}.
Arguments pendingData {ST PK C}.
Arguments mgr_store {ST PK C}.

Section manager.
Context {ST PK : Type} {C : Type -> Type}.
Abbreviation Mgr := (Manager ST PK C).

Definition set_headerCache x (m : Mgr) : Mgr :=
  MkManager x (dataCache m) (pendingEvents m) (pendingHeaders m) (pendingData m) (mgr_store m).
Definition set_dataCache x (m : Mgr) : Mgr :=
  MkManager (headerCache m) x (pendingEvents m) (pendingHeaders m) (pendingData m) (mgr_store m).
Definition set_pendingEvents x (m : Mgr) : Mgr :=
  MkManager (headerCache m) (dataCache m) x (pendingHeaders m) (pendingData m) (mgr_store m).
Definition set_pendingHeaders x (m : Mgr) : Mgr :=
  MkManager (headerCache m) (dataCache m) (pendingEvents m) x (pendingData m) (mgr_store m).
Definition set_pendingData x (m : Mgr) : Mgr :=
  MkManager (headerCache m) (dataCache m) (pendingEvents m) (pendingHeaders m) x (mgr_store m).
Definition set_mgr_store x (m : Mgr) : Mgr :=
  MkManager (headerCache m) (dataCache m) (pendingEvents m) (pendingHeaders m) (pendingData m) x.

(** ** Status of headers and data *)

Definition IsHeaderSeen (hash : string) (m : Mgr) : bool := isSeen hash (headerCache m).
Definition SetHeaderSeen (hash : string) (h : Z) (m : Mgr) : Mgr := set_headerCache (setSeen hash h (headerCache m)) m.
Definition GetHeaderDAIncludedByHash (hash : string) (m : Mgr) : option Z := getDAIncluded hash (headerCache m).
Definition GetHeaderDAIncludedByHeight (h : Z) (m : Mgr) : option Z := getDAIncludedByHeight h (headerCache m).
Definition SetHeaderDAIncluded (hash : string) (da h : Z) (m : Mgr) : Mgr :=
  set_headerCache (setDAIncluded hash da h (headerCache m)) m.
Definition RemoveHeaderDAIncluded (hash : string) (m : Mgr) : Mgr :=
  set_headerCache (removeDAIncluded hash (headerCache m)) m.

Definition DaHeight (m : Mgr) : Z := Z.max (maxDAHeight (headerCache m)) (maxDAHeight (dataCache m)).

Definition IsDataSeen (hash : string) (m : Mgr) : bool := isSeen hash (dataCache m).
Definition SetDataSeen (hash : string) (h : Z) (m : Mgr) : Mgr := set_dataCache (setSeen hash h (dataCache m)) m.
Definition GetDataDAIncludedByHash (hash : string) (m : Mgr) : option Z := getDAIncluded hash (dataCache m).
Definition GetDataDAIncludedByHeight (h : Z) (m : Mgr) : option Z := getDAIncludedByHeight h (dataCache m).
Definition SetDataDAIncluded (hash : string) (da h : Z) (m : Mgr) : Mgr :=
  set_dataCache (setDAIncluded hash da h (dataCache m)) m.
Definition RemoveDataDAIncluded (hash : string) (m : Mgr) : Mgr :=
  set_dataCache (removeDAIncluded hash (dataCache m)) m.

Definition DeleteHeight (h : Z) (m : Mgr) : Mgr :=
  let m := set_headerCache (deleteAllForHeight h (headerCache m)) m in
  let m := set_dataCache (deleteAllForHeight h (dataCache m)) m in
  set_pendingEvents (delete h (pendingEvents m)) m.

(** ** Pending events *)

Definition SetPendingEvent (h : Z) (e : DAHeightEvent PK) (m : Mgr) : Mgr :=
  set_pendingEvents (<[h := e]> (pendingEvents m)) m.
Definition PendingEventsCount (m : Mgr) : nat := size (pendingEvents m).
Definition GetNextPendingEvent (h : Z) (m : Mgr) : option (DAHeightEvent PK) * Mgr :=
  match pendingEvents m !! h with
  | Some e => (Some e, set_pendingEvents (delete h (pendingEvents m)) m)
  | None => (None, m)
  end.

(** ** Pending headers and data *)

Context `{BlockStore ST PK} `{LRU C} `{MapOrder}.

Definition MM (A : Type) : Type := M Mgr cache_error A.

Definition on_headers {A} (p : PM (ST := ST) (C := C) (SignedHeader PK) A) : MM A :=
  zoom (fun m => (pendingHeaders m, mgr_store m)) (fun x m => set_mgr_store x.2 (set_pendingHeaders x.1 m)) p.
Definition on_data {A} (p : PM (ST := ST) (C := C) Data A) : MM A :=
  zoom (fun m => (pendingData m, mgr_store m)) (fun x m => set_mgr_store x.2 (set_pendingData x.1 m)) p.
Definition on_mgr_store {A} (p : M ST store_error A) : MM A :=
  zoom mgr_store set_mgr_store (wrap CStore p).

Definition SetLastSubmittedHeaderHeight (h : Z) : MM unit := on_headers (setLastSubmittedHeight h).
Definition SetLastSubmittedDataHeight (h : Z) : MM unit := on_data (setLastSubmittedHeight h).
Definition GetLastSubmittedHeaderHeight (m : Mgr) : Z := lastHeight (pendingHeaders m).
Definition GetLastSubmittedDataHeight (m : Mgr) : Z := lastHeight (pendingData m).
Definition NumPendingHeaders : MM Z := on_headers numPending.
Definition mgr_NumPendingData : MM Z := on_data NumPendingData.

Section marshalled.
Context `{PubKeys PK} `{Wire}.
Context `{ProtoMsg pbVersion, ProtoMsg pbHeader, ProtoMsg pbSignedHeader, ProtoMsg pbMetadata, ProtoMsg pbData}.

Definition mgr_GetPendingHeaders : MM (list (SignedHeader PK) * list bytes) := on_headers GetPendingHeaders.

(** Data without transactions is not published; what is returned is unsigned. *)
Fixpoint non_empty_data (dataList : list Data) (blobs : list bytes) : list (SignedData PK) * list bytes :=
  match dataList, blobs with
  | data :: dataList', b :: blobs' =>
      let '(sds, bs) := non_empty_data dataList' blobs' in
      if zlen (data_txs data) =? 0 then (sds, bs) else (MkSignedData data None zero_signer :: sds, b :: bs)
  | _, _ => ([], [])
  end.

Definition mgr_GetPendingData : MM (list (SignedData PK) * list bytes) :=
  p ← on_data GetPendingData;
  mret (non_empty_data p.1 p.2).

End marshalled.

(** ** Persistence *)

Definition mgr_SaveToStore : MM unit :=
  hc ← gets headerCache;
  _ ← on_mgr_store (SaveToStore hc);
  dc ← gets dataCache;
  on_mgr_store (SaveToStore dc).

Definition getMetadataUint64 (key : string) : M ST cache_error (option Z) :=
  r ← attempt (st_GetMetadata key);
  match r with
  | Err (SDs ErrNotFound) => mret None
  | Err e => throw (CStore e)
  | Ok b => if negb (zlen b =? 8) then throw (CMsg "invalid metadata length") else mret (Some (uint64_le b))
  end.

Definition on_mgr {A} (p : M ST cache_error A) : MM A := zoom mgr_store set_mgr_store p.

Definition seed_max (key : string) (update : Z -> Mgr -> Mgr) : MM unit :=
  r ← attempt (on_mgr (getMetadataUint64 key));
  match r with
  | Ok (Some h) => modify (update h)
  | _ => mret tt
  end.

Definition initDAHeightFromStore : MM unit :=
  r ← attempt (on_mgr (getMetadataUint64 DAIncludedHeightKey));
  match r with
  | Ok (Some daIncludedHeight) =>
      if daIncludedHeight =? 0 then mret tt else
      _ ← seed_max (GetHeightToDAHeightHeaderKey daIncludedHeight)
            (fun h m => set_headerCache (setMaxDAHeight h (headerCache m)) m);
      seed_max (GetHeightToDAHeightDataKey daIncludedHeight)
            (fun h m => set_dataCache (setMaxDAHeight h (dataCache m)) m)
  | _ => mret tt
  end.

Definition mgr_RestoreFromStore : MM unit :=
  r ← attempt (on_mgr (getMetadataUint64 DAIncludedHeightKey));
  let daIncludedHeight := match r with Ok (Some h) => h | _ => 0 end in
  hc ← gets headerCache;
  hc' ← on_mgr_store (RestoreFromStore daIncludedHeight hc);
  _ ← modify (set_headerCache hc');
  dc ← gets dataCache;
  dc' ← on_mgr_store (RestoreFromStore daIncludedHeight dc);
  _ ← modify (set_dataCache dc');
  initDAHeightFromStore.

Definition mgr_ClearFromStore : MM unit :=
  hc ← gets headerCache;
  _ ← on_mgr_store (ClearFromStore hc);
  dc ← gets dataCache;
  _ ← on_mgr_store (ClearFromStore dc);
  _ ← modify (set_headerCache (NewCache true HeaderDAIncludedPrefix));
  _ ← modify (set_dataCache (NewCache true DataDAIncludedPrefix));
  _ ← modify (set_pendingEvents ∅);
  initDAHeightFromStore.

(** [newManager]; a failing restore or clear is logged and ignored. *)
Definition newManager (clearCache restoreDAInclusion : bool) : M ST cache_error Mgr := fun st =>
  match (ph ← NewPendingHeaders; pd ← NewPendingData; mret (ph, pd)) st with
  | (Err e, st') => (Err e, st')
  | (Ok (ph, pd), st') =>
      let impl := MkManager (NewCache true HeaderDAIncludedPrefix) (NewCache true DataDAIncludedPrefix)
                            ∅ ph pd st' in
      let '(_, impl) :=
        (if clearCache then mgr_ClearFromStore
         else if restoreDAInclusion then mgr_RestoreFromStore else mret tt) impl in
      (Ok impl, mgr_store impl)
  end.

End manager.
