(* ===== verification/BatchQueue.v ===== *)
(** * The persistent batch queue of the single sequencer
      ([pkg/sequencers/single/queue.go])

    A queue of transaction batches with a write-ahead log in a datastore. The
    slice [queue] with its [head] index, the drained but unacknowledged
    [inFlight] items, the postponed transactions and the dedup set are the
    fields of the Go struct. Batches are lists of transactions; keys are the
    names handed to [ds.NewKey]. Calls that log an error and go on are
    [attempt]s. The mutex serializes the operations, so each is one step. *)

From S2P Require Import Prelude Sha256 Datastore Serialization.
From stdpp Require Import base gmap strings list numbers sorting.
Open Scope Z_scope.

(** [pb.Batch]. *)
Record pbBatch := MkPbBatch { pb_Txs : list bytes }.

Record queuedItem := MkItem { Batch : list bytes; Key : string }.
(** [queuedItem{}]. *)
Definition zero_item : queuedItem := MkItem [] "".

Definition initialSeqNum : Z := 9223372036854775808.

Inductive queue_error :=
| ErrQueueFull
| QDs (e : ds_error)
| QProto.
#[export] Instance queue_error_eq_dec : EqDecision queue_error.
Proof. solve_decision. Defined.

Record BatchQueue (DB : Type) := MkBatchQueue
  { queue : list queuedItem;
    head : nat;
    maxQueueSize : Z;
    inFlight : list queuedItem;
    inFlightPostponed : list bytes;
    postponedItem : option queuedItem;
    txSeen : gset bytes;
    nextAddSeq : Z;
    nextPrependSeq : Z;
    qdb : DB }.
Arguments MkBatchQueue {DB}.
Arguments queue {DB}. Arguments head {DB}. Arguments maxQueueSize {DB}. Arguments inFlight {DB}.
Arguments inFlightPostponed {DB}. Arguments postponedItem {DB}. Arguments txSeen {DB}.
Arguments nextAddSeq {DB}. Arguments nextPrependSeq {DB}. Arguments qdb {DB}.

(** Field assignments. *)
Section setters.
Context {DB : Type}.
Definition set_queue (x : list queuedItem) (h : nat) (q : BatchQueue DB) : BatchQueue DB :=
  MkBatchQueue x h (maxQueueSize q) (inFlight q) (inFlightPostponed q) (postponedItem q) (txSeen q)
               (nextAddSeq q) (nextPrependSeq q) (qdb q).
Definition set_inFlight (x : list queuedItem) (q : BatchQueue DB) : BatchQueue DB :=
  MkBatchQueue (queue q) (head q) (maxQueueSize q) x (inFlightPostponed q) (postponedItem q) (txSeen q)
               (nextAddSeq q) (nextPrependSeq q) (qdb q).
Definition set_postponed (x : list bytes) (i : option queuedItem) (q : BatchQueue DB) : BatchQueue DB :=
  MkBatchQueue (queue q) (head q) (maxQueueSize q) (inFlight q) x i (txSeen q)
               (nextAddSeq q) (nextPrependSeq q) (qdb q).
Definition set_txSeen (x : gset bytes) (q : BatchQueue DB) : BatchQueue DB :=
  MkBatchQueue (queue q) (head q) (maxQueueSize q) (inFlight q) (inFlightPostponed q) (postponedItem q) x
               (nextAddSeq q) (nextPrependSeq q) (qdb q).
Definition set_seqs (a p : Z) (q : BatchQueue DB) : BatchQueue DB :=
  MkBatchQueue (queue q) (head q) (maxQueueSize q) (inFlight q) (inFlightPostponed q) (postponedItem q)
               (txSeen q) a p (qdb q).
Definition set_qdb (d : DB) (q : BatchQueue DB) : BatchQueue DB :=
  MkBatchQueue (queue q) (head q) (maxQueueSize q) (inFlight q) (inFlightPostponed q) (postponedItem q)
               (txSeen q) (nextAddSeq q) (nextPrependSeq q) d.
End setters.

(** ** Keys *)

Definition seqToKey (seq : Z) : string := hex_encode (be_bytes 8 seq).

Definition txHash (tx : bytes) : bytes := Sha256.sum256 tx.

(** [strconv.ParseUint(s, 16, 64)] on a string of at most 16 characters. *)
Definition hex_value (c : Ascii.ascii) : option Z :=
  let n := Z.of_nat (Ascii.nat_of_ascii c) in
  if (48 <=? n) && (n <=? 57) then Some (n - 48)
  else if (97 <=? n) && (n <=? 102) then Some (n - 87)
  else if (65 <=? n) && (n <=? 70) then Some (n - 55)
  else None.

Fixpoint parse_hex (acc : Z) (s : string) : option Z :=
  match s with
  | EmptyString => Some acc
  | String c s' => d ← hex_value c; parse_hex (16 * acc + d) s'
  end.

Definition ParseUint16 (s : string) : option Z :=
  match s with EmptyString => None | _ => parse_hex 0 s end.

Section queue.
Context {DB : Type} `{Datastore DB} `{ProtoMsg pbBatch}.

Abbreviation Q := (BatchQueue DB).
Definition QM (A : Type) : Type := M Q queue_error A.

(** A call on the queue's datastore. *)
Definition on_db {A} (m : M DB ds_error A) : QM A := zoom qdb set_qdb (wrap QDs m).

Definition NewBatchQueue (d : DB) (maxSize : Z) : Q :=
  MkBatchQueue [] 0 maxSize [] [] None ∅ initialSeqNum (initialSeqNum - 1) d.

Definition persistBatch (batch : list bytes) (key : string) : QM unit :=
  encodedBatch ← lift_res (map_err (fun _ => QProto) (proto_Marshal (MkPbBatch batch)));
  on_db (ds_put key encodedBatch).

(** The loop over the transactions of a batch that drops those whose hash is in
    the set: what is kept, their hashes, and the set with them added. *)
Fixpoint dedup (seen : gset bytes) (txs : list bytes) : list bytes * gset bytes :=
  match txs with
  | [] => ([], seen)
  | tx :: txs' =>
      if decide (txHash tx ∈ seen) then dedup seen txs'
      else let '(unique, seen') := dedup ({[txHash tx]} ∪ seen) txs' in (tx :: unique, seen')
  end.

Definition rollbackSeenLocked (hashes : list bytes) : QM unit :=
  modify (fun q => set_txSeen (foldl (fun s h => s ∖ {[h]}) (txSeen q) hashes) q).

Definition AddBatch (transactions : list bytes) : QM unit :=
  q ← gets id;
  let '(unique, seen) := dedup (txSeen q) transactions in
  let hashes := txHash <$> unique in
  _ ← modify (set_txSeen seen);
  if zlen unique =? 0 then mret tt else
  let batch := unique in
  let effectiveSize := zlen (queue q) - Z.of_nat (head q) + zlen (inFlight q) in
  if (0 <? maxQueueSize q) && (maxQueueSize q <=? effectiveSize) then
    _ ← rollbackSeenLocked hashes;
    throw ErrQueueFull
  else
    let key := seqToKey (nextAddSeq q) in
    r ← attempt (persistBatch batch key);
    match r with
    | Err e => _ ← rollbackSeenLocked hashes; throw e
    | Ok _ =>
        _ ← modify (fun q => set_seqs (add64 (nextAddSeq q) 1) (nextPrependSeq q) q);
        modify (fun q => set_queue (queue q ++ [MkItem batch key]) (head q) q)
    end.

(** The sum of the sizes of the transactions of an item, a uint64. *)
Definition entry_bytes (item : queuedItem) : Z :=
  foldl (fun n tx => add64 n (zlen tx)) 0 (Batch item).

(** The fields [rollbackInFlightLocked] assigns when there are enough free
    slots before [head]: the items are written backwards into them. *)
Fixpoint fill_backwards (items : list queuedItem) (qu : list queuedItem) (h : nat)
  : list queuedItem * nat :=
  match items with
  | [] => (qu, h)
  | v :: items' => fill_backwards items' (<[pred h := v]> qu) (pred h)
  end.

Definition rollbackInFlightLocked : QM unit :=
  q ← gets id;
  if zlen (inFlight q) =? 0 then mret tt else
  _ ← match postponedItem q with
      | Some item =>
          _ ← attempt (on_db (ds_delete (Key item)));
          modify (fun q => set_postponed (inFlightPostponed q) None q)
      | None => mret tt
      end;
  _ ← modify (fun q => set_postponed [] (postponedItem q) q);
  _ ← modify (fun q =>
        if (length (inFlight q) <=? head q)%nat then
          let '(qu, h) := fill_backwards (reverse (inFlight q)) (queue q) (head q) in
          set_queue qu h q
        else
          let tail := drop (head q) (queue q) in
          set_queue (inFlight q ++ tail) 0 q);
  modify (set_inFlight []).

Definition compactLocked : QM unit :=
  modify (fun q =>
    if (length (queue q) / 2 <? head q)%nat && (100 <? head q)%nat
    then set_queue (drop (head q) (queue q)) 0 q
    else q).

(** The loop of [Drain]; the number of items left bounds its iterations. *)
Fixpoint drain_loop (fuel : nat) (maxBytes totalBytes : Z) (allTxs : list bytes) (q : Q)
  : list bytes * Q :=
  match fuel with
  | O => (allTxs, q)
  | S fuel' =>
      match queue q !! head q with
      | None => (allTxs, q)
      | Some item =>
          let entryBytes := entry_bytes item in
          if (0 <? maxBytes) && (maxBytes <? add64 totalBytes entryBytes) && (0 <? zlen allTxs)
          then (allTxs, q)
          else
            let q := set_inFlight (inFlight q ++ [item]) q in
            let q := set_queue (<[head q := zero_item]> (queue q)) (S (head q)) q in
            drain_loop fuel' maxBytes (add64 totalBytes entryBytes) (allTxs ++ Batch item) q
      end
  end.

Definition Drain (maxBytes : Z) : QM (list bytes) :=
  _ ← rollbackInFlightLocked;
  q ← gets id;
  if (length (queue q) <=? head q)%nat then mret [] else
  let '(allTxs, q') := drain_loop (length (queue q) - head q) maxBytes 0 [] q in
  _ ← modify (fun _ => q');
  _ ← compactLocked;
  mret allTxs.

Definition SetPostponed (txs : list bytes) : QM unit :=
  modify (fun q => match postponedItem q with
                   | Some _ => q
                   | None => set_postponed txs None q
                   end).

Definition prependItemLocked (item : queuedItem) : QM unit :=
  modify (fun q => match head q with
                   | S h => set_queue (<[h := item]> (queue q)) h q
                   | O => set_queue (item :: queue q) 0 q
                   end).

Definition Ack : QM unit :=
  q ← gets id;
  _ ← (if (0 <? zlen (inFlightPostponed q)) && bool_decide (postponedItem q = None) then
         let batch := inFlightPostponed q in
         let key := seqToKey (nextPrependSeq q) in
         _ ← persistBatch batch key;
         _ ← modify (fun q => set_seqs (nextAddSeq q) (sub64 (nextPrependSeq q) 1) q);
         modify (fun q => set_postponed (inFlightPostponed q) (Some (MkItem batch key)) q)
       else mret tt);
  _ ← (if 0 <? zlen (inFlight q)
       then on_db (ds_run_batch ((fun item => BDelete (Key item)) <$> inFlight q))
       else mret tt);
  _ ← modify (fun q =>
        let postponed : gset bytes := list_to_set (txHash <$> inFlightPostponed q) in
        let committed := List.filter (fun h => negb (bool_decide (h ∈ postponed)))
                                (txHash <$> (inFlight q ≫= Batch)) in
        set_txSeen (foldl (fun s h => s ∖ {[h]}) (txSeen q) committed) q);
  item ← gets postponedItem;
  _ ← match item with Some item => prependItemLocked item | None => mret tt end;
  modify (fun q => set_postponed [] None (set_inFlight [] q)).

Definition dedupAndEnqueueLocked (batch : list bytes) (key : string) : QM unit :=
  q ← gets id;
  let '(filtered, seen) := dedup (txSeen q) batch in
  _ ← modify (set_txSeen seen);
  if zlen filtered =? 0 then
    _ ← attempt (F := queue_error) (on_db (ds_delete key));
    mret tt
  else
    _ ← (if zlen filtered <? zlen batch
         then r ← attempt (F := queue_error) (persistBatch filtered key); mret tt
         else mret tt);
    modify (fun q => set_queue (queue q ++ [MkItem filtered key]) (head q) q).

(** The transactions of an item that are not included, the hashes that are, and
    how many of them there are. *)
Definition split_included (included : gset bytes) (txs : list bytes) : list bytes * list bytes :=
  (List.filter (fun tx => negb (bool_decide (txHash tx ∈ included))) txs,
   List.filter (fun tx => bool_decide (txHash tx ∈ included)) txs).

(** The loop of [DropIncluded] over the items; [kept] is what was kept so far.
    On an error the slice still has the length it had, with the kept items
    written over its front (the in-place compaction aliases it). *)
Fixpoint drop_loop (included : gset bytes) (items kept original : list queuedItem) (dropped : Z)
  : QM Z :=
  match items with
  | [] =>
      _ ← modify (fun q => set_queue (take (head q) (queue q) ++ kept) (head q) q);
      mret dropped
  | item :: items' =>
      let '(remaining, gone) := split_included included (Batch item) in
      _ ← modify (fun q => set_txSeen (foldl (fun s tx => s ∖ {[txHash tx]}) (txSeen q) gone) q);
      let dropped := dropped + zlen gone in
      let fail e :=
        _ ← modify (fun q => set_queue (take (head q) (queue q) ++ kept
                                         ++ drop (length kept) original) (head q) q);
        throw e in
      if zlen remaining =? zlen (Batch item) then
        drop_loop included items' (kept ++ [item]) original dropped
      else if zlen remaining =? 0 then
        r ← attempt (on_db (ds_delete (Key item)));
        match r with
        | Err e => fail e
        | Ok _ => drop_loop included items' kept original dropped
        end
      else
        r ← attempt (persistBatch remaining (Key item));
        match r with
        | Err e => fail e
        | Ok _ => drop_loop included items' (kept ++ [MkItem remaining (Key item)]) original dropped
        end
  end.

Definition DropIncluded (included : list bytes) : QM Z :=
  q ← gets id;
  let includedSet : gset bytes := list_to_set (txHash <$> included) in
  let items := drop (head q) (queue q) in
  drop_loop includedSet items [] items 0.

(** One entry of the query: a decoded batch is enqueued, or kept for migration
    when its key is not a sequence number. *)
Definition load_entry (keyName : string) (value : bytes) (legacyItems : list queuedItem)
  : QM (list queuedItem) :=
  match proto_Unmarshal value with
  | Err _ => mret legacyItems
  | Ok pbBatch =>
      let batch := pb_Txs pbBatch in
      match (if Nat.eqb (String.length keyName) 16 then ParseUint16 keyName else None) with
      | Some seq =>
          _ ← modify (fun q => if nextAddSeq q <=? seq then set_seqs (add64 seq 1) (nextPrependSeq q) q else q);
          _ ← modify (fun q => if seq <=? nextPrependSeq q then set_seqs (nextAddSeq q) (sub64 seq 1) q else q);
          _ ← dedupAndEnqueueLocked batch keyName;
          mret legacyItems
      | None => mret (legacyItems ++ [MkItem batch keyName])
      end
  end.

Fixpoint load_entries (entries : list (res ds_error (string * bytes))) (legacyItems : list queuedItem)
  : QM (list queuedItem) :=
  match entries with
  | [] => mret legacyItems
  | Err e :: _ => throw (QDs e)
  | Ok (keyName, value) :: entries' =>
      legacyItems ← load_entry keyName value legacyItems;
      load_entries entries' legacyItems
  end.

Definition migrate_legacy (item : queuedItem) : QM unit :=
  q ← gets id;
  let newKeyName := seqToKey (nextAddSeq q) in
  r ← attempt (persistBatch (Batch item) newKeyName);
  match r with
  | Err _ => mret tt
  | Ok _ =>
      _ ← attempt (on_db (ds_delete (Key item)));
      _ ← dedupAndEnqueueLocked (Batch item) newKeyName;
      modify (fun q => set_seqs (add64 (nextAddSeq q) 1) (nextPrependSeq q) q)
  end.

Definition Load : QM unit :=
  _ ← modify (fun q => NewBatchQueue (qdb q) (maxQueueSize q));
  results ← on_db ds_query;
  legacyItems ← load_entries results [];
  if zlen legacyItems =? 0 then mret tt
  else for_each legacyItems migrate_legacy.

Definition Size (q : Q) : Z := zlen (queue q) - Z.of_nat (head q) + zlen (inFlight q).

End queue.
