(* ===== verification/BatchQueueFacts.v ===== *)
(** * Correctness of the batch queue

    The invariant of the queue and of its write-ahead log, preserved by every
    operation under every pattern of datastore failures, and the functional
    behaviour of the operations: order, bounds, deduplication, recovery. *)

From stdpp Require Import base gmap strings list numbers sorting.
From S2P Require Import Prelude Sha256 Datastore Serialization BatchQueue.
Open Scope Z_scope.

(** ** The dedup loop *)

Lemma foldl_difference (s : gset bytes) (l : list bytes) :
  foldl (fun s h => s ∖ {[h]}) s l = s ∖ list_to_set l.
Proof.
  revert s. induction l as [|h l IH]; intros s; simpl; [set_solver|]. rewrite IH. set_solver.
Qed.

Lemma dedup_spec seen txs :
  let '(u, s') := dedup seen txs in
  s' = seen ∪ list_to_set (txHash <$> u) /\ NoDup (txHash <$> u) /\
  (forall h, h ∈ txHash <$> u -> h ∉ seen) /\ (forall tx, tx ∈ txs -> txHash tx ∈ s') /\
  sublist u txs.
Proof.
  revert seen. induction txs as [|tx txs IH]; intros seen; simpl.
  { split_and!; try set_solver; constructor. }
  destruct (decide (txHash tx ∈ seen)) as [Hin|Hnin].
  - specialize (IH seen). destruct (dedup seen txs) as [u s']. destruct IH as (-> & Hn & Hd & Ha & Hs).
    split_and!; try done; [|by constructor]. intros tx' [->|]%elem_of_cons; [set_solver|auto].
  - specialize (IH ({[txHash tx]} ∪ seen)). destruct (dedup _ txs) as [u s'].
    destruct IH as (-> & Hn & Hd & Ha & Hs). rewrite !fmap_cons. split_and!.
    + simpl. set_solver.
    + apply NoDup_cons. split; [|done]. intros Hin. specialize (Hd _ Hin). set_solver.
    + intros h [->|Hh]%elem_of_cons; [done|]. specialize (Hd _ Hh). set_solver.
    + intros tx' [->|Hx]%elem_of_cons; [set_solver|auto].
    + by constructor.
Qed.

(** ** Keys *)

Lemma le_val_app a b : le_val (a ++ b) = le_val a + 256 ^ zlen a * le_val b.
Proof.
  induction a as [|x a IH]; [change (zlen (@nil byte)) with 0; rewrite Z.pow_0_r; cbn [app le_val]; lia|].
  cbn [app le_val]. rewrite IH.
  unfold zlen. cbn [length]. rewrite Nat2Z.inj_succ, Z.pow_succ_r by lia. unfold zlen. lia.
Qed.

Lemma be_val_cons x b : be_val (x :: b) = Z_of_byte x * 256 ^ zlen b + be_val b.
Proof.
  unfold be_val. rewrite reverse_cons, le_val_app. unfold zlen. rewrite length_reverse. cbn [le_val]. lia.
Qed.

Lemma be_val_range b : 0 <= be_val b < 256 ^ zlen b.
Proof. unfold be_val, zlen. rewrite <- (length_reverse b). apply le_val_range. Qed.

Lemma be_val_bytes s : is_u64 s -> be_val (be_bytes 8 s) = s.
Proof.
  intros Hs. unfold be_val, be_bytes. rewrite reverse_involutive, le_val_bytes.
  apply Z.mod_small, Hs.
Qed.

Lemma hex_value_digit d : 0 <= d < 16 -> hex_value (hex_digit d) = Some d.
Proof. revert d. apply (digits_ind (fun d => hex_value (hex_digit d) = Some d)). repeat constructor. Qed.

Lemma hex_digit_compare d e : 0 <= d < 16 -> 0 <= e < 16 ->
  Ascii.compare (hex_digit d) (hex_digit e) = Z.compare d e.
Proof.
  intros Hd He. revert d Hd e He.
  apply (digits_ind (fun d => forall e, 0 <= e < 16 -> Ascii.compare (hex_digit d) (hex_digit e) = Z.compare d e)).
  repeat (apply Forall_cons; split; [apply (digits_ind (fun e => Ascii.compare _ (hex_digit e) = Z.compare _ e)); repeat constructor|]).
  constructor.
Qed.

Lemma byte_digits x : 0 <= Z_of_byte x / 16 < 16 /\ 0 <= Z_of_byte x mod 16 < 16 /\
  Z_of_byte x = 16 * (Z_of_byte x / 16) + Z_of_byte x mod 16.
Proof.
  pose proof (Z_of_byte_range x). split_and!; try apply Z.mod_pos_bound; try lia.
  - apply Z.div_pos; lia.
  - apply Z.div_lt_upper_bound; lia.
  - apply Z.div_mod. lia.
Qed.

Lemma parse_hex_encode b acc : parse_hex acc (hex_encode b) = Some (acc * 256 ^ zlen b + be_val b).
Proof.
  revert acc. induction b as [|x b IH]; intros acc; [cbn [hex_encode parse_hex]; f_equal; change (zlen (@nil byte)) with 0; change (be_val []) with 0; lia|].
  destruct (byte_digits x) as (H1 & H2 & H3). cbn [hex_encode parse_hex].
  rewrite !hex_value_digit by done. cbn [mbind option_bind]. rewrite IH, be_val_cons. f_equal.
  unfold zlen. cbn [length]. rewrite Nat2Z.inj_succ, Z.pow_succ_r by lia. nia.
Qed.

Lemma length_hex_encode b : String.length (hex_encode b) = (2 * length b)%nat.
Proof. induction b as [|x b IH]; simpl; [done|]. rewrite IH. lia. Qed.

Lemma parse_seqToKey s : is_u64 s ->
  String.length (seqToKey s) = 16%nat /\ ParseUint16 (seqToKey s) = Some s.
Proof.
  intros Hs. assert (Hl : String.length (seqToKey s) = 16%nat).
  { unfold seqToKey. by rewrite length_hex_encode, length_be_bytes. }
  split; [done|]. unfold ParseUint16. destruct (seqToKey s) eqn:Hk; [done|]. rewrite <- Hk.
  unfold seqToKey. by rewrite parse_hex_encode, be_val_bytes.
Qed.

Lemma hex_encode_compare a b :
  length a = length b -> String.compare (hex_encode a) (hex_encode b) = Z.compare (be_val a) (be_val b).
Proof.
  revert b. induction a as [|x a IH]; intros [|y b] Hl; try done.
  injection Hl as Hl. cbn [hex_encode String.compare]. rewrite !be_val_cons, !hex_digit_compare by apply byte_digits.
  destruct (byte_digits x) as (Hx1 & Hx2 & Hx), (byte_digits y) as (Hy1 & Hy2 & Hy).
  assert (zlen a = zlen b) as Hz by (unfold zlen; lia). rewrite Hz.
  pose proof (be_val_range a) as Ha. pose proof (be_val_range b) as Hb. rewrite Hz in Ha.
  set (P := 256 ^ zlen b) in *.
  destruct (Z.compare_spec (Z_of_byte x / 16) (Z_of_byte y / 16)) as [He|Hlt|Hgt].
  - destruct (Z.compare_spec (Z_of_byte x mod 16) (Z_of_byte y mod 16)) as [He2|Hlt|Hgt].
    + rewrite (IH b Hl). assert (Z_of_byte x = Z_of_byte y) as -> by lia. symmetry. apply Z.add_compare_mono_l.
    + symmetry. apply Z.compare_lt_iff. assert (Z_of_byte x + 1 <= Z_of_byte y) by lia. nia.
    + symmetry. apply Z.compare_gt_iff. assert (Z_of_byte y + 1 <= Z_of_byte x) by lia. nia.
  - symmetry. apply Z.compare_lt_iff. assert (Z_of_byte x + 1 <= Z_of_byte y) by lia. nia.
  - symmetry. apply Z.compare_gt_iff. assert (Z_of_byte y + 1 <= Z_of_byte x) by lia. nia.
Qed.

(** The keys of the write-ahead log sort like the sequence numbers they
    encode, so that reading the log in key order is reading it in queue order;
    and parsing a key gives its sequence number back. *)
Theorem seqToKey_order a b :
  is_u64 a -> is_u64 b ->
  (key_lt (seqToKey a) (seqToKey b) <-> a < b) /\ ParseUint16 (seqToKey a) = Some a.
Proof.
  intros Ha Hb. split; [|by apply parse_seqToKey].
  unfold key_lt, String.ltb, seqToKey.
  rewrite hex_encode_compare by by rewrite !length_be_bytes.
  rewrite !be_val_bytes by done. unfold Z.lt. by destruct (a ?= b).
Qed.

Lemma seqToKey_order_witness : key_lt (seqToKey 255) (seqToKey 256) <-> 255 < 256.
Proof. apply (seqToKey_order 255 256); unfold is_u64, two64; lia. Defined.

Section facts.
Context {DB : Type} `{DatastoreLaws DB} `{ProtoMsg pbBatch}.
Context `{!ProtoLaws pbBatch (fun m => m) (fun _ => True)}.
Abbreviation Q := (BatchQueue DB).

(** ** The invariant *)

Definition live (q : Q) : list queuedItem := drop (head q) (queue q).
Definition all_items (q : Q) : list queuedItem := inFlight q ++ live q.
Definition txs_of (items : list queuedItem) : list bytes := items ≫= Batch.
Definition tracked (q : Q) : list queuedItem := option_list (postponedItem q) ++ all_items q.

(** The queue in memory: the dedup set holds exactly the hashes of the queued
    and in-flight transactions, none of which occurs twice; no entry is empty;
    what is postponed is part of what is in flight. *)
Definition mem_inv (q : Q) : Prop :=
  (head q <= length (queue q))%nat /\
  NoDup (txHash <$> txs_of (all_items q)) /\
  txSeen q = list_to_set (txHash <$> txs_of (all_items q)) /\
  inFlightPostponed q ⊆+ txs_of (inFlight q) /\
  (forall it, postponedItem q = Some it -> Batch it = inFlightPostponed q /\ Batch it <> []) /\
  Forall (fun it => Batch it <> []) (all_items q).

(** A key that is a sequence number between the two counters. *)
Definition key_between (lo hi : Z) (k : string) : Prop :=
  exists s, String.length k = 16%nat /\ ParseUint16 k = Some s /\ lo < s < hi.

(** The log covers an item: under its key is a batch that decodes to (at least)
    its transactions. *)
Definition covered (v : gmap string bytes) (it : queuedItem) : Prop :=
  exists b txs, v !! Key it = Some b /\ proto_Unmarshal b = Ok (MkPbBatch txs) /\
    forall tx, tx ∈ Batch it -> tx ∈ txs.

Definition wal_inv (q : Q) : Prop :=
  0 <= nextPrependSeq q < initialSeqNum /\ initialSeqNum <= nextAddSeq q <= max_u64 /\
  NoDup (Key <$> tracked q) /\
  (forall it, it ∈ tracked q -> key_between (nextPrependSeq q) (nextAddSeq q) (Key it)) /\
  (forall it, it ∈ tracked q -> covered (ds_view (qdb q)) it).

Definition queue_inv (q : Q) : Prop := mem_inv q /\ wal_inv q.

(** The counters have room for one more batch at each end. *)
Definition headroom (q : Q) : Prop := 0 < nextPrependSeq q /\ nextAddSeq q < max_u64.

(** ** The datastore calls *)

Lemma persistBatch_spec batch key (q : Q) :
  wp (persistBatch batch key) (fun r q' => exists d', q' = set_qdb d' q /\
    (ds_healthy (qdb q) -> ds_healthy d') /\
    match r with
    | Ok _ => exists b, proto_Marshal (MkPbBatch batch) = Ok b /\ ds_view d' = <[key := b]> (ds_view (qdb q))
    | Err e => ds_view d' = ds_view (qdb q) /\ (~ ds_healthy (qdb q) \/ e = QProto) /\ e <> ErrQueueFull
    end) q.
Proof.
  unfold persistBatch, on_db. apply wp_bind, wp_lift_res.
  destruct (proto_Marshal (MkPbBatch batch)) as [b|]; simpl.
  - apply wp_zoom, wp_wrap. eapply wp_mono; [apply put_law|].
    intros [[]|e] d' [Hh Hv]; exists d'; simpl; split_and!; eauto; naive_solver.
  - exists (qdb q). split_and!; try done; [by destruct q|by right].
Qed.

Lemma on_db_delete_spec key (q : Q) :
  wp (on_db (ds_delete key)) (fun r q' => exists d', q' = set_qdb d' q /\
    (ds_healthy (qdb q) -> ds_healthy d') /\
    match r with
    | Ok _ => ds_view d' = delete key (ds_view (qdb q))
    | Err e => ds_view d' = ds_view (qdb q) /\ ~ ds_healthy (qdb q)
    end) q.
Proof.
  unfold on_db. apply wp_zoom, wp_wrap. eapply wp_mono; [apply delete_law|].
  intros [[]|e] d' [Hh Hv]; exists d'; simpl; split_and!; try done; naive_solver.
Qed.

Lemma covered_insert_ne v it k b : k <> Key it -> covered v it -> covered (<[k := b]> v) it.
Proof. intros Hne (b' & txs & Hk & Hu & Ha). exists b', txs. by rewrite lookup_insert_ne. Qed.

Lemma covered_delete_ne v it k : k <> Key it -> covered v it -> covered (delete k v) it.
Proof. intros Hne (b' & txs & Hk & Hu & Ha). exists b', txs. by rewrite lookup_delete_ne. Qed.

Lemma covered_insert_eq v batch k b :
  proto_Marshal (MkPbBatch batch) = Ok b -> covered (<[k := b]> v) (MkItem batch k).
Proof.
  intros Hm. exists b, batch. simpl. rewrite lookup_insert_eq.
  by rewrite (unmarshal_marshal (norm := fun m => m) (ok := fun _ => True) _ b I Hm).
Qed.

Lemma covered_sub v it txs' :
  covered v it -> (forall tx, tx ∈ txs' -> tx ∈ Batch it) -> covered v (MkItem txs' (Key it)).
Proof. intros (b & txs & Hk & Hu & Ha) Hs. exists b, txs. split_and!; eauto. Qed.

(** ** Small facts about the state *)

Lemma txs_of_app a b : txs_of (a ++ b) = txs_of a ++ txs_of b.
Proof. apply bind_app. Qed.

Lemma elem_of_txs_of tx items : tx ∈ txs_of items <-> exists it, it ∈ items /\ tx ∈ Batch it.
Proof. unfold txs_of. rewrite list_elem_of_bind. naive_solver. Qed.

Lemma live_append q it :
  (head q <= length (queue q))%nat -> drop (head q) (queue q ++ [it]) = live q ++ [it].
Proof. intros Hh. unfold live. by rewrite drop_app_le. Qed.

Lemma set_txSeen_id (q : Q) s : s = txSeen q -> set_txSeen s q = q.
Proof. intros ->. by destruct q. Qed.

Lemma set_txSeen_back (q : Q) s : set_txSeen (txSeen q) (set_txSeen s q) = q.
Proof. by destruct q. Qed.

Lemma set_qdb_view q d' :
  queue_inv q -> ds_view d' = ds_view (qdb q) -> queue_inv (set_qdb d' q).
Proof.
  intros [Hm Hw] Hv. split; [exact Hm|]. unfold wal_inv in *. simpl. rewrite Hv. exact Hw.
Qed.

Lemma key_between_fresh lo hi s k : is_u64 s -> ~ lo < s < hi -> key_between lo hi k -> k <> seqToKey s.
Proof.
  intros Hs Hn (s' & Hl & Hp & Hb) ->. destruct (parse_seqToKey s Hs) as [_ Hp']. simplify_eq. lia.
Qed.

Lemma key_between_mono lo hi lo' hi' k : lo' <= lo -> hi <= hi' -> key_between lo hi k -> key_between lo' hi' k.
Proof. intros Hl Hh (s & ? & ? & ?). exists s. split_and!; try done; lia. Qed.

Lemma key_between_seq lo hi s : is_u64 s -> lo < s < hi -> key_between lo hi (seqToKey s).
Proof. intros Hs Hb. destruct (parse_seqToKey s Hs) as [Hl Hp]. by exists s. Qed.

Lemma Size_items q : (head q <= length (queue q))%nat -> Size q = zlen (all_items q).
Proof.
  intros Hh. unfold Size, all_items, live, zlen. rewrite length_app, length_drop. lia.
Qed.

(** ** AddBatch *)

(** A new item with unseen transactions under a fresh key at the back, with
    counters that may only move apart. *)
Lemma enqueue_inv q u k a p d' :
  queue_inv q -> u <> [] -> NoDup (txHash <$> u) -> (forall h, h ∈ txHash <$> u -> h ∉ txSeen q) ->
  nextAddSeq q <= a <= max_u64 -> 0 <= p <= nextPrependSeq q -> key_between p a k ->
  k ∉ Key <$> tracked q -> covered (ds_view d') (MkItem u k) ->
  (forall k', k' <> k -> ds_view d' !! k' = ds_view (qdb q) !! k') ->
  queue_inv (MkBatchQueue (queue q ++ [MkItem u k]) (head q) (maxQueueSize q)
               (inFlight q) (inFlightPostponed q) (postponedItem q)
               (txSeen q ∪ list_to_set (txHash <$> u)) a p d').
Proof.
  intros [(Hh & Hn & Hs & Hp & Hpi & Hnb) (Hlo & Hhi & Hk & Hb & Hc)] Hne Hnu Hdis Ha Hpp Hkb Hnk Hcov Hv.
  set (it := MkItem u k). set (q' := MkBatchQueue _ _ _ _ _ _ _ _ _ _).
  assert (Hall : all_items q' = all_items q ++ [it]).
  { unfold all_items, live, q'. simpl. rewrite live_append by done. by rewrite app_assoc. }
  assert (Htr : tracked q' = tracked q ++ [it]) by (unfold tracked; rewrite Hall; by rewrite app_assoc).
  assert (Htx : txs_of (all_items q') = txs_of (all_items q) ++ u).
  { rewrite Hall, txs_of_app. unfold txs_of at 2. simpl. by rewrite app_nil_r. }
  split; split_and!; try done.
  - unfold q'. simpl. rewrite length_app. simpl. lia.
  - rewrite Htx, fmap_app. apply NoDup_app. split_and!; try done.
    intros h Hh1 Hh2. apply (Hdis h Hh2). rewrite Hs. by apply elem_of_list_to_set.
  - rewrite Htx, fmap_app, list_to_set_app_L. unfold q'. simpl. by rewrite Hs.
  - rewrite Hall. apply Forall_app. split; [done|by repeat constructor].
  - unfold q'. simpl. lia.
  - unfold q'. simpl. lia.
  - unfold q'. simpl. lia.
  - unfold q'. simpl. lia.
  - rewrite Htr, fmap_app. apply NoDup_app. split_and!; [done| |apply NoDup_singleton].
    intros k' Hk' Hk2%list_elem_of_singleton. by subst k'.
  - intros it'. rewrite Htr. intros [Hin | ->%list_elem_of_singleton]%elem_of_app; [|done].
    eapply key_between_mono; [| |by apply Hb]; simpl; lia.
  - intros it'. rewrite Htr. intros [Hin | ->%list_elem_of_singleton]%elem_of_app; [|done].
    destruct (Hc it' Hin) as (b & txs & Hkb' & Hu & Ht). exists b, txs. split_and!; try done.
    cbn [qdb q']. rewrite Hv; [done|]. intros Heq. apply Hnk. rewrite <- Heq. by apply list_elem_of_fmap_2.
Qed.

Lemma fresh_add_key q : queue_inv q -> seqToKey (nextAddSeq q) ∉ Key <$> tracked q.
Proof.
  intros [_ (Hlo & Hhi & Hk & Hb & Hc)] (it & Heq & Hit)%list_elem_of_fmap. symmetry in Heq. revert Heq.
  eapply key_between_fresh; [|  |by apply Hb].
  - unfold is_u64, two64, max_u64, initialSeqNum in *. lia.
  - lia.
Qed.

Lemma AddBatch_spec txs q :
  queue_inv q -> headroom q ->
  wp (AddBatch txs) (fun r q' => queue_inv q' /\ inFlight q' = inFlight q /\
    match r with
    | Ok _ =>
        let u := (dedup (txSeen q) txs).1 in
        live q' = live q ++ (if decide (u = []) then [] else [MkItem u (seqToKey (nextAddSeq q))]) /\
        (u <> [] -> 0 < maxQueueSize q -> Size q < maxQueueSize q) /\
        txSeen q' = txSeen q ∪ list_to_set (txHash <$> u)
    | Err e => live q' = live q /\ txSeen q' = txSeen q /\ ds_view (qdb q') = ds_view (qdb q) /\
        (e = ErrQueueFull -> 0 < maxQueueSize q <= Size q)
    end /\ maxQueueSize q' = maxQueueSize q) q.
Proof.
  intros Hinv Hroom. unfold AddBatch. wp_read.
  pose proof (dedup_spec (txSeen q) txs) as Hd. destruct (dedup (txSeen q) txs) as [u s'] eqn:Hdd.
  destruct Hd as (-> & Hnu & Hdis & _ & _). apply wp_bind, wp_modify.
  assert (Hun : foldl (fun s h => s ∖ {[h]}) (txSeen q ∪ list_to_set (txHash <$> u)) (txHash <$> u) = txSeen q).
  { rewrite foldl_difference. apply leibniz_equiv. intros h. specialize (Hdis h). set_solver. }
  destruct (Z.eqb_spec (zlen u) 0) as [Hz|Hz].
  { apply zlen_zero in Hz as ->. apply wp_ret. rewrite set_txSeen_id by (simpl; set_solver).
    simpl. rewrite app_nil_r. split_and!; done || set_solver. }
  assert (Hne : u <> []) by (intros ->; done).
  fold (Size q). destruct ((0 <? maxQueueSize q) && (maxQueueSize q <=? Size q)) eqn:Hfull.
  { apply wp_bind, wp_modify, wp_throw. simpl. rewrite Hun, set_txSeen_back.
    split_and!; try done; intros; lia. }
  apply wp_bind, wp_attempt. eapply wp_mono; [apply persistBatch_spec|].
  intros [[]|e] q' (d' & -> & Hh & Hr).
  - destruct Hr as (b & Hm & Hv). apply wp_bind, wp_modify, wp_modify. simpl. split_and!; try done.
    + pose proof Hinv as [_ (Hlo & Hhi & _)]. destruct Hroom as [_ Hr2].
      rewrite add64_small by (unfold two64, max_u64, initialSeqNum in *; lia).
      apply (enqueue_inv q u (seqToKey (nextAddSeq q)) (nextAddSeq q + 1) (nextPrependSeq q) d'); try done; try lia.
      * apply key_between_seq; unfold is_u64, two64, max_u64, initialSeqNum in *; lia.
      * by apply fresh_add_key.
      * rewrite Hv. by apply covered_insert_eq.
      * intros k' Hne'. rewrite Hv. by rewrite lookup_insert_ne.
    + unfold live. simpl. rewrite decide_False by done. apply live_append, Hinv.
    + intros _ Hpos. lia.
  - destruct Hr as (Hv & _ & He). apply wp_bind, wp_modify, wp_throw. simpl. rewrite Hun.
    split_and!; try done.
    pose proof (set_qdb_view q d' Hinv Hv) as Hi. by destruct q.
Qed.

(** ** Drain *)

Lemma fill_backwards_spec l qu h :
  (length l <= h <= length qu)%nat ->
  let '(qu', h') := fill_backwards l qu h in
  h' = (h - length l)%nat /\ length qu' = length qu /\ drop h' qu' = reverse l ++ drop h qu.
Proof.
  revert qu h. induction l as [|v l IH]; intros qu h Hl; simpl.
  { split_and!; try done; lia. }
  simpl in Hl. specialize (IH (<[pred h := v]> qu) (pred h)). rewrite length_insert in IH.
  destruct (fill_backwards l (<[pred h := v]> qu) (pred h)) as [qu' h'].
  destruct IH as (-> & Hlen & Hd); [lia|]. split_and!; [lia|done|]. rewrite Hd, reverse_cons, <- app_assoc. f_equal.
  rewrite (drop_S (<[pred h:=v]> qu) v (pred h)) by (apply list_lookup_insert_eq; lia).
  simpl. f_equal. replace (S (pred h)) with h by lia. apply drop_insert_lt. lia.
Qed.

(** Two states whose tracked items agree up to the discarded postponed entry. *)
Lemma inv_rolled_back q q' :
  queue_inv q -> (head q' <= length (queue q'))%nat ->
  inFlight q' = [] -> live q' = all_items q -> inFlightPostponed q' = [] -> postponedItem q' = None ->
  txSeen q' = txSeen q -> nextAddSeq q' = nextAddSeq q -> nextPrependSeq q' = nextPrependSeq q ->
  (ds_view (qdb q') = ds_view (qdb q) \/
   exists it, postponedItem q = Some it /\ ds_view (qdb q') = delete (Key it) (ds_view (qdb q))) ->
  queue_inv q'.
Proof.
  intros [(Hh & Hn & Hs & Hp & Hpi & Hnb) (Hlo & Hhi & Hk & Hb & Hc)] Hh' Hif Hl Hpo Hpit Hse Ha Hpr Hv.
  assert (Hall : all_items q' = all_items q) by (unfold all_items at 1; rewrite Hif, Hl; reflexivity).
  assert (Htr : tracked q' = all_items q) by (unfold tracked; by rewrite Hpit, Hall).
  assert (Hsub : forall it, it ∈ all_items q -> it ∈ tracked q) by (intros it ?; unfold tracked; set_solver).
  split; split_and!; rewrite ?Htr, ?Hall, ?Hse, ?Ha, ?Hpr, ?Hpo; try done; try lia.
  - rewrite Hif. done.
  - intros it Hit. by rewrite Hpit in Hit.
  - unfold tracked in Hk. rewrite fmap_app in Hk. by apply NoDup_app in Hk as (_ & _ & ?).
  - intros it Hit. auto.
  - intros it Hit. destruct Hv as [-> | (pit & Hpit' & ->)]; [auto|].
    apply covered_delete_ne; [|auto]. intros Heq. unfold tracked in Hk. rewrite fmap_app in Hk.
    apply NoDup_app in Hk as (_ & Hd & _). rewrite Hpit' in Hd. apply (Hd (Key it)).
    + rewrite <- Heq. simpl. left.
    + apply list_elem_of_fmap. eauto.
Qed.

Lemma rollback_queue_live (q : Q) :
  (head q <= length (queue q))%nat ->
  let q' := (if (length (inFlight q) <=? head q)%nat then
               let '(qu, h) := fill_backwards (reverse (inFlight q)) (queue q) (head q) in set_queue qu h q
             else set_queue (inFlight q ++ drop (head q) (queue q)) 0 q) in
  (head q' <= length (queue q'))%nat /\ live q' = all_items q /\
  exists qu h, q' = set_queue qu h q.
Proof.
  intros Hh. unfold all_items, live.
  destruct (Nat.leb_spec (length (inFlight q)) (head q)).
  - pose proof (fill_backwards_spec (reverse (inFlight q)) (queue q) (head q)) as Hf.
    rewrite length_reverse in Hf. destruct (fill_backwards _ _ _) as [qu h].
    destruct Hf as (-> & Hl & Hd); [lia|]. rewrite reverse_involutive in Hd. simpl. split_and!; [lia|done|eauto].
  - simpl. rewrite drop_0. split_and!; [lia|done|eauto].
Qed.

Lemma rollbackInFlight_spec q :
  queue_inv q ->
  wp rollbackInFlightLocked (fun r q' => r = Ok tt /\ queue_inv q' /\ inFlight q' = [] /\
    live q' = all_items q /\ inFlightPostponed q' = [] /\ postponedItem q' = None /\
    maxQueueSize q' = maxQueueSize q /\ txSeen q' = txSeen q /\
    nextAddSeq q' = nextAddSeq q /\ nextPrependSeq q' = nextPrependSeq q) q.
Proof.
  intros Hinv. unfold rollbackInFlightLocked. wp_read.
  destruct (Z.eqb_spec (zlen (inFlight q)) 0) as [Hz|Hz].
  { apply zlen_zero in Hz. apply wp_ret. pose proof Hinv as [(_ & _ & _ & Hp & Hpi & _) _].
    unfold all_items. rewrite Hz in Hp |- *. apply submseteq_nil_r in Hp.
    split_and!; try done. destruct (postponedItem q) as [it|]; [|done].
    destruct (Hpi it eq_refl) as [Hb Hne]. congruence. }
  apply wp_bind.
  eapply wp_mono with (P := fun r q1 => r = Ok tt /\ exists d', q1 = set_postponed (inFlightPostponed q) None (set_qdb d' q) /\
    (ds_view d' = ds_view (qdb q) \/ exists it, postponedItem q = Some it /\ ds_view d' = delete (Key it) (ds_view (qdb q)))).
  { destruct (postponedItem q) as [it|] eqn:Hit.
    - apply wp_bind, wp_attempt. eapply wp_mono; [apply on_db_delete_spec|].
      intros r q1 (d' & -> & _ & Hr). apply wp_modify. split; [done|]. exists d'. split; [done|].
      destruct r as [[]|e]; [right; eauto|left; tauto].
    - apply wp_ret. split; [done|]. exists (qdb q). split; [|by left]. destruct q; simpl in *; by subst. }
  intros r q1 (-> & d' & -> & Hv).
  apply wp_bind, wp_modify, wp_bind, wp_modify, wp_modify.
  destruct (rollback_queue_live (set_postponed [] None (set_postponed (inFlightPostponed q) None (set_qdb d' q)))) as (Hh & Hl & qu & h & Heq); [apply Hinv|].
  simpl in Heq, Hh, Hl |- *. rewrite Heq in *. simpl in *. split_and!; try done.
  by apply (inv_rolled_back q).
Qed.

(** The bytes of a list of transactions, without wrap-around. *)
Definition txs_size (txs : list bytes) : Z := foldr (fun tx n => zlen tx + n) 0 txs.

Lemma txs_size_app a b : txs_size (a ++ b) = txs_size a + txs_size b.
Proof. induction a as [|x a IH]; simpl; [done|]. rewrite IH. lia. Qed.

Lemma txs_size_nonneg txs : 0 <= txs_size txs.
Proof. induction txs as [|tx txs IH]; simpl; [done|]. pose proof (zlen_nonneg tx). lia. Qed.

Lemma entry_bytes_eq it : txs_size (Batch it) < two64 -> entry_bytes it = txs_size (Batch it).
Proof.
  intros Hlt. unfold entry_bytes.
  assert (Hg : forall txs n, 0 <= n -> n + txs_size txs < two64 ->
    foldl (fun n tx => add64 n (zlen tx)) n txs = n + txs_size txs); [|by apply Hg].
  intros txs. induction txs as [|tx txs IH]; intros n Hn Hb; simpl in *; [lia|].
  pose proof (zlen_nonneg tx). pose proof (txs_size_nonneg txs). rewrite add64_small by lia. rewrite IH; lia.
Qed.

(** What the loop takes: a prefix of the queue, within the byte limit except for
    a first entry that alone exceeds it, and maximal. *)
Definition within_limit (maxBytes total : Z) (acc : list bytes) (taken rest : list queuedItem) : Prop :=
  (0 < maxBytes -> total <= maxBytes -> taken <> [] ->
     total + txs_size (txs_of taken) <= maxBytes \/ (acc = [] /\ length taken = 1%nat)) /\
  (0 < maxBytes < total -> acc <> [] -> taken = []) /\
  match rest with
  | [] => True
  | it :: _ => 0 < maxBytes /\ acc ++ txs_of taken <> [] /\
               maxBytes < total + txs_size (txs_of taken) + txs_size (Batch it)
  end.

Lemma drain_loop_spec fuel maxBytes total acc (q : Q) :
  fuel = length (live q) -> (head q <= length (queue q))%nat ->
  Forall (fun it => Batch it <> []) (live q) ->
  0 <= total -> total + txs_size (txs_of (live q)) < two64 ->
  let '(acc', q') := drain_loop fuel maxBytes total acc q in
  exists taken qu h,
    q' = set_inFlight (inFlight q ++ taken) (set_queue qu h q) /\
    (h <= length qu)%nat /\ live q = taken ++ drop h qu /\ acc' = acc ++ txs_of taken /\
    within_limit maxBytes total acc taken (drop h qu).
Proof.
  revert total acc q. induction fuel as [|fuel IH]; intros total acc q Hf Hh Hne Ht Hsz; cbn [drain_loop].
  { symmetry in Hf. apply length_zero_iff_nil in Hf. exists [], (queue q), (head q). unfold live in *.
    rewrite Hf, !app_nil_r. split_and!; try done. by destruct q. }
  destruct (queue q !! head q) as [it|] eqn:Hit.
  2:{ exfalso. apply lookup_ge_None in Hit. unfold live in Hf. rewrite length_drop in Hf. lia. }
  assert (Hlive : live q = it :: drop (S (head q)) (queue q)) by by apply drop_S.
  rewrite Hlive in Hne, Hsz, Hf. apply Forall_cons_1 in Hne as [Hit0 Hne].
  assert (Hspl : txs_size (txs_of (it :: drop (S (head q)) (queue q)))
    = txs_size (Batch it) + txs_size (txs_of (drop (S (head q)) (queue q)))) by apply txs_size_app.
  rewrite Hspl in Hsz. clear Hspl.
  pose proof (txs_size_nonneg (Batch it)). pose proof (txs_size_nonneg (txs_of (drop (S (head q)) (queue q)))).
  rewrite entry_bytes_eq by lia. rewrite add64_small by lia.
  destruct ((0 <? maxBytes) && (maxBytes <? total + txs_size (Batch it)) && (0 <? zlen acc)) eqn:Hstop.
  - exists [], (queue q), (head q). rewrite !app_nil_r. split_and!; try done; [by destruct q|].
    assert (acc <> []) by (intros ->; simpl in Hstop; rewrite andb_false_r in Hstop; done).
    unfold within_limit. fold (live q). rewrite Hlive, app_nil_r. split_and!; try done; simpl; lia.
  - specialize (IH (total + txs_size (Batch it)) (acc ++ Batch it)
      (set_queue (<[head q:=zero_item]> (queue q)) (S (head q)) (set_inFlight (inFlight q ++ [it]) q))).
    cbn [set_queue set_inFlight queue head inFlight] in IH |- *.
    assert (Hl' : live (set_queue (<[head q:=zero_item]> (queue q)) (S (head q)) (set_inFlight (inFlight q ++ [it]) q))
      = drop (S (head q)) (queue q)) by (unfold live; simpl; apply drop_insert_lt; lia).
    rewrite Hl' in IH. apply lookup_lt_Some in Hit. rewrite length_insert in IH. simpl in Hf.
    destruct (drain_loop fuel _ _ _ _) as [acc' q'].
    destruct IH as (taken & qu & h & -> & Hhq & Htk & -> & Hlim1 & Hlim2 & Hlim3); try done; try lia.
    exists (it :: taken), qu, h. split_and!; try done.
    + simpl. by rewrite <- app_assoc.
    + by rewrite Hlive, Htk.
    + unfold txs_of at 2. rewrite bind_cons, app_assoc. done.
    + unfold within_limit. unfold txs_of in *. rewrite bind_cons, txs_size_app, !app_assoc. split_and!.
      * intros Hpos Hle _. destruct (Z.le_gt_cases (total + txs_size (Batch it)) maxBytes) as [Hle2|Hgt].
        { destruct taken as [|t taken]; [left; simpl; lia|].
          destruct Hlim1 as [Hx|[[_ Hx]%app_eq_nil _]]; [done|done|done|left; lia|done]. }
        right. rewrite Hlim2; [|lia|by intros [_ Hx]%app_eq_nil].
        destruct (zlen acc) eqn:Hz; [apply zlen_zero in Hz; done|lia|pose proof (zlen_nonneg acc); lia].
      * intros Hpos Hacc. destruct acc; [done|]. rewrite andb_true_r in Hstop. lia.
      * destruct (drop h qu); [done|]. destruct Hlim3 as (? & ? & ?). split_and!; try done; lia.
Qed.

(** Items that only moved between the in-flight list and the queue. *)
Lemma inv_same_items q q' :
  queue_inv q -> postponedItem q = None -> (head q' <= length (queue q'))%nat ->
  all_items q' = all_items q -> inFlightPostponed q' = [] -> postponedItem q' = None ->
  txSeen q' = txSeen q -> nextAddSeq q' = nextAddSeq q -> nextPrependSeq q' = nextPrependSeq q ->
  ds_view (qdb q') = ds_view (qdb q) -> queue_inv q'.
Proof.
  intros [(Hh & Hn & Hs & Hp & Hpi & Hnb) (Hlo & Hhi & Hk & Hb & Hc)] Hp0 Hh' Hall Hpo Hpit Hse Ha Hpr Hv.
  assert (Htr : tracked q' = tracked q) by (unfold tracked; by rewrite Hpit, Hp0, Hall).
  split; split_and!; rewrite ?Htr, ?Hall, ?Hse, ?Ha, ?Hpr, ?Hv, ?Hpo; try done; try lia.
  - apply submseteq_nil_l.
  - intros it Hit. by rewrite Hpit in Hit.
Qed.

Lemma compactLocked_spec (q : Q) :
  (head q <= length (queue q))%nat ->
  wp compactLocked (fun r q' => r = Ok tt /\ exists qu h, q' = set_queue qu h q /\
    (h <= length qu)%nat /\ drop h qu = live q) q.
Proof.
  intros Hh. unfold compactLocked. apply wp_modify. split; [done|]. case_match.
  - exists (drop (head q) (queue q)), 0%nat. split_and!; [done|lia|done].
  - exists (queue q), (head q). split_and!; try done. by destruct q.
Qed.

Lemma Drain_spec maxBytes q :
  queue_inv q -> txs_size (txs_of (all_items q)) < two64 ->
  wp (Drain maxBytes) (fun r q' => exists txs, r = Ok txs /\ queue_inv q' /\
    all_items q' = all_items q /\ txs = txs_of (inFlight q') /\ txSeen q' = txSeen q /\
    maxQueueSize q' = maxQueueSize q /\ inFlightPostponed q' = [] /\
    nextAddSeq q' = nextAddSeq q /\ nextPrependSeq q' = nextPrependSeq q /\
    within_limit maxBytes 0 [] (inFlight q') (live q')) q.
Proof.
  intros Hinv Hsz. unfold Drain. apply wp_bind. eapply wp_mono; [by apply rollbackInFlight_spec|].
  intros r q1 (-> & Hinv1 & Hif & Hl & Hpo & Hpi & Hmax & Hse & Ha & Hp). wp_read.
  assert (Hall1 : all_items q1 = all_items q) by (unfold all_items at 1; by rewrite Hif, Hl).
  destruct (Nat.leb_spec (length (queue q1)) (head q1)) as [Hle|Hgt].
  - apply wp_ret. exists []. rewrite Hif.
    assert (live q1 = []) as -> by (apply drop_ge; lia).
    split_and!; done.
  - pose proof (drain_loop_spec (length (queue q1) - head q1) maxBytes 0 [] q1) as Hd.
    destruct (drain_loop _ maxBytes 0 [] q1) as [acc q2].
    destruct Hd as (taken & qu & h & -> & Hh2 & Htk & -> & Hlim).
    + unfold live. by rewrite length_drop.
    + apply Hinv1.
    + destruct Hinv1 as [(_ & _ & _ & _ & _ & Hnb) _]. rewrite Hall1 in Hnb. by rewrite Hl.
    + done.
    + by rewrite Hl.
    + apply wp_bind, wp_modify, wp_bind. eapply wp_mono; [apply compactLocked_spec; exact Hh2|].
      intros r q3 (-> & qu' & h' & -> & Hh3 & Hd3). apply wp_ret. eexists. split; [done|].
      unfold live in Hd3. simpl in Hd3. rewrite Hif.
      assert (Hall3 : taken ++ drop h' qu' = all_items q) by (rewrite Hd3, <- Htk; exact Hl).
      split_and!; try done; unfold all_items, live; simpl; rewrite ?Hif; try done.
      * eapply (inv_same_items q1); try done. unfold all_items at 1, live. simpl. by rewrite Hall3, Hall1.
      * rewrite Hd3. exact Hlim.
Qed.

(** ** Ack *)

Lemma submseteq_fmap {A B} (f : A -> B) l k : l ⊆+ k -> f <$> l ⊆+ f <$> k.
Proof.
  induction 1; rewrite ?fmap_cons; [done|by constructor|by constructor|by constructor|].
  by eapply submseteq_trans.
Qed.

Lemma submseteq_NoDup {A} (l k : list A) : l ⊆+ k -> NoDup k -> NoDup l.
Proof.
  intros [k' Hp]%submseteq_Permutation Hn. rewrite Hp in Hn. by apply NoDup_app in Hn as (? & _ & _).
Qed.

(** The first half of [Ack]: the postponed transactions are in the log. *)
Definition ack_persist (q : Q) : QM (DB := DB) unit :=
  if (0 <? zlen (inFlightPostponed q)) && bool_decide (postponedItem q = None) then
    let batch := inFlightPostponed q in
    let key := seqToKey (nextPrependSeq q) in
    _ ← persistBatch batch key;
    _ ← modify (fun q => set_seqs (nextAddSeq q) (sub64 (nextPrependSeq q) 1) q);
    modify (fun q => set_postponed (inFlightPostponed q) (Some (MkItem batch key)) q)
  else mret tt.

Definition same_queue (q q' : Q) : Prop :=
  queue q' = queue q /\ head q' = head q /\ inFlight q' = inFlight q /\ txSeen q' = txSeen q /\
  inFlightPostponed q' = inFlightPostponed q /\ maxQueueSize q' = maxQueueSize q /\ nextAddSeq q' = nextAddSeq q.

Lemma ack_persist_spec q :
  queue_inv q -> headroom q ->
  wp (ack_persist q) (fun r q' => queue_inv q' /\ same_queue q q' /\
    (r = Ok tt -> (inFlightPostponed q = [] <-> postponedItem q' = None))) q.
Proof.
  intros Hinv Hroom. pose proof Hinv as [(Hh & Hn & Hs & Hp & Hpi & Hnb) (Hlo & Hhi & Hk & Hb & Hc)].
  unfold ack_persist. destruct (_ && _) eqn:Hcond.
  2:{ apply wp_ret. split_and!; try done. intros _. destruct (postponedItem q) as [it|] eqn:Hit.
      - destruct (Hpi it eq_refl) as [Hbi Hne]. split; [intros Hx; congruence|done].
      - rewrite bool_decide_true, andb_true_r in Hcond by done. split; [done|intros _].
        apply zlen_zero. pose proof (zlen_nonneg (inFlightPostponed q)). lia. }
  apply andb_prop in Hcond as [Hz Hnone%bool_decide_eq_true].
  assert (Hne : inFlightPostponed q <> []) by (intros Hx; by rewrite Hx in Hz).
  apply wp_bind. eapply wp_mono; [apply persistBatch_spec|]. intros [[]|e] q' (d' & -> & _ & Hr).
  2:{ destruct Hr as (Hv & _). split_and!; try done. by apply set_qdb_view. }
  destruct Hr as (b & Hm & Hv). apply wp_bind, wp_modify, wp_modify. simpl.
  split_and!; try done. unfold headroom in Hroom.
  assert (Hu : is_u64 (nextPrependSeq q)) by (unfold is_u64, two64, initialSeqNum in *; lia).
  assert (Hsub : sub64 (nextPrependSeq q) 1 = nextPrependSeq q - 1)
    by (apply sub64_small; unfold is_u64, two64, initialSeqNum in *; lia).
  set (it := MkItem (inFlightPostponed q) (seqToKey (nextPrependSeq q))).
  set (q' := set_postponed _ _ _).
  assert (Htr : tracked q' = it :: all_items q) by done.
  assert (Htr0 : tracked q = all_items q) by (unfold tracked; by rewrite Hnone).
  rewrite Htr0 in *.
  assert (Hfresh : forall it', it' ∈ all_items q -> seqToKey (nextPrependSeq q) <> Key it').
  { intros it' Hit' Heq. apply Hb in Hit'. symmetry in Heq. revert Heq.
    eapply key_between_fresh; [done| |exact Hit']. lia. }
  split; [split_and!; try done; intros it' [= <-]; done|].
  assert (Hpre : nextPrependSeq q' = nextPrependSeq q - 1) by exact Hsub.
  assert (Hadd : nextAddSeq q' = nextAddSeq q) by done.
  split_and!; rewrite ?Hpre, ?Hadd; try lia.
  - rewrite Htr, fmap_cons. apply NoDup_cons. split; [|done].
    intros (it' & Heq & Hit')%list_elem_of_fmap. by apply (Hfresh it' Hit').
  - intros it'. rewrite Htr. intros [-> | Hin]%elem_of_cons.
    + apply key_between_seq; [done|]. unfold initialSeqNum in *. lia.
    + eapply key_between_mono; [| |by apply Hb]; lia.
  - intros it'. rewrite Htr. change (ds_view (qdb q')) with (ds_view d'). rewrite Hv.
    intros [-> | Hin]%elem_of_cons; [by apply covered_insert_eq|].
    apply covered_insert_ne; [by apply Hfresh|by apply Hc].
Qed.

Lemma ack_delete_spec q items :
  wp (if 0 <? zlen items then on_db (ds_run_batch ((fun item => BDelete (Key item)) <$> items)) else mret tt)
    (fun r q' => exists d', q' = set_qdb d' q /\
      match r with
      | Ok _ => forall k, ds_view d' !! k = if bool_decide (k ∈ Key <$> items) then None else ds_view (qdb q) !! k
      | Err _ => ds_view d' = ds_view (qdb q)
      end) q.
Proof.
  destruct (Z.ltb_spec 0 (zlen items)) as [Hpos|Hz].
  - unfold on_db. apply wp_zoom, wp_wrap. eapply wp_mono; [apply run_batch_law|].
    intros [[]|e] d' [_ Hv]; exists d'; (split; [done|]); [|apply Hv].
    intros k. rewrite Hv. replace ((fun item => BDelete (Key item)) <$> items) with (BDelete <$> (Key <$> items))
      by by rewrite <- list_fmap_compose. apply apply_bops_deletes.
  - apply wp_ret. exists (qdb q). split; [by destruct q|]. intros k.
    assert (items = []) as -> by (apply zlen_zero; pose proof (zlen_nonneg items); lia). done.
Qed.

(** The dedup set after an acknowledgement. *)
Lemma ack_seen q :
  queue_inv q ->
  foldl (fun s h => s ∖ {[h]}) (txSeen q)
    (List.filter (fun h => negb (bool_decide (h ∈ (list_to_set (txHash <$> inFlightPostponed q) : gset bytes))))
       (txHash <$> txs_of (inFlight q)))
  = list_to_set (txHash <$> (inFlightPostponed q ++ txs_of (live q))).
Proof.
  intros [(_ & Hn & Hs & Hp & _) _]. rewrite foldl_difference, Hs.
  unfold all_items in *. rewrite txs_of_app in *. rewrite !fmap_app in *. apply NoDup_app in Hn as (_ & Hd & _).
  assert (Hsub : forall h, h ∈ txHash <$> inFlightPostponed q -> h ∈ txHash <$> txs_of (inFlight q)).
  { intros h Hh. eapply elem_of_submseteq; [exact Hh|]. by apply submseteq_fmap. }
  apply leibniz_equiv. intros h. rewrite elem_of_difference, !elem_of_list_to_set, !elem_of_app.
  rewrite (list_elem_of_In (List.filter _ _)), filter_In, <- list_elem_of_In.
  rewrite negb_true_iff, bool_decide_eq_false, elem_of_list_to_set. specialize (Hd h). specialize (Hsub h).
  destruct (decide (h ∈ txHash <$> inFlightPostponed q)); tauto.
Qed.

Lemma ack_final_inv q q' :
  queue_inv q -> (inFlightPostponed q = [] <-> postponedItem q = None) ->
  (head q' <= length (queue q'))%nat -> inFlight q' = [] ->
  live q' = option_list (postponedItem q) ++ live q ->
  inFlightPostponed q' = [] -> postponedItem q' = None ->
  txSeen q' = list_to_set (txHash <$> (inFlightPostponed q ++ txs_of (live q))) ->
  nextAddSeq q' = nextAddSeq q -> nextPrependSeq q' = nextPrependSeq q ->
  (forall k, ds_view (qdb q') !! k =
     if bool_decide (k ∈ Key <$> inFlight q) then None else ds_view (qdb q) !! k) ->
  queue_inv q'.
Proof.
  intros [(Hh & Hn & Hs & Hp & Hpi & Hnb) (Hlo & Hhi & Hk & Hb & Hc)] Hiff Hh' Hif Hl Hpo Hpit Hse Ha Hpr Hv.
  assert (Hall : all_items q' = option_list (postponedItem q) ++ live q) by (unfold all_items; by rewrite Hif, Hl).
  assert (Htr : tracked q' = option_list (postponedItem q) ++ live q) by (unfold tracked; by rewrite Hpit, Hall).
  assert (Hpt : txs_of (option_list (postponedItem q)) = inFlightPostponed q).
  { destruct (postponedItem q) as [it|] eqn:Hit; simpl.
    - destruct (Hpi it eq_refl) as [<- _]. unfold txs_of. simpl. by rewrite app_nil_r.
    - symmetry. by apply Hiff. }
  assert (Hkeep : forall it, it ∈ tracked q' -> it ∈ tracked q /\ Key it ∉ Key <$> inFlight q).
  { intros it. rewrite Htr. unfold tracked, all_items in Hk |- *.
    intros Hit. split; [set_solver|]. intros Hin. rewrite !fmap_app in Hk.
    apply NoDup_app in Hk as (_ & Hd1 & Hk). apply NoDup_app in Hk as (_ & Hd2 & _).
    apply elem_of_app in Hit as [Hit|Hit]; apply (list_elem_of_fmap_2 Key) in Hit;
      [apply (Hd1 _ Hit); set_solver|by apply (Hd2 _ Hin)]. }
  assert (Hsub : inFlightPostponed q ++ txs_of (live q) ⊆+ txs_of (all_items q))
    by (unfold all_items; rewrite txs_of_app; by apply submseteq_skips_r).
  split; split_and!; rewrite ?Ha, ?Hpr, ?Hpo, ?Hse, ?Hall, ?txs_of_app, ?Hpt; try done; try lia.
  - eapply submseteq_NoDup; [by apply submseteq_fmap|done].
  - apply submseteq_nil_l.
  - intros it Hit. by rewrite Hpit in Hit.
  - apply Forall_app. split.
    + destruct (postponedItem q) as [it|] eqn:Hit; simpl; [|done]. constructor; [|done]. by apply Hpi.
    + unfold all_items in Hnb. by apply Forall_app in Hnb as [_ ?].
  - rewrite Htr. unfold tracked, all_items in Hk. rewrite !fmap_app in *.
    apply NoDup_app in Hk as (H1' & Hd1 & Hk). apply NoDup_app in Hk as (_ & _ & Hk).
    apply NoDup_app. split_and!; try done. intros k Hk1 Hk2. apply (Hd1 k Hk1). set_solver.
  - intros it Hit. apply Hb. by apply Hkeep.
  - intros it Hit. destruct (Hkeep it Hit) as [Hin Hnk]. destruct (Hc it Hin) as (b & txs & Hkb & Hu & Htx).
    exists b, txs. rewrite Hv, bool_decide_false by done. done.
Qed.

Lemma prepend_live item (q : Q) :
  (head q <= length (queue q))%nat ->
  wp (prependItemLocked item) (fun r q' => r = Ok tt /\ exists qu h, q' = set_queue qu h q /\
    (h <= length qu)%nat /\ drop h qu = item :: live q) q.
Proof.
  intros Hh. unfold prependItemLocked. apply wp_modify. split; [done|]. unfold live.
  destruct (head q) as [|h] eqn:Hhd.
  - exists (item :: queue q), 0%nat. split_and!; try done. simpl. lia.
  - exists (<[h:=item]> (queue q)), h. rewrite length_insert. split_and!; [done|lia|].
    rewrite (drop_S _ item) by (apply list_lookup_insert_eq; lia). f_equal. apply drop_insert_lt. lia.
Qed.

Lemma Ack_spec q :
  queue_inv q -> headroom q ->
  wp Ack (fun r q' => queue_inv q' /\ maxQueueSize q' = maxQueueSize q /\ nextAddSeq q' = nextAddSeq q /\
    match r with
    | Ok _ => inFlight q' = [] /\ inFlightPostponed q' = [] /\ postponedItem q' = None /\
        exists items, live q' = items ++ live q /\ txs_of items = inFlightPostponed q /\ (length items <= 1)%nat
    | Err _ => inFlight q' = inFlight q /\ live q' = live q /\ txSeen q' = txSeen q /\
        inFlightPostponed q' = inFlightPostponed q
    end) q.
Proof.
  intros Hinv Hroom. unfold Ack. wp_read. apply wp_bind.
  eapply wp_mono; [by apply ack_persist_spec|]. intros [[]|e] q1 (Hinv1 & (Hq & Hh & Hif & Hse & Hpo & Hmx & Hna) & Hiff).
  2:{ split_and!; try done. unfold live. by rewrite Hq, Hh. }
  rewrite <- Hpo in Hiff. specialize (Hiff eq_refl). rewrite <- Hif. apply wp_bind.
  eapply wp_mono; [apply ack_delete_spec|]. intros [[]|e] q2 (d' & -> & Hv).
  2:{ split_and!; try done; [by apply set_qdb_view|]. unfold live. simpl. by rewrite Hq, Hh. }
  apply wp_bind, wp_modify, wp_bind, wp_gets. cbn [postponedItem set_txSeen set_qdb inFlight inFlightPostponed txSeen].
  unfold txs_of. fold (txs_of (inFlight q1)). rewrite ack_seen by done.
  set (seen := list_to_set _). pose proof (proj1 (proj1 Hinv1)) as Hh1.
  pose proof Hinv1 as [(_ & _ & _ & _ & Hpi & _) _].
  destruct (postponedItem q1) as [it|] eqn:Hit.
  - apply wp_bind. eapply wp_mono; [apply prepend_live; exact Hh1|].
    intros r q3 (-> & qu & h & -> & Hh3 & Hd3). apply wp_modify. split_and!; try done.
    + eapply (ack_final_inv q1); try done; rewrite Hit; [done|]. unfold live. simpl. exact Hd3.
    + exists [it]. unfold live at 1. simpl. rewrite Hd3. split_and!; try done.
      * unfold live. simpl. by rewrite Hq, Hh.
      * unfold txs_of. simpl. rewrite app_nil_r. rewrite <- Hpo. by apply Hpi.
  - apply wp_bind, wp_ret, wp_modify. split_and!; try done.
    + eapply (ack_final_inv q1); try done; rewrite Hit; done.
    + exists []. unfold live. simpl. rewrite Hq, Hh. split_and!; try done.
      * symmetry. rewrite <- Hpo. by apply Hiff.
      * lia.
Qed.

Lemma SetPostponed_spec txs q :
  queue_inv q -> txs ⊆+ txs_of (inFlight q) ->
  wp (SetPostponed txs) (fun r q' => r = Ok tt /\ queue_inv q' /\ all_items q' = all_items q /\
    inFlight q' = inFlight q /\ inFlightPostponed q' = (if postponedItem q then inFlightPostponed q else txs)) q.
Proof.
  intros Hinv Hsub. unfold SetPostponed. apply wp_modify. destruct (postponedItem q) as [it|] eqn:Hit; [done|].
  destruct Hinv as [(? & ? & ? & ? & ? & ?) Hw]. split_and!; try done.
  split; [by split_and!|]. unfold wal_inv, tracked in *. simpl. rewrite Hit in Hw. exact Hw.
Qed.

(** ** Load *)

(** Widening the counters. *)
Lemma widen_inv q a p :
  queue_inv q -> nextAddSeq q <= a <= max_u64 -> 0 <= p <= nextPrependSeq q -> queue_inv (set_seqs a p q).
Proof.
  intros [Hm (Hlo & Hhi & Hk & Hb & Hc)] Ha Hp. split; [exact Hm|].
  split_and!; try done; simpl; try lia. intros it Hit. eapply key_between_mono; [| |by apply Hb]; lia.
Qed.

(** What [dedupAndEnqueueLocked] may change: the log under [k], the dedup set,
    and one more item under [k] at the back of the queue. *)
Definition enqueued (k : string) (q q' : Q) : Prop :=
  (forall k', k' <> k -> ds_view (qdb q') !! k' = ds_view (qdb q) !! k') /\
  (exists l, tracked q' = tracked q ++ l /\ Forall (fun it => Key it = k) l) /\
  nextAddSeq q' = nextAddSeq q /\ nextPrependSeq q' = nextPrependSeq q /\
  maxQueueSize q' = maxQueueSize q /\ txSeen q ⊆ txSeen q' /\ inFlight q' = inFlight q /\
  inFlightPostponed q' = inFlightPostponed q.

Lemma dedupAndEnqueue_spec batch k a q :
  queue_inv q -> nextAddSeq q <= a <= max_u64 -> key_between (nextPrependSeq q) a k ->
  k ∉ Key <$> tracked q -> covered (ds_view (qdb q)) (MkItem batch k) ->
  wp (dedupAndEnqueueLocked batch k) (fun r q' => r = Ok tt /\
    queue_inv (set_seqs a (nextPrependSeq q) q') /\ enqueued k q q' /\
    (forall tx, tx ∈ batch -> txHash tx ∈ txSeen q')) q.
Proof.
  intros Hinv Ha Hkb Hnk Hcov. unfold dedupAndEnqueueLocked. wp_read.
  pose proof (dedup_spec (txSeen q) batch) as Hd. destruct (dedup (txSeen q) batch) as [u s'] eqn:Hdd.
  destruct Hd as (-> & Hnu & Hdis & Hall & Hsub). apply wp_bind, wp_modify.
  pose proof Hinv as [_ (Hlo & Hhi & _)].
  destruct (Z.eqb_spec (zlen u) 0) as [Hz|Hz].
  - apply zlen_zero in Hz as ->. rewrite set_txSeen_id in * by (simpl; set_solver).
    apply wp_bind, wp_attempt. eapply wp_mono; [apply on_db_delete_spec|]. intros r q' (d' & -> & _ & Hr).
    apply wp_ret. assert (Hv : forall k', k' <> k -> ds_view d' !! k' = ds_view (qdb q) !! k').
    { intros k' Hne. destruct r as [[]|]; [rewrite Hr; by apply lookup_delete_ne|by destruct Hr as [-> _]]. }
    split_and!; try done.
    + apply widen_inv; [|simpl; lia|simpl; lia]. destruct Hinv as [Hm (H1' & H2' & H3' & H4' & H5')].
      split; [exact Hm|]. unfold wal_inv. split_and!; try done; try (simpl; lia). intros it Hit.
      destruct (H5' it Hit) as (b & txs & Hkb' & Hu & Ht). exists b, txs. simpl. rewrite Hv; [done|].
      intros Heq. apply Hnk. rewrite <- Heq. by apply list_elem_of_fmap_2.
    + split_and!; try done. exists []. by rewrite app_nil_r.
    + intros tx Htx. simpl. specialize (Hall tx Htx). set_solver.
  - assert (Hne : u <> []) by (intros ->; done). apply wp_bind.
    eapply wp_mono with (P := fun r q' => r = Ok tt /\ exists d', q' = set_qdb d' (set_txSeen (txSeen q ∪ list_to_set (txHash <$> u)) q) /\
      (forall k', k' <> k -> ds_view d' !! k' = ds_view (qdb q) !! k') /\ covered (ds_view d') (MkItem u k)).
    { assert (Hcu : covered (ds_view (qdb q)) (MkItem u k)).
      { apply (covered_sub _ (MkItem batch k)); [done|]. intros tx. simpl. by apply sublist_subseteq. }
      destruct (zlen u <? zlen batch).
      - apply wp_bind, wp_attempt. eapply wp_mono; [apply persistBatch_spec|].
        intros r q' (d' & -> & _ & Hr). apply wp_ret. split; [done|]. exists d'. split; [done|].
        destruct r as [[]|]; simpl in Hr.
        + destruct Hr as (b & Hm & ->). split; [intros; by rewrite lookup_insert_ne|by apply covered_insert_eq].
        + by destruct Hr as (-> & _).
      - apply wp_ret. split; [done|]. exists (qdb q). split; [by destruct q|done]. }
    intros r q' (-> & d' & -> & Hv & Hcu). apply wp_modify. split_and!; try done.
    + apply (enqueue_inv q u k a (nextPrependSeq q) d'); try done; lia.
    + split_and!; try done; simpl; [|set_solver]. exists [MkItem u k]. split; [|by repeat constructor].
      unfold tracked, all_items, live. simpl. rewrite drop_app_le by apply Hinv. by rewrite !app_assoc.
Qed.

Definition valid_key (k : string) (s : Z) : Prop := String.length k = 16%nat /\ ParseUint16 k = Some s.

Lemma inv_view_change q d' :
  queue_inv q -> (forall it, it ∈ tracked q -> ds_view d' !! Key it = ds_view (qdb q) !! Key it) ->
  queue_inv (set_qdb d' q).
Proof.
  intros [Hm (H1' & H2' & H3' & H4' & H5')] Hv. split; [exact Hm|]. unfold wal_inv. split_and!; try done; try (simpl; lia).
  intros it Hit. destruct (H5' it Hit) as (b & txs & Hkb & Hu & Ht). exists b, txs. simpl. by rewrite Hv.
Qed.

(** The entries still to be read are in the log and not in the queue. *)
Definition pending_entries (q : Q) (B : Z) (entries : list (string * bytes)) : Prop :=
  NoDup entries.*1 /\
  forall k v, (k, v) ∈ entries -> k ∉ Key <$> tracked q /\ ds_view (qdb q) !! k = Some v /\
    forall s, valid_key k s -> 0 < s < B.

Lemma pending_tail q q' B k v entries :
  pending_entries q B ((k, v) :: entries) -> enqueued k q q' -> pending_entries q' B entries.
Proof.
  intros [Hn Hall] (Hv & (l & Htr & Hl) & _). rewrite fmap_cons in Hn. apply NoDup_cons in Hn as [Hk Hn].
  split; [done|]. intros k' v' Hin.
  assert (Hne : k' <> k) by (intros ->; apply Hk; simpl; by apply (list_elem_of_fmap_2 fst) in Hin).
  destruct (Hall k' v') as (Ht & Hvw & Hs); [by right|]. split_and!; [|by rewrite Hv|done].
  rewrite Htr, fmap_app. intros [?|(it & -> & Hit)%list_elem_of_fmap]%elem_of_app; [done|].
  rewrite Forall_forall in Hl. apply Hl in Hit. done.
Qed.

Lemma enqueued_refl k q : enqueued k q q.
Proof. split_and!; try done. exists []. by rewrite app_nil_r. Qed.

Lemma load_entry_spec k v legacy B q entries :
  queue_inv q -> pending_entries q B ((k, v) :: entries) -> nextAddSeq q <= B <= max_u64 ->
  wp (load_entry k v legacy) (fun r q' => queue_inv q' /\ pending_entries q' B entries /\
    nextAddSeq q' <= B /\ txSeen q ⊆ txSeen q' /\
    inFlight q' = inFlight q /\ maxQueueSize q' = maxQueueSize q /\
    exists lg, r = Ok lg /\ (lg = legacy \/ exists it, lg = legacy ++ [it] /\ forall s, ~ valid_key (Key it) s) /\
    forall s txs tx, valid_key k s -> proto_Unmarshal v = Ok (MkPbBatch txs) -> tx ∈ txs -> txHash tx ∈ txSeen q') q.
Proof.
  intros Hinv Hpend HB. unfold load_entry.
  pose proof (pending_tail q q B k v entries Hpend (enqueued_refl k q)) as Htail0.
  destruct (proto_Unmarshal v) as [[batch]|] eqn:Hu.
  2:{ apply wp_ret. split_and!; try done; try lia. exists legacy. split_and!; [done|by left|]. intros. simplify_eq. }
  pose proof Hpend as [_ Hall]. destruct (Hall k v ltac:(left)) as (Hnk & Hkv & Hs).
  destruct (if Nat.eqb (String.length k) 16 then ParseUint16 k else None) as [s|] eqn:Hp.
  2:{ assert (Hnv : forall s, ~ valid_key k s).
      { intros s [Hl Hpk]. rewrite Hl in Hp. simpl in Hp. congruence. }
      apply wp_ret. split_and!; try done; try lia. exists (legacy ++ [MkItem batch k]). split_and!; [done| |].
      - right. eexists. split; [done|]. exact Hnv.
      - intros s txs tx Hvk. by apply Hnv in Hvk. }
  destruct (Nat.eqb_spec (String.length k) 16) as [Hl|]; [|done].
  specialize (Hs s (conj Hl Hp)). pose proof Hinv as [_ (Hlo & Hhi & _)].
  apply wp_bind, wp_modify, wp_bind, wp_modify, wp_bind.
  set (a := if nextAddSeq q <=? s then s + 1 else nextAddSeq q).
  set (p := if s <=? nextPrependSeq q then s - 1 else nextPrependSeq q).
  match goal with |- wp _ _ ?qs => assert (Hqs : qs = set_seqs a p q) end.
  { unfold a, p. unfold max_u64 in *. rewrite add64_small, sub64_small by (unfold two64; lia).
    destruct (nextAddSeq q <=? s); simpl; destruct (s <=? nextPrependSeq q); by destruct q. }
  rewrite Hqs. assert (Ha : nextAddSeq q <= a <= B) by (unfold a; destruct (Z.leb_spec (nextAddSeq q) s); lia).
  assert (Hpp : 0 <= p <= nextPrependSeq q) by (unfold p; destruct (Z.leb_spec s (nextPrependSeq q)); lia).
  eapply wp_mono; [apply (dedupAndEnqueue_spec (pb_Txs (MkPbBatch batch)) k a)|].
  - apply widen_inv; [done|lia|done].
  - simpl. lia.
  - exists s. simpl. split_and!; try done;
      [unfold p; destruct (Z.leb_spec s (nextPrependSeq q)); lia|unfold a; destruct (Z.leb_spec (nextAddSeq q) s); lia].
  - done.
  - by exists v, batch.
  - intros r q' (-> & Hinv' & Henq & Hseen). pose proof Henq as (_ & _ & Hna & Hnp & Hmx & Hsub & Hif & _).
    apply wp_ret. simpl in *.
    assert (Hset : set_seqs a p q' = q') by (destruct q'; simpl in *; by subst). rewrite Hset in Hinv'.
    split_and!; try done; try lia; [by apply (pending_tail (set_seqs a p q) q' B k v); [exact Hpend|exact Henq]|].
    exists legacy. split_and!; [done|by left|]. intros s' txs tx Hvk Hux Htx. simplify_eq. by apply Hseen.
Qed.

Lemma load_entries_spec entries legacy B q :
  queue_inv q -> pending_entries q B (oks entries) -> nextAddSeq q <= B <= max_u64 ->
  wp (load_entries entries legacy) (fun r q' => queue_inv q' /\
    nextAddSeq q' <= B /\ txSeen q ⊆ txSeen q' /\ inFlight q' = inFlight q /\ maxQueueSize q' = maxQueueSize q /\
    (is_ok r = true <-> Forall (fun x => is_ok x = true) entries) /\
    forall lg, r = Ok lg ->
      (length lg <= length legacy + length (oks entries))%nat /\
      (forall it, it ∈ lg -> it ∈ legacy \/ forall s, ~ valid_key (Key it) s) /\
      forall k v s txs tx, (k, v) ∈ oks entries -> valid_key k s ->
        proto_Unmarshal v = Ok (MkPbBatch txs) -> tx ∈ txs -> txHash tx ∈ txSeen q') q.
Proof.
  revert legacy q. induction entries as [|[[k v]|e] entries IH]; intros legacy q Hinv Hpend HB; simpl.
  - apply wp_ret. split_and!; try done; try lia. intros lg [= <-]. split_and!; [simpl; lia|auto|].
    intros k v s txs tx Hin. by apply elem_of_nil in Hin.
  - apply wp_bind. eapply wp_mono; [by apply (load_entry_spec k v legacy B q (oks entries))|].
    intros r q1 (Hinv1 & Hpend1 & Hna1 & Hsub1 & Hif1 & Hmx1 & lg1 & -> & Hlg1 & Hseen1).
    eapply wp_mono; [apply IH; try done; lia|].
    intros r q2 (Hinv2 & Hna2 & Hsub2 & Hif2 & Hmx2 & Hok & Hr).
    split_and!; try done; try congruence; [set_solver|rewrite Hok, Forall_cons; tauto|].
    intros lg Hlg. destruct (Hr lg Hlg) as (Hlen & Hleg & Hseen2).
    assert (Hlen1 : (length lg1 <= S (length legacy))%nat)
      by (destruct Hlg1 as [-> | (it & -> & _)]; rewrite ?length_app; simpl; lia).
    split_and!.
    + unfold oks in *. simpl. lia.
    + intros it Hit. destruct (Hleg it Hit) as [Hin|]; [|by right].
      destruct Hlg1 as [-> | (it1 & -> & Hnv)]; [by left|]. apply elem_of_app in Hin as [Hin|Hin]; [by left|].
      right. apply list_elem_of_singleton in Hin as ->. exact Hnv.
    + intros k' v' s txs tx Hin Hvk Hux Htx. unfold oks in Hin. simpl in Hin.
      apply elem_of_cons in Hin as [Hin|Hin]; [|by eapply Hseen2].
      injection Hin as -> ->. apply Hsub2. by eapply Hseen1.
  - apply wp_throw. split_and!; try done; try lia. split; [done|]. by intros [? _]%Forall_cons_1.
Qed.

Lemma migrate_legacy_spec item q :
  queue_inv q -> nextAddSeq q < max_u64 -> (forall s, ~ valid_key (Key item) s) ->
  wp (migrate_legacy item) (fun r q' => r = Ok tt /\ queue_inv q' /\ txSeen q ⊆ txSeen q' /\
    nextAddSeq q' <= nextAddSeq q + 1 /\ inFlight q' = inFlight q /\ maxQueueSize q' = maxQueueSize q) q.
Proof.
  intros Hinv Hroom Hnv. unfold migrate_legacy. wp_read.
  pose proof Hinv as [_ (Hlo & Hhi & _ & Hbt & _)]. pose proof (fresh_add_key q Hinv) as Hfresh.
  assert (Hu : is_u64 (nextAddSeq q)) by (unfold is_u64, two64, max_u64, initialSeqNum in *; lia).
  apply wp_bind, wp_attempt. eapply wp_mono; [apply persistBatch_spec|].
  intros r q1 (d1 & -> & _ & Hr). destruct r as [[]|e].
  2:{ apply wp_ret. destruct Hr as (Hv & _). split_and!; try done; [by apply set_qdb_view|simpl; lia]. }
  destruct Hr as (b & Hm & Hv1).
  assert (Hinv1 : queue_inv (set_qdb d1 q)).
  { apply inv_view_change; [done|]. intros it Hit. rewrite Hv1. apply lookup_insert_ne.
    intros Heq. apply Hfresh. rewrite Heq. by apply list_elem_of_fmap_2. }
  assert (Hlk : Key item <> seqToKey (nextAddSeq q)).
  { intros Heq. apply (Hnv (nextAddSeq q)). rewrite Heq. by apply parse_seqToKey. }
  apply wp_bind, wp_attempt. eapply wp_mono; [apply on_db_delete_spec|]. intros r q2 (d2 & -> & _ & Hr2).
  assert (Hv2 : forall k, k <> Key item -> ds_view d2 !! k = ds_view d1 !! k).
  { intros k Hne. destruct r as [[]|]; simpl in Hr2; [rewrite Hr2; by apply lookup_delete_ne|by destruct Hr2 as [-> _]]. }
  assert (Hinv2 : queue_inv (set_qdb d2 (set_qdb d1 q))).
  { apply inv_view_change; [done|]. intros it Hit. simpl. apply Hv2. intros Heq.
    destruct (Hbt it Hit) as (s & Hl & Hp & _). apply (Hnv s). rewrite <- Heq. by split. }
  apply wp_bind. eapply wp_mono; [apply (dedupAndEnqueue_spec (Batch item) (seqToKey (nextAddSeq q)) (nextAddSeq q + 1)); try done|].
  - simpl. unfold max_u64 in *. lia.
  - apply key_between_seq; [done|]. simpl. unfold initialSeqNum in *. lia.
  - simpl. destruct (covered_insert_eq (ds_view (qdb q)) (Batch item) (seqToKey (nextAddSeq q)) b Hm) as (b' & txs & Hk & Hux & Ht).
    exists b', txs. split_and!; try done. simpl in *. rewrite Hv2 by done. by rewrite Hv1.
  - intros r' q3 (-> & Hinv3 & (_ & _ & Hna & Hnp & Hmx & Hsub & Hif & _) & _). apply wp_modify. simpl in *.
    rewrite Hna, Hnp. rewrite add64_small by (unfold max_u64, initialSeqNum, two64 in *; lia).
    split_and!; try done; lia.
Qed.

(** The sequence numbers of the log leave room for migrating its legacy entries. *)
Definition wal_seqs_ok (v : gmap string bytes) : Prop :=
  initialSeqNum + Z.of_nat (size v) < max_u64 /\
  forall k b s, v !! k = Some b -> valid_key k s -> 0 < s /\ s + Z.of_nat (size v) < max_u64.

Lemma new_queue_inv (d : DB) maxSize : queue_inv (NewBatchQueue d maxSize).
Proof.
  split; unfold mem_inv, wal_inv, tracked, all_items, live, NewBatchQueue, initialSeqNum, max_u64; simpl;
    split_and!; try done; try lia; try (by intros it Hit%elem_of_nil); try constructor.
Qed.

Lemma key_lt_sorted_NoDup (l : list string) : StronglySorted key_lt l -> NoDup l.
Proof.
  induction 1 as [|k l Hs IH Hall]; constructor; [|done]. intros Hin. rewrite Forall_forall in Hall.
  specialize (Hall k Hin). unfold key_lt, String.ltb in Hall.
  pose proof (String.compare_antisym k k) as Ha. by destruct (String.compare k k).
Qed.

Lemma entries_le_size (v : gmap string bytes) (l : list (string * bytes)) :
  NoDup l.*1 -> (forall k b, (k, b) ∈ l -> v !! k = Some b) -> (length l <= size v)%nat.
Proof.
  intros Hn Hl. rewrite <- (length_fmap fst), <- (size_list_to_set (C := gset string)) by done.
  rewrite <- (size_dom (D := gset string)). apply subseteq_size.
  intros k ([k' b] & -> & Hin)%elem_of_list_to_set%list_elem_of_fmap. apply elem_of_dom. exists b. by apply Hl.
Qed.

Lemma migrate_all_spec items q :
  queue_inv q -> nextAddSeq q + zlen items <= max_u64 ->
  (forall it, it ∈ items -> forall s, ~ valid_key (Key it) s) ->
  wp (for_each items migrate_legacy) (fun r q' => r = Ok tt /\ queue_inv q' /\ txSeen q ⊆ txSeen q' /\
    inFlight q' = inFlight q /\ maxQueueSize q' = maxQueueSize q) q.
Proof.
  revert q. induction items as [|it items IH]; intros q Hinv Hroom Hnv; [by apply wp_ret|].
  unfold zlen in *. simpl in Hroom. apply wp_bind.
  eapply wp_mono; [apply migrate_legacy_spec; [done|lia|apply Hnv; left]|].
  intros r q1 (-> & Hinv1 & Hsub1 & Hna1 & Hif1 & Hmx1).
  eapply wp_mono; [apply IH; [done|lia|intros it' Hit'; apply Hnv; by right]|].
  intros r q2 (-> & Hinv2 & Hsub2 & Hif2 & Hmx2). split_and!; try done; [set_solver|congruence..].
Qed.

Lemma Load_spec q0 :
  let v0 := ds_view (qdb q0) in
  wal_seqs_ok v0 ->
  wp Load (fun r q' => queue_inv q' /\ inFlight q' = [] /\ maxQueueSize q' = maxQueueSize q0 /\
    (ds_healthy (qdb q0) -> r = Ok tt) /\
    (r = Ok tt -> forall k b s txs tx, v0 !! k = Some b -> valid_key k s ->
       proto_Unmarshal b = Ok (MkPbBatch txs) -> tx ∈ txs -> txHash tx ∈ txSeen q')) q0.
Proof.
  intros v0 [Hsz Hseq]. unfold Load. apply wp_bind, wp_modify. set (q := NewBatchQueue (qdb q0) (maxQueueSize q0)).
  assert (Hinv : queue_inv q) by apply new_queue_inv.
  apply wp_bind. unfold on_db. apply wp_zoom, wp_wrap. eapply wp_mono; [apply query_law|].
  intros [l|e] d1 (Hv & Hh & Hr); cbn [map_err].
  2:{ change (qdb q) with (qdb q0) in *. split_and!; try done. by apply set_qdb_view. }
  destruct Hr as (Hsort & Hsound & Hcomp & Hok). change (qdb q) with (qdb q0) in *. fold v0 in Hv, Hsound, Hcomp.
  pose proof (key_lt_sorted_NoDup _ Hsort) as Hnd. pose proof (entries_le_size v0 _ Hnd Hsound) as Hle.
  set (B := max_u64 - Z.of_nat (size v0)).
  apply wp_bind. eapply wp_mono; [apply (load_entries_spec l [] B)|].
  - by apply set_qdb_view.
  - split; [done|]. intros k v Hin. split_and!; [by intros ?%elem_of_nil|simpl; rewrite Hv; auto|].
    intros s Hvk. specialize (Hseq k v s (Hsound k v Hin) Hvk). unfold B. lia.
  - change (nextAddSeq (set_qdb d1 q)) with initialSeqNum. unfold B. lia.
  - intros r q1 (Hinv1 & Hna1 & _ & Hif1 & Hmx1 & Hisok & Hlg). destruct r as [lg|e].
    2:{ split_and!; try done. intros Hhe. apply Hok, Hisok in Hhe. done. }
    destruct (Hlg lg eq_refl) as (Hlen & Hleg & Hseen). simpl in Hlen.
    assert (Hall : forall k b s txs tx, v0 !! k = Some b -> valid_key k s ->
       proto_Unmarshal b = Ok (MkPbBatch txs) -> tx ∈ txs -> txHash tx ∈ txSeen q1).
    { intros k b s txs tx Hk. apply Hseen. apply Hcomp; [by apply Hisok|done]. }
    destruct (zlen lg =? 0); [by apply wp_ret|].
    eapply wp_mono; [apply migrate_all_spec; [done| |]|].
    + unfold B, zlen in *. lia.
    + intros it Hit s. destruct (Hleg it Hit) as [?%elem_of_nil|Hnv]; [done|apply Hnv].
    + intros r q2 (-> & Hinv2 & Hsub2 & Hif2 & Hmx2). rewrite Hif2, Hif1, Hmx2, Hmx1. split_and!; try done.
      intros _ k b s txs tx Hk Hvk Hu Htx. apply Hsub2. by eapply Hall.
Qed.

(** ** DropIncluded *)

Lemma filter_split_perm {A} (f : A -> bool) l :
  l ≡ₚ List.filter (fun x => negb (f x)) l ++ List.filter f l.
Proof.
  induction l as [|x l IH]; simpl; [done|]. destruct (f x); simpl; [|by constructor].
  rewrite IH at 1. apply Permutation_middle.
Qed.

(** Removing the transactions [gone] of one item of a freshly loaded queue. *)
Lemma inv_replace q q' kept it rest new gone :
  queue_inv q -> inFlight q = [] -> postponedItem q = None ->
  live q = kept ++ it :: rest -> (new = [] \/ exists rem, rem <> [] /\ new = [MkItem rem (Key it)]) ->
  Batch it ≡ₚ txs_of new ++ gone ->
  (head q' <= length (queue q'))%nat -> live q' = kept ++ new ++ rest ->
  inFlight q' = [] -> inFlightPostponed q' = [] -> postponedItem q' = None ->
  txSeen q' = txSeen q ∖ list_to_set (txHash <$> gone) ->
  nextAddSeq q' = nextAddSeq q -> nextPrependSeq q' = nextPrependSeq q ->
  (forall k, k <> Key it -> ds_view (qdb q') !! k = ds_view (qdb q) !! k) ->
  Forall (covered (ds_view (qdb q'))) new ->
  queue_inv q'.
Proof.
  intros [(Hh & Hn & Hs & Hp & Hpi & Hnb) (Hlo & Hhi & Hk & Hb & Hc)] Hif Hpit Hl Hnew Hperm Hh' Hl' Hif' Hpo' Hpit' Hse Ha Hpr Hv Hcov.
  assert (Hall : all_items q = kept ++ it :: rest) by (unfold all_items; by rewrite Hif, Hl).
  assert (Hall' : all_items q' = kept ++ new ++ rest) by (unfold all_items; by rewrite Hif', Hl').
  assert (Htr : tracked q = kept ++ it :: rest) by (unfold tracked; by rewrite Hpit, Hall).
  assert (Htr' : tracked q' = kept ++ new ++ rest) by (unfold tracked; by rewrite Hpit', Hall').
  assert (Htx : txs_of (all_items q) ≡ₚ gone ++ txs_of (all_items q')).
  { rewrite Hall, Hall', !txs_of_app. unfold txs_of at 2. rewrite bind_cons. fold (txs_of rest).
    rewrite Hperm. solve_Permutation. }
  assert (Hnk : forall it', it' ∈ kept ++ rest -> Key it' <> Key it).
  { intros it' Hin Heq. rewrite Htr, fmap_app, fmap_cons in Hk. apply NoDup_app in Hk as (_ & Hd & Hk).
    apply NoDup_cons in Hk as [Hk _]. apply elem_of_app in Hin as [Hin|Hin]; apply (list_elem_of_fmap_2 Key) in Hin;
      rewrite Heq in Hin; [apply (Hd _ Hin); left|done]. }
  rewrite Htx, fmap_app in Hn. apply NoDup_app in Hn as (_ & Hd & Hn').
  split; split_and!; rewrite ?Ha, ?Hpr; try done; try lia.
  - rewrite Hse, Hs, Htx, fmap_app, list_to_set_app_L. apply leibniz_equiv. intros h.
    rewrite elem_of_difference, elem_of_union, !elem_of_list_to_set. specialize (Hd h). tauto.
  - rewrite Hpo'. apply submseteq_nil_l.
  - intros it' Hit'. by rewrite Hpit' in Hit'.
  - rewrite Hall in Hnb. rewrite Hall', !Forall_app. apply Forall_app in Hnb as [? [_ ?]%Forall_cons_1].
    split_and!; try done. destruct Hnew as [-> | (rem & ? & ->)]; by repeat constructor.
  - rewrite Htr' . rewrite Htr in Hk. destruct Hnew as [-> | (rem & ? & ->)].
    + rewrite fmap_app, fmap_cons in Hk. rewrite app_nil_l, fmap_app. apply NoDup_app in Hk as (? & Hd' & Hk).
      apply NoDup_cons in Hk as [_ Hk]. apply NoDup_app. split_and!; try done.
      intros k Hk1 Hk2. apply (Hd' k Hk1). by right.
    + by rewrite !fmap_app, fmap_cons in *.
  - intros it'. rewrite Htr'. rewrite Htr in Hb. intros Hin. destruct Hnew as [-> | (rem & ? & ->)].
    + apply Hb. set_solver.
    + rewrite !elem_of_app, list_elem_of_singleton in Hin. destruct Hin as [Hin | [-> | Hin]]; [|by apply (Hb it); set_solver|];
        apply Hb; set_solver.
  - intros it'. rewrite Htr'. rewrite Forall_forall in Hcov. intros [Hin|[Hin|Hin]%elem_of_app]%elem_of_app;
      [|by apply Hcov|]; destruct (Hc it') as (b & txs & Hkb & Hu & Ht); try (rewrite Htr; set_solver);
      exists b, txs; rewrite Hv; try done; apply Hnk; set_solver.
Qed.

(** The queue the loop of [DropIncluded] is building. *)
Definition building (l : list queuedItem) (q : Q) : Q := set_queue (take (head q) (queue q) ++ l) (head q) q.

Lemma building_live l q :
  (head q <= length (queue q))%nat ->
  live (building l q) = l /\ (head (building l q) <= length (queue (building l q)))%nat.
Proof.
  intros Hh. unfold live, building. simpl. rewrite drop_app_length', length_app, length_take by (rewrite length_take; lia).
  split; [done|lia].
Qed.

Definition not_in (inc : gset bytes) (tx : bytes) : bool := negb (bool_decide (txHash tx ∈ inc)).
Definition is_in (inc : gset bytes) (tx : bytes) : bool := bool_decide (txHash tx ∈ inc).

(** One item of the loop: [new] is what is kept of it. *)
Lemma drop_step inc kept it items new q q' :
  (head q <= length (queue q))%nat -> queue_inv (building (kept ++ it :: items) q) ->
  inFlight q = [] -> inFlightPostponed q = [] -> postponedItem q = None ->
  txs_of new = List.filter (not_in inc) (Batch it) ->
  (new = [] \/ exists rem, rem <> [] /\ new = [MkItem rem (Key it)]) ->
  (exists d', q' = set_qdb d' (set_txSeen (txSeen q ∖ list_to_set (txHash <$> List.filter (is_in inc) (Batch it))) q) /\
    (forall k, k <> Key it -> ds_view d' !! k = ds_view (qdb q) !! k) /\ Forall (covered (ds_view d')) new) ->
  queue_inv (building ((kept ++ new) ++ items) q').
Proof.
  intros Hh Hinv Hif Hpo Hpi Hnt Hnew (d' & -> & Hv & Hcov).
  destruct (building_live (kept ++ it :: items) q Hh) as [Hl _].
  pose proof (building_live ((kept ++ new) ++ items) (set_qdb d' (set_txSeen (txSeen q ∖ list_to_set
    (txHash <$> List.filter (is_in inc) (Batch it))) q)) Hh) as [Hl' Hh'].
  eapply (inv_replace (building (kept ++ it :: items) q) _ kept it items new (List.filter (is_in inc) (Batch it)));
    try done.
  - rewrite Hnt. apply filter_split_perm.
  - by rewrite Hl', app_assoc.
Qed.

Lemma fold_gone (s : gset bytes) (gone : list bytes) :
  foldl (fun s tx => s ∖ {[txHash tx]}) s gone = s ∖ list_to_set (txHash <$> gone).
Proof.
  revert s. induction gone as [|tx gone IH]; intros s; simpl; [set_solver|]. rewrite IH. set_solver.
Qed.

(** The outcome of the loop: [kept] and what is not included of [items]. *)
Definition drop_post inc items kept dropped (d : DB) (r : res queue_error Z) (q' : Q) : Prop :=
  (forall e, r = Err e -> ~ ds_healthy d \/ e = QProto) /\
  forall n, r = Ok n -> queue_inv q' /\ inFlight q' = [] /\
    txs_of (live q') = txs_of kept ++ List.filter (not_in inc) (txs_of items) /\
    n = dropped + zlen (List.filter (is_in inc) (txs_of items)).

Lemma drop_post_step inc it items kept new dropped d d' r q' :
  txs_of new = List.filter (not_in inc) (Batch it) -> (ds_healthy d -> ds_healthy d') ->
  drop_post inc items (kept ++ new) (dropped + zlen (List.filter (is_in inc) (Batch it))) d' r q' ->
  drop_post inc (it :: items) kept dropped d r q'.
Proof.
  intros Hnt Hhe [He Hr]. split; [intros e Hx; destruct (He e Hx); auto|]. intros n Hn.
  destruct (Hr n Hn) as (Hi & Hif' & Htx & ->). split_and!; try done.
  - rewrite Htx, txs_of_app, Hnt. unfold txs_of. by rewrite bind_cons, List.filter_app, app_assoc.
  - unfold txs_of. rewrite bind_cons, List.filter_app. unfold zlen. rewrite length_app. lia.
Qed.

Lemma filter_all inc txs :
  zlen (List.filter (not_in inc) txs) = zlen txs ->
  List.filter (not_in inc) txs = txs /\ List.filter (is_in inc) txs = [].
Proof.
  induction txs as [|tx txs IH]; [done|]. simpl. unfold not_in, is_in in *.
  pose proof (List.filter_length_le (fun tx => negb (bool_decide (txHash tx ∈ inc))) txs).
  destruct (bool_decide (txHash tx ∈ inc)); simpl; unfold zlen in *; simpl; intros Hl; [lia|].
  destruct IH as [-> ->]; [lia|done].
Qed.

Lemma drop_loop_spec inc items kept orig dropped q :
  (head q <= length (queue q))%nat -> queue_inv (building (kept ++ items) q) ->
  inFlight q = [] -> inFlightPostponed q = [] -> postponedItem q = None ->
  wp (drop_loop inc items kept orig dropped) (drop_post inc items kept dropped (qdb q)) q.
Proof.
  revert kept dropped q. induction items as [|it items IH]; intros kept dropped q Hh Hinv Hif Hpo Hpi; cbn [drop_loop].
  { apply wp_bind, wp_modify, wp_ret. split; [done|]. intros n [= <-]. rewrite app_nil_r in Hinv.
    change (set_queue _ _ _) with (building kept q). rewrite (proj1 (building_live kept q Hh)), app_nil_r.
    split_and!; try done. unfold zlen. simpl. lia. }
  unfold split_included. set (rem := List.filter (not_in inc) (Batch it)). set (gone := List.filter (is_in inc) (Batch it)).
  change (List.filter (fun tx => negb (bool_decide (txHash tx ∈ inc))) (Batch it)) with rem.
  change (List.filter (fun tx => bool_decide (txHash tx ∈ inc)) (Batch it)) with gone.
  apply wp_bind, wp_modify. rewrite fold_gone.
  assert (Hmem : it ∈ tracked (building (kept ++ it :: items) q)).
  { unfold tracked, all_items. rewrite (proj1 (building_live _ q Hh)). set_solver. }
  assert (Hcov : covered (ds_view (qdb q)) it) by (destruct Hinv as [_ (_ & _ & _ & _ & Hc)]; by apply Hc).
  assert (Hne : Batch it <> []).
  { destruct Hinv as [(_ & _ & _ & _ & _ & Hnb) _]. rewrite Forall_forall in Hnb. apply Hnb.
    unfold tracked in Hmem. simpl in Hmem. by rewrite Hpi in Hmem. }
  assert (Hnext : forall new d', txs_of new = rem -> (new = [] \/ exists rem, rem <> [] /\ new = [MkItem rem (Key it)]) ->
    (forall k, k <> Key it -> ds_view d' !! k = ds_view (qdb q) !! k) -> Forall (covered (ds_view d')) new ->
    (ds_healthy (qdb q) -> ds_healthy d') ->
    wp (drop_loop inc items (kept ++ new) orig (dropped + zlen gone)) (drop_post inc (it :: items) kept dropped (qdb q))
      (set_qdb d' (set_txSeen (txSeen q ∖ list_to_set (txHash <$> gone)) q))).
  { intros new d' Hnt Hnew Hv Hcv Hhe. eapply wp_mono; [apply IH; try done; by eapply (drop_step inc kept it items new q); eauto|].
    intros r q'. by apply drop_post_step. }
  destruct (Z.eqb_spec (zlen rem) (zlen (Batch it))) as [Hsame|Hdiff]; [|destruct (Z.eqb_spec (zlen rem) 0) as [Hz|Hz]].
  - destruct (filter_all inc (Batch it) Hsame) as [Hrem Hg]. fold rem in Hrem. fold gone in Hg.
    specialize (Hnext [it] (qdb q)). rewrite Hg in *.
    replace (set_txSeen _ q) with (set_qdb (qdb q) (set_txSeen (txSeen q ∖ list_to_set (txHash <$> [])) q)) by (by destruct q).
    apply Hnext; try done; [unfold txs_of; simpl; by rewrite app_nil_r, Hrem| |by repeat constructor].
    right. exists (Batch it). split; [done|]. by destruct it.
  - apply wp_bind, wp_attempt. eapply wp_mono; [apply on_db_delete_spec|]. intros [[]|e] q' (d' & -> & Hhe & Hr).
    + specialize (Hnext [] d'). rewrite app_nil_r in Hnext. apply Hnext; try done; [by symmetry; apply zlen_zero|by left|].
      intros k Hnek. rewrite Hr. by apply lookup_delete_ne.
    + apply wp_bind, wp_modify, wp_throw. split; [|done]. intros e' [= <-]. left. apply Hr.
  - assert (Hrne : rem <> []) by (intros Hx; apply Hz; by rewrite Hx).
    apply wp_bind, wp_attempt. eapply wp_mono; [apply persistBatch_spec|]. intros [[]|e] q' (d' & -> & Hhe & Hr).
    + destruct Hr as (b & Hm & Hv). apply (Hnext [MkItem rem (Key it)] d'); try done; [|right; by exists rem| |].
      * unfold txs_of. simpl. by rewrite app_nil_r.
      * intros k Hnek. rewrite Hv. by apply lookup_insert_ne.
      * rewrite Hv. constructor; [|done]. by apply covered_insert_eq.
    + apply wp_bind, wp_modify, wp_throw. split; [|done]. intros e' [= <-]. simpl in Hr. tauto.
Qed.

Lemma DropIncluded_spec included q :
  queue_inv q -> inFlight q = [] ->
  wp (DropIncluded included)
     (drop_post (list_to_set (txHash <$> included)) (live q) [] 0 (qdb q)) q.
Proof.
  intros Hinv Hif. pose proof Hinv as [(Hh & _ & _ & Hp & Hpi & _) _].
  rewrite Hif in Hp. apply submseteq_nil_r in Hp. unfold DropIncluded. wp_read.
  apply drop_loop_spec; try done.
  - change (queue_inv (building (live q) q)). unfold building, live. rewrite take_drop. by destruct q.
  - destruct (postponedItem q) as [it|] eqn:Hit; [|done]. destruct (Hpi it eq_refl). congruence.
Qed.

End facts.
