(* ===== verification/BatchQueueProps.v ===== *)
(** * The batch queue as a transition system, and its contract

    The operations of the queue as steps; every reachable queue satisfies the
    invariant, and what each operation promises follows. A restart is [Load]
    run on whatever memory the process starts with and the log the datastore
    holds. A reconciliation that fails ends the start of the sequencer
    ([NewSequencer] returns its error), so that the step it makes is the one to
    the queue of the next start. *)

From stdpp Require Import base gmap strings list numbers sorting relations countable.
From S2P Require Import Prelude Sha256 Datastore Serialization ProtoInst BatchQueue BatchQueueFacts.
Open Scope Z_scope.

Section props.
Context {DB : Type} `{DatastoreLaws DB} `{ProtoMsg pbBatch}.
Context `{!ProtoLaws pbBatch (fun m => m) (fun _ => True)}.
Abbreviation Q := (BatchQueue DB).

Inductive qstep (q q' : Q) : Prop :=
| step_add txs r :
    headroom q -> AddBatch txs q = (r, q') -> qstep q q'
| step_drain maxBytes r :
    txs_size (txs_of (all_items q)) < two64 -> Drain maxBytes q = (r, q') -> qstep q q'
| step_postpone txs r :
    txs ⊆+ txs_of (inFlight q) -> SetPostponed txs q = (r, q') -> qstep q q'
| step_ack r :
    headroom q -> Ack q = (r, q') -> qstep q q'
| step_restart (q0 : Q) r :
    qdb q0 = qdb q -> wal_seqs_ok (ds_view (qdb q)) -> Load q0 = (r, q') -> qstep q q'
| step_drop included n :
    inFlight q = [] -> DropIncluded included q = (Ok n, q') -> qstep q q'
| step_drop_failed included e (q1 q0 : Q) r :
    DropIncluded included q = (Err e, q1) ->
    qdb q0 = qdb q1 -> wal_seqs_ok (ds_view (qdb q1)) -> Load q0 = (r, q') -> qstep q q'.

Lemma qstep_inv q q' : queue_inv q -> qstep q q' -> queue_inv q'.
Proof.
  intros Hinv [txs r Hr Hrun|mb r Hs Hrun|txs r Hs Hrun|r Hr Hrun|q0 r Hdb Hs Hrun|inc n Hif Hrun|inc e q1 q0 r _ Hdb Hs Hrun].
  - by apply (wp_run _ _ _ _ _ (AddBatch_spec txs q Hinv Hr) Hrun).
  - by destruct (wp_run _ _ _ _ _ (Drain_spec mb q Hinv Hs) Hrun) as (? & _ & ? & _).
  - by apply (wp_run _ _ _ _ _ (SetPostponed_spec txs q Hinv Hs) Hrun).
  - by apply (wp_run _ _ _ _ _ (Ack_spec q Hinv Hr) Hrun).
  - rewrite <- Hdb in Hs. by apply (wp_run _ _ _ _ _ (Load_spec q0 Hs) Hrun).
  - destruct (wp_run _ _ _ _ _ (DropIncluded_spec inc q Hinv Hif) Hrun) as [_ Hd]. by destruct (Hd n eq_refl).
  - rewrite <- Hdb in Hs. by apply (wp_run _ _ _ _ _ (Load_spec q0 Hs) Hrun).
Qed.

Lemma reachable_inv d maxSize q : rtc qstep (NewBatchQueue d maxSize) q -> queue_inv q.
Proof.
  assert (Hgen : forall q1 q2, rtc qstep q1 q2 -> queue_inv q1 -> queue_inv q2).
  { induction 1 as [|q1 q2 q3 Hs _ IH]; [done|]. intros Hi. by apply IH, (qstep_inv q1). }
  intros Hr. apply (Hgen _ _ Hr), new_queue_inv.
Qed.

(** C33: Every queue reachable from an empty one by any sequence of additions,
    drains, postponements, acknowledgements, restarts and reconciliations, with
    any datastore call failing, satisfies the queue invariant: the dedup set is
    exactly the hashes of the queued and in-flight transactions, none of them
    occurs twice, no entry is empty, entries have distinct log keys between the
    sequence counters, and the log covers every entry. Restarts happen between
    operations. A reconciliation runs on a queue with nothing in flight; one that
    fails leaves a queue without the invariant ([failed_drop_forgets]), which
    [NewSequencer] discards, and is followed by a restart. Assumed of each step:
    an addition or acknowledgement finds a sequence number free at either end, a
    restart finds log keys that leave room below 2^64, a drain finds fewer than
    2^64 bytes, and only transactions in flight are postponed. *)
Theorem reachable_queue_inv d maxSize q :
  rtc qstep (NewBatchQueue d maxSize) q -> queue_inv q.
Proof.
  apply reachable_inv.
Qed.

(** [AddBatch] appends the transactions that are neither queued nor in
    flight, in order and as one entry, and rejects a full queue; when it fails
    nothing changed: not the queue, not the dedup set, not the log. *)
Theorem add_batch_correct txs q r q' :
  queue_inv q -> headroom q -> AddBatch txs q = (r, q') ->
  let fresh := (dedup (txSeen q) txs).1 in
  inFlight q' = inFlight q /\
  match r with
  | Ok _ =>
      live q' = live q ++ (if decide (fresh = []) then [] else [MkItem fresh (seqToKey (nextAddSeq q))]) /\
      sublist fresh txs /\ (forall tx, tx ∈ txs -> txHash tx ∈ txSeen q') /\
      (0 < maxQueueSize q -> fresh <> [] -> Size q' <= maxQueueSize q)
  | Err e =>
      live q' = live q /\ txSeen q' = txSeen q /\ ds_view (qdb q') = ds_view (qdb q) /\
      (e = ErrQueueFull -> 0 < maxQueueSize q <= Size q)
  end.
Proof.
  intros Hinv Hroom Hrun fresh.
  destruct (wp_run _ _ _ _ _ (AddBatch_spec txs q Hinv Hroom) Hrun) as (Hinv' & Hif & Hr & Hmx).
  split; [done|]. destruct r as [[]|e]; [|done]. destruct Hr as (Hl & Hb & Hse). fold fresh in Hl, Hb, Hse.
  pose proof (dedup_spec (txSeen q) txs) as Hd. destruct (dedup (txSeen q) txs) as [u s'] eqn:Hdd.
  destruct Hd as (-> & _ & _ & Hall & Hsub). simpl in fresh. split_and!; try done.
  - rewrite Hse. exact Hall.
  - intros Hpos Hne. specialize (Hb Hne Hpos). rewrite Size_items in Hb |- * by (apply Hinv || apply Hinv').
    unfold all_items in *. rewrite Hif, Hl. rewrite decide_False by done. unfold zlen in *. rewrite !length_app in *. simpl. lia.
Qed.

(** C39: On a queue that satisfies the invariant of every reachable queue and holds
    fewer than 2^64 bytes, [Drain] succeeds whatever the datastore does and loses,
    duplicates and reorders nothing: the in-flight entries followed by the queue
    are the same before and after, so that entries in flight from a batch that was
    not acknowledged are handed out again first; the transactions returned are
    those of the new in-flight entries, in order; they are within the byte limit
    unless they are a single entry (a limit of zero is none: everything is drained);
    and they are maximal: the next entry would exceed the limit. *)
Theorem drain_correct maxBytes q r q' :
  queue_inv q -> txs_size (txs_of (all_items q)) < two64 -> Drain maxBytes q = (r, q') ->
  r = Ok (txs_of (inFlight q')) /\ inFlight q' ++ live q' = inFlight q ++ live q /\ txSeen q' = txSeen q /\
  (0 < maxBytes -> txs_size (txs_of (inFlight q')) <= maxBytes \/ length (inFlight q') = 1%nat) /\
  (maxBytes = 0 -> live q' = []) /\
  (forall it rest, live q' = it :: rest ->
     0 < maxBytes /\ maxBytes < txs_size (txs_of (inFlight q')) + txs_size (Batch it)).
Proof.
  intros Hinv Hsz Hrun.
  destruct (wp_run _ _ _ _ _ (Drain_spec maxBytes q Hinv Hsz) Hrun)
    as (txs & -> & _ & Hall & -> & Hse & _ & _ & _ & _ & Hl1 & _ & Hl2).
  split_and!; try done.
  - intros Hpos. destruct (inFlight q') as [|it l]; [left; simpl; lia|].
    destruct (Hl1 Hpos ltac:(lia) ltac:(done)) as [?|[_ ?]]; [left; lia|by right].
  - intros ->. destruct (live q'); [done|]. lia.
  - intros it rest Hl. rewrite Hl in Hl2. destruct Hl2 as (? & _ & ?). lia.
Qed.

(** [Ack] commits the in-flight entries: on success they are gone, the
    postponed transactions (only those) are back at the front of the queue as
    one entry and remain known to the dedup set, and the log holds the new
    queue; on failure everything that was queued or in flight still is, in
    memory and in the log, so the acknowledgement can be retried. *)
Theorem ack_correct q r q' :
  queue_inv q -> headroom q -> Ack q = (r, q') ->
  Forall (covered (ds_view (qdb q'))) (all_items q') /\
  match r with
  | Ok _ =>
      inFlight q' = [] /\ txs_of (live q') = inFlightPostponed q ++ txs_of (live q) /\
      txSeen q' = list_to_set (txHash <$> (inFlightPostponed q ++ txs_of (live q)))
  | Err _ => inFlight q' = inFlight q /\ live q' = live q /\ txSeen q' = txSeen q /\
             inFlightPostponed q' = inFlightPostponed q
  end.
Proof.
  intros Hinv Hroom Hrun. destruct (wp_run _ _ _ _ _ (Ack_spec q Hinv Hroom) Hrun) as (Hinv' & _ & _ & Hr).
  split. { apply Forall_forall. intros it Hit%list_elem_of_In. destruct Hinv' as [_ (_ & _ & _ & _ & Hc)]. apply Hc. unfold tracked. apply elem_of_app. by right. }
  destruct r as [[]|e]; [|done]. destruct Hr as (Hif & _ & _ & items & Hl & Htx & _).
  assert (Htl : txs_of (live q') = inFlightPostponed q ++ txs_of (live q)) by by rewrite Hl, txs_of_app, Htx.
  split_and!; try done. destruct Hinv' as [(_ & _ & -> & _) _]. unfold all_items. rewrite Hif. simpl. by rewrite Htl.
Qed.

(** C30: Nothing that was accepted is lost in a crash: after a restart that
    reads the log of a queue in any reachable state, on a healthy datastore,
    loading succeeds and every transaction that was queued or in flight is in
    the new queue, exactly once. *)
Theorem crash_recovery d maxSize q q0 :
  rtc qstep (NewBatchQueue d maxSize) q ->
  qdb q0 = qdb q -> wal_seqs_ok (ds_view (qdb q)) -> ds_healthy (qdb q) ->
  exists q', Load q0 = (Ok tt, q') /\ queue_inv q' /\ inFlight q' = [] /\
    NoDup (txHash <$> txs_of (live q')) /\
    forall tx, tx ∈ txs_of (all_items q) -> txHash tx ∈ txHash <$> txs_of (live q').
Proof.
  intros Hreach Hdb Hok Hh.
  assert (Hinv : queue_inv q).
  { by eapply reachable_inv. }
  rewrite <- Hdb in Hok, Hh. pose proof (Load_spec q0 Hok) as HL. unfold wp in HL.
  destruct (Load q0) as [r q']. destruct HL as (Hinv' & Hif & _ & Hr & Hall). simpl in *.
  rewrite (Hr Hh) in *. exists q'. pose proof Hinv' as [(_ & Hn & Hs & _) _].
  unfold all_items in Hn, Hs. rewrite Hif in Hn, Hs. simpl in Hn, Hs. split_and!; try done.
  intros tx (it & Hit & Htx)%elem_of_txs_of. destruct Hinv as [_ (_ & _ & _ & Hb & Hc)].
  assert (Htr : it ∈ tracked q) by (unfold tracked; apply elem_of_app; by right).
  destruct (Hb it Htr) as (s & Hl & Hp & _), (Hc it Htr) as (b & txs & Hk & Hu & Ht). rewrite <- Hdb in Hk.
  specialize (Hall eq_refl (Key it) b s txs tx Hk (conj Hl Hp) Hu (Ht tx Htx)).
  rewrite Hs in Hall. by apply elem_of_list_to_set in Hall.
Qed.

(** Reconciliation after a crash: [DropIncluded] on a freshly loaded queue
    removes exactly the transactions that were already included, keeps the
    others in order, counts what it removed, and leaves memory and log
    consistent. *)
Theorem drop_included_correct included q n q' :
  queue_inv q -> inFlight q = [] -> DropIncluded included q = (Ok n, q') ->
  let inc : gset bytes := list_to_set (txHash <$> included) in
  queue_inv q' /\
  txs_of (live q') = List.filter (not_in inc) (txs_of (live q)) /\
  n = zlen (List.filter (is_in inc) (txs_of (live q))).
Proof.
  intros Hinv Hif Hrun inc.
  destruct (wp_run _ _ _ _ _ (DropIncluded_spec included q Hinv Hif) Hrun) as [_ Hd].
  destruct (Hd n eq_refl) as (? & _ & ? & ->). by split_and!.
Qed.

End props.

(** ** The theorems at concrete queues *)

Module BatchQueueWitness.
Import ProtoInst MemDS.

#[export] Instance pbBatch_eq_dec : EqDecision pbBatch.
Proof. solve_decision. Defined.
#[export] Instance pbBatch_countable : Countable pbBatch :=
  inj_countable' pb_Txs MkPbBatch ltac:(by intros []).
#[export] Instance pbBatch_msg : ProtoMsg pbBatch := countable_msg (fun m => m).
#[export] Instance pbBatch_laws : ProtoLaws pbBatch (fun m => m) (fun _ => True).
Proof. by apply countable_msg_laws. Qed.

Definition tx (n : Z) : bytes := [byte_of_Z n; byte_of_Z 1].
(** An empty datastore whose second write fails. *)
Definition db0 : memds := MemDS.MemDS ∅ [false; true].
Definition q0 : BatchQueue memds := NewBatchQueue db0 2.
Definition q1 : BatchQueue memds := (AddBatch [tx 1; tx 2; tx 1] q0).2.
Definition q2 : BatchQueue memds := (AddBatch [tx 3] q1).2.
Definition q3 : BatchQueue memds := (AddBatch [tx 2; tx 4] q2).2.
Definition q4 : BatchQueue memds := (Drain 3 q3).2.
Definition q5 : BatchQueue memds := (SetPostponed [tx 2] q4).2.
Definition q6 : BatchQueue memds := (Ack q5).2.

Lemma room (q : BatchQueue memds) :
  (nextPrependSeq q <=? 0) = false -> (max_u64 <=? nextAddSeq q) = false -> headroom q.
Proof. intros H1 H2. unfold headroom. lia. Qed.

Lemma room_q : headroom q0 /\ headroom q1 /\ headroom q2 /\ headroom q5.
Proof. split_and!; apply room; vm_compute; reflexivity. Qed.

Lemma run1 : AddBatch [tx 1; tx 2; tx 1] q0 = (Ok tt, q1).
Proof. unfold q1. refine (run_eq (AddBatch [tx 1; tx 2; tx 1]) q0 (Ok tt) _). vm_compute. reflexivity. Qed.
Lemma run2 : AddBatch [tx 3] q1 = (Err (QDs ErrIO), q2).
Proof. unfold q2. refine (run_eq (AddBatch [tx 3]) q1 (Err (QDs ErrIO)) _). vm_compute. reflexivity. Qed.
Lemma run3 : AddBatch [tx 2; tx 4] q2 = (Ok tt, q3).
Proof. unfold q3. refine (run_eq (AddBatch [tx 2; tx 4]) q2 (Ok tt) _). vm_compute. reflexivity. Qed.
Lemma run4 : Drain 3 q3 = (Ok [tx 1; tx 2], q4).
Proof. unfold q4. refine (run_eq (Drain 3) q3 (Ok [tx 1; tx 2]) _). vm_compute. reflexivity. Qed.
Lemma run5 : SetPostponed [tx 2] q4 = (Ok tt, q5).
Proof. unfold q5. refine (run_eq (SetPostponed [tx 2]) q4 (Ok tt) _). vm_compute. reflexivity. Qed.
Lemma run6 : Ack q5 = (Ok tt, q6).
Proof. unfold q6. refine (run_eq (Ack) q5 (Ok tt) _). vm_compute. reflexivity. Qed.

Lemma size_q3 : txs_size (txs_of (all_items q3)) < two64.
Proof. vm_compute. reflexivity. Qed.

Lemma step01 : qstep q0 q1.
Proof. exact (step_add q0 q1 _ _ (proj1 room_q) run1). Qed.
Lemma step12 : qstep q1 q2.
Proof. exact (step_add q1 q2 _ _ (proj1 (proj2 room_q)) run2). Qed.
Lemma step23 : qstep q2 q3.
Proof. exact (step_add q2 q3 _ _ (proj1 (proj2 (proj2 room_q))) run3). Qed.
Lemma step34 : qstep q3 q4.
Proof. exact (step_drain q3 q4 3 _ size_q3 run4). Qed.

Lemma reach4 : rtc qstep q0 q4.
Proof. exact (rtc_l _ _ _ _ step01 (rtc_l _ _ _ _ step12 (rtc_l _ _ _ _ step23 (rtc_once _ _ step34)))). Qed.

Lemma inv_q : queue_inv q1 /\ queue_inv q2 /\ queue_inv q3 /\ queue_inv q4.
Proof.
  assert (H1 : queue_inv q1) by exact (qstep_inv _ _ (new_queue_inv db0 2) step01).
  assert (H2 : queue_inv q2) by exact (qstep_inv _ _ H1 step12).
  assert (H3 : queue_inv q3) by exact (qstep_inv _ _ H2 step23).
  exact (conj H1 (conj H2 (conj H3 (qstep_inv _ _ H3 step34)))).
Qed.

Lemma reachable_queue_inv_witness : queue_inv q4.
Proof. exact (reachable_queue_inv db0 2 q4 reach4). Defined.

Lemma add_batch_correct_witness :
  live q3 = live q2 ++ [MkItem [tx 4] (seqToKey (nextAddSeq q2))] /\ txSeen q2 = txSeen q1.
Proof.
  destruct inv_q as (Hi1 & Hi2 & _), room_q as (_ & Hr1 & Hr2 & _). split.
  - destruct (add_batch_correct _ q2 _ q3 Hi2 Hr2 run3) as (_ & Hl & _).
    assert (Hd : (dedup (txSeen q2) [tx 2; tx 4]).1 = [tx 4]) by (vm_compute; reflexivity).
    rewrite Hd in Hl. exact Hl.
  - destruct (add_batch_correct _ q1 _ q2 Hi1 Hr1 run2) as (_ & _ & Hs & _). exact Hs.
Defined.

Lemma drain_correct_witness :
  Ok (E := queue_error) [tx 1; tx 2] = Ok (txs_of (inFlight q4)) /\ inFlight q4 ++ live q4 = inFlight q3 ++ live q3.
Proof.
  destruct (drain_correct 3 q3 _ q4 (proj1 (proj2 (proj2 inv_q))) size_q3 run4) as (Hr & Hl & _).
  exact (conj Hr Hl).
Defined.

Lemma inv5 : queue_inv q5.
Proof.
  apply (qstep_inv q4 q5 (proj2 (proj2 (proj2 inv_q)))), (step_postpone q4 q5 [tx 2] (Ok tt)); [|exact run5].
  assert (Htx : txs_of (inFlight q4) = [tx 1; tx 2]) by (vm_compute; reflexivity).
  rewrite Htx. apply submseteq_cons, submseteq_skip, submseteq_nil_l.
Qed.

Lemma ack_correct_witness : inFlight q6 = [] /\ txs_of (live q6) = [tx 2; tx 4].
Proof.
  destruct (ack_correct q5 _ q6 inv5 (proj2 (proj2 (proj2 room_q))) run6) as (_ & Hif & Hl & _).
  split; [exact Hif|]. rewrite Hl. vm_compute. reflexivity.
Defined.

Lemma wal_ok : wal_seqs_ok (ds_view (qdb q4)).
Proof.
  split; [vm_compute; reflexivity|]. intros k b s Hk [_ Hp]. apply elem_of_map_to_list, list_elem_of_In in Hk.
  assert (Hv : forallb (fun kv => match ParseUint16 kv.1 with
                                  | Some s => (0 <? s) && (s + Z.of_nat (size (ds_view (qdb q4))) <? max_u64)
                                  | None => true end) (map_to_list (ds_view (qdb q4))) = true)
    by (vm_compute; reflexivity).
  rewrite forallb_forall in Hv. specialize (Hv (k, b) Hk). cbn [fst] in Hv. rewrite Hp in Hv. lia.
Qed.

(** A restart in the middle of the cycle. *)
Lemma crash_recovery_witness :
  exists q', Load q4 = (Ok tt, q') /\
    forall t, t ∈ txs_of (all_items q4) -> txHash t ∈ txHash <$> txs_of (live q').
Proof.
  destruct (crash_recovery db0 2 q4 q4 reach4 eq_refl wal_ok) as (q' & Hrun & _ & _ & _ & Hall).
  - assert (Hf : faults (qdb q4) = []) by (vm_compute; reflexivity).
    change (Forall (fun b => b = false) (faults (qdb q4))). rewrite Hf. constructor.
  - exists q'. split; [exact Hrun|exact Hall].
Defined.

Lemma drop_included_correct_witness :
  exists q', DropIncluded [tx 1; tx 9] q3 = (Ok 1, q') /\ txs_of (live q') = [tx 2; tx 4].
Proof.
  assert (Hrun : DropIncluded [tx 1; tx 9] q3 = (Ok 1, (DropIncluded [tx 1; tx 9] q3).2))
    by (refine (run_eq (DropIncluded [tx 1; tx 9]) q3 (Ok 1) _); vm_compute; reflexivity).
  assert (Hif : inFlight q3 = []) by (vm_compute; reflexivity).
  exists (DropIncluded [tx 1; tx 9] q3).2. split; [exact Hrun|].
  destruct (drop_included_correct _ q3 1 _ (proj1 (proj2 (proj2 inv_q))) Hif Hrun) as (_ & Hl & _).
  rewrite Hl. vm_compute. reflexivity.
Defined.

(** A reconciliation whose rewrite of the log fails: the transaction is queued
    and no longer in the dedup set. The restart that follows has it in both. *)
Definition d1 : BatchQueue memds := (AddBatch [tx 1; tx 2] (NewBatchQueue (MemDS.MemDS ∅ [false; true]) 2)).2.
Definition d2 : BatchQueue memds := (DropIncluded [tx 1] d1).2.

Example failed_drop_forgets :
  (DropIncluded [tx 1] d1).1 = Err (QDs ErrIO) /\ txs_of (live d2) = [tx 1; tx 2] /\
  bool_decide (txHash (tx 1) ∈ txSeen d2) = false /\
  txs_of (live (Load d2).2) = [tx 1; tx 2] /\ bool_decide (txHash (tx 1) ∈ txSeen (Load d2).2) = true.
Proof. vm_compute. repeat split; reflexivity. Qed.

End BatchQueueWitness.
