(* ===== verification/DAClient.v ===== *)
(** * The DA client's read path ([block/internal/da/client.go])

    [client] wraps the blob and header RPC of a Celestia node, which is not part
    of the repository: the calls it makes are the class [BlobRPC] on the state
    [W] of the outside world, and [BlobRPCLaws] says that the DA chain only
    grows and that the node answers truthfully. [retrieve] maps the answers to
    status codes and resolves the timestamp of the block, and
    [blockTimestampCache] remembers the timestamps of the last heights. The
    theorems show that a result with a conclusive status code describes the DA
    chain, and what the timestamp cache retains. *)

From S2P Require Import Prelude Sha256.
From stdpp Require Import base gmap strings list numbers.
Open Scope Z_scope.

(** ** Results ([pkg/da/types/types.go]) *)

Inductive StatusCode :=
| StatusUnknown | StatusSuccess | StatusNotFound | StatusNotIncludedInBlock
| StatusAlreadyInMempool | StatusTooBig | StatusContextDeadline | StatusError
| StatusIncorrectAccountSequence | StatusContextCanceled | StatusHeightFromFuture.
#[export] Instance StatusCode_eq_dec : EqDecision StatusCode.
Proof. solve_decision. Defined.

(** The fields of [ResultRetrieve] that a retrieval sets. *)
Record ResultRetrieve := MkResult
  { Code : StatusCode; Message : string; res_Height : Z; IDs : list bytes;
    res_Timestamp : Z; res_Data : list bytes }.

Definition ErrBlobNotFound : string := "blob: not found".
Definition ErrHeightFromFuture_msg : string := "given height is from the future".

(** [strings.Contains]. *)
Definition str_contains (s sub : string) : bool :=
  match String.index 0 sub s with Some _ => true | None => false end.

(** [blobsize.DefaultMaxBlobSize], with the default of the build. *)
Definition DefaultMaxBlobSize : Z := 5242880.

(** ** The RPC of the DA node *)

Record rpcBlob := MkBlob { blob_Data : bytes; blob_Commitment : bytes }.

(** [blobrpc.SubscriptionResponse]: a nil blob is [None], and so is the time of a
    nil header. *)
Record SubscriptionResponse := MkSubResponse
  { sr_Blobs : list (option rpcBlob); sr_Height : Z; sr_HeaderTime : option Z }.

Record SubscriptionEvent := MkSubEvent { ev_Height : Z; ev_Timestamp : Z; ev_Blobs : list bytes }.

Class BlobRPC (W : Type) := {
  (** [share.NewNamespaceFromBytes] accepts the bytes. *)
  namespace_valid : bytes -> bool;
  (** [blobAPI.GetAll(height, [ns])]; an error is its message. *)
  rpc_GetAll : Z -> bytes -> M W string (list rpcBlob);
  (** [headerAPI.GetByHeight(height)]: the time of the header. *)
  rpc_GetByHeight : Z -> M W string Z;
  (** [headerAPI.NetworkHead()]: the height of the header, which may be nil. *)
  rpc_NetworkHead : M W string (option Z);
  (** [blobAPI.GetProof(height, ns, commitment)] and [json.Marshal] of the proof. *)
  rpc_GetProof : Z -> bytes -> bytes -> M W string bytes;
  (** [json.Unmarshal] accepts the bytes of a proof. *)
  proof_parses : bytes -> bool;
  (** [blobAPI.Included(height, ns, proof, commitment)], an error being [false]. *)
  rpc_Included : Z -> bytes -> bytes -> bytes -> W -> bool * W;
  (** [<-ctx.Done()] wins against [<-time.After(backoff)]. *)
  backoff_cancelled : W -> bool * W;
  time_Now : W -> Z * W;
  (** The blobs of a namespace at a height, once the DA block exists. *)
  da_block : W -> bytes -> Z -> option (list bytes);
  (** The time of the DA block at a height, once it exists. *)
  da_time : W -> Z -> option Z;
  (** The node answers every call from now on. *)
  rpc_healthy : W -> Prop
}.

(** The DA chain is append-only. *)
Definition da_extends {W} `{BlobRPC W} (w w' : W) : Prop :=
  (forall ns h b, da_block w ns h = Some b -> da_block w' ns h = Some b) /\
  (forall h t, da_time w h = Some t -> da_time w' h = Some t).

#[export] Instance da_extends_preorder {W} `{BlobRPC W} : PreOrder da_extends.
Proof.
  split; [split; auto|]. intros w1 w2 w3 [H1 H2] [H3 H4].
  split; intros; [apply H3, H1|apply H4, H2]; done.
Qed.

Class BlobRPCLaws (W : Type) `{BlobRPC W} := {
  GetAll_law h ns w :
    wp (rpc_GetAll h ns) (fun r w' =>
      da_extends w w' /\ (rpc_healthy w -> rpc_healthy w') /\
      match r with
      | Ok blobs => da_block w' ns h = Some (blob_Data <$> blobs)
      | Err msg =>
          if str_contains msg ErrBlobNotFound then da_block w' ns h = Some []
          else if str_contains msg ErrHeightFromFuture_msg then da_block w ns h = None
          else ~ rpc_healthy w
      end) w;
  (** DA blocks are dated after the year 1 and in the range of [UnixNano]. *)
  GetByHeight_law h w :
    wp (rpc_GetByHeight h) (fun r w' =>
      da_extends w w' /\ (rpc_healthy w -> rpc_healthy w') /\
      match r with
      | Ok t => da_time w' h = Some t /\ zero_time < t /\ i64 t = t
      | Err _ => rpc_healthy w -> forall ns, da_block w ns h = None
      end) w;
  NetworkHead_law w :
    wp rpc_NetworkHead (fun r w' => da_extends w w' /\ (rpc_healthy w -> rpc_healthy w')) w;
  GetProof_law h ns c w :
    wp (rpc_GetProof h ns c) (fun r w' => da_extends w w' /\ (rpc_healthy w -> rpc_healthy w')) w;
  Included_law h ns p c w :
    da_extends w (rpc_Included h ns p c w).2 /\ (rpc_healthy w -> rpc_healthy (rpc_Included h ns p c w).2);
  backoff_law w :
    da_extends w (backoff_cancelled w).2 /\ (rpc_healthy w -> rpc_healthy (backoff_cancelled w).2);
  Now_law w : da_extends w (time_Now w).2 /\ (rpc_healthy w -> rpc_healthy (time_Now w).2)
}.

(** ** The cache of block timestamps *)

Definition blockTimestampFetchMaxAttempts : nat := 3.
Definition blockTimestampCacheWindow : Z := 2048.

Record blockTimestampCache := MkTsCache { byHeight : gmap Z Z; highest : Z; window : Z }.

Definition newBlockTimestampCache (w : Z) : blockTimestampCache :=
  MkTsCache ∅ 0 (if w =? 0 then blockTimestampCacheWindow else w).

Definition ts_get (c : blockTimestampCache) (height : Z) : option Z := byHeight c !! height.

Definition minRetainedHeightLocked (c : blockTimestampCache) : Z :=
  if (window c =? 0) || (highest c <? sub64 (window c) 1) then 0
  else add64 (sub64 (highest c) (window c)) 1.

Definition ts_put (height blockTime : Z) (c : blockTimestampCache) : blockTimestampCache :=
  if blockTime =? zero_time then c else
  let minRetained := minRetainedHeightLocked c in
  if (0 <? minRetained) && (height <? minRetained) then c else
  let c := MkTsCache (byHeight c) (if highest c <? height then height else highest c) (window c) in
  let c := MkTsCache (<[height := blockTime]> (byHeight c)) (highest c) (window c) in
  let minRetained := minRetainedHeightLocked c in
  if minRetained =? 0 then c
  else MkTsCache (filter (fun kv => ~ kv.1 < minRetained) (byHeight c)) (highest c) (window c).

(** ** The client *)

Record client (W : Type) := MkClient
  { hasForcedNamespace : bool; forcedNamespaceBz : bytes;
    timestampCache : blockTimestampCache; api : W }.
Arguments MkClient {W}. Arguments hasForcedNamespace {W}. Arguments forcedNamespaceBz {W}.
Arguments timestampCache {W}. Arguments api {W}.

Section client.
Context {W : Type} `{BlobRPC W}.

Definition set_api (w : W) (c : client W) : client W :=
  MkClient (hasForcedNamespace c) (forcedNamespaceBz c) (timestampCache c) w.
Definition set_timestampCache (t : blockTimestampCache) (c : client W) : client W :=
  MkClient (hasForcedNamespace c) (forcedNamespaceBz c) t (api c).

Definition rpc {E A} (m : M W E A) : M (client W) E A := zoom api set_api m.

Definition storeBlockTimestamp {E} (height blockTime : Z) : M (client W) E unit :=
  modify (fun c => set_timestampCache (ts_put height blockTime (timestampCache c)) c).

Definition cachedBlockTimestamp (height : Z) (c : client W) : option Z :=
  ts_get (timestampCache c) height.

(** The attempts of [getBlockTimestamp]; [attempts] of them are left. *)
Fixpoint timestamp_attempts (attempts : nat) (height : Z) (lastErr : string) : M (client W) string Z :=
  match attempts with
  | O => throw ("get header timestamp: " +:+ lastErr)
  | S remaining =>
      header ← attempt (rpc (rpc_GetByHeight height));
      match header with
      | Ok blockTime =>
          _ ← storeBlockTimestamp height blockTime;
          mret blockTime
      | Err err =>
          if Nat.eqb remaining 0 then throw ("get header timestamp: " +:+ err) else
          cancelled ← rpc (infallible backoff_cancelled);
          if (cancelled : bool) then throw "fetching header timestamp: context canceled"
          else timestamp_attempts remaining height err
      end
  end.

Definition getBlockTimestamp (height : Z) : M (client W) string Z :=
  timestamp_attempts blockTimestampFetchMaxAttempts height "".

Definition resolveBlockTimestamp (height : Z) (strict : bool) : M (client W) string Z :=
  if negb strict then
    c ← gets id;
    match cachedBlockTimestamp height c with
    | Some blockTime => mret blockTime
    | None => mret zero_time
    end
  else getBlockTimestamp height.

(** [blobrpc.MakeID]. *)
Definition MakeID (height : Z) (commitment : bytes) : bytes := put_uint64_le height ++ commitment.

(** [blobrpc.SplitID]; a nil commitment is [None]. *)
Definition SplitID (i : bytes) : Z * option bytes :=
  if zlen i <=? 8 then (0, None) else (uint64_le (take 8 i), Some (drop 8 i)).

Definition now {E} : M (client W) E Z := rpc (infallible time_Now).

Definition retrieve {E} (height : Z) (namespace : bytes) (strictTimestamp : bool)
  : M (client W) E ResultRetrieve :=
  if negb (namespace_valid namespace) then
    t ← now; mret (MkResult StatusError "invalid namespace" height [] t [])
  else
    blobs ← attempt (rpc (rpc_GetAll height namespace));
    match blobs with
    | Err err =>
        if str_contains err ErrBlobNotFound then
          blockTime ← attempt (resolveBlockTimestamp height strictTimestamp);
          match blockTime with
          | Err err' => mret (MkResult StatusError ("failed to get block timestamp: " +:+ err') height [] zero_time [])
          | Ok t => mret (MkResult StatusNotFound ErrBlobNotFound height [] t [])
          end
        else if str_contains err ErrHeightFromFuture_msg then
          t ← now; mret (MkResult StatusHeightFromFuture ErrHeightFromFuture_msg height [] t [])
        else
          t ← now; mret (MkResult StatusError ("failed to get blobs: " +:+ err) height [] t [])
    | Ok blobs =>
        blockTime ← attempt (resolveBlockTimestamp height strictTimestamp);
        match blockTime with
        | Err err' => mret (MkResult StatusError ("failed to get block timestamp: " +:+ err') height [] zero_time [])
        | Ok t =>
            if zlen blobs =? 0 then mret (MkResult StatusNotFound ErrBlobNotFound height [] t [])
            else mret (MkResult StatusSuccess "" height
                         ((fun b => MakeID height (blob_Commitment b)) <$> blobs) t (blob_Data <$> blobs))
        end
    end.

Definition Retrieve {E} (height : Z) (namespace : bytes) : M (client W) E ResultRetrieve :=
  retrieve height namespace true.

Definition RetrieveBlobs {E} (height : Z) (namespace : bytes) : M (client W) E ResultRetrieve :=
  retrieve height namespace false.

Definition RetrieveForcedInclusion {E} (height : Z) : M (client W) E ResultRetrieve :=
  c ← gets id;
  if negb (hasForcedNamespace c) then
    mret (MkResult StatusError "forced inclusion namespace not configured" height [] zero_time [])
  else Retrieve height (forcedNamespaceBz c).

(** The blobs of a response that are not nil, and of these the data that is not
    empty and within the size limit. *)
Definition response_data (resp : SubscriptionResponse) : list bytes := blob_Data <$> omap id (sr_Blobs resp).
Definition extractBlobData (resp : SubscriptionResponse) : list bytes :=
  List.filter (fun data => negb ((zlen data =? 0) || (DefaultMaxBlobSize <? zlen data))) (response_data resp).

(** The event that [Subscribe] emits for a response. *)
Definition subscription_event {E} (includeTimestamp : bool) (resp : SubscriptionResponse)
  : M (client W) E SubscriptionEvent :=
  let height := sr_Height resp in
  blockTime ← (if negb (default zero_time (sr_HeaderTime resp) =? zero_time) then
                 let blockTime := default zero_time (sr_HeaderTime resp) in
                 _ ← storeBlockTimestamp height blockTime;
                 mret blockTime
               else if includeTimestamp then
                 r ← attempt (getBlockTimestamp height);
                 match r with Ok blockTime => mret blockTime | Err _ => mret zero_time end
               else mret zero_time);
  mret (MkSubEvent height blockTime (extractBlobData resp)).

Definition GetLatestDAHeight : M (client W) string Z :=
  header ← rpc rpc_NetworkHead;
  match header with
  | None => throw "DA network head returned nil header"
  | Some height => mret height
  end.

Fixpoint proofs_of (ids : list bytes) (ns : bytes) : M (client W) string (list bytes) :=
  match ids with
  | [] => mret []
  | i :: ids' =>
      match SplitID i with
      | (_, None) => throw "invalid blob id"
      | (height, Some commitment) =>
          bz ← rpc (rpc_GetProof height ns commitment);
          rest ← proofs_of ids' ns;
          mret (bz :: rest)
      end
  end.

Definition GetProofs (ids : list bytes) (namespace : bytes) : M (client W) string (list bytes) :=
  if zlen ids =? 0 then mret [] else
  if negb (namespace_valid namespace) then throw "invalid namespace" else
  proofs_of ids namespace.

Fixpoint validate_ids (ids proofs : list bytes) (ns : bytes) : M (client W) string (list bool) :=
  match ids, proofs with
  | i :: ids', proof :: proofs' =>
      if negb (proof_parses proof) then throw "invalid proof" else
      match SplitID i with
      | (_, None) => throw "invalid blob id"
      | (height, Some commitment) =>
          included ← rpc (infallible (rpc_Included height ns proof commitment));
          rest ← validate_ids ids' proofs' ns;
          mret (included :: rest)
      end
  | _, _ => mret []
  end.

Definition Validate (ids proofs : list bytes) (namespace : bytes) : M (client W) string (list bool) :=
  if negb (zlen ids =? zlen proofs) then throw "number of IDs and proofs must match" else
  if zlen ids =? 0 then mret [] else
  if negb (namespace_valid namespace) then throw "invalid namespace" else
  validate_ids ids proofs namespace.

End client.

(** ** The timestamp cache *)

(** Cached times are those of the DA headers, and cached heights lie in the
    window that ends at the highest height seen. *)
Definition ts_inv {W} `{BlobRPC W} (w : W) (c : blockTimestampCache) : Prop :=
  1 <= window c < two64 /\ is_u64 (highest c) /\
  forall h t, byHeight c !! h = Some t ->
    da_time w h = Some t /\ 0 <= h <= highest c /\ highest c - window c < h.

Section ts_facts.
Context {W : Type} `{BlobRPC W}.

Lemma minRetained_eq c :
  1 <= window c < two64 -> is_u64 (highest c) ->
  minRetainedHeightLocked c = Z.max 0 (highest c - window c + 1).
Proof.
  unfold is_u64. intros Hw Hh. unfold minRetainedHeightLocked.
  destruct (Z.eqb_spec (window c) 0); [lia|]. rewrite (sub64_small (window c) 1) by lia. simpl.
  destruct (Z.ltb_spec (highest c) (window c - 1)); [lia|].
  destruct (Z.eq_dec (highest c) (window c - 1)) as [Heq|Hne].
  - rewrite Heq. unfold add64, sub64, u64.
    replace (window c - 1 - window c) with (-1) by lia.
    change ((-1) mod two64) with max_u64. change ((max_u64 + 1) mod two64) with 0. lia.
  - rewrite (sub64_small (highest c)), add64_small by lia. lia.
Qed.

Lemma ts_inv_extends w w' c : da_extends w w' -> ts_inv w c -> ts_inv w' c.
Proof.
  intros [_ Ht] (Hw & Hh & Hc). split_and!; [lia|lia|done|].
  intros h t Hl. destruct (Hc h t Hl) as (Hd & ?). split; [by apply Ht|done].
Qed.

Lemma ts_put_inv w c h t :
  is_u64 h -> da_time w h = Some t -> ts_inv w c -> ts_inv w (ts_put h t c).
Proof.
  unfold is_u64. intros Hh Ht (Hw & Hhi & Hc). unfold ts_put.
  destruct (t =? zero_time); [by split|].
  destruct ((0 <? _) && (h <? _)) eqn:Hold; [by split|].
  rewrite (minRetained_eq c Hw Hhi) in Hold.
  set (hi := if highest c <? h then h else highest c).
  assert (Hhi' : h <= hi /\ highest c <= hi /\ (hi = h \/ hi = highest c)).
  { subst hi. destruct (Z.ltb_spec (highest c) h); lia. }
  cbv zeta. rewrite minRetained_eq by (unfold is_u64 in *; simpl; lia). cbn [byHeight highest window].
  destruct (Z.eqb_spec (Z.max 0 (hi - window c + 1)) 0) as [Hz|Hz];
    unfold ts_inv; cbn [byHeight highest window];
    (split; [lia|]); (split; [unfold is_u64 in *; lia|]); intros h' t' Hl.
  - apply lookup_insert_Some in Hl as [[<- <-]|[Hne Hl]]; [split; [done|lia]|].
    destruct (Hc h' t' Hl) as (? & ? & ?). split; [done|]. lia.
  - apply map_lookup_filter_Some in Hl as [Hl Hge]. simpl in Hge.
    apply lookup_insert_Some in Hl as [[<- <-]|[Hne Hl]]; [split; [done|lia]|].
    destruct (Hc h' t' Hl) as (? & ? & ?). split; [done|]. lia.
Qed.

Lemma ts_inv_size w c : ts_inv w c -> Z.of_nat (size (byHeight c)) <= window c.
Proof.
  intros (Hw & Hh & Hc).
  pose (lo := highest c - window c + 1).
  assert (Hsub : dom (byHeight c) ⊆
    (list_to_set ((fun i => lo + Z.of_nat i) <$> seq 0 (Z.to_nat (window c))) : gset Z)).
  { intros h Hd. apply elem_of_dom in Hd as [t Hl]. destruct (Hc h t Hl) as (_ & ? & ?).
    apply elem_of_list_to_set, list_elem_of_fmap. exists (Z.to_nat (h - lo)).
    split; [subst lo; lia|]. apply elem_of_seq. subst lo. lia. }
  apply subseteq_size in Hsub. rewrite size_dom in Hsub.
  rewrite size_list_to_set in Hsub.
  - rewrite length_fmap, length_seq in Hsub. lia.
  - apply NoDup_fmap_2; [|apply NoDup_seq]. intros a b. lia.
Qed.

End ts_facts.

(** ** The read path *)

Section client_facts.
Context {W : Type} `{BlobRPCLaws W}.

(** What the client keeps true: its timestamps are those of the DA chain. *)
Definition client_inv (c : client W) : Prop := ts_inv (api c) (timestampCache c).

(** A call that may extend the DA chain and leaves the configuration alone. *)
Definition client_step (c c' : client W) : Prop :=
  da_extends (api c) (api c') /\ (rpc_healthy (api c) -> rpc_healthy (api c')) /\
  (client_inv c -> client_inv c') /\
  hasForcedNamespace c' = hasForcedNamespace c /\ forcedNamespaceBz c' = forcedNamespaceBz c.

#[export] Instance client_step_preorder : PreOrder client_step.
Proof.
  split.
  - intros c. split_and!; [reflexivity|tauto|tauto|done..].
  - intros c1 c2 c3 (? & ? & ? & ? & ?) (? & ? & ? & ? & ?).
    split_and!; [by etrans|tauto|tauto|congruence..].
Qed.

Lemma set_api_step w c :
  da_extends (api c) w -> (rpc_healthy (api c) -> rpc_healthy w) -> client_step c (set_api w c).
Proof.
  intros He Hh. split_and!; [done|done| |done..]. intros Hi. unfold client_inv in *. simpl.
  by eapply ts_inv_extends.
Qed.

Lemma timestamp_attempts_spec n h msg c :
  n <> 0%nat -> is_u64 h ->
  wp (timestamp_attempts n h msg) (fun r c' =>
    client_step c c' /\
    match r with
    | Ok t => da_time (api c') h = Some t /\ zero_time < t /\ i64 t = t
    | Err _ => rpc_healthy (api c) -> forall ns, da_block (api c) ns h = None
    end) c.
Proof.
  intros Hn Hh. revert Hn msg c. induction n as [|n IH]; intros Hn msg c; [done|]. clear Hn. simpl.
  apply wp_bind, wp_attempt, wp_zoom. eapply wp_mono; [apply GetByHeight_law|].
  intros [t|e] w' (He & Hhl & Ht).
  - apply wp_bind, wp_modify, wp_ret. destruct Ht as (Ht & Hz & Hi64). split; [|simpl; done].
    split_and!; [done|done| |done..]. intros Hi. unfold client_inv. simpl.
    apply ts_put_inv; [done..|]. by eapply ts_inv_extends.
  - destruct (Nat.eqb_spec n 0) as [Hz|Hz]; [split; [by apply set_api_step|done]|].
    apply wp_bind, wp_zoom, wp_infallible.
    assert (Hs : client_step c (set_api (backoff_cancelled (api (set_api w' c))).2 (set_api w' c))).
    { etrans; [by apply set_api_step|]. apply set_api_step; apply backoff_law. }
    destruct (backoff_cancelled (api (set_api w' c))) as [[] w'']; simpl in *; [by split|].
    eapply wp_mono; [by apply IH|]. intros r c' (Hs' & Hr). split; [by etrans|by destruct r].
Qed.

Lemma resolveBlockTimestamp_spec h strict c :
  is_u64 h -> client_inv c ->
  wp (resolveBlockTimestamp h strict) (fun r c' =>
    client_step c c' /\
    match r with
    | Ok t => (da_time (api c') h = Some t /\ (strict = true -> zero_time < t /\ i64 t = t))
              \/ (strict = false /\ t = zero_time)
    | Err _ => rpc_healthy (api c) -> forall ns, da_block (api c) ns h = None
    end) c.
Proof.
  intros Hh Hi. unfold resolveBlockTimestamp. destruct strict; simpl.
  - unfold getBlockTimestamp. eapply wp_mono; [by apply timestamp_attempts_spec|].
    intros [t|e] c' (Hs & Ht); (split; [done|]); [left; tauto|exact Ht].
  - apply wp_bind, wp_gets. unfold cachedBlockTimestamp, ts_get.
    destruct (byHeight (timestampCache (id c)) !! h) as [t|] eqn:Hl; (split; [reflexivity|]).
    + left. split; [|done]. by apply Hi in Hl as (? & _).
    + by right.
Qed.

(** The node's response is true: its blobs are those of the DA block, and the time
    of the header is that of the block. *)
Definition response_true (ns : bytes) (resp : SubscriptionResponse) (w : W) : Prop :=
  is_u64 (sr_Height resp) /\ da_block w ns (sr_Height resp) = Some (response_data resp) /\
  forall t, sr_HeaderTime resp = Some t -> t <> zero_time ->
    da_time w (sr_Height resp) = Some t /\ zero_time < t /\ i64 t = t.

(** The event has the time and all the blobs of the block. *)
Definition intact (resp : SubscriptionResponse) (ev : SubscriptionEvent) : bool :=
  negb (ev_Timestamp ev =? zero_time) && forallb (fun data => zlen data <=? DefaultMaxBlobSize) (response_data resp).

Lemma subscription_event_spec {E} include ns resp c :
  response_true ns resp (api c) ->
  wp (subscription_event (E := E) include resp) (fun r c' => client_step c c' /\
    exists t, r = Ok (MkSubEvent (sr_Height resp) t (extractBlobData resp)) /\
      (t <> zero_time -> da_time (api c') (sr_Height resp) = Some t /\ zero_time < t /\ i64 t = t)) c.
Proof.
  intros (Hh & _ & Ht). unfold subscription_event. apply wp_bind.
  destruct (Z.eqb_spec (default zero_time (sr_HeaderTime resp)) zero_time) as [Hz|Hz]; cbn [negb].
  - destruct include; cycle 1.
    { apply wp_ret, wp_ret. split; [reflexivity|]. by exists zero_time. }
    apply wp_bind, wp_attempt. eapply wp_mono; [by apply timestamp_attempts_spec|].
    intros [t|e] c' [Hs Hr]; apply wp_ret, wp_ret; (split; [exact Hs|]); by eexists.
  - destruct (sr_HeaderTime resp) as [t|]; [|done]. cbn [default] in *. destruct (Ht t eq_refl Hz) as (Ht1 & Ht2 & Ht3).
    apply wp_bind, wp_modify, wp_ret, wp_ret. split; [|by exists t].
    split_and!; [simpl; reflexivity|done| |done..]. intros Hi. unfold client_inv. simpl. by apply ts_put_inv.
Qed.

(** Calls that only consult the node. *)
Definition consults {E A} (m : M (client W) E A) : Prop := forall c, wp m (fun _ c' => client_step c c') c.

Lemma consults_ret {E A} (a : A) : consults (E := E) (mret a).
Proof. intros c. apply wp_ret. reflexivity. Qed.

Lemma consults_throw {E A} (e : E) : consults (A := A) (throw e).
Proof. intros c. apply wp_throw. reflexivity. Qed.

Lemma consults_bind {E A B} (m : M (client W) E A) (f : A -> M (client W) E B) :
  consults m -> (forall a, consults (f a)) -> consults (m ≫= f).
Proof.
  intros Hm Hf c. apply wp_bind. eapply wp_mono; [apply Hm|]. intros [a|e] c' Hs; [|done].
  eapply wp_mono; [apply Hf|]. intros r c'' Hs'. by etrans.
Qed.

Lemma consults_rpc {E A} (m : M W E A) :
  (forall w, wp m (fun _ w' => da_extends w w' /\ (rpc_healthy w -> rpc_healthy w')) w) -> consults (rpc m).
Proof. intros Hm c. apply wp_zoom. eapply wp_mono; [apply Hm|]. intros r w' [He Hh]. by apply set_api_step. Qed.

Lemma GetLatestDAHeight_consults : consults GetLatestDAHeight.
Proof.
  apply consults_bind; [apply consults_rpc, NetworkHead_law|].
  intros [h|]; [apply consults_ret|apply consults_throw].
Qed.

Lemma GetProofs_consults ids ns : consults (GetProofs ids ns).
Proof.
  unfold GetProofs. destruct (zlen ids =? 0); [apply consults_ret|].
  destruct (namespace_valid ns); [simpl|apply consults_throw].
  induction ids as [|i ids IH]; simpl; [apply consults_ret|].
  destruct (SplitID i) as [h [cm|]]; [|apply consults_throw].
  apply consults_bind; [apply consults_rpc; intros; apply GetProof_law|]. intros bz.
  apply consults_bind; [exact IH|]. intros; apply consults_ret.
Qed.

Lemma Validate_consults ids proofs ns : consults (Validate ids proofs ns).
Proof.
  unfold Validate. destruct (zlen ids =? zlen proofs); [simpl|apply consults_throw].
  destruct (zlen ids =? 0); [apply consults_ret|].
  destruct (namespace_valid ns); [simpl|apply consults_throw].
  revert proofs. induction ids as [|i ids IH]; intros [|p proofs]; simpl; try apply consults_ret.
  destruct (proof_parses p); [simpl|apply consults_throw].
  destruct (SplitID i) as [h [cm|]]; [|apply consults_throw].
  apply consults_bind; [apply consults_rpc; intros; apply wp_infallible, Included_law|]. intros b.
  apply consults_bind; [apply IH|]. intros; apply consults_ret.
Qed.

(** What a result says of the DA chain. *)
Definition result_sound (strict : bool) (ns : bytes) (h : Z) (w w' : W) (r : ResultRetrieve) : Prop :=
  match Code r with
  | StatusSuccess | StatusNotFound =>
      da_block w' ns h = Some (res_Data r) /\
      (Code r = StatusNotFound <-> res_Data r = []) /\
      ((da_time w' h = Some (res_Timestamp r) /\
        (strict = true -> zero_time < res_Timestamp r /\ i64 (res_Timestamp r) = res_Timestamp r))
       \/ (strict = false /\ res_Timestamp r = zero_time))
  | StatusHeightFromFuture => da_block w ns h = None
  | StatusError => rpc_healthy w -> namespace_valid ns = false
  | _ => False
  end.

Lemma now_spec {E} (Q : res E Z -> client W -> Prop) c :
  (forall t c', client_step c c' -> Q (Ok t) c') -> wp now Q c.
Proof.
  intros HQ. apply wp_zoom, wp_infallible. apply HQ. apply set_api_step; apply Now_law.
Qed.

Lemma retrieve_spec {E} h ns strict c :
  is_u64 h -> client_inv c ->
  wp (retrieve (E := E) h ns strict) (fun r c' =>
    client_step c c' /\
    match r with
    | Ok r => result_sound strict ns h (api c) (api c') r /\ res_Height r = h
    | Err _ => False
    end) c.
Proof.
  intros Hh Hi. unfold retrieve. destruct (namespace_valid ns) eqn:Hns; simpl; cycle 1.
  { apply wp_bind, now_spec. intros t c' Hs. apply wp_ret. split; [done|]. split; [|done].
    intros _. exact Hns. }
  apply wp_bind, wp_attempt, wp_zoom. eapply wp_mono; [apply GetAll_law|].
  intros r w' (He & Hhl & Hr). pose proof (set_api_step w' c He Hhl) as Hs1.
  assert (Hi1 : client_inv (set_api w' c)) by (apply Hs1; done).
  destruct r as [blobs|err].
  - apply wp_bind, wp_attempt. eapply wp_mono; [by apply resolveBlockTimestamp_spec|].
    intros [t|e] c' (Hs & Ht); cycle 1.
    { apply wp_ret. split; [by etrans|]. split; [|done]. intros Hhe.
      specialize (Ht (Hhl Hhe) ns). simpl in Ht. congruence. }
    assert (Hb : da_block (api c') ns h = Some (blob_Data <$> blobs)) by (by apply Hs).
    destruct (Z.eqb_spec (zlen blobs) 0) as [Hz|Hz]; apply wp_ret; (split; [by etrans|]); (split; [|done]).
    + apply zlen_zero in Hz as ->. by split_and!.
    + split_and!; [done| |done]. simpl. split; [done|]. intros Hn.
      apply fmap_nil_inv in Hn as ->. done.
  - destruct (str_contains err ErrBlobNotFound).
    + apply wp_bind, wp_attempt. eapply wp_mono; [by apply resolveBlockTimestamp_spec|].
      intros [t|e] c' (Hs & Ht); apply wp_ret; (split; [by etrans|]); (split; [|done]).
      * split_and!; [by apply Hs|done|done].
      * intros Hhe. specialize (Ht (Hhl Hhe) ns). simpl in Ht. congruence.
    + destruct (str_contains err ErrHeightFromFuture_msg);
        apply wp_bind, now_spec; intros t c' Hs; apply wp_ret; (split; [by etrans|]); (split; [|done]).
      * done.
      * intros Hhe. by destruct (Hr Hhe).
Qed.

(** A retrieval always returns, never changes the client's configuration,
    keeps the timestamp cache sound and within its window, and its status code
    is truthful: [StatusSuccess] and [StatusNotFound] carry exactly the blobs of
    the namespace in the DA block at that height (none for the latter) and the
    time of that block when timestamps are strict, and [StatusHeightFromFuture]
    means that the DA block did not exist. *)
Theorem da_retrieve_sound h ns strict (c : client W) :
  is_u64 h -> client_inv c ->
  exists r c', retrieve (E := Empty_set) h ns strict c = (Ok r, c') /\
    result_sound strict ns h (api c) (api c') r /\
    client_inv c' /\ Z.of_nat (size (byHeight (timestampCache c'))) <= window (timestampCache c') /\
    forcedNamespaceBz c' = forcedNamespaceBz c /\ hasForcedNamespace c' = hasForcedNamespace c.
Proof.
  intros Hh Hi. pose proof (retrieve_spec (E := Empty_set) h ns strict c Hh Hi) as Hw.
  unfold wp in Hw. destruct (retrieve h ns strict c) as [[r|[]] c']. destruct Hw as (Hs & Hr & _).
  destruct Hs as (He & _ & Hinv & Hf & Hb). exists r, c'.
  split_and!; try done; [by apply Hinv|]. eapply ts_inv_size. by apply Hinv.
Qed.

End client_facts.

(** ** A DA chain in memory *)

Module MemDA.

(** The time and the blobs by namespace of each block, and whether each coming
    call of the RPC fails. *)
Record memda := MkMemDA
  { chain : gmap Z (Z * gmap bytes (list bytes)); rpc_faults : list bool; clock : Z }.

Definition call {A} (f : memda -> res string A) : M memda string A := fun w =>
  match rpc_faults w with
  | true :: fs => (Err "rpc error", MkMemDA (chain w) fs (clock w))
  | fs => (f w, MkMemDA (chain w) (tail fs) (clock w))
  end.

Definition valid_time (t : Z) : bool := (zero_time <? t) && (i64 t =? t).

#[export] Instance memda_rpc : BlobRPC memda := {
  namespace_valid ns := negb (zlen ns =? 0);
  rpc_GetAll h ns := call (fun w =>
    match chain w !! h with
    | None => Err ("header: " +:+ ErrHeightFromFuture_msg)
    | Some (_, blobs) =>
        match default [] (blobs !! ns) with
        | [] => Err ErrBlobNotFound
        | l => Ok ((fun d => MkBlob d d) <$> l)
        end
    end);
  rpc_GetByHeight h := call (fun w =>
    match chain w !! h with
    | Some (t, _) => if valid_time t then Ok t else Err "invalid header"
    | None => Err ErrHeightFromFuture_msg
    end);
  rpc_NetworkHead := call (fun w =>
    Ok (match (map_to_list (chain w)).*1 with [] => None | h :: hs => Some (foldl Z.max h hs) end));
  rpc_GetProof h ns c := call (fun _ => Ok c);
  proof_parses p := true;
  rpc_Included h ns p c w :=
    (bool_decide (c ∈ default [] ((fun b => default [] (b.2 !! ns)) <$> chain w !! h)), w);
  backoff_cancelled w := (false, w);
  time_Now w := (clock w, MkMemDA (chain w) (rpc_faults w) (clock w + 1));
  da_block w ns h := (fun b => default [] (b.2 !! ns)) <$> chain w !! h;
  da_time w h := fst <$> chain w !! h;
  rpc_healthy w := Forall (fun b => b = false) (rpc_faults w) /\
                   map_Forall (fun _ b => valid_time b.1 = true) (chain w)
}.

Lemma same_chain_extends (w w' : memda) : chain w' = chain w -> da_extends w w'.
Proof. intros Hc. split; simpl; intros ???; rewrite Hc; done. Qed.

Lemma call_spec {A} (f : memda -> res string A) (Q : res string A -> memda -> Prop) w :
  (forall w', chain w' = chain w -> (rpc_healthy w -> rpc_healthy w') -> Q (f w) w') ->
  (forall w', chain w' = chain w -> ~ rpc_healthy w -> Q (Err "rpc error") w') ->
  wp (call f) Q w.
Proof.
  intros Hok Herr. unfold wp, call. destruct (rpc_faults w) as [|[] fs] eqn:Hf; simpl.
  - apply Hok; [done|]. simpl. rewrite Hf. done.
  - apply Herr; [done|]. simpl. rewrite Hf. intros [Hb _]. by inversion Hb.
  - apply Hok; [done|]. simpl. rewrite Hf. intros [Hb Hc]. split; [by inversion Hb|done].
Qed.

Lemma fmap_blob_Data (l : list bytes) : blob_Data <$> ((fun d => MkBlob d d) <$> l) = l.
Proof. induction l as [|x l IH]; [done|]. csimpl. by rewrite IH. Qed.

#[export] Instance memda_laws : BlobRPCLaws memda.
Proof.
  split.
  - intros h ns w. apply call_spec; intros w' Hc Hh; (split; [by apply same_chain_extends|]);
      (split; [tauto|]); [|exact Hh].
    cbn [da_block memda_rpc]. rewrite Hc. destruct (chain w !! h) as [[t b]|]; [|done].
    simpl. destruct (default [] (b !! ns)) as [|d l]; [done|].
    f_equal. symmetry. apply (fmap_blob_Data (d :: l)).
  - intros h w. apply call_spec; intros w' Hc Hh; (split; [by apply same_chain_extends|]);
      (split; [tauto|]); [|tauto].
    cbn [da_time da_block memda_rpc]. rewrite Hc. destruct (chain w !! h) as [[t b]|] eqn:Hl; [|done].
    destruct (valid_time t) eqn:Hv.
    + unfold valid_time in Hv. apply andb_prop in Hv as [Hz He]. apply Z.eqb_eq in He.
      apply Z.ltb_lt in Hz. done.
    + intros [_ Hall]. specialize (Hall _ _ Hl). simpl in Hall. congruence.
  - intros w. apply call_spec; intros w' Hc Hh; (split; [by apply same_chain_extends|tauto]).
  - intros h ns c w. apply call_spec; intros w' Hc Hh; (split; [by apply same_chain_extends|tauto]).
  - intros h ns p c w. split; [reflexivity|done].
  - intros w. split; [reflexivity|done].
  - intros w. split; [by apply same_chain_extends|done].
Qed.

End MemDA.

Module DAClientWitness.
Import MemDA.

Definition ns : bytes := [Init.Byte.x0f].
Definition w0 : memda :=
  MkMemDA {[ 7 := (1700000000000000000, {[ ns := [[Init.Byte.x01]; [Init.Byte.x02]] ]}) ]} [false; true] 5.
Definition c0 : client memda := MkClient true ns (newBlockTimestampCache 0) w0.

Lemma c0_inv : client_inv c0.
Proof. split_and!; [done..|]. simpl. intros h t Hl. by rewrite lookup_empty in Hl. Qed.

Lemma da_retrieve_sound_witness :
  exists r c', retrieve (E := Empty_set) 7 ns true c0 = (Ok r, c') /\
    result_sound true ns 7 (api c0) (api c') r /\
    client_inv c' /\ Z.of_nat (size (byHeight (timestampCache c'))) <= window (timestampCache c') /\
    forcedNamespaceBz c' = ns /\ hasForcedNamespace c' = true.
Proof. exact (da_retrieve_sound 7 ns true c0 (conj (Zle_bool_imp_le 0 7 eq_refl) eq_refl) c0_inv). Defined.

(** The header is refused once and asked for again. *)
Example retrieve_c0 : fst (retrieve (E := Empty_set) 7 ns true c0)
  = Ok (MkResult StatusSuccess "" 7 [MakeID 7 [Init.Byte.x01]; MakeID 7 [Init.Byte.x02]]
          1700000000000000000 [[Init.Byte.x01]; [Init.Byte.x02]]).
Proof. vm_compute. reflexivity. Qed.

End DAClientWitness.

(** * Namespaces ([pkg/da/types/namespace.go]) *)

Module DANamespace.

Definition NamespaceIDSize : nat := 28.
Definition NamespaceSize : nat := 29.
Definition NamespaceVersionZeroPrefixSize : nat := 18.
Definition NamespaceVersionZeroDataSize : Z := 10.

Record Namespace := MkNamespace { ns_Version : byte; ns_ID : bytes }.
Definition zero_byte : byte := byte_of_Z 0.

Definition Bytes (n : Namespace) : bytes := ns_Version n :: ns_ID n.
Definition IsValidForVersion0 (n : Namespace) : bool :=
  bool_decide (ns_Version n = zero_byte) && forallb (fun b => bool_decide (b = zero_byte)) (take NamespaceVersionZeroPrefixSize (ns_ID n)).

(** The data and zeros up to the size of an identifier. *)
Definition NewNamespaceV0 (data : bytes) : res string Namespace :=
  if NamespaceVersionZeroDataSize <? zlen data then Err "data too long for version 0 namespace" else
  Ok (MkNamespace zero_byte (take NamespaceIDSize (replicate NamespaceVersionZeroPrefixSize zero_byte ++ data ++ replicate 10 zero_byte))).

Definition NamespaceFromBytes (b : bytes) : res string Namespace :=
  match b with
  | version :: id =>
      if negb (zlen b =? 29) then Err "invalid namespace size" else
      let ns := MkNamespace version id in
      if bool_decide (version = zero_byte) && negb (IsValidForVersion0 ns) then Err "invalid version 0 namespace" else Ok ns
  | [] => Err "invalid namespace size"
  end.

(** The error cannot happen. *)
Definition NamespaceFromString (s : bytes) : option Namespace :=
  match NewNamespaceV0 (take 10 (Sha256.sum256 s)) with Ok ns => Some ns | Err _ => None end.

Definition HexString (n : Namespace) : string := "0x" +:+ hex_encode (Bytes n).

(** [hex.DecodeString]. *)
Definition from_hex_char (c : Ascii.ascii) : option Z :=
  let n := Z.of_nat (Ascii.nat_of_ascii c) in
  if (48 <=? n) && (n <=? 57) then Some (n - 48) else
  if (97 <=? n) && (n <=? 102) then Some (n - 87) else
  if (65 <=? n) && (n <=? 70) then Some (n - 55) else None.
Fixpoint hex_decode (s : string) : option bytes :=
  match s with
  | EmptyString => Some []
  | String a (String b rest) =>
      x ← from_hex_char a; y ← from_hex_char b; l ← hex_decode rest;
      Some (byte_of_Z (x * 16 + y) :: l)
  | String _ EmptyString => None
  end.
Definition trim_0x (s : string) : string :=
  match s with
  | String a (String b rest) =>
      if bool_decide (a = Ascii.ascii_of_nat 48) && bool_decide (b = Ascii.ascii_of_nat 120) then rest else s
  | _ => s
  end.
Definition ParseHexNamespace (hexStr : string) : res string Namespace :=
  match hex_decode (trim_0x hexStr) with
  | None => Err "invalid hex string"
  | Some b => NamespaceFromBytes b
  end.

(** What [NamespaceFromBytes] accepts. *)
Definition ns_wf (n : Namespace) : Prop :=
  length (ns_ID n) = NamespaceIDSize /\ (ns_Version n = zero_byte -> IsValidForVersion0 n = true).

Lemma hex_byte b : from_hex_char (hex_digit (Z_of_byte b / 16)) = Some (Z_of_byte b / 16) /\
  from_hex_char (hex_digit (Z_of_byte b mod 16)) = Some (Z_of_byte b mod 16).
Proof. destruct b; split; vm_compute; reflexivity. Qed.

Lemma hex_decode_encode b : hex_decode (hex_encode b) = Some b.
Proof.
  induction b as [|x b IH]; [done|]. simpl. destruct (hex_byte x) as [-> ->]. simpl. rewrite IH. simpl.
  rewrite Z.mul_comm, <- Z_div_mod_eq_full. by rewrite byte_of_Z_of_byte.
Qed.

Lemma from_bytes_ok n : ns_wf n -> NamespaceFromBytes (Bytes n) = Ok n.
Proof.
  intros [Hl Hv]. unfold NamespaceFromBytes, Bytes, zlen. simpl length. rewrite Hl. simpl. destruct n as [v id]. simpl in *.
  destruct (bool_decide_reflect (v = zero_byte)) as [->|]; [|done]. by rewrite Hv.
Qed.

(** A namespace is read back from its bytes and from its hex string; what is read
    is well formed; and every string gives a valid namespace of version 0. *)
Theorem namespace_roundtrip n b ns s :
  (ns_wf n -> NamespaceFromBytes (Bytes n) = Ok n /\ ParseHexNamespace (HexString n) = Ok n) /\
  (NamespaceFromBytes b = Ok ns -> ns_wf ns /\ Bytes ns = b) /\
  (exists m, NamespaceFromString s = Some m /\ IsValidForVersion0 m = true /\ NamespaceFromBytes (Bytes m) = Ok m).
Proof.
  split_and!.
  - intros Hwf. split; [by apply from_bytes_ok|]. unfold ParseHexNamespace, HexString.
    change (trim_0x _) with (hex_encode (Bytes n)). rewrite hex_decode_encode. by apply from_bytes_ok.
  - destruct b as [|v id]; [done|]. unfold NamespaceFromBytes. destruct (Z.eqb_spec (zlen (v :: id)) 29) as [Hl|]; [|done]. simpl.
    unfold zlen in Hl. simpl in Hl. set (n' := MkNamespace v id).
    destruct (bool_decide_reflect (v = zero_byte)) as [->|Hne]; simpl.
    + destruct (IsValidForVersion0 n') eqn:Hv; [|done]. intros [= <-]. split; [|done]. split; [unfold NamespaceIDSize; simpl; lia|done].
    + intros [= <-]. split; [|done]. split; [unfold NamespaceIDSize; simpl; lia|done].
  - set (d := take 10 (Sha256.sum256 s)). assert (Hd : (length d <= 10)%nat) by (unfold d; rewrite length_take; lia).
    unfold NamespaceFromString, NewNamespaceV0. fold d.
    destruct (Z.ltb_spec NamespaceVersionZeroDataSize (zlen d)) as [Hlt|_]; [unfold zlen, NamespaceVersionZeroDataSize in Hlt; lia|].
    eexists. split; [done|]. set (m := MkNamespace _ _).
    assert (Hv : IsValidForVersion0 m = true).
    { reflexivity. }
    split; [done|]. apply from_bytes_ok. split; [|done]. unfold m. cbn [ns_ID]. rewrite length_take, !length_app, !length_replicate.
    unfold NamespaceIDSize, NamespaceVersionZeroPrefixSize. lia.
Qed.
End DANamespace.
