(* ===== verification/DASubmitter.v ===== *)
(** * Submission to the DA layer ([block/internal/da/client.go],
    [block/internal/submitting/da_submitter.go], [pkg/da/selector.go])

    [Submit] hands blobs to the DA node and maps its errors to status codes.
    [submitToDA] sends a size-capped prefix of the pending items, retries with
    backoff, halves a batch that is too big, and after each success records the
    inclusion in the cache. Envelopes are signed (by a pool of workers) and
    cached by height. The JSON encoder, the libraries that build blobs, the
    signer and the P2P stores that take DA hints are classes. *)

From S2P Require Import Prelude Sha256 Datastore Types Serialization Store StoreFacts StoreAPI.
From S2P Require Import BlockCache Pending CacheManager DAClient.
From stdpp Require Import base gmap strings list numbers.
Open Scope Z_scope.

Abbreviation DefaultMaxBlobSize := DAClient.DefaultMaxBlobSize.

(** ** The client's write path *)

(** An error of the RPC: whether [errors.Is(err, context.Canceled)], and its text. *)
Record rpcError := MkRpcError { err_canceled : bool; err_text : string }.

Class BlobSubmit (W : Type) := {
  (** [namespace.ValidateForBlob], [libshare.NewBlob], [inclusion.CreateCommitment]. *)
  ns_ValidateForBlob : bytes -> res string unit;
  lib_NewBlob : bytes -> bytes -> res string unit;
  lib_CreateCommitment : bytes -> bytes -> res string bytes;
  (** [json.Unmarshal] accepts the options. *)
  options_parse : bytes -> bool;
  (** [submitter.Submit(blobs, options)] for blobs of a namespace: the DA height. *)
  rpc_Submit : bytes -> list rpcBlob -> bytes -> M W rpcError Z
}.

(** A blob of a namespace is in the DA block at a height. *)
Definition on_da {W} `{BlobRPC W} (w : W) (ns : bytes) (h : Z) (b : bytes) : Prop :=
  exists l, da_block w ns h = Some l /\ b ∈ l.

Class BlobSubmitLaws (W : Type) `{BlobRPC W} `{BlobSubmit W} := {
  Submit_law ns blobs options w :
    wp (rpc_Submit ns blobs options) (fun r w' =>
      da_extends w w' /\
      match r with
      | Ok h => is_u64 h /\ Forall (fun b => on_da w' ns h (blob_Data b)) blobs
      | Err _ => True
      end) w
}.

Record ResultSubmit := MkSubmitResult
  { sr_Code : StatusCode; sr_Message : string; sr_Height : Z; sr_SubmittedCount : Z;
    sr_BlobSize : Z; sr_IDs : list bytes; sr_Timestamp : Z }.

Definition submit_failure (code : StatusCode) (msg : string) : ResultSubmit :=
  MkSubmitResult code msg 0 0 0 [] zero_time.

(** [strings.ToLower] on ASCII. *)
Definition lower_ascii (a : Ascii.ascii) : Ascii.ascii :=
  let n := Ascii.nat_of_ascii a in
  if (Nat.leb 65 n && Nat.leb n 90)%bool then Ascii.ascii_of_nat (n + 32) else a.
Fixpoint ToLower (s : string) : string :=
  match s with EmptyString => EmptyString | String a s' => String (lower_ascii a) (ToLower s') end.

Definition submit_code (err : rpcError) : StatusCode :=
  let msg := err_text err in
  if err_canceled err then StatusContextCanceled
  else if str_contains msg "timed out waiting for tx to be included in a block"
          || str_contains msg "eviction poll timeout" then StatusNotIncludedInBlock
  else if str_contains msg "tx already in mempool" then StatusAlreadyInMempool
  else if str_contains msg "incorrect account sequence" then StatusIncorrectAccountSequence
  else if str_contains msg "blob: over size limit" || str_contains (ToLower msg) "too large"
          || str_contains msg "size exceeds maximum allowed limit" then StatusTooBig
  else if str_contains msg "context deadline" then StatusContextDeadline
  else StatusError.

Section client.
Context {W : Type} `{BlobRPC W} `{BlobSubmit W}.

Definition NewBlob (ns data : bytes) (commitment : bytes) : res string rpcBlob :=
  _ ← ns_ValidateForBlob ns;
  _ ← lib_NewBlob ns data;
  com ← (if 0 <? zlen commitment then Ok commitment else lib_CreateCommitment ns data);
  Ok (MkBlob data com).

Definition NewBlobV0 (ns data : bytes) : res string rpcBlob := NewBlob ns data [].

(** The loop that builds the blobs, or the result that it returns early. *)
Fixpoint build_blobs (ns : bytes) (data : list bytes) : res ResultSubmit (list rpcBlob) :=
  match data with
  | [] => Ok []
  | raw :: data' =>
      if DefaultMaxBlobSize <? zlen raw then Err (submit_failure StatusTooBig "blob: over size limit") else
      match NewBlobV0 ns raw with
      | Err e => Err (submit_failure StatusError ("failed to build blob: " +:+ e))
      | Ok b => bs ← build_blobs ns data'; Ok (b :: bs)
      end
  end.

Definition blob_size (data : list bytes) : Z := foldl (fun n b => add64 n (zlen b)) 0 data.

Definition Submit {E} (data : list bytes) (namespace options : bytes) : M (client W) E ResultSubmit :=
  let blobSize := blob_size data in
  if negb (namespace_valid namespace) then mret (submit_failure StatusError "invalid namespace") else
  match build_blobs namespace data with
  | Err result => mret result
  | Ok blobs =>
      if (0 <? zlen options) && negb (options_parse options)
      then mret (submit_failure StatusError "failed to parse submit options") else
      r ← attempt (rpc (rpc_Submit namespace blobs options));
      match r with
      | Err err =>
          t ← now;
          mret (MkSubmitResult (submit_code err) ("failed to submit blobs: " +:+ err_text err) 0 0 blobSize [] t)
      | Ok height =>
          if zlen blobs =? 0 then mret (MkSubmitResult StatusSuccess "" height 0 blobSize [] zero_time) else
          let ids := (fun b => MakeID height (blob_Commitment b)) <$> blobs in
          t ← now;
          mret (MkSubmitResult StatusSuccess "" height (zlen ids) blobSize ids t)
      end
  end.

End client.

(** ** Retry policy *)

Definition initialBackoff : Z := 100 * millisecond.

Record retryPolicy := MkPolicy { MaxAttempts : Z; MinBackoff : Z; MaxBackoff : Z; MaxBlobBytes : Z }.

Definition defaultRetryPolicy (maxAttempts maxDuration : Z) : retryPolicy :=
  MkPolicy maxAttempts initialBackoff maxDuration DefaultMaxBlobSize.

Record retryState := MkRetry { Attempt : Z; Backoff : Z }.

Inductive retryReason := reasonUndefined | reasonFailure | reasonMempool | reasonSuccess | reasonTooBig.

Definition clamp (v minTime maxTime : Z) : Z :=
  let '(minTime, maxTime) := if maxTime <? minTime then (maxTime, minTime) else (minTime, maxTime) in
  if v <? minTime then minTime else if maxTime <? v then maxTime else v.

Definition Next (reason : retryReason) (pol : retryPolicy) (rs : retryState) : retryState :=
  let backoff :=
    match reason with
    | reasonSuccess => MinBackoff pol
    | reasonMempool => MaxBackoff pol
    | reasonFailure | reasonTooBig =>
        clamp (if Backoff rs =? 0 then MinBackoff pol else i64 (Backoff rs * 2)) (MinBackoff pol) (MaxBackoff pol)
    | reasonUndefined => 0
    end in
  MkRetry (Attempt rs + 1) backoff.

(** ** Batches *)

Inductive sub_error :=
| ErrOversizedItem
| SubCanceled
| SubMsg (msg : string)
| SubTypes (e : terror)
| SubStore (e : store_error)
| SubCache (e : cache_error)
(** A slice bound or index out of range. *)
| SubPanic.

Fixpoint limit_loop (i : nat) (marshaled : list bytes) (maxBytes total : Z) (count : nat) : res sub_error nat :=
  match marshaled with
  | [] => Ok count
  | b :: marshaled' =>
      let sz := zlen b in
      if maxBytes <? sz then (if Nat.eqb i 0 then Err ErrOversizedItem else Ok count)
      else if maxBytes <? add64 total sz then Ok count
      else limit_loop (S i) marshaled' maxBytes (add64 total sz) (S count)
  end.

Definition limitBatchBySize {T} (items : list T) (marshaled : list bytes) (maxBytes : Z)
  : res sub_error (list T * list bytes) :=
  count ← limit_loop 0 (take (length items) marshaled) maxBytes 0 0;
  if Nat.eqb count 0 then Err (SubMsg "no items fit") else Ok (take count items, take count marshaled).

(** ** Addresses and options *)

(** [NoOpSelector] is the empty list of addresses. *)
Record AddressSelector := MkSelector { addresses : list string; counter : Z }.

Definition selector_Next (s : AddressSelector) : string * AddressSelector :=
  match addresses s with
  | [] => (EmptyString, s)
  | [a] => (a, s)
  | _ =>
      (nth (Z.to_nat (counter s mod zlen (addresses s))) (addresses s) EmptyString,
       MkSelector (addresses s) (add64 (counter s) 1))
  end.

(** [encoding/json] on a map with opaque values. *)
Class Json := {
  json_Unmarshal : bytes -> option (gmap string bytes);
  json_Marshal : gmap string bytes -> res string bytes;
  json_String : string -> bytes
}.

Definition mergeSubmitOptions `{Json} (baseOptions : bytes) (signingAddress : string) : res sub_error bytes :=
  if bool_decide (signingAddress = EmptyString) then Ok baseOptions else
  let optionsMap := if 0 <? zlen baseOptions then default ∅ (json_Unmarshal baseOptions) else ∅ in
  match json_Marshal (<["signer_address" := json_String signingAddress]> optionsMap) with
  | Err e => Err (SubMsg ("failed to marshal submit options: " +:+ e))
  | Ok b => Ok b
  end.

(** ** Signers, hints and the schedule of the workers *)

Class SignerAPI (SG PK : Type) := {
  sg_Sign : bytes -> M SG string bytes;
  sg_GetPublic : M SG string PK;
  sg_GetAddress : M SG string bytes
}.

Class DAHints (HA : Type) := {
  AppendHeaderHint : Z -> list Z -> M HA string unit;
  AppendDataHint : Z -> list Z -> M HA string unit
}.

(** The order in which the workers of a pool finish their jobs. *)
Class WorkerOrder := { finish_order : list nat -> list nat }.
Class WorkerOrderLaws `{WorkerOrder} := { finish_order_perm l : finish_order l ≡ₚ l }.

Record DASubmitter (W HA : Type) (C : Type -> Type) := MkDASubmitter
  { das_client : client W;
    namespaceBz : bytes;
    dataNamespaceBz : bytes;
    SubmitOptions : bytes;
    MaxSubmitAttempts : Z;
    DABlockTime : Z;
    das_selector : AddressSelector;
    (** [nil] when the cache could not be created. *)
    envelopeCache : option (C bytes);
    lastSubmittedHeight : Z;
    signingWorkers : Z;
    das_hints : HA }.
Arguments MkDASubmitter {W HA C}.
Arguments das_client {W HA C}.
Arguments namespaceBz {W HA C}.
Arguments dataNamespaceBz {W HA C}.
Arguments SubmitOptions {W HA C}.
Arguments MaxSubmitAttempts {W HA C}.
Arguments DABlockTime {W HA C}.
Arguments das_selector {W HA C}.
Arguments envelopeCache {W HA C}.
Arguments lastSubmittedHeight {W HA C}.
Arguments signingWorkers {W HA C}.
Arguments das_hints {W HA C}.

Definition DefaultEnvelopeCacheSize : Z := 10000.
Definition signingWorkerPoolSize : Z := 0.

(** [gomaxprocs] is [runtime.GOMAXPROCS(0)]; the LRU of a positive size is created. *)
Definition NewDASubmitter {W HA C} `{LRU C} (cl : client W) (headerNamespace dataNamespace options : bytes)
  (maxSubmitAttempts blockTime : Z) (signingAddresses : list string) (gomaxprocs : Z) (hints : HA) : DASubmitter W HA C :=
  let workers := signingWorkerPoolSize in
  let workers := if (workers <=? 0) || (gomaxprocs <? workers) then gomaxprocs else workers in
  MkDASubmitter cl headerNamespace dataNamespace options maxSubmitAttempts blockTime (MkSelector signingAddresses 0)
    (Some (lru_New DefaultEnvelopeCacheSize)) 0 workers hints.

(** The submitter with what its methods are given: the cache manager and the
    signer, which may be nil. *)
Record SubState (ST PK W HA SG : Type) (C : Type -> Type) := MkSubState
  { das : DASubmitter W HA C;
    mgr : Manager ST PK C;
    sgn : option SG }.
Arguments MkSubState {ST PK W HA SG C}.
Arguments das {ST PK W HA SG C}.
Arguments mgr {ST PK W HA SG C}.
Arguments sgn {ST PK W HA SG C}.

Section submitter.
Context {ST PK W HA SG : Type} {C : Type -> Type}.
Context `{BlockStore ST PK} `{LRU C} `{BlobRPC W} `{BlobSubmit W} `{Json} `{DAHints HA} `{SignerAPI SG PK}.
Context `{WorkerOrder} `{PubKeys PK} `{Wire}.
Context `{HashText}.
Context `{ProtoMsg pbVersion, ProtoMsg pbHeader, ProtoMsg pbSignedHeader, ProtoMsg pbMetadata, ProtoMsg pbData,
          ProtoMsg pbSignedData, ProtoMsg pbDAHeaderEnvelope}.

Abbreviation S := (SubState ST PK W HA SG C).
Abbreviation D := (DASubmitter W HA C).
Definition DM (A : Type) : Type := M S sub_error A.

Definition set_das x (s : S) : S := MkSubState x (mgr s) (sgn s).
Definition set_mgr x (s : S) : S := MkSubState (das s) x (sgn s).
Definition set_sgn x (s : S) : S := MkSubState (das s) (mgr s) x.

Definition set_das_client x (d : D) : D :=
  MkDASubmitter x (namespaceBz d) (dataNamespaceBz d) (SubmitOptions d) (MaxSubmitAttempts d) (DABlockTime d)
    (das_selector d) (envelopeCache d) (lastSubmittedHeight d) (signingWorkers d) (das_hints d).
Definition set_das_selector x (d : D) : D :=
  MkDASubmitter (das_client d) (namespaceBz d) (dataNamespaceBz d) (SubmitOptions d) (MaxSubmitAttempts d)
    (DABlockTime d) x (envelopeCache d) (lastSubmittedHeight d) (signingWorkers d) (das_hints d).
Definition set_envelopeCache x (d : D) : D :=
  MkDASubmitter (das_client d) (namespaceBz d) (dataNamespaceBz d) (SubmitOptions d) (MaxSubmitAttempts d)
    (DABlockTime d) (das_selector d) x (lastSubmittedHeight d) (signingWorkers d) (das_hints d).
Definition set_lastSubmittedHeight x (d : D) : D :=
  MkDASubmitter (das_client d) (namespaceBz d) (dataNamespaceBz d) (SubmitOptions d) (MaxSubmitAttempts d)
    (DABlockTime d) (das_selector d) (envelopeCache d) x (signingWorkers d) (das_hints d).
Definition set_das_hints x (d : D) : D :=
  MkDASubmitter (das_client d) (namespaceBz d) (dataNamespaceBz d) (SubmitOptions d) (MaxSubmitAttempts d)
    (DABlockTime d) (das_selector d) (envelopeCache d) (lastSubmittedHeight d) (signingWorkers d) x.

Definition on_client {A} (m : M (client W) sub_error A) : DM A :=
  zoom (fun s => das_client (das s)) (fun c s => set_das (set_das_client c (das s)) s) m.
Definition on_hints {A} (m : M HA string A) : DM (res string A) :=
  attempt (zoom (fun s => das_hints (das s)) (fun h s => set_das (set_das_hints h (das s)) s) m).
(** A call of the cache; its errors are logged by the cache itself. *)
Definition on_cache (m : MM (ST := ST) (PK := PK) (C := C) unit) : DM unit :=
  _ ← attempt (zoom mgr set_mgr m); mret tt.

(** ** The retry loop *)

(** [items[:n]] and [items[n:]]. Out of range they panic; a slice expression
    below the capacity would not, but the counts given are at most the length. *)
Definition split_at {A} (n : Z) (l : list A) : res sub_error (list A * list A) :=
  if (n <? 0) || (zlen l <? n) then Err SubPanic else Ok (take (Z.to_nat n) l, drop (Z.to_nat n) l).

(** [waitForBackoffOrContext]. *)
Definition waitForBackoffOrContext (backoff : Z) : DM unit :=
  cancelled ← on_client (rpc (infallible backoff_cancelled));
  if (cancelled : bool) then throw SubCanceled else mret tt.

(** Select a signing address and submit: one attempt. *)
Definition submit_once (marshaled : list bytes) (namespace options : bytes) : DM ResultSubmit :=
  sel ← gets (fun s => selector_Next (das_selector (das s)));
  _ ← modify (fun s => set_das (set_das_selector sel.2 (das s)) s);
  mergedOptions ← lift_res (mergeSubmitOptions options sel.1);
  on_client (Submit marshaled namespace mergedOptions).

(** The loop [for rs.Attempt < pol.MaxAttempts]; [fuel] attempts are left. *)
Fixpoint submit_loop {T} (fuel : nat) (pol : retryPolicy) (rs : retryState) (items : list T) (marshaled : list bytes)
  (postSubmit : list T -> ResultSubmit -> DM unit) (namespace options : bytes) : DM unit :=
  match fuel with
  | O => throw (SubMsg "failed to submit all items to DA layer")
  | Datatypes.S fuel' =>
      _ ← waitForBackoffOrContext (Backoff rs);
      result ← submit_once marshaled namespace options;
      match sr_Code result with
      | StatusSuccess =>
          its ← lift_res (split_at (sr_SubmittedCount result) items);
          _ ← postSubmit its.1 result;
          if sr_SubmittedCount result =? zlen items then mret tt else
          bs ← lift_res (split_at (sr_SubmittedCount result) marshaled);
          submit_loop fuel' pol (Next reasonSuccess pol rs) its.2 bs.2 postSubmit namespace options
      | StatusTooBig =>
          if zlen items =? 1 then throw ErrOversizedItem else
          let half := Z.quot (zlen items) 2 in
          let half := if half =? 0 then 1 else half in
          its ← lift_res (split_at half items);
          bs ← lift_res (split_at half marshaled);
          submit_loop fuel' pol (Next reasonTooBig pol rs) its.1 bs.1 postSubmit namespace options
      | StatusNotIncludedInBlock | StatusAlreadyInMempool =>
          submit_loop fuel' pol (Next reasonMempool pol rs) items marshaled postSubmit namespace options
      | StatusContextCanceled => throw SubCanceled
      | _ => submit_loop fuel' pol (Next reasonFailure pol rs) items marshaled postSubmit namespace options
      end
  end.

Definition submitToDA {T} (items : list T) (marshaled : list bytes)
  (postSubmit : list T -> ResultSubmit -> DM unit) (namespace options : bytes) : DM unit :=
  if negb (zlen items =? zlen marshaled) then throw (SubMsg "items length does not match marshaled length") else
  d ← gets das;
  let pol := defaultRetryPolicy (MaxSubmitAttempts d) (DABlockTime d) in
  batch ← (if 0 <? zlen marshaled then lift_res (limitBatchBySize items marshaled (MaxBlobBytes pol))
           else mret (items, marshaled));
  submit_loop (Z.to_nat (MaxAttempts pol)) pol (MkRetry 0 0) batch.1 batch.2 postSubmit namespace options.

(** ** Envelopes *)

Definition getCachedEnvelope (height : Z) : DM (option bytes) :=
  d ← gets das;
  match envelopeCache d with
  | None => mret None
  | Some c =>
      if height <=? lastSubmittedHeight d then mret None else
      let '(e, c') := lru_Get height c in
      _ ← modify (fun s => set_das (set_envelopeCache (Some c') (das s)) s);
      mret e
  end.

Definition setCachedEnvelope (height : Z) (envelope : bytes) : DM unit :=
  modify (fun s =>
    match envelopeCache (das s) with
    | None => s
    | Some c =>
        if height <=? lastSubmittedHeight (das s) then s
        else set_das (set_envelopeCache (Some (lru_Add height envelope c)) (das s)) s
    end).

(** A call of the signer, which is not nil. *)
Definition on_signer {A} (m : M SG string A) : DM A := fun s =>
  match sgn s with
  | None => (Err SubPanic, s)
  | Some g => let '(r, g') := m g in (map_err SubMsg r, set_sgn (Some g') s)
  end.

Definition signAndCacheEnvelope (header : SignedHeader PK) (marshalledHeader : bytes) : DM bytes :=
  addr ← on_signer sg_GetAddress;
  if (0 <? slen (s_Address (sh_Signer header))) && negb (bytes_eqb addr (sl (s_Address (sh_Signer header))))
  then throw (SubMsg "envelope signer address mismatch") else
  envelopeSignature ← on_signer (sg_Sign marshalledHeader);
  envelope ← lift_res (map_err SubTypes (MarshalDAEnvelope (Some envelopeSignature) header));
  _ ← setCachedEnvelope (Header_Height (sh_Header header)) envelope;
  mret envelope.

(** [headers[i]]. *)
Definition nth_or_panic {A} (l : list A) (i : nat) : res sub_error A :=
  match l !! i with Some a => Ok a | None => Err SubPanic end.

Definition sign_job (headers : list (SignedHeader PK)) (blobs : list bytes) (i : nat) : DM bytes :=
  header ← lift_res (nth_or_panic headers i);
  b ← lift_res (nth_or_panic blobs i);
  signAndCacheEnvelope header b.

(** The first pass: the cached envelopes, and the indices without one. *)
Fixpoint cached_envelopes (i : nat) (headers : list (SignedHeader PK)) (envelopes : list (option bytes))
  (needSigning : list nat) : DM (list (option bytes) * list nat) :=
  match headers with
  | [] => mret (envelopes, needSigning)
  | header :: headers' =>
      cached ← getCachedEnvelope (Header_Height (sh_Header header));
      match cached with
      | Some e => cached_envelopes (Datatypes.S i) headers' (envelopes ++ [Some e]) needSigning
      | None => cached_envelopes (Datatypes.S i) headers' (envelopes ++ [None]) (needSigning ++ [i])
      end
  end.

Fixpoint sign_sequential (headers : list (SignedHeader PK)) (blobs : list bytes) (idxs : list nat)
  (envelopes : list (option bytes)) : DM (list (option bytes)) :=
  match idxs with
  | [] => mret envelopes
  | i :: idxs' =>
      envelope ← sign_job headers blobs i;
      sign_sequential headers blobs idxs' (<[i := Some envelope]> envelopes)
  end.

(** The pool signs every job; the first error that comes back is reported. *)
Fixpoint sign_pool (headers : list (SignedHeader PK)) (blobs : list bytes) (idxs : list nat)
  (envelopes : list (option bytes)) (firstErr : option sub_error) : DM (list (option bytes)) :=
  match idxs with
  | [] => match firstErr with Some e => throw e | None => mret envelopes end
  | i :: idxs' =>
      r ← attempt (sign_job headers blobs i);
      match r with
      | Ok envelope => sign_pool headers blobs idxs' (<[i := Some envelope]> envelopes) firstErr
      | Err e => sign_pool headers blobs idxs' envelopes (match firstErr with Some e0 => Some e0 | None => Some e end)
      end
  end.

Definition signEnvelopesParallel (headers : list (SignedHeader PK)) (blobs : list bytes)
  (envelopes : list (option bytes)) (needSigning : list nat) : DM (list (option bytes)) :=
  sign_pool headers blobs (finish_order needSigning) envelopes None.

Definition createDAEnvelopes (headers : list (SignedHeader PK)) (blobs : list bytes) : DM (list bytes) :=
  p ← cached_envelopes 0 headers [] [];
  let '(envelopes, needSigning) := p in
  workers ← gets (fun s => signingWorkers (das s));
  envelopes ←
    (if zlen needSigning =? 0 then mret envelopes
     else if (zlen needSigning <=? 2) || (workers <=? 1) then sign_sequential headers blobs needSigning envelopes
     else signEnvelopesParallel headers blobs envelopes needSigning);
  mret (default [] <$> envelopes).

(** ** Headers *)

Definition header_hash_string (header : SignedHeader PK) : string :=
  hash_String (sl (Header_Hash (Some (sh_Header header)))).

Definition header_posted (submitted : list (SignedHeader PK)) (result : ResultSubmit) : DM unit :=
  _ ← for_each submitted (fun header =>
        modify (fun s => set_mgr (SetHeaderDAIncluded (header_hash_string header) (sr_Height result)
                                    (Header_Height (sh_Header header)) (mgr s)) s));
  _ ← on_hints (AppendHeaderHint (sr_Height result) ((fun h => Header_Height (sh_Header h)) <$> submitted));
  match list.last submitted with
  | None => mret tt
  | Some header =>
      let lastHeight := Header_Height (sh_Header header) in
      _ ← on_cache (SetLastSubmittedHeaderHeight lastHeight);
      modify (fun s => set_das (set_lastSubmittedHeight lastHeight (das s)) s)
  end.

Definition SubmitHeaders (headers : list (SignedHeader PK)) (marshalledHeaders : list bytes) : DM unit :=
  if zlen headers =? 0 then mret tt else
  sg ← gets sgn;
  match sg with
  | None => throw (SubMsg "signer is nil")
  | Some _ =>
      if negb (zlen marshalledHeaders =? zlen headers)
      then throw (SubMsg "marshalledHeaders length does not match headers length") else
      envelopes ← createDAEnvelopes headers marshalledHeaders;
      d ← gets das;
      submitToDA headers envelopes header_posted (namespaceBz d) (SubmitOptions d)
  end.

(** ** Data *)

(** Empty data is skipped. The signed data and its encoding. *)
Fixpoint sign_each (signerInfo : Signer PK) (unsignedDataList : list (SignedData PK)) (blobs : list bytes)
  : DM (list (SignedData PK) * list bytes) :=
  match unsignedDataList with
  | [] => mret ([], [])
  | unsignedData :: rest =>
      if zlen (data_txs (sd_Data unsignedData)) =? 0 then sign_each signerInfo rest (tail blobs) else
      b ← lift_res (nth_or_panic blobs 0);
      signature ← on_signer (sg_Sign b);
      let signedData := MkSignedData (sd_Data unsignedData) (Some signature) signerInfo in
      signedDataBz ← lift_res (map_err SubTypes (SignedData_MarshalBinary signedData));
      p ← sign_each signerInfo rest (tail blobs);
      mret (signedData :: p.1, signedDataBz :: p.2)
  end.

Definition signData (unsignedDataList : list (SignedData PK)) (unsignedDataListBz : list bytes)
  : DM (list (SignedData PK) * list bytes) :=
  sg ← gets sgn;
  match sg with
  | None => throw (SubMsg "signer is nil")
  | Some _ =>
      pubKey ← on_signer sg_GetPublic;
      addr ← on_signer sg_GetAddress;
      sign_each (MkSigner (Some pubKey) (Some addr) None) unsignedDataList unsignedDataListBz
  end.

Definition data_hash_string (sd : SignedData PK) : string := hash_String (DACommitment (sd_Data sd)).

(** [sd.Height()], which panics without metadata. *)
Definition sd_Height (sd : SignedData PK) : DM Z := lift_res (map_err (fun _ => SubPanic) (Data_Height (sd_Data sd))).

(** The heights in the order of the items, each recorded as included. *)
Fixpoint include_data (daHeight : Z) (submitted : list (SignedData PK)) : DM (list Z) :=
  match submitted with
  | [] => mret []
  | sd :: submitted' =>
      h ← sd_Height sd;
      _ ← modify (fun s => set_mgr (SetDataDAIncluded (data_hash_string sd) daHeight h (mgr s)) s);
      heights ← include_data daHeight submitted';
      mret (h :: heights)
  end.

Definition data_posted (submitted : list (SignedData PK)) (result : ResultSubmit) : DM unit :=
  heights ← include_data (sr_Height result) submitted;
  _ ← on_hints (AppendDataHint (sr_Height result) heights);
  match list.last submitted with
  | None => mret tt
  | Some sd =>
      lastHeight ← sd_Height sd;
      on_cache (SetLastSubmittedDataHeight lastHeight)
  end.

Definition SubmitData (unsignedDataList : list (SignedData PK)) (marshalledData : list bytes) : DM unit :=
  if zlen unsignedDataList =? 0 then mret tt else
  if negb (zlen marshalledData =? zlen unsignedDataList)
  then throw (SubMsg "marshalledData length does not match unsignedDataList length") else
  p ← signData unsignedDataList marshalledData;
  let '(signedDataList, signedDataListBz) := p in
  if zlen signedDataList =? 0 then mret tt else
  d ← gets das;
  submitToDA signedDataList signedDataListBz data_posted (dataNamespaceBz d) (SubmitOptions d).

End submitter.
