(* ===== verification/DASubmitterFacts.v ===== *)
(** * What the DA submitter records is on the DA layer

    A successful [Submit] puts every blob on the DA chain. [submitToDA] posts a
    prefix of the items that fits the size limit, or nothing. Together with the
    signed envelopes this gives the theorem on [SubmitHeaders]: the heights that
    the cache records as included, and those that the last submitted height
    passes, are heights of headers whose envelope is on the DA layer at the
    recorded DA height and decodes to the header with a valid signature. *)

From S2P Require Import Prelude Sha256 Datastore Types Serialization SerializationFacts Store StoreFacts StoreAPI.
From S2P Require Import BlockCache Pending PendingFacts CacheManager DAClient DASubmitter.
From stdpp Require Import base gmap strings list numbers.
Open Scope Z_scope.

(** ** Batches *)

Definition total_size (l : list bytes) : Z := foldr (fun b n => zlen b + n) 0 l.

Lemma total_size_nonneg l : 0 <= total_size l.
Proof. induction l as [|b l IH]; simpl; [lia|]. pose proof (Nat2Z.is_nonneg (length b)). unfold zlen. lia. Qed.

(** The loop counts blobs as long as their total stays within the limit. *)
Lemma limit_loop_spec marshaled : forall i maxBytes total count,
  0 <= total <= maxBytes -> maxBytes < two64 / 2 ->
  match limit_loop i marshaled maxBytes total count with
  | Ok n => exists k, (n = count + k)%nat /\ (k <= length marshaled)%nat /\
              total + total_size (take k marshaled) <= maxBytes /\
              (forall b, marshaled !! k = Some b -> maxBytes < total + total_size (take k marshaled) + zlen b) /\
              (i = O -> forall b, head marshaled = Some b -> zlen b <= maxBytes)
  | Err e => e = ErrOversizedItem /\ i = O /\ exists b, head marshaled = Some b /\ maxBytes < zlen b
  end.
Proof.
  induction marshaled as [|b marshaled IH]; intros i maxBytes total count Ht Hm; cbn [limit_loop].
  { exists O. simpl. split_and!; try lia; done. }
  assert (Hb : 0 <= zlen b) by (unfold zlen; lia).
  destruct (Z.ltb_spec maxBytes (zlen b)) as [Hsz|Hsz].
  { destruct (Nat.eqb_spec i 0); [split_and!; [done..|by exists b]|].
    exists O. simpl. split_and!; [lia..| |done]. intros ? [= <-]. lia. }
  change (two64 / 2) with 9223372036854775808 in Hm.
  rewrite add64_small by (unfold two64; lia).
  destruct (Z.ltb_spec maxBytes (total + zlen b)).
  { exists O. simpl. split_and!; [lia..| |]; intros; simplify_eq; lia. }
  specialize (IH (S i) maxBytes (total + zlen b) (S count) ltac:(lia) ltac:(done)).
  destruct (limit_loop _ _ _ _ _) as [n|e]; [|naive_solver].
  destruct IH as (k & -> & Hk & Htot & Hstop & _). exists (S k). simpl. split_and!; [lia..| |].
  - intros b' Hb'. specialize (Hstop b' Hb'). lia.
  - intros _ b' [= <-]. lia.
Qed.

(** [limitBatchBySize] returns the longest non-empty prefix that fits, and
    fails only on a first item that does not. *)
Lemma limitBatchBySize_spec {T} (items : list T) marshaled maxBytes :
  length items = length marshaled -> 0 <= maxBytes < two64 / 2 ->
  match limitBatchBySize items marshaled maxBytes with
  | Ok (its, bs) => exists k, (0 < k <= length items)%nat /\ its = take k items /\ bs = take k marshaled /\
              total_size bs <= maxBytes /\
              (forall b, marshaled !! k = Some b -> maxBytes < total_size bs + zlen b)
  | Err e => items = [] \/ (e = ErrOversizedItem /\ exists b, head marshaled = Some b /\ maxBytes < zlen b)
  end.
Proof.
  intros Hl Hm. unfold limitBatchBySize. rewrite Hl, take_ge by done.
  pose proof (limit_loop_spec marshaled 0 maxBytes 0 0 ltac:(lia) ltac:(lia)) as Hsp.
  destruct (limit_loop _ _ _ _ _) as [n|e]; cbn [mbind res_bind]; [|naive_solver].
  destruct Hsp as (k & -> & Hk & Htot & Hstop & Hfirst). cbn [Nat.add].
  destruct (Nat.eqb_spec k 0) as [->|Hk0].
  - destruct marshaled as [|b marshaled]; [left; by destruct items|].
    specialize (Hstop b eq_refl). specialize (Hfirst eq_refl b eq_refl). simpl in Hstop. lia.
  - exists k. split_and!; try done; lia.
Qed.

(** ** One submission *)

(** The client after a call: its configuration and cache are the same and the
    DA chain has grown. *)
Definition client_step {W} `{BlobRPC W} (c c' : client W) : Prop :=
  da_extends (api c) (api c') /\ timestampCache c' = timestampCache c /\
  hasForcedNamespace c' = hasForcedNamespace c /\ forcedNamespaceBz c' = forcedNamespaceBz c.

#[export] Instance client_step_preorder {W} `{BlobRPC W} : PreOrder client_step.
Proof.
  unfold client_step. split; [by intros c|]. intros c1 c2 c3 (? & ? & ? & ?) (? & ? & ? & ?).
  split_and!; try congruence. by transitivity (api c2).
Qed.

Lemma client_step_api {W} `{BlobRPC W} (c c' : client W) w :
  da_extends (api c) w -> client_step (set_api w c) c' -> client_step c c'.
Proof. unfold client_step. intros Hw (He & ? & ? & ?). split_and!; try done. by transitivity w. Qed.

Lemma on_da_extends {W} `{BlobRPC W} (w w' : W) ns h b : da_extends w w' -> on_da w ns h b -> on_da w' ns h b.
Proof. intros [Hb _] (l & Hl & Hin). exists l. auto. Qed.

Section submit.
Context {W : Type} `{BlobRPCLaws W} `{!BlobSubmit W} `{!BlobSubmitLaws W}.

Lemma build_blobs_data ns data blobs : build_blobs ns data = Ok blobs -> blob_Data <$> blobs = data.
Proof.
  revert blobs. induction data as [|raw data IH]; intros blobs; cbn [build_blobs]; [by intros [= <-]|].
  destruct (_ <? _); [done|]. unfold NewBlobV0, NewBlob.
  destruct (ns_ValidateForBlob ns); [|done]. destruct (lib_NewBlob ns raw); [|done]. cbn [mbind res_bind].
  destruct (if 0 <? zlen [] then _ else _) as [com|]; [|done]. cbn [mbind res_bind].
  destruct (build_blobs ns data) as [bs|]; [|done]. cbn [mbind res_bind]. intros [= <-]. simpl. by rewrite IH.
Qed.

Lemma build_blobs_code ns data result : build_blobs ns data = Err result -> sr_Code result <> StatusSuccess.
Proof.
  revert result. induction data as [|raw data IH]; intros result; cbn [build_blobs]; [done|].
  destruct (_ <? _); [by intros [= <-]|]. destruct (NewBlobV0 ns raw); [|by intros [= <-]].
  destruct (build_blobs ns data) as [bs|]; cbn [mbind res_bind]; [done|]. intros [= <-]. by apply IH.
Qed.

Lemma submit_code_not_success err : submit_code err <> StatusSuccess.
Proof. unfold submit_code. by repeat (destruct (_ : bool); [done|]). Qed.

(** A result with [StatusSuccess] says that every blob is on the DA chain. *)
Definition submit_sound (data : list bytes) (ns : bytes) (result : ResultSubmit) (w : W) : Prop :=
  sr_Code result = StatusSuccess ->
  is_u64 (sr_Height result) /\ sr_SubmittedCount result = zlen data /\ Forall (on_da w ns (sr_Height result)) data.

Lemma wp_rpc {E A} (m : M W E A) (Q : res E A -> client W -> Prop) c :
  wp m (fun r w => Q r (set_api w c)) (api c) -> wp (rpc m) Q c.
Proof. intros Hm. by apply wp_zoom. Qed.

Lemma wp_now {E} (Q : res E Z -> client W -> Prop) c :
  (forall t c', client_step c c' -> Q (Ok t) c') -> wp now Q c.
Proof.
  intros HQ. apply wp_rpc, wp_infallible. apply HQ. eapply client_step_api; [apply Now_law|done].
Qed.

Lemma Submit_spec {E} data ns options c :
  wp (Submit data ns options : M _ E _) (fun r c' => client_step c c' /\
    exists result, r = Ok result /\ submit_sound data ns result (api c')) c.
Proof.
  unfold Submit. destruct (negb (namespace_valid ns)); [apply wp_ret; split; [done|by eexists]|].
  destruct (build_blobs ns data) as [blobs|result] eqn:Hb; cycle 1.
  { apply wp_ret. split; [done|]. exists result. split; [done|]. intros Hc. by apply build_blobs_code in Hb. }
  destruct (_ && _); [apply wp_ret; split; [done|by eexists]|].
  apply wp_bind, wp_attempt, wp_rpc. eapply wp_mono; [apply Submit_law|].
  intros [height|err] w' [Hext Hr]; cbn beta iota.
  - apply build_blobs_data in Hb. destruct Hr as [Hu Hr].
    assert (Hr' : Forall (on_da w' ns height) data) by (by rewrite <- Hb, Forall_fmap).
    destruct (Z.eqb_spec (zlen blobs) 0) as [Hz|Hz].
    + apply wp_ret. split; [by eapply client_step_api|]. eexists. split; [done|]. intros _. simpl.
      split_and!; [by destruct Hu..| |done]. rewrite <- Hb. unfold zlen in *. by rewrite length_fmap.
    + apply wp_bind, wp_now. intros t c' Hst. apply wp_ret. split; [by eapply client_step_api|].
      eexists. split; [done|]. intros _. simpl. split_and!; [by destruct Hu..| |].
      * rewrite <- Hb. unfold zlen. by rewrite !length_fmap.
      * eapply list.Forall_impl; [exact Hr'|]. intros b. by apply on_da_extends, Hst.
  - apply wp_bind, wp_now. intros t c' Hst. apply wp_ret. split; [by eapply client_step_api|].
    eexists. split; [done|]. intros Hc. by apply submit_code_not_success in Hc.
Qed.

End submit.

Section submitter.
Context {ST PK W HA SG : Type} {C : Type -> Type}.
Context `{BlockStoreLaws ST PK} `{LRULaws C} `{BlobRPCLaws W} `{!BlobSubmit W} `{!BlobSubmitLaws W}.
Context `{Json} `{DAHints HA} `{SignerAPI SG PK} `{WorkerOrderLaws} `{Wire}.
Context `{HashText}.
Context `{ProtoMsg pbVersion, ProtoMsg pbHeader, ProtoMsg pbSignedHeader, ProtoMsg pbMetadata, ProtoMsg pbData,
          ProtoMsg pbSignedData, ProtoMsg pbDAHeaderEnvelope}.
Abbreviation S := (SubState ST PK W HA SG C).

(** The world as the submitter sees it. *)
Definition world (s : S) : W := api (das_client (das s)).

(** What the attempts before a success may change. *)
Definition sub_step (s s' : S) : Prop :=
  mgr s' = mgr s /\ sgn s' = sgn s /\ client_step (das_client (das s)) (das_client (das s')) /\
  exists sel c, das s' = set_das_selector sel (set_das_client c (das s)).

#[export] Instance sub_step_preorder : PreOrder sub_step.
Proof.
  split.
  - intros s. split_and!; try done. exists (das_selector (das s)), (das_client (das s)). by destruct s as [[]].
  - intros s1 s2 s3 (Hm & Hg & Hc & x & c & Hd) (Hm' & Hg' & Hc' & x' & c' & Hd').
    split_and!; [congruence..|by transitivity (das_client (das s2))|]. exists x', c'. by rewrite Hd', Hd.
Qed.

Lemma wp_on_client {A} (m : M (client W) sub_error A) (Q : res sub_error A -> S -> Prop) s :
  wp m (fun r c => client_step (das_client (das s)) c /\
    forall s', sub_step s s' -> world s' = api c -> Q r s') (das_client (das s)) ->
  wp (on_client m) Q s.
Proof.
  intros Hm. apply wp_zoom. eapply wp_mono; [exact Hm|]. intros r c [Hc HQ]. apply HQ; [|done].
  split_and!; try done. exists (das_selector (das s)), c. by destruct s as [[]].
Qed.

Lemma wait_spec backoff s :
  wp (waitForBackoffOrContext (ST := ST) backoff) (fun r s' => sub_step s s') s.
Proof.
  apply wp_bind, wp_on_client, wp_rpc, wp_infallible. split.
  - eapply client_step_api; [apply backoff_law|done].
  - intros s' Hs' _. by destruct (backoff_cancelled _).1; [apply wp_throw|apply wp_ret].
Qed.

Lemma submit_once_spec marshaled ns options s :
  wp (submit_once marshaled ns options) (fun r s' => sub_step s s' /\
    match r with Ok result => submit_sound marshaled ns result (world s') | Err _ => True end) s.
Proof.
  unfold submit_once. wp_read. apply wp_bind, wp_modify.
  set (s1 := set_das _ s). assert (Hs1 : sub_step s s1).
  { split_and!; try done. eexists _, (das_client (das s)). subst s1. simpl. by destruct s as [[]]. }
  apply wp_bind, wp_lift_res. destruct (mergeSubmitOptions _ _) as [opts|e]; [|done].
  apply wp_on_client. eapply wp_mono; [apply Submit_spec|].
  intros r c (Hc & result & -> & Hr). split; [done|]. intros s' Hs' Hw. split; [by transitivity s1|].
  by rewrite Hw.
Qed.

Lemma split_at_take {A} n (l : list A) p : split_at n l = Ok p -> p = (take (Z.to_nat n) l, drop (Z.to_nat n) l).
Proof. unfold split_at. destruct (_ || _); [done|]. by intros [= <-]. Qed.

Lemma split_at_all {A} (l : list A) : split_at (zlen l) l = Ok (l, []).
Proof.
  unfold split_at. rewrite Z.ltb_irrefl. destruct (Z.ltb_spec (zlen l) 0); [unfold zlen in *; lia|].
  cbn [orb]. unfold zlen. by rewrite Nat2Z.id, firstn_all, drop_all.
Qed.

(** A result for the first [k] items: their blobs are on the DA chain. *)
Definition posted (k : nat) (marshaled : list bytes) (ns : bytes) (result : ResultSubmit) (s : S) : Prop :=
  is_u64 (sr_Height result) /\ Forall (on_da (world s) ns (sr_Height result)) (take k marshaled).

(** The loop fails having changed nothing, or hands a prefix of the items, all
    on the DA chain, to [postSubmit] and is done. *)
Lemma submit_loop_spec {T} fuel pol ns options (post : list T -> ResultSubmit -> DM unit)
  (Q : res sub_error unit -> S -> Prop) : forall rs items marshaled s,
  length items = length marshaled -> (0 < length items)%nat ->
  (forall e s', sub_step s s' -> Q (Err e) s') ->
  (forall k result s', (0 < k <= length items)%nat -> sub_step s s' -> posted k marshaled ns result s' ->
     wp (post (take k items) result) Q s') ->
  wp (submit_loop fuel pol rs items marshaled post ns options) Q s.
Proof.
  induction fuel as [|fuel IH]; intros rs items marshaled s Hl Hne Herr Hpost; cbn [submit_loop];
    [apply wp_throw; by apply Herr|].
  apply wp_bind. eapply wp_mono; [apply wait_spec|]. intros [[]|e] s1 Hs1; cbn beta iota; [|by apply Herr].
  apply wp_bind. eapply wp_mono; [apply submit_once_spec|].
  intros [result|e] s2 [Hs2 Hr]; cbn beta iota; [|apply Herr; by transitivity s1].
  assert (Hs : sub_step s s2) by (by transitivity s1).
  assert (Hret : forall rs', wp (submit_loop fuel pol rs' items marshaled post ns options) Q s2).
  { intros rs'. apply IH; try done.
    - intros e s' Hs'. apply Herr. by transitivity s2.
    - intros k r s' Hk Hs'. apply Hpost; [done|by transitivity s2]. }
  destruct (sr_Code result) eqn:Hcode; try apply Hret; [..|by apply wp_throw, Herr].
  - destruct (Hr Hcode) as (Hu & Hcount & Hda).
    assert (Hz : zlen marshaled = zlen items) by (unfold zlen; by rewrite Hl).
    rewrite Hcount, Hz, split_at_all. apply wp_bind, wp_lift_res. apply wp_bind. cbn [fst snd].
    assert (Hp : wp (post (take (length items) items) result) Q s2).
    { apply Hpost; [lia|done|]. split; [done|]. by rewrite Hl, firstn_all. }
    rewrite firstn_all in Hp. eapply wp_mono; [exact Hp|].
    intros [[]|e] s3 HQ; cbn beta iota; [|done]. rewrite Z.eqb_refl. by apply wp_ret.
  - destruct (Z.eqb_spec (zlen items) 1) as [Hone|Hone]; [by apply wp_throw, Herr|]. cbv zeta.
    set (half := if Z.quot (zlen items) 2 =? 0 then 1 else Z.quot (zlen items) 2).
    apply wp_bind, wp_lift_res. destruct (split_at half items) as [its|e] eqn:Hi; [|by apply Herr].
    apply split_at_take in Hi as ->. cbn beta iota.
    apply wp_bind, wp_lift_res. destruct (split_at half marshaled) as [bs|e] eqn:Hb; [|by apply Herr].
    apply split_at_take in Hb as ->. cbn beta iota. cbn [fst].
    assert (Hhalf : (0 < Z.to_nat half <= length items)%nat).
    { subst half. rewrite Z.quot_div_nonneg by (unfold zlen; lia). unfold zlen in *.
      destruct (Z.eqb_spec (Z.of_nat (length items) / 2) 0); [lia|].
      pose proof (Z.div_pos (Z.of_nat (length items)) 2). pose proof (Z.div_le_upper_bound (Z.of_nat (length items)) 2 (Z.of_nat (length items))). lia. }
    apply IH.
    + rewrite !length_take. lia.
    + rewrite length_take. lia.
    + intros e s' Hs'. apply Herr. by transitivity s2.
    + intros k r s' Hk Hs' Hp. rewrite length_take in Hk. rewrite take_take, Nat.min_l by lia.
      apply Hpost; [lia|by transitivity s2|]. destruct Hp as [Hp1 Hp2]. split; [done|].
      by rewrite take_take, Nat.min_l in Hp2 by lia.
Qed.

(** [submitToDA] posts a non-empty prefix within the size limit, or nothing. *)
Lemma submitToDA_spec {T} (items : list T) marshaled post ns options (Q : res sub_error unit -> S -> Prop) s :
  length items = length marshaled -> (0 < length items)%nat ->
  (forall e s', sub_step s s' -> Q (Err e) s') ->
  (forall k result s', (0 < k <= length items)%nat -> sub_step s s' -> posted k marshaled ns result s' ->
     total_size (take k marshaled) <= DefaultMaxBlobSize -> wp (post (take k items) result) Q s') ->
  wp (submitToDA items marshaled post ns options) Q s.
Proof.
  intros Hl Hne Herr Hpost. unfold submitToDA.
  destruct (Z.eqb_spec (zlen items) (zlen marshaled)) as [_|Hz]; [|unfold zlen in Hz; by rewrite Hl in Hz].
  cbn [negb]. wp_read. cbv zeta. set (pol := defaultRetryPolicy _ _). apply wp_bind.
  destruct (Z.ltb_spec 0 (zlen marshaled)); [|unfold zlen in *; lia]. apply wp_lift_res.
  pose proof (limitBatchBySize_spec items marshaled (MaxBlobBytes pol) Hl ltac:(done)) as Hsp.
  destruct (limitBatchBySize _ _ _) as [[its bs]|e]; [|by apply Herr]. cbn [fst snd].
  destruct Hsp as (n & Hn & -> & -> & Hsz & _). apply submit_loop_spec.
  - rewrite !length_take. lia.
  - rewrite length_take. lia.
  - done.
  - intros k result s' Hk Hs' [Hp1 Hp2]. rewrite length_take in Hk.
    rewrite take_take, Nat.min_l by lia. rewrite take_take, Nat.min_l in Hp2 by lia.
    apply Hpost; [lia|done|done|].
    etransitivity; [|exact Hsz]. rewrite <- (take_drop k (take n marshaled)), take_take, Nat.min_l by lia.
    clear. induction (take k marshaled) as [|b l IH]; simpl; [apply total_size_nonneg|]. lia.
Qed.

(** ** Envelopes *)

(** What a signer documents: its key does not change, it answers with that key
    and its address, and its signatures verify. *)
Class SignerLaws := {
  sg_key : SG -> PK;
  Sign_law b g : wp (sg_Sign b) (fun r g' => sg_key g' = sg_key g /\
    match r with Ok sig => pk_Verify (sg_key g) b sig = Ok true | Err _ => True end) g;
  GetPublic_law g : wp sg_GetPublic (fun r g' => sg_key g' = sg_key g /\
    match r with Ok pk => pk = sg_key g | Err _ => True end) g;
  GetAddress_law g : wp sg_GetAddress (fun r g' => sg_key g' = sg_key g /\
    match r with Ok a => KeyAddress (sg_key g) = Some a | Err _ => True end) g
}.
Context `{SignerLaws}.

(** [e] is the encoded envelope of [header] with a signature of its encoding by [pk]. *)
Definition good_envelope (pk : PK) (header : SignedHeader PK) (e : bytes) : Prop :=
  exists b sig, marshal_signed_header header = Ok b /\ pk_Verify pk b sig = Ok true /\
    MarshalDAEnvelope (Some sig) header = Ok e.

Definition Height_of (header : SignedHeader PK) : Z := Header_Height (sh_Header header).

(** Every envelope that the cache serves is one of the header of its height in [chain]. *)
Definition cache_signed (chain : Z -> option (SignedHeader PK)) (pk : PK) (d : DASubmitter W HA C) : Prop :=
  forall c h e, envelopeCache d = Some c -> lastSubmittedHeight d < h -> lru_Peek h c = Some e ->
    exists header, chain h = Some header /\ good_envelope pk header e.

Section envelopes.
Context (chain : Z -> option (SignedHeader PK)) (pk : PK).

(** Signing changes the signer, whose key stays, and the envelope cache. *)
Definition env_inv (s0 s : S) : Prop :=
  mgr s = mgr s0 /\ (exists g, sgn s = Some g /\ sg_key g = pk) /\
  (exists c, das s = set_envelopeCache c (das s0)) /\ cache_signed chain pk (das s).

Lemma wp_on_signer {A} (m : M SG string A) (P : A -> Prop) (Q : res sub_error A -> S -> Prop) s0 s :
  env_inv s0 s ->
  (forall g, sg_key g = pk -> wp m (fun r g' => sg_key g' = sg_key g /\ match r with Ok a => P a | Err _ => True end) g) ->
  (forall e s', env_inv s0 s' -> Q (Err e) s') -> (forall a s', P a -> env_inv s0 s' -> Q (Ok a) s') ->
  wp (on_signer m) Q s.
Proof.
  intros (Hm & (g & Hg & Hk) & Hd & Hc) Hsp Herr Hok. unfold wp, on_signer. rewrite Hg.
  specialize (Hsp g Hk). unfold wp in Hsp. destruct (m g) as [r g'] eqn:Hr. cbn [fst snd] in Hsp. destruct Hsp as [Hk' Hres].
  assert (Hi : env_inv s0 (set_sgn (Some g') s)).
  { split_and!; try done. exists g'. split; [done|congruence]. }
  destruct r as [a|e]; simpl; [by apply Hok|by apply Herr].
Qed.

Lemma setCachedEnvelope_spec header e s0 s :
  env_inv s0 s -> chain (Height_of header) = Some header -> good_envelope pk header e ->
  wp (setCachedEnvelope (Height_of header) e) (fun r s' => r = Ok tt /\ env_inv s0 s') s.
Proof.
  intros (Hm & Hg & (c0 & Hd) & Hc) Hch Hgood. apply wp_modify. split; [done|].
  destruct (envelopeCache (das s)) as [c|] eqn:Hec; [|split_and!; eauto].
  destruct (Z.leb_spec (Height_of header) (lastSubmittedHeight (das s))); [split_and!; eauto|].
  split_and!; try done.
  - exists (Some (lru_Add (Height_of header) e c)). simpl. by rewrite Hd.
  - intros c' h e' Hc' Hh Hp. simpl in Hc', Hh. simplify_eq. apply Peek_Add in Hp as [[-> ->]|[_ Hp]]; [by exists header|].
    by eapply Hc.
Qed.

Lemma signAndCacheEnvelope_spec header b s0 s :
  env_inv s0 s -> chain (Height_of header) = Some header -> marshal_signed_header header = Ok b ->
  wp (signAndCacheEnvelope header b) (fun r s' => env_inv s0 s' /\
    match r with Ok e => good_envelope pk header e | Err _ => True end) s.
Proof.
  intros Hi Hch Hb. unfold signAndCacheEnvelope. apply wp_bind.
  eapply (wp_on_signer _ (fun _ => True)); [exact Hi| |by intros|].
  { intros g Hk. eapply wp_mono; [apply GetAddress_law|]. by intros [] ? [? _]. }
  intros addr s1 _ Hi1. cbn beta iota. destruct (_ && _); [by apply wp_throw|]. apply wp_bind.
  eapply (wp_on_signer _ (fun sig => pk_Verify pk b sig = Ok true)); [exact Hi1| |by intros|].
  { intros g Hk. eapply wp_mono; [apply Sign_law|]. intros [] ? [? ?]; [by rewrite <- Hk|done]. }
  intros sig s2 Hsig Hi2. cbn beta iota. apply wp_bind, wp_lift_res.
  destruct (MarshalDAEnvelope (Some sig) header) as [e|] eqn:He; [|done]. cbn [map_err].
  assert (Hgood : good_envelope pk header e) by (by exists b, sig).
  apply wp_bind. eapply wp_mono; [by apply setCachedEnvelope_spec|]. intros r s3 [-> Hi3]. by apply wp_ret.
Qed.

Lemma getCachedEnvelope_spec header s0 s :
  env_inv s0 s -> chain (Height_of header) = Some header ->
  wp (getCachedEnvelope (Height_of header)) (fun r s' => env_inv s0 s' /\
    exists o, r = Ok o /\ forall e, o = Some e -> good_envelope pk header e) s.
Proof.
  intros Hi Hch. pose proof Hi as (Hm & Hg & (c0 & Hd) & Hc). unfold getCachedEnvelope. wp_read.
  destruct (envelopeCache (das s)) as [c|] eqn:Hec; [|apply wp_ret; split; [done|by eexists]].
  destruct (Z.leb_spec (Height_of header) (lastSubmittedHeight (das s))); [apply wp_ret; split; [done|by eexists]|].
  destruct (lru_Get (Height_of header) c) as [o c'] eqn:Hget.
  assert (Ho : o = lru_Peek (Height_of header) c) by (by rewrite <- Get_Peek, Hget).
  apply wp_bind, wp_modify, wp_ret. split.
  - split_and!; try done.
    + exists (Some c'). simpl. by rewrite Hd.
    + intros c'' h e Hc'' Hh Hp. simpl in Hc'', Hh. simplify_eq.
      rewrite <- (f_equal snd Hget : (lru_Get _ c).2 = c''), Peek_Get in Hp. by eapply Hc.
  - exists o. split; [done|]. intros e ->. destruct (Hc c _ e Hec ltac:(done) (eq_sym Ho)) as (hd & Hhd & ?).
    by simplify_eq.
Qed.

(** The envelopes so far: good ones, and gaps at the indices still to sign. *)
Definition filled (headers : list (SignedHeader PK)) (envelopes : list (option bytes)) (idxs : list nat) : Prop :=
  length envelopes = length headers /\
  forall i header, headers !! i = Some header ->
    match envelopes !! i with
    | Some (Some e) => good_envelope pk header e
    | Some None => i ∈ idxs
    | None => False
    end.

Lemma filled_sign headers envelopes i idxs header e :
  filled headers envelopes (i :: idxs) -> headers !! i = Some header -> good_envelope pk header e ->
  filled headers (<[i := Some e]> envelopes) idxs.
Proof.
  intros [Hl Hf] Hi Hgood. split; [by rewrite length_insert|]. intros j hd Hj. specialize (Hf j hd Hj).
  destruct (decide (j = i)) as [->|Hne].
  - rewrite list_lookup_insert_eq; [by simplify_eq|]. rewrite Hl. by eapply lookup_lt_Some.
  - rewrite list_lookup_insert_ne by done. destruct (envelopes !! j) as [[x|]|]; [done| |done].
    by apply elem_of_cons in Hf as [->|Hf].
Qed.

Lemma filled_perm headers envelopes idxs idxs' : idxs ≡ₚ idxs' -> filled headers envelopes idxs -> filled headers envelopes idxs'.
Proof.
  intros Hp [Hl Hf]. split; [done|]. intros i hd Hi. specialize (Hf i hd Hi).
  destruct (envelopes !! i) as [[x|]|]; [done|by rewrite <- Hp|done].
Qed.

Lemma filled_done headers envelopes : filled headers envelopes [] -> Forall2 (good_envelope pk) headers (default [] <$> envelopes).
Proof.
  intros [Hl Hf]. apply Forall2_same_length_lookup_2; [by rewrite length_fmap|].
  intros i hd e Hi He. specialize (Hf i hd Hi). rewrite list_lookup_fmap in He.
  destruct (envelopes !! i) as [[x|]|]; simpl in He; simplify_eq; [done|by apply not_elem_of_nil in Hf].
Qed.

Lemma filled_snoc headers envelopes idxs header o :
  filled headers envelopes idxs -> (forall e, o = Some e -> good_envelope pk header e) ->
  filled (headers ++ [header]) (envelopes ++ [o]) (match o with Some _ => idxs | None => idxs ++ [length headers] end).
Proof.
  intros [Hl Hf] Ho. split; [by rewrite !length_app, Hl|]. intros i hd Hi.
  apply lookup_app_Some in Hi as [Hi|[Hge Hi]].
  - rewrite lookup_app_l by (rewrite Hl; by eapply lookup_lt_Some). specialize (Hf i hd Hi).
    destruct (envelopes !! i) as [[x|]|]; [done| |done]. destruct o; [done|]. rewrite elem_of_app. by left.
  - apply list_lookup_singleton_Some in Hi as [Hz ->]. assert (i = length headers) as -> by lia.
    rewrite lookup_app_r by lia. rewrite Hl, Nat.sub_diag. simpl. destruct o; [by apply Ho|].
    rewrite elem_of_app, list_elem_of_singleton. by right.
Qed.

Section batch.
Context (headers : list (SignedHeader PK)) (blobs : list bytes).
Context (Hchain : Forall (fun header => chain (Height_of header) = Some header) headers).
Context (Hblobs : Forall2 (fun header b => marshal_signed_header header = Ok b) headers blobs).

Lemma cached_envelopes_spec s0 hs : forall pre envelopes idxs s,
  headers = pre ++ hs -> filled pre envelopes idxs -> env_inv s0 s ->
  wp (cached_envelopes (length pre) hs envelopes idxs) (fun r s' => env_inv s0 s' /\
    exists p, r = Ok p /\ filled headers p.1 p.2) s.
Proof.
  induction hs as [|header hs IH]; intros pre envelopes idxs s Heq Hf Hi; cbn [cached_envelopes].
  { rewrite app_nil_r in Heq. subst pre. apply wp_ret. eauto. }
  assert (Hch : chain (Height_of header) = Some header).
  { rewrite Heq in Hchain. apply Forall_app in Hchain as [_ Hh]. by inversion Hh. }
  apply wp_bind. eapply wp_mono; [by apply getCachedEnvelope_spec|].
  intros r s1 (Hi1 & o & -> & Ho). cbn beta iota. pose proof (filled_snoc _ _ _ _ o Hf Ho) as Hf'.
  assert (Hpre : headers = (pre ++ [header]) ++ hs) by (by rewrite <- app_assoc).
  replace (Datatypes.S (length pre)) with (length (pre ++ [header])) by (rewrite length_app; simpl; lia).
  by destruct o; apply IH.
Qed.

Lemma sign_job_spec i s0 s :
  env_inv s0 s ->
  wp (sign_job headers blobs i) (fun r s' => env_inv s0 s' /\
    match r with Ok e => exists header, headers !! i = Some header /\ good_envelope pk header e | Err _ => True end) s.
Proof.
  intros Hi. unfold sign_job. apply wp_bind, wp_lift_res. unfold nth_or_panic.
  destruct (headers !! i) as [header|] eqn:Hh; [|done]. apply wp_bind, wp_lift_res.
  destruct (blobs !! i) as [b|] eqn:Hb; [|done]. cbn beta iota.
  eapply wp_mono; [apply signAndCacheEnvelope_spec; [done| |]|].
  - by eapply (list.Forall_lookup_1 (fun header => chain (Height_of header) = Some header)).
  - exact (Forall2_lookup_lr _ _ _ _ _ _ Hblobs Hh Hb).
  - intros [e|e] s' [Hi' Hr]; split; try done. eauto.
Qed.

Lemma sign_sequential_spec s0 idxs : forall envelopes s,
  filled headers envelopes idxs -> env_inv s0 s ->
  wp (sign_sequential headers blobs idxs envelopes) (fun r s' => env_inv s0 s' /\
    match r with Ok envelopes' => filled headers envelopes' [] | Err _ => True end) s.
Proof.
  induction idxs as [|i idxs IH]; intros envelopes s Hf Hi; cbn [sign_sequential]; [by apply wp_ret|].
  apply wp_bind. eapply wp_mono; [by apply sign_job_spec|].
  intros [e|e] s1 [Hi1 Hr]; [|done]. destruct Hr as (header & Hh & Hgood).
  apply IH; [by eapply filled_sign|done].
Qed.

Lemma sign_pool_spec s0 idxs : forall envelopes firstErr s,
  (firstErr = None -> filled headers envelopes idxs) -> env_inv s0 s ->
  wp (sign_pool headers blobs idxs envelopes firstErr) (fun r s' => env_inv s0 s' /\
    match r with Ok envelopes' => filled headers envelopes' [] | Err _ => True end) s.
Proof.
  induction idxs as [|i idxs IH]; intros envelopes firstErr s Hf Hi; cbn [sign_pool].
  { destruct firstErr; [by apply wp_throw|apply wp_ret; auto]. }
  apply wp_bind, wp_attempt. eapply wp_mono; [by apply sign_job_spec|].
  intros [e|e] s1 [Hi1 Hr]; cbn beta iota; apply IH; try done.
  - destruct Hr as (header & Hh & Hgood). intros Hn. by eapply filled_sign; [apply Hf|..].
  - by destruct firstErr.
Qed.

(** Whether the envelopes come from the cache, from one goroutine or from a
    pool, in any order, each is a signed envelope of its own header. *)
Lemma createDAEnvelopes_spec s0 s :
  env_inv s0 s ->
  wp (createDAEnvelopes headers blobs) (fun r s' => env_inv s0 s' /\
    match r with Ok es => Forall2 (good_envelope pk) headers es | Err _ => True end) s.
Proof.
  intros Hi. unfold createDAEnvelopes. apply wp_bind.
  eapply wp_mono; [apply (cached_envelopes_spec s0 headers [] [] []); [done|by split|done]|].
  intros r s1 (Hi1 & [envelopes idxs] & -> & Hf). cbn [fst snd] in Hf. cbn beta iota. wp_read. apply wp_bind.
  match goal with |- wp ?m _ _ => assert (Hsign : wp m (fun r s' => env_inv s0 s' /\
    match r with Ok envelopes' => filled headers envelopes' [] | Err _ => True end) s1) end; cycle 1.
  { eapply wp_mono; [exact Hsign|]. intros [es|e] s' [Hi' Hr]; [|done].
    apply wp_ret. split; [done|]. by apply filled_done. }
  destruct (Z.eqb_spec (zlen idxs) 0) as [Hz|_].
  { apply zlen_zero in Hz. subst idxs. by apply wp_ret. }
  destruct (_ || _); [by apply sign_sequential_spec|].
  apply sign_pool_spec; [|done]. intros _. eapply filled_perm; [|done]. symmetry. apply finish_order_perm.
Qed.

End batch.
End envelopes.

(** ** Recording the result *)

Definition include_header (da : Z) (c : Cache) (header : SignedHeader PK) : Cache :=
  setDAIncluded (header_hash_string header) da (Height_of header) c.

Lemma for_each_modify {A} (f : A -> S -> S) (xs : list A) (s : S) :
  for_each xs (fun x => modify (f x)) s = (Ok tt : res sub_error unit, foldl (fun s x => f x s) s xs).
Proof. revert s. induction xs as [|x xs IH]; intros s; [done|]. simpl. apply IH. Qed.

(** What recording a posted batch of headers changes. *)
Record recorded (submitted : list (SignedHeader PK)) (da : Z) (s s' : S) : Prop := MkRecorded
  { rec_client : das_client (das s') = das_client (das s);
    rec_signer : sgn s' = sgn s;
    rec_ns : namespaceBz (das s') = namespaceBz (das s);
    rec_envelopes : envelopeCache (das s') = envelopeCache (das s);
    rec_last : lastSubmittedHeight (das s') = default (lastSubmittedHeight (das s)) (Height_of <$> list.last submitted);
    rec_headers : headerCache (mgr s') = foldl (include_header da) (headerCache (mgr s)) submitted;
    rec_data : dataCache (mgr s') = dataCache (mgr s) /\ pendingData (mgr s') = pendingData (mgr s) /\
               pendingEvents (mgr s') = pendingEvents (mgr s);
    rec_pending : pendingHeaders (mgr s') =
      set_lastHeight (Z.max (lastHeight (pendingHeaders (mgr s)))
                            (default (lastHeight (pendingHeaders (mgr s))) (Height_of <$> list.last submitted)))
                     (pendingHeaders (mgr s));
    rec_store : agree_but (metaKey (pendingHeaders (mgr s)))
                  (bs_contents (mgr_store (mgr s'))) (bs_contents (mgr_store (mgr s))) }.

Lemma include_headers_state da submitted (s : S) :
  foldl (fun s header => set_mgr (SetHeaderDAIncluded (header_hash_string header) da (Height_of header) (mgr s)) s) s submitted
  = set_mgr (set_headerCache (foldl (include_header da) (headerCache (mgr s)) submitted) (mgr s)) s.
Proof.
  revert s. induction submitted as [|header submitted IH]; intros s; simpl; [by destruct s as [? []]|].
  by rewrite IH.
Qed.

Lemma header_posted_spec submitted result s :
  wp (header_posted submitted result) (fun r s' => r = Ok tt /\ recorded submitted (sr_Height result) s s') s.
Proof.
  unfold header_posted. apply wp_bind. unfold wp at 1.
  rewrite (for_each_modify (fun header s => set_mgr (SetHeaderDAIncluded (header_hash_string header)
             (sr_Height result) (Height_of header) (mgr s)) s)), include_headers_state. cbn [fst snd].
  set (s1 := set_mgr _ s). apply wp_bind, wp_attempt, wp_zoom.
  unfold wp at 1. destruct (AppendHeaderHint _ _ _) as [r h']. cbn [fst snd].
  set (s2 := set_das _ s1). destruct (list.last submitted) as [header|] eqn:Hlast.
  - apply wp_bind. apply wp_bind, wp_attempt, wp_zoom, wp_zoom. eapply wp_mono; [apply setLast_spec|].
    intros r' [pb st] (-> & Hpb & _ & Hc). cbn [fst snd] in *. apply wp_ret. apply wp_modify. split; [done|].
    subst pb. split; try done; simpl; rewrite ?Hlast; try done.
    destruct Hc as [[Hc _]|[_ Hc]]; [by apply agree_but_same|].
    etransitivity; [apply agree_but_same, Hc|]. apply agree_but_meta.
  - apply wp_ret. split; [done|]. split; try done; simpl; rewrite ?Hlast; simpl; try done.
    rewrite Z.max_id. by destruct (pendingHeaders (mgr s)).
Qed.

(** ** Headers *)

(** [headers] are the next ones after [last], at consecutive heights of [chain]. *)
Definition next_headers (chain : Z -> option (SignedHeader PK)) (last : Z) (headers : list (SignedHeader PK)) : Prop :=
  forall i header, headers !! i = Some header ->
    Height_of header = last + 1 + Z.of_nat i /\ chain (Height_of header) = Some header.

Lemma next_headers_chain chain last headers :
  next_headers chain last headers -> Forall (fun header => chain (Height_of header) = Some header) headers.
Proof. intros Hn. apply list.Forall_lookup. intros i header Hi. by apply (Hn i). Qed.

Lemma next_headers_last chain last headers k :
  next_headers chain last headers -> (0 < k <= length headers)%nat ->
  Height_of <$> list.last (take k headers) = Some (last + Z.of_nat k).
Proof.
  intros Hn Hk. rewrite last_lookup, length_take, Nat.min_l, lookup_take_lt by lia.
  destruct (lookup_lt_is_Some_2 headers (pred k)) as [header Hh]; [lia|]. rewrite Hh. simpl. f_equal.
  destruct (Hn _ _ Hh) as [-> _]. lia.
Qed.

Lemma cache_signed_later chain pk (d d' : DASubmitter W HA C) :
  envelopeCache d' = envelopeCache d -> lastSubmittedHeight d <= lastSubmittedHeight d' ->
  cache_signed chain pk d -> cache_signed chain pk d'.
Proof. intros Hc Hl Hs c h e He Hh. apply (Hs c h e); [by rewrite <- Hc|lia]. Qed.

(** What a run of [SubmitHeaders] does: nothing of note, or [k] headers are
    recorded at the DA height [da] where their envelopes are. *)
Definition submitted_headers (pk : PK) (headers : list (SignedHeader PK)) (r : res sub_error unit) (s s' : S) : Prop :=
  exists k da, (k <= length headers)%nat /\ (r = Ok tt <-> (0 < k)%nat) /\
    Forall (fun header => exists e, good_envelope pk header e /\ on_da (world s') (namespaceBz (das s)) da e) (take k headers) /\
    headerCache (mgr s') = foldl (include_header da) (headerCache (mgr s)) (take k headers) /\
    pendingHeaders (mgr s') =
      set_lastHeight (lastHeight (pendingHeaders (mgr s)) + Z.of_nat k) (pendingHeaders (mgr s)).

(** What [SubmitHeaders] promises: the headers as above, a DA chain that only
    grew, envelopes that stay right, data and key untouched, and of the store at most
    the record of the last submitted height changed. *)
Definition headers_outcome (chain : Z -> option (SignedHeader PK)) (pk : PK) (headers : list (SignedHeader PK))
  (s : S) (r : res sub_error unit) (s' : S) : Prop :=
  submitted_headers pk headers r s s' /\ da_extends (world s) (world s') /\
  cache_signed chain pk (das s') /\ lastSubmittedHeight (das s) <= lastSubmittedHeight (das s') <= lastHeight (pendingHeaders (mgr s')) /\
  dataCache (mgr s') = dataCache (mgr s) /\ pendingData (mgr s') = pendingData (mgr s) /\
  (exists g, sgn s' = Some g /\ sg_key g = pk) /\ namespaceBz (das s') = namespaceBz (das s) /\
  agree_but (metaKey (pendingHeaders (mgr s))) (bs_contents (mgr_store (mgr s'))) (bs_contents (mgr_store (mgr s))).

(** The state when the batch is handed over: signing, then the attempts. *)
Lemma attempts_state chain pk (s s1 s2 : S) :
  env_inv chain pk s s1 -> sub_step s1 s2 ->
  mgr s2 = mgr s /\ da_extends (world s) (world s2) /\ namespaceBz (das s1) = namespaceBz (das s) /\
  namespaceBz (das s2) = namespaceBz (das s) /\ (exists g, sgn s2 = Some g /\ sg_key g = pk) /\
  lastSubmittedHeight (das s2) = lastSubmittedHeight (das s) /\ cache_signed chain pk (das s2).
Proof.
  intros (Hm & Hg & (c & Hd) & Hc) (Hm' & Hg' & Hcl & x & cl & Hd').
  split_and!; [congruence| |by rewrite Hd|by rewrite Hd', Hd|by rewrite Hg'|by rewrite Hd', Hd|].
  - destruct Hcl as [He _]. by rewrite Hd in He.
  - eapply cache_signed_later; [| |exact Hc]; by rewrite Hd'.
Qed.

Lemma nothing_recorded chain pk headers e (s s1 s2 : S) :
  lastSubmittedHeight (das s) <= lastHeight (pendingHeaders (mgr s)) ->
  env_inv chain pk s s1 -> sub_step s1 s2 -> headers_outcome chain pk headers s (Err e) s2.
Proof.
  intros Hle Hi Hs. destruct (attempts_state _ _ _ _ _ Hi Hs) as (Hm & He & _ & Hns & Hg & Hla & Hc).
  unfold headers_outcome. rewrite Hm, Hla. split_and!; try done.
  exists O, 0. rewrite Hm, Z.add_0_r. split_and!; [lia|by split; [|lia]|done|done|by destruct (pendingHeaders (mgr s))].
Qed.

Lemma batch_recorded chain pk headers es k result (s s1 s2 s3 : S) :
  lastSubmittedHeight (das s) <= lastHeight (pendingHeaders (mgr s)) ->
  next_headers chain (lastHeight (pendingHeaders (mgr s))) headers ->
  Forall2 (good_envelope pk) headers es -> (0 < k <= length headers)%nat ->
  env_inv chain pk s s1 -> sub_step s1 s2 -> posted k es (namespaceBz (das s1)) result s2 ->
  recorded (take k headers) (sr_Height result) s2 s3 -> headers_outcome chain pk headers s (Ok tt) s3.
Proof.
  intros Hle Hn He Hk Hi Hs [Hu Hda] [Rc Rs Rn Re Rl Rh [Rd [Rp Rv]] Rpe Rst].
  destruct (attempts_state _ _ _ _ _ Hi Hs) as (Hm & Hx & Hns & Hns2 & Hg & Hla & Hc).
  pose proof (next_headers_last _ _ _ _ Hn Hk) as Hlast. rewrite Hlast, Hm in *. simpl in Rl, Rpe.
  assert (Hw : world s3 = world s2) by (unfold world; by rewrite Rc).
  rewrite Z.max_r in Rpe by lia.
  unfold headers_outcome. rewrite Hw, Rpe, Rd, Rp, Rl, Rs, Rn. split_and!; try done; [| |simpl; lia].
  - exists k, (sr_Height result). split_and!; [lia|by split; [lia|]| |done|done].
    rewrite Hns in Hda. apply list.Forall_lookup. intros i header Hh.
    destruct (Forall2_lookup_l _ _ _ i header (Forall2_take _ _ _ k He) Hh) as (e & Hes & Hgood).
    exists e. split; [done|]. rewrite Hw. by eapply (list.Forall_lookup_1 _ _ _ _ Hda).
  - eapply cache_signed_later; [exact Re|rewrite Rl, Hla; lia|exact Hc].
Qed.

(** [SubmitHeaders] is sound, whatever the DA node, the signer, the hints
    and the backend answer. Given the next pending headers, it either fails and
    records nothing, or it records a non-empty prefix of them: each is marked as
    included at one DA height, where the DA chain holds its signed envelope, and
    the last submitted height moves exactly to the end of that prefix. The
    envelope cache keeps serving envelopes of the right headers. *)
Lemma SubmitHeaders_sound chain pk g headers blobs (s : S) :
  sgn s = Some g -> sg_key g = pk -> headers <> [] ->
  Forall2 (fun header b => marshal_signed_header header = Ok b) headers blobs ->
  next_headers chain (lastHeight (pendingHeaders (mgr s))) headers ->
  lastSubmittedHeight (das s) <= lastHeight (pendingHeaders (mgr s)) -> cache_signed chain pk (das s) ->
  exists r s', SubmitHeaders headers blobs s = (r, s') /\ headers_outcome chain pk headers s r s'.
Proof.
  intros Hg Hk Hne Hb Hn Hle Hc. apply wp_exists. unfold SubmitHeaders.
  destruct (Z.eqb_spec (zlen headers) 0) as [Hz|_]; [by apply zlen_zero in Hz|]. wp_read. rewrite Hg.
  pose proof (Forall2_length Hb) as Hl.
  destruct (Z.eqb_spec (zlen blobs) (zlen headers)) as [_|Hz]; [|unfold zlen in Hz; lia]. cbn [negb].
  assert (Hi : env_inv chain pk s s).
  { split_and!; [done|by exists g|exists (envelopeCache (das s)); by destruct (das s)|done]. }
  apply wp_bind. eapply wp_mono.
  { apply (createDAEnvelopes_spec chain pk headers blobs); [by eapply next_headers_chain|exact Hb|exact Hi]. }
  intros [es|e] s1 [Hi1 He]; cbn beta iota; [|by apply (nothing_recorded chain pk headers e s s1 s1)].
  wp_read. pose proof (Forall2_length He) as Hle'.
  apply submitToDA_spec; [done|by destruct headers; simpl; [|lia]|intros e s2 Hs2; by apply (nothing_recorded chain pk headers e s s1 s2)|].
  intros k result s2 Hk' Hs2 Hp _. eapply wp_mono; [apply header_posted_spec|].
  intros r s3 [-> Hrec]. by apply (batch_recorded chain pk headers es k result s s1 s2 s3).
Qed.

End submitter.
