(* ===== verification/Batching.v ===== *)
(** * Batching strategies ([block/internal/submitting/batching_strategy.go])

    When to submit what is pending. The thresholds are float64 numbers, here the
    IEEE 754 binary64 numbers of the Standard Library's [SpecFloat]. What Go
    leaves to the implementation, the conversion of a float64 that is not in the
    range of uint64, is the class [FloatConversion]. *)

From Stdlib Require Import SpecFloat.
From S2P Require Import Prelude DASubmitter.
From stdpp Require Import base strings numbers.
Open Scope Z_scope.

Definition float64 : Type := spec_float.
Definition f64_mul (x y : float64) : float64 := SFmul 53 1024 x y.
Definition f64_of_uint64 (n : Z) : float64 := binary_normalize 53 1024 n 0 false.
Definition f64_zero : float64 := S754_zero false.
Definition f64_one : float64 := f64_of_uint64 1.
(** The constant 0.8. *)
Definition f64_0_8 : float64 := S754_finite false 7205759403792794 (-53).

Class FloatConversion := { uint64_out_of_range : float64 -> Z }.

(** [uint64(f)]: the fraction is discarded. *)
Definition uint64_of_f64 `{FloatConversion} (f : float64) : Z :=
  match f with
  | S754_zero _ => 0
  | S754_finite false m e =>
      let n := Z.shiftl (Zpos m) e in
      if n <? two64 then n else uint64_out_of_range f
  | _ => uint64_out_of_range f
  end.

Record SizeBasedStrategy := MkSizeBased { sb_sizeThreshold : float64; sb_minItems : Z }.
Record TimeBasedStrategy := MkTimeBased { tb_maxDelay : Z; tb_minItems : Z }.
Record AdaptiveStrategy := MkAdaptive { ad_sizeThreshold : float64; ad_maxDelay : Z; ad_minItems : Z }.

Inductive BatchingStrategy :=
| Immediate
| SizeBased (s : SizeBasedStrategy)
| TimeBased (s : TimeBasedStrategy)
| Adaptive (s : AdaptiveStrategy).

Definition default_threshold (sizeThreshold : float64) : float64 :=
  if SFleb sizeThreshold f64_zero || SFltb f64_one sizeThreshold then f64_0_8 else sizeThreshold.
Definition default_items (minItems : Z) : Z := if minItems =? 0 then 1 else minItems.

Definition NewSizeBasedStrategy (sizeThreshold : float64) (minItems : Z) : SizeBasedStrategy :=
  MkSizeBased (default_threshold sizeThreshold) (default_items minItems).
Definition NewTimeBasedStrategy (daBlockTime maxDelay minItems : Z) : TimeBasedStrategy :=
  MkTimeBased (if maxDelay =? 0 then daBlockTime else maxDelay) (default_items minItems).
Definition NewAdaptiveStrategy (daBlockTime : Z) (sizeThreshold : float64) (maxDelay minItems : Z) : AdaptiveStrategy :=
  MkAdaptive (default_threshold sizeThreshold) (if maxDelay =? 0 then daBlockTime else maxDelay) (default_items minItems).

(** The fields of [config.DAConfig] that select a strategy. *)
Record BatchingConfig := MkBatchingConfig
  { cfg_BatchingStrategy : string; cfg_BlockTime : Z; BatchSizeThreshold : float64;
    BatchMaxDelay : Z; BatchMinItems : Z }.

Definition NewBatchingStrategy (cfg : BatchingConfig) : res string BatchingStrategy :=
  let name := cfg_BatchingStrategy cfg in
  if bool_decide (name = "immediate") then Ok Immediate
  else if bool_decide (name = "size")
  then Ok (SizeBased (NewSizeBasedStrategy (BatchSizeThreshold cfg) (BatchMinItems cfg)))
  else if bool_decide (name = "time")
  then Ok (TimeBased (NewTimeBasedStrategy (cfg_BlockTime cfg) (BatchMaxDelay cfg) (BatchMinItems cfg)))
  else if bool_decide (name = "adaptive")
  then Ok (Adaptive (NewAdaptiveStrategy (cfg_BlockTime cfg) (BatchSizeThreshold cfg) (BatchMaxDelay cfg) (BatchMinItems cfg)))
  else Err ("unknown batching strategy: " +:+ name).

Section should.
Context `{FloatConversion}.

Definition size_reached (sizeThreshold : float64) (totalSize maxBlobSize : Z) : bool :=
  let threshold := uint64_of_f64 (f64_mul (f64_of_uint64 maxBlobSize) sizeThreshold) in
  threshold <=? totalSize.

Definition ShouldSubmit (strategy : BatchingStrategy)
  (pendingCount totalSize maxBlobSize timeSinceLastSubmit : Z) : bool :=
  match strategy with
  | Immediate => 0 <? pendingCount
  | SizeBased s =>
      if pendingCount <? sb_minItems s then false else size_reached (sb_sizeThreshold s) totalSize maxBlobSize
  | TimeBased s => if pendingCount <? tb_minItems s then false else tb_maxDelay s <=? timeSinceLastSubmit
  | Adaptive s =>
      if pendingCount <? ad_minItems s then false
      else if size_reached (ad_sizeThreshold s) totalSize maxBlobSize then true
      else if ad_maxDelay s <=? timeSinceLastSubmit then true else false
  end.

End should.

(** The default threshold of the default blob size: 4 MiB of 5 MiB. *)
Example default_size_threshold `{FloatConversion} :
  uint64_of_f64 (f64_mul (f64_of_uint64 DefaultMaxBlobSize) f64_0_8) = 4194304.
Proof. vm_compute. reflexivity. Qed.

(** 0.8 is the nearest binary64 number to 8 / 10. *)
Example f64_0_8_eq : SFdiv 53 1024 (f64_of_uint64 8) (f64_of_uint64 10) = f64_0_8.
Proof. vm_compute. reflexivity. Qed.
