(* ===== verification/Submitter.v ===== *)
(** * The submitter ([block/internal/submitting/submitter.go])

    The component that pushes pending headers and data to the DA layer when the
    batching strategy says so, and that advances the DA included height over
    the blocks whose header and data are included. The store, the cache manager
    and the DA submitter are the components of the other files; the executor
    and the sequencer are classes. A goroutine that the code starts under a
    [TryLock] runs to its end here before the next step. *)

From S2P Require Import Prelude Sha256 Datastore Types Serialization Store StoreFacts StoreAPI.
From S2P Require Import BlockCache Pending CacheManager DAClient DASubmitter Batching.
From stdpp Require Import base gmap strings list numbers.
Open Scope Z_scope.

(** [common.DataHashForEmptyTxs]. *)
Definition DataHashForEmptyTxs : bytes := byte_of_Z <$>
  [110; 52; 11; 156; 255; 179; 122; 152; 156; 165; 68; 230; 187; 120; 10; 44;
   120; 144; 29; 63; 179; 55; 56; 118; 133; 17; 163; 6; 23; 175; 160; 29].

Definition MaxRetriesBeforeHalt : nat := 3.

(** The executor's [SetFinal] and the sequencer's [SetDAHeight]. *)
Class Finalizer (EX : Type) := {
  SetFinal : Z -> M EX string unit;
  (** The block of a height is final for the executor. *)
  is_final : EX -> Z -> Prop;
  (** The executor answers every call from now on. *)
  exec_healthy : EX -> Prop
}.
Class FinalizerLaws (EX : Type) `{Finalizer EX} := {
  SetFinal_law h x : wp (SetFinal h) (fun r x' =>
    (forall h', is_final x h' -> is_final x' h') /\ (exec_healthy x -> exec_healthy x') /\
    match r with Ok _ => is_final x' h | Err _ => ~ exec_healthy x end) x
}.
Class DAHeightSink (SQ : Type) := { seq_SetDAHeight : Z -> SQ -> SQ }.

Record Submitter (ST PK W HA SG EX SQ : Type) (C : Type -> Type) := MkSubmitter
  { sub : SubState ST PK W HA SG C;
    sub_exec : EX;
    (** [nil] on sync nodes. *)
    sub_sequencer : option SQ;
    daIncludedHeight : Z;
    lastHeaderSubmit : Z;
    lastDataSubmit : Z;
    batchingStrategy : BatchingStrategy;
    (** [errorCh]: its capacity and what it holds, if it is not nil. *)
    errorCh : option (nat * list sub_error) }.
Arguments MkSubmitter {ST PK W HA SG EX SQ C}.
Arguments sub {ST PK W HA SG EX SQ C}.
Arguments sub_exec {ST PK W HA SG EX SQ C}.
Arguments sub_sequencer {ST PK W HA SG EX SQ C}.
Arguments daIncludedHeight {ST PK W HA SG EX SQ C}.
Arguments lastHeaderSubmit {ST PK W HA SG EX SQ C}.
Arguments lastDataSubmit {ST PK W HA SG EX SQ C}.
Arguments batchingStrategy {ST PK W HA SG EX SQ C}.
Arguments errorCh {ST PK W HA SG EX SQ C}.

Section submitter.
Context {ST PK W HA SG EX SQ : Type} {C : Type -> Type}.
Context `{BlockStore ST PK} `{LRU C} `{BlobRPC W} `{BlobSubmit W} `{Json} `{DAHints HA} `{SignerAPI SG PK}.
Context `{Finalizer EX} `{DAHeightSink SQ} `{FloatConversion} `{WorkerOrder} `{PubKeys PK} `{Wire}.
Context `{HashText}.
Context `{ProtoMsg pbVersion, ProtoMsg pbHeader, ProtoMsg pbSignedHeader, ProtoMsg pbMetadata, ProtoMsg pbData,
          ProtoMsg pbSignedData, ProtoMsg pbDAHeaderEnvelope}.

Abbreviation T := (Submitter ST PK W HA SG EX SQ C).
Definition TM (A : Type) : Type := M T sub_error A.

Definition set_sub x (t : T) : T :=
  MkSubmitter x (sub_exec t) (sub_sequencer t) (daIncludedHeight t) (lastHeaderSubmit t) (lastDataSubmit t)
    (batchingStrategy t) (errorCh t).
Definition set_sub_exec x (t : T) : T :=
  MkSubmitter (sub t) x (sub_sequencer t) (daIncludedHeight t) (lastHeaderSubmit t) (lastDataSubmit t)
    (batchingStrategy t) (errorCh t).
Definition set_sub_sequencer x (t : T) : T :=
  MkSubmitter (sub t) (sub_exec t) x (daIncludedHeight t) (lastHeaderSubmit t) (lastDataSubmit t)
    (batchingStrategy t) (errorCh t).
Definition SetDAIncludedHeight x (t : T) : T :=
  MkSubmitter (sub t) (sub_exec t) (sub_sequencer t) x (lastHeaderSubmit t) (lastDataSubmit t)
    (batchingStrategy t) (errorCh t).
Definition set_lastHeaderSubmit x (t : T) : T :=
  MkSubmitter (sub t) (sub_exec t) (sub_sequencer t) (daIncludedHeight t) x (lastDataSubmit t)
    (batchingStrategy t) (errorCh t).
Definition set_lastDataSubmit x (t : T) : T :=
  MkSubmitter (sub t) (sub_exec t) (sub_sequencer t) (daIncludedHeight t) (lastHeaderSubmit t) x
    (batchingStrategy t) (errorCh t).
Definition set_errorCh x (t : T) : T :=
  MkSubmitter (sub t) (sub_exec t) (sub_sequencer t) (daIncludedHeight t) (lastHeaderSubmit t) (lastDataSubmit t)
    (batchingStrategy t) x.

(** The cache manager and the store, which it shares. *)
Definition t_mgr (t : T) : Manager ST PK C := mgr (sub t).
Definition set_t_mgr m (t : T) : T := set_sub (set_mgr m (sub t)) t.
Definition t_store (t : T) : ST := mgr_store (t_mgr t).
Definition set_t_store st (t : T) : T := set_t_mgr (set_mgr_store st (t_mgr t)) t.

Definition on_t_store {A} (m : M ST store_error A) : TM A := zoom t_store set_t_store (wrap SubStore m).
Definition on_t_mgr {A} (m : MM (ST := ST) (PK := PK) (C := C) A) : TM A := zoom t_mgr set_t_mgr (wrap SubCache m).
Definition on_das {A} (m : DM (ST := ST) (PK := PK) (W := W) (HA := HA) (SG := SG) (C := C) A) : TM A :=
  zoom sub set_sub m.
Definition on_exec {A} (m : M EX string A) : TM A := zoom sub_exec set_sub_exec (wrap SubMsg m).

Definition GetDAIncludedHeight (t : T) : Z := daIncludedHeight t.

(** ** DA inclusion *)

Definition putUint64Metadata (key : string) (val : Z) : TM unit := on_t_store (st_SetMetadata key (put_uint64_le val)).

Definition initializeDAIncludedHeight : TM unit :=
  height ← attempt (on_t_store (st_GetMetadata DAIncludedHeightKey));
  match height with
  | Ok b => if zlen b =? 8 then modify (SetDAIncludedHeight (uint64_le b)) else mret tt
  | Err _ => mret tt
  end.

Definition empty_data (data : Data) : bool := bytes_eqb (DACommitment data) DataHashForEmptyTxs.

Definition IsHeightDAIncluded (height : Z) (data : Data) : TM bool :=
  included ← gets GetDAIncludedHeight;
  if height <=? included then mret true else
  currentHeight ← on_t_store st_Height;
  if currentHeight <? height then mret false else
  m ← gets t_mgr;
  let headerIncluded := bool_decide (is_Some (GetHeaderDAIncludedByHeight height m)) in
  let dataIncluded := bool_decide (is_Some (GetDataDAIncludedByHeight height m)) in
  mret (headerIncluded && (empty_data data || dataIncluded)).

Definition setNodeHeightToDAHeight (height : Z) (data : Data) (genesisInclusion : bool) : TM unit :=
  m ← gets t_mgr;
  match GetHeaderDAIncludedByHeight height m with
  | None => throw (SubMsg "header not found in cache")
  | Some daHeightForHeader =>
      _ ← putUint64Metadata (GetHeightToDAHeightHeaderKey height) daHeightForHeader;
      p ← (if empty_data data then mret (daHeightForHeader, daHeightForHeader) else
           m ← gets t_mgr;
           match GetDataDAIncludedByHeight height m with
           | None => throw (SubMsg "data not found in cache")
           | Some daHeightForData => mret (daHeightForData, Z.min daHeightForData daHeightForHeader)
           end);
      let '(dataDAHeight, genesisDAIncludedHeight) := p in
      _ ← putUint64Metadata (GetHeightToDAHeightDataKey height) dataDAHeight;
      if genesisInclusion then
        _ ← putUint64Metadata GenesisDAHeightKey genesisDAIncludedHeight;
        modify (fun t => set_sub_sequencer (seq_SetDAHeight genesisDAIncludedHeight <$> sub_sequencer t) t)
      else mret tt
  end.

(** The attempts of [setFinalWithRetry]; [left] of them remain. *)
Fixpoint set_final_attempts (left : nat) (nextHeight : Z) : TM unit :=
  match left with
  | O => mret tt
  | Datatypes.S left' =>
      r ← attempt (on_exec (SetFinal nextHeight));
      match r with
      | Ok _ => mret tt
      | Err e =>
          if Nat.eqb left' 0 then throw (SubMsg "failed to set final height") else
          cancelled ← on_das (on_client (rpc (infallible backoff_cancelled)));
          if (cancelled : bool) then throw SubCanceled else set_final_attempts left' nextHeight
      end
  end.

Definition setFinalWithRetry (nextHeight : Z) : TM unit := set_final_attempts MaxRetriesBeforeHalt nextHeight.

(** The end of a round of the inner loop, for a block that is included;
    [false] is its [break]. *)
Definition include_block (nextHeight : Z) (data : Data) (genesisInclusion : bool) : TM bool :=
  r ← attempt (setNodeHeightToDAHeight nextHeight data genesisInclusion);
  if negb (is_ok r) then mret false else
  r ← attempt (setFinalWithRetry nextHeight);
  if negb (is_ok r) then mret false else
  r ← attempt (putUint64Metadata DAIncludedHeightKey nextHeight);
  if negb (is_ok r) then mret false else
  _ ← modify (SetDAIncludedHeight nextHeight);
  _ ← modify (fun t => set_t_mgr (DeleteHeight nextHeight (t_mgr t)) t);
  mret true.

(** One round of the inner loop. *)
Definition inclusion_step (currentDAIncluded : Z) : TM bool :=
  let nextHeight := add64 currentDAIncluded 1 in
  block ← attempt (on_t_store (st_GetBlockData nextHeight));
  match block with
  | Err _ => mret false
  | Ok (_, data) =>
      included ← attempt (IsHeightDAIncluded nextHeight data);
      match included with
      | Ok true => include_block nextHeight data (currentDAIncluded =? 0)
      | _ => mret false
      end
  end.

(** The inner loop of [processDAInclusionLoop], with fuel; [true] when it broke. *)
Fixpoint inclusion_loop (fuel : nat) (currentDAIncluded : Z) : TM bool :=
  match fuel with
  | O => mret false
  | Datatypes.S fuel' =>
      advanced ← inclusion_step currentDAIncluded;
      if (advanced : bool) then inclusion_loop fuel' (add64 currentDAIncluded 1) else mret true
  end.

(** A tick of [processDAInclusionLoop]. *)
Definition processDAInclusion (fuel : nat) : TM bool :=
  currentDAIncluded ← gets GetDAIncludedHeight;
  inclusion_loop fuel currentDAIncluded.

(** ** DA submission *)

Definition sendCriticalError (e : sub_error) (t : T) : T :=
  match errorCh t with
  | None => t
  | Some (cap, l) => if Nat.ltb (length l) cap then set_errorCh (Some (cap, l ++ [e])) t else t
  end.

Definition t_now : TM Z := on_das (on_client now).

(** [time.Since], which saturates. *)
Definition time_since (nw t : Z) : Z :=
  Z.max (-9223372036854775808) (Z.min 9223372036854775807 (nw - t)).

Definition sizes (l : list bytes) : Z := foldl (fun n b => add64 n (zlen b)) 0 l.

(** The part of a tick of [daSubmissionLoop] that is the same for headers and
    data. A panic is not recovered. *)
Definition submission {A} (numPending : MM (ST := ST) (PK := PK) (C := C) Z)
  (getPending : MM (ST := ST) (PK := PK) (C := C) (list A * list bytes))
  (submit : list A -> list bytes -> DM (ST := ST) (PK := PK) (W := W) (HA := HA) (SG := SG) (C := C) unit)
  (last : T -> Z) (set_last : Z -> T -> T) : TM unit :=
  n ← on_t_mgr numPending;
  if n <=? 0 then mret tt else
  lastSubmitNanos ← gets last;
  nw ← t_now;
  let timeSinceLastSubmit := time_since nw lastSubmitNanos in
  p ← attempt (on_t_mgr getPending);
  match p with
  | Err (SubCache CPanic) => throw SubPanic
  | Err _ => mret tt
  | Ok (items, marshalled) =>
      strategy ← gets batchingStrategy;
      if ShouldSubmit strategy (zlen items) (sizes marshalled) DefaultMaxBlobSize timeSinceLastSubmit then
        r ← attempt (on_das (submit items marshalled));
        match r with
        | Err SubPanic => throw SubPanic
        | Err ErrOversizedItem => modify (sendCriticalError ErrOversizedItem)
        | Err _ => mret tt
        | Ok _ => nw ← t_now; modify (set_last nw)
        end
      else mret tt
  end.

Definition header_submission : TM unit :=
  submission NumPendingHeaders mgr_GetPendingHeaders SubmitHeaders lastHeaderSubmit set_lastHeaderSubmit.
Definition data_submission : TM unit :=
  submission mgr_NumPendingData mgr_GetPendingData SubmitData lastDataSubmit set_lastDataSubmit.

(** A tick of [daSubmissionLoop]. *)
Definition daSubmission : TM unit := _ ← header_submission; data_submission.

(** [NewSubmitter] and the initialization of [Start]. *)
Definition NewSubmitter (s : SubState ST PK W HA SG C) (exec : EX) (sequencer : option SQ) (cfg : BatchingConfig)
  (ch : option (nat * list sub_error)) (nw : Z) : T :=
  let strategy := match NewBatchingStrategy cfg with
                  | Ok strategy => strategy
                  | Err _ => TimeBased (NewTimeBasedStrategy (cfg_BlockTime cfg) 0 1)
                  end in
  MkSubmitter s exec sequencer 0 nw nw strategy ch.

End submitter.
