(* ===== verification/SubmitterFacts.v ===== *)
(** * The DA included height

    A tick of the inclusion loop advances the DA included height exactly over
    the maximal run of blocks whose header and data are included, persisting
    each step before the height in memory moves. A tick of the submission loop
    moves the last submitted header height only over headers that are on the DA
    layer. *)

From S2P Require Import Prelude Sha256 Datastore Types Serialization Store StoreFacts StoreAPI.
From S2P Require Import BlockCache Pending PendingFacts CacheManager DAClient DASubmitter DASubmitterFacts Batching Submitter.
From stdpp Require Import base gmap strings list numbers.
Open Scope Z_scope.

(** ** Metadata keys *)

Lemma string_app_inj_r (a b c d : string) :
  String.length c = String.length d -> a +:+ c = b +:+ d -> a = b /\ c = d.
Proof.
  assert (Hlen : forall x y : string, String.length (x +:+ y) = (String.length x + String.length y)%nat).
  { intros x y. induction x as [|ch x IH]; [done|]. simpl. by rewrite IH. }
  intros Hl. revert b. induction a as [|ch a IH]; intros [|ch' b] Heq.
  - done.
  - apply (f_equal String.length) in Heq. change (String.length c = String.length (String ch' b +:+ d)) in Heq.
    rewrite Hlen in Heq. simpl in Heq. lia.
  - apply (f_equal String.length) in Heq. change (String.length (String ch a +:+ c) = String.length d) in Heq.
    rewrite Hlen in Heq. simpl in Heq. lia.
  - injection Heq as -> Heq. by destruct (IH b Heq) as [-> ->].
Qed.

Lemma header_key_inj a b :
  0 <= a -> 0 <= b -> GetHeightToDAHeightHeaderKey a = GetHeightToDAHeightHeaderKey b -> a = b.
Proof.
  intros Ha Hb Heq. unfold GetHeightToDAHeightHeaderKey in Heq. do 2 apply string_app_inj_l in Heq.
  apply string_app_inj_r in Heq as [Heq _]; [by apply format_uint_inj|done].
Qed.

Lemma data_key_inj a b :
  0 <= a -> 0 <= b -> GetHeightToDAHeightDataKey a = GetHeightToDAHeightDataKey b -> a = b.
Proof.
  intros Ha Hb Heq. unfold GetHeightToDAHeightDataKey in Heq. do 2 apply string_app_inj_l in Heq.
  apply string_app_inj_r in Heq as [Heq _]; [by apply format_uint_inj|done].
Qed.

Lemma header_data_key a b : GetHeightToDAHeightHeaderKey a <> GetHeightToDAHeightDataKey b.
Proof.
  intros Heq. unfold GetHeightToDAHeightHeaderKey, GetHeightToDAHeightDataKey in Heq.
  do 2 apply string_app_inj_l in Heq. by apply string_app_inj_r in Heq as [_ Heq].
Qed.

(** The metadata that including the block of a height may write, before the
    included height itself. *)
Definition height_keys (h : Z) : list string :=
  GetHeightToDAHeightHeaderKey h :: GetHeightToDAHeightDataKey h :: (if h =? 1 then [GenesisDAHeightKey] else []).
Definition inclusion_keys (h : Z) : list string := DAIncludedHeightKey :: height_keys h.

Lemma height_keys_sub h : height_keys h ⊆ inclusion_keys h.
Proof. intros k Hk. by right. Qed.

Lemma elem_of_height_keys k h :
  k ∈ height_keys h <-> k = GetHeightToDAHeightHeaderKey h \/ k = GetHeightToDAHeightDataKey h \/ (h = 1 /\ k = GenesisDAHeightKey).
Proof.
  unfold height_keys. rewrite !elem_of_cons. destruct (Z.eqb_spec h 1) as [->|Hne].
  - rewrite list_elem_of_singleton. tauto.
  - pose proof (not_elem_of_nil k). tauto.
Qed.

(** The keys of different heights are different. *)
Lemma height_keys_apart h h' :
  0 <= h -> 0 <= h' -> h <> h' ->
  GetHeightToDAHeightHeaderKey h ∉ height_keys h' /\ GetHeightToDAHeightDataKey h ∉ height_keys h'.
Proof.
  intros Hh Hh' Hne. rewrite !elem_of_height_keys. split.
  - intros [?%header_key_inj|[?%header_data_key|[_ ?]]]; done.
  - intros [Heq|[?%data_key_inj|[_ ?]]]; try done. symmetry in Heq. by apply header_data_key in Heq.
Qed.

(** ** Frames *)

(** Equal but for metadata under [K]. *)
Definition meta_frame {PK} (K : list string) (c d : contents PK) : Prop :=
  c_height d = c_height c /\ (forall h, 0 <= h -> c_header d h = c_header c h) /\
  (forall h, 0 <= h -> c_block d h = c_block c h) /\ (forall k, k ∉ K -> c_meta d k = c_meta c k).

#[export] Instance meta_frame_preorder {PK} K : PreOrder (@meta_frame PK K).
Proof.
  split; [done|]. intros c d e (A1 & A2 & A3 & A4) (B1 & B2 & B3 & B4).
  split_and!; [congruence|..]; intros; [rewrite B2, A2|rewrite B3, A3|rewrite B4, A4]; done.
Qed.

Lemma meta_frame_equiv {PK} K (c d : contents PK) : d ≡ c -> meta_frame K c d.
Proof. intros [A1 A2 A3 A4 A5 A6]. split_and!; auto. Qed.

Lemma meta_frame_with {PK} K k v (c d : contents PK) : d ≡ with_meta k v c -> k ∈ K -> meta_frame K c d.
Proof.
  intros [A1 A2 A3 A4 A5 A6] Hk. split_and!; auto. intros k' Hk'. rewrite A6. simpl. apply upd_ne. by intros ->.
Qed.

Section submitter.
Context {ST PK W HA SG EX SQ : Type} {C : Type -> Type}.
Context `{BlockStoreLaws ST PK} `{LRULaws C} `{BlobRPCLaws W} `{!BlobSubmit W} `{!BlobSubmitLaws W}.
Context `{Json} `{DAHints HA} `{SignerAPI SG PK} `{FinalizerLaws EX} `{DAHeightSink SQ} `{FloatConversion}.
Context `{WorkerOrderLaws} `{Wire} `{HashText}.
Context `{ProtoMsg pbVersion, ProtoMsg pbHeader, ProtoMsg pbSignedHeader, ProtoMsg pbMetadata, ProtoMsg pbData,
          ProtoMsg pbSignedData, ProtoMsg pbDAHeaderEnvelope}.
Abbreviation T := (Submitter ST PK W HA SG EX SQ C).

Definition t_contents (t : T) : contents PK := bs_contents (t_store t).
Definition hstatus (t : T) (h : Z) : option Z := status (headerCache (t_mgr t)) h.
Definition dstatus (t : T) (h : Z) : option Z := status (dataCache (t_mgr t)) h.
Definition t_healthy (t : T) : Prop := bs_healthy (t_store t) /\ exec_healthy (sub_exec t).

(** The caches, the pending lists and the included height stay; metadata under
    [K] may change; the executor and the DA chain move forward. *)
Record t_frame (K : list string) (t t' : T) : Prop := MkFrame
  { fr_header : headerCache (t_mgr t') = headerCache (t_mgr t);
    fr_data : dataCache (t_mgr t') = dataCache (t_mgr t);
    fr_pending : pendingHeaders (t_mgr t') = pendingHeaders (t_mgr t) /\ pendingData (t_mgr t') = pendingData (t_mgr t);
    fr_included : daIncludedHeight t' = daIncludedHeight t;
    fr_contents : meta_frame K (t_contents t) (t_contents t');
    fr_store : bs_healthy (t_store t) -> bs_healthy (t_store t');
    fr_exec : exec_healthy (sub_exec t) -> exec_healthy (sub_exec t');
    fr_final h : is_final (sub_exec t) h -> is_final (sub_exec t') h }.

#[export] Instance t_frame_preorder K : PreOrder (t_frame K).
Proof.
  split; [by intros t; split|]. intros t1 t2 t3 [A1 A2 [A3 A3'] A4 A5 A6 A7 A8] [B1 B2 [B3 B3'] B4 B5 B6 B7 B8].
  split; try congruence; auto; [split; congruence|by transitivity (t_contents t2)].
Qed.

(** Reads and writes of the store within a frame. *)
Lemma wp_t_read {A} (m : M ST store_error A) f K (Q : res sub_error A -> T -> Prop) t :
  reads m f ->
  (forall r t', t_frame K t t' ->
     (r = map_err SubStore (f (t_contents t)) \/ ~ bs_healthy (t_store t) /\ exists e, r = Err e) -> Q r t') ->
  wp (on_t_store m) Q t.
Proof.
  intros Hm HQ. apply wp_zoom, wp_wrap. eapply wp_mono; [apply Hm|]. intros r st (Hc & Hh & Hr). apply HQ.
  - split; try done. by apply meta_frame_equiv.
  - destruct Hr as [->|(Hn & e & -> & _)]; [by left|right; split; [done|by eexists]].
Qed.

Lemma wp_t_put K k v (Q : res sub_error unit -> T -> Prop) t :
  k ∈ K ->
  (forall e t', (forall K', t_frame K' t t') -> ~ bs_healthy (t_store t) -> Q (Err e) t') ->
  (forall t', t_frame K t t' -> t_contents t' ≡ with_meta k (Ok (put_uint64_le v)) (t_contents t) ->
     sub_exec t' = sub_exec t -> Q (Ok tt) t') ->
  wp (putUint64Metadata k v) Q t.
Proof.
  intros Hk Herr Hok. apply wp_zoom, wp_wrap. eapply wp_mono; [apply SetMetadata_law|].
  intros [[]|e] st [Hh Hc]; simpl.
  - apply Hok; [|exact Hc|done]. split; try done. by eapply meta_frame_with.
  - destruct Hc as [Hc Hn]. apply Herr; [|done]. intros K'. split; try done. by apply meta_frame_equiv.
Qed.

(** ** One block *)

(** The DA height of the data: the header's when nothing was published. *)
Definition data_da (t : T) (h : Z) (data : Data) : option Z :=
  if empty_data data then hstatus t h else dstatus t h.

Definition included_at (t : T) (h : Z) (data : Data) : Prop := is_Some (hstatus t h) /\ is_Some (data_da t h data).

Lemma IsHeightDAIncluded_spec K h data top t :
  daIncludedHeight t < h -> c_height (t_contents t) = Ok top ->
  wp (IsHeightDAIncluded h data) (fun r t' => t_frame K t t' /\
    match r with
    | Ok b => b = true <-> h <= top /\ included_at t h data
    | Err _ => ~ bs_healthy (t_store t)
    end) t.
Proof.
  intros Hlt Htop. unfold IsHeightDAIncluded. wp_read. unfold GetDAIncludedHeight.
  destruct (Z.leb_spec h (daIncludedHeight t)); [lia|].
  apply wp_bind. eapply (wp_t_read _ _ K); [apply Height_law|]. rewrite Htop. intros r t' Hfr Hr.
  destruct r as [cur|e]; [|destruct Hr as [?|[? _]]; done].
  destruct Hr as [[= ->]|(_ & e & ?)]; [|done].
  destruct (Z.ltb_spec top h).
  { apply wp_ret. split; [done|]. split; [done|lia]. }
  wp_read. apply wp_ret. split; [done|].
  unfold GetHeaderDAIncludedByHeight, GetDataDAIncludedByHeight, included_at, data_da, hstatus, dstatus, status.
  rewrite (fr_header _ _ _ Hfr), (fr_data _ _ _ Hfr).
  rewrite andb_true_iff, orb_true_iff, !bool_decide_eq_true. destruct (empty_data data); split; try tauto; try lia.
  - intros [Hx [Hy|Hy]]; [done|]. auto.
Qed.

Lemma t_frame_weaken K K' t t' : K ⊆ K' -> t_frame K t t' -> t_frame K' t t'.
Proof.
  intros HK [A1 A2 A3 A4 (B1 & B2 & B3 & B4) A6 A7 A8]. split; try done. split_and!; try done.
  intros k Hk. apply B4. by intros ?%HK.
Qed.

(** What the store says about the DA height of a block. *)
Definition recorded_at (c : contents PK) (h dah dad : Z) : Prop :=
  c_meta c (GetHeightToDAHeightHeaderKey h) = Ok (put_uint64_le dah) /\
  c_meta c (GetHeightToDAHeightDataKey h) = Ok (put_uint64_le dad).

Lemma setNodeHeight_spec h data dah dad t :
  let g := h =? 1 in
  hstatus t h = Some dah -> data_da t h data = Some dad ->
  wp (setNodeHeightToDAHeight h data g) (fun r t' => t_frame (height_keys h) t t' /\
    match r with
    | Err _ => ~ bs_healthy (t_store t)
    | Ok _ => recorded_at (t_contents t') h dah dad /\
        c_meta (t_contents t') GenesisDAHeightKey =
          if g then Ok (put_uint64_le (Z.min dah dad)) else c_meta (t_contents t) GenesisDAHeightKey
    end) t.
Proof.
  intros g Hh Hd. unfold setNodeHeightToDAHeight. wp_read.
  change (GetHeaderDAIncludedByHeight h (t_mgr t)) with (hstatus t h). rewrite Hh. apply wp_bind.
  apply (wp_t_put (height_keys h)); [by left|by intros; split|]. intros t1 F1 C1 _. apply wp_bind.
  assert (Hp : wp (if empty_data data then mret (dah, dah) else
    m ← gets t_mgr;
    match GetDataDAIncludedByHeight h m with
    | None => throw (SubMsg "data not found in cache")
    | Some daHeightForData => mret (daHeightForData, Z.min daHeightForData dah)
    end : TM (Z * Z)) (fun r t' => t' = t1 /\ r = Ok (dad, Z.min dah dad)) t1).
  { unfold data_da in Hd. destruct (empty_data data).
    - apply wp_ret. split; [done|]. assert (dad = dah) as -> by congruence. by rewrite Z.min_id.
    - wp_read. unfold GetDataDAIncludedByHeight. rewrite (fr_data _ _ _ F1).
      change (getDAIncludedByHeight h (dataCache (t_mgr t))) with (dstatus t h). rewrite Hd.
      apply wp_ret. by rewrite Z.min_comm. }
  eapply wp_mono; [exact Hp|]. intros r ? [-> ->]. cbn beta iota. apply wp_bind.
  apply (wp_t_put (height_keys h)).
  { right. left. }
  { intros e t2 F2 Hn. split; [by transitivity t1; [|apply F2]|]. intros Hs. by apply Hn, (fr_store _ _ _ F1). }
  intros t2 F2 C2 _. assert (F12 : t_frame (height_keys h) t t2) by (by transitivity t1).
  assert (M2 : recorded_at (t_contents t2) h dah dad /\
               c_meta (t_contents t2) GenesisDAHeightKey = c_meta (t_contents t) GenesisDAHeightKey).
  { unfold recorded_at. rewrite !(same_meta _ _ C2). simpl. rewrite !upd_eq, !upd_ne, !(same_meta _ _ C1);
      [|done|apply header_data_key]. simpl. by rewrite upd_eq, upd_ne. }
  destruct g eqn:Hg; [|by apply wp_ret]. apply wp_bind.
  apply (wp_t_put (height_keys h)).
  { rewrite elem_of_height_keys. apply Z.eqb_eq in Hg. auto. }
  { intros e t3 F3 Hn. split; [by transitivity t2; [|apply F3]|]. intros Hs. by apply Hn, (fr_store _ _ _ F12). }
  intros t3 F3 C3 _. apply wp_modify. split.
  - transitivity t3; [by transitivity t2|]. by split.
  - change (t_contents (set_sub_sequencer _ t3)) with (t_contents t3). unfold recorded_at in *.
    rewrite !(same_meta _ _ C3). simpl. rewrite upd_eq, !upd_ne by done. tauto.
Qed.

Lemma set_final_spec K h t left :
  (0 < left)%nat ->
  wp (set_final_attempts left h) (fun r t' => t_frame K t t' /\
    t_contents t' = t_contents t /\
    match r with Ok _ => is_final (sub_exec t') h | Err _ => ~ exec_healthy (sub_exec t) end) t.
Proof.
  revert t. induction left as [|left IH]; intros t Hl; [lia|]. cbn [set_final_attempts].
  apply wp_bind, wp_attempt, wp_zoom, wp_wrap. eapply wp_mono; [apply SetFinal_law|].
  intros [[]|e] x' (Hf & Hh & Hr); cbn beta iota delta [map_err].
  { apply wp_ret. split; [|by split]. by split. }
  set (t1 := set_sub_exec x' t). assert (F1 : t_frame K t t1) by (by split).
  destruct (Nat.eqb_spec left 0) as [->|Hne]; [apply wp_throw; by split_and!|].
  apply wp_bind, wp_zoom, wp_on_client, wp_rpc, wp_infallible. split.
  { eapply client_step_api; [apply backoff_law|done]. }
  intros s' Hs' _. set (t2 := set_sub s' t1).
  assert (F2 : t_frame K t1 t2).
  { destruct Hs' as (Hm & _). split; unfold t_contents, t_store, t_mgr in *; simpl; rewrite ?Hm; try done. }
  assert (C2 : t_contents t2 = t_contents t).
  { destruct Hs' as (Hm & _). unfold t_contents, t_store, t_mgr. simpl. by rewrite Hm. }
  destruct (backoff_cancelled _).1; [apply wp_throw; split_and!; [by transitivity t1|done..]|].
  eapply wp_mono; [apply IH; lia|]. intros r t3 (F3 & C3 & Hr3).
  split_and!; [by do 2 (etransitivity; [eassumption|])|congruence|].
  destruct r; [done|]. done.
Qed.

(** The block of a height can be included: it is stored, not above the store's
    height, and its header and data are on the DA layer. *)
Definition includable (t : T) (h : Z) : Prop :=
  exists top header data, c_height (t_contents t) = Ok top /\ h <= top /\
    c_block (t_contents t) h = Ok (header, data) /\ included_at t h data.

(** What is known of an included block: where its parts are on the DA layer,
    that the store says so, and that the executor has finalized it. *)
Definition included_block (t t' : T) (h : Z) : Prop :=
  exists header data dah dad, c_block (t_contents t) h = Ok (header, data) /\
    hstatus t h = Some dah /\ data_da t h data = Some dad /\
    recorded_at (t_contents t') h dah dad /\ is_final (sub_exec t') h /\
    (h = 1 -> c_meta (t_contents t') GenesisDAHeightKey = Ok (put_uint64_le (Z.min dah dad))).

(** One round that advances to [h]. *)
Record advanced (h : Z) (t t' : T) : Prop := MkAdvanced
  { adv_can : includable t h;
    adv_block : included_block t t' h;
    adv_genesis : h <> 1 -> c_meta (t_contents t') GenesisDAHeightKey = c_meta (t_contents t) GenesisDAHeightKey;
    adv_persisted : c_meta (t_contents t') DAIncludedHeightKey = Ok (put_uint64_le h);
    adv_included : daIncludedHeight t' = h;
    adv_header : headerCache (t_mgr t') = deleteAllForHeight h (headerCache (t_mgr t));
    adv_data : dataCache (t_mgr t') = deleteAllForHeight h (dataCache (t_mgr t));
    adv_contents : meta_frame (inclusion_keys h) (t_contents t) (t_contents t');
    adv_healthy : t_healthy t -> t_healthy t';
    adv_final h' : is_final (sub_exec t) h' -> is_final (sub_exec t') h' }.

(** One round that breaks. *)
Definition stopped (h : Z) (t t' : T) : Prop := t_frame (height_keys h) t t' /\ (t_healthy t -> ~ includable t h).

Lemma stopped_unhealthy h t t' : t_frame (height_keys h) t t' -> ~ t_healthy t -> stopped h t t'.
Proof. by split. Qed.

Lemma fr_status K t t' h data : t_frame K t t' -> hstatus t' h = hstatus t h /\ data_da t' h data = data_da t h data.
Proof. intros F. unfold data_da, hstatus, dstatus. by rewrite (fr_header _ _ _ F), (fr_data _ _ _ F). Qed.

(** Including a block that can be included: every step succeeds, or one failed. *)
Lemma include_block_spec h data header dah dad t :
  0 <= h -> includable t h -> c_block (t_contents t) h = Ok (header, data) ->
  hstatus t h = Some dah -> data_da t h data = Some dad ->
  wp (include_block h data (h =? 1)) (fun r t' =>
    match r with Ok true => advanced h t t' | Ok false => t_frame (height_keys h) t t' /\ ~ t_healthy t | Err _ => False end) t.
Proof.
  intros Hh0 Hcan Hb Hdah Hdad. unfold include_block.
  apply wp_bind, wp_attempt. eapply wp_mono; [by apply setNodeHeight_spec|].
  intros r t1 [F1 Hr]. destruct r as [[]|e]; cbn [is_ok negb]; cycle 1.
  { apply wp_ret. split; [done|]. intros [Hs _]. by apply Hr. }
  destruct Hr as [Hrec Hgen]. apply wp_bind, wp_attempt.
  eapply wp_mono; [apply (set_final_spec (height_keys h)); unfold MaxRetriesBeforeHalt; lia|].
  intros r t2 (F2 & C2 & Hfin). assert (F12 : t_frame (height_keys h) t t2) by (by transitivity t1).
  destruct r as [[]|e]; cbn [is_ok negb]; cycle 1.
  { apply wp_ret. split; [done|]. intros [_ Hs]. by apply Hfin, (fr_exec _ _ _ F1). }
  apply wp_bind, wp_attempt. apply (wp_t_put (inclusion_keys h)); [left| |].
  { intros e t3 F3 Hn. cbn [is_ok negb]. apply wp_ret. split; [transitivity t2; [done|apply F3]|].
    intros [Hs _]. by apply Hn, (fr_store _ _ _ F12). }
  intros t3 F3 C3 E3. cbn [is_ok negb]. apply wp_bind, wp_modify. apply wp_bind, wp_modify. apply wp_ret.
  assert (F13 : t_frame (inclusion_keys h) t t3).
  { transitivity t2; [|done]. eapply t_frame_weaken; [apply height_keys_sub|done]. }
  assert (M3 : forall k, k <> DAIncludedHeightKey -> c_meta (t_contents t3) k = c_meta (t_contents t1) k).
  { intros k Hk. rewrite (same_meta _ _ C3). simpl. by rewrite upd_ne, C2. }
  destruct F13 as [A1 A2 A3 A4 A5 A6 A7 A8]. unfold t_contents, t_store, t_mgr in *.
  split; unfold t_contents, t_store, t_mgr, t_healthy in *; simpl; try done.
  - exists header, data, dah, dad. destruct Hrec as [R1 R2].
    split_and!; [done..| |by simpl; rewrite E3|].
    + split; cbn; unfold t_contents, t_store, t_mgr in *; by rewrite M3.
    + intros ->. cbn. unfold t_contents, t_store, t_mgr in *. rewrite M3 by done. by rewrite Hgen.
  - intros Hne. rewrite M3 by done. rewrite Hgen. by destruct (Z.eqb_spec h 1).
  - rewrite (same_meta _ _ C3). simpl. by rewrite upd_eq.
  - by rewrite A1.
  - by rewrite A2.
  - intros [? ?]. split; auto.
Qed.

(** Reads before the round do not matter. *)
Lemma advanced_frame h t t1 t' : 0 <= h -> t_frame [] t t1 -> advanced h t1 t' -> advanced h t t'.
Proof.
  intros Hh F [A1 A2 A3 A4 A5 A6 A7 A8 A9 A10].
  assert (S : forall data, hstatus t1 h = hstatus t h /\ data_da t1 h data = data_da t h data).
  { intros data. by apply (fr_status []). }
  destruct (fr_contents _ _ _ F) as (C1 & C2 & C3 & C4).
  split; rewrite <- ?(fr_header _ _ _ F), <- ?(fr_data _ _ _ F); try done.
  - destruct A1 as (top & header & data & B1 & B2 & B3 & B4). exists top, header, data.
    rewrite C1 in B1. rewrite C3 in B3 by done. unfold included_at in *. destruct (S data) as [S1 S2].
    by rewrite S1, S2 in B4.
  - destruct A2 as (header & data & dah & dad & B1 & B2 & B3 & B4). exists header, data, dah, dad.
    destruct (S data) as [S1 S2]. by rewrite C3, S1, S2 in * by done.
  - intros Hne. rewrite A3 by done. apply C4, not_elem_of_nil.
  - transitivity (t_contents t1); [|done]. split_and!; try done. intros k _. apply C4, not_elem_of_nil.
  - intros [? ?]. apply A9. split; [by apply (fr_store _ _ _ F)|by apply (fr_exec _ _ _ F)].
  - intros h' Hf. by apply A10, (fr_final _ _ _ F).
Qed.

Lemma inclusion_step_spec top t :
  0 <= daIncludedHeight t -> daIncludedHeight t + 1 < two64 -> c_height (t_contents t) = Ok top ->
  wp (inclusion_step (daIncludedHeight t)) (fun r t' =>
    match r with
    | Ok true => advanced (daIncludedHeight t + 1) t t'
    | Ok false => stopped (daIncludedHeight t + 1) t t'
    | Err _ => False
    end) t.
Proof.
  intros Hn Hmax Htop. unfold inclusion_step. rewrite add64_small by lia. set (h := daIncludedHeight t + 1).
  cbv zeta. assert (Hu : is_u64 h) by (unfold is_u64; lia).
  apply wp_bind, wp_attempt. eapply (wp_t_read _ _ []); [by apply GetBlockData_law|]. intros r t1 F1 Hr.
  assert (Hsub : forall K t', t_frame [] t t' -> t_frame K t t').
  { intros K t'. apply t_frame_weaken. by intros k ?%not_elem_of_nil. }
  destruct r as [[header data]|e]; cycle 1.
  { apply wp_ret. split; [by apply Hsub|]. intros [Hs _] (? & hd & d & _ & _ & Hb & _). rewrite Hb in Hr.
    destruct Hr as [?|[? _]]; done. }
  assert (Hb : c_block (t_contents t) h = Ok (header, data)).
  { destruct Hr as [Hr|(_ & e & ?)]; [|done]. cbn beta in Hr.
    destruct (c_block (t_contents t) h); [by injection Hr as ->|done]. }
  clear Hr. assert (Htop1 : c_height (t_contents t1) = Ok top) by (by rewrite (proj1 (fr_contents _ _ _ F1))).
  apply wp_bind, wp_attempt.
  eapply wp_mono; [apply (IsHeightDAIncluded_spec [] h data top); [rewrite (fr_included _ _ _ F1); lia|done]|].
  intros r t2 [F2 Hr]. assert (F12 : t_frame [] t t2) by (by transitivity t1).
  destruct (fr_status _ _ _ h data F1) as [S1 S2]. unfold included_at in Hr. rewrite S1, S2 in Hr.
  destruct r as [[]|e]; cycle 1.
  { apply wp_ret. split; [by apply Hsub|]. intros _ (top' & hd & d & Ht & Hle & Hb' & Hi).
    rewrite Hb in Hb'. rewrite Htop in Ht. simplify_eq. discriminate (proj2 Hr (conj Hle Hi)). }
  { apply wp_ret. split; [by apply Hsub|]. intros [Hs _]. by destruct Hr; apply (fr_store _ _ _ F1). }
  destruct (proj1 Hr eq_refl) as (Hle & [dah Hdah] & [dad Hdad]). clear Hr S1 S2.
  destruct (fr_status _ _ _ h data F12) as [S1 S2].
  assert (Hb2 : c_block (t_contents t2) h = Ok (header, data)).
  { destruct (fr_contents _ _ _ F12) as (_ & _ & -> & _); [done|lia]. }
  replace (daIncludedHeight t =? 0) with (h =? 1) by (subst h; destruct (Z.eqb_spec (daIncludedHeight t) 0); lia).
  eapply wp_mono.
  { apply (include_block_spec h data header dah dad t2); [lia| |done|congruence..].
    exists top, header, data. split_and!; [by rewrite (proj1 (fr_contents _ _ _ F12))|done|done|].
    split; rewrite ?S1, ?S2; eauto. }
  intros [[]|e] t3 Hr; [by apply (advanced_frame h t t2); [lia|..]| |done].
  destruct Hr as [F3 Hn3]. split; [transitivity t2; [by apply Hsub|done]|].
  intros [Hs Hx]. destruct Hn3. split; [by apply (fr_store _ _ _ F12)|by apply (fr_exec _ _ _ F12)].
Qed.

(** ** A tick *)

(** What a tick of the inclusion loop does. *)
Record ticked (t t' : T) : Prop := MkTicked
  { tk_monotone : daIncludedHeight t <= daIncludedHeight t';
    tk_blocks h : daIncludedHeight t < h <= daIncludedHeight t' -> included_block t t' h;
    tk_persisted : c_meta (t_contents t') DAIncludedHeightKey =
      if decide (daIncludedHeight t = daIncludedHeight t') then c_meta (t_contents t) DAIncludedHeightKey
      else Ok (put_uint64_le (daIncludedHeight t'));
    tk_header : forgot (daIncludedHeight t) (daIncludedHeight t') (headerCache (t_mgr t)) (headerCache (t_mgr t'));
    tk_data : forgot (daIncludedHeight t) (daIncludedHeight t') (dataCache (t_mgr t)) (dataCache (t_mgr t'));
    tk_contents : c_height (t_contents t') = c_height (t_contents t) /\
      (forall h, 0 <= h -> c_header (t_contents t') h = c_header (t_contents t) h) /\
      (forall h, 0 <= h -> c_block (t_contents t') h = c_block (t_contents t) h);
    tk_meta k : k <> DAIncludedHeightKey ->
      (forall h, daIncludedHeight t < h <= daIncludedHeight t' + 1 -> k ∉ height_keys h) ->
      c_meta (t_contents t') k = c_meta (t_contents t) k;
    tk_final h : is_final (sub_exec t) h -> is_final (sub_exec t') h;
    tk_maximal : t_healthy t -> ~ includable t' (daIncludedHeight t' + 1) }.

Lemma stopped_ticked t t' : 0 <= daIncludedHeight t -> stopped (daIncludedHeight t + 1) t t' -> ticked t t'.
Proof.
  intros Hn [[A1 A2 A3 A4 (B1 & B2 & B3 & B4) A6 A7 A8] Hmax]. split; rewrite ?A4; try done.
  - lia.
  - rewrite decide_True by done. apply B4. by rewrite elem_of_height_keys; intros [?|[?|[_ ?]]].
  - rewrite A1. apply forgot_none.
  - rewrite A2. apply forgot_none.
  - intros k _ Hk. apply B4, Hk. lia.
  - intros Hok (top & header & data & C1 & C2 & C3 & C4). apply (Hmax Hok). exists top, header, data.
    rewrite <- B1, <- B3 by lia. split_and!; try done. unfold included_at, data_da, hstatus, dstatus in *. by rewrite A1, A2 in C4.
Qed.

Lemma advanced_forgot t t1 h : advanced h t t1 ->
  forgot (h - 1) h (headerCache (t_mgr t)) (headerCache (t_mgr t1)) /\ forgot (h - 1) h (dataCache (t_mgr t)) (dataCache (t_mgr t1)).
Proof. intros A. rewrite (adv_header _ _ _ A), (adv_data _ _ _ A). split; apply deleteAllForHeight_forgot. Qed.

(** The blocks included before stay recorded. *)
Lemma included_block_later t t1 t' h :
  0 <= h <= daIncludedHeight t1 -> included_block t t1 h -> ticked t1 t' -> included_block t t' h.
Proof.
  intros Hh (header & data & dah & dad & B1 & B2 & B3 & [B4 B5] & B6 & B7) K.
  assert (Ha : forall h', daIncludedHeight t1 < h' <= daIncludedHeight t' + 1 ->
    GetHeightToDAHeightHeaderKey h ∉ height_keys h' /\ GetHeightToDAHeightDataKey h ∉ height_keys h').
  { intros h' Hh'. apply height_keys_apart; lia. }
  exists header, data, dah, dad. split_and!; try done.
  - split; (rewrite (tk_meta _ _ K); [done|done|]); intros h' Hh'; by apply Ha.
  - by apply (tk_final _ _ K).
  - intros ->. rewrite (tk_meta _ _ K); [by apply B7|done|]. intros h' Hh'.
    rewrite elem_of_height_keys. intros [?|[?|[? _]]]; [done..|lia].
Qed.

Lemma advanced_ticked t t1 t' :
  0 <= daIncludedHeight t -> advanced (daIncludedHeight t + 1) t t1 -> ticked t1 t' -> ticked t t'.
Proof.
  intros Hn A K. destruct (advanced_forgot _ _ _ A) as [Fh Fd].
  replace (daIncludedHeight t + 1 - 1) with (daIncludedHeight t) in Fh, Fd by lia.
  pose proof (adv_included _ _ _ A) as Hinc. pose proof (tk_monotone _ _ K) as Hmono. rewrite Hinc in Hmono.
  destruct (adv_contents _ _ _ A) as (C1 & C2 & C3 & C4). destruct (tk_contents _ _ K) as (D1 & D2 & D3).
  pose proof (tk_header _ _ K) as Kh. pose proof (tk_data _ _ K) as Kd. rewrite Hinc in Kh, Kd.
  assert (Hst : forall h d, (hstatus t1 h = Some d -> hstatus t h = Some d) /\ (dstatus t1 h = Some d -> dstatus t h = Some d)).
  { intros h d. unfold hstatus, dstatus. split; [destruct (fg_either _ _ _ _ Fh h) as [E|E]|destruct (fg_either _ _ _ _ Fd h) as [E|E]]; congruence. }
  split.
  - lia.
  - intros h Hh. destruct (decide (h = daIncludedHeight t + 1)) as [->|Hne].
    + eapply included_block_later; [|apply (adv_block _ _ _ A)|done]. lia.
    + destruct (tk_blocks _ _ K h) as (header & data & dah & dad & B1 & B2 & B3 & B4); [lia|].
      exists header, data, dah, dad. rewrite C3 in B1 by lia. split; [done|]. split; [by apply Hst|]. split; [|done].
      unfold data_da in *. destruct (empty_data data); by apply Hst.
  - rewrite (decide_False (P := daIncludedHeight t = _)) by lia. rewrite (tk_persisted _ _ K), Hinc.
    destruct (decide _) as [Heq|]; [|done]. by rewrite (adv_persisted _ _ _ A), Heq.
  - by eapply forgot_trans; [|exact Fh|exact Kh]; lia.
  - by eapply forgot_trans; [|exact Fd|exact Kd]; lia.
  - split_and!; [congruence|..]; intros h Hh; [by rewrite D2, C2|by rewrite D3, C3].
  - intros k Hk Hkeys. rewrite (tk_meta _ _ K); [|done|intros h Hh; apply Hkeys; lia].
    apply C4. unfold inclusion_keys. rewrite elem_of_cons. intros [?|Hin]; [done|]. revert Hin. apply Hkeys. lia.
  - intros h Hf. by apply (tk_final _ _ K), (adv_final _ _ _ A).
  - intros Hs. apply (tk_maximal _ _ K). by apply (adv_healthy _ _ _ A).
Qed.

Lemma inclusion_loop_spec top fuel : forall t,
  0 <= daIncludedHeight t < max_u64 -> top < max_u64 -> c_height (t_contents t) = Ok top ->
  (Z.to_nat (top - daIncludedHeight t) < fuel)%nat ->
  wp (inclusion_loop fuel (daIncludedHeight t)) (fun r t' => r = Ok true /\ ticked t t') t.
Proof.
  induction fuel as [|fuel IH]; intros t Hn Hmax Htop Hfuel; [lia|]. cbn [inclusion_loop].
  change max_u64 with (two64 - 1) in *.
  apply wp_bind. eapply wp_mono; [by apply (inclusion_step_spec top); [lia|lia|]|].
  intros [[]|e] t1 Hr; [| |done]; cbn beta iota; cycle 1.
  { apply wp_ret. split; [done|by apply stopped_ticked; [lia|]]. }
  destruct (adv_can _ _ _ Hr) as (top' & header & data & Ht & Hle & _). rewrite Htop in Ht. simplify_eq.
  pose proof (adv_included _ _ _ Hr) as Hinc. rewrite add64_small by lia. rewrite <- Hinc.
  eapply wp_mono; [apply IH|].
  - lia.
  - lia.
  - by rewrite (proj1 (adv_contents _ _ _ Hr)).
  - lia.
  - intros r t' [-> K]. split; [done|]. by eapply advanced_ticked; [lia|..].
Qed.

(** C9: A tick of the inclusion loop ends, and advances the DA included height
    as far as the blocks allow, for a stored height below the largest uint64.
    Every height it passes has a stored block whose header and (unless it is
    empty) data had an inclusion status in the caches when the tick began, the
    DA heights of these statuses are recorded in the store, the new height is
    persisted, and the executor has finalized the block. The caches forget the
    passed heights: their statuses are gone, and so may be that of a height
    which shares its hash with a passed one (blocks with the same transactions
    share their data hash); every other status stays. Unless the backend or the
    executor failed, the block after the new height is, by the statuses left,
    not includable. At most one round per block of the store is needed. *)
Theorem da_inclusion_exact fuel top t :
  0 <= daIncludedHeight t < max_u64 -> top < max_u64 -> c_height (t_contents t) = Ok top ->
  (Z.to_nat (top - daIncludedHeight t) < fuel)%nat ->
  exists t', processDAInclusion fuel t = (Ok true, t') /\ ticked t t'.
Proof.
  intros Hn Hmax Htop Hfuel.
  destruct (wp_exists (processDAInclusion fuel) (fun r t' => r = Ok true /\ ticked t t') t) as (r & t' & Hr & -> & K).
  - unfold processDAInclusion. wp_read. by eapply inclusion_loop_spec.
  - eauto.
Qed.

(** ** A tick of the header submission *)

Context `{!SignerLaws (SG := SG)}.

Definition chain_of (c : contents PK) (h : Z) : option (SignedHeader PK) :=
  match c_header c h with Ok header => Some header | Err _ => None end.

Definition t_world (t : T) : W := world (sub t).
Definition submitted_height (t : T) : Z := lastHeight (pendingHeaders (t_mgr t)).

(** The invariant of the submission of headers: the node has its signer, the
    caches hold what the store does, and stored headers have their own height. *)
Record submit_inv (pk : PK) (top : Z) (t : T) : Prop := MkSubmitInv
  { si_signer : exists g, sgn (sub t) = Some g /\ sg_key g = pk;
    si_last : 0 <= lastSubmittedHeight (das (sub t)) <= submitted_height t;
    si_envelopes : cache_signed (chain_of (t_contents t)) pk (das (sub t));
    si_coherent : coherent header_item (t_contents t) (pendingHeaders (t_mgr t));
    si_heights h header : 0 <= h -> c_header (t_contents t) h = Ok header -> Height_of header = h;
    si_top : c_height (t_contents t) = Ok top }.

(** The headers of the heights that the submitted height passed are on the DA
    layer, and recorded as such. *)
Definition header_progress (pk : PK) (t t' : T) : Prop :=
  exists headers da, submitted_height t' = submitted_height t + zlen headers /\
    Ok <$> headers = c_header (t_contents t) <$> z_range (submitted_height t + 1) (submitted_height t') /\
    Forall (fun header => exists e, good_envelope pk header e /\
              on_da (t_world t') (namespaceBz (das (sub t))) da e) headers /\
    headerCache (t_mgr t') = foldl (include_header da) (headerCache (t_mgr t)) headers /\
    dataCache (t_mgr t') = dataCache (t_mgr t) /\ pendingData (t_mgr t') = pendingData (t_mgr t) /\
    daIncludedHeight t' = daIncludedHeight t /\ da_extends (t_world t) (t_world t') /\
    agree_but (metaKey (pendingHeaders (t_mgr t))) (t_contents t') (t_contents t).

(** Steps that submit nothing. *)
Record quiet (t t' : T) : Prop := MkQuiet
  { q_contents : t_contents t' ≡ t_contents t;
    q_last : submitted_height t' = submitted_height t;
    q_key : metaKey (pendingHeaders (t_mgr t')) = metaKey (pendingHeaders (t_mgr t));
    q_coherent : coherent header_item (t_contents t) (pendingHeaders (t_mgr t)) ->
                 coherent header_item (t_contents t) (pendingHeaders (t_mgr t'));
    q_header : headerCache (t_mgr t') = headerCache (t_mgr t);
    q_data : dataCache (t_mgr t') = dataCache (t_mgr t) /\ pendingData (t_mgr t') = pendingData (t_mgr t);
    q_included : daIncludedHeight t' = daIncludedHeight t;
    q_signer : sgn (sub t') = sgn (sub t);
    q_client : da_extends (t_world t) (t_world t');
    q_das : exists x c, das (sub t') = set_das_selector x (set_das_client c (das (sub t))) }.

Lemma coherent_equiv c c' (pb : pendingBase C (SignedHeader PK)) :
  (forall h, 0 <= h -> c_header c' h = c_header c h) -> coherent header_item c pb -> coherent header_item c' pb.
Proof. intros Hc Hco h v Hh Hp. rewrite <- (Hco h v Hh Hp). unfold header_item. by rewrite Hc. Qed.

Lemma cache_signed_equiv c c' pk (d : DASubmitter W HA C) :
  0 <= lastSubmittedHeight d -> (forall h, 0 <= h -> c_header c' h = c_header c h) ->
  cache_signed (chain_of c) pk d -> cache_signed (chain_of c') pk d.
Proof.
  intros Hl Hc Hs x h e Hx Hh Hp. destruct (Hs x h e Hx Hh Hp) as (header & Hch & Hg).
  exists header. split; [|done]. unfold chain_of in *. rewrite Hc by lia. done.
Qed.

#[export] Instance quiet_preorder : PreOrder quiet.
Proof.
  split.
  - intros t. split; try done. exists (das_selector (das (sub t))), (das_client (das (sub t))). by destruct (das (sub t)).
  - intros t1 t2 t3 [A1 A2 A3 A4 A5 [A6 A7] A8 A9 A10 (x & c & Ac)] [B1 B2 B3 B4 B5 [B6 B7] B8 B9 B10 (y & d & Bd)].
    split; try congruence.
    + by transitivity (t_contents t2).
    + intros Hco. apply (coherent_equiv (t_contents t2)); [intros h Hh; symmetry; by apply (same_header _ _ A1)|].
      apply B4. apply (coherent_equiv (t_contents t1)); [intros h Hh; by apply (same_header _ _ A1)|auto].
    + split; congruence.
    + by transitivity (t_world t2).
    + exists y, d. by rewrite Bd, Ac.
Qed.

Lemma quiet_inv pk top t t' : quiet t t' -> submit_inv pk top t -> submit_inv pk top t'.
Proof.
  intros [A1 A2 A3 A4 A5 A6 A8 A9 A10 (x & c & Ac)] [B1 B2 B3 B4 B5 B6].
  assert (Hh : forall h, 0 <= h -> c_header (t_contents t') h = c_header (t_contents t) h).
  { intros h Hh. by apply (same_header _ _ A1). }
  split.
  - by rewrite A9.
  - by rewrite Ac, A2.
  - rewrite Ac. apply (cache_signed_equiv (t_contents t)); [by simpl; lia|done|].
    eapply cache_signed_later; [| |exact B3]; done.
  - apply (coherent_equiv (t_contents t)); [done|auto].
  - intros h header Hp. rewrite Hh by done. auto.
  - by rewrite (same_height _ _ A1).
Qed.

Lemma quiet_progress pk t t' : quiet t t' -> header_progress pk t t'.
Proof.
  intros [A1 A2 A3 A4 A5 [A6 A7] A8 A9 A10 A11]. exists [], 0. rewrite A2, z_range_nil by lia.
  split_and!; try done; [unfold zlen; simpl; lia|by apply agree_but_same].
Qed.

(** Progress after quiet steps. *)
Lemma quiet_then pk t t1 t2 : 0 <= submitted_height t -> quiet t t1 -> header_progress pk t1 t2 -> header_progress pk t t2.
Proof.
  intros Hl Q (headers & da & P1 & P2 & P3 & P4 & P5 & P6 & P7 & P8 & P9).
  destruct Q as [A1 A2 A3 A4 A5 [A6 A7] A8 A9 A10 (x & c & Ac)]. exists headers, da.
  rewrite A2 in *. rewrite A5 in P4. rewrite Ac in P3. split_and!; try done; try congruence.
  - rewrite P2. apply list_fmap_ext. intros i h Hh. apply (same_header _ _ A1).
    apply list_elem_of_lookup_2, elem_of_z_range in Hh. lia.
  - by transitivity (t_world t1).
  - rewrite <- A3. etransitivity; [exact P9|]. by apply agree_but_same.
Qed.

Lemma now_quiet t : wp t_now (fun r t' => quiet t t' /\ exists z, r = Ok z) t.
Proof.
  apply wp_zoom, wp_on_client, wp_now. intros z c' Hc. split; [done|].
  intros s' (Hm & Hg & [He _] & x & c & Hd) Hw. split; [|by exists z].
  split; unfold t_contents, t_store, submitted_height, t_mgr, t_world, world; simpl; rewrite ?Hm; try done. eauto.
Qed.

Lemma num_pending_quiet t : wp (on_t_mgr NumPendingHeaders) (fun r t' => quiet t t' /\ exists n, r = Ok n) t.
Proof.
  apply wp_zoom, wp_wrap, wp_zoom. eapply wp_mono; [apply numPending_spec|].
  intros r [pb st] (n & -> & Hpb & Hc & _). cbn [fst snd] in *. subst pb. split; [|by eexists].
  split; try done. exists (das_selector (das (sub t))), (das_client (das (sub t))). by destruct t as [[[]]].
Qed.

Lemma lookup_z_range lo hi i : lo + Z.of_nat i <= hi -> z_range lo hi !! i = Some (lo + Z.of_nat i).
Proof.
  intros Hi. unfold z_range. rewrite list_lookup_fmap, lookup_seq_lt by lia. done.
Qed.

Lemma length_z_range lo hi : length (z_range lo hi) = Z.to_nat (hi - lo + 1).
Proof. unfold z_range. by rewrite length_fmap, length_seq. Qed.

(** The pending headers are the next ones of the store. *)
Lemma pending_lookup (c : contents PK) last top headers i header :
  Ok <$> headers = header_item c <$> pending_heights last top -> headers !! i = Some header ->
  c_header c (last + 1 + Z.of_nat i) = Ok header.
Proof.
  intros Heq Hi. assert (Hl : (Ok (E := cache_error) <$> headers) !! i = Some (Ok header)) by (by rewrite list_lookup_fmap, Hi).
  rewrite Heq in Hl. apply list_lookup_fmap_Some in Hl as (h & Hitem & Hh). unfold pending_heights in Hh.
  pose proof (lookup_lt_Some _ _ _ Hh) as Hlt. rewrite length_z_range in Hlt.
  rewrite lookup_z_range in Hh by lia. simplify_eq. unfold header_item in Hitem.
  destruct (c_header c _) as [hd|]; [|done]. cbn in Hitem. by destruct (_ =? 0); simplify_eq.
Qed.

Lemma next_pending pk top t headers :
  submit_inv pk top t -> Ok <$> headers = header_item (t_contents t) <$> pending_heights (submitted_height t) top ->
  next_headers (chain_of (t_contents t)) (submitted_height t) headers.
Proof.
  intros Hinv Heq i header Hi. pose proof (pending_lookup _ _ _ _ _ _ Heq Hi) as Hc.
  pose proof (si_last _ _ _ Hinv). assert (Hh : Height_of header = submitted_height t + 1 + Z.of_nat i).
  { eapply si_heights; [done| |done]. lia. }
  split; [done|]. unfold chain_of. by rewrite Hh, Hc.
Qed.

Lemma pending_prefix (c : contents PK) last top headers k :
  Ok <$> headers = header_item c <$> pending_heights last top -> (k <= length headers)%nat ->
  Ok <$> take k headers = c_header c <$> z_range (last + 1) (last + Z.of_nat k).
Proof.
  intros Heq Hk. apply list_eq. intros i. rewrite !list_lookup_fmap. destruct (decide (i < k)%nat) as [Hi|Hi].
  - rewrite lookup_take_lt, lookup_z_range by lia. destruct (lookup_lt_is_Some_2 headers i) as [header Hh]; [lia|].
    rewrite Hh. simpl. by rewrite (pending_lookup _ _ _ _ _ _ Heq Hh).
  - rewrite !(lookup_ge_None_2 _ i); [done|rewrite length_z_range; lia|rewrite length_take; lia].
Qed.

Lemma get_pending_quiet pk top t :
  submit_inv pk top t -> top < max_u64 ->
  wp (on_t_mgr mgr_GetPendingHeaders) (fun r t' => quiet t t' /\
    match r with
    | Ok (headers, blobs) =>
        Ok <$> headers = header_item (t_contents t) <$> pending_heights (submitted_height t) top /\
        Forall2 (fun header b => marshal_signed_header header = Ok b) headers blobs
    | Err _ => True
    end) t.
Proof.
  intros Hinv Hmax. apply wp_zoom, wp_wrap, wp_zoom.
  destruct (pending_headers_exact (pendingHeaders (t_mgr t)) (t_store t) top) as (r & [pb st] & Hr & Hc & Hco & Hl & Hm & Hres);
    [apply Hinv|pose proof (si_last _ _ _ Hinv); unfold submitted_height in *; lia|apply Hinv|done|].
  assert (Hw : wp GetPendingHeaders (fun r' x => r' = r /\ x = (pb, st)) (pendingHeaders (t_mgr t), t_store t)).
  { unfold wp. by rewrite Hr. }
  eapply wp_mono; [exact Hw|]. intros r' x [-> ->]. cbn [fst snd] in *. split.
  - split; try done. exists (das_selector (das (sub t))), (das_client (das (sub t))). by destruct t as [[[]]].
  - destruct r as [[headers blobs]|e]; simpl; [by destruct Hres as (_ & ? & ?)|done].
Qed.

(** A run of [SubmitHeaders] on the pending headers keeps the invariant and makes progress. *)
Lemma submit_progress pk top t headers r s' :
  submit_inv pk top t -> Ok <$> headers = header_item (t_contents t) <$> pending_heights (submitted_height t) top ->
  headers_outcome (chain_of (t_contents t)) pk headers (sub t) r s' ->
  submit_inv pk top (set_sub s' t) /\ header_progress pk t (set_sub s' t).
Proof.
  intros Hinv Heq ((k & da & Hk & _ & Hda & Hcache & Hpend) & Hext & Hsig & Hls & Hdc & Hpd & Hg & Hns & Hagree).
  assert (Hh : forall h, 0 <= h -> c_header (t_contents (set_sub s' t)) h = c_header (t_contents t) h).
  { intros h Hh. exact (same_header _ _ Hagree h Hh). }
  assert (Hsub : submitted_height (set_sub s' t) = submitted_height t + Z.of_nat k).
  { unfold submitted_height, t_mgr. simpl. by rewrite Hpend. }
  pose proof (si_last _ _ _ Hinv) as Hl0. split.
  - destruct Hinv as [B1 B2 B3 B4 B5 B6]. split.
    + exact Hg.
    + unfold submitted_height, t_mgr. cbn [sub set_sub]. lia.
    + eapply cache_signed_equiv; [cbn [sub set_sub]; lia|exact Hh|exact Hsig].
    + eapply coherent_equiv; [exact Hh|]. unfold t_mgr. cbn [sub set_sub]. by rewrite Hpend.
    + intros h header Hp. rewrite Hh by done. auto.
    + rewrite <- B6. exact (same_height _ _ Hagree).
  - exists (take k headers), da. rewrite Hsub. unfold zlen. rewrite length_take, Nat.min_l by lia.
    split_and!; try done. by apply (pending_prefix _ _ top).
Qed.

Lemma then_quiet pk t t1 t2 : header_progress pk t t1 -> quiet t1 t2 -> header_progress pk t t2.
Proof.
  intros (headers & da & P1 & P2 & P3 & P4 & P5 & P6 & P7 & P8 & P9) [A1 A2 A3 A4 A5 [A6 A7] A8 A9 A10 A11].
  exists headers, da. rewrite A2, A5, A6, A7, A8. split_and!; try done.
  - eapply list.Forall_impl; [exact P3|]. intros header (e & Hg & Ho). exists e. split; [done|]. by eapply on_da_extends.
  - by transitivity (t_world t1).
  - etransitivity; [apply agree_but_same, A1|done].
Qed.

Lemma SubmitHeaders_nil (s : SubState ST PK W HA SG C) blobs : SubmitHeaders [] blobs s = (Ok tt, s).
Proof. done. Qed.

Lemma submit_pending pk top t headers blobs :
  submit_inv pk top t -> Ok <$> headers = header_item (t_contents t) <$> pending_heights (submitted_height t) top ->
  Forall2 (fun header b => marshal_signed_header header = Ok b) headers blobs ->
  exists r s', SubmitHeaders headers blobs (sub t) = (r, s') /\
    submit_inv pk top (set_sub s' t) /\ header_progress pk t (set_sub s' t).
Proof.
  intros Hinv Heq Hb. destruct headers as [|header headers].
  - eexists _, _. split; [apply SubmitHeaders_nil|]. replace (set_sub (sub t) t) with t by (by destruct t).
    split; [done|]. by apply quiet_progress.
  - destruct (si_signer _ _ _ Hinv) as (g & Hg & Hk).
    destruct (SubmitHeaders_sound (chain_of (t_contents t)) pk g (header :: headers) blobs (sub t)) as (r & s' & Hr & Ho);
      try done; [by eapply next_pending|apply Hinv|apply Hinv|].
    exists r, s'. split; [done|]. by eapply submit_progress.
Qed.

Lemma critical_quiet e t : quiet t (sendCriticalError e t).
Proof.
  unfold sendCriticalError. destruct (errorCh t) as [[cap l]|]; [|done]. destruct (Nat.ltb _ _); [|done].
  split; try done. exists (das_selector (das (sub t))), (das_client (das (sub t))). by destruct t as [[[]]].
Qed.

(** C10: A tick of the header submission, composed of the pending headers, the
    batching strategy, signing, the DA client and the caches, keeps the
    submitter's invariant and moves the last submitted height only over headers
    that are on the DA layer: the heights it passes are consecutive, each has a
    stored header whose signed envelope the DA chain holds at the DA height
    that the cache now records for it, and nothing is recorded of any other
    height, whatever the node, the signer or the backend answer. *)
Theorem header_submission_sound pk top t :
  submit_inv pk top t -> top < max_u64 ->
  exists r t', header_submission t = (r, t') /\ submit_inv pk top t' /\ header_progress pk t t'.
Proof.
  intros Hinv Hmax. apply wp_exists. pose proof (si_last _ _ _ Hinv) as Hlast.
  assert (Hquiet : forall t', quiet t t' -> submit_inv pk top t' /\ header_progress pk t t').
  { intros t' Q. split; [by eapply quiet_inv|by apply quiet_progress]. }
  unfold header_submission, submission.
  apply wp_bind. eapply wp_mono; [apply num_pending_quiet|]. intros r t1 (Q1 & n & ->).
  destruct (n <=? 0); [apply wp_ret; auto|]. wp_read.
  apply wp_bind. eapply wp_mono; [apply now_quiet|]. intros r t2 (Q2' & z & ->).
  assert (Q2 : quiet t t2) by (by transitivity t1). cbv zeta.
  apply wp_bind, wp_attempt. eapply wp_mono; [apply (get_pending_quiet pk top); [by eapply quiet_inv|done]|].
  intros r t3 [Q3' Hr]. assert (Q3 : quiet t t3) by (by transitivity t2).
  destruct r as [[headers blobs]|e]; cycle 1.
  { destruct e as [| | | | |[]|]; first [apply wp_throw; by auto|apply wp_ret; by auto]. }
  destruct Hr as [Heq Hb]. wp_read. destruct (ShouldSubmit _ _ _ _ _); [|apply wp_ret; auto].
  pose proof (quiet_inv _ _ _ _ Q3 Hinv) as Hinv3.
  assert (Heq3 : Ok <$> headers = header_item (t_contents t3) <$> pending_heights (submitted_height t3) top).
  { rewrite Heq, (q_last _ _ Q3'). apply list_fmap_ext. intros i h Hh. unfold header_item.
    rewrite (same_header _ _ (q_contents _ _ Q3')); [done|]. pose proof (q_last _ _ Q2).
    apply list_elem_of_lookup_2 in Hh. unfold pending_heights in Hh. apply elem_of_z_range in Hh. lia. }
  destruct (submit_pending pk top t3 headers blobs Hinv3 Heq3 Hb) as (r & s' & Hrun & Hinv4 & Hpr).
  apply wp_bind, wp_attempt, wp_zoom. unfold wp at 1. rewrite Hrun. cbn [fst snd].
  assert (Hpr4 : header_progress pk t (set_sub s' t3)) by (eapply quiet_then; [lia|exact Q3|exact Hpr]).
  assert (Hend : forall t5, quiet (set_sub s' t3) t5 -> submit_inv pk top t5 /\ header_progress pk t t5).
  { intros t5 Q5. split; [by eapply quiet_inv|by eapply then_quiet]. }
  destruct r as [[]|[]]; try (apply wp_ret; by apply Hend); try (apply wp_throw; by apply Hend).
  - apply wp_bind. eapply wp_mono; [apply now_quiet|]. intros r t5 (Q5 & z' & ->). apply wp_modify.
    apply Hend. etransitivity; [exact Q5|]. split; try done. exists (das_selector (das (sub t5))), (das_client (das (sub t5))). by destruct t5 as [[[]]].
  - apply wp_modify, Hend. apply critical_quiet.
Qed.

End submitter.
