(* ===== verification/NodeInst.v ===== *)
(** * Concrete parameters for the components of a node

    An LRU cache without bound, a DA node in memory that accepts blobs, a signer
    for the toy keys, an executor that remembers what is final, and trivial
    hints, JSON and schedules: the interfaces of the submission components are
    satisfiable, and their witnesses can be evaluated. *)

From S2P Require Import Prelude Sha256 Datastore Types Serialization ProtoInst Store StoreFacts StoreMaintenance StoreAPI.
From S2P Require Import BlockCache Pending CacheManager DAClient DASubmitter DASubmitterFacts Batching Submitter.
From stdpp Require Import base gmap strings list numbers.
Open Scope Z_scope.

Module NodeInst.
Import ProtoInst MemDS MemDA StoreWitness.

(** ** Caches and schedules *)

#[export] Instance map_lru : LRU (gmap Z) := {
  lru_New V _ := ∅;
  lru_Peek V k c := c !! k;
  lru_Get V k c := (c !! k, c);
  lru_Add V k v c := <[k := v]> c
}.
#[export] Instance map_lru_laws : LRULaws (gmap Z).
Proof.
  split; try done. intros V k v c k' v'. simpl. destruct (decide (k' = k)) as [->|Hne].
  - rewrite lookup_insert_eq. intros [= <-]. by left.
  - rewrite lookup_insert_ne by done. by right.
Qed.

#[export] Instance list_order : MapOrder := { range_map := map_to_list }.
#[export] Instance list_order_laws : MapOrderLaws.
Proof. by split. Qed.

#[export] Instance last_first : WorkerOrder := { finish_order := reverse }.
#[export] Instance last_first_laws : WorkerOrderLaws.
Proof. split. intros l. apply reverse_Permutation. Qed.

(** ** Submission to the DA chain in memory *)

Definition highest_block (w : memda) : Z := map_fold (fun h _ m => Z.max h m) 0 (chain w).

Lemma highest_block_spec w h : highest_block w < h -> chain w !! h = None.
Proof.
  unfold highest_block. revert h.
  apply (map_fold_weak_ind (fun m (c : gmap Z (Z * gmap bytes (list bytes))) => forall h, m < h -> c !! h = None)).
  - intros h _. apply lookup_empty.
  - intros i x c r Hi IH h Hh. rewrite lookup_insert_ne by lia. apply IH. lia.
Qed.

(** A batch becomes the only blobs of a new block. *)
Definition add_block (ns : bytes) (blobs : list rpcBlob) (w : memda) : memda :=
  MkMemDA (<[highest_block w + 1 := (clock w, {[ ns := blob_Data <$> blobs ]})]> (chain w)) (tail (rpc_faults w)) (clock w).

#[export] Instance memda_submit : BlobSubmit memda := {
  ns_ValidateForBlob _ := Ok tt;
  lib_NewBlob _ _ := Ok tt;
  lib_CreateCommitment _ data := Ok data;
  options_parse _ := true;
  rpc_Submit ns blobs _ w :=
    match rpc_faults w with
    | true :: fs => (Err (MkRpcError false "tx already in mempool"), MkMemDA (chain w) fs (clock w))
    | _ => if (0 <=? highest_block w) && (highest_block w + 1 <? two64)
           then (Ok (highest_block w + 1), add_block ns blobs w)
           else (Err (MkRpcError false "no more blocks"), w)
    end
}.

Lemma add_block_extends ns blobs w : da_extends w (add_block ns blobs w).
Proof.
  assert (Hn : chain w !! (highest_block w + 1) = None) by (apply highest_block_spec; lia).
  split.
  - intros ns' h b Hb. simpl in *. destruct (decide (h = highest_block w + 1)) as [->|Hne].
    + by rewrite Hn in Hb.
    + by rewrite lookup_insert_ne.
  - intros h t Ht. simpl in *. destruct (decide (h = highest_block w + 1)) as [->|Hne].
    + by rewrite Hn in Ht.
    + by rewrite lookup_insert_ne.
Qed.

#[export] Instance memda_submit_laws : BlobSubmitLaws memda.
Proof.
  split. intros ns blobs options w. unfold wp, rpc_Submit, memda_submit.
  assert (Hacc : forall r w',
    (if (0 <=? highest_block w) && (highest_block w + 1 <? two64)
     then (Ok (highest_block w + 1), add_block ns blobs w)
     else (Err (MkRpcError false "no more blocks"), w)) = (r, w') ->
    da_extends w w' /\ match r with Ok h => is_u64 h /\ Forall (fun b => on_da w' ns h (blob_Data b)) blobs | Err _ => True end).
  { intros r w' Hr. destruct (Z.leb_spec 0 (highest_block w)), (Z.ltb_spec (highest_block w + 1) two64);
      cbn [andb] in Hr; simplify_eq; try (split; [reflexivity|done]).
    split; [apply add_block_extends|]. split; [unfold is_u64; lia|]. apply list.Forall_forall. intros b Hb.
    exists (blob_Data <$> blobs). split; [|by apply list_elem_of_fmap_2].
    simpl. rewrite lookup_insert_eq. simpl. by rewrite lookup_singleton_eq. }
  destruct (rpc_faults w) as [|[] fs].
  - by apply Hacc, surjective_pairing.
  - split; [by apply same_chain_extends|done].
  - by apply Hacc, surjective_pairing.
Qed.

(** ** The other parameters *)

#[export] Instance no_json : Json := {
  json_Unmarshal _ := None; json_Marshal _ := Ok []; json_String _ := [] }.
#[export] Instance no_hints : DAHints unit := {
  AppendHeaderHint _ _ u := (Ok tt, u); AppendDataHint _ _ u := (Err "no data hints", u) }.

#[export] Instance toy_signer : SignerAPI bytes bytes := {
  sg_Sign b g := (Ok (g ++ b), g);
  sg_GetPublic g := (Ok g, g);
  sg_GetAddress g := (Ok (Sha256.sum256 g), g)
}.
#[export] Instance toy_signer_laws : SignerLaws (SG := bytes) (PK := bytes).
Proof.
  refine {| sg_key g := g |}; intros; unfold wp; simpl; split; try done.
  unfold bytes_eqb. by rewrite bool_decide_eq_true_2.
Defined.

(** Final heights, and whether the coming calls fail. *)
Record finalexec := MkFinal { final_heights : list Z; final_faults : list bool }.
#[export] Instance toy_finalizer : Finalizer finalexec := {
  SetFinal h x :=
    match final_faults x with
    | true :: fs => (Err "execution client is down", MkFinal (final_heights x) fs)
    | fs => (Ok tt, MkFinal (h :: final_heights x) (tail fs))
    end;
  is_final x h := h ∈ final_heights x;
  exec_healthy x := Forall (fun b => b = false) (final_faults x)
}.
#[export] Instance toy_finalizer_laws : FinalizerLaws finalexec.
Proof.
  split. intros h x. unfold wp, SetFinal, toy_finalizer, is_final, exec_healthy.
  destruct (final_faults x) as [|[] fs]; cbn [fst snd final_heights final_faults tail].
  - split_and!; [intros; by right|done|left].
  - split_and!; [done|by inversion 1|by inversion 1].
  - split_and!; [intros; by right|by inversion 1|left].
Qed.

#[export] Instance height_sink : DAHeightSink Z := { seq_SetDAHeight h _ := h }.
#[export] Instance zero_conversion : FloatConversion := { uint64_out_of_range _ := 0 }.

End NodeInst.
