(* ===== verification/SubmitterWitness.v ===== *)
(** * The submission components at concrete states

    A node with two blocks submits their headers after a refusal by the DA
    layer, and then finds them included; the theorems of the submission
    components apply to it. An example shows how two blocks with the same
    transactions share an entry of the data cache. *)

From S2P Require Import Prelude Sha256 Datastore Types Serialization ProtoInst Store StoreFacts StoreMaintenance StoreAPI.
From S2P Require Import BlockCache Pending PendingFacts CacheManager DAClient DASubmitter DASubmitterFacts Batching Submitter SubmitterFacts NodeInst.
From stdpp Require Import base gmap strings list numbers.
Open Scope Z_scope.

Module SubmitterWitness.
Import ProtoInst MemDS MemDA StoreWitness NodeInst.

(** ** A cache *)

Definition c1 : Cache :=
  setDAIncluded "b" 11 2 (setDAIncluded "a" 10 1 (NewCache true HeaderDAIncludedPrefix)).

Lemma new_cache_inv b p : cache_inv (NewCache b p).
Proof. by split; simpl; intros *; rewrite lookup_empty. Qed.

Lemma c1_inv : cache_inv c1.
Proof.
  apply setDAIncluded_inv; [apply setDAIncluded_inv; [apply new_cache_inv|]|]; intros h Hh.
  - simpl in Hh. by rewrite lookup_empty in Hh.
  - rewrite setDAIncluded_hashes, lookup_insert_Some in Hh. simpl in Hh. rewrite lookup_empty in Hh.
    by destruct Hh as [[_ ?]|[_ ?]].
Qed.

Lemma c1_wf : cache_wf c1.
Proof.
  assert (Hh : map_Forall (fun h (_ : string) => 0 <= h < two64) (hashByHeight c1)).
  { apply (bool_decide_unpack _). vm_compute. exact I. }
  assert (Hd : map_Forall (fun (_ : string) d => 0 <= d < two64) (daIncluded c1)).
  { apply (bool_decide_unpack _). vm_compute. exact I. }
  split; [intros h k Hk; exact (Hh h k Hk)|intros k d Hk; exact (Hd k d Hk)].
Qed.

Lemma snapshot_survives_restart_witness :
  exists c' s', restart (PK := bytes) 1 c1 db2 = (Ok c', s') /\
    getDAIncludedByHeight 2 c' = Some 11 /\ getDAIncludedByHeight 1 c' = None.
Proof.
  destruct (snapshot_survives_restart (PK := bytes) 1 c1 db2) as (c' & s' & Hr & Hst & _).
  - reflexivity.
  - exact c1_inv.
  - exact c1_wf.
  - vm_compute. constructor.
  - exists c', s'. split; [exact Hr|]. split; rewrite Hst; reflexivity.
Defined.

(** Two blocks with the same transactions have the same commitment: forgetting
    the first height forgets the inclusion of the second. *)
Example shared_hash_loses_inclusion :
  let c := setDAIncluded "k" 11 2 (setDAIncluded "k" 10 1 (NewCache true DataDAIncludedPrefix)) in
  getDAIncludedByHeight 2 c = Some 11 /\ getDAIncludedByHeight 2 (deleteAllForHeight 1 c) = None.
Proof. vm_compute. split; reflexivity. Qed.

(** ** A node *)

Definition hdr (h : Z) : SignedHeader bytes :=
  MkSignedHeader (MkHeader (MkBaseHeader h 7 "c") (MkVersion 11 1) None None None None (Some key) None None)
                 (Some key) (MkSigner (Some key) (Some (Sha256.sum256 key)) None) None None.
Definition dat (h : Z) : Data := MkData (Some (MkMetadata "c" h 7 None)) (Some [byte_of_Z h :: key]).
Definition commit_with (f : Z -> Data) (h : Z) (d : memds) : memds :=
  (commit_block (hdr h) (f h) (Some key) (state_at h) d).2.
Definition store2 : memds := commit_with dat 2 (commit_with dat 1 empty_db).
(** The same transactions twice. *)
Definition store_same : memds := commit_with data_at 2 (commit_with data_at 1 empty_db).

Definition da_ns : bytes := [byte_of_Z 15].
(** The first submission is refused. *)
Definition node_da : memda := MkMemDA ∅ [true] 100.

Definition das0 : DASubmitter memda unit (gmap Z) :=
  MkDASubmitter (MkClient false [] (newBlockTimestampCache 0) node_da) da_ns da_ns [] 5 1
    (MkSelector ["x"; "y"] 0) (Some ∅) 0 4 tt.
Definition mgr_on (st : memds) : Manager memds bytes (gmap Z) :=
  MkManager (NewCache true HeaderDAIncludedPrefix) (NewCache true DataDAIncludedPrefix) ∅
    (MkPending LastSubmittedHeaderHeightKey 0 ∅) (MkPending LastSubmittedDataHeightKey 0 ∅) st.
Definition node_on (st : memds) : Submitter memds bytes memda unit bytes finalexec Z (gmap Z) :=
  MkSubmitter (MkSubState das0 (mgr_on st) (Some key)) (MkFinal [] [true]) (Some 0) 0 0 0 Immediate (Some (1%nat, [])).

Definition node0 := node_on store2.
Definition node1 := (daSubmission node0).2.
Definition node2 := (processDAInclusion 3 node1).2.

(** Headers and data are submitted in two DA blocks. *)
Example node1_submitted :
  (daSubmission node0).1 = Ok tt /\ submitted_height node1 = 2 /\ hstatus node1 2 = Some 1 /\ dstatus node1 2 = Some 2.
Proof. vm_compute. repeat split. Qed.

(** The first attempt to finalize fails and is repeated. *)
Example node2_included :
  (processDAInclusion 3 node1).1 = Ok true /\ daIncludedHeight node2 = 2 /\ final_heights (sub_exec node2) = [2; 1] /\
  sub_sequencer node2 = Some 1.
Proof. vm_compute. repeat split. Qed.

(** With the same transactions in both blocks, the second one is submitted but
    can never be included: the DA included height stays at 1, tick after tick. *)
Definition same1 := (daSubmission (node_on store_same)).2.
Definition same2 := (processDAInclusion 3 same1).2.
Example same_transactions_stall :
  lastHeight (pendingData (t_mgr same1)) = 2 /\ dstatus same1 2 = Some 2 /\
  (processDAInclusion 3 same1).1 = Ok true /\ daIncludedHeight same2 = 1 /\ dstatus same2 2 = None /\
  daIncludedHeight (processDAInclusion 3 (daSubmission same2).2).2 = 1.
Proof. vm_compute. repeat split. Qed.

Lemma da_inclusion_exact_witness :
  exists t', processDAInclusion 3 node1 = (Ok true, t') /\ included_block node1 t' 2 /\ ~ includable t' 3.
Proof.
  destruct (da_inclusion_exact 3 2 node1) as (t' & Hrun & K).
  - vm_compute. split; [discriminate|reflexivity].
  - reflexivity.
  - vm_compute. reflexivity.
  - vm_compute. repeat constructor.
  - exists t'. split; [exact Hrun|]. assert (Ht : daIncludedHeight t' = 2).
    { transitivity (daIncludedHeight (processDAInclusion 3 node1).2); [by rewrite Hrun|vm_compute; reflexivity]. }
    split.
    + apply (tk_blocks _ _ K). rewrite Ht. vm_compute. split; [reflexivity|discriminate].
    + intros (top & header & data & Htop & Hle & _). rewrite (proj1 (tk_contents _ _ K)) in Htop.
      assert (Hc : c_height (t_contents node1) = Ok 2) by (vm_compute; reflexivity).
      rewrite Hc in Htop. injection Htop as <-. lia.
Defined.

(** The stored headers have their own height. *)
Definition header_key_ok (k : string) : Prop :=
  match k with String _ (String (Ascii.Ascii false false false true false true true false) _) => k = getHeaderKey 1 \/ k = getHeaderKey 2 | _ => True end.
#[export] Instance header_key_ok_dec k : Decision (header_key_ok k).
Proof. unfold header_key_ok. destruct k as [|a [|[[] [] [] [] [] [] [] []] k]]; apply _. Defined.

Lemma stored_key_inj a b : 0 <= a -> 0 <= b -> getHeaderKey a = getHeaderKey b -> a = b.
Proof.
  intros Ha Hb Heq. unfold getHeaderKey, heightKey in Heq. do 3 apply string_app_inj_l in Heq.
  by apply format_uint_inj.
Qed.

Lemma store2_heights h header : 0 <= h -> c_header (t_contents node0) h = Ok header -> Height_of header = h.
Proof.
  intros Hh Hc. destruct (decide (h = 1)) as [->|Hn1]; [vm_compute in Hc; by injection Hc as <-|].
  destruct (decide (h = 2)) as [->|Hn2]; [vm_compute in Hc; by injection Hc as <-|].
  change (c_header (t_contents node0) h) with (view_header (PK := bytes) (ds_view store2) h) in Hc.
  unfold view_header, view_get in Hc. destruct (ds_view store2 !! getHeaderKey h) as [b|] eqn:Hl; [|done].
  assert (Hk : map_Forall (fun k (_ : bytes) => header_key_ok k) (ds_view store2)).
  { apply (bool_decide_unpack _). vm_compute. exact I. }
  destruct (Hk _ _ Hl) as [Heq|Heq]; exfalso.
  - apply Hn1. revert Heq. apply stored_key_inj; [exact Hh|lia].
  - apply Hn2. revert Heq. apply stored_key_inj; [exact Hh|lia].
Qed.

Lemma node0_inv : submit_inv key 2 node0.
Proof.
  split.
  - exists key. split; reflexivity.
  - vm_compute. split; discriminate.
  - intros c h e [= <-] _ Hp. simpl in Hp. rewrite lookup_empty in Hp. discriminate Hp.
  - intros h v _ Hp. simpl in Hp. rewrite lookup_empty in Hp. discriminate Hp.
  - exact store2_heights.
  - vm_compute. reflexivity.
Qed.

Lemma header_submission_sound_witness :
  exists r t', header_submission node0 = (r, t') /\ submit_inv key 2 t' /\ header_progress key node0 t'.
Proof. apply (header_submission_sound key 2 node0 node0_inv). reflexivity. Defined.

(** Both headers are on the DA layer, so the progress is not vacuous. *)
Example node0_progress : submitted_height (header_submission node0).2 = 2.
Proof. vm_compute. reflexivity. Qed.

Lemma num_pending_data_exact_witness :
  exists x, NumPendingData (pendingData (t_mgr node0), store2) = (Ok 2, x).
Proof.
  destruct (num_pending_data_exact (PK := bytes) (pendingData (t_mgr node0)) store2 2) as (r & x & Hr & _ & _ & Hl & He & Hm).
  - vm_compute. split; discriminate.
  - vm_compute. reflexivity.
  - vm_compute. constructor.
  - assert (Hrun : (NumPendingData (pendingData (t_mgr node0), store2)).1 = Ok 2) by (vm_compute; reflexivity).
    exists x. rewrite Hr in Hrun |- *. simpl in Hrun. by rewrite Hrun.
Defined.

End SubmitterWitness.
