(* ===== verification/Execution.v ===== *)
(** * Genesis and the execution layer ([pkg/genesis/genesis.go], [core/execution/execution.go])

    The genesis document with its checks, and the interface of an execution
    client as the node uses it: [InitChain], [ExecuteTxs] and the two optional
    interfaces [HeightProvider] and [Rollbackable]. The laws are the documented
    requirements: execution is deterministic, and the height of the execution
    layer is that of the last executed block or of the last rollback. *)

From S2P Require Import Prelude Types Serialization.
From stdpp Require Import base gmap strings list numbers.
Open Scope Z_scope.

(** ** Genesis *)

Record ChainGenesis := MkChainGenesis
  { g_ChainID : string;
    g_StartTime : Z;
    g_InitialHeight : Z;
    g_ProposerAddress : slice;
    g_DAStartHeight : Z;
    g_DAEpochForcedInclusion : Z }.

Definition NewGenesis (chainID : string) (initialHeight startTime : Z) (proposerAddress : slice) : ChainGenesis :=
  MkChainGenesis chainID startTime initialHeight proposerAddress 0 50.

Definition Genesis_Validate (g : ChainGenesis) : res string unit :=
  _ ← guard_err (negb (bool_decide (g_ChainID g = ""%string))) "invalid or missing chain_id in genesis file"%string;
  _ ← guard_err (negb (g_InitialHeight g <? 1)) "initial_height must be at least 1"%string;
  _ ← guard_err (negb (g_StartTime g =? zero_time)) "start_time cannot be zero time"%string;
  _ ← guard_err (match g_ProposerAddress g with Some _ => true | None => false end) "proposer_address cannot be nil"%string;
  guard_err (negb (g_DAEpochForcedInclusion g <? 1)) "da_epoch_forced_inclusion must be at least 1"%string.

(** ** The execution client *)

Record ExecuteResult := MkExecuteResult { UpdatedStateRoot : slice; res_NextProposer : slice }.

Class Execution (EX : Type) := {
  InitChain : Z -> Z -> string -> M EX string slice;
  (** The transactions, the height, the time and the previous state root. *)
  ExecuteTxs : list bytes -> Z -> Z -> slice -> M EX string ExecuteResult;
  (** [HeightProvider] and [Rollbackable], when the client implements them. *)
  GetLatestHeight : option (M EX string Z);
  ex_Rollback : option (Z -> M EX string unit);
  (** The height of the execution layer. *)
  ex_height : EX -> Z;
  (** The client answers every call from now on. *)
  ex_ok : EX -> Prop;
  (** What executing a block results in. *)
  exec_result : list bytes -> Z -> Z -> bytes -> ExecuteResult
}.

Class ExecutionLaws (EX : Type) `{Execution EX} := {
  ExecuteTxs_law txs h t root x : is_u64 h -> wp (ExecuteTxs txs h t root) (fun r x' =>
    (ex_ok x -> ex_ok x') /\
    match r with Ok e => e = exec_result txs h t (sl root) /\ ex_height x' = h | Err _ => ~ ex_ok x end) x;
  GetLatestHeight_law m x : GetLatestHeight = Some m -> wp m (fun r x' =>
    ex_height x' = ex_height x /\ (ex_ok x -> ex_ok x') /\
    match r with Ok h => h = ex_height x /\ is_u64 h | Err _ => ~ ex_ok x end) x;
  ex_Rollback_law f h x : is_u64 h -> ex_Rollback = Some f -> wp (f h) (fun r x' =>
    (ex_ok x -> ex_ok x') /\ match r with Ok _ => ex_height x' = h | Err _ => ~ ex_ok x end) x
}.
