(* ===== verification/Replayer.v ===== *)
(** * Replay of stored blocks to the execution layer ([block/internal/common/replay.go])

    After a crash the execution layer can be behind the store, or ahead of it.
    [SyncToHeight] rolls it back or replays the stored blocks it misses,
    checking each result against the stored state. *)

From S2P Require Import Prelude Sha256 Datastore Types Serialization SerializationFacts Validation.
From S2P Require Import Store StoreFacts StoreAPI Execution.
From stdpp Require Import base gmap strings list numbers.
Open Scope Z_scope.

Inductive replay_error :=
| RStore (e : store_error)
| RExec (msg : string)
| RAhead
| RAppHashMismatch (height : Z)
| RProposerMismatch (height : Z).
#[export] Instance replay_error_eq_dec : EqDecision replay_error.
Proof. solve_decision. Defined.

Record Replayer (ST EX : Type) := MkReplayer { rp_store : ST; rp_exec : EX; rp_genesis : ChainGenesis }.
Arguments MkReplayer {ST EX}.
Arguments rp_store {ST EX}.
Arguments rp_exec {ST EX}.
Arguments rp_genesis {ST EX}.

Section replayer.
Context {ST EX PK : Type}.
Context `{BlockStore ST PK} `{Execution EX} `{PubKeys PK} `{Wire}.
Context `{ProtoMsg pbVersion, ProtoMsg pbHeader}.
Abbreviation R := (Replayer ST EX).

Definition set_rp_store x (r : R) : R := MkReplayer x (rp_exec r) (rp_genesis r).
Definition set_rp_exec x (r : R) : R := MkReplayer (rp_store r) x (rp_genesis r).

Definition RPM (A : Type) : Type := M R replay_error A.
Definition on_rp_store {A} (m : M ST store_error A) : RPM A := zoom rp_store set_rp_store (wrap RStore m).
Definition on_rp_exec {A} (m : M EX string A) : RPM A := zoom rp_exec set_rp_exec (wrap RExec m).

(** The state before the first block. *)
Definition genesis_state (g : ChainGenesis) (header : Header) : State :=
  MkState zero_version (g_ChainID g) (g_InitialHeight g) (sub64 (g_InitialHeight g) 1) (g_StartTime g) None 0
    (AppHash header) (cloneBytes (g_ProposerAddress g)).

Definition prev_state (height : Z) (header : Header) : RPM State :=
  g ← gets rp_genesis;
  if height =? g_InitialHeight g then mret (genesis_state g header)
  else on_rp_store (st_GetStateAtHeight (sub64 height 1)).

(** The comparison with the stored state, if there is one. *)
Definition check_expected (height : Z) (newAppHash : slice) (newState expected : State) : res replay_error unit :=
  _ ← guard_err (slice_equal newAppHash (st_AppHash expected)) (RAppHashMismatch height);
  if 0 <? slen (NextProposerAddress expected) then
    guard_err (slice_equal (NextProposerAddress newState) (NextProposerAddress expected)) (RProposerMismatch height)
  else Ok tt.

Definition replayBlock (height : Z) : RPM unit :=
  block ← on_rp_store (st_GetBlockData height);
  let '(header, data) := block in
  prevState ← prev_state height (sh_Header header);
  result ← on_rp_exec (ExecuteTxs (data_txs data) height (Header_Time (sh_Header header)) (st_AppHash prevState));
  let newState := NextState prevState (sh_Header header) (UpdatedStateRoot result) (res_NextProposer result) in
  expectedState ← attempt (on_rp_store (st_GetStateAtHeight height));
  _ ← match expectedState with
      | Ok expected => lift_res (check_expected height (UpdatedStateRoot result) newState expected)
      | Err _ => mret tt
      end;
  batch ← on_rp_store st_NewBatch;
  batch ← on_rp_store (batch_UpdateState newState batch);
  on_rp_store (batch_Commit batch).

Definition SyncToHeight (targetHeight : Z) : RPM unit :=
  match GetLatestHeight with
  | None => mret tt
  | Some latest =>
      g ← gets rp_genesis;
      if targetHeight <? g_InitialHeight g then mret tt else
      execHeight ← on_rp_exec latest;
      if targetHeight <? execHeight then
        match ex_Rollback with
        | Some rollback => on_rp_exec (rollback targetHeight)
        | None => throw RAhead
        end
      else if execHeight <? targetHeight then
        _ ← on_rp_store (st_GetBlockData targetHeight);
        for_each (z_range (execHeight + 1) targetHeight) replayBlock
      else mret tt
  end.

End replayer.

(** ** Well-formed chains in a store *)

Section chains.
Context {PK : Type} `{PubKeys PK}.

(** Blocks are stored at their own height, and what is stored can be encoded. *)
Record chain_contents (c : contents PK) : Prop := {
  cc_block h header data : 0 <= h -> c_block c h = Ok (header, data) ->
    Header_Height (sh_Header header) = h /\ header_wf (sh_Header header);
  cc_state h st : 0 <= h -> c_states c h = Ok st -> state_wf st }.

#[export] Instance chain_contents_proper : Proper ((≡) ==> iff) chain_contents.
Proof.
  assert (Hd : forall c d, c ≡ d -> chain_contents c -> chain_contents d).
  { intros c d Hcd [Hb Hs]. split.
    - intros h header data Hh Hx. apply (Hb h header data Hh). by rewrite (same_block _ _ Hcd).
    - intros h st Hh Hx. apply (Hs h st Hh). by rewrite (same_states _ _ Hcd). }
  intros c d Hcd. split; [by apply Hd|apply Hd; by symmetry].
Qed.

Lemma norm_state_wf st : state_wf st -> state_wf (norm_state st).
Proof. done. Qed.

Lemma chain_contents_state c st : state_wf st -> chain_contents c -> chain_contents (apply_staged c (StState st)).
Proof.
  intros Hst [Hb Hs]. split; [exact Hb|]. intros h x Hh. simpl. unfold upd. destruct (decide (h = LastBlockHeight st)).
  - intros [= <-]. by apply norm_state_wf.
  - by apply Hs.
Qed.

Definition genesis_wf (g : ChainGenesis) : Prop :=
  is_u64 (g_InitialHeight g) /\ -62135596800 <= time_Unix (g_StartTime g) <= 253402300799 /\ is_u64 (g_DAStartHeight g).

Lemma header_time_range h : header_wf h -> -62135596800 <= time_Unix (Header_Time h) <= 253402300799.
Proof.
  intros (_ & Ht & _). unfold Header_Time, unix_nano, to_i64, time_Unix, second, is_u64, two64 in *.
  destruct (Z.ltb_spec (b_Time (h_Base h)) 9223372036854775808); split;
    apply Z.div_le_lower_bound || apply Z.div_le_upper_bound || idtac; try lia;
    (apply Z.div_le_upper_bound; lia).
Qed.

Context `{Wire} `{ProtoMsg pbVersion, ProtoMsg pbHeader}.

Lemma NextState_wf st h root next : state_wf st -> header_wf h -> state_wf (NextState st h root next).
Proof.
  intros (Hi & Hl & Hd & Hv & Ht) Hh. pose proof (header_time_range _ Hh) as Hr. destruct Hh as (Hh & _).
  exact (conj Hi (conj Hh (conj Hd (conj Hv Hr)))).
Qed.

Lemma genesis_state_wf g h : genesis_wf g -> state_wf (genesis_state g h).
Proof.
  intros (Hi & Ht & _). assert (Hz : is_u64 0) by done. unfold state_wf. simpl.
  exact (conj Hi (conj (sub64_u64 _ _) (conj Hz (conj (conj Hz Hz) Ht)))).
Qed.

End chains.

(** ** Replay *)

Section replay.
Context {ST EX PK : Type}.
Context `{BlockStoreLaws ST PK} `{ExecutionLaws EX} `{Wire}.
Context `{ProtoMsg pbVersion, ProtoMsg pbHeader}.
Abbreviation R := (Replayer ST EX).

Definition rp_contents (r : R) : contents PK := bs_contents (rp_store r).

(** The state before the block of a height, and the state that executing it leads to. *)
Definition state_before (g : ChainGenesis) (c : contents PK) (h : Z) (header : Header) : res store_error State :=
  if h =? g_InitialHeight g then Ok (genesis_state g header) else c_states c (sub64 h 1).
Definition replay_state (g : ChainGenesis) (c : contents PK) (h : Z) : res store_error State :=
  block ← c_block c h;
  let '(header, data) := block in
  prev ← state_before g c h (sh_Header header);
  let e := exec_result (data_txs data) h (Header_Time (sh_Header header)) (sl (st_AppHash prev)) in
  Ok (NextState prev (sh_Header header) (UpdatedStateRoot e) (res_NextProposer e)).

(** The stored state of a height is what executing its block leads to. *)
Definition replayed (g : ChainGenesis) (c : contents PK) (h : Z) : Prop :=
  exists st, replay_state g c h = Ok st /\ c_states c h = Ok (norm_state st).

Lemma state_before_proper g (c d : contents PK) h header :
  c ≡ d -> state_before g c h header = state_before g d h header.
Proof. intros Hcd. unfold state_before. destruct (_ =? _); [done|]. apply (same_states _ _ Hcd), sub64_u64. Qed.

Lemma replay_state_proper g (c d : contents PK) h : 0 <= h -> c ≡ d -> replay_state g c h = replay_state g d h.
Proof.
  intros Hh Hcd. unfold replay_state. rewrite (same_block _ _ Hcd) by done.
  destruct (c_block d h) as [[header data]|]; [|done]. cbn [mbind res_bind]. by rewrite (state_before_proper _ _ _ _ _ Hcd).
Qed.

Lemma replayed_proper g (c d : contents PK) h : 0 <= h -> c ≡ d -> replayed g c h -> replayed g d h.
Proof.
  intros Hh Hcd (st & Hr & Hs). exists st. by rewrite <- (replay_state_proper _ _ _ _ Hh Hcd), <- (same_states _ _ Hcd).
Qed.

(** Nothing but the store's contents and health matters after a read. *)
Definition rp_frame (r r' : R) : Prop :=
  rp_genesis r' = rp_genesis r /\ rp_contents r' ≡ rp_contents r /\
  (bs_healthy (rp_store r) -> bs_healthy (rp_store r')).

#[local] Instance rp_frame_preorder : PreOrder rp_frame.
Proof.
  split; [intros r; by split_and!|]. intros r1 r2 r3 (E1 & C1 & H1') (E2 & C2 & H2').
  split_and!; [congruence|by rewrite C2|tauto].
Qed.

Lemma wp_rp_read {A} (m : M ST store_error A) f (Q : res replay_error A -> R -> Prop) r :
  reads m f ->
  (forall res r', rp_frame r r' -> rp_exec r' = rp_exec r ->
     res = f (rp_contents r) \/ (~ bs_healthy (rp_store r) /\ exists e, res = Err e) -> Q (map_err RStore res) r') ->
  wp (on_rp_store m) Q r.
Proof.
  intros Hm HQ. apply wp_zoom, wp_wrap. eapply wp_mono; [apply Hm|]. intros res st (Hc & Hh & Hr).
  apply HQ; [split_and!; done|done|]. destruct Hr as [->|(? & e & -> & _)]; [by left|right; eauto].
Qed.

Lemma prev_state_spec h header (Q : res replay_error State -> R -> Prop) r :
  is_u64 h ->
  (forall res r', rp_frame r r' -> rp_exec r' = rp_exec r ->
     match res with Ok st => state_before (rp_genesis r) (rp_contents r) h header = Ok st | Err _ => True end -> Q res r') ->
  wp (prev_state h header) Q r.
Proof.
  intros Hh HQ. unfold prev_state, state_before in *. wp_read. destruct (h =? g_InitialHeight (rp_genesis r)).
  - apply wp_ret, HQ; done.
  - eapply wp_rp_read; [apply GetStateAtHeight_law, sub64_u64|]. intros res r' Hf Hx Hr. apply HQ; [done..|].
    destruct Hr as [->|(_ & e & ->)]; [|done]. by destruct (c_states _ _).
Qed.

(** Staging one state and committing it. *)
Lemma commit_state_spec st r :
  state_wf st ->
  wp (batch ← on_rp_store st_NewBatch; batch ← on_rp_store (batch_UpdateState st batch); on_rp_store (batch_Commit batch))
    (fun res r' => rp_genesis r' = rp_genesis r /\ rp_exec r' = rp_exec r /\
       (bs_healthy (rp_store r) -> bs_healthy (rp_store r')) /\
       match res with
       | Ok _ => rp_contents r' ≡ apply_staged (rp_contents r) (StState st)
       | Err _ => rp_contents r' ≡ rp_contents r
       end) r.
Proof.
  intros Hst. apply wp_bind, wp_zoom, wp_wrap. eapply wp_mono; [apply NewBatch_law|].
  intros [b|e] s1 (C1 & D1 & Hb); [|done]. cbn [map_err].
  apply wp_bind, wp_zoom, wp_wrap. eapply wp_mono; [by apply UpdateState_law|].
  intros [b'|e] s2 (C2 & D2 & Hb'); simpl; [|split_and!; [done..|tauto|unfold rp_contents; simpl; by rewrite C2]].
  destruct Hb' as (l & -> & Hb').
  apply wp_zoom, wp_wrap. eapply wp_mono; [apply (Commit_law _ [StState st]); [exact Hb'|by constructor]|].
  assert (C2' : bs_contents s2 ≡ bs_contents (rp_store r)) by (etrans; [exact C2|exact C1]).
  intros [[]|e] s3 (D3 & C3); cbn [map_err]; (split_and!; [done|done|by intros ?; apply D3, D2, D1|]); unfold rp_contents; cbn [rp_store set_rp_store].
  - etrans; [exact C3|]. exact (apply_staged_equiv _ _ (StState st) C2').
  - destruct C3 as [C3 _]. etrans; [exact C3|exact C2'].
Qed.

(** What a replayed block leaves. *)
Record block_replayed (h : Z) (r r' : R) : Prop := {
  br_genesis : rp_genesis r' = rp_genesis r;
  br_health : bs_healthy (rp_store r) -> bs_healthy (rp_store r');
  br_height : ex_height (rp_exec r') = h;
  br_ok : ex_ok (rp_exec r) -> ex_ok (rp_exec r');
  br_state st : replay_state (rp_genesis r) (rp_contents r) h = Ok st ->
    rp_contents r' ≡ apply_staged (rp_contents r) (StState st) /\ LastBlockHeight st = h /\ state_wf st /\
    (forall st0, bs_healthy (rp_store r) -> c_states (rp_contents r) h = Ok st0 ->
       sl (st_AppHash st) = sl (st_AppHash st0));
  br_some : is_Some (match replay_state (rp_genesis r) (rp_contents r) h with Ok st => Some st | Err _ => None end) }.

Lemma replay_state_wf g c h st :
  is_u64 h -> genesis_wf g -> chain_contents c -> replay_state g c h = Ok st -> state_wf st /\ LastBlockHeight st = h.
Proof.
  intros Hh Hg [Hb Hs]. unfold replay_state. intros ([header data] & Hblk & (prev & Hp & [= <-])%bind_ok)%bind_ok.
  destruct (Hb h header data (proj1 Hh) Hblk) as [Hhh Hwf]. split; [|done]. apply NextState_wf; [|done].
  unfold state_before in Hp. destruct (_ =? _); [injection Hp as <-; by apply genesis_state_wf|].
  eapply Hs; [apply sub64_u64|exact Hp].
Qed.

Lemma replayBlock_spec h r :
  is_u64 h -> genesis_wf (rp_genesis r) -> chain_contents (rp_contents r) ->
  wp (replayBlock h) (fun res r' =>
    match res with Ok _ => block_replayed h r r' | Err _ => rp_frame r r' end) r.
Proof.
  intros Hh Hg Hc. unfold replayBlock. apply wp_bind.
  eapply wp_rp_read; [by apply GetBlockData_law|]. intros res1 r1 F1 X1 Hr1.
  destruct res1 as [[header data]|e]; [|done]. cbn [map_err]. destruct Hr1 as [Hblk|(_ & e & [=])].
  apply wp_bind, prev_state_spec; [done|]. intros [prev|e] r2 F2 X2 Hp; [|by etrans].
  assert (G1 : rp_genesis r1 = rp_genesis r) by apply F1. assert (C1 : rp_contents r1 ≡ rp_contents r) by apply F1.
  rewrite G1, (state_before_proper _ _ _ _ _ C1) in Hp.
  apply wp_bind. apply wp_zoom, wp_wrap. eapply wp_mono; [by apply ExecuteTxs_law|].
  intros [e|err] x [Hok Hx]; cbn [map_err]; [|by etrans]. destruct Hx as [-> Hxh].
  set (e := exec_result _ _ _ _). set (st := NextState prev (sh_Header header) (UpdatedStateRoot e) (res_NextProposer e)).
  assert (Hst : replay_state (rp_genesis r) (rp_contents r) h = Ok st)
    by (unfold replay_state; rewrite <- Hblk; cbn [mbind res_bind]; by rewrite Hp).
  destruct (replay_state_wf _ _ _ _ Hh Hg Hc Hst) as [Hwf Hlh].
  assert (F3 : rp_frame r (set_rp_exec x r2)) by (etrans; [exact F1|exact F2]).
  apply wp_bind, wp_attempt. eapply wp_rp_read; [by apply GetStateAtHeight_law|]. intros res4 r4 F4 X4 Hr4.
  assert (F4' : rp_frame r r4) by (etrans; [exact F3|exact F4]).
  assert (C3 : rp_contents (set_rp_exec x r2) ≡ rp_contents r) by apply F3.
  apply wp_bind.
  assert (Hgood : forall (res : res replay_error unit) r', r' = r4 ->
    (forall st0, bs_healthy (rp_store r) -> c_states (rp_contents r) h = Ok st0 -> res = Ok tt -> sl (st_AppHash st) = sl (st_AppHash st0)) ->
    match res with
    | Ok _ => wp (batch ← on_rp_store st_NewBatch; batch ← on_rp_store (batch_UpdateState st batch); on_rp_store (batch_Commit batch))
                (fun res r' => match res with Ok _ => block_replayed h r r' | Err _ => rp_frame r r' end) r'
    | Err _ => rp_frame r r'
    end).
  { intros [[]|er] r' -> Happ; [|done]. eapply wp_mono; [by apply commit_state_spec|].
    intros [[]|er] r5 (G5 & X5 & D5 & C5).
    - destruct F4' as (G4 & C4 & D4). split; [congruence|tauto|by rewrite X5, X4|rewrite X5, X4; simpl; rewrite X2, X1 in Hok; exact Hok| |by rewrite Hst].
      intros st' Hst'. rewrite Hst in Hst'. injection Hst' as <-. split_and!; [by rewrite C5, C4|done|done|eauto].
    - destruct F4' as (G4 & C4 & D4). split_and!; [congruence|by rewrite C5|tauto]. }
  destruct res4 as [expected|e4]; cbn [map_err].
  - apply wp_lift_res, Hgood; [done|]. intros st0 Hhl Hst0 Hck. destruct Hr4 as [Hr4|(_ & e4 & [=])].
    rewrite (same_states _ _ C3) in Hr4 by apply Hh. rewrite Hst0 in Hr4. injection Hr4 as <-.
    unfold check_expected in Hck. apply bind_ok in Hck as ([] & Hg1 & _). apply guard_err_ok, slice_equal_spec in Hg1. done.
  - apply wp_ret, (Hgood (Ok tt)); [done|]. intros st0 Hhl Hst0 _. destruct Hr4 as [Hr4|(Hnh & _)].
    + rewrite (same_states _ _ C3) in Hr4 by apply Hh. by rewrite Hst0 in Hr4.
    + destruct Hnh. by apply F3.
Qed.

(** Only states of heights in a range changed. *)
Record only_states (lo hi : Z) (c c' : contents PK) : Prop := {
  os_height : c_height c' = c_height c;
  os_header h : 0 <= h -> c_header c' h = c_header c h;
  os_block h : 0 <= h -> c_block c' h = c_block c h;
  os_signature h : 0 <= h -> c_signature c' h = c_signature c h;
  os_meta k : c_meta c' k = c_meta c k;
  os_states h : 0 <= h -> ~ (lo <= h <= hi) -> c_states c' h = c_states c h }.

Lemma only_states_equiv lo hi c c' : c' ≡ c -> only_states lo hi c c'.
Proof. intros []. split; auto. Qed.

Lemma only_states_trans lo lo' hi c c' c'' :
  lo <= lo' -> only_states lo hi c c' -> only_states lo' hi c' c'' -> only_states lo hi c c''.
Proof.
  intros Hlo [A1 A2 A3 A4 A5 A6] [B1 B2 B3 B4 B5 B6].
  split; intros; [by rewrite B1|by rewrite B2, A2|by rewrite B3, A3|by rewrite B4, A4|by rewrite B5|].
  rewrite B6 by lia. apply A6; lia.
Qed.

Lemma staged_only_states lo hi c c' st :
  lo <= LastBlockHeight st <= hi -> c' ≡ apply_staged c (StState st) -> only_states lo hi c c'.
Proof.
  intros Hr []. split; try done. intros h Hh Hn. rewrite same_states by done. simpl. apply upd_ne. lia.
Qed.

(** A later replay does not disturb what was replayed. *)
Lemma replayed_stable g lo hi c c' h :
  is_u64 h -> 1 <= h < lo -> only_states lo hi c c' -> replayed g c h -> replayed g c' h.
Proof.
  intros Hh Hlt [_ _ Hb _ _ Hs] (st & Hr & Hst). exists st. rewrite Hs by (unfold is_u64 in Hh; lia). split; [|done].
  rewrite <- Hr. unfold replay_state. rewrite Hb by apply Hh. destruct (c_block c h) as [[header data]|]; [|done].
  cbn [mbind res_bind]. unfold state_before. destruct (h =? _); [done|].
  rewrite sub64_small by (unfold is_u64 in Hh; lia). by rewrite Hs by lia.
Qed.

(** What a run of replays over [lo..hi] establishes when it succeeds. *)
Record range_replayed (lo hi : Z) (r r' : R) : Prop := {
  rr_genesis : rp_genesis r' = rp_genesis r;
  rr_health : bs_healthy (rp_store r) -> bs_healthy (rp_store r');
  rr_chain : chain_contents (rp_contents r');
  rr_states : only_states lo hi (rp_contents r) (rp_contents r');
  rr_height : lo <= hi -> ex_height (rp_exec r') = hi;
  rr_replayed h : lo <= h <= hi -> replayed (rp_genesis r) (rp_contents r') h;
  rr_roots h st st' : lo <= h <= hi -> bs_healthy (rp_store r) ->
    c_states (rp_contents r) h = Ok st -> c_states (rp_contents r') h = Ok st' -> sl (st_AppHash st) = sl (st_AppHash st') }.

Lemma sl_norm_slice x : sl (norm_slice x) = sl x.
Proof. by destruct x as [[]|]. Qed.

Lemma block_replayed_range h r r' :
  1 <= h -> is_u64 h -> genesis_wf (rp_genesis r) -> chain_contents (rp_contents r) ->
  block_replayed h r r' -> range_replayed h h r r'.
Proof.
  intros H1h Hh Hg Hc [Bg Bh Bx _ Bs [st Hst]].
  destruct (replay_state (rp_genesis r) (rp_contents r) h) as [st'|] eqn:Hr; [|done]. clear Hst st. rename st' into st.
  destruct (Bs st eq_refl) as (Hc' & Hlh & Hwf & Happ).
  assert (Hat : c_states (rp_contents r') h = Ok (norm_state st)).
  { rewrite (same_states _ _ Hc') by apply Hh. simpl. rewrite Hlh. apply upd_eq. }
  assert (Hos : only_states h h (rp_contents r) (rp_contents r')) by (eapply staged_only_states; [|exact Hc']; lia).
  split; try done.
  - rewrite Hc'. by apply chain_contents_state.
  - intros h' Hh'. assert (h' = h) as -> by lia. exists st. split; [|done]. rewrite <- Hr. unfold replay_state.
    rewrite (os_block _ _ _ _ Hos) by apply Hh. destruct (c_block (rp_contents r) h) as [[header data]|]; [|done].
    cbn [mbind res_bind]. unfold state_before. destruct (h =? _); [done|].
    by rewrite (os_states _ _ _ _ Hos) by (try apply sub64_u64; rewrite sub64_small; unfold is_u64 in Hh; lia).
  - intros h' st0 st1 Hh' Hhl Hst0 Hst1. assert (h' = h) as -> by lia. rewrite Hat in Hst1. injection Hst1 as <-.
    simpl. rewrite sl_norm_slice. symmetry. by apply Happ.
Qed.

Lemma range_replayed_cons lo hi r r1 r' :
  1 <= lo < hi -> is_u64 hi -> range_replayed lo lo r r1 -> range_replayed (lo + 1) hi r1 r' -> range_replayed lo hi r r'.
Proof.
  intros Hr Hhi [A1 A2 A3 A4 A5 A6 A7] [B1 B2 B3 B4 B5 B6 B7].
  assert (Hlo : is_u64 lo) by (unfold is_u64 in *; lia).
  assert (Hos : only_states lo hi (rp_contents r) (rp_contents r1)).
  { destruct A4. split; try done. intros h Hh Hn. apply os_states0; lia. }
  split.
  - congruence.
  - tauto.
  - done.
  - eapply only_states_trans; [|exact Hos|exact B4]. lia.
  - intros _. apply B5. lia.
  - intros h Hh. destruct (decide (h = lo)) as [->|Hne].
    + eapply replayed_stable; [done| |exact B4|apply A6; lia]. lia.
    + rewrite <- A1. apply B6. lia.
  - intros h st st' Hh Hhl Hst Hst'. destruct (decide (h = lo)) as [->|Hne].
    + apply (A7 lo st st'); [lia|done|done|]. rewrite <- (os_states _ _ _ _ B4); [done|lia|lia].
    + apply (B7 h st st'); [lia|tauto| |done]. rewrite (os_states _ _ _ _ A4); [done|lia|lia].
Qed.

Lemma replay_loop lo hi r :
  1 <= lo -> is_u64 hi -> genesis_wf (rp_genesis r) -> chain_contents (rp_contents r) ->
  wp (for_each (z_range lo hi) replayBlock) (fun res r' =>
    match res with
    | Ok _ => lo <= hi -> range_replayed lo hi r r'
    | Err _ => only_states lo hi (rp_contents r) (rp_contents r')
    end) r.
Proof.
  intros Hlo Hhi. destruct (Z.lt_ge_cases hi lo) as [Hlt|Hge].
  { intros _ _. rewrite z_range_nil by done. apply wp_ret. lia. }
  remember (Z.to_nat (hi - lo)) as n eqn:Hn. revert lo r Hlo Hge Hn.
  induction n as [|n IH]; intros lo r Hlo Hge Hn Hg Hc; rewrite z_range_cons by done; cbn [for_each]; apply wp_bind;
    (eapply wp_mono; [apply replayBlock_spec; [unfold is_u64 in *; lia|done|done]|]);
    (intros [[]|e] r1 Hr1; [|apply only_states_equiv, Hr1]);
    apply block_replayed_range in Hr1; try (unfold is_u64 in *; lia); try done.
  - rewrite z_range_nil by lia. apply wp_ret. intros _. by replace hi with lo by lia.
  - eapply wp_mono; [apply (IH (lo + 1) r1); try lia|].
    + by rewrite (rr_genesis _ _ _ _ Hr1).
    + exact (rr_chain _ _ _ _ Hr1).
    + assert (Hos : only_states lo hi (rp_contents r) (rp_contents r1)).
      { destruct (rr_states _ _ _ _ Hr1). split; try done. intros h Hh Hnr. apply os_states0; lia. }
      intros [[]|e] r2 H2'.
      * intros _. eapply range_replayed_cons; [lia|done|exact Hr1|apply H2'; lia].
      * eapply only_states_trans; [|exact Hos|exact H2']. lia.
Qed.

(** Only states change, and the chain stays well-formed. *)
Lemma SyncToHeight_chain target r :
  is_u64 target -> genesis_wf (rp_genesis r) -> chain_contents (rp_contents r) ->
  wp (SyncToHeight target) (fun res r' => (exists lo, only_states lo target (rp_contents r) (rp_contents r')) /\
    (res = Ok tt -> chain_contents (rp_contents r'))) r.
Proof.
  intros Ht Hg Hc. assert (Hsame : forall r', rp_contents r' ≡ rp_contents r -> exists lo, only_states lo target (rp_contents r) (rp_contents r'))
    by (intros; exists 0; by apply only_states_equiv).
  unfold SyncToHeight. destruct GetLatestHeight as [latest|] eqn:Hl; [|by apply wp_ret; split; [apply Hsame|]]. wp_read.
  destruct (_ <? _); [by apply wp_ret; split; [apply Hsame|]|].
  apply wp_bind, wp_zoom, wp_wrap. eapply wp_mono; [by apply GetLatestHeight_law|].
  intros [e0|err] x (Hxh & _ & Hr); cbn [map_err]; [|by split; [apply Hsame|]]. destruct Hr as [-> He].
  destruct (Z.ltb_spec target (ex_height (rp_exec r))) as [Hlt|Hge].
  { destruct ex_Rollback as [rb|] eqn:Hrb; [|by apply wp_throw; split; [apply Hsame|]].
    apply wp_zoom, wp_wrap. eapply wp_mono; [by apply ex_Rollback_law|]. by intros [[]|err] x' _; split; [apply Hsame| |apply Hsame|]. }
  destruct (Z.ltb_spec (ex_height (rp_exec r)) target) as [Hlt|Hle]; [|by apply wp_ret; split; [apply Hsame|]].
  apply wp_bind. eapply wp_rp_read; [by apply GetBlockData_law|]. intros res r1 F1 X1 _.
  assert (C1 : rp_contents r1 ≡ rp_contents r) by apply F1.
  destruct res as [b|e]; cbn [map_err]; [|by split; [apply Hsame|]].
  eapply wp_mono; [apply replay_loop; [unfold is_u64 in He; lia|done|by rewrite (proj1 F1)|by rewrite C1]|].
  assert (Htr : forall lo c', only_states lo target (rp_contents r1) c' -> exists lo', only_states lo' target (rp_contents r) c').
  { intros lo c' Ho. exists lo. eapply only_states_trans; [|by apply only_states_equiv, C1|exact Ho]. lia. }
  intros [[]|e] r2 Hr2.
  - specialize (Hr2 ltac:(lia)). split; [eapply Htr, Hr2|]. intros _. apply Hr2.
  - split; [by eapply Htr|done].
Qed.

(** C14: Bringing the execution layer to the height of the store after a crash:
    when [SyncToHeight] succeeds, the execution layer is at the target height,
    whether it was ahead (it was rolled back), behind or level; if it was behind,
    every missing block was executed in order on the state of its predecessor,
    its stored state is the result, and (on a store that does not fail) that
    result has the app hash that was stored before. Whatever happens, no block,
    no height, no metadata and no state outside the replayed range changes. *)
Theorem replay_correct target r latest :
  is_u64 target -> 0 <= ex_height (rp_exec r) -> genesis_wf (rp_genesis r) -> g_InitialHeight (rp_genesis r) <= target ->
  chain_contents (rp_contents r) -> GetLatestHeight = Some latest ->
  exists res r', SyncToHeight target r = (res, r') /\
    only_states (ex_height (rp_exec r) + 1) target (rp_contents r) (rp_contents r') /\
    (res = Ok tt ->
       ex_height (rp_exec r') = target /\
       forall h, ex_height (rp_exec r) < h <= target ->
         replayed (rp_genesis r) (rp_contents r') h /\
         forall st st', bs_healthy (rp_store r) -> c_states (rp_contents r) h = Ok st ->
           c_states (rp_contents r') h = Ok st' -> sl (st_AppHash st) = sl (st_AppHash st')).
Proof.
  intros Ht Hx Hg Hgt Hc Hl. apply wp_exists. unfold SyncToHeight. rewrite Hl. wp_read.
  destruct (Z.ltb_spec target (g_InitialHeight (rp_genesis r))); [lia|].
  apply wp_bind, wp_zoom, wp_wrap. eapply wp_mono; [by apply GetLatestHeight_law|].
  intros [e0|err] x (Hxh & _ & Hr); cbn [map_err]; [|split; [by apply only_states_equiv|done]].
  destruct Hr as [-> _]. destruct (Z.ltb_spec target (ex_height (rp_exec r))) as [Hlt|Hge].
  { destruct ex_Rollback as [rb|] eqn:Hrb; [|apply wp_throw; split; [by apply only_states_equiv|done]].
    apply wp_zoom, wp_wrap. eapply wp_mono; [by apply ex_Rollback_law|]. intros [[]|err] x' [_ Hx']; cbn [map_err].
    - split; [by apply only_states_equiv|]. intros _. split; [done|lia].
    - split; [by apply only_states_equiv|done]. }
  destruct (Z.ltb_spec (ex_height (rp_exec r)) target) as [Hlt|Hle].
  - apply wp_bind. eapply wp_rp_read; [by apply GetBlockData_law|]. intros res r1 F1 X1 _.
    assert (C1 : rp_contents r1 ≡ rp_contents r) by apply F1.
    assert (Hf : only_states (ex_height (rp_exec r) + 1) target (rp_contents r) (rp_contents r1))
      by (by apply only_states_equiv).
    destruct res as [b|e]; cbn [map_err]; [|done].
    eapply wp_mono; [apply replay_loop; [lia|done|by rewrite (proj1 F1)|by rewrite C1]|].
    intros [[]|e] r2 Hr2.
    + specialize (Hr2 ltac:(lia)).
      split; [eapply only_states_trans; [|exact Hf|exact (rr_states _ _ _ _ Hr2)]; lia|]. intros _.
      split; [apply (rr_height _ _ _ _ Hr2); lia|]. intros h Hh. split.
      * pose proof (rr_replayed _ _ _ _ Hr2 h ltac:(lia)) as Hp. by rewrite (proj1 F1) in Hp.
      * intros st st' Hhl Hst Hst'. apply (rr_roots _ _ _ _ Hr2 h st st'); [lia|by apply F1| |done].
        by rewrite (same_states _ _ C1) by lia.
    + split; [|done]. eapply only_states_trans; [|exact Hf|exact Hr2]. lia.
  - apply wp_ret. split; [by apply only_states_equiv|]. intros _. simpl. split; [lia|lia].
Qed.

End replay.
