(* ===== verification/DARetriever.v ===== *)
(** * Retrieval of blocks from the DA layer ([block/internal/syncing/da_retriever.go], [assert.go])

    Blobs of the two namespaces are decoded as signed header envelopes (or, until
    the first valid envelope was seen, as plain signed headers) and as signed
    data, recorded as included, and paired by height into events for the
    syncer. What waits for its other half stays pending. The closure
    [expectedProposer] is an argument. *)

From S2P Require Import Prelude Sha256 Datastore Types Serialization Store StoreFacts StoreAPI.
From S2P Require Import BlockCache Pending CacheManager DAClient Submitter.
From stdpp Require Import base gmap strings list numbers.
Open Scope Z_scope.

(** [for height, header := range pendingHeaders]. *)
Class HeaderOrder (PK : Type) := { range_headers : gmap Z (SignedHeader PK) -> list (Z * SignedHeader PK) }.
Class HeaderOrderLaws (PK : Type) `{HeaderOrder PK} := { range_headers_perm m : range_headers m ≡ₚ map_to_list m }.

Inductive dr_error :=
| DRFailed (msg : string)
| DRHeightFromFuture
| DRBlobNotFound
| DRCanceled.
#[export] Instance dr_error_eq_dec : EqDecision dr_error.
Proof. solve_decision. Defined.

Record daRetriever (ST PK W : Type) (C : Type -> Type) := MkDARetriever
  { dr_client : client W;
    headerNamespace : bytes;
    dataNamespace : bytes;
    dr_cache : Manager ST PK C;
    dr_pendingHeaders : gmap Z (SignedHeader PK);
    dr_pendingData : gmap Z Data;
    strictMode : bool }.
Arguments MkDARetriever {ST PK W C}.
Arguments dr_client {ST PK W C}.
Arguments headerNamespace {ST PK W C}.
Arguments dataNamespace {ST PK W C}.
Arguments dr_cache {ST PK W C}.
Arguments dr_pendingHeaders {ST PK W C}.
Arguments dr_pendingData {ST PK W C}.
Arguments strictMode {ST PK W C}.

Section retriever.
Context {ST PK W : Type} {C : Type -> Type}.
Context `{BlobRPC W} `{HeaderOrder PK} `{PubKeys PK} `{Wire} `{HashText}.
Context `{ProtoMsg pbVersion, ProtoMsg pbHeader, ProtoMsg pbSignedHeader, ProtoMsg pbMetadata, ProtoMsg pbData,
          ProtoMsg pbSignedData, ProtoMsg pbDAHeaderEnvelope}.
Abbreviation R := (daRetriever ST PK W C).

Definition NewDARetriever (cl : client W) (headerNs dataNs : bytes) (cache : Manager ST PK C) : R :=
  MkDARetriever cl headerNs dataNs cache ∅ ∅ false.

Definition set_dr_client x (r : R) : R :=
  MkDARetriever x (headerNamespace r) (dataNamespace r) (dr_cache r) (dr_pendingHeaders r) (dr_pendingData r) (strictMode r).
Definition set_dr_cache x (r : R) : R :=
  MkDARetriever (dr_client r) (headerNamespace r) (dataNamespace r) x (dr_pendingHeaders r) (dr_pendingData r) (strictMode r).
Definition set_dr_pendingHeaders x (r : R) : R :=
  MkDARetriever (dr_client r) (headerNamespace r) (dataNamespace r) (dr_cache r) x (dr_pendingData r) (strictMode r).
Definition set_dr_pendingData x (r : R) : R :=
  MkDARetriever (dr_client r) (headerNamespace r) (dataNamespace r) (dr_cache r) (dr_pendingHeaders r) x (strictMode r).
Definition set_strictMode x (r : R) : R :=
  MkDARetriever (dr_client r) (headerNamespace r) (dataNamespace r) (dr_cache r) (dr_pendingHeaders r) (dr_pendingData r) x.

Definition RM (A : Type) : Type := M R dr_error A.
Definition on_dr_client {A} (m : M (client W) dr_error A) : RM A := zoom dr_client set_dr_client m.

(** ** Fetching *)

Definition validateBlobResponse (result : ResultRetrieve) : res dr_error unit :=
  match Code result with
  | StatusError => Err (DRFailed (Message result))
  | StatusHeightFromFuture => Err DRHeightFromFuture
  | StatusNotFound => Err DRBlobNotFound
  | _ => Ok tt
  end.

(** An error other than not found. *)
Definition unless_not_found (r : res dr_error unit) : res dr_error unit :=
  match r with Err DRBlobNotFound => Ok tt | _ => r end.

Definition successful (f : ResultRetrieve -> list bytes) (result : ResultRetrieve) : list bytes :=
  match Code result with StatusSuccess => f result | _ => [] end.

(** The blobs of both namespaces. *)
Definition fetchBlobs (daHeight : Z) : RM (list bytes) :=
  r ← gets id;
  headerRes ← on_dr_client (RetrieveBlobs daHeight (headerNamespace r));
  if bytes_eqb (headerNamespace r) (dataNamespace r) then
    _ ← lift_res (validateBlobResponse headerRes);
    mret (res_Data headerRes)
  else
  dataRes ← on_dr_client (RetrieveBlobs daHeight (dataNamespace r));
  _ ← lift_res (unless_not_found (validateBlobResponse headerRes));
  _ ← lift_res (unless_not_found (validateBlobResponse dataRes));
  let combined := successful res_Data headerRes ++ successful res_Data dataRes in
  let ids := successful IDs headerRes ++ successful IDs dataRes in
  if (zlen combined =? 0) && (zlen ids =? 0) then throw DRBlobNotFound else mret combined.

(** ** Decoding *)

Section proposer.
(** [expectedProposer], with [None] for [false] and for a nil provider. *)
Context (expectedProposer : Z -> option slice).

Definition expected_at (height : Z) : option slice :=
  match expectedProposer height with
  | Some a => if slen a =? 0 then None else Some a
  | None => None
  end.

Definition dr_assertExpectedProposer (header : SignedHeader PK) : bool :=
  match expected_at (Header_Height (sh_Header header)) with
  | None => true
  | Some expected => slice_equal (ProposerAddress (sh_Header header)) expected
  end.

Definition shouldReplacePendingHeader (existing candidate : SignedHeader PK) : bool :=
  match expected_at (Header_Height (sh_Header candidate)) with
  | None => false
  | Some expected =>
      negb (slice_equal (ProposerAddress (sh_Header existing)) expected)
      && slice_equal (ProposerAddress (sh_Header candidate)) expected
  end.

(** The first part of [tryDecodeHeader]: the header and whether its envelope is
    valid. A failed envelope leaves what it has decoded in the header. *)
Definition decode_header_blob (strict : bool) (bz : bytes) : option (SignedHeader PK * bool) :=
  match UnmarshalDAEnvelope bz SignedHeader_New with
  | (Err _, header) =>
      if strict then None else
      match lift_proto (proto_Unmarshal bz) with
      | Err _ => None
      | Ok headerPb =>
          match SignedHeader_FromProto (Some headerPb) header with
          | (Err _, _) => None
          | (Ok _, header) => Some (header, false)
          end
      end
  | (Ok envelopeSignature, header) =>
      if 0 <? slen envelopeSignature then
        match PubKey (sh_Signer header), marshal_signed_header header with
        | Some pk, Ok payload =>
            match pk_Verify pk payload (sl envelopeSignature) with
            | Ok true => Some (header, true)
            | _ => None
            end
        | _, _ => None
        end
      else Some (header, false)
  end.

Definition hash_of_header (h : Header) : string := hash_String (sl (Header_Hash (Some h))).

Definition tryDecodeHeader (bz : bytes) (daHeight : Z) : RM (option (SignedHeader PK)) :=
  r ← gets id;
  match decode_header_blob (strictMode r) bz with
  | None => mret None
  | Some (header, isValidEnvelope) =>
      if strictMode r && negb isValidEnvelope then mret None else
      nw ← on_dr_client now;
      match Header_ValidateBasic nw (sh_Header header) with
      | Err _ => mret None
      | Ok _ =>
          if negb (dr_assertExpectedProposer header) then mret None else
          _ ← (if isValidEnvelope && negb (strictMode r) then modify (set_strictMode true) else mret tt);
          let '(hash, h') := MemoizeHash (Some (sh_Header header)) in
          let header := match h' with Some h' => set_sh_Header h' header | None => header end in
          _ ← modify (fun r => set_dr_cache
                (SetHeaderDAIncluded (hash_String (sl hash)) daHeight (Header_Height (sh_Header header)) (dr_cache r)) r);
          mret (Some header)
      end
  end.

Definition assertValidSignedData (signedData : SignedData PK) : bool :=
  match Txs (sd_Data signedData), PubKey (sd_Signer signedData) with
  | Some _, Some pk =>
      match Data_MarshalBinary clean_data clean_metadata (sd_Data signedData) with
      | Err _ => false
      | Ok dataBytes =>
          match pk_Verify pk dataBytes (sl (sd_Signature signedData)) with
          | Ok true => true
          | _ => false
          end
      end
  | _, _ => false
  end.

(** The pure part of [tryDecodeData]: the data and its height. *)
Definition decode_data_blob (bz : bytes) : option (Data * Z) :=
  match SignedData_UnmarshalBinary bz SignedData_New with
  | (Err _, _) => None
  | (Ok _, signedData) =>
      if (zlen (data_txs (sd_Data signedData)) =? 0) && (slen (sd_Signature signedData) =? 0) then None else
      if negb (assertValidSignedData signedData) then None else
      match d_Metadata (sd_Data signedData) with
      | None => None
      | Some m => Some (sd_Data signedData, m_Height m)
      end
  end.

Definition tryDecodeData (bz : bytes) (daHeight : Z) : RM (option (Data * Z)) :=
  match decode_data_blob bz with
  | None => mret None
  | Some (data, height) =>
      _ ← modify (fun r => set_dr_cache
            (SetDataDAIncluded (hash_String (DACommitment data)) daHeight height (dr_cache r)) r);
      mret (Some (data, height))
  end.

(** ** Pairing *)

Definition isEmptyDataExpected (header : SignedHeader PK) : bool :=
  (slen (DataHash (sh_Header header)) =? 0) || bytes_eqb (sl (DataHash (sh_Header header))) DataHashForEmptyTxs.

Definition createEmptyDataForHeader (header : SignedHeader PK) : Data :=
  let h := sh_Header header in
  MkData (Some (MkMetadata (Header_ChainID h) (Header_Height h) (b_Time (h_Base h)) None)) (Some []).

Definition modify_cache (f : Manager ST PK C -> Manager ST PK C) : RM unit :=
  modify (fun r => set_dr_cache (f (dr_cache r)) r).

(** What the loop over the blobs does with a decoded header. *)
Definition keep_header (header : SignedHeader PK) : RM unit :=
  let height := Header_Height (sh_Header header) in
  existing ← gets (fun r => dr_pendingHeaders r !! height);
  match existing with
  | None => modify (fun r => set_dr_pendingHeaders (<[height := header]> (dr_pendingHeaders r)) r)
  | Some existing =>
      if shouldReplacePendingHeader existing header then
        _ ← modify_cache (RemoveHeaderDAIncluded (hash_of_header (sh_Header existing)));
        modify (fun r => set_dr_pendingHeaders (<[height := header]> (dr_pendingHeaders r)) r)
      else modify_cache (RemoveHeaderDAIncluded (hash_of_header (sh_Header header)))
  end.

Definition keep_data (data : Data) (height : Z) : RM unit :=
  modify (fun r =>
    match dr_pendingData r !! height with
    | Some _ => r
    | None => set_dr_pendingData (<[height := data]> (dr_pendingData r)) r
    end).

Definition process_blob (daHeight : Z) (bz : bytes) : RM unit :=
  if zlen bz =? 0 then mret tt else
  header ← tryDecodeHeader bz daHeight;
  match header with
  | Some header => keep_header header
  | None =>
      data ← tryDecodeData bz daHeight;
      match data with
      | Some (data, height) => keep_data data height
      | None => mret tt
      end
  end.

(** The data of a pending header, if the pair is complete. *)
Definition pair_data (pendingData : gmap Z Data) (height : Z) (header : SignedHeader PK) : option Data :=
  match pendingData !! height with
  | Some data => Some data
  | None => if isEmptyDataExpected header then Some (createEmptyDataForHeader header) else None
  end.

Definition match_events (daHeight : Z) (pendingData : gmap Z Data) (l : list (Z * SignedHeader PK))
  : list (DAHeightEvent PK) :=
  omap (fun '(height, header) =>
    (fun data => MkEvent header data daHeight SourceDA (0, 0)) <$> pair_data pendingData height header) l.

(** The headers that stay pending. *)
Definition unmatched (pendingData : gmap Z Data) (m : gmap Z (SignedHeader PK)) : gmap Z (SignedHeader PK) :=
  filter (fun '(height, header) => pair_data pendingData height header = None) m.

Definition processBlobs (blobs : list bytes) (daHeight : Z) : RM (list (DAHeightEvent PK)) :=
  _ ← for_each blobs (process_blob daHeight);
  r ← gets id;
  let events := match_events daHeight (dr_pendingData r) (range_headers (dr_pendingHeaders r)) in
  _ ← modify (set_dr_pendingHeaders (unmatched (dr_pendingData r) (dr_pendingHeaders r)));
  mret events.

Definition ProcessBlobs (blobs : list bytes) (daHeight : Z) : RM (list (DAHeightEvent PK)) := processBlobs blobs daHeight.

Definition RetrieveFromDA (daHeight : Z) : RM (list (DAHeightEvent PK)) :=
  blobs ← fetchBlobs daHeight;
  cancelled ← on_dr_client (rpc (infallible backoff_cancelled));
  if (cancelled : bool) then throw DRCanceled else processBlobs blobs daHeight.

End proposer.

Definition removePendingData (height : Z) (r : R) : R :=
  set_dr_pendingData (delete height (dr_pendingData r)) r.

End retriever.
