(* ===== verification/DARetrieverFacts.v ===== *)
(** * What is retrieved from the DA layer

    Two theorems. Every event that [processBlobs] returns comes from blobs that
    are on the DA layer: its header from an envelope that verified (or, before
    strict mode, from a plain header), its data from signed data of the same
    height or empty as the header says; nothing complete stays pending. And the
    round trip with the submitter: the envelope and the signed data that a
    submitter publishes are accepted, and give back the header with its hash and
    the data. *)

From S2P Require Import Prelude Sha256 Datastore Types Serialization SerializationFacts Store StoreFacts StoreAPI.
From S2P Require Import BlockCache Pending CacheManager DAClient DASubmitter DASubmitterFacts Submitter DARetriever.
From stdpp Require Import base gmap strings list numbers.
Open Scope Z_scope.

(** ** Encodings of normal forms *)

Section encodings.
Context {PK : Type} `{PubKeysLaws PK} `{WireLaws}.
Context `{ProtoMsg pbVersion, ProtoMsg pbHeader, ProtoMsg pbSignedHeader, ProtoMsg pbMetadata, ProtoMsg pbData,
          ProtoMsg pbSignedData}.
Context `{!ProtoLaws pbHeader norm_pbHeader pbHeader_ok,
          !ProtoLaws pbSignedHeader norm_pbSignedHeader pbSignedHeader_ok,
          !ProtoLaws pbData norm_pbData pbData_ok,
          !ProtoLaws pbSignedData norm_pbSignedData pbSignedData_ok}.

Lemma MarshalledPubKey_norm (s : Signer PK) pk :
  PubKey s = Some pk -> signer_wf s ->
  match (MarshalledPubKey s).1, (MarshalledPubKey (norm_signer s)).1 with
  | Ok m, Ok m' => norm_slice m' = norm_slice m
  | Err e, Err e' => e = e'
  | _, _ => False
  end.
Proof.
  intros Hpk Hwf. assert (Hpk' : PubKey (norm_signer s) = Some pk) by (unfold norm_signer; by rewrite Hpk).
  destruct (MarshalledPubKey s) as [[m|e] s'] eqn:Hm; cbn [fst].
  - destruct (marshalled_pubkey_eq _ _ _ _ Hpk Hwf Hm) as (_ & Hpos & Hn).
    unfold MarshalledPubKey. by rewrite Hn, Hpos.
  - unfold MarshalledPubKey in *. rewrite Hpk in Hm. rewrite Hpk'. unfold norm_signer. rewrite Hpk. cbn [marshalledPubKey].
    destruct (0 <? slen (marshalledPubKey s)) eqn:Hl; [done|].
    destruct (MarshalPublicKey pk); simplify_eq. done.
Qed.

Lemma Signer_ToProto_norm (s : Signer PK) :
  signer_wf s ->
  match (Signer_ToProto s).1, (Signer_ToProto (norm_signer s)).1 with
  | Ok p, Ok p' => norm_pbSigner p' = norm_pbSigner p
  | Err e, Err e' => e = e'
  | _, _ => False
  end.
Proof.
  intros Hwf. unfold Signer_ToProto. destruct (PubKey s) as [pk|] eqn:Hpk.
  - pose proof (MarshalledPubKey_norm s pk Hpk Hwf) as Hm.
    assert (Hpk' : PubKey (norm_signer s) = Some pk) by (unfold norm_signer; by rewrite Hpk).
    assert (Ha : s_Address (norm_signer s) = norm_slice (s_Address s)) by (unfold norm_signer; by rewrite Hpk).
    rewrite Hpk'. destruct (MarshalledPubKey s) as [[m|e] s1], (MarshalledPubKey (norm_signer s)) as [[m'|e'] s2]; simpl in *; try done.
    unfold norm_pbSigner. simpl. by rewrite Ha, norm_slice_idemp, Hm.
  - unfold norm_signer. by rewrite Hpk.
Qed.

Lemma marshal_norm_signed_header (sh sh0 : SignedHeader PK) :
  signer_wf (sh_Signer sh) -> marshal_signed_header (norm_signed_header sh sh0) = marshal_signed_header sh.
Proof.
  intros Hwf. unfold marshal_signed_header. rewrite !signed_header_marshal_eq. unfold SignedHeader_ToProto.
  pose proof (Signer_ToProto_norm _ Hwf) as Hs. cbn [sh_Signer norm_signed_header].
  destruct (Signer_ToProto (sh_Signer sh)).1 as [p|e], (Signer_ToProto (norm_signer (sh_Signer sh))).1 as [p'|e'];
    cbn [mbind res_bind]; try done; [|by rewrite Hs].
  f_equal. rewrite <- (marshal_norm (MkPbSignedHeader (Some (Header_ToProto (sh_Header sh))) (sh_Signature sh) (Some p))).
  rewrite <- marshal_norm. f_equal. unfold norm_pbSignedHeader.
  unfold norm_signed_header. cbn [psh_Header psh_Signature psh_Signer fmap option_fmap option_map sh_Header sh_Signature].
  by rewrite norm_ToProto, Hs, norm_slice_idemp.
Qed.

Lemma norm_Data_ToProto d : norm_pbData (Data_ToProto (norm_data d)) = norm_pbData (Data_ToProto d).
Proof.
  unfold norm_pbData, Data_ToProto, norm_data. destruct (d_Metadata d) as [m|], (Txs d) as [t|] eqn:Ht;
    unfold data_txs; rewrite Ht; simpl; try done; unfold norm_pbMetadata; simpl; by rewrite norm_slice_idemp.
Qed.

Lemma marshal_norm_data d :
  Data_MarshalBinary clean_data clean_metadata (norm_data d) = Data_MarshalBinary clean_data clean_metadata d.
Proof.
  rewrite !data_marshal_eq. f_equal. rewrite <- (marshal_norm (Data_ToProto d)), <- marshal_norm.
  by rewrite norm_Data_ToProto.
Qed.

Lemma DACommitment_norm d : DACommitment (norm_data d) = DACommitment d.
Proof. unfold DACommitment, norm_data, data_txs. simpl. by destruct (Txs d). Qed.

(** Signed data is decoded to what was encoded. *)
Lemma signed_data_decode (sd sd0 : SignedData PK) b :
  data_wf (sd_Data sd) -> signer_wf (sd_Signer sd) -> SignedData_MarshalBinary sd = Ok b ->
  SignedData_UnmarshalBinary b sd0 =
    (Ok tt, MkSignedData (norm_data (sd_Data sd)) (norm_slice (sd_Signature sd)) (norm_signer (sd_Signer sd))).
Proof.
  intros Hd Hs. unfold SignedData_MarshalBinary. intros (psd & Hto & Hm)%bind_ok.
  unfold SignedData_ToProto in Hto. destruct (Signer_ToProto (sd_Signer sd)) as [[psi|] s'] eqn:Hsi; simpl in Hto; simplify_eq.
  set (psd := MkPbSignedData (Some (Data_ToProto (sd_Data sd))) (sd_Signature sd) (Some psi)) in *.
  assert (Hok : pbSignedData_ok psd) by (intros pd [= <-]; by apply pbData_ok_ToProto).
  unfold SignedData_UnmarshalBinary, mbind, M_bind, lift_res.
  rewrite (lift_proto_unmarshal norm_pbSignedData pbSignedData_ok psd b Hok Hm).
  pose proof (data_from_to_proto (sd_Data sd) (sd_Data sd0)) as Hfd.
  pose proof (signer_from_to_proto _ _ _ Hs Hsi) as Hfs.
  unfold SignedData_FromProto, norm_pbSignedData. cbn [psd_Data psd_Signature psd_Signer psd fmap option_fmap option_map].
  by rewrite Hfd, Hfs.
Qed.

End encodings.

(** ** The retriever *)

Section retrieval.
Context {ST PK W : Type} {C : Type -> Type}.
Context `{BlobRPC W} `{HeaderOrderLaws PK} `{PubKeysLaws PK} `{WireLaws} `{HashText}.
Context `{ProtoMsg pbVersion, ProtoMsg pbHeader, ProtoMsg pbSignedHeader, ProtoMsg pbMetadata, ProtoMsg pbData,
          ProtoMsg pbSignedData, ProtoMsg pbDAHeaderEnvelope}.
Context `{!ProtoLaws pbHeader norm_pbHeader pbHeader_ok,
          !ProtoLaws pbSignedHeader norm_pbSignedHeader pbSignedHeader_ok,
          !ProtoLaws pbData norm_pbData pbData_ok,
          !ProtoLaws pbSignedData norm_pbSignedData pbSignedData_ok,
          !ProtoLaws pbDAHeaderEnvelope norm_pbDAHeaderEnvelope pbDAHeaderEnvelope_ok}.
Context (expectedProposer : Z -> option slice).
Abbreviation R := (daRetriever ST PK W C).
Implicit Types (r : R) (header : SignedHeader PK).

Definition memoized header : SignedHeader PK :=
  match (MemoizeHash (Some (sh_Header header))).2 with Some h => set_sh_Header h header | None => header end.

Lemma memoized_height header : Header_Height (sh_Header (memoized header)) = Header_Height (sh_Header header).
Proof.
  unfold memoized, MemoizeHash. destruct (cachedHash _); simpl; [done|]. by destruct (computeHash _).
Qed.

Lemma memoized_rest header :
  sh_Signature (memoized header) = sh_Signature header /\ sh_Signer (memoized header) = sh_Signer header /\
  set_cachedHash None (sh_Header (memoized header)) = set_cachedHash None (sh_Header header).
Proof.
  unfold memoized, MemoizeHash. destruct (cachedHash (sh_Header header)); [done|]. by destruct (computeHash _).
Qed.

Lemma memoized_hash header :
  cachedHash (sh_Header header) = None ->
  Header_Hash (Some (sh_Header (memoized header))) = computeHash (sh_Header header).
Proof.
  intros Hc. unfold memoized, MemoizeHash. rewrite Hc. destruct (computeHash (sh_Header header)) eqn:Hh; simpl; [done|].
  by rewrite Hc, Hh.
Qed.

(** What [tryDecodeHeader] accepts, with the time it reads. *)
Definition accept_header (strict : bool) (nw : Z) (bz : bytes) : option (SignedHeader PK * bool) :=
  match decode_header_blob strict bz with
  | Some (h0, valid) =>
      if strict && negb valid then None else
      match Header_ValidateBasic nw (sh_Header h0) with
      | Ok _ => if dr_assertExpectedProposer expectedProposer h0 then Some (memoized h0, valid) else None
      | Err _ => None
      end
  | None => None
  end.

Definition next_headers (m : gmap Z (SignedHeader PK)) header : gmap Z (SignedHeader PK) :=
  let height := Header_Height (sh_Header header) in
  match m !! height with
  | Some existing => if shouldReplacePendingHeader expectedProposer existing header then <[height := header]> m else m
  | None => <[height := header]> m
  end.

Definition next_data (m : gmap Z Data) (d : Data) (height : Z) : gmap Z Data :=
  match m !! height with Some _ => m | None => <[height := d]> m end.

Definition clock_of r : W := api (dr_client r).

(** The pending blocks after one blob. *)
Record blob_step (bz : bytes) r r' : Prop := {
  bs_clock : clock_of r' = clock_of r \/ clock_of r' = (time_Now (clock_of r)).2;
  bs_result :
    match (if zlen bz =? 0 then None else accept_header (strictMode r) (time_Now (clock_of r)).1 bz) with
    | Some (header, valid) =>
        dr_pendingHeaders r' = next_headers (dr_pendingHeaders r) header /\
        dr_pendingData r' = dr_pendingData r /\ strictMode r' = strictMode r || valid
    | None =>
        dr_pendingHeaders r' = dr_pendingHeaders r /\ strictMode r' = strictMode r /\
        dr_pendingData r' = match (if zlen bz =? 0 then None else decode_data_blob bz) with
                            | Some (d, height) => next_data (dr_pendingData r) d height
                            | None => dr_pendingData r
                            end
    end }.

Lemma tryDecodeHeader_spec bz daHeight r :
  wp (tryDecodeHeader expectedProposer bz daHeight) (fun res r' =>
    (clock_of r' = clock_of r \/ clock_of r' = (time_Now (clock_of r)).2) /\
    dr_pendingHeaders r' = dr_pendingHeaders r /\ dr_pendingData r' = dr_pendingData r /\
    match accept_header (strictMode r) (time_Now (clock_of r)).1 bz with
    | Some (header, valid) => res = Ok (Some header) /\ strictMode r' = strictMode r || valid
    | None => res = Ok None /\ strictMode r' = strictMode r
    end) r.
Proof.
  unfold tryDecodeHeader, accept_header. wp_read.
  destruct (decode_header_blob (strictMode r) bz) as [[h0 valid]|]; [|apply wp_ret; split_and!; by try left].
  destruct (strictMode r && negb valid) eqn:Hs; [apply wp_ret; split_and!; by try left|].
  apply wp_bind. unfold on_dr_client, now, rpc. apply wp_zoom, wp_zoom, wp_infallible. cbn beta iota.
  change (api (dr_client r)) with (clock_of r).
  destruct (Header_ValidateBasic _ (sh_Header h0)); [|apply wp_ret; split_and!; by try right].
  destruct (dr_assertExpectedProposer expectedProposer h0); cbn [negb];
    [|apply wp_ret; split_and!; by try right].
  apply wp_bind. unfold memoized.
  destruct (strictMode r) eqn:Hst, valid; try discriminate Hs; cbn [andb negb orb];
    (apply wp_ret || apply wp_modify); destruct (MemoizeHash _) as [hash h'] eqn:Hm;
    apply wp_bind, wp_modify, wp_ret; cbn [snd]; split_and!; try done; by right.
Qed.

Lemma keep_header_spec header r :
  wp (keep_header expectedProposer header) (fun res r' =>
    res = Ok tt /\ clock_of r' = clock_of r /\ dr_pendingData r' = dr_pendingData r /\ strictMode r' = strictMode r /\
    dr_pendingHeaders r' = next_headers (dr_pendingHeaders r) header) r.
Proof.
  unfold keep_header, next_headers. wp_read. destruct (dr_pendingHeaders r !! _) as [existing|]; [|by apply wp_modify].
  destruct (shouldReplacePendingHeader _ _ _); [|by apply wp_modify]. apply wp_bind, wp_modify. by apply wp_modify.
Qed.

Lemma process_blob_spec daHeight bz r :
  wp (process_blob expectedProposer daHeight bz) (fun res r' => res = Ok tt /\ blob_step bz r r') r.
Proof.
  unfold process_blob. destruct (zlen bz =? 0) eqn:Hz.
  { apply wp_ret. split; [done|]. split; [by left|]. by rewrite Hz. }
  apply wp_bind. eapply wp_mono; [apply tryDecodeHeader_spec|]. intros res r1 (Hc & Hh & Hd & Hr).
  destruct (accept_header _ _ bz) as [[header valid]|] eqn:Ha; destruct Hr as [-> Hs].
  - eapply wp_mono; [apply keep_header_spec|]. intros res' r' (-> & Hc' & Hd' & Hs' & Hh'). split; [done|].
    split; [by rewrite Hc'|]. rewrite Hz, Ha. split_and!; congruence.
  - unfold tryDecodeData. destruct (decode_data_blob bz) as [[d k]|] eqn:Hdd.
    + apply wp_bind, wp_bind, wp_modify, wp_ret, wp_modify. split; [done|].
      split; [destruct (dr_pendingData _ !! _); exact Hc|]. rewrite Hz, Ha, Hdd. unfold next_data.
      rewrite <- Hd. simpl. destruct (dr_pendingData r1 !! k); simpl; split_and!; congruence.
    + apply wp_ret. split; [done|]. split; [exact Hc|]. rewrite Hz, Ha, Hdd. split_and!; congruence.
Qed.

(** ** Where events come from *)

(** [bz] is an envelope of [header] with a signature by the header's signer. *)
Definition verified_envelope (bz : bytes) header : Prop :=
  exists sig pk payload, UnmarshalDAEnvelope bz SignedHeader_New = (Ok sig, header) /\
    PubKey (sh_Signer header) = Some pk /\ marshal_signed_header header = Ok payload /\
    pk_Verify pk payload (sl sig) = Ok true.

(** [header] comes from the blob [bz]; [plain] when a header that no envelope
    signature covers is allowed. *)
Definition header_from (plain : bool) (bz : bytes) header : Prop :=
  exists h0, header = memoized h0 /\ dr_assertExpectedProposer expectedProposer h0 = true /\
    (exists nw, Header_ValidateBasic nw (sh_Header h0) = Ok tt) /\
    (verified_envelope bz h0 \/ (plain = true /\ decode_header_blob false bz = Some (h0, false))).

(** [d] is the content of signed data with a signature by its signer. *)
Definition data_from (bz : bytes) (d : Data) (height : Z) : Prop :=
  exists sd pk payload, SignedData_UnmarshalBinary bz SignedData_New = (Ok tt, sd) /\ sd_Data sd = d /\
    option_map m_Height (d_Metadata d) = Some height /\ PubKey (sd_Signer sd) = Some pk /\
    Data_MarshalBinary clean_data clean_metadata d = Ok payload /\
    pk_Verify pk payload (sl (sd_Signature sd)) = Ok true.

Lemma decode_header_valid strict bz h0 : decode_header_blob strict bz = Some (h0, true) -> verified_envelope bz h0.
Proof.
  unfold decode_header_blob. destruct (UnmarshalDAEnvelope bz SignedHeader_New) as [[sig|e] hd] eqn:Hu.
  - destruct (0 <? slen sig); [|done]. destruct (PubKey (sh_Signer hd)) as [pk|] eqn:Hpk; [|done].
    destruct (marshal_signed_header hd) as [payload|] eqn:Hm; [|done].
    destruct (pk_Verify pk payload (sl sig)) as [[]|] eqn:Hv; intros [= <-] || done.
    by exists sig, pk, payload.
  - destruct strict; [done|]. destruct (lift_proto _); [|done]. by destruct (SignedHeader_FromProto _ _) as [[] ?].
Qed.

Lemma accept_header_from strict nw bz header valid :
  accept_header strict nw bz = Some (header, valid) ->
  header_from (negb strict) bz header /\ (strict = true -> valid = true).
Proof.
  unfold accept_header. destruct (decode_header_blob strict bz) as [[h0 v]|] eqn:Hd; [|done].
  destruct (strict && negb v) eqn:Hs; [done|]. destruct (Header_ValidateBasic nw (sh_Header h0)) as [[]|] eqn:Hv; [|done].
  destruct (dr_assertExpectedProposer expectedProposer h0) eqn:Hp; [|done]. intros [= <- <-].
  split; [|by destruct strict, v]. exists h0. split_and!; [done..|by exists nw|].
  destruct v; [left; by eapply decode_header_valid|]. right. by destruct strict.
Qed.

Lemma decode_data_from bz d height : decode_data_blob bz = Some (d, height) -> data_from bz d height.
Proof.
  unfold decode_data_blob. destruct (SignedData_UnmarshalBinary bz SignedData_New) as [[[]|] sd] eqn:Hu; [|done].
  destruct (_ && _); [done|]. destruct (assertValidSignedData sd) eqn:Hv; [|done]. cbn [negb].
  destruct (d_Metadata (sd_Data sd)) as [m|] eqn:Hm; [|done]. intros [= <- <-].
  unfold assertValidSignedData in Hv. destruct (Txs (sd_Data sd)); [|done].
  destruct (PubKey (sd_Signer sd)) as [pk|] eqn:Hpk; [|done].
  destruct (Data_MarshalBinary _ _ (sd_Data sd)) as [payload|] eqn:Hp; [|done].
  destruct (pk_Verify pk payload (sl (sd_Signature sd))) as [[]|] eqn:Hvf; try done.
  exists sd, pk, payload. split_and!; try done. by rewrite Hm.
Qed.

(** What waits comes from the blobs [Src], under its own height. *)
Record dr_inv (plain : bool) (Src : bytes -> Prop) r : Prop := {
  di_headers h header : dr_pendingHeaders r !! h = Some header ->
    Header_Height (sh_Header header) = h /\ exists bz, Src bz /\ header_from plain bz header;
  di_data h d : dr_pendingData r !! h = Some d -> exists bz, Src bz /\ data_from bz d h;
  di_strict : plain = false -> strictMode r = true }.

Lemma header_from_weaken plain plain' bz header :
  (plain = true -> plain' = true) -> header_from plain bz header -> header_from plain' bz header.
Proof.
  intros Hw (h0 & ? & ? & ? & [?|[? ?]]); exists h0; split_and!; try done; [by left|right; auto].
Qed.

Lemma blob_step_inv plain (Src : bytes -> Prop) bz r r' :
  Src bz -> dr_inv plain Src r -> blob_step bz r r' -> dr_inv plain Src r' /\ (strictMode r = true -> strictMode r' = true).
Proof.
  intros Hsrc [Ih Id Is] [_ Hr].
  destruct (if zlen bz =? 0 then None else accept_header _ _ bz) as [[header valid]|] eqn:Ha.
  - destruct Hr as (Hh & Hd & Hs). destruct (zlen bz =? 0); [done|]. apply accept_header_from in Ha as [Hf _].
    assert (Hnew : header_from plain bz header).
    { eapply header_from_weaken; [|exact Hf]. destruct plain; [done|]. by rewrite Is. }
    split; [split|rewrite Hs; by intros ->].
    + intros h hd. rewrite Hh. unfold next_headers.
      assert (Hins : <[Header_Height (sh_Header header) := header]> (dr_pendingHeaders r) !! h = Some hd ->
        Header_Height (sh_Header hd) = h /\ exists bz, Src bz /\ header_from plain bz hd).
      { rewrite lookup_insert_Some. intros [[<- <-]|[_ ?]]; [|by apply Ih]. eauto. }
      destruct (dr_pendingHeaders r !! Header_Height (sh_Header header)) as [ex|]; [destruct (shouldReplacePendingHeader expectedProposer ex header)|]; auto.
    + rewrite Hd. exact Id.
    + intros Hp. by rewrite Hs, (Is Hp).
  - destruct Hr as (Hh & Hs & Hd). split; [split|by rewrite Hs].
    + by rewrite Hh.
    + intros h d. rewrite Hd. destruct (zlen bz =? 0); [apply Id|].
      destruct (decode_data_blob bz) as [[d' k]|] eqn:Hdd; [|apply Id]. unfold next_data.
      destruct (dr_pendingData r !! k); [apply Id|]. rewrite lookup_insert_Some. intros [[<- <-]|[_ ?]]; [|by apply Id].
      exists bz. split; [done|]. by apply decode_data_from.
    + intros Hp. by rewrite Hs, (Is Hp).
Qed.

(** What [processBlobs] does once the blobs are decoded. *)
Lemma processBlobs_run blobs daHeight r r1 :
  for_each blobs (process_blob expectedProposer daHeight) r = (Ok tt, r1) ->
  processBlobs expectedProposer blobs daHeight r =
    (Ok (match_events daHeight (dr_pendingData r1) (range_headers (dr_pendingHeaders r1))),
     set_dr_pendingHeaders (unmatched (dr_pendingData r1) (dr_pendingHeaders r1)) r1).
Proof. intros Hf. unfold processBlobs. by rewrite (run_bind _ _ _ _ _ Hf). Qed.

Lemma elem_of_match_events daHeight pd (l : list (Z * SignedHeader PK)) e :
  e ∈ match_events daHeight pd l <->
  exists h header data, (h, header) ∈ l /\ pair_data pd h header = Some data /\ e = MkEvent header data daHeight SourceDA (0, 0).
Proof.
  unfold match_events. rewrite list_elem_of_omap. split.
  - intros ([h header] & Hin & Hp). destruct (pair_data pd h header) as [data|] eqn:Hpd; simplify_eq/=. eauto 8.
  - intros (h & header & data & Hin & Hp & ->). exists (h, header). split; [done|]. by rewrite Hp.
Qed.

Definition event_height (e : DAHeightEvent PK) : Z := Header_Height (sh_Header (ev_Header e)).

Lemma match_events_nodup daHeight pd (l : list (Z * SignedHeader PK)) :
  NoDup l.*1 -> (forall h header, (h, header) ∈ l -> Header_Height (sh_Header header) = h) ->
  NoDup (event_height <$> match_events daHeight pd l).
Proof.
  induction l as [|[h header] l IH]; intros Hn Hh; [constructor|]. simpl in Hn. apply list.NoDup_cons in Hn as [Hni Hn].
  assert (IH' : NoDup (event_height <$> match_events daHeight pd l)).
  { apply IH; [done|]. intros h' hd' Hin. apply Hh. by right. }
  unfold match_events in *. simpl. destruct (pair_data pd h header) as [data|]; [|exact IH']. simpl. constructor; [|exact IH'].
  intros (e & He & Hin)%list_elem_of_fmap. apply elem_of_match_events in Hin as (h' & hd' & d' & Hin & _ & ->).
  unfold event_height in He. simpl in He. rewrite (Hh h header) in He by left. rewrite (Hh h' hd') in He by (by right).
  subst h'. apply Hni, list_elem_of_fmap. by exists (h, hd').
Qed.

(** An event that is backed by the blobs [Src]. *)
Definition event_backed (plain : bool) (Src : bytes -> Prop) (daHeight : Z) (e : DAHeightEvent PK) : Prop :=
  ev_DaHeight e = daHeight /\ ev_Source e = SourceDA /\
  (exists bz, Src bz /\ header_from plain bz (ev_Header e)) /\
  ((exists bz, Src bz /\ data_from bz (ev_Data e) (event_height e)) \/
   (isEmptyDataExpected (ev_Header e) = true /\ ev_Data e = createEmptyDataForHeader (ev_Header e))).

(** C12: Whatever blobs are read, in whatever order, decoding them ends and every
    block event that is returned is backed by blobs that were read: its header
    is the content of an envelope with a valid signature by the header's signer
    and names the expected proposer (a header without one is accepted only as
    long as strict mode was never entered), its data is signed data of the same
    height or the empty data that the header announces. There is at most one
    event per height, strict mode is never left, and a header that stays pending
    is one whose data is missing and not empty. *)
Theorem da_events_sound plain Src blobs daHeight r :
  dr_inv plain Src r -> (forall bz, bz ∈ blobs -> Src bz) ->
  exists events r',
    processBlobs expectedProposer blobs daHeight r = (Ok events, r') /\ dr_inv plain Src r' /\
    (strictMode r = true -> strictMode r' = true) /\
    Forall (event_backed plain Src daHeight) events /\ NoDup (event_height <$> events) /\
    (forall h header, dr_pendingHeaders r' !! h = Some header ->
       h ∉ event_height <$> events /\ dr_pendingData r' !! h = None /\ isEmptyDataExpected header = false).
Proof.
  intros Hi Hsrc.
  assert (Hloop : wp (for_each blobs (process_blob expectedProposer daHeight))
    (fun res r1 => res = Ok tt /\ dr_inv plain Src r1 /\ (strictMode r = true -> strictMode r1 = true)) r).
  { assert (Hgen : forall l s, (forall bz, bz ∈ l -> Src bz) -> dr_inv plain Src s ->
      wp (for_each l (process_blob expectedProposer daHeight))
        (fun res r1 => res = Ok tt /\ dr_inv plain Src r1 /\ (strictMode s = true -> strictMode r1 = true)) s).
    { induction l as [|bz l IH]; intros s Hl Hs; [by apply wp_ret|]. cbn [for_each]. apply wp_bind.
      eapply wp_mono; [apply process_blob_spec|]. intros res s1 [-> Hst].
      destruct (blob_step_inv plain Src bz s s1) as [Hs1 Hm]; [apply Hl; left|done..|].
      eapply wp_mono; [apply IH; [|exact Hs1]|]; [intros b Hb; apply Hl; by right|].
      intros res2 s2 (-> & Hi2 & Hm2). auto. }
    by apply Hgen. }
  apply wp_exists in Hloop as (res & r1 & Hrun & -> & [Ih Id Is] & Hmono).
  rewrite (processBlobs_run _ _ _ _ Hrun). eexists _, _. split; [done|].
  assert (Hin : forall h header, (h, header) ∈ range_headers (dr_pendingHeaders r1) <-> dr_pendingHeaders r1 !! h = Some header).
  { intros h header. by rewrite range_headers_perm, elem_of_map_to_list. }
  split_and!.
  - split; simpl; [|exact Id|exact Is]. intros h header [Hh _]%map_lookup_filter_Some. by apply Ih.
  - exact Hmono.
  - apply list.Forall_forall. intros e (h & header & data & Hl & Hp & ->)%elem_of_match_events.
    apply Hin in Hl. destruct (Ih _ _ Hl) as [Hh Hf]. unfold event_backed, event_height. simpl. split_and!; try done.
    unfold pair_data in Hp. destruct (dr_pendingData r1 !! h) as [d|] eqn:Hd.
    + injection Hp as <-. left. rewrite Hh. by apply Id.
    + right. destruct (isEmptyDataExpected header); [|done]. by injection Hp as <-.
  - apply match_events_nodup.
    + rewrite range_headers_perm. apply NoDup_fst_map_to_list.
    + intros h header Hl. by apply Ih, Hin.
  - intros h header [Hh Hp]%map_lookup_filter_Some. simpl. unfold pair_data in Hp.
    split.
    + intros (e & -> & Hm)%list_elem_of_fmap. apply elem_of_match_events in Hm as (h' & hd' & d' & Hl & Hp' & ->).
      apply Hin in Hl. destruct (Ih _ _ Hl) as [Hh' _]. unfold event_height in Hh, Hp. simpl in Hh, Hp. rewrite Hh' in Hh, Hp.
      rewrite Hl in Hh. injection Hh as <-. unfold pair_data in Hp'. by rewrite Hp in Hp'.
    + destruct (dr_pendingData r1 !! h); [done|]. by destruct (isEmptyDataExpected header).
Qed.

(** ** What was submitted is retrieved *)

(** [d] encodes signed data of height [h] with a signature of its content by the
    key it carries. *)
Definition good_signed_data (sd : SignedData PK) (h : Z) (d : bytes) : Prop :=
  exists pk payload m, data_wf (sd_Data sd) /\ signer_wf (sd_Signer sd) /\ SignedData_MarshalBinary sd = Ok d /\
    d_Metadata (sd_Data sd) = Some m /\ m_Height m = h /\ PubKey (sd_Signer sd) = Some pk /\
    Data_MarshalBinary clean_data clean_metadata (sd_Data sd) = Ok payload /\
    sl (sd_Signature sd) <> [] /\ pk_Verify pk payload (sl (sd_Signature sd)) = Ok true.

Lemma good_signed_data_decoded sd h d :
  good_signed_data sd h d -> decode_data_blob (PK := PK) d = Some (norm_data (sd_Data sd), h).
Proof.
  intros (pk & payload & m & Hd & Hs & Hb & Hm & Hh & Hpk & Hp & Hne & Hv). unfold decode_data_blob.
  rewrite (signed_data_decode sd _ d Hd Hs Hb). cbn [sd_Data sd_Signature].
  assert (Hsl : sl (norm_slice (sd_Signature sd)) = sl (sd_Signature sd)) by (by destruct (sd_Signature sd) as [[]|]).
  assert (Hlen : (slen (norm_slice (sd_Signature sd)) =? 0) = false).
  { apply Z.eqb_neq. unfold slen. rewrite Hsl. unfold zlen. destruct (sl (sd_Signature sd)); [done|]. simpl. lia. }
  rewrite Hlen, andb_false_r. unfold assertValidSignedData. cbn [sd_Data sd_Signer sd_Signature].
  rewrite marshal_norm_data, Hp, Hsl. unfold norm_signer. rewrite Hpk. cbn [PubKey Txs norm_data]. rewrite Hv.
  cbn [negb d_Metadata]. unfold norm_data. cbn [d_Metadata]. rewrite Hm. cbn [fmap option_fmap option_map].
  unfold norm_metadata. cbn [m_Height]. by rewrite Hh.
Qed.

Lemma good_envelope_decoded strict pk header e :
  header_wf (sh_Header header) -> signer_wf (sh_Signer header) -> PubKey (sh_Signer header) = Some pk ->
  (forall b, pk_Verify pk b [] <> Ok true) -> good_envelope pk header e ->
  decode_header_blob strict e = Some (norm_signed_header header SignedHeader_New, true).
Proof.
  intros Hh Hs Hpk Hnv (b & sig & Hb & Hv & He). unfold decode_header_blob.
  rewrite (da_envelope_decode header SignedHeader_New (Some sig) e Hh Hs He).
  assert (Hne : norm_slice (Some sig) = Some sig) by (destruct sig; [by destruct (Hnv b)|done]).
  rewrite Hne. destruct (Z.ltb_spec 0 (slen (Some sig))) as [_|Hl].
  - rewrite marshal_norm_signed_header by done. unfold norm_signed_header, norm_signer. cbn [sh_Signer]. rewrite Hpk.
    cbn [PubKey]. rewrite Hb. change (sl (Some sig)) with sig. by rewrite Hv.
  - destruct sig; [by destruct (Hnv b)|]. unfold slen, zlen in Hl. simpl in Hl. lia.
Qed.

Section delivery.
(** A block with its envelope and its signed data, and clocks that are not
    behind the block. *)
Context (pk : PK) (header : SignedHeader PK) (sd : SignedData PK) (e d : bytes) (clock_ok : W -> Prop).

Definition block_height : Z := Header_Height (sh_Header header).

Record published (blobs : list bytes) r : Prop := {
  pb_header_wf : header_wf (sh_Header header);
  pb_signer_wf : signer_wf (sh_Signer header);
  pb_signer_key : PubKey (sh_Signer header) = Some pk;
  pb_no_empty_signature b : pk_Verify pk b [] <> Ok true;
  pb_envelope : good_envelope pk header e;
  pb_data : good_signed_data sd block_height d;
  pb_valid w : clock_ok w ->
    clock_ok (time_Now w).2 /\ Header_ValidateBasic (time_Now w).1 (norm_header (sh_Header header)) = Ok tt;
  pb_proposer : dr_assertExpectedProposer expectedProposer (norm_signed_header header SignedHeader_New) = true;
  pb_clock : clock_ok (clock_of r);
  (** Nothing of the height waits, and the blobs hold no rival of it. *)
  pb_fresh : dr_pendingHeaders r !! block_height = None /\ dr_pendingData r !! block_height = None;
  pb_blobs : e ∈ blobs /\ d ∈ blobs /\ e <> [] /\ d <> [];
  pb_only_header bz strict nw hd v : bz ∈ blobs -> accept_header strict nw bz = Some (hd, v) ->
    Header_Height (sh_Header hd) = block_height -> bz = e;
  pb_only_data bz d' : bz ∈ blobs -> decode_data_blob (PK := PK) bz = Some (d', block_height) -> bz = d;
  pb_not_header strict nw : accept_header strict nw d = None }.

Definition retrieved_header : SignedHeader PK := memoized (norm_signed_header header SignedHeader_New).
Definition retrieved_data : Data := norm_data (sd_Data sd).

(** While the blobs are decoded. *)
Record delivering (r : R) : Prop := {
  dl_clock : clock_ok (clock_of r);
  dl_header : dr_pendingHeaders r !! block_height = None \/ dr_pendingHeaders r !! block_height = Some retrieved_header;
  dl_data : dr_pendingData r !! block_height = None \/ dr_pendingData r !! block_height = Some retrieved_data }.

Definition arrived (bz : bytes) (r : R) : Prop :=
  (bz = e -> dr_pendingHeaders r !! block_height = Some retrieved_header) /\
  (bz = d -> dr_pendingData r !! block_height = Some retrieved_data).

Context (blobs : list bytes) (r0 : R) (Hpub : published blobs r0).

Lemma envelope_accepted strict w :
  clock_ok w -> accept_header strict (time_Now w).1 e = Some (retrieved_header, true).
Proof.
  intros Hw. unfold accept_header. destruct Hpub.
  rewrite (good_envelope_decoded strict pk header e) by done. cbn [negb]. rewrite andb_false_r.
  unfold norm_signed_header at 1. cbn [sh_Header].
  destruct (pb_valid0 w Hw) as [_ ->]. by rewrite pb_proposer0.
Qed.

Lemma retrieved_height : Header_Height (sh_Header retrieved_header) = block_height.
Proof. unfold retrieved_header. by rewrite memoized_height. Qed.

Lemma nonempty_blob (bz : bytes) : bz <> [] -> (zlen bz =? 0) = false.
Proof. intros Hx. apply Z.eqb_neq. unfold zlen. destruct bz; [done|]. simpl. lia. Qed.

Lemma next_headers_other m hd k :
  Header_Height (sh_Header hd) <> k -> next_headers m hd !! k = m !! k.
Proof.
  intros Hk. unfold next_headers.
  destruct (m !! Header_Height (sh_Header hd)) as [ex|]; [destruct (shouldReplacePendingHeader expectedProposer ex hd)|];
    rewrite ?lookup_insert_ne by done; done.
Qed.

Lemma next_data_other m d' k k' : k' <> k -> next_data m d' k' !! k = m !! k.
Proof. intros Hk. unfold next_data. destruct (m !! k'); [done|]. by rewrite lookup_insert_ne. Qed.

Lemma next_headers_retrieved m :
  m !! block_height = None \/ m !! block_height = Some retrieved_header ->
  next_headers m retrieved_header !! block_height = Some retrieved_header.
Proof.
  intros Hm. unfold next_headers. rewrite retrieved_height.
  destruct Hm as [Hm|Hm]; rewrite Hm; [by rewrite lookup_insert_eq|].
  destruct (shouldReplacePendingHeader _ _ _); [by rewrite lookup_insert_eq|done].
Qed.

Lemma next_data_retrieved m :
  m !! block_height = None \/ m !! block_height = Some retrieved_data ->
  next_data m retrieved_data block_height !! block_height = Some retrieved_data.
Proof. intros Hm. unfold next_data. destruct Hm as [Hm|Hm]; rewrite Hm; [by rewrite lookup_insert_eq|done]. Qed.

Lemma delivering_step bz r r' :
  bz ∈ blobs -> delivering r -> blob_step bz r r' ->
  delivering r' /\ arrived bz r' /\ (forall x, arrived x r -> arrived x r').
Proof.
  intros Hin [Hck Hh Hd] [Hc Hr].
  pose proof (pb_blobs _ _ Hpub) as (_ & _ & Hne & Hnd).
  pose proof (good_signed_data_decoded _ _ _ (pb_data _ _ Hpub)) as Hdec.
  assert (Hck' : clock_ok (clock_of r')).
  { destruct Hc as [->| ->]; [done|]. by apply (pb_valid _ _ Hpub). }
  destruct (zlen bz =? 0) eqn:Hz.
  { destruct Hr as (Hh' & _ & Hd'). split; [split; [done|by rewrite Hh'|by rewrite Hd']|].
    split; [split; intros ->; [by rewrite (nonempty_blob e) in Hz|by rewrite (nonempty_blob d) in Hz]|].
    unfold arrived. by rewrite Hh', Hd'. }
  destruct (accept_header (strictMode r) (time_Now (clock_of r)).1 bz) as [[hd v]|] eqn:Ha.
  - destruct Hr as (Hh' & Hd' & _). unfold arrived. rewrite Hd'.
    assert (Hbd : bz <> d) by (intros ->; by rewrite (pb_not_header _ _ Hpub) in Ha).
    destruct (decide (Header_Height (sh_Header hd) = block_height)) as [Hk|Hk].
    + assert (bz = e) as -> by (by eapply (pb_only_header _ _ Hpub)). rewrite envelope_accepted in Ha by done.
      injection Ha as <- <-. pose proof (next_headers_retrieved _ Hh) as Hnew. rewrite <- Hh' in Hnew.
      split; [split; [done|by right|by rewrite Hd']|]. split; [done|]. intros x [Hx1 Hx2]. split; auto.
    + assert (Hbe : bz <> e).
      { intros ->. rewrite envelope_accepted in Ha by done. injection Ha as <- <-. by rewrite retrieved_height in Hk. }
      rewrite Hh', next_headers_other by done. split; [|done].
      split; [done|by rewrite Hh', next_headers_other|by rewrite Hd'].
  - destruct Hr as (Hh' & _ & Hd'). unfold arrived. rewrite Hh'.
    assert (Hbe : bz <> e) by (intros ->; by rewrite envelope_accepted in Ha).
    destruct (decide (bz = d)) as [->|Hbd].
    + rewrite Hdec in Hd'. pose proof (next_data_retrieved _ Hd) as Hnew. unfold retrieved_data in Hnew at 1. rewrite <- Hd' in Hnew.
      split; [split; [done|by rewrite Hh'|by right]|]. split; [done|]. intros x [Hx1 Hx2]. split; auto.
    + assert (Hsame : dr_pendingData r' !! block_height = dr_pendingData r !! block_height).
      { rewrite Hd'. destruct (decode_data_blob bz) as [[d' k]|] eqn:Hdd; [|done]. apply next_data_other.
        intros ->. by apply Hbd, (pb_only_data _ _ Hpub bz d'). }
      rewrite Hsame. split; [split; [done|by rewrite Hh'|by rewrite Hsame]|]. done.
Qed.

Lemma deliver_loop daHeight l r :
  (forall bz, bz ∈ l -> bz ∈ blobs) -> delivering r ->
  wp (for_each l (process_blob expectedProposer daHeight)) (fun res r' =>
    res = Ok tt /\ (forall x, x ∈ l -> arrived x r') /\ (forall x, arrived x r -> arrived x r')) r.
Proof.
  revert r. induction l as [|bz l IH]; intros r Hl Hr.
  { apply wp_ret. split_and!; [done|by intros x ?%not_elem_of_nil|done]. }
  cbn [for_each]. apply wp_bind. eapply wp_mono; [apply process_blob_spec|]. intros res r1 [-> Hst].
  destruct (delivering_step bz r r1) as (Hr1 & Ha & Hm); [apply Hl; left|done..|].
  eapply wp_mono; [apply IH; [|exact Hr1]|]; [intros x Hx; apply Hl; by right|].
  intros res r2 (-> & Ha2 & Hm2). split_and!; [done| |auto].
  intros x [->|Hx]%elem_of_cons; auto.
Qed.

Lemma retrieved_hash : Header_Hash (Some (sh_Header retrieved_header)) = computeHash (sh_Header header).
Proof. unfold retrieved_header. rewrite memoized_hash by done. apply computeHash_norm. Qed.

End delivery.

(** C11: What a submitter publishes is what a syncing node retrieves. A
    well-formed block, with the proposer that the retriever expects and valid by
    its clock, has its signed envelope and its signed data among the blobs, in
    any order and among any other blobs that are no rivals for the height, of
    which nothing was waiting before. Then the retriever returns an event with
    that block: the header with its signature, its signer and its hash, and the
    data with its transactions and its commitment. The header does not stay
    pending; the data does, as the retriever deletes none. *)
Theorem published_block_delivered pk header sd e d clock_ok blobs daHeight r :
  published pk header sd e d clock_ok blobs r ->
  exists events r' header' data',
    processBlobs expectedProposer blobs daHeight r = (Ok events, r') /\
    MkEvent header' data' daHeight SourceDA (0, 0) ∈ events /\
    sh_Signature header' = norm_slice (sh_Signature header) /\ sh_Signer header' = norm_signer (sh_Signer header) /\
    set_cachedHash None (sh_Header header') = norm_header (sh_Header header) /\
    Header_Hash (Some (sh_Header header')) = computeHash (sh_Header header) /\
    data' = norm_data (sd_Data sd) /\ DACommitment data' = DACommitment (sd_Data sd) /\
    dr_pendingHeaders r' !! block_height header = None /\ dr_pendingData r' !! block_height header = Some data'.
Proof.
  intros Hpub.
  assert (Hdl : delivering header sd clock_ok r).
  { destruct (pb_fresh _ _ _ _ _ _ _ _ Hpub). split; [exact (pb_clock _ _ _ _ _ _ _ _ Hpub)|by left|by left]. }
  pose proof (deliver_loop pk header sd e d clock_ok blobs r Hpub daHeight blobs r (fun _ x => x) Hdl) as Hl.
  apply wp_exists in Hl as (res & r1 & Hrun & -> & Ha & _).
  destruct (pb_blobs _ _ _ _ _ _ _ _ Hpub) as (He & Hd & _).
  pose proof (proj1 (Ha e He) eq_refl) as Hh1. pose proof (proj2 (Ha d Hd) eq_refl) as Hd1.
  rewrite (processBlobs_run _ _ _ _ Hrun). eexists _, _, (retrieved_header header), (retrieved_data sd). split; [done|].
  assert (Hpair : pair_data (dr_pendingData r1) (block_height header) (retrieved_header header) = Some (retrieved_data sd))
    by (unfold pair_data; by rewrite Hd1).
  destruct (memoized_rest (norm_signed_header header SignedHeader_New)) as (Hs1 & Hs2 & Hs3).
  split_and!; [|exact Hs1|exact Hs2|exact Hs3|apply retrieved_hash|done|apply DACommitment_norm| |exact Hd1].
  - apply elem_of_match_events. exists (block_height header), (retrieved_header header), (retrieved_data sd).
    split_and!; [|done..]. rewrite range_headers_perm. by apply elem_of_map_to_list.
  - simpl. apply map_lookup_filter_None. right. intros hd Hhd. rewrite Hh1 in Hhd. injection Hhd as <-. by rewrite Hpair.
Qed.

End retrieval.
