(* ===== verification/DecodeFacts.v ===== *)
(** * What is decoded is well-formed

    Headers, data and events that are decoded from bytes of any origin have
    integers in range, bounded legacy fields and a signer that can be encoded
    again. The DA retriever only returns such events, and it leaves the store
    and the pending events of the cache manager alone. *)

From S2P Require Import Prelude Sha256 Datastore Types Serialization SerializationFacts Validation Store StoreFacts StoreAPI.
From S2P Require Import BlockCache Pending CacheManager DAClient DARetriever DARetrieverFacts.
From stdpp Require Import base gmap strings list numbers.
Open Scope Z_scope.

Section decode.
Context {PK : Type} `{PubKeys PK} `{WireLaws}.
Context `{ProtoMsg pbVersion, ProtoMsg pbHeader, ProtoMsg pbSignedHeader, ProtoMsg pbMetadata, ProtoMsg pbData,
          ProtoMsg pbSignedData, ProtoMsg pbDAHeaderEnvelope}.
Context `{!ProtoRange pbSignedHeader pbSignedHeader_range, !ProtoRange pbDAHeaderEnvelope pbDAHeaderEnvelope_range,
          !ProtoRange pbData pbData_range, !ProtoRange pbSignedData pbSignedData_range}.

Lemma u64b_ok z : u64b z = true -> is_u64 z.
Proof. unfold u64b, is_u64. rewrite andb_true_iff, Z.leb_le, Z.ltb_lt. done. Qed.

Lemma decodeLegacy_wf ph l : decodeLegacyHeaderFields ph = Ok l -> legacy_wf l.
Proof.
  unfold decodeLegacyHeaderFields. destruct (_ =? 0); [by intros [= <-]|]. destruct (_ <? _); [done|].
  destruct (decode_legacy_loop _ _ _) as [[l'|]|] eqn:Hd; [|done..].
  destruct (Legacy_IsZero (Some l')); [by intros [= <-]|]. intros [= <-] x [= <-].
  eapply decode_legacy_loop_bounded; [|exact Hd]. by unfold legacy_bounded.
Qed.

Lemma Header_FromProto_wf ph h h' :
  pbHeader_range ph = true -> Header_FromProto (Some ph) h = (Ok tt, h') -> header_wf h'.
Proof.
  unfold pbHeader_range. rewrite !andb_true_iff. intros [[Hh Ht] Hv]. unfold Header_FromProto.
  destruct (decodeLegacyHeaderFields ph) as [l|] eqn:Hl; [|done]. intros [= <-].
  split; [by apply u64b_ok|]. split; [by apply u64b_ok|]. split; [|by eapply decodeLegacy_wf].
  simpl. destruct (ph_Version ph) as [v|]; [|done]. simpl in Hv. unfold pbVersion_range in Hv.
  apply andb_true_iff in Hv as [? ?]. split; by apply u64b_ok.
Qed.

Lemma Signer_FromProto_wf o (s : Signer PK) : Signer_FromProto o = Ok s -> signer_wf s.
Proof.
  unfold Signer_FromProto. destruct o as [o|]; [|by intros [= <-]]. destruct (_ <? _); [|by intros [= <-]].
  destruct (UnmarshalPublicKey _) as [pk|] eqn:Hpk; [|done]. intros [= <-]. right. simpl. by rewrite sl_norm.
Qed.

(** A header with its signer. *)
Definition signed_wf (header : SignedHeader PK) : Prop :=
  header_wf (sh_Header header) /\ signer_wf (sh_Signer header).

(** The part that the two messages share. *)
Lemma fill_signed_wf ph sig psi (sh sh' : SignedHeader PK) :
  pbHeader_range ph = true ->
  (_ ← zoom sh_Header set_sh_Header (Header_FromProto (Some ph));
   _ ← modify (set_sh_Signature (copy_signature sig));
   signer ← lift_res (Signer_FromProto psi);
   modify (set_sh_Signer signer)) sh = (Ok tt, sh') -> signed_wf sh'.
Proof.
  intros Hr. unfold mbind, M_bind, zoom, modify, lift_res.
  destruct (Header_FromProto (Some ph) (sh_Header sh)) as [[[]|] h'] eqn:Hh; [|done].
  destruct (Signer_FromProto psi) as [s|] eqn:Hs; [|done]. intros [= <-].
  split; [by eapply Header_FromProto_wf|by eapply Signer_FromProto_wf].
Qed.

Lemma SignedHeader_FromProto_wf m (sh sh' : SignedHeader PK) :
  pbSignedHeader_range m = true -> SignedHeader_FromProto (Some m) sh = (Ok tt, sh') -> signed_wf sh'.
Proof.
  unfold pbSignedHeader_range, SignedHeader_FromProto. destruct (psh_Header m); [|done]. apply fill_signed_wf.
Qed.

Lemma SignedHeader_Unmarshal_wf b (sh sh' : SignedHeader PK) :
  SignedHeader_UnmarshalBinary b sh = (Ok tt, sh') -> signed_wf sh'.
Proof.
  unfold SignedHeader_UnmarshalBinary, mbind, M_bind, lift_res.
  destruct (proto_Unmarshal b) as [m|] eqn:Hm; [|done]. apply SignedHeader_FromProto_wf. by eapply unmarshal_range.
Qed.

Lemma UnmarshalDAEnvelope_wf b (sh sh' : SignedHeader PK) sig :
  UnmarshalDAEnvelope b sh = (Ok sig, sh') -> signed_wf sh'.
Proof.
  unfold UnmarshalDAEnvelope, mbind, M_bind, lift_res.
  destruct (proto_Unmarshal b) as [m|] eqn:Hm; [|done]. cbn [lift_proto map_err].
  assert (Hr : pbDAHeaderEnvelope_range m = true) by by eapply unmarshal_range.
  destruct (FromDAEnvelopeProto (Some m) sh) as [[[]|] sh1] eqn:Hf; [|done]. intros [= _ <-].
  unfold FromDAEnvelopeProto, pbDAHeaderEnvelope_range in *. destruct (pde_Header m); [|done]. by eapply fill_signed_wf.
Qed.

Lemma Data_FromProto_wf m d d' : pbData_range m = true -> Data_FromProto (Some m) d = (Ok tt, d') -> data_wf d'.
Proof.
  unfold pbData_range, Data_FromProto. destruct (pd_Metadata m) as [x|]; simpl; [|by intros _ [= <-]].
  unfold pbMetadata_range. rewrite andb_true_iff. intros [Hh Ht] [= <-] y [= <-]. split; by apply u64b_ok.
Qed.

Lemma Data_Unmarshal_wf b d d' : Data_UnmarshalBinary b d = (Ok tt, d') -> data_wf d'.
Proof.
  unfold Data_UnmarshalBinary, mbind, M_bind, lift_res. destruct (proto_Unmarshal b) as [m|] eqn:Hm; [|done].
  apply Data_FromProto_wf. by eapply unmarshal_range.
Qed.

Lemma SignedData_Unmarshal_wf b (sd sd' : SignedData PK) :
  data_wf (sd_Data sd) -> SignedData_UnmarshalBinary b sd = (Ok tt, sd') -> data_wf (sd_Data sd').
Proof.
  intros Hsd. unfold SignedData_UnmarshalBinary, mbind, M_bind, lift_res.
  destruct (proto_Unmarshal b) as [m|] eqn:Hm; [|done]. cbn [lift_proto map_err].
  assert (Hr : pbSignedData_range m = true) by by eapply unmarshal_range.
  unfold SignedData_FromProto, pbSignedData_range in *. destruct (psd_Data m) as [pd|].
  - destruct (Data_FromProto (Some pd) (sd_Data sd)) as [[[]|] d] eqn:Hd; [|done].
    destruct (Signer_FromProto _); [|done]. intros [= <-]. by eapply Data_FromProto_wf.
  - destruct (Signer_FromProto _); [|done]. by intros [= <-].
Qed.

Lemma decode_header_blob_wf strict bz (header : SignedHeader PK) v :
  decode_header_blob strict bz = Some (header, v) -> signed_wf header.
Proof.
  unfold decode_header_blob. destruct (UnmarshalDAEnvelope bz SignedHeader_New) as [[sig|] hd] eqn:Hu.
  - apply UnmarshalDAEnvelope_wf in Hu. repeat case_match; intros; by simplify_eq.
  - destruct strict; [done|]. destruct (proto_Unmarshal bz) as [m|] eqn:Hm; [|done]. cbn [lift_proto map_err].
    destruct (SignedHeader_FromProto (Some m) hd) as [[[]|] h] eqn:Hf; [|done]. intros [= <- _].
    eapply SignedHeader_FromProto_wf; [|exact Hf]. by eapply unmarshal_range.
Qed.

Lemma decode_data_blob_wf bz d h : decode_data_blob (PK := PK) bz = Some (d, h) -> data_wf d.
Proof.
  unfold decode_data_blob. destruct (SignedData_UnmarshalBinary bz SignedData_New) as [[[]|] sd] eqn:Hu; [|done].
  apply SignedData_Unmarshal_wf in Hu; [|done]. repeat case_match; intros; by simplify_eq.
Qed.

Lemma memoized_wf (header : SignedHeader PK) : signed_wf header -> signed_wf (memoized header).
Proof.
  intros [Hh Hs]. unfold memoized, MemoizeHash. destruct (cachedHash _); simpl; [by split|].
  by destruct (computeHash _).
Qed.

End decode.

(** ** Events of the DA retriever *)

Record event_wf {PK} `{PubKeys PK} (ev : DAHeightEvent PK) : Prop := {
  ew_header : signed_wf (ev_Header ev);
  ew_data : data_wf (ev_Data ev);
  ew_da : is_u64 (ev_DaHeight ev);
  ew_hints : is_u64 (ev_DaHeightHints ev).1 /\ is_u64 (ev_DaHeightHints ev).2 }.

Section retriever.
Context {ST PK W : Type} {C : Type -> Type}.
Context `{BlobRPC W} `{HeaderOrderLaws PK} `{PubKeys PK} `{WireLaws} `{HashText}.
Context `{ProtoMsg pbVersion, ProtoMsg pbHeader, ProtoMsg pbSignedHeader, ProtoMsg pbMetadata, ProtoMsg pbData,
          ProtoMsg pbSignedData, ProtoMsg pbDAHeaderEnvelope}.
Context `{!ProtoRange pbSignedHeader pbSignedHeader_range, !ProtoRange pbDAHeaderEnvelope pbDAHeaderEnvelope_range,
          !ProtoRange pbData pbData_range, !ProtoRange pbSignedData pbSignedData_range}.
Context (expectedProposer : Z -> option slice).
Abbreviation R := (daRetriever ST PK W C).

(** The headers and the data that wait are well-formed. *)
Definition waiting_wf (r : R) : Prop :=
  map_Forall (fun _ h => signed_wf h) (dr_pendingHeaders r) /\ map_Forall (fun _ d => data_wf d) (dr_pendingData r).

Record dr_kept (r r' : R) : Prop := {
  dk_store : mgr_store (dr_cache r') = mgr_store (dr_cache r);
  dk_events : pendingEvents (dr_cache r') = pendingEvents (dr_cache r);
  dk_waiting : waiting_wf r -> waiting_wf r' }.

#[export] Instance dr_kept_preorder : PreOrder dr_kept.
Proof. split; [by intros r; split|]. intros r1 r2 r3 [A1 A2 A3] [B1 B2 B3]. split; [congruence..|tauto]. Qed.

Lemma kept_header h header (r : R) :
  signed_wf header -> dr_kept r (set_dr_pendingHeaders (<[h := header]> (dr_pendingHeaders r)) r).
Proof. intros Hw. split; [done..|]. intros [Hh Hd]. split; [by apply map_Forall_insert_2|done]. Qed.

Lemma tryDecodeHeader_kept bz daHeight (r : R) :
  wp (tryDecodeHeader expectedProposer bz daHeight)
    (fun res r' => dr_kept r r' /\ forall header, res = Ok (Some header) -> signed_wf header) r.
Proof.
  unfold tryDecodeHeader. wp_read. destruct (decode_header_blob (strictMode r) bz) as [[h0 valid]|] eqn:Hd; [|by apply wp_ret].
  apply decode_header_blob_wf, memoized_wf in Hd. destruct (_ && _); [by apply wp_ret|].
  apply wp_bind. unfold on_dr_client, now, rpc. apply wp_zoom, wp_zoom, wp_infallible. cbn beta iota.
  destruct (Header_ValidateBasic _ (sh_Header h0)); [|by apply wp_ret]. destruct (negb _); [by apply wp_ret|].
  apply wp_bind. unfold memoized in Hd. destruct (MemoizeHash (Some (sh_Header h0))) as [hash h']. cbn [snd] in Hd.
  destruct (valid && _); (apply wp_modify || apply wp_ret); apply wp_bind, wp_modify, wp_ret; (split; [done|]); by intros ? [= <-].
Qed.

Lemma process_blob_kept daHeight bz (r : R) :
  wp (process_blob expectedProposer daHeight bz) (fun _ r' => dr_kept r r') r.
Proof.
  unfold process_blob. destruct (zlen bz =? 0); [by apply wp_ret|]. apply wp_bind.
  eapply wp_mono; [apply tryDecodeHeader_kept|]. intros [[header|]|] r1 [K1 Hw]; [| |done].
  - specialize (Hw header eq_refl). unfold keep_header. wp_read. destruct (dr_pendingHeaders r1 !! _).
    + destruct (shouldReplacePendingHeader _ _ _).
      * apply wp_bind, wp_modify, wp_modify. set (r2 := set_dr_cache _ r1). etrans; [exact K1|].
        etrans; [|by apply (kept_header _ _ r2)]. done.
      * apply wp_modify. etrans; [exact K1|done].
    + apply wp_modify. etrans; [exact K1|by apply kept_header].
  - unfold tryDecodeData. destruct (decode_data_blob bz) as [[d k]|] eqn:Hd; [|by apply wp_ret].
    apply decode_data_blob_wf in Hd. apply wp_bind, wp_bind, wp_modify, wp_ret, wp_modify. etrans; [exact K1|].
    case_match; (split; [done..|]); [done|]. intros [A B]. split; [done|]. by apply map_Forall_insert_2.
Qed.

Lemma match_events_wf daHeight (r : R) :
  is_u64 daHeight -> waiting_wf r ->
  Forall event_wf (match_events daHeight (dr_pendingData r) (range_headers (dr_pendingHeaders r))).
Proof.
  intros Hda [Hh Hd]. apply list.Forall_forall. intros e (h & header & data & Hin & Hp & ->)%elem_of_match_events.
  assert (Hw : signed_wf header).
  { apply (Hh h). by rewrite range_headers_perm, elem_of_map_to_list in Hin. }
  split; [done| |done|done]. simpl. unfold pair_data in Hp. destruct (dr_pendingData r !! h) as [d|] eqn:Hl.
  - simplify_eq. by apply (Hd h).
  - destruct (isEmptyDataExpected header); [|done]. simplify_eq. intros m [= <-]. destruct Hw as [(A & B & _) _]. done.
Qed.

Lemma ProcessBlobs_wf blobs daHeight (r : R) :
  is_u64 daHeight ->
  wp (ProcessBlobs expectedProposer blobs daHeight)
    (fun res r' => dr_kept r r' /\ (waiting_wf r -> forall events, res = Ok events -> Forall event_wf events)) r.
Proof.
  intros Hda. unfold ProcessBlobs, processBlobs. apply wp_bind. eapply wp_mono.
  { apply (wp_for_each (fun r' => dr_kept r r')); [|done]. intros bz r1 _ K1. eapply wp_mono; [apply process_blob_kept|].
    intros res r2 K2. by etrans. }
  intros [[]|] r1 K1; [|done]. wp_read. apply wp_bind, wp_modify, wp_ret. split.
  - etrans; [exact K1|]. split; [done..|]. intros [Hh Hd]. split; [|done].
    intros h header [Hl _]%map_lookup_filter_Some. by apply (Hh h).
  - intros Hw events [= <-]. apply match_events_wf; [done|]. by apply K1.
Qed.

Lemma fetchBlobs_kept daHeight (r : R) : wp (fetchBlobs daHeight) (fun _ r' => dr_kept r r') r.
Proof.
  unfold fetchBlobs. assert (Hc : forall A (m : M (client W) dr_error A) (r : R), wp (on_dr_client m) (fun _ r' => dr_kept r r') r).
  { intros A m r1. apply wp_zoom. unfold wp. by destruct (m _). }
  wp_read. apply wp_bind. eapply wp_mono; [apply Hc|]. intros [hr|] r1 K1; [|done]. case_match.
  - apply wp_bind, wp_lift_res. destruct (validateBlobResponse hr); [by apply wp_ret|done].
  - apply wp_bind. eapply wp_mono; [apply Hc|]. intros [dr|] r2 K2; [|by etrans]. assert (K3 : dr_kept r r2) by by etrans.
    apply wp_bind, wp_lift_res. case_match; [|done]. apply wp_bind, wp_lift_res. case_match; [|done].
    case_match; [by apply wp_throw|by apply wp_ret].
Qed.

Lemma RetrieveFromDA_wf daHeight (r : R) :
  is_u64 daHeight ->
  wp (RetrieveFromDA expectedProposer daHeight)
    (fun res r' => dr_kept r r' /\ (waiting_wf r -> forall events, res = Ok events -> Forall event_wf events)) r.
Proof.
  intros Hda. unfold RetrieveFromDA. apply wp_bind. eapply wp_mono; [apply fetchBlobs_kept|]. intros [blobs|] r1 K1; [|done].
  apply wp_bind. unfold on_dr_client, rpc. apply wp_zoom, wp_zoom, wp_infallible. cbn beta iota.
  destruct (backoff_cancelled _).1; [apply wp_throw; split; [|done]; destruct K1; by split|].
  eapply wp_mono; [by apply ProcessBlobs_wf|]. intros res r2 [K2 Hw].
  split; [destruct K1 as [A1 A2 A3], K2 as [B1 B2 B3]; split; [by rewrite B1|by rewrite B2|by intros ?; apply B3, A3]|].
  intros Hr. apply Hw. by apply K1.
Qed.
End retriever.
