(* ===== verification/DARetrieverWitness.v ===== *)
(** * The retriever at concrete states

    The envelope and the signed data of a block are retrieved and give its
    event; the theorems on the retriever apply. Two examples show how blobs
    that anyone can publish disturb the inclusion status of honest blocks. *)

From S2P Require Import Prelude Sha256 Datastore Types Serialization SerializationFacts ProtoInst Store StoreFacts StoreMaintenance StoreAPI.
From S2P Require Import BlockCache Pending CacheManager DAClient DASubmitter DASubmitterFacts Submitter NodeInst SubmitterWitness.
From S2P Require Import DARetriever DARetrieverFacts.
From stdpp Require Import base gmap strings list numbers.
Open Scope Z_scope.

Module DARetrieverWitness.
Import ProtoInst MemDS MemDA StoreWitness NodeInst SubmitterWitness.

#[export] Instance header_order : HeaderOrder bytes := { range_headers := map_to_list }.
#[export] Instance header_order_laws : HeaderOrderLaws bytes.
Proof. by split. Qed.

Definition ok_or_nil (r : res terror bytes) : bytes := match r with Ok b => b | Err _ => [] end.

(** What the holder of the key [k] publishes. *)
Definition envelope_by (k : bytes) (header : SignedHeader bytes) : bytes :=
  ok_or_nil (MarshalDAEnvelope (Some (k ++ ok_or_nil (marshal_signed_header header))) header).
Definition signed_by (k : bytes) (data : Data) : SignedData bytes :=
  MkSignedData data (Some (k ++ ok_or_nil (Data_MarshalBinary clean_data clean_metadata data)))
    (MkSigner (Some k) (Some (Sha256.sum256 k)) None).
Definition data_blob (k : bytes) (data : Data) : bytes := ok_or_nil (SignedData_MarshalBinary (signed_by k data)).

(** A header whose block has transactions. *)
Definition with_data (header : SignedHeader bytes) (data : Data) : SignedHeader bytes :=
  let h := sh_Header header in
  MkSignedHeader (MkHeader (h_Base h) (h_Version h) None (Some (DACommitment data)) None None (ProposerAddress h) None None)
    (sh_Signature header) (sh_Signer header) None None.
Definition block1 : SignedHeader bytes := with_data (hdr 1) (dat 1).

Definition rt_client : client memda := MkClient false [] (newBlockTimestampCache 0) node_da.
Definition rt0 : daRetriever memds bytes memda (gmap Z) := NewDARetriever rt_client da_ns da_ns (mgr_on store2).

Definition no_proposer (_ : Z) : option slice := None.
Definition proposer_key (_ : Z) : option slice := Some (Some key).

Definition e1 : bytes := envelope_by key block1.
Definition d1 : bytes := data_blob key (dat 1).

Example retrieved1 :
  let '(r, rt) := processBlobs no_proposer [d1; e1] 9 rt0 in
  (exists ev, r = Ok [ev] /\ ev_Data ev = dat 1 /\ event_height ev = 1) /\ strictMode rt = true.
Proof. vm_compute. split; [eexists; repeat split|reflexivity]. Qed.

Definition clocks (w : memda) : Prop := 0 <= clock w.

Lemma d1_not_header strict nw : accept_header no_proposer strict nw d1 = None.
Proof. destruct strict; vm_compute; reflexivity. Qed.

Lemma block1_published : published no_proposer key block1 (signed_by key (dat 1)) e1 d1 clocks [d1; e1] rt0.
Proof.
  split.
  - unfold header_wf, version_wf, is_u64. split_and!; try (vm_compute; discriminate || reflexivity).
  - left. reflexivity.
  - reflexivity.
  - intros b. vm_compute. discriminate.
  - exists (ok_or_nil (marshal_signed_header block1)), (key ++ ok_or_nil (marshal_signed_header block1)).
    split; [vm_compute; reflexivity|]. split; vm_compute; reflexivity.
  - exists key, (ok_or_nil (Data_MarshalBinary clean_data clean_metadata (dat 1))), (MkMetadata "c" 1 7 None).
    split; [intros m [= <-]; vm_compute; split; split; discriminate || reflexivity|]. split; [left; reflexivity|].
    split; [vm_compute; reflexivity|]. split; [reflexivity|]. split; [reflexivity|]. split; [reflexivity|].
    split; [vm_compute; reflexivity|]. split; [vm_compute; discriminate|vm_compute; reflexivity].
  - intros w Hw. unfold clocks in *. split; [simpl; lia|].
    change (Header_ValidateBasic (time_Now w).1 (norm_header (sh_Header block1)))
      with (guard_err (negb (clock w + MaxClockDrift <? 7)) ErrInvalidTimestamp).
    destruct (Z.ltb_spec (clock w + MaxClockDrift) 7) as [Hlt|]; [unfold MaxClockDrift, minute, second in Hlt; lia|].
    reflexivity.
  - reflexivity.
  - vm_compute. discriminate.
  - split; reflexivity.
  - split_and!; [right; left|left|vm_compute; discriminate..].
  - intros bz strict nw hd v Hin Ha _. apply elem_of_cons in Hin as [->|Hin].
    + rewrite d1_not_header in Ha. discriminate Ha.
    + by apply list_elem_of_singleton in Hin.
  - intros bz d' Hin Hd. apply elem_of_cons in Hin as [->|Hin]; [done|]. apply list_elem_of_singleton in Hin as ->.
    vm_compute in Hd. discriminate Hd.
  - exact d1_not_header.
Qed.

Lemma published_block_delivered_witness :
  exists events r' header' data',
    processBlobs no_proposer [d1; e1] 9 rt0 = (Ok events, r') /\ MkEvent header' data' 9 SourceDA (0, 0) ∈ events /\
    data' = norm_data (dat 1) /\ Header_Hash (Some (sh_Header header')) = computeHash (sh_Header block1).
Proof.
  destruct (published_block_delivered no_proposer key block1 (signed_by key (dat 1)) e1 d1 clocks [d1; e1] 9 rt0)
    as (events & r' & header' & data' & Hr & Hin & _ & _ & _ & Hh & Hd & _).
  - exact block1_published.
  - exists events, r', header', data'. split; [exact Hr|]. split; [exact Hin|]. split; [exact Hd|exact Hh].
Defined.

Lemma new_retriever_inv Src : dr_inv no_proposer true Src rt0.
Proof. split; [intros h hd Hh|intros h d Hd|discriminate]; [simpl in Hh; by rewrite lookup_empty in Hh|simpl in Hd; by rewrite lookup_empty in Hd]. Qed.

Lemma da_events_sound_witness :
  exists events r', processBlobs no_proposer [d1; e1] 9 rt0 = (Ok events, r') /\
    Forall (event_backed no_proposer true (fun bz => bz ∈ [d1; e1]) 9) events.
Proof.
  destruct (da_events_sound no_proposer true (fun bz => bz ∈ [d1; e1]) [d1; e1] 9 rt0)
    as (events & r' & Hr & _ & _ & Hb & _).
  - apply new_retriever_inv.
  - intros bz Hin. exact Hin.
  - exists events, r'. split; [exact Hr|exact Hb].
Defined.

(** ** Blobs that disturb honest blocks *)

Definition after (ep : Z -> option slice) (blobs : list (list bytes)) : daRetriever memds bytes memda (gmap Z) :=
  foldl (fun rt bs => (processBlobs ep bs 9 rt).2) rt0 blobs.
Definition header_status (rt : daRetriever memds bytes memda (gmap Z)) (h : Z) : option Z :=
  GetHeaderDAIncludedByHeight h (dr_cache rt).

(** An envelope that is read a second time while its block waits for its data
    takes the inclusion mark from the header that waits. *)
Example repeated_envelope_unmarks :
  header_status (after no_proposer [[e1]]) 1 = Some 9 /\
  header_status (after no_proposer [[e1]; [e1]]) 1 = None /\
  header_status (after no_proposer [[e1]; [e1]; [d1]]) 1 = None.
Proof. vm_compute. repeat split. Qed.

(** A header with the proposer's address and another key in its signer passes
    for the proposer's: it takes the place of the honest header, which is
    dropped, and the only event of the height carries the forged one. *)
Definition other_key : bytes := [byte_of_Z 77; byte_of_Z 78].
Definition forged_height1 : SignedHeader bytes :=
  MkSignedHeader (sh_Header (hdr 1)) (Some other_key) (MkSigner (Some other_key) (Some (Sha256.sum256 other_key)) None) None None.
Example forged_header_wins :
  match processBlobs proposer_key [envelope_by other_key forged_height1; e1; d1] 9 rt0 with
  | (Ok [ev], rt) =>
      PubKey (sh_Signer (ev_Header ev)) = Some other_key /\ dr_pendingHeaders rt !! 1 = None /\
      GetHeaderDAIncludedByHash (hash_String (sl (computeHash (sh_Header block1)))) (dr_cache rt) = None
  | _ => False
  end.
Proof. vm_compute. repeat split. Qed.

(** Data that anyone signed takes the place of the proposer's data of the height. *)
Example foreign_data_wins :
  match processBlobs proposer_key [data_blob other_key (MkData (Some (MkMetadata "c" 1 7 None)) (Some [[]])); e1; d1] 9 rt0 with
  | (Ok [ev], rt) => ev_Data ev = MkData (Some (MkMetadata "c" 1 7 None)) (Some [[]]) /\ dr_pendingHeaders rt !! 1 = None
  | _ => False
  end.
Proof. vm_compute. repeat split. Qed.

End DARetrieverWitness.
