(* ===== verification/ForcedInclusion.v ===== *)
(** * Retrieval of forced inclusion transactions
      ([block/internal/da/forced_inclusion_retriever.go],
       [block/internal/da/async_block_retriever.go])

    [asyncBlockRetriever] keeps an in-memory datastore of prefetched DA blocks,
    filled by the handlers of the DA subscription; [forcedInclusionRetriever]
    collects the forced inclusion transactions of a DA epoch, from that cache
    where it can and from the DA client otherwise. A context is the predicate
    of the world that tells whether it is done. Loops over heights range over
    [z_range]. *)

From S2P Require Import Prelude Datastore Serialization Epoch Store DAClient.
From stdpp Require Import base gmap strings list numbers pretty.
Open Scope Z_scope.

(** [pb.BlockData]. *)
Record pbBlockData := MkPbBlockData { bd_Height : Z; bd_Timestamp : Z; bd_Blobs : list bytes }.

Record BlockData := MkBlockData { blk_Height : Z; blk_Timestamp : Z; blk_Blobs : list bytes }.

Record ForcedInclusionEvent := MkFIEvent
  { fi_Timestamp : Z; StartDaHeight : Z; EndDaHeight : Z; fi_Txs : list bytes }.

Inductive fi_error :=
| ErrForceInclusionNotConfigured
| ErrHeightFromFuture
| FBeforeStart
| FCache (e : ds_error)
| FProto
| FContext
| FRetrieve (msg : string)
| FInline.
#[export] Instance fi_error_eq_dec : EqDecision fi_error.
Proof. solve_decision. Defined.

(** [ds.NewMapDatastore()]: an empty datastore. *)
Class MapDatastore (DB : Type) := { NewMapDatastore : DB }.
Class MapDatastoreLaws (DB : Type) `{Datastore DB, MapDatastore DB} := {
  new_map_empty : ds_view NewMapDatastore = ∅
}.

Record asyncBlockRetriever (DB W : Type) := MkAsync
  { ar_client : client W; ar_namespace : bytes; ar_cache : DB; ar_daStartHeight : Z;
    consumedHeight : Z; prefetchWindow : Z }.
Arguments MkAsync {DB W}. Arguments ar_client {DB W}. Arguments ar_namespace {DB W}.
Arguments ar_cache {DB W}. Arguments ar_daStartHeight {DB W}. Arguments consumedHeight {DB W}.
Arguments prefetchWindow {DB W}.

(** The DA client is the one of its [asyncFetcher]. *)
Record forcedInclusionRetriever (DB W : Type) := MkRetriever
  { daEpochSize : Z; fr_daStartHeight : Z; asyncFetcher : asyncBlockRetriever DB W }.
Arguments MkRetriever {DB W}. Arguments daEpochSize {DB W}. Arguments fr_daStartHeight {DB W}.
Arguments asyncFetcher {DB W}.

Definition newBlockDataKey (height : Z) : string := "/block/" +:+ format_uint height.

(** [fmt.Sscanf(key, "/block/%d", &height)]: the decimal digits after the
    prefix, which fit a uint64; what follows them is not looked at. *)
Fixpoint scan_digits (acc : option Z) (s : string) : option Z :=
  match s with
  | EmptyString => acc
  | String c s' =>
      let d := Z.of_nat (Ascii.nat_of_ascii c) - 48 in
      if (0 <=? d) && (d <=? 9) then scan_digits (Some (10 * default 0 acc + d)) s' else acc
  end.

Definition scan_block_key (key : string) : option Z :=
  if String.prefix "/block/" key then
    height ← scan_digits None (String.substring 7 (String.length key - 7) key);
    if height <? two64 then Some height else None
  else None.

(** Blobs that are not empty. *)
Definition non_empty (blobs : list bytes) : list bytes :=
  List.filter (fun blob => 0 <? zlen blob) blobs.

Section retriever.
Context {DB : Type} `{Datastore DB} `{MapDatastore DB} {W : Type} `{BlobRPC W} `{ProtoMsg pbBlockData}.

Abbreviation A := (asyncBlockRetriever DB W).
Abbreviation R := (forcedInclusionRetriever DB W).
Definition AM (X : Type) : Type := M A fi_error X.
Definition RM (X : Type) : Type := M R fi_error X.

Definition set_ar_client (c : client W) (f : A) : A :=
  MkAsync c (ar_namespace f) (ar_cache f) (ar_daStartHeight f) (consumedHeight f) (prefetchWindow f).
Definition set_ar_cache (d : DB) (f : A) : A :=
  MkAsync (ar_client f) (ar_namespace f) d (ar_daStartHeight f) (consumedHeight f) (prefetchWindow f).
Definition set_consumedHeight (h : Z) (f : A) : A :=
  MkAsync (ar_client f) (ar_namespace f) (ar_cache f) (ar_daStartHeight f) h (prefetchWindow f).
Definition set_asyncFetcher (f : A) (r : R) : R := MkRetriever (daEpochSize r) (fr_daStartHeight r) f.

(** Calls on the DA client and on the cache. *)
Definition on_client {X} (m : M (client W) fi_error X) : AM X := zoom ar_client set_ar_client m.
Definition on_cache {X} (m : M DB ds_error X) : AM X := zoom ar_cache set_ar_cache (wrap FCache m).
Definition on_async {X} (m : AM X) : RM X := zoom asyncFetcher set_asyncFetcher m.

Definition NewAsyncBlockRetriever (c : client W) (namespace : bytes) (daStartHeight window : Z) : A :=
  MkAsync c namespace NewMapDatastore daStartHeight 0 (if window =? 0 then 10 else window).

Definition NewForcedInclusionRetriever (c : client W) (daStartHeight epochSize : Z) : R :=
  MkRetriever epochSize daStartHeight
    (NewAsyncBlockRetriever c (forcedNamespaceBz c) daStartHeight (mul64 epochSize 2)).

(** ** The cache of DA blocks *)

Definition cleanup_entry (cleanupThreshold : Z) (result : res ds_error (string * bytes)) : AM unit :=
  match result with
  | Err _ => mret tt
  | Ok (key, _) =>
      match scan_block_key key with
      | None => mret tt
      | Some height =>
          if height <? cleanupThreshold
          then r ← attempt (F := fi_error) (on_cache (ds_delete key)); mret tt
          else mret tt
      end
  end.

Definition cleanupOldBlocks (currentHeight : Z) : AM unit :=
  f ← gets id;
  if currentHeight <? prefetchWindow f then mret tt else
  let cleanupThreshold := sub64 currentHeight (prefetchWindow f) in
  results ← attempt (F := fi_error) (on_cache ds_query);
  match results with
  | Err _ => mret tt
  | Ok results => for_each results (cleanup_entry cleanupThreshold)
  end.

Definition UpdateCurrentHeight (height : Z) : AM unit :=
  current ← gets consumedHeight;
  if height <=? current then mret tt else
  _ ← modify (set_consumedHeight height);
  cleanupOldBlocks height.

(** A nil block, which is not an error, is [None]. *)
Definition GetCachedBlock (daHeight : Z) : AM (option BlockData) :=
  f ← gets id;
  if zlen (ar_namespace f) =? 0 then mret None else
  if daHeight <? ar_daStartHeight f then throw FBeforeStart else
  data ← attempt (on_cache (ds_get (newBlockDataKey daHeight)));
  match data with
  | Err (FCache ErrNotFound) => mret None
  | Err e => throw e
  | Ok data =>
      match proto_Unmarshal data with
      | Err _ => throw FProto
      | Ok pbBlock => mret (Some (MkBlockData (bd_Height pbBlock) (bd_Timestamp pbBlock) (bd_Blobs pbBlock)))
      end
  end.

(** [daTimestamp.UnixNano()] wraps outside of the int64 range. *)
Definition cacheBlock (daHeight daTimestamp : Z) (blobs : list bytes) : AM unit :=
  match proto_Marshal (MkPbBlockData daHeight (i64 daTimestamp) blobs) with
  | Err _ => mret tt
  | Ok data =>
      r ← attempt (F := fi_error) (on_cache (ds_put (newBlockDataKey daHeight) data));
      mret tt
  end.

(** [if err := ctx.Err(); err != nil { return err }]. *)
Definition check_ctx (ctx : W -> bool) : AM unit :=
  f ← gets id;
  if ctx (api (ar_client f)) then throw FContext else mret tt.

Definition fetchAndCacheBlock (ctx : W -> bool) (height : Z) : AM unit :=
  _ ← check_ctx ctx;
  f ← gets id;
  result ← on_client (Retrieve height (ar_namespace f));
  match Code result with
  | StatusHeightFromFuture => throw ErrHeightFromFuture
  | StatusNotFound => cacheBlock height (res_Timestamp result) []
  | StatusSuccess => cacheBlock height (res_Timestamp result) (non_empty (res_Data result))
  | _ => throw (FRetrieve (Message result))
  end.

Definition HandleEvent (ctx : W -> bool) (ev : SubscriptionEvent) (isInline : bool) : AM unit :=
  _ ← check_ctx ctx;
  _ ← cacheBlock (ev_Height ev) (ev_Timestamp ev) (ev_Blobs ev);
  if isInline then throw FInline else mret tt.

(** Fetch a height unless the cache has it. *)
Definition fetch_missing (ctx : W -> bool) (height : Z) : AM unit :=
  data ← attempt (F := fi_error) (on_cache (ds_get (newBlockDataKey height)));
  match data with
  | Ok _ => mret tt
  | Err _ => fetchAndCacheBlock ctx height
  end.

Definition HandleCatchup (ctx : W -> bool) (daHeight : Z) : AM unit :=
  _ ← check_ctx ctx;
  _ ← fetch_missing ctx daHeight;
  f ← gets id;
  let target := add64 daHeight (prefetchWindow f) in
  for_each (z_range (add64 daHeight 1) target) (fun h =>
    _ ← check_ctx ctx; fetch_missing ctx h).

(** ** The forced inclusion transactions of an epoch *)

(** The blocks found in the cache and the heights that are missing. *)
Fixpoint lookup_cached (heights : list Z) (cachedBlocks : gmap Z BlockData) (missing : list Z)
  : AM (gmap Z BlockData * list Z) :=
  match heights with
  | [] => mret (cachedBlocks, missing)
  | h :: heights' =>
      block ← attempt (F := fi_error) (GetCachedBlock h);
      match block with
      | Err _ => lookup_cached heights' cachedBlocks (missing ++ [h])
      | Ok None => lookup_cached heights' cachedBlocks (missing ++ [h])
      | Ok (Some block) => lookup_cached heights' (<[h := block]> cachedBlocks) missing
      end
  end.

(** The blocks fetched from DA and the errors met ([errors.Join]). *)
Fixpoint fetch_heights (heights : list Z) (fetched : gmap Z BlockData) (processErrs : list string)
  : RM (gmap Z BlockData * list string) :=
  match heights with
  | [] => mret (fetched, processErrs)
  | h :: heights' =>
      result ← on_async (on_client (c ← gets id; Retrieve h (forcedNamespaceBz c)));
      match Code result with
      | StatusHeightFromFuture => throw ErrHeightFromFuture
      | StatusNotFound =>
          fetch_heights heights' (<[h := MkBlockData 0 (res_Timestamp result) []]> fetched) processErrs
      | StatusSuccess =>
          fetch_heights heights'
            (<[h := MkBlockData 0 (res_Timestamp result) (res_Data result)]> fetched) processErrs
      | _ => fetch_heights heights' fetched (processErrs ++ [Message result])
      end
  end.

(** The blobs of the blocks in height order, and the latest timestamp. *)
Fixpoint process_blocks (heights : list Z) (cachedBlocks syncFetchedBlocks : gmap Z BlockData)
  (event : ForcedInclusionEvent) : ForcedInclusionEvent :=
  match heights with
  | [] => event
  | h :: heights' =>
      let block := match cachedBlocks !! h with
                   | Some b => Some b
                   | None => syncFetchedBlocks !! h
                   end in
      let event :=
        match block with
        | None => event
        | Some block =>
            MkFIEvent (if fi_Timestamp event <? blk_Timestamp block
                       then blk_Timestamp block else fi_Timestamp event)
                      (StartDaHeight event) (EndDaHeight event)
                      (fi_Txs event ++ non_empty (blk_Blobs block))
        end in
      process_blocks heights' (delete h cachedBlocks) (delete h syncFetchedBlocks) event
  end.

Definition RetrieveForcedIncludedTxs (daHeight : Z) : RM ForcedInclusionEvent :=
  r ← gets id;
  if negb (hasForcedNamespace (ar_client (asyncFetcher r))) then throw ErrForceInclusionNotConfigured else
  if daHeight <? fr_daStartHeight r then throw FBeforeStart else
  let '(epochStart, epochEnd, currentEpochNumber) :=
    Epoch.CalculateEpochBoundaries daHeight (fr_daStartHeight r) (daEpochSize r) in
  _ ← on_async (UpdateCurrentHeight daHeight);
  if negb (daHeight =? epochEnd) then mret (MkFIEvent zero_time daHeight daHeight []) else
  let event := MkFIEvent zero_time epochStart epochEnd [] in
  let heights := z_range epochStart epochEnd in
  cached ← on_async (lookup_cached heights ∅ []);
  let '(cachedBlocks, missingHeights) := cached in
  fetched ← fetch_heights missingHeights ∅ [];
  let '(syncFetchedBlocks, processErrs) := fetched in
  let event := process_blocks heights cachedBlocks syncFetchedBlocks event in
  if 0 <? zlen processErrs then
    mret (MkFIEvent (fi_Timestamp event) daHeight daHeight [])
  else mret event.

End retriever.
