(* ===== verification/ForcedInclusionFacts.v ===== *)
(** * Theorems on the retrieval of forced inclusion transactions

    The reference is the DA chain itself: [epoch_txs] and [epoch_time] read an
    epoch off the DA blocks. The cache of the prefetcher is [coherent] when what
    it holds agrees with the DA chain, but for the heights [bad] at which the
    subscription delivered a damaged event (without the block's time, or without
    its blobs above the size limit); every handler preserves this, and a
    retrieval returns the reference whatever the cache holds. *)

From S2P Require Import Prelude Datastore Serialization Epoch Store StoreFacts DAClient ForcedInclusion ProtoInst.
From stdpp Require Import base gmap strings list numbers.
Open Scope Z_scope.

(** ** The reference *)

Section reference.
Context {W : Type} `{BlobRPC W}.

Definition block_txs (w : W) (ns : bytes) (h : Z) : list bytes := non_empty (default [] (da_block w ns h)).
Definition epoch_txs (w : W) (ns : bytes) (hs : list Z) : list bytes := hs ≫= block_txs w ns.
Definition later (w : W) (t : Z) (h : Z) : Z := Z.max t (default zero_time (da_time w h)).
Definition epoch_time (w : W) (hs : list Z) : Z := foldl (later w) zero_time hs.

(** What is known of the block at [h] agrees with the DA chain. *)
Definition block_ok (w : W) (ns : bytes) (h t : Z) (blobs : list bytes) : Prop :=
  exists bl, da_block w ns h = Some bl /\ da_time w h = Some t /\ zero_time < t /\ i64 t = t /\
    non_empty blobs = non_empty bl.

Lemma block_ok_extends w w' ns h t bl : da_extends w w' -> block_ok w ns h t bl -> block_ok w' ns h t bl.
Proof. intros [Hb Ht] (b & ? & ? & ?). exists b. split_and!; [by apply Hb|by apply Ht|tauto..]. Qed.

Lemma block_ok_txs w ns h t bl : block_ok w ns h t bl -> non_empty bl = block_txs w ns h.
Proof. intros (b & Hb & _ & _ & _ & Hn). unfold block_txs. by rewrite Hb. Qed.

(** The loop over blocks that are all at hand. *)
Lemma process_blocks_all (blk : Z -> BlockData) hs cached fetched ev :
  NoDup hs ->
  (forall h, h ∈ hs -> match cached !! h with Some b => Some b | None => fetched !! h end = Some (blk h)) ->
  process_blocks hs cached fetched ev
  = MkFIEvent (foldl (fun t h => Z.max t (blk_Timestamp (blk h))) (fi_Timestamp ev) hs)
              (StartDaHeight ev) (EndDaHeight ev)
              (fi_Txs ev ++ (hs ≫= fun h => non_empty (blk_Blobs (blk h)))).
Proof.
  revert cached fetched ev. induction hs as [|h hs IH]; intros cached fetched ev Hnd Hok; simpl.
  { rewrite app_nil_r. by destruct ev. }
  apply list.NoDup_cons in Hnd as [Hnin Hnd]. rewrite (Hok h) by left. rewrite IH; [|done|]; cycle 1.
  { intros h' Hin. assert (h <> h') by (intros ->; done).
    rewrite !lookup_delete_ne by done. apply Hok. by right. }
  cbn [fi_Timestamp StartDaHeight EndDaHeight fi_Txs]. rewrite <- app_assoc. f_equal. f_equal.
  destruct (Z.ltb_spec (fi_Timestamp ev) (blk_Timestamp (blk h))); lia.
Qed.

(** Good blocks give the reference. *)
Lemma good_blocks_time w ns (blk : Z -> BlockData) hs t :
  (forall h, h ∈ hs -> block_ok w ns h (blk_Timestamp (blk h)) (blk_Blobs (blk h))) ->
  foldl (fun t h => Z.max t (blk_Timestamp (blk h))) t hs = foldl (later w) t hs.
Proof.
  revert t. induction hs as [|h hs IH]; intros t Hok; [done|]. simpl.
  rewrite IH by (intros x Hx; apply Hok; by right). f_equal.
  destruct (Hok h ltac:(left)) as (bl & _ & Ht & _). unfold later. by rewrite Ht.
Qed.

Lemma good_blocks_txs w ns (blk : Z -> BlockData) hs :
  (forall h, h ∈ hs -> block_ok w ns h (blk_Timestamp (blk h)) (blk_Blobs (blk h))) ->
  (hs ≫= fun h => non_empty (blk_Blobs (blk h))) = epoch_txs w ns hs.
Proof.
  unfold epoch_txs. induction hs as [|h hs IH]; intros Hok; [done|]. rewrite !bind_cons.
  rewrite IH by (intros x Hx; apply Hok; by right). f_equal.
  eapply block_ok_txs, (Hok h). left.
Qed.

End reference.

Lemma non_empty_idemp l : non_empty (non_empty l) = non_empty l.
Proof.
  unfold non_empty. induction l as [|x l IH]; [done|]. simpl.
  destruct (0 <? zlen x) eqn:Hx; simpl; [rewrite Hx; by f_equal|done].
Qed.

(** ** Operations of the prefetcher *)

Section facts.
Context {DB : Type} `{DatastoreLaws DB} `{MapDatastore DB} `{!MapDatastoreLaws DB}.
Context {W : Type} `{BlobRPCLaws W} `{ProtoMsg pbBlockData}.
Context `{!ProtoLaws pbBlockData id (fun m => is_u64 (bd_Height m) /\ i64 (bd_Timestamp m) = bd_Timestamp m)}.

Abbreviation A := (asyncBlockRetriever DB W).
Abbreviation R := (forcedInclusionRetriever DB W).
Abbreviation world f := (api (ar_client f)).

Section handlers.
(** The heights of the damaged events. *)
Context (bad : Z -> Prop).

Definition coherent (f : A) : Prop :=
  client_inv (ar_client f) /\ ar_namespace f = forcedNamespaceBz (ar_client f) /\
  forall h data pb, is_u64 h -> ~ bad h -> ds_view (ar_cache f) !! newBlockDataKey h = Some data ->
    proto_Unmarshal data = Ok pb -> block_ok (world f) (ar_namespace f) h (bd_Timestamp pb) (bd_Blobs pb).

Definition async_step (f f' : A) : Prop :=
  client_step (ar_client f) (ar_client f') /\ (coherent f -> coherent f') /\
  ar_namespace f' = ar_namespace f /\ ar_daStartHeight f' = ar_daStartHeight f.

#[export] Instance async_step_preorder : PreOrder async_step.
Proof.
  split.
  - intros f. split_and!; [reflexivity|tauto|done..].
  - intros f1 f2 f3 (? & ? & ? & ?) (? & ? & ? & ?). split_and!; [by etrans|tauto|congruence..].
Qed.

Lemma newBlockDataKey_inj a b : is_u64 a -> is_u64 b -> newBlockDataKey a = newBlockDataKey b -> a = b.
Proof.
  unfold is_u64, newBlockDataKey. intros Ha Hb Heq%string_app_inj_l.
  apply format_uint_inj; [lia|lia|done].
Qed.

(** A call of the DA client. *)
Lemma set_client_step c f : client_step (ar_client f) c -> async_step f (set_ar_client c f).
Proof.
  intros Hs. split_and!; [done| |done..]. intros (Hi & Hn & Hc).
  destruct Hs as (He & _ & Hinv & _ & Hns). split_and!; simpl; [by apply Hinv|congruence|].
  intros h data pb Hh Hg Hl Hu. eapply block_ok_extends; [done|]. by eapply Hc.
Qed.

(** A change of the cache after which every entry was there before or is good. *)
Lemma set_cache_step d f :
  (coherent f -> forall h data pb, is_u64 h -> ~ bad h -> ds_view d !! newBlockDataKey h = Some data ->
     proto_Unmarshal data = Ok pb ->
     ds_view (ar_cache f) !! newBlockDataKey h = Some data \/
     block_ok (world f) (ar_namespace f) h (bd_Timestamp pb) (bd_Blobs pb)) ->
  async_step f (set_ar_cache d f).
Proof.
  intros Hd. split_and!; [simpl; reflexivity| |done..]. intros Hc. pose proof (Hd Hc) as Hd'.
  destruct Hc as (Hi & Hn & Hc). split_and!; [done..|]. simpl. intros h data pb Hh Hg Hl Hu.
  destruct (Hd' h data pb Hh Hg Hl Hu); [by eapply Hc|done].
Qed.

Lemma cache_same_view_step d f : ds_view d = ds_view (ar_cache f) -> async_step f (set_ar_cache d f).
Proof. intros Hv. apply set_cache_step. rewrite Hv. auto. Qed.

(** Reading the cache. *)
Lemma on_cache_get_spec (Q : res fi_error bytes -> A -> Prop) k f :
  (forall d, ds_view d = ds_view (ar_cache f) -> async_step f (set_ar_cache d f) ->
    (forall v, ds_view (ar_cache f) !! k = Some v -> Q (Ok v) (set_ar_cache d f)) /\
    (forall e, Q (Err (FCache e)) (set_ar_cache d f))) ->
  wp (on_cache (ds_get k)) Q f.
Proof.
  intros HQ. apply wp_zoom, wp_wrap. eapply wp_mono; [apply get_law|].
  intros [v|e] d (Hv & _ & Hr); destruct (HQ d Hv (cache_same_view_step d f Hv)) as [Hok Herr]; simpl; auto.
Qed.

Lemma cacheBlock_spec h t blobs f :
  is_u64 h -> (coherent f -> ~ bad h -> block_ok (world f) (ar_namespace f) h t blobs) ->
  wp (cacheBlock h t blobs) (fun r f' => r = Ok tt /\ async_step f f' /\ ar_client f' = ar_client f) f.
Proof.
  intros Hh Hok. unfold cacheBlock.
  destruct (proto_Marshal _) as [data|e] eqn:Hm; [|split_and!; [done|reflexivity|done]].
  apply wp_bind, wp_attempt, wp_zoom, wp_wrap. eapply wp_mono; [apply put_law|].
  intros [[]|e] d (_ & Hv); simpl; apply wp_ret; (split_and!; [done| |done]); apply set_cache_step.
  - intros Hc h' data' pb Hh' Hg Hl Hu. rewrite Hv in Hl.
    apply lookup_insert_Some in Hl as [[Heq <-]|[Hne Hl]]; [right|by left].
    apply newBlockDataKey_inj in Heq as <-; [|done..]. specialize (Hok Hc Hg).
    assert (Ht : i64 t = t) by (destruct Hok as (? & ? & ? & ? & ? & ?); done).
    rewrite Ht in Hm. eapply unmarshal_marshal in Hm; [|split; [done|by simpl]].
    rewrite Hm in Hu. by injection Hu as <-.
  - destruct Hv as [-> _]. auto.
Qed.

Lemma check_ctx_spec ctx (Q : res fi_error unit -> A -> Prop) f :
  Q (Ok tt) f -> Q (Err FContext) f -> wp (check_ctx ctx) Q f.
Proof. intros Hok Herr. apply wp_bind, wp_gets. by destruct (ctx _). Qed.

Lemma on_client_retrieve_spec {h ns} (Q : res fi_error ResultRetrieve -> A -> Prop) f :
  is_u64 h -> coherent f ->
  (forall r c, client_step (ar_client f) c -> async_step f (set_ar_client c f) ->
     result_sound true ns h (world f) (api c) r -> Q (Ok r) (set_ar_client c f)) ->
  wp (on_client (Retrieve h ns)) Q f.
Proof.
  intros Hh Hc HQ. apply wp_zoom. unfold Retrieve. eapply wp_mono; [apply retrieve_spec; [done|apply Hc]|].
  intros [r|e] c (Hs & Hr); [|done]. apply HQ; [done|by apply set_client_step|tauto].
Qed.

(** The namespace is read off the client. *)
Lemma wp_client_ns h (Q : res fi_error ResultRetrieve -> A -> Prop) f :
  wp (on_client (Retrieve h (forcedNamespaceBz (ar_client f)))) Q f ->
  wp (on_client (c ← gets id; Retrieve h (forcedNamespaceBz c))) Q f.
Proof. done. Qed.

(** A sound result with blobs is a good block. *)
Lemma result_block_ok ns h w w' r :
  result_sound true ns h w w' r -> Code r = StatusSuccess \/ Code r = StatusNotFound ->
  block_ok w' ns h (res_Timestamp r) (res_Data r).
Proof.
  unfold result_sound. intros Hr Hcode.
  assert (exists b, da_block w' ns h = Some (res_Data r) /\ b = tt /\
    (da_time w' h = Some (res_Timestamp r) /\ zero_time < res_Timestamp r /\ i64 (res_Timestamp r) = res_Timestamp r))
    as (_ & Hb & _ & Ht & Hz & Hi).
  { exists tt. destruct Hcode as [Hc|Hc]; rewrite Hc in Hr; destruct Hr as (? & _ & [[? Hs]|[? ?]]); try done;
      destruct (Hs eq_refl); done. }
  exists (res_Data r). done.
Qed.

Lemma fetchAndCacheBlock_spec ctx h f :
  is_u64 h -> coherent f ->
  wp (fetchAndCacheBlock ctx h) (fun r f' =>
    async_step f f' /\
    (r = Err ErrHeightFromFuture -> da_block (world f) (ar_namespace f) h = None)) f.
Proof.
  intros Hh Hc. unfold fetchAndCacheBlock. apply wp_bind, check_ctx_spec; [|by split].
  apply wp_bind, wp_gets, wp_bind, on_client_retrieve_spec; [done..|].
  intros r c Hcs Hs Hr. pose proof Hr as Hr'. unfold result_sound in Hr'.
  destruct (Code r) eqn:Hcode; try (split; [done|]); try done; try (by intros).
  - eapply wp_mono; [apply cacheBlock_spec; [done|]|].
    + intros Hc' _. destruct (result_block_ok _ _ _ _ _ Hr ltac:(auto)) as (bl & ? & ? & ? & ? & Hn).
      exists bl. rewrite non_empty_idemp. done.
    + intros x f' (-> & Hs' & _). split; [by etrans|done].
  - eapply wp_mono; [apply cacheBlock_spec; [done|]|].
    + intros Hc' _. destruct (result_block_ok _ _ _ _ _ Hr ltac:(auto)) as (bl & ? & ? & ? & ? & Hn).
      exists bl. destruct Hr' as (_ & Hnil & _). rewrite (proj1 Hnil eq_refl) in Hn. done.
    + intros x f' (-> & Hs' & _). split; [by etrans|done].
Qed.

Lemma cleanup_entry_spec n e f :
  wp (cleanup_entry n e) (fun r f' => r = Ok tt /\ async_step f f' /\ ar_client f' = ar_client f) f.
Proof.
  unfold cleanup_entry. destruct e as [[key v]|e]; [|split_and!; [done|reflexivity|done]].
  destruct (scan_block_key key) as [h|]; [|split_and!; [done|reflexivity|done]].
  destruct (h <? n); [|split_and!; [done|reflexivity|done]].
  apply wp_bind, wp_attempt, wp_zoom, wp_wrap. eapply wp_mono; [apply delete_law|].
  intros r d (_ & Hv). apply wp_ret. split_and!; [done| |done]. apply set_cache_step.
  intros _ h' data pb Hh _ Hl Hu. left. destruct r as [[]|e]; [|by destruct Hv as [<- _]].
  rewrite Hv in Hl. by apply lookup_delete_Some in Hl as [_ Hl].
Qed.

Lemma cleanup_loop_spec n es f :
  wp (for_each es (cleanup_entry n))
     (fun r f' => r = Ok tt /\ async_step f f' /\ ar_client f' = ar_client f) f.
Proof.
  revert f. induction es as [|e es IH]; intros f; simpl; [split_and!; [done|reflexivity|done]|].
  apply wp_bind. eapply wp_mono; [apply cleanup_entry_spec|]. intros r f1 (-> & Hs1 & Hc1).
  eapply wp_mono; [apply IH|]. intros r f2 (-> & Hs2 & Hc2). split_and!; [done|by etrans|congruence].
Qed.

Lemma UpdateCurrentHeight_spec h f :
  wp (UpdateCurrentHeight h) (fun r f' => r = Ok tt /\ async_step f f' /\ ar_client f' = ar_client f) f.
Proof.
  unfold UpdateCurrentHeight. apply wp_bind, wp_gets.
  destruct (h <=? consumedHeight f); [split_and!; [done|reflexivity|done]|].
  apply wp_bind, wp_modify. unfold cleanupOldBlocks. apply wp_bind, wp_gets.
  set (f1 := set_consumedHeight h f).
  assert (Hs1 : async_step f f1 /\ ar_client f1 = ar_client f) by (split; [split_and!; [simpl; reflexivity|done..]|done]).
  destruct Hs1 as [Hs1 Hc1].
  destruct (h <? prefetchWindow (id f1)); [by split_and!|].
  apply wp_bind, wp_attempt, wp_zoom, wp_wrap. eapply wp_mono; [apply query_law|].
  intros r d (Hv & _). destruct r as [es|e]; simpl.
  - eapply wp_mono; [apply cleanup_loop_spec|]. intros r f2 (-> & Hs2 & Hc2).
    split_and!; [done|etrans; [exact Hs1|]; etrans; [by apply (cache_same_view_step d)|done]|done].
  - split_and!; [done|etrans; [exact Hs1|]; by apply (cache_same_view_step d)|done].
Qed.

Lemma HandleEvent_spec ctx ev b f :
  is_u64 (ev_Height ev) ->
  (coherent f -> ~ bad (ev_Height ev) ->
   block_ok (world f) (ar_namespace f) (ev_Height ev) (ev_Timestamp ev) (ev_Blobs ev)) ->
  wp (HandleEvent ctx ev b) (fun r f' => async_step f f') f.
Proof.
  intros Hh Hok. apply wp_bind, check_ctx_spec; [|reflexivity].
  apply wp_bind. eapply wp_mono; [by apply cacheBlock_spec|]. intros r f' (-> & Hs & _). by destruct b.
Qed.

Lemma fetch_missing_spec ctx h f :
  is_u64 h -> coherent f -> wp (fetch_missing ctx h) (fun r f' => async_step f f') f.
Proof.
  intros Hh Hc. apply wp_bind, wp_attempt, on_cache_get_spec. intros d Hv Hs. split; [done|].
  intros e. eapply wp_mono; [apply fetchAndCacheBlock_spec; [done|by apply Hs]|].
  intros r f' [Hs' _]. by etrans.
Qed.

Lemma HandleCatchup_spec ctx h f :
  is_u64 h -> coherent f -> wp (HandleCatchup ctx h) (fun r f' => async_step f f') f.
Proof.
  intros Hh Hc. apply wp_bind, check_ctx_spec; [|reflexivity].
  apply wp_bind. eapply wp_mono; [by apply fetch_missing_spec|].
  intros [[]|e] f1 Hs1; [|done]. apply wp_bind, wp_gets. cbv zeta.
  pose proof (add64_u64 h 1) as Hlo. pose proof (add64_u64 h (prefetchWindow (id f1))) as Hhi.
  assert (Hin : forall x, x ∈ z_range (add64 h 1) (add64 h (prefetchWindow (id f1))) -> is_u64 x).
  { unfold is_u64 in *. intros x Hx%elem_of_z_range. lia. }
  apply (wp_for_each (fun f' => async_step f f')); [|done].
  intros x s Hx Hs. apply wp_bind, check_ctx_spec; [|done].
  eapply wp_mono; [apply fetch_missing_spec; [by apply Hin|by apply Hs]|].
  intros r f' Hs'. by etrans.
Qed.

(** ** The retrieval *)

Lemma GetCachedBlock_spec h f :
  is_u64 h -> coherent f ->
  wp (GetCachedBlock h) (fun r f' =>
    async_step f f' /\ ar_client f' = ar_client f /\
    forall b, r = Ok (Some b) -> ~ bad h -> block_ok (world f) (ar_namespace f) h (blk_Timestamp b) (blk_Blobs b)) f.
Proof.
  intros Hh Hc. unfold GetCachedBlock. apply wp_bind, wp_gets.
  destruct (zlen (ar_namespace (id f)) =? 0); [split_and!; [reflexivity|done..]|].
  destruct (h <? ar_daStartHeight (id f)); [split_and!; [reflexivity|done..]|].
  apply wp_bind, wp_attempt, on_cache_get_spec. intros d Hv Hs. split.
  - intros v Hl. destruct (proto_Unmarshal v) as [pb|e] eqn:Hu; [|apply wp_throw; by split_and!].
    apply wp_ret. split_and!; [done..|]. intros b [= <-] Hg. by eapply Hc.
  - intros [|]; [apply wp_ret|apply wp_throw]; by split_and!.
Qed.

Definition blocks_ok (w : W) (ns : bytes) (m : gmap Z BlockData) : Prop :=
  forall h b, m !! h = Some b -> ~ bad h -> block_ok w ns h (blk_Timestamp b) (blk_Blobs b).

Lemma blocks_ok_extends w w' ns m : da_extends w w' -> blocks_ok w ns m -> blocks_ok w' ns m.
Proof. intros He Hm h b Hl Hg. eapply block_ok_extends; [done|]. by apply Hm. Qed.

Lemma blocks_ok_insert w ns m h b :
  (~ bad h -> block_ok w ns h (blk_Timestamp b) (blk_Blobs b)) -> blocks_ok w ns m -> blocks_ok w ns (<[h := b]> m).
Proof. intros Hb Hm h' b' [[<- <-]|[_ Hl]]%lookup_insert_Some Hg; [by apply Hb|by apply Hm]. Qed.

(** Lookups keep what was found and leave no height out. *)
Lemma lookup_cached_spec hs cached missing f :
  (forall h, h ∈ hs -> is_u64 h) -> coherent f -> blocks_ok (world f) (ar_namespace f) cached ->
  wp (lookup_cached hs cached missing) (fun r f' =>
    async_step f f' /\ ar_client f' = ar_client f /\
    exists cached' missing', r = Ok (cached', missing ++ missing') /\
      blocks_ok (world f) (ar_namespace f) cached' /\
      (forall h, is_Some (cached !! h) -> is_Some (cached' !! h)) /\
      (forall h, h ∈ hs -> is_Some (cached' !! h) \/ h ∈ missing') /\
      (forall h, h ∈ missing' -> h ∈ hs)) f.
Proof.
  revert cached missing f. induction hs as [|h hs IH]; intros cached missing f Hu Hc Hok; simpl.
  { split_and!; [reflexivity|done|]. exists cached, []. rewrite app_nil_r.
    split_and!; try done; intros h Hin; by apply elem_of_nil in Hin. }
  apply wp_bind, wp_attempt. eapply wp_mono; [apply GetCachedBlock_spec; [apply Hu; left|done]|].
  intros r f1 (Hs & Hcl & Hb).
  assert (Hu' : forall x, x ∈ hs -> is_u64 x) by (intros x Hx; apply Hu; by right).
  assert (Hc1 : coherent f1) by (by apply Hs). assert (Hns : ar_namespace f1 = ar_namespace f) by apply Hs.
  assert (Hmiss : wp (lookup_cached hs cached (missing ++ [h])) (fun r f' =>
    async_step f f' /\ ar_client f' = ar_client f /\
    exists cached' missing', r = Ok (cached', missing ++ missing') /\
      blocks_ok (world f) (ar_namespace f) cached' /\
      (forall h, is_Some (cached !! h) -> is_Some (cached' !! h)) /\
      (forall h', h' ∈ h :: hs -> is_Some (cached' !! h') \/ h' ∈ missing') /\
      (forall h', h' ∈ missing' -> h' ∈ h :: hs)) f1).
  { eapply wp_mono; [apply IH; [done|done|rewrite Hcl, Hns; done]|].
    intros r' f2 (Hs2 & Hcl2 & c' & m' & -> & Hok' & Hkeep & Hall & Hsub). rewrite Hcl, Hns in Hok'.
    split_and!; [by etrans|congruence|]. exists c', (h :: m'). rewrite <- app_assoc.
    split_and!; try done.
    - intros h' [-> |Hin]%elem_of_cons; [right; left|]. destruct (Hall h' Hin); [by left|right; by right].
    - intros h' [-> |Hin]%elem_of_cons; [left|right; by apply Hsub]. }
  destruct r as [[b|]|e]; [|exact Hmiss..].
  eapply wp_mono; [apply (IH (<[h := b]> cached)); [done|done|]|].
  { rewrite Hcl, Hns. apply blocks_ok_insert; [by apply Hb|done]. }
  intros r' f2 (Hs2 & Hcl2 & c' & m' & -> & Hok' & Hkeep & Hall & Hsub). rewrite Hcl, Hns in Hok'.
  split_and!; [by etrans|congruence|]. exists c', m'. split_and!; try done.
  - intros h' Hh'. apply Hkeep. destruct (decide (h = h')) as [-> |Hne]; [by rewrite lookup_insert_eq|by rewrite lookup_insert_ne].
  - intros h' [-> |Hin]%elem_of_cons; [left; apply Hkeep; by rewrite lookup_insert_eq|by apply Hall].
  - intros h' Hin. right. by apply Hsub.
Qed.

Definition retriever_step (r r' : R) : Prop :=
  async_step (asyncFetcher r) (asyncFetcher r') /\
  daEpochSize r' = daEpochSize r /\ fr_daStartHeight r' = fr_daStartHeight r.

#[export] Instance retriever_step_preorder : PreOrder retriever_step.
Proof.
  split; [intros r; split_and!; [reflexivity|done..]|].
  intros r1 r2 r3 (? & ? & ?) (? & ? & ?). split_and!; [by etrans|congruence..].
Qed.

Lemma set_async_step f r : async_step (asyncFetcher r) f -> retriever_step r (set_asyncFetcher f r).
Proof. intros Hs. by split_and!. Qed.

Abbreviation rworld r := (api (ar_client (asyncFetcher r))).
Abbreviation rns r := (forcedNamespaceBz (ar_client (asyncFetcher r))).

Lemma retriever_step_extends r r' : retriever_step r r' -> da_extends (rworld r) (rworld r').
Proof. intros ((Hc & _) & _). apply Hc. Qed.

Lemma retriever_step_ns r r' : retriever_step r r' -> rns r' = rns r.
Proof. intros ((Hc & _) & _). apply Hc. Qed.

Lemma retriever_step_healthy r r' : retriever_step r r' -> rpc_healthy (rworld r) -> rpc_healthy (rworld r').
Proof. intros ((Hc & _) & _). apply Hc. Qed.

Lemma retriever_step_coherent r r' :
  retriever_step r r' -> coherent (asyncFetcher r) -> coherent (asyncFetcher r').
Proof. intros ((_ & Hc & _) & _). exact Hc. Qed.

Lemma da_extends_None (w w' : W) ns h : da_extends w w' -> da_block w' ns h = None -> da_block w ns h = None.
Proof.
  intros [Hb _] Hn. destruct (da_block w ns h) as [b|] eqn:Hl; [|done].
  apply Hb in Hl. congruence.
Qed.

(** What fetching [hs] one by one leads to. *)
Definition fetched_post (r : R) (hs : list Z) (fetched : gmap Z BlockData) (errs : list string)
  (res : res fi_error (gmap Z BlockData * list string)) (r' : R) : Prop :=
  retriever_step r r' /\
  match res with
  | Ok (fetched', errs') =>
      blocks_ok (rworld r') (rns r) fetched' /\
      (forall h, is_Some (fetched !! h) -> is_Some (fetched' !! h)) /\
      exists more, errs' = errs ++ more /\
        (more = [] -> forall h, h ∈ hs -> is_Some (fetched' !! h)) /\
        (rpc_healthy (rworld r) -> namespace_valid (rns r) = true -> more = [])
  | Err e => e = ErrHeightFromFuture /\ exists h, h ∈ hs /\ da_block (rworld r) (rns r) h = None
  end.

(** One more height in front, whose block was fetched or whose retrieval failed. *)
Lemma fetched_post_cons r r1 h hs fetched fetched1 errs errs1 res r' :
  retriever_step r r1 ->
  (forall x, is_Some (fetched !! x) -> is_Some (fetched1 !! x)) ->
  (errs1 = errs /\ is_Some (fetched1 !! h) \/
   (exists msg, errs1 = errs ++ [msg]) /\ ~ (rpc_healthy (rworld r) /\ namespace_valid (rns r) = true)) ->
  fetched_post r1 hs fetched1 errs1 res r' -> fetched_post r (h :: hs) fetched errs res r'.
Proof.
  intros Hs Hsub Hcase (Hs' & Hres). split; [by etrans|].
  rewrite (retriever_step_ns r r1 Hs) in Hres. destruct res as [[fetched' errs']|e].
  - destruct Hres as (Hok & Hkeep & more & -> & Hall & Hhealthy). split_and!; [done|auto|].
    destruct Hcase as [[-> Hh]|[[msg ->] Hn]].
    + exists more. split_and!; [done| |].
      * intros Hm h' [-> |Hin]%elem_of_cons; auto.
      * intros Hhe Hv. apply Hhealthy; [by eapply retriever_step_healthy|done].
    + exists (msg :: more). rewrite <- app_assoc. split_and!; [done..|]. tauto.
  - destruct Hres as (-> & h' & Hin & Hnone). split; [done|]. exists h'.
    split; [by right|]. eapply da_extends_None; [by apply retriever_step_extends|done].
Qed.

Lemma fetch_heights_spec hs fetched errs r :
  (forall h, h ∈ hs -> is_u64 h) -> coherent (asyncFetcher r) ->
  blocks_ok (rworld r) (rns r) fetched ->
  wp (fetch_heights hs fetched errs) (fetched_post r hs fetched errs) r.
Proof.
  revert fetched errs r. induction hs as [|h hs IH]; intros fetched errs r Hu Hc Hok; simpl.
  { split; [reflexivity|]. split_and!; [done..|]. exists []. rewrite app_nil_r.
    split_and!; [done| |done]. intros _ h Hin. by apply elem_of_nil in Hin. }
  apply wp_bind, wp_zoom.
  eapply wp_client_ns, on_client_retrieve_spec; [apply Hu; left|done|].
  intros x c Hcs Hs Hr. pose proof Hr as Hr'. unfold result_sound in Hr'.
  pose proof (set_async_step _ r Hs) as Hrs. set (r1 := set_asyncFetcher _ _) in *.
  assert (Hu' : forall y, y ∈ hs -> is_u64 y) by (intros y Hy; apply Hu; by right).
  assert (Hns : rns r1 = rns r) by (by apply retriever_step_ns).
  assert (Hok1 : blocks_ok (rworld r1) (rns r1) fetched).
  { rewrite Hns. eapply blocks_ok_extends; [by apply retriever_step_extends|done]. }
  assert (Hc1 : coherent (asyncFetcher r1)) by (by eapply retriever_step_coherent).
  assert (Hgood : forall blobs, blobs = res_Data x -> block_ok (rworld r1) (rns r1) h (res_Timestamp x) blobs ->
    wp (fetch_heights hs (<[h := MkBlockData 0 (res_Timestamp x) blobs]> fetched) errs)
       (fetched_post r (h :: hs) fetched errs) r1).
  { intros blobs Heq Hb. eapply wp_mono; [apply IH; [done|done|by apply blocks_ok_insert]|].
    intros res r' Hp. eapply fetched_post_cons; [exact Hrs| | |exact Hp].
    - intros y Hy. destruct (decide (h = y)) as [-> |]; [by rewrite lookup_insert_eq|by rewrite lookup_insert_ne].
    - left. split; [done|]. by rewrite lookup_insert_eq. }
  destruct (Code x) eqn:Hcode; try done.
  - apply Hgood; [done|]. rewrite Hns. eapply result_block_ok; [exact Hr|auto].
  - destruct Hr' as (_ & Hnil & _). pose proof (proj1 Hnil eq_refl) as Hd.
    apply Hgood; [done|]. rewrite <- Hd, Hns. eapply result_block_ok; [exact Hr|auto].
  - eapply wp_mono; [by apply IH|]. intros res r' Hp.
    eapply fetched_post_cons; [exact Hrs|done| |exact Hp]. right. split; [by eexists|].
    intros [Hhe Hv]. rewrite (Hr' Hhe) in Hv. done.
  - split; [exact Hrs|]. split; [done|]. exists h. split; [left|done].
Qed.

Lemma boundaries_u64 h s e es ee n :
  is_u64 s -> Epoch.CalculateEpochBoundaries h s e = (es, ee, n) -> is_u64 es /\ is_u64 ee.
Proof.
  unfold Epoch.CalculateEpochBoundaries. intros Hs.
  destruct (e =? 0); [intros [= <- <- _]; done|].
  destruct (h <? s); intros [= <- <- _]; auto with machine.
Qed.

(** A height found in the cache or fetched has a good block. *)
Lemma available_block (w w' : W) ns cached fetched y :
  da_extends w w' -> blocks_ok w ns cached -> blocks_ok w' ns fetched ->
  is_Some (cached !! y) \/ is_Some (fetched !! y) ->
  exists b, match cached !! y with Some b => Some b | None => fetched !! y end = Some b /\
    (~ bad y -> block_ok w' ns y (blk_Timestamp b) (blk_Blobs b)).
Proof.
  intros He Hc Hf Hy. destruct (cached !! y) as [b|] eqn:Hb.
  - exists b. split; [done|]. intros Hg. eapply block_ok_extends; [done|]. by apply Hc.
  - destruct Hy as [[? [=]]|[b Hb']]. exists b. split; [done|by apply Hf].
Qed.

(** The outcomes of a retrieval at [h], against the DA chain: nothing before the
    end of the epoch; at its end the transactions of the whole epoch, in which
    those of the heights of damaged events may be wrong, or an empty event if the
    DA node failed. *)
Definition retrieval_post (r : R) (h : Z) (res : res fi_error ForcedInclusionEvent) (r' : R) : Prop :=
  let '(epochStart, epochEnd, _) := Epoch.CalculateEpochBoundaries h (fr_daStartHeight r) (daEpochSize r) in
  let hs := z_range epochStart h in
  match res with
  | Ok ev =>
      hasForcedNamespace (ar_client (asyncFetcher r)) = true /\ fr_daStartHeight r <= h /\ EndDaHeight ev = h /\
      (h <> epochEnd /\ ev = MkFIEvent zero_time h h [] \/
       h = epochEnd /\ StartDaHeight ev = epochStart /\
         (exists part, fi_Txs ev = hs ≫= part /\
            forall x, x ∈ hs -> ~ bad x ->
              is_Some (da_block (rworld r') (rns r) x) /\ part x = block_txs (rworld r') (rns r) x) /\
         ((forall x, x ∈ hs -> ~ bad x) ->
          ev = MkFIEvent (epoch_time (rworld r') hs) epochStart h (epoch_txs (rworld r') (rns r) hs)) \/
       h = epochEnd /\ StartDaHeight ev = h /\ fi_Txs ev = [] /\
         ~ (rpc_healthy (rworld r) /\ namespace_valid (rns r) = true))
  | Err e =>
      hasForcedNamespace (ar_client (asyncFetcher r)) = false /\ e = ErrForceInclusionNotConfigured \/
      h < fr_daStartHeight r /\ e = FBeforeStart \/
      h = epochEnd /\ e = ErrHeightFromFuture /\ exists x, x ∈ hs /\ da_block (rworld r) (rns r) x = None
  end.

Lemma retrieve_forced_spec h r :
  is_u64 (fr_daStartHeight r) -> is_u64 h -> coherent (asyncFetcher r) ->
  wp (RetrieveForcedIncludedTxs h) (fun res r' => retriever_step r r' /\ retrieval_post r h res r') r.
Proof.
  intros Hst Hh Hc. unfold RetrieveForcedIncludedTxs, retrieval_post. apply wp_bind, wp_gets. simpl.
  destruct (Epoch.CalculateEpochBoundaries h (fr_daStartHeight r) (daEpochSize r)) as [[es ee] n] eqn:Hb.
  apply boundaries_u64 in Hb as [Hes Hee]; [|done].
  destruct (hasForcedNamespace (ar_client (asyncFetcher r))) eqn:Hf; simpl;
    [|apply wp_throw; split; [reflexivity|tauto]].
  destruct (Z.ltb_spec h (fr_daStartHeight r)) as [Hlt|Hge]; [apply wp_throw; split; [reflexivity|tauto]|].
  apply wp_bind, wp_zoom. eapply wp_mono; [apply UpdateCurrentHeight_spec|].
  intros x f1 (-> & Hs1 & Hcl1). pose proof (set_async_step f1 r Hs1) as Hr1. set (r1 := set_asyncFetcher f1 r) in *.
  destruct (Z.eqb_spec h ee) as [<- |Hne]; simpl; cycle 1.
  { apply wp_ret. split; [done|]. split_and!; [done..|by left]. }
  assert (Hns1 : ar_namespace f1 = rns r).
  { rewrite <- (retriever_step_ns _ _ Hr1). apply Hs1, Hc. }
  assert (Hu : forall y, y ∈ z_range es h -> is_u64 y).
  { unfold is_u64 in *. intros y Hy%elem_of_z_range. lia. }
  apply wp_bind, wp_zoom. eapply wp_mono; [apply lookup_cached_spec; [exact Hu|by apply Hs1|]|].
  { intros y b Hy. by rewrite lookup_empty in Hy. }
  intros x f2 (Hs2 & Hcl2 & cached & missing & -> & Hcok & _ & Hcall & Hcsub). simpl in Hcl2.
  assert (Hr2 : retriever_step r (set_asyncFetcher f2 r1)).
  { etrans; [exact Hr1|]. by apply set_async_step. }
  set (r2 := set_asyncFetcher f2 r1) in *. simpl in Hcok. rewrite Hns1, Hcl1 in Hcok.
  assert (Hw2 : rworld r2 = rworld r) by (simpl; congruence).
  assert (Hn2 : rns r2 = rns r) by (simpl; congruence).
  apply wp_bind. eapply wp_mono; [apply fetch_heights_spec|].
  { intros y Hy. by apply Hu, Hcsub. }
  { by eapply retriever_step_coherent. }
  { intros y b Hy. by rewrite lookup_empty in Hy. }
  intros x r3 (Hr3 & Hx). assert (Hr03 : retriever_step r r3) by (by etrans).
  rewrite Hw2, Hn2 in Hx. destruct x as [[fetched errs]|e]; cycle 1.
  { split; [done|]. destruct Hx as (-> & y & Hy & Hnone). right. right. split_and!; [done..|].
    exists y. split; [by apply Hcsub|done]. }
  destruct Hx as (Hfok & _ & more & -> & Hfall & Hhealthy). simpl in Hfall, Hhealthy |- *.
  destruct more as [|msg more]; simpl.
  - pose (blk y := default (MkBlockData 0 0 []) (match cached !! y with Some b => Some b | None => fetched !! y end)).
    assert (Hav : forall y, y ∈ z_range es h ->
      match cached !! y with Some b => Some b | None => fetched !! y end = Some (blk y) /\
      (~ bad y -> block_ok (rworld r3) (rns r) y (blk_Timestamp (blk y)) (blk_Blobs (blk y)))).
    { intros y Hy. destruct (available_block (rworld r) (rworld r3) (rns r) cached fetched y) as (b & Hb & Hbok);
        [by apply retriever_step_extends|done|done|destruct (Hcall y Hy); auto|].
      unfold blk. rewrite Hb. done. }
    apply wp_ret. split; [done|].
    rewrite (process_blocks_all blk) by (apply NoDup_z_range || (intros y Hy; by apply Hav)).
    cbn [fi_Timestamp fi_Txs StartDaHeight EndDaHeight app]. split_and!; [done|lia|done|]. right. left. split_and!; try done.
    + eexists. split; [done|]. intros y Hy Hg. destruct (Hav y Hy) as [_ Hb]. specialize (Hb Hg). split.
      * destruct Hb as (bl & Hbl & _). by exists bl.
      * by eapply block_ok_txs.
    + intros Hall. assert (Hok : forall y, y ∈ z_range es h ->
        block_ok (rworld r3) (rns r) y (blk_Timestamp (blk y)) (blk_Blobs (blk y))) by (intros y Hy; by apply Hav; [|apply Hall]).
      by rewrite (good_blocks_time _ _ blk _ _ Hok), (good_blocks_txs _ _ blk _ Hok).
  - apply wp_ret. split; [done|]. split_and!; [done|lia|done|]. right. right. split_and!; try done.
    intros [Hhe Hv]. by specialize (Hhealthy Hhe Hv).
Qed.

End handlers.

Abbreviation rworld r := (api (ar_client (asyncFetcher r))).
Abbreviation rns r := (forcedNamespaceBz (ar_client (asyncFetcher r))).

Lemma coherent_more (bad bad' : Z -> Prop) f : (forall h, bad h -> bad' h) -> coherent bad f -> coherent bad' f.
Proof. intros Hsub (Hi & Hn & Hc). split_and!; [done..|]. intros h data pb Hh Hg. apply Hc; [done|]. auto. Qed.

(** An event that the client of the DA node emitted for a true response, when the
    DA chain was [w] or a part of it. *)
Definition emitted (ns : bytes) (w : W) (resp : SubscriptionResponse) (ev : SubscriptionEvent) : Prop :=
  exists (c c' : client W), response_true ns resp (api c) /\
    subscription_event (E := fi_error) true resp c = (Ok ev, c') /\ da_extends (api c') w.

Lemma filter_extracted resp :
  forallb (fun data => zlen data <=? DefaultMaxBlobSize) (response_data resp) = true ->
  non_empty (extractBlobData resp) = non_empty (response_data resp).
Proof.
  unfold extractBlobData, non_empty. induction (response_data resp) as [|x l IH]; [done|]. cbn [forallb List.filter].
  intros [Hx Hl]%andb_prop. specialize (IH Hl). pose proof (zlen_nonneg x).
  assert (Hx' : (DefaultMaxBlobSize <? zlen x) = false) by lia. rewrite Hx', orb_false_r.
  destruct (Z.eqb_spec (zlen x) 0) as [Hz|Hz]; cbn [negb List.filter].
  - rewrite Hz. exact IH.
  - destruct (0 <? zlen x); [by f_equal|exact IH].
Qed.

(** An intact event is the block. *)
Lemma emitted_block ns w resp ev :
  emitted ns w resp ev ->
  is_u64 (ev_Height ev) /\
  (intact resp ev = true -> block_ok w ns (ev_Height ev) (ev_Timestamp ev) (ev_Blobs ev)).
Proof.
  intros (c & c' & Htrue & Hrun & Hext).
  destruct (wp_run _ _ _ _ _ (subscription_event_spec true ns resp c Htrue) Hrun) as (Hs & t & [= ->] & Ht).
  cbn [ev_Height ev_Timestamp ev_Blobs]. destruct Htrue as (Hh & Hb & _). split; [done|].
  unfold intact. cbn [ev_Timestamp]. intros [Hz Hall]%andb_prop. destruct (Z.eqb_spec t zero_time); [done|].
  destruct (Ht ltac:(done)) as (Ht1 & Ht2 & Ht3). exists (response_data resp).
  assert (Hex : da_extends (api c) w) by (etrans; [apply Hs|done]).
  split_and!; [by apply Hex|by apply Hext|done|done|by apply filter_extracted].
Qed.

(** ** Reachable retrievers *)

(** A new retriever, and what happens to it: the subscription's handlers run
    between retrievals, fed with events of the DA client's subscription, and the
    client is used elsewhere while the DA chain grows. The list is that of the
    heights of damaged events. *)
Inductive retriever_reach : list Z -> R -> Prop :=
| reach_new c start size :
    client_inv c -> is_u64 start -> retriever_reach [] (NewForcedInclusionRetriever c start size)
| reach_event bad ctx resp ev b r x f :
    retriever_reach bad r -> emitted (rns r) (rworld r) resp ev ->
    HandleEvent ctx ev b (asyncFetcher r) = (x, f) ->
    retriever_reach (if intact resp ev then bad else ev_Height ev :: bad) (set_asyncFetcher f r)
| reach_catchup bad ctx h r x f :
    retriever_reach bad r -> is_u64 h ->
    HandleCatchup ctx h (asyncFetcher r) = (x, f) -> retriever_reach bad (set_asyncFetcher f r)
| reach_retrieve bad h r x r' :
    retriever_reach bad r -> is_u64 h ->
    RetrieveForcedIncludedTxs h r = (x, r') -> retriever_reach bad r'
| reach_client bad c r :
    retriever_reach bad r -> client_step (ar_client (asyncFetcher r)) c ->
    retriever_reach bad (set_asyncFetcher (set_ar_client c (asyncFetcher r)) r).

Abbreviation among bad := (fun h : Z => h ∈ bad).

Lemma reach_inv bad r : retriever_reach bad r -> coherent (among bad) (asyncFetcher r) /\ is_u64 (fr_daStartHeight r).
Proof.
  induction 1 as [c start size Hc Hs|bad ctx resp ev b r x f _ [Hc Hs] Hem Hrun|bad ctx h r x f _ [Hc Hs] Hh Hrun
                 |bad h r x r' _ [Hc Hs] Hh Hrun|bad c r _ [Hc Hs] Hcs].
  - split; [|done]. split_and!; [done..|]. simpl. intros h data pb _ _ Hl.
    rewrite new_map_empty in Hl. by rewrite lookup_empty in Hl.
  - split; [|done]. simpl. assert (Hns : ar_namespace (asyncFetcher r) = rns r) by apply Hc.
    destruct (emitted_block _ _ _ _ Hem) as [Hh Hok]. rewrite <- Hns in Hok. destruct (intact resp ev) eqn:Hi.
    + eapply (wp_run _ _ _ _ _ (HandleEvent_spec (among bad) ctx ev b _ Hh ltac:(by auto)) Hrun). done.
    + eapply (wp_run _ _ _ _ _ (HandleEvent_spec (among (ev_Height ev :: bad)) ctx ev b _ Hh ltac:(intros _ Hn; destruct Hn; left)) Hrun).
      eapply coherent_more, Hc. intros h Hin. by right.
  - split; [|done]. eapply (wp_run _ _ _ _ _ (HandleCatchup_spec _ ctx h _ Hh Hc) Hrun). done.
  - destruct (wp_run _ _ _ _ _ (retrieve_forced_spec _ h r Hs Hh Hc) Hrun) as [Hr _].
    split; [by eapply retriever_step_coherent|]. destruct Hr as (_ & _ & ->). done.
  - split; [|done]. destruct (set_client_step (among bad) c _ Hcs) as (_ & Hk & _). by apply Hk.
Qed.


End facts.

(** ** A retriever over a DA chain in memory *)

Module ForcedInclusionWitness.
Import ProtoInst MemDS MemDA.

#[export] Instance pbBlockData_eq_dec : EqDecision pbBlockData.
Proof. solve_decision. Defined.
#[export] Instance pbBlockData_countable : Countable pbBlockData :=
  inj_countable' (fun m => (bd_Height m, bd_Timestamp m, bd_Blobs m))
                 (fun '(h, t, b) => MkPbBlockData h t b) ltac:(by intros []).
#[export] Instance pbBlockData_msg : ProtoMsg pbBlockData := countable_msg id.
#[export] Instance pbBlockData_laws :
  ProtoLaws pbBlockData id (fun m => is_u64 (bd_Height m) /\ i64 (bd_Timestamp m) = bd_Timestamp m).
Proof. by apply countable_msg_laws. Qed.

#[export] Instance memds_map : MapDatastore memds := { NewMapDatastore := MemDS.MemDS ∅ [] }.
#[export] Instance memds_map_laws : MapDatastoreLaws memds.
Proof. by split. Qed.

Definition ns : bytes := [Init.Byte.x0f].
Definition tx (n : Z) : bytes := [byte_of_Z n; byte_of_Z 1].

(** Two DA blocks with forced inclusion blobs, one of them empty. *)
Definition w0 : memda :=
  MkMemDA (list_to_map [(10, (1700000000000000000, {[ ns := [tx 1; []] ]}));
                        (11, (1700000006000000000, {[ ns := [tx 2; tx 3] ]}))]) [] 5.
Definition c0 : client memda := MkClient true ns (newBlockTimestampCache 0) w0.
(** Epochs of two DA blocks from height 10. *)
Definition r0 : forcedInclusionRetriever memds memda := NewForcedInclusionRetriever c0 10 2.

Lemma fi_c0_inv : client_inv c0.
Proof. split_and!; [done..|]. simpl. intros h t Hl. by rewrite lookup_empty in Hl. Qed.

Lemma is_u64_11 : is_u64 11.
Proof. done. Qed.

Definition r0_reach : retriever_reach [] r0 :=
  reach_new c0 10 2 fi_c0_inv (conj (Zle_bool_imp_le 0 10 eq_refl) eq_refl).

(** The subscription delivers the block at height 11 with its header. *)
Definition blob (b : bytes) : option rpcBlob := Some (MkBlob b b).
Definition resp11 (time : option Z) : SubscriptionResponse := MkSubResponse [blob (tx 2); None; blob (tx 3)] 11 time.
Definition ev11 : SubscriptionEvent := MkSubEvent 11 1700000006000000000 [tx 2; tx 3].
Definition not_done : memda -> bool := fun _ => false.
Definition r1 : forcedInclusionRetriever memds memda :=
  set_asyncFetcher (HandleEvent not_done ev11 false (asyncFetcher r0)).2 r0.

Lemma ev11_emitted : emitted (forcedNamespaceBz c0) (api c0) (resp11 (Some 1700000006000000000)) ev11.
Proof.
  pose (c' := (subscription_event (E := fi_error) true (resp11 (Some 1700000006000000000)) c0).2).
  exists c0, c'. split; [split; [exact is_u64_11|split]|split].
  - vm_compute. reflexivity.
  - intros t [= <-] _. vm_compute. by repeat split.
  - unfold c'. refine (run_eq (subscription_event true (resp11 (Some 1700000006000000000))) c0 _ _). vm_compute. reflexivity.
  - apply same_chain_extends. reflexivity.
Qed.

Lemma r1_reach : retriever_reach [] r1.
Proof.
  refine (reach_event [] not_done (resp11 (Some 1700000006000000000)) ev11 false r0 (Ok tt) _ r0_reach ev11_emitted _).
  refine (run_eq (HandleEvent not_done ev11 false) (asyncFetcher r0) (Ok tt) _). vm_compute. reflexivity.
Qed.


Example retrieve_r1 :
  fst (RetrieveForcedIncludedTxs 11 r1) = Ok (MkFIEvent 1700000006000000000 10 11 [tx 1; tx 2; tx 3]).
Proof. vm_compute. reflexivity. Qed.

(** A node that sends no header and then fails to answer for it: the event has
    the zero time and is cached, and the epoch is dated by the block before. *)
Definition deaf : client memda := MkClient true ns (newBlockTimestampCache 0) (MkMemDA (chain w0) [true; true; true] 5).
Definition undated : SubscriptionEvent := MkSubEvent 11 zero_time [tx 2; tx 3].

Example damaged_event_cached :
  (subscription_event (E := fi_error) true (resp11 None) deaf).1 = Ok undated /\ intact (resp11 None) undated = false /\
  let f := (HandleEvent not_done undated false (asyncFetcher r0)).2 in
  fst (RetrieveForcedIncludedTxs 11 (set_asyncFetcher f r0))
  = Ok (MkFIEvent 1700000000000000000 10 11 [tx 1; tx 2; tx 3]).
Proof. vm_compute. repeat split; reflexivity. Qed.

(** A blob above the size limit does not reach the event. *)
Lemma oversized_blob_dropped data h t :
  DefaultMaxBlobSize < zlen data -> extractBlobData (MkSubResponse [blob data] h t) = [].
Proof.
  intros Hd. unfold extractBlobData, response_data, blob. cbn [sr_Blobs omap list_omap id fmap list_fmap blob_Data List.filter].
  destruct (Z.ltb_spec DefaultMaxBlobSize (zlen data)); [|lia]. by rewrite orb_true_r.
Qed.

Example retrieve_r0 :
  fst (RetrieveForcedIncludedTxs 11 r0) = Ok (MkFIEvent 1700000006000000000 10 11 [tx 1; tx 2; tx 3]).
Proof. vm_compute. reflexivity. Qed.

(** The same after the prefetcher has run up to the head of the DA chain. *)
Example retrieve_r0_prefetched :
  let f := snd (HandleCatchup (fun _ => false) 10 (asyncFetcher r0)) in
  fst (RetrieveForcedIncludedTxs 11 (set_asyncFetcher f r0))
  = Ok (MkFIEvent 1700000006000000000 10 11 [tx 1; tx 2; tx 3]).
Proof. vm_compute. reflexivity. Qed.

End ForcedInclusionWitness.
