(* ===== verification/Sequencing.v ===== *)
(** * The sequencing interfaces ([core/execution], [core/sequencer],
      [pkg/sequencers/common])

    What the three sequencers share: the executor they filter transactions
    with, requests, responses and batch hashes, the persisted checkpoint, and
    the interface of the source of forced inclusion transactions. Executors are
    applications outside of the repository: the class [Executor] has the calls
    the sequencers make and [ExecutorLaws] what the documentation of
    [FilterTxs] promises. [FISource] is Go's [ForcedInclusionRetriever]
    together with the DA client; the retriever of [ForcedInclusion.v]
    implements it. *)

From S2P Require Import Prelude Sha256 Datastore Serialization ForcedInclusion.
From stdpp Require Import base gmap strings list numbers.
Open Scope Z_scope.

(** ** The executor *)

Inductive FilterStatus := FilterOK | FilterRemove | FilterPostpone.
#[export] Instance FilterStatus_eq_dec : EqDecision FilterStatus.
Proof. solve_decision. Defined.

Class Executor (X : Type) := {
  (** The gas limit of [ExecutionInfo]. *)
  GetExecutionInfo : M X unit Z;
  FilterTxs : list bytes -> Z -> Z -> bool -> M X unit (list FilterStatus);
  (** [time.Now()]. *)
  clock_Now : X -> Z * X
}.

(** One status for each transaction. *)
Class ExecutorLaws (X : Type) `{Executor X} := {
  FilterTxs_length txs maxBytes maxGas forced x statuses x' :
    FilterTxs txs maxBytes maxGas forced x = (Ok statuses, x') -> length statuses = length txs
}.

Section calls.
Context {X : Type} `{Executor X}.

(** The gas limit, or none if the executor fails to tell. *)
Definition getMaxGas {E} : M X E Z :=
  info ← attempt GetExecutionInfo;
  match info with Err _ => mret 0 | Ok maxGas => mret maxGas end.

(** The statuses, or [FilterOK] for all if the executor fails. *)
Definition filter_or_all {E} (txs : list bytes) (maxBytes maxGas : Z) (forced : bool)
  : M X E (list FilterStatus) :=
  statuses ← attempt (FilterTxs txs maxBytes maxGas forced);
  match statuses with Err _ => mret (replicate (length txs) FilterOK) | Ok l => mret l end.

Lemma filter_or_all_spec `{!ExecutorLaws X} {E} txs maxBytes maxGas forced (x : X) :
  wp (filter_or_all (E := E) txs maxBytes maxGas forced)
     (fun r _ => exists l, r = Ok l /\ length l = length txs) x.
Proof.
  apply wp_bind, wp_attempt. unfold wp.
  destruct (FilterTxs txs maxBytes maxGas forced x) as [[l|e] x'] eqn:Hf; simpl.
  - exists l. split; [done|]. by eapply FilterTxs_length.
  - eexists. split; [done|]. apply length_replicate.
Qed.

Lemma getMaxGas_spec {E} (x : X) : wp (getMaxGas (E := E)) (fun r _ => is_ok r = true) x.
Proof. apply wp_bind, wp_attempt. unfold wp. by destruct (GetExecutionInfo x) as [[l|e] x']. Qed.

End calls.

(** ** Requests and batches *)

Record SubmitBatchTxsRequest := MkSubmit { sub_Id : bytes; sub_Batch : option (list bytes) }.
Record GetNextBatchRequest := MkNext { req_Id : bytes; LastBatchData : list bytes; MaxBytes : Z }.
Record GetNextBatchResponse := MkNextResp
  { resp_Transactions : list bytes; resp_Timestamp : Z; BatchData : list bytes }.

(** What [Batch.Hash] writes to the hasher. *)
Definition batch_preimage (transactions : list bytes) : bytes :=
  be_bytes 8 (zlen transactions) ++ (transactions ≫= fun tx => be_bytes 8 (zlen tx) ++ tx).

(** A nil batch is [None]. *)
Definition Batch_Hash (batch : option (list bytes)) : bytes :=
  match batch with
  | None | Some [] => Sha256.sum256 []
  | Some transactions => Sha256.sum256 (batch_preimage transactions)
  end.

(** ** The checkpoint *)

Record Checkpoint := MkCheckpoint { cp_DAHeight : Z; cp_TxIndex : Z }.
(** [pb.SequencerDACheckpoint]. *)
Record pbCheckpoint := MkPbCheckpoint { pc_DaHeight : Z; pc_TxIndex : Z }.

Inductive checkpoint_error :=
| ErrCheckpointNotFound
| CDs (e : ds_error)
| CProto.
#[export] Instance checkpoint_error_eq_dec : EqDecision checkpoint_error.
Proof. solve_decision. Defined.

Section checkpoint.
Context {DB : Type} `{Datastore DB} `{ProtoMsg pbCheckpoint}.
(** [cs.checkpointKey]. *)
Context (checkpointKey : string).

Definition CheckpointStore_Load : M DB checkpoint_error Checkpoint :=
  data ← attempt (ds_get checkpointKey);
  match data with
  | Err ErrNotFound => throw ErrCheckpointNotFound
  | Err e => throw (CDs e)
  | Ok data =>
      match proto_Unmarshal data with
      | Err _ => throw CProto
      | Ok pb => mret (MkCheckpoint (pc_DaHeight pb) (pc_TxIndex pb))
      end
  end.

Definition CheckpointStore_Save (checkpoint : Checkpoint) : M DB checkpoint_error unit :=
  match proto_Marshal (MkPbCheckpoint (cp_DAHeight checkpoint) (cp_TxIndex checkpoint)) with
  | Err _ => throw CProto
  | Ok data => wrap CDs (ds_put checkpointKey data)
  end.

Definition CheckpointStore_Delete : M DB checkpoint_error unit :=
  r ← attempt (ds_delete checkpointKey);
  match r with
  | Err ErrNotFound => mret tt
  | Err e => throw (CDs e)
  | Ok _ => mret tt
  end.

End checkpoint.

(** ** The source of forced inclusion transactions *)

Class FISource (F : Type) := {
  (** [block.NewForcedInclusionRetriever] on the DA client of a retriever, for a
      DA start height and an epoch size. *)
  fi_New : Z -> Z -> F -> F;
  fi_Retrieve : Z -> M F fi_error ForcedInclusionEvent;
  (** [daClient.GetLatestDAHeight], [GetProofs] and [Validate]. *)
  fi_LatestDAHeight : M F string Z;
  fi_GetProofs : list bytes -> bytes -> M F string (list bytes);
  fi_Validate : list bytes -> list bytes -> bytes -> M F string (list bool)
}.

(** What the sequencers rely on: an event ends at the height it was asked for. *)
Class FISourceLaws (F : Type) `{FISource F} := {
  fi_inv : F -> Prop;
  fi_New_law start size f : fi_inv f -> is_u64 start -> fi_inv (fi_New start size f);
  fi_Retrieve_law h f :
    fi_inv f -> is_u64 h ->
    wp (fi_Retrieve h) (fun r f' =>
      fi_inv f' /\ match r with Ok ev => EndDaHeight ev = h | Err _ => True end) f;
  fi_LatestDAHeight_law f :
    fi_inv f -> wp fi_LatestDAHeight (fun _ f' => fi_inv f') f;
  fi_GetProofs_law ids ns f : fi_inv f -> wp (fi_GetProofs ids ns) (fun _ f' => fi_inv f') f;
  fi_Validate_law ids ps ns f : fi_inv f -> wp (fi_Validate ids ps ns) (fun _ f' => fi_inv f') f
}.
