(* ===== verification/SequencingFacts.v ===== *)
(** * Facts on the sequencing interfaces

    Batch hashes commit to the batch, checkpoints are read back, and the
    retriever of forced inclusion transactions implements [FISource]. *)

From S2P Require Import Prelude Sha256 Datastore Serialization DAClient ForcedInclusion ForcedInclusionFacts Sequencing.
From stdpp Require Import base gmap strings list numbers.
Open Scope Z_scope.

(** ** Batch hashes *)

Lemma be_bytes_inj n a b :
  0 <= a < 256 ^ Z.of_nat n -> 0 <= b < 256 ^ Z.of_nat n -> be_bytes n a = be_bytes n b -> a = b.
Proof.
  intros Ha Hb Heq. unfold be_bytes in Heq. apply (inj reverse) in Heq.
  rewrite <- (Z.mod_small a (256 ^ Z.of_nat n)), <- (Z.mod_small b (256 ^ Z.of_nat n)) by done.
  by rewrite <- !le_val_bytes, Heq.
Qed.

Lemma txs_preimage_inj (xs : list bytes) : forall ys,
  length xs = length ys ->
  Forall (fun tx => zlen tx < two64) xs -> Forall (fun tx => zlen tx < two64) ys ->
  (xs ≫= fun tx => be_bytes 8 (zlen tx) ++ tx) = (ys ≫= fun tx => be_bytes 8 (zlen tx) ++ tx) -> xs = ys.
Proof.
  induction xs as [|x xs IH]; intros [|y ys] Hlen Hx Hy Heq; try done.
  apply Forall_cons_1 in Hx as [Hx Hxs], Hy as [Hy Hys]. cbn [mbind list_bind] in Heq.
  rewrite <- !app_assoc in Heq. apply app_inj_1 in Heq as [Hl Heq]; [|by rewrite !length_be_bytes].
  apply be_bytes_inj in Hl; [|change (256 ^ Z.of_nat 8) with two64; pose proof (zlen_nonneg x);
    pose proof (zlen_nonneg y); lia..].
  apply app_inj_1 in Heq as [-> Heq]; [|unfold zlen in Hl; lia].
  f_equal. apply IH; [by injection Hlen|done..].
Qed.

(** The bytes that [Batch.Hash] feeds to SHA-256 determine the batch: two
    batches with the same preimage are the same list of transactions, so equal
    hashes of different non-empty batches are SHA-256 collisions. *)
Theorem batch_hash_binding (a b : list bytes) :
  a <> [] -> b <> [] -> zlen a < two64 -> zlen b < two64 ->
  Forall (fun tx => zlen tx < two64) a -> Forall (fun tx => zlen tx < two64) b ->
  a <> b ->
  exists m m', m <> m' /\ Batch_Hash (Some a) = Sha256.sum256 m /\ Batch_Hash (Some b) = Sha256.sum256 m'.
Proof.
  intros Ha Hb Hla Hlb Hfa Hfb Hne. exists (batch_preimage a), (batch_preimage b).
  split_and!; [|by destruct a|by destruct b].
  intros Heq. apply Hne. unfold batch_preimage in Heq.
  apply app_inj_1 in Heq as [Hl Heq]; [|by rewrite !length_be_bytes].
  apply be_bytes_inj in Hl; [|change (256 ^ Z.of_nat 8) with two64; pose proof (zlen_nonneg a);
    pose proof (zlen_nonneg b); lia..].
  apply txs_preimage_inj; [unfold zlen in Hl; lia|done..].
Qed.

(** Without the length prefixes these two would be hashed alike. *)
Lemma batch_hash_binding_witness :
  exists m m', m <> m' /\
    Batch_Hash (Some [[Init.Byte.x01]; [Init.Byte.x02]]) = Sha256.sum256 m /\
    Batch_Hash (Some [[Init.Byte.x01; Init.Byte.x02]; []]) = Sha256.sum256 m'.
Proof.
  apply (batch_hash_binding [[Init.Byte.x01]; [Init.Byte.x02]] [[Init.Byte.x01; Init.Byte.x02]; []]);
    try done; repeat constructor; done.
Defined.

(** ** Checkpoints *)

Definition checkpoint_ok (c : Checkpoint) : Prop := is_u64 (cp_DAHeight c) /\ is_u64 (cp_TxIndex c).

Section checkpoint.
Context {DB : Type} `{DatastoreLaws DB} `{ProtoMsg pbCheckpoint}.
Context `{!ProtoLaws pbCheckpoint id (fun m => is_u64 (pc_DaHeight m) /\ is_u64 (pc_TxIndex m))}.

(** The datastore holds the checkpoint. *)
Definition saved (key : string) (d : DB) (c : Checkpoint) : Prop :=
  exists data, ds_view d !! key = Some data /\
    proto_Unmarshal data = Ok (MkPbCheckpoint (cp_DAHeight c) (cp_TxIndex c)).

Lemma Save_spec key c d :
  checkpoint_ok c ->
  wp (CheckpointStore_Save key c) (fun r d' =>
    match r with Ok _ => saved key d' c | Err _ => ds_view d' = ds_view d end) d.
Proof.
  intros Hok. unfold CheckpointStore_Save. destruct (proto_Marshal _) as [data|e] eqn:Hm; [|done].
  apply wp_wrap. eapply wp_mono; [apply put_law|]. intros [[]|e] d' [_ Hv]; [|by apply Hv].
  exists data. rewrite Hv. split; [by rewrite lookup_insert_eq|].
  by eapply unmarshal_marshal in Hm.
Qed.

Lemma Load_saved key c d :
  saved key d c -> ds_healthy d -> (CheckpointStore_Load key d).1 = Ok c.
Proof.
  intros (data & Hl & Hu) Hh.
  cut (wp (CheckpointStore_Load key) (fun r _ => r = Ok c) d); [done|].
  apply wp_bind, wp_attempt. eapply wp_mono; [apply get_law|].
  intros [v|[|]] d' (_ & _ & Hv); [|congruence|done].
  assert (v = data) as -> by congruence. rewrite Hu. by destruct c.
Qed.

End checkpoint.

(** ** The retriever implements the interface *)

Section source.
Context {DB : Type} `{DatastoreLaws DB} `{MapDatastore DB} `{!MapDatastoreLaws DB}.
Context {W : Type} `{BlobRPCLaws W} `{ProtoMsg pbBlockData}.
Context `{!ProtoLaws pbBlockData id (fun m => is_u64 (bd_Height m) /\ i64 (bd_Timestamp m) = bd_Timestamp m)}.

Abbreviation R := (forcedInclusionRetriever DB W).

Definition set_client (c : client W) (r : R) : R :=
  set_asyncFetcher (set_ar_client c (asyncFetcher r)) r.

Definition on_da {E A} (m : M (client W) E A) : M R E A :=
  zoom (fun r => ar_client (asyncFetcher r)) set_client m.

#[export] Instance retriever_source : FISource R := {
  fi_New start size r := NewForcedInclusionRetriever (ar_client (asyncFetcher r)) start size;
  fi_Retrieve := RetrieveForcedIncludedTxs;
  fi_LatestDAHeight := on_da GetLatestDAHeight;
  fi_GetProofs ids ns := on_da (GetProofs ids ns);
  fi_Validate ids ps ns := on_da (Validate ids ps ns)
}.

Lemma consults_reach {E A} (m : M (client W) E A) r :
  consults m -> (exists bad, retriever_reach bad r) -> wp (on_da m) (fun _ r' => exists bad, retriever_reach bad r') r.
Proof.
  intros Hm [bad Hr]. apply wp_zoom. eapply wp_mono; [apply Hm|]. intros x c Hs. exists bad. by apply reach_client.
Qed.

#[export] Instance retriever_source_laws : FISourceLaws R.
Proof.
  refine {| fi_inv := fun r => exists bad, retriever_reach bad r |}.
  - intros start size r [bad Hr] Hs. exists []. apply reach_new; [|done]. by apply reach_inv in Hr as [(? & _) _].
  - intros h r [bad Hr] Hh. pose proof (reach_inv bad r Hr) as [Hc Hs].
    pose proof (retrieve_forced_spec _ h r Hs Hh Hc) as Hw. unfold wp in *.
    destruct (fi_Retrieve h r) as [x r'] eqn:Hrun. cbn [fst snd]. split; [exists bad; exact (reach_retrieve bad h r x r' Hr Hh Hrun)|].
    simpl in Hrun. rewrite Hrun in Hw. destruct x as [ev|e]; [|done].
    destruct Hw as [_ Hw]. unfold retrieval_post in Hw. cbn [fst snd] in Hw.
    destruct (Epoch.Epoch.CalculateEpochBoundaries _ _ _) as [[es ee] n]. apply Hw.
  - intros r Hr. apply consults_reach; [apply GetLatestDAHeight_consults|done].
  - intros ids ns r Hr. apply consults_reach; [apply GetProofs_consults|done].
  - intros ids ps ns r Hr. apply consults_reach; [apply Validate_consults|done].
Defined.

End source.
