(* ===== verification/ForcedCheck.v ===== *)
(** * The forced inclusion check of a syncing node ([block/internal/syncing/syncer.go])

    A full node remembers the transactions of the blocks it reads from the DA
    layer, and for every epoch whose grace window is over it checks that the
    forced inclusion transactions of the epoch are among them. The tracking
    fields of [Syncer] are the record [ForcedCheck], with the retriever of
    forced transactions and the executor that the check calls. *)

From Stdlib Require Import SpecFloat.
From S2P Require Import Prelude Sha256 Types Serialization DASubmitter Batching Epoch ForcedInclusion Sequencing Execution.
From stdpp Require Import base gmap strings list numbers.
Open Scope Z_scope.

Definition baseGracePeriodEpochs : Z := 1.
Definition maxGracePeriodEpochs : Z := 4.

(** [uint64(math.Round(f))] of a number that is not negative: half is rounded up. *)
Definition round_uint64 `{FloatConversion} (f : float64) : Z :=
  match f with
  | S754_finite false m (Zneg e) => Z.shiftr (Zpos m + Z.shiftl 1 (Zpos e - 1)) (Zpos e)
  | _ => uint64_of_f64 f
  end.

Definition fullness_limit `{FloatConversion} : Z := round_uint64 (f64_mul f64_0_8 (f64_of_uint64 DefaultMaxBlobSize)).

Inductive check_error :=
| CExecInfo
| CRetrieve (e : fi_error)
| CFilter
| CMalicious (count : Z)
| CPanic
| COutOfFuel.
#[export] Instance check_error_eq_dec : EqDecision check_error.
Proof. solve_decision. Defined.

Record ForcedCheck (F EX : Type) := MkForcedCheck
  { fc_fi : option F;
    fc_exec : EX;
    seenBlockTxs : gset string;
    seenBlockTxsByHeight : gmap Z (list string);
    daBlockBytes : gmap Z Z;
    lastCheckedEpochEnd : Z }.
Arguments MkForcedCheck {F EX}.
Arguments fc_fi {F EX}.
Arguments fc_exec {F EX}.
Arguments seenBlockTxs {F EX}.
Arguments seenBlockTxsByHeight {F EX}.
Arguments daBlockBytes {F EX}.
Arguments lastCheckedEpochEnd {F EX}.

Definition hashTx (tx : bytes) : string := hex_encode (Sha256.sum256 tx).

Section check.
Context {F EX : Type} `{FISource F} `{Executor EX} `{FloatConversion}.
Abbreviation C := (ForcedCheck F EX).

Definition set_fc_fi x (c : C) : C :=
  MkForcedCheck x (fc_exec c) (seenBlockTxs c) (seenBlockTxsByHeight c) (daBlockBytes c) (lastCheckedEpochEnd c).
Definition set_fc_exec x (c : C) : C :=
  MkForcedCheck (fc_fi c) x (seenBlockTxs c) (seenBlockTxsByHeight c) (daBlockBytes c) (lastCheckedEpochEnd c).
Definition set_lastCheckedEpochEnd x (c : C) : C :=
  MkForcedCheck (fc_fi c) (fc_exec c) (seenBlockTxs c) (seenBlockTxsByHeight c) (daBlockBytes c) x.

Definition CM (A : Type) : Type := M C check_error A.

(** The retriever is only called when it is not nil. *)
Definition on_fi {A} (m : M F fi_error A) : CM A := fun c =>
  match fc_fi c with
  | Some f => let '(r, f') := m f in (map_err CRetrieve r, set_fc_fi (Some f') c)
  | None => (Err CPanic, c)
  end.
Definition on_check_exec {A} (err : check_error) (m : M EX unit A) : CM A := zoom fc_exec set_fc_exec (wrap (fun _ => err) m).

Definition gracePeriodForEpoch (daBlockBytes : gmap Z Z) (epochStart epochEnd : Z) : Z :=
  if epochEnd <? epochStart then baseGracePeriodEpochs else
  let heightCount := (epochEnd - epochStart + 1)%u64 in
  let totalBytes := foldl (fun t h => add64 t (default 0 (daBlockBytes !! h))) 0 (z_range epochStart epochEnd) in
  let avgBytes := totalBytes / heightCount in
  let threshold := fullness_limit in
  let extra := if threshold <? avgBytes then (avgBytes - threshold) / threshold else 0 in
  Z.min (add64 baseGracePeriodEpochs extra) maxGracePeriodEpochs.

Definition record_block (daHeight : Z) (data : Data) (c : C) : C :=
  let blockBytes := foldl (fun t tx => add64 t (zlen tx)) 0 (data_txs data) in
  let hashes := hashTx <$> data_txs data in
  MkForcedCheck (fc_fi c) (fc_exec c) (list_to_set hashes ∪ seenBlockTxs c)
    (<[daHeight := hashes]> (seenBlockTxsByHeight c)) (<[daHeight := blockBytes]> (daBlockBytes c)) (lastCheckedEpochEnd c).

Definition prune_height (c : C) (h : Z) : C :=
  MkForcedCheck (fc_fi c) (fc_exec c)
    (seenBlockTxs c ∖ list_to_set (default [] (seenBlockTxsByHeight c !! h)))
    (delete h (seenBlockTxsByHeight c)) (delete h (daBlockBytes c)) (lastCheckedEpochEnd c).

Definition pruneUpTo (upTo : Z) (c : C) : C :=
  set_lastCheckedEpochEnd upTo (foldl prune_height c (z_range (lastCheckedEpochEnd c) upTo)).

(** The transactions that had to be included and were not seen. *)
Fixpoint count_missing (seen : gset string) (txs : list bytes) (statuses : list FilterStatus) : res check_error Z :=
  match txs, statuses with
  | [], _ => Ok 0
  | _ :: _, [] => Err CPanic
  | tx :: txs', status :: statuses' =>
      n ← count_missing seen txs' statuses';
      if bool_decide (status = FilterOK) && negb (bool_decide (hashTx tx ∈ seen)) then Ok (n + 1) else Ok n
  end.

Definition prune_if_new (epochEnd : Z) (c : C) : C :=
  if lastCheckedEpochEnd c <? epochEnd then pruneUpTo epochEnd c else c.

(** The loop over the epochs; [None] when forced inclusion turns out not to be
    configured. *)
Fixpoint check_epochs (fuel : nat) (epochSize daHeight maxGas epochEnd maliciousCount : Z) : CM (option Z) :=
  match fuel with
  | O => throw COutOfFuel
  | S fuel' =>
      let epochStart := (epochEnd - (epochSize - 1))%u64 in
      gracePeriod ← gets (fun c => gracePeriodForEpoch (daBlockBytes c) epochStart epochEnd);
      let graceBoundary := (epochEnd + gracePeriod * epochSize)%u64 in
      if daHeight <=? graceBoundary then mret (Some maliciousCount) else
      event ← attempt (on_fi (fi_Retrieve epochEnd));
      match event with
      | Err (CRetrieve ErrForceInclusionNotConfigured) => mret None
      | Err e => throw e
      | Ok event =>
          if zlen (fi_Txs event) =? 0 then
            _ ← modify (prune_if_new epochEnd);
            check_epochs fuel' epochSize daHeight maxGas (add64 epochEnd epochSize) maliciousCount
          else
            statuses ← on_check_exec CFilter (FilterTxs (fi_Txs event) DefaultMaxBlobSize maxGas true);
            seen ← gets seenBlockTxs;
            missing ← lift_res (count_missing seen (fi_Txs event) statuses);
            _ ← modify (prune_if_new epochEnd);
            check_epochs fuel' epochSize daHeight maxGas (add64 epochEnd epochSize) (maliciousCount + missing)
      end
  end.

Definition startEpochEnd (g : ChainGenesis) (last : Z) : Z :=
  let firstEpochEnd := (g_DAStartHeight g + g_DAEpochForcedInclusion g - 1)%u64 in
  if (last =? 0) || (last <? firstEpochEnd) then firstEpochEnd else add64 last (g_DAEpochForcedInclusion g).

(** [stateDAHeight] is the DA height of the last state. *)
Definition VerifyForcedInclusionTxs (fuel : nat) (g : ChainGenesis) (stateDAHeight daHeight : Z) (data : Data) : CM unit :=
  fi ← gets fc_fi;
  match fi with
  | None => mret tt
  | Some _ =>
      let epochSize := g_DAEpochForcedInclusion g in
      if epochSize =? 0 then mret tt else
      _ ← modify (record_block daHeight data);
      if (daHeight <? g_DAStartHeight g) || (daHeight <? stateDAHeight) then mret tt else
      maxGas ← on_check_exec CExecInfo GetExecutionInfo;
      last ← gets lastCheckedEpochEnd;
      count ← check_epochs fuel epochSize daHeight maxGas (startEpochEnd g last) 0;
      match count with
      | Some n => if 0 <? n then throw (CMalicious n) else mret tt
      | None => mret tt
      end
  end.

End check.

(** The limit is 4 MiB with the default blob size. *)
Example fullness_limit_default `{FloatConversion} : fullness_limit = 4194304.
Proof. vm_compute. reflexivity. Qed.
