(* ===== verification/ForcedCheckFacts.v ===== *)
(** * The verdict of the forced inclusion check

    The check is compared with its specification: the epochs that are due, and
    in each of them the transactions that had to be included and are not
    accounted for. *)

From S2P Require Import Prelude Sha256 Types Serialization DASubmitter Batching ForcedInclusion Sequencing Execution ForcedCheck.
From stdpp Require Import base gmap strings list numbers.
Open Scope Z_scope.

Section facts.
Context {F EX : Type} `{FISource F} `{Executor EX} `{FloatConversion}.
Abbreviation C := (ForcedCheck F EX).
Implicit Types c : C.

Lemma foldl_add64_u64 {A} (f : A -> Z) l t : is_u64 t -> is_u64 (foldl (fun t a => add64 t (f a)) t l).
Proof. revert t. induction l as [|a l IH]; intros t Ht; [done|]. simpl. apply IH, add64_u64. Qed.

Lemma grace_bounds bytes s e : 1 <= gracePeriodForEpoch bytes s e <= 4.
Proof.
  unfold gracePeriodForEpoch, baseGracePeriodEpochs, maxGracePeriodEpochs. destruct (e <? s); [lia|].
  pose proof (foldl_add64_u64 (fun h => default 0 (bytes !! h)) (z_range s e) 0 ltac:(done)) as Ht.
  set (total := foldl _ _ _) in *. set (n := (e - s + 1)%u64).
  assert (Hn : 0 <= n) by apply add64_u64.
  assert (Hd : 0 <= total / n < two64).
  { unfold is_u64 in Ht. destruct (Z.eq_dec n 0) as [->|]; [rewrite Z.div_0_r; unfold two64; lia|].
    split; [apply Z.div_pos; lia|]. apply Z.div_lt_upper_bound; nia. }
  rewrite fullness_limit_default.
  set (extra := if _ <? _ then _ else _). assert (He : 0 <= extra < two64 - 1).
  { unfold extra. destruct (Z.ltb_spec 4194304 (total / n)); [|unfold two64; lia].
    split; [apply Z.div_pos; lia|]. apply Z.div_lt_upper_bound; unfold two64 in *; lia. }
  rewrite add64_small by lia. lia.
Qed.

(** ** Pruning *)

(** The hashes that were recorded at a height. *)
Definition recorded c (h : Z) : list string := default [] (seenBlockTxsByHeight c !! h).

Lemma prune_heights_spec l c :
  NoDup l ->
  let c' := foldl prune_height c l in
  fc_fi c' = fc_fi c /\ fc_exec c' = fc_exec c /\ lastCheckedEpochEnd c' = lastCheckedEpochEnd c /\
  (forall hash, hash ∈ seenBlockTxs c' <-> hash ∈ seenBlockTxs c /\ forall h, h ∈ l -> hash ∉ recorded c h) /\
  (forall h, seenBlockTxsByHeight c' !! h = if decide (h ∈ l) then None else seenBlockTxsByHeight c !! h) /\
  (forall h, daBlockBytes c' !! h = if decide (h ∈ l) then None else daBlockBytes c !! h).
Proof.
  revert c. induction l as [|h0 l IH]; intros c Hnd; cbn [foldl].
  { split_and!; try done. intros hash. split; [|tauto]. intros Hs. split; [done|]. by intros h ?%not_elem_of_nil. }
  apply list.NoDup_cons in Hnd as [Hni Hnd]. destruct (IH (prune_height c h0) Hnd) as (I1 & I2 & I3 & I4 & I5 & I6).
  set (c' := foldl prune_height (prune_height c h0) l) in *. split_and!; [by rewrite I1|by rewrite I2|by rewrite I3|..].
  - intros hash. rewrite I4. cbn [seenBlockTxs prune_height]. rewrite elem_of_difference, elem_of_list_to_set.
    assert (Hrec : forall h, h ∈ l -> recorded (prune_height c h0) h = recorded c h).
    { intros h Hh. unfold recorded. simpl. rewrite lookup_delete_ne; [done|]. intros ->. done. }
    split.
    + intros [[Hs Hn0] Hl]. split; [done|]. intros h [->|Hh]%elem_of_cons; [exact Hn0|]. rewrite <- Hrec by done. by apply Hl.
    + intros [Hs Hl]. split; [split; [done|]|].
      * apply (Hl h0). left.
      * intros h Hh. rewrite Hrec by done. apply Hl. by right.
  - intros h. rewrite I5. cbn [seenBlockTxsByHeight prune_height].
    destruct (decide (h ∈ l)) as [Hh|Hh], (decide (h ∈ h0 :: l)) as [Hh'|Hh']; try done.
    + destruct Hh'. by right.
    + apply elem_of_cons in Hh' as [->|]; [by rewrite lookup_delete_eq|done].
    + rewrite lookup_delete_ne; [done|]. intros ->. apply Hh'. left.
  - intros h. rewrite I6. cbn [daBlockBytes prune_height].
    destruct (decide (h ∈ l)) as [Hh|Hh], (decide (h ∈ h0 :: l)) as [Hh'|Hh']; try done.
    + destruct Hh'. by right.
    + apply elem_of_cons in Hh' as [->|]; [by rewrite lookup_delete_eq|done].
    + rewrite lookup_delete_ne; [done|]. intros ->. apply Hh'. left.
Qed.

(** What is left of [c] when everything up to [upTo] was pruned. *)
Record pruned_to (upTo : Z) c c' : Prop := {
  pt_last : lastCheckedEpochEnd c' = upTo;
  pt_seen hash : hash ∈ seenBlockTxs c' <->
    hash ∈ seenBlockTxs c /\ forall h, lastCheckedEpochEnd c <= h <= upTo -> hash ∉ recorded c h;
  pt_recorded h : upTo <= h ->
    seenBlockTxsByHeight c' !! h = if h =? upTo then None else seenBlockTxsByHeight c !! h;
  pt_bytes h : upTo < h -> daBlockBytes c' !! h = daBlockBytes c !! h }.

Lemma pruneUpTo_spec upTo c : lastCheckedEpochEnd c <= upTo -> pruned_to upTo c (pruneUpTo upTo c).
Proof.
  intros Hle.
  destruct (prune_heights_spec (z_range (lastCheckedEpochEnd c) upTo) c (NoDup_z_range _ _)) as (_ & _ & _ & I4 & I5 & I6).
  unfold pruneUpTo. split; cbn [lastCheckedEpochEnd seenBlockTxs seenBlockTxsByHeight daBlockBytes set_lastCheckedEpochEnd]; [done|..].
  - intros hash. rewrite I4. split; intros [Hs Hl]; (split; [done|]); intros h Hh; apply Hl; by apply elem_of_z_range.
  - intros h Hh. rewrite I5. destruct (decide (h ∈ _)) as [Hi|Hi], (Z.eqb_spec h upTo) as [->|]; try done.
    + apply elem_of_z_range in Hi. lia.
    + destruct Hi. apply elem_of_z_range. lia.
  - intros h Hh. rewrite I6. destruct (decide (h ∈ _)) as [Hi|Hi]; [|done]. apply elem_of_z_range in Hi. lia.
Qed.

(** Pruning further. *)
Lemma pruned_to_trans u1 u2 c c1 c2 :
  lastCheckedEpochEnd c <= u1 < u2 -> pruned_to u1 c c1 -> pruned_to u2 c1 c2 -> pruned_to u2 c c2.
Proof.
  intros Hu [A1 A2 A3 A4] [B1 B2 B3 B4]. rewrite A1 in *.
  assert (Hrec : forall h, u1 <= h -> recorded c1 h = if h =? u1 then [] else recorded c h).
  { intros h Hh. unfold recorded. rewrite A3 by done. by destruct (h =? u1). }
  split; [done|..].
  - intros hash. rewrite B2, A2. split.
    + intros [[Hs Hl1] Hl2]. split; [done|]. intros h Hh. destruct (Z.le_gt_cases h u1); [apply Hl1; lia|].
      specialize (Hl2 h ltac:(lia)). rewrite Hrec in Hl2 by lia. by destruct (Z.eqb_spec h u1); [lia|].
    + intros [Hs Hl]. split; [split; [done|intros h Hh; apply Hl; lia]|]. intros h Hh. rewrite Hrec by lia.
      destruct (Z.eqb_spec h u1); [apply not_elem_of_nil|apply Hl; lia].
  - intros h Hh. rewrite B3 by done. destruct (Z.eqb_spec h u2); [done|]. rewrite A3 by lia. by destruct (Z.eqb_spec h u1); [lia|].
  - intros h Hh. rewrite B4, A4 by lia. done.
Qed.

(** ** The specification *)

(** The epoch ends from [e] on whose grace window is over. *)
Fixpoint due (fuel : nat) (bytes : gmap Z Z) (size daHeight e : Z) : list Z :=
  match fuel with
  | O => []
  | S fuel' =>
      if daHeight <=? e + gracePeriodForEpoch bytes (e - (size - 1)) e * size then []
      else e :: due fuel' bytes size daHeight (e + size)
  end.

(** A transaction of the epoch [e] that had to be included and is not accounted
    for, after the epochs before [e] were checked. *)
Definition unaccounted (forced : Z -> list bytes) (flt : list bytes -> list FilterStatus) c (e : Z) (checked : list Z) : Prop :=
  exists i tx, forced e !! i = Some tx /\ flt (forced e) !! i = Some FilterOK /\
    (hashTx tx ∉ seenBlockTxs c \/
     exists e' h, e' ∈ checked /\ lastCheckedEpochEnd c <= h <= e' /\ hashTx tx ∈ recorded c h).

(** What the retriever and the executor answer. *)
Record check_oracle (Finv : F -> Prop) (Xinv : EX -> Prop) (forced : Z -> list bytes)
    (flt : list bytes -> list FilterStatus) : Prop := {
  co_retrieve e f : Finv f ->
    wp (fi_Retrieve e) (fun r f' => Finv f' /\ exists ev, r = Ok ev /\ fi_Txs ev = forced e) f;
  co_info x : Xinv x -> wp GetExecutionInfo (fun r x' => Xinv x' /\ exists g, r = Ok g) x;
  co_filter txs g x : Xinv x -> wp (FilterTxs txs DefaultMaxBlobSize g true) (fun r x' => Xinv x' /\ r = Ok (flt txs)) x;
  co_length txs : length (flt txs) = length txs }.

Lemma count_missing_spec seen txs statuses :
  length statuses = length txs ->
  exists n, count_missing seen txs statuses = Ok n /\ 0 <= n /\
    (0 < n <-> exists i tx, txs !! i = Some tx /\ statuses !! i = Some FilterOK /\ hashTx tx ∉ seen).
Proof.
  revert statuses. induction txs as [|tx txs IH]; intros [|st sts] Hl; try done.
  { exists 0. split_and!; [done..|]. split; [lia|]. by intros (i & tx & Hi & _). }
  destruct (IH sts) as (n & Hn & Hpos & Hiff); [simpl in Hl; lia|]. cbn [count_missing]. rewrite Hn. cbn [mbind res_bind].
  destruct (bool_decide (st = FilterOK) && negb (bool_decide (hashTx tx ∈ seen))) eqn:Hb.
  - exists (n + 1). split_and!; [done|lia|]. split; [intros _|lia].
    apply andb_true_iff in Hb as [Hst Hs]. apply bool_decide_eq_true in Hst as ->. apply negb_true_iff, bool_decide_eq_false in Hs.
    by exists 0%nat, tx.
  - exists n. split_and!; [done..|]. rewrite Hiff. split.
    + intros (i & tx' & ? & ? & ?). by exists (S i), tx'.
    + intros ([|i] & tx' & Ht & Hs & Hn'); simpl in *; [|by exists i, tx']. simplify_eq.
      rewrite bool_decide_true in Hb by done. by rewrite bool_decide_false in Hb.
Qed.

(** ** The loop *)

Section loop.
Context (Finv : F -> Prop) (Xinv : EX -> Prop) (forced : Z -> list bytes) (flt : list bytes -> list FilterStatus).
Context (Horacle : check_oracle Finv Xinv forced flt).

Definition oracle_inv c : Prop := (exists f, fc_fi c = Some f /\ Finv f) /\ Xinv (fc_exec c).

(** Everything but the retriever and the executor is as in [c]. *)
Definition same_tracking c c' : Prop :=
  seenBlockTxs c' = seenBlockTxs c /\ seenBlockTxsByHeight c' = seenBlockTxsByHeight c /\
  daBlockBytes c' = daBlockBytes c /\ lastCheckedEpochEnd c' = lastCheckedEpochEnd c.

Lemma check_retrieve_spec e c :
  oracle_inv c -> wp (on_fi (fi_Retrieve e)) (fun r c' =>
    oracle_inv c' /\ same_tracking c c' /\ exists ev, r = Ok ev /\ fi_Txs ev = forced e) c.
Proof.
  intros [(f & Hf & Hi) Hx]. unfold wp, on_fi. rewrite Hf. pose proof (co_retrieve _ _ _ _ Horacle e f Hi) as Hw.
  unfold wp in Hw. destruct (fi_Retrieve e f) as [r f']. cbn [fst snd] in Hw. destruct Hw as (Hi' & ev & -> & Hev). simpl.
  split; [split; [by exists f'|done]|]. split; [done|]. by exists ev.
Qed.

Lemma check_filter_spec txs g c :
  oracle_inv c -> wp (on_check_exec CFilter (FilterTxs txs DefaultMaxBlobSize g true)) (fun r c' =>
    oracle_inv c' /\ same_tracking c c' /\ r = Ok (flt txs)) c.
Proof.
  intros [Hf Hx]. apply wp_zoom, wp_wrap. eapply wp_mono; [by apply (co_filter _ _ _ _ Horacle)|].
  intros r x' [Hx' ->]. done.
Qed.

Definition checked_to (l : list Z) c c' : Prop :=
  match list.last l with None => same_tracking c c' | Some u => pruned_to u c c' end.

Lemma same_tracking_pruned u c c1 c2 : same_tracking c c1 -> pruned_to u c1 c2 -> pruned_to u c c2.
Proof.
  intros (T1 & T2 & T3 & T4) [A1 A2 A3 A4]. unfold recorded in *. rewrite T1, T2, T4 in *. split; try done.
  by rewrite <- T3.
Qed.

Lemma unaccounted_same c c1 e l : same_tracking c c1 -> unaccounted forced flt c1 e l <-> unaccounted forced flt c e l.
Proof. intros (T1 & T2 & T3 & T4). unfold unaccounted, recorded. by rewrite T1, T2, T4. Qed.

Lemma unaccounted_step u c c1 e l :
  lastCheckedEpochEnd c <= u -> Forall (fun e' => u < e') l -> pruned_to u c c1 ->
  unaccounted forced flt c1 e l <-> unaccounted forced flt c e (u :: l).
Proof.
  intros Hu Hl [A1 A2 A3 A4]. unfold unaccounted.
  assert (Hrec : forall h, u <= h -> recorded c1 h = if h =? u then [] else recorded c h).
  { intros h Hh. unfold recorded. rewrite A3 by done. by destruct (h =? u). }
  split; intros (i & tx & Hi & Hs & Hx); exists i, tx; (split; [done|split; [done|]]).
  - destruct (decide (hashTx tx ∈ seenBlockTxs c)) as [Hin|]; [|by left]. right.
    destruct Hx as [Hx|(e' & h & He' & Hh & Hr)].
    + destruct (decide (Exists (fun h => hashTx tx ∈ recorded c h) (z_range (lastCheckedEpochEnd c) u))) as [Hex|Hnex].
      * apply list.Exists_exists in Hex as (h & Hh & Hr). apply elem_of_z_range in Hh. exists u, h. split; [left|done].
      * destruct Hx. apply A2. split; [done|]. intros h Hh Hr. apply Hnex, list.Exists_exists. exists h.
        split; [by apply elem_of_z_range|done].
    + rewrite A1 in Hh. rewrite Hrec in Hr by lia. destruct (Z.eqb_spec h u); [by apply not_elem_of_nil in Hr|].
      exists e', h. split; [by right|]. split; [lia|done].
  - destruct Hx as [Hx|(e' & h & He' & Hh & Hr)]; [left; rewrite A2; tauto|].
    destruct (Z.le_gt_cases h u) as [Hle|Hgt].
    + left. rewrite A2. intros [_ Hn]. apply (Hn h); [lia|done].
    + apply elem_of_cons in He' as [->|He']; [lia|]. right. exists e', h. split; [done|]. rewrite A1. split; [lia|].
      rewrite Hrec by lia. by destruct (Z.eqb_spec h u); [lia|].
Qed.

Lemma grace_ext b1 b2 s e : (forall h, s <= h -> b1 !! h = b2 !! h) -> gracePeriodForEpoch b1 s e = gracePeriodForEpoch b2 s e.
Proof.
  intros Hb. unfold gracePeriodForEpoch. destruct (e <? s); [done|].
  assert (Hf : forall l t, Forall (fun h => s <= h) l -> foldl (fun t h => add64 t (default 0 (b1 !! h))) t l = foldl (fun t h => add64 t (default 0 (b2 !! h))) t l).
  { induction l as [|h l IH]; intros t Hl; [done|]. simpl. apply Forall_cons_1 in Hl as [Hh Hl]. rewrite Hb by done. by apply IH. }
  rewrite Hf; [done|]. apply list.Forall_forall. intros h Hh%elem_of_z_range. lia.
Qed.

Lemma due_ext fuel b1 b2 size dah e0 e :
  0 < size -> e0 < e - (size - 1) -> (forall h, e0 < h -> b1 !! h = b2 !! h) -> due fuel b1 size dah e = due fuel b2 size dah e.
Proof.
  intros Hs He Hb. revert e He. induction fuel as [|fuel IH]; intros e He; [done|]. cbn [due].
  rewrite (grace_ext b1 b2) by (intros; apply Hb; lia). destruct (_ <=? _); [done|]. f_equal. apply IH. lia.
Qed.

Lemma due_above fuel b size dah e : 0 < size -> Forall (fun e' => e <= e') (due fuel b size dah e).
Proof.
  intros Hs. revert e. induction fuel as [|fuel IH]; intros e; [constructor|]. cbn [due]. destruct (_ <=? _); [constructor|].
  constructor; [lia|]. eapply list.Forall_impl; [apply IH|]. simpl. lia.
Qed.

Lemma checked_to_cons u l c c1 c2 :
  lastCheckedEpochEnd c <= u -> Forall (fun e' => u < e') l -> pruned_to u c c1 -> checked_to l c1 c2 -> checked_to (u :: l) c c2.
Proof.
  intros Hu Hl Hp Hc. unfold checked_to in *. rewrite last_cons. destruct (list.last l) as [u2|] eqn:Hlast.
  - eapply pruned_to_trans; [|exact Hp|exact Hc]. split; [done|].
    apply (proj1 (list.Forall_forall _ l) Hl u2). by apply last_Some_elem_of.
  - destruct Hc as (T1 & T2 & T3 & T4). destruct Hp. split; [by rewrite T4|by rewrite T1|by rewrite T2|by rewrite T3].
Qed.

(** The total over a list of epochs that ends in a violation or not. *)
Definition violation c (l : list Z) : Prop := exists l1 e l2, l = l1 ++ e :: l2 /\ unaccounted forced flt c e l1.

Lemma violation_nil c : ~ violation c [].
Proof. by intros ([] & e & l2 & Hl & _). Qed.

Lemma violation_cons u l c c1 :
  lastCheckedEpochEnd c <= u -> Forall (fun e' => u < e') l -> pruned_to u c c1 ->
  violation c (u :: l) <-> unaccounted forced flt c u [] \/ violation c1 l.
Proof.
  intros Hu Hl Hp. split.
  - intros ([|u' l1] & e & l2 & Heq & Hx); simpl in Heq; [injection Heq as <- <-; by left|injection Heq as <- ->]. right. exists l1, e, l2. split; [done|].
    apply Forall_app in Hl as [Hl1 _]. by apply (unaccounted_step u c c1 e l1 Hu Hl1 Hp).
  - intros [Hx|(l1 & e & l2 & -> & Hx)]; [by exists [], u, l|]. exists (u :: l1), e, l2. split; [done|].
    apply Forall_app in Hl as [Hl1 _]. by apply (unaccounted_step u c c1 e l1 Hu Hl1 Hp).
Qed.

Lemma check_epochs_spec size dah g fuel e count c :
  oracle_inv c -> 0 < size -> size - 1 <= e -> lastCheckedEpochEnd c < e -> e <= dah + size -> dah + 6 * size < two64 ->
  (0 < fuel)%nat -> dah - e <= (Z.of_nat fuel - 1) * size ->
  wp (check_epochs fuel size dah g e count) (fun r c' =>
    oracle_inv c' /\ checked_to (due fuel (daBlockBytes c) size dah e) c c' /\
    exists n, r = Ok (Some (count + n)) /\ 0 <= n /\ (0 < n <-> violation c (due fuel (daBlockBytes c) size dah e))) c.
Proof.
  revert e count c. induction fuel as [|fuel IH]; intros e count c Hi Hs He Hlt Hed Hb Hpos Hf; [lia|].
  cbn [check_epochs due]. wp_read. rewrite (sub64_small size 1), (sub64_small e (size - 1)) by lia.
  pose proof (grace_bounds (daBlockBytes c) (e - (size - 1)) e) as Hg.
  set (gp := gracePeriodForEpoch (daBlockBytes c) (e - (size - 1)) e) in *.
  rewrite (mul64_small gp size), (add64_small e (gp * size)) by nia.
  destruct (Z.leb_spec dah (e + gp * size)) as [Hle|Hgt].
  { apply wp_ret. split; [done|]. split; [done|]. exists 0. split; [by rewrite Z.add_0_r|]. split; [lia|].
    split; [lia|]. intros Hv. by apply violation_nil in Hv. }
  set (l := due fuel (daBlockBytes c) size dah (e + size)).
  assert (Hl : Forall (fun e' => e < e') l).
  { eapply list.Forall_impl; [by apply due_above|]. simpl. lia. }
  (* The rest of the loop, once the epoch is checked. *)
  assert (Hrest : forall c1 n0, oracle_inv c1 -> same_tracking c c1 -> 0 <= n0 ->
    (0 < n0 <-> unaccounted forced flt c e []) ->
    wp (_ ← modify (prune_if_new e); check_epochs fuel size dah g (add64 e size) (count + n0)) (fun r c' =>
      oracle_inv c' /\ checked_to (e :: l) c c' /\
      exists n, r = Ok (Some (count + n)) /\ 0 <= n /\ (0 < n <-> violation c (e :: l))) c1).
  { intros c1 n0 Hi1 Ht Hn0 Hun. apply wp_bind, wp_modify. rewrite add64_small by lia.
    unfold prune_if_new. rewrite (proj2 (proj2 (proj2 Ht))). destruct (Z.ltb_spec (lastCheckedEpochEnd c) e); [|lia].
    assert (Hp1 : pruned_to e c1 (pruneUpTo e c1)) by (apply pruneUpTo_spec; destruct Ht as (_ & _ & _ & ->); lia).
    assert (Hp : pruned_to e c (pruneUpTo e c1)) by (by eapply same_tracking_pruned).
    assert (Hbytes : due fuel (daBlockBytes (pruneUpTo e c1)) size dah (e + size) = l).
    { apply (due_ext _ _ _ _ _ e); [done|lia|]. apply (pt_bytes _ _ _ Hp). }
    assert (Hi2 : oracle_inv (pruneUpTo e c1)).
    { destruct (prune_heights_spec (z_range (lastCheckedEpochEnd c1) e) c1 (NoDup_z_range _ _)) as (E1 & E2 & _).
      unfold oracle_inv, pruneUpTo. simpl. by rewrite E1, E2. }
    eapply wp_mono; [apply IH; try done; try nia; rewrite (pt_last _ _ _ Hp); lia|]. rewrite Hbytes.
    intros r c' (Hi' & Hck & n & -> & Hn & Hv). split; [done|].
    split; [eapply checked_to_cons; [lia|done|exact Hp|exact Hck]|].
    exists (n0 + n). split; [do 2 f_equal; lia|]. split; [lia|].
    rewrite (violation_cons e l c _ ltac:(lia) Hl Hp), <- Hun, <- Hv. lia. }
  apply wp_bind, wp_attempt. eapply wp_mono; [by apply check_retrieve_spec|]. intros r c1 (Hi1 & Ht1 & ev & -> & Hev).
  rewrite Hev. destruct (Z.eqb_spec (zlen (forced e)) 0) as [Hz|Hz].
  - specialize (Hrest c1 0 Hi1 Ht1 ltac:(lia)). rewrite Z.add_0_r in Hrest. apply Hrest. split; [lia|].
    intros (i & tx & Htx & _). destruct (forced e); [done|]. unfold zlen in Hz. simpl in Hz. lia.
  - apply wp_bind. eapply wp_mono; [by apply check_filter_spec|]. intros r c2 (Hi2 & Ht2 & ->). cbn beta iota. wp_read.
    apply wp_bind, wp_lift_res.
    destruct (count_missing_spec (seenBlockTxs c2) (forced e) (flt (forced e)) (co_length _ _ _ _ Horacle _)) as (n & -> & Hn & Hiff).
    assert (Ht : same_tracking c c2).
    { destruct Ht1 as (? & ? & ? & ?), Ht2 as (? & ? & ? & ?). split_and!; congruence. }
    apply (Hrest c2 n Hi2 Ht Hn). rewrite Hiff. unfold unaccounted. rewrite (proj1 Ht).
    split; intros (i & tx & Htx & Hst & Hx); exists i, tx; (split; [done|split; [done|]]); [by left|].
    destruct Hx as [|(? & ? & ?%not_elem_of_nil & _)]; done.
Qed.

End loop.

(** ** The check *)

Lemma due_complete fuel b size dah e k :
  0 < size -> 0 <= k -> e + k * size + 4 * size < dah -> dah - e <= (Z.of_nat fuel - 1) * size -> (0 < fuel)%nat ->
  e + k * size ∈ due fuel b size dah e.
Proof.
  intros Hs. revert e k. induction fuel as [|fuel IH]; intros e k Hk Hd Hf Hp; [lia|]. cbn [due].
  pose proof (grace_bounds b (e - (size - 1)) e) as Hg.
  destruct (Z.leb_spec dah (e + gracePeriodForEpoch b (e - (size - 1)) e * size)); [nia|].
  destruct (Z.eq_dec k 0) as [->|Hk0]; [rewrite Z.mul_0_l, Z.add_0_r; left|]. right.
  replace (e + k * size) with ((e + size) + (k - 1) * size) by ring. apply IH; nia.
Qed.

Lemma due_sound fuel b size dah e x :
  0 < size -> x ∈ due fuel b size dah e ->
  (exists k, 0 <= k /\ x = e + k * size) /\ x + gracePeriodForEpoch b (x - (size - 1)) x * size < dah.
Proof.
  intros Hs. revert e. induction fuel as [|fuel IH]; intros e Hx; [by apply not_elem_of_nil in Hx|]. cbn [due] in Hx.
  destruct (Z.leb_spec dah (e + gracePeriodForEpoch b (e - (size - 1)) e * size)); [by apply not_elem_of_nil in Hx|].
  apply elem_of_cons in Hx as [->|Hx].
  - split; [exists 0; lia|lia].
  - destruct (IH _ Hx) as [(k & Hk & ->) Hlt]. split; [exists (k + 1); lia|done].
Qed.

(** The tracking fields of a node, and the height it looks at. *)
Record check_ready (g : ChainGenesis) (stateDA dah : Z) c : Prop := {
  cr_size : 0 < g_DAEpochForcedInclusion g;
  cr_start : 0 <= g_DAStartHeight g <= dah /\ 0 < g_DAStartHeight g + g_DAEpochForcedInclusion g - 1;
  cr_state : stateDA <= dah;
  cr_last : 0 <= lastCheckedEpochEnd c <= dah;
  cr_range : dah + 6 * g_DAEpochForcedInclusion g < two64 }.

Lemma startEpochEnd_spec g stateDA dah c :
  check_ready g stateDA dah c ->
  let size := g_DAEpochForcedInclusion g in let e := startEpochEnd g (lastCheckedEpochEnd c) in
  size - 1 <= e /\ lastCheckedEpochEnd c < e /\ e <= dah + size.
Proof.
  intros [Hs Ha Hd Hl Hr]. simpl. unfold startEpochEnd. rewrite (add64_small (g_DAStartHeight g)), sub64_small, add64_small by lia.
  destruct (Z.eqb_spec (lastCheckedEpochEnd c) 0), (Z.ltb_spec (lastCheckedEpochEnd c) (g_DAStartHeight g + g_DAEpochForcedInclusion g - 1));
    simpl; lia.
Qed.


End facts.
