(* ===== verification/Syncer.v ===== *)
(** * The syncer ([block/internal/syncing/syncer.go])

    A full node turns height events, which the DA layer, the P2P network and
    raft deliver in any order, into the chain of its store. The record [Syncer]
    has the fields of the Go struct; the store is the one of the cache manager,
    the executor and the forced inclusion retriever are those of the check, and
    the private fields of the DA retriever are [retr_state], since it shares
    the cache. A context that may be done is a question to the environment
    [env_done], which is also what decides between two ready cases of a
    [select]. *)

From S2P Require Import Prelude Sha256 Datastore Types Serialization Validation Store StoreFacts StoreAPI.
From S2P Require Import BlockCache Pending CacheManager DAClient Batching ForcedInclusion Sequencing Execution Replayer.
From S2P Require Import ForcedCheck PriorityHeights DARetriever.
From stdpp Require Import base gmap strings list numbers.
Open Scope Z_scope.

(** [common.DataHashForEmptyTxs] and [common.MaxRetriesBeforeHalt]. *)
Definition DataHashForEmptyTxs : bytes := Submitter.DataHashForEmptyTxs.
Definition MaxRetriesBeforeHalt : nat := Submitter.MaxRetriesBeforeHalt.

Definition heightInCap : nat := 100.
Definition daHintMaxDrift : Z := 200.

(** ** Errors *)

Inductive ValidationFault := FaultHeader | FaultData.

(** What [ValidateBlock] returns: a [BlockValidationError] joined with
    [errInvalidBlock], or an error joined with [errInvalidState]. *)
Inductive validation_error :=
| VFault (fault : ValidationFault) (e : terror)
| VState (e : terror).

Inductive sync_error :=
| SyInvalid (e : validation_error)
| SyMalicious (count : Z)
| SyStore (e : store_error)
| SyCache (e : cache_error)
| SyExec (msg : string)
| SyReplay (e : replay_error)
| SyTypes (e : terror)
| SyDA (e : dr_error)
| SyMsg (msg : string)
| SyCanceled
| SyPanic.

(** ** State *)

(** The private fields of the DA retriever. *)
Record retr_state (PK W : Type) := MkRetr
  { rs_client : client W;
    rs_headerNamespace : bytes;
    rs_dataNamespace : bytes;
    rs_pendingHeaders : gmap Z (SignedHeader PK);
    rs_pendingData : gmap Z Data;
    rs_strictMode : bool }.
Arguments MkRetr {PK W}.
Arguments rs_client {PK W}.
Arguments rs_headerNamespace {PK W}.
Arguments rs_dataNamespace {PK W}.
Arguments rs_pendingHeaders {PK W}.
Arguments rs_pendingData {PK W}.
Arguments rs_strictMode {PK W}.

(** Time and cancellation. *)
Class SyncEnv (V : Type) := {
  env_now : V -> Z * V;
  env_done : V -> bool * V
}.

Definition provider : Type := option (Header -> Data -> res unit bytes).

Record Syncer (ST PK W F EX V : Type) (C : Type -> Type) := MkSyncer
  { s_mgr : Manager ST PK C;
    s_genesis : ChainGenesis;
    (** [config.DA.StartHeight]. *)
    s_configStart : Z;
    (** [options.SyncNodeSignatureBytesProvider]. *)
    s_provider : provider;
    s_lastState : option State;
    s_daRetrieverHeight : Z;
    (** [headerStore.Height()], unless the store is nil. *)
    s_headerStore : option Z;
    s_heightInCh : list (DAHeightEvent PK);
    s_errorCh : option (nat * list sync_error);
    s_hasCriticalError : bool;
    s_retriever : option (retr_state PK W);
    (** The queue of the DA follower, unless it is nil. *)
    s_follower : option (list Z);
    s_check : ForcedCheck F EX;
    (** The processed height of the P2P handler, unless it is nil. *)
    s_p2p : option Z;
    (** The height a P2P wait that can be cancelled is for. *)
    s_p2pWait : option Z;
    (** The package variables of [types/state.go]. *)
    s_tracking : SeqTracking;
    s_env : V }.
Arguments MkSyncer {ST PK W F EX V C}.
Arguments s_mgr {ST PK W F EX V C}.
Arguments s_genesis {ST PK W F EX V C}.
Arguments s_configStart {ST PK W F EX V C}.
Arguments s_provider {ST PK W F EX V C}.
Arguments s_lastState {ST PK W F EX V C}.
Arguments s_daRetrieverHeight {ST PK W F EX V C}.
Arguments s_headerStore {ST PK W F EX V C}.
Arguments s_heightInCh {ST PK W F EX V C}.
Arguments s_errorCh {ST PK W F EX V C}.
Arguments s_hasCriticalError {ST PK W F EX V C}.
Arguments s_retriever {ST PK W F EX V C}.
Arguments s_follower {ST PK W F EX V C}.
Arguments s_check {ST PK W F EX V C}.
Arguments s_p2p {ST PK W F EX V C}.
Arguments s_p2pWait {ST PK W F EX V C}.
Arguments s_tracking {ST PK W F EX V C}.
Arguments s_env {ST PK W F EX V C}.

Section syncer.
Context {ST PK W F EX V : Type} {C : Type -> Type}.
Context `{BlockStore ST PK} `{LRU C} `{MapOrder} `{BlobRPC W} `{HeaderOrder PK} `{FISource F} `{Executor EX} `{Execution EX}.
Context `{FloatConversion} `{SyncEnv V} `{PubKeys PK} `{Wire} `{HashText}.
Context `{ProtoMsg pbVersion, ProtoMsg pbHeader, ProtoMsg pbSignedHeader, ProtoMsg pbMetadata, ProtoMsg pbData,
          ProtoMsg pbSignedData, ProtoMsg pbDAHeaderEnvelope}.
Abbreviation S := (Syncer ST PK W F EX V C).
Abbreviation event := (DAHeightEvent PK).

Definition SM (A : Type) : Type := M S sync_error A.

Definition set_s_mgr x (s : S) : S :=
  MkSyncer x (s_genesis s) (s_configStart s) (s_provider s) (s_lastState s) (s_daRetrieverHeight s)
    (s_headerStore s) (s_heightInCh s) (s_errorCh s) (s_hasCriticalError s) (s_retriever s) (s_follower s)
    (s_check s) (s_p2p s) (s_p2pWait s) (s_tracking s) (s_env s).
Definition set_s_lastState x (s : S) : S :=
  MkSyncer (s_mgr s) (s_genesis s) (s_configStart s) (s_provider s) x (s_daRetrieverHeight s) (s_headerStore s)
    (s_heightInCh s) (s_errorCh s) (s_hasCriticalError s) (s_retriever s) (s_follower s) (s_check s) (s_p2p s)
    (s_p2pWait s) (s_tracking s) (s_env s).
Definition set_s_daRetrieverHeight x (s : S) : S :=
  MkSyncer (s_mgr s) (s_genesis s) (s_configStart s) (s_provider s) (s_lastState s) x (s_headerStore s)
    (s_heightInCh s) (s_errorCh s) (s_hasCriticalError s) (s_retriever s) (s_follower s) (s_check s) (s_p2p s)
    (s_p2pWait s) (s_tracking s) (s_env s).
Definition set_s_heightInCh x (s : S) : S :=
  MkSyncer (s_mgr s) (s_genesis s) (s_configStart s) (s_provider s) (s_lastState s) (s_daRetrieverHeight s)
    (s_headerStore s) x (s_errorCh s) (s_hasCriticalError s) (s_retriever s) (s_follower s) (s_check s) (s_p2p s)
    (s_p2pWait s) (s_tracking s) (s_env s).
Definition set_s_errorCh x (s : S) : S :=
  MkSyncer (s_mgr s) (s_genesis s) (s_configStart s) (s_provider s) (s_lastState s) (s_daRetrieverHeight s)
    (s_headerStore s) (s_heightInCh s) x (s_hasCriticalError s) (s_retriever s) (s_follower s) (s_check s) (s_p2p
    s) (s_p2pWait s) (s_tracking s) (s_env s).
Definition set_s_hasCriticalError x (s : S) : S :=
  MkSyncer (s_mgr s) (s_genesis s) (s_configStart s) (s_provider s) (s_lastState s) (s_daRetrieverHeight s)
    (s_headerStore s) (s_heightInCh s) (s_errorCh s) x (s_retriever s) (s_follower s) (s_check s) (s_p2p s)
    (s_p2pWait s) (s_tracking s) (s_env s).
Definition set_s_retriever x (s : S) : S :=
  MkSyncer (s_mgr s) (s_genesis s) (s_configStart s) (s_provider s) (s_lastState s) (s_daRetrieverHeight s)
    (s_headerStore s) (s_heightInCh s) (s_errorCh s) (s_hasCriticalError s) x (s_follower s) (s_check s) (s_p2p s)
    (s_p2pWait s) (s_tracking s) (s_env s).
Definition set_s_follower x (s : S) : S :=
  MkSyncer (s_mgr s) (s_genesis s) (s_configStart s) (s_provider s) (s_lastState s) (s_daRetrieverHeight s)
    (s_headerStore s) (s_heightInCh s) (s_errorCh s) (s_hasCriticalError s) (s_retriever s) x (s_check s) (s_p2p
    s) (s_p2pWait s) (s_tracking s) (s_env s).
Definition set_s_check x (s : S) : S :=
  MkSyncer (s_mgr s) (s_genesis s) (s_configStart s) (s_provider s) (s_lastState s) (s_daRetrieverHeight s)
    (s_headerStore s) (s_heightInCh s) (s_errorCh s) (s_hasCriticalError s) (s_retriever s) (s_follower s) x
    (s_p2p s) (s_p2pWait s) (s_tracking s) (s_env s).
Definition set_s_p2p x (s : S) : S :=
  MkSyncer (s_mgr s) (s_genesis s) (s_configStart s) (s_provider s) (s_lastState s) (s_daRetrieverHeight s)
    (s_headerStore s) (s_heightInCh s) (s_errorCh s) (s_hasCriticalError s) (s_retriever s) (s_follower s)
    (s_check s) x (s_p2pWait s) (s_tracking s) (s_env s).
Definition set_s_p2pWait x (s : S) : S :=
  MkSyncer (s_mgr s) (s_genesis s) (s_configStart s) (s_provider s) (s_lastState s) (s_daRetrieverHeight s)
    (s_headerStore s) (s_heightInCh s) (s_errorCh s) (s_hasCriticalError s) (s_retriever s) (s_follower s)
    (s_check s) (s_p2p s) x (s_tracking s) (s_env s).
Definition set_s_tracking x (s : S) : S :=
  MkSyncer (s_mgr s) (s_genesis s) (s_configStart s) (s_provider s) (s_lastState s) (s_daRetrieverHeight s)
    (s_headerStore s) (s_heightInCh s) (s_errorCh s) (s_hasCriticalError s) (s_retriever s) (s_follower s)
    (s_check s) (s_p2p s) (s_p2pWait s) x (s_env s).
Definition set_s_env x (s : S) : S :=
  MkSyncer (s_mgr s) (s_genesis s) (s_configStart s) (s_provider s) (s_lastState s) (s_daRetrieverHeight s)
    (s_headerStore s) (s_heightInCh s) (s_errorCh s) (s_hasCriticalError s) (s_retriever s) (s_follower s)
    (s_check s) (s_p2p s) (s_p2pWait s) (s_tracking s) x.

(** The parts. *)
Definition s_store (s : S) : ST := mgr_store (s_mgr s).
Definition set_s_store x (s : S) : S := set_s_mgr (set_mgr_store x (s_mgr s)) s.
Definition s_exec (s : S) : EX := fc_exec (s_check s).
Definition set_s_exec x (s : S) : S := set_s_check (set_fc_exec x (s_check s)) s.

Definition on_sy_store {A} (m : M ST store_error A) : SM A := zoom s_store set_s_store (wrap SyStore m).
Definition on_sy_exec {A} (m : M EX string A) : SM A := zoom s_exec set_s_exec (wrap SyExec m).
Definition on_env {A} (f : V -> A * V) : SM A := zoom s_env set_s_env (infallible f).
Definition modify_mgr (f : Manager ST PK C -> Manager ST PK C) : SM unit := modify (fun s => set_s_mgr (f (s_mgr s)) s).

Definition getLastState (s : S) : State :=
  default (MkState zero_version "" 0 0 zero_time None 0 None None) (s_lastState s).
Definition SetLastState (state : State) (s : S) : S := set_s_lastState (Some state) s.

Definition expectedProposerForHeight (s : S) (height : Z) : option slice :=
  let state := getLastState s in
  if negb (height =? add64 (LastBlockHeight state) 1) || (slen (NextProposerAddress state) =? 0) then None
  else Some (NextProposerAddress state).

Definition initialProposerAddress (s : S) : slice := cloneBytes (g_ProposerAddress (s_genesis s)).

Definition sendCriticalError (e : sync_error) (s : S) : S :=
  let s := set_s_hasCriticalError true s in
  match s_errorCh s with
  | None => s
  | Some (cap, l) => if Nat.ltb (length l) cap then set_s_errorCh (Some (cap, l ++ [e])) s else s
  end.

Definition PendingCount (inFlight : Z) (s : S) : Z :=
  Z.of_nat (length (s_heightInCh s)) + inFlight + Z.of_nat (PendingEventsCount (s_mgr s)).

(** ** The P2P wait *)

Definition setP2PWaitState (height : Z) (s : S) : S := set_s_p2pWait (Some height) s.
Definition cancelP2PWait (height : Z) (s : S) : S :=
  match s_p2pWait s with
  | Some h => if (height =? 0) || (h <=? height) then set_s_p2pWait None s else s
  | None => s
  end.

(** [P2PHandler.SetProcessedHeight]: the compare-and-swap succeeds in its first round. *)
Definition SetProcessedHeight (height : Z) (s : S) : S :=
  match s_p2p s with
  | Some current => if height <=? current then s else set_s_p2p (Some height) s
  | None => s
  end.

(** ** The DA retriever of the syncer *)

Definition retriever_of (r : retr_state PK W) (s : S) : daRetriever ST PK W C :=
  MkDARetriever (rs_client r) (rs_headerNamespace r) (rs_dataNamespace r) (s_mgr s) (rs_pendingHeaders r)
    (rs_pendingData r) (rs_strictMode r).
Definition put_retriever (d : daRetriever ST PK W C) (s : S) : S :=
  set_s_mgr (dr_cache d) (set_s_retriever (Some (MkRetr (dr_client d) (headerNamespace d) (dataNamespace d)
    (dr_pendingHeaders d) (dr_pendingData d) (strictMode d))) s).

(** A call of the retriever; there is none on a nil retriever. *)
Definition on_retriever {A} (m : M (daRetriever ST PK W C) dr_error A) : SM A := fun s =>
  match s_retriever s with
  | None => (Err SyPanic, s)
  | Some r => let '(a, d) := m (retriever_of r s) in (map_err SyDA a, put_retriever d s)
  end.

Definition removePendingDAData (ev : event) : SM unit :=
  if negb (bool_decide (ev_Source ev = SourceDA)) then mret tt else
  modify (fun s => match s_retriever s with
                   | Some r => put_retriever (removePendingData (Header_Height (sh_Header (ev_Header ev))) (retriever_of r s)) s
                   | None => s
                   end).

(** ** Validation *)

Definition sequence_error (e : terror) : validation_error :=
  match e with
  | ErrInvalidChainID | ErrInvalidBlockHeight | ErrInvalidBlockTime => VFault FaultHeader e
  | _ => VState e
  end.

(** The result, and the header with the verifier that was set on it. *)
Definition ValidateBlock (currState : State) (data : Data) (header : SignedHeader PK)
  : SM (res validation_error (SignedHeader PK)) :=
  p ← gets s_provider;
  let header := SetCustomVerifierForSyncNode p header in
  nw ← on_env env_now;
  match ValidateBasicWithData nw header data with
  | Err e => mret (Err (VFault FaultHeader e))
  | Ok _ =>
  match AssertExpectedProposer currState header with
  | Err e => mret (Err (VFault FaultHeader e))
  | Ok _ =>
  r ← attempt (zoom s_tracking set_s_tracking (AssertValidSequence currState header));
  match r with
  | Err e => mret (Err (sequence_error e))
  | Ok _ =>
  match Validation.Validate header data with
  | Err e => mret (Err (VFault FaultData e))
  | Ok _ => mret (Ok header)
  end end end end.

(** ** Execution *)

(** [attempts] are left. *)
Fixpoint execute_attempts (attempts : nat) (rawTxs : list bytes) (header : Header) (currentState : State)
  : SM ExecuteResult :=
  match attempts with
  | O => mret (MkExecuteResult None None)
  | Datatypes.S attempts' =>
      r ← attempt (on_sy_exec (ExecuteTxs rawTxs (Header_Height header) (Header_Time header) (st_AppHash currentState)));
      match r with
      | Ok result => mret result
      | Err e =>
          if Nat.eqb attempts' 0 then throw e else
          done ← on_env env_done;
          if (done : bool) then throw SyCanceled else execute_attempts attempts' rawTxs header currentState
      end
  end.
Definition executeTxsWithRetry := execute_attempts MaxRetriesBeforeHalt.

Definition ApplyBlock (header : Header) (data : Data) (currentState : State) : SM State :=
  result ← attempt (executeTxsWithRetry (data_txs data) header currentState);
  match result with
  | Err e => _ ← modify (sendCriticalError e); throw e
  | Ok result => mret (NextState currentState header (UpdatedStateRoot result) (res_NextProposer result))
  end.

(** ** The next block *)

Definition hashText (h : Header) : string := hash_String (sl (Header_Hash (Some h))).
Definition with_DAHeight (da : Z) (s : State) : State :=
  MkState (st_Version s) (st_ChainID s) (InitialHeight s) (LastBlockHeight s) (LastBlockTime s) (st_LastHeaderHash s) da
    (st_AppHash s) (NextProposerAddress s).

(** The forced inclusion check of a block from the DA layer; only an accusation
    stops the block. *)
Definition check_forced (ev : event) (headerHash : string) : SM unit :=
  if negb (bool_decide (ev_Source ev = SourceDA)) then mret tt else
  s ← gets id;
  r ← attempt (zoom s_check set_s_check
        (VerifyForcedInclusionTxs (Datatypes.S (Z.to_nat (ev_DaHeight ev))) (s_genesis s) (DAHeight (getLastState s))
           (ev_DaHeight ev) (ev_Data ev)));
  match r with
  | Err (CMalicious n) =>
      _ ← modify_mgr (RemoveHeaderDAIncluded headerHash);
      _ ← modify_mgr (RemoveDataDAIncluded (hash_String (DACommitment (ev_Data ev))));
      throw (SyMalicious n)
  | Err CPanic => throw SyPanic
  | _ => mret tt
  end.

(** Writing the block, its height and its state in one batch. *)
Definition commit_synced (header : SignedHeader PK) (data : Data) (newState : State) : SM unit :=
  batch ← on_sy_store st_NewBatch;
  batch ← on_sy_store (batch_SaveBlockData header data (sh_Signature header) batch);
  batch ← on_sy_store (batch_SetHeight (Header_Height (sh_Header header)) batch);
  batch ← on_sy_store (batch_UpdateState newState batch);
  on_sy_store (batch_Commit batch).

(** What follows a successful commit. *)
Definition mark_synced (ev : event) (header : SignedHeader PK) (headerHash : string) (newState : State) : SM unit :=
  let data := ev_Data ev in
  _ ← modify (SetLastState newState);
  _ ← modify_mgr (SetHeaderSeen headerHash (Header_Height (sh_Header header)));
  _ ← (if negb (bytes_eqb (sl (DataHash (sh_Header header))) DataHashForEmptyTxs)
       then modify_mgr (SetDataSeen (hash_String (DACommitment data)) (LastBlockHeight newState)) else mret tt);
  _ ← modify (SetProcessedHeight (LastBlockHeight newState));
  removePendingDAData ev.

Definition trySyncNextBlockWithState (ev : event) (currentState : State) : SM unit :=
  done ← on_env env_done;
  if (done : bool) then throw SyCanceled else
  let headerHash := hashText (sh_Header (ev_Header ev)) in
  v ← ValidateBlock currentState (ev_Data ev) (ev_Header ev);
  match v with
  | Err e =>
      _ ← match e with
          | VFault FaultHeader _ => modify_mgr (RemoveHeaderDAIncluded headerHash)
          | VFault FaultData _ => modify_mgr (RemoveDataDAIncluded (hash_String (DACommitment (ev_Data ev))))
          | VState _ => mret tt
          end;
      throw (SyInvalid e)
  | Ok header =>
      _ ← check_forced ev headerHash;
      newState ← ApplyBlock (sh_Header header) (ev_Data ev) currentState;
      let newState := if DAHeight newState <? ev_DaHeight ev then with_DAHeight (ev_DaHeight ev) newState else newState in
      _ ← commit_synced header (ev_Data ev) newState;
      mark_synced ev header headerHash newState
  end.

Definition TrySyncNextBlock (ev : event) : SM unit :=
  s ← gets id;
  trySyncNextBlockWithState ev (getLastState s).

(** ** Height events *)

Definition is_none {A} (o : option A) : bool := match o with None => true | Some _ => false end.

(** The DA heights that the hints of a P2P event point to and that are not known yet. *)
Definition hinted_heights (ev : event) (m : Manager ST PK C) : list Z :=
  let height := Header_Height (sh_Header (ev_Header ev)) in
  let '(h0, h1) := ev_DaHeightHints ev in
  let no_header := is_none (GetHeaderDAIncludedByHeight height m) in
  let no_data := is_none (GetDataDAIncludedByHeight height m) in
  if (h0 =? 0) && (h1 =? 0) then []
  else if h0 =? 0 then (if no_data then [h1] else [])
  else if h1 =? 0 then (if no_header then [h0] else [])
  else
    let l := (if no_header then [h0] else []) ++ (if no_data then [h1] else []) in
    match l with [a; b] => if a =? b then [a] else l | _ => l end.

(** The latest DA height, when a hint is far ahead and the height can be had. *)
Definition validation_height (hints : list Z) : SM (option Z) := fun s =>
  match s_retriever s with
  | None => (Ok None, s)
  | Some r =>
      if existsb (fun h => add64 (s_daRetrieverHeight s) daHintMaxDrift <? h) hints then
        let '(a, c) := GetLatestDAHeight (rs_client r) in
        (Ok (match a with Ok h => Some h | Err _ => None end),
         set_s_retriever (Some (MkRetr c (rs_headerNamespace r) (rs_dataNamespace r) (rs_pendingHeaders r)
           (rs_pendingData r) (rs_strictMode r))) s)
      else (Ok None, s)
  end.

Definition queue_hint (latest : option Z) (daHeightHint : Z) : SM unit :=
  modify (fun s =>
    if daHeightHint <? s_daRetrieverHeight s then s else
    if match latest with Some l => l <? daHeightHint | None => false end then s else
    match s_follower s with
    | Some q => set_s_follower (Some (QueuePriorityHeight daHeightHint q)) s
    | None => s
    end).

Definition follow_hints (ev : event) : SM unit :=
  s ← gets id;
  if bool_decide (ev_Source ev = SourceP2P) && negb (is_none (s_follower s)) then
    let hints := hinted_heights ev (s_mgr s) in
    if (length hints =? 0)%nat then mret tt else
    latest ← validation_height hints;
    for_each hints (queue_hint latest)
  else mret tt.

(** The hash of the last data, for empty data from the DA layer; reading it
    through nil metadata is a panic. *)
Definition fill_last_data_hash (ev : event) (currentHeight : Z) : SM (option event) :=
  if bool_decide (ev_Source ev = SourceDA) && bytes_eqb (sl (DataHash (sh_Header (ev_Header ev)))) DataHashForEmptyTxs
     && (0 <? currentHeight) then
    r ← attempt (on_sy_store (st_GetBlockData currentHeight));
    match r with
    | Err _ => mret None
    | Ok (_, lastData) =>
        match d_Metadata (ev_Data ev) with
        | None => throw SyPanic
        | Some m =>
            let data := MkData (Some (MkMetadata (m_ChainID m) (m_Height m) (m_Time m) (Some (Data_Hash lastData))))
                               (Txs (ev_Data ev)) in
            mret (Some (MkEvent (ev_Header ev) data (ev_DaHeight ev) (ev_Source ev) (ev_DaHeightHints ev)))
        end
    end
  else mret (Some ev).

Definition processHeightEvent (ev : event) : SM unit :=
  let height := Header_Height (sh_Header (ev_Header ev)) in
  let headerHash := hashText (sh_Header (ev_Header ev)) in
  r ← attempt (on_sy_store st_Height);
  match r with
  | Err _ => mret tt
  | Ok currentHeight =>
      s ← gets id;
      if (height <=? currentHeight) || IsHeaderSeen headerHash (s_mgr s) then removePendingDAData ev else
      if negb (height =? add64 currentHeight 1) then modify_mgr (SetPendingEvent height ev) else
      _ ← follow_hints ev;
      filled ← fill_last_data_hash ev currentHeight;
      match filled with
      | None => mret tt
      | Some ev =>
          _ ← modify (cancelP2PWait height);
          r ← attempt (TrySyncNextBlock ev);
          match r with
          | Ok _ => mret tt
          | Err e =>
              s ← gets id;
              match e with
              | SyPanic => throw SyPanic
              | SyInvalid (VFault _ _) => mret tt
              | _ =>
                  if s_hasCriticalError s then mret tt else
                  match e with
                  | SyMalicious _ => modify (sendCriticalError e)
                  | SyInvalid (VState _) => modify (sendCriticalError e)
                  | _ => modify_mgr (SetPendingEvent height ev)
                  end
              end
          end
      end
  end.

(** ** Queues *)

(** An iteration of [processLoop]: nothing happens on an empty channel. *)
Definition process_next : SM unit :=
  s ← gets id;
  match s_heightInCh s with
  | [] => mret tt
  | ev :: rest => _ ← modify (set_s_heightInCh rest); processHeightEvent ev
  end.

(** Sending to the channel without waiting. *)
Definition try_send (ev : event) : SM bool := fun s =>
  if Nat.ltb (length (s_heightInCh s)) heightInCap then (Ok true, set_s_heightInCh (s_heightInCh s ++ [ev]) s) else (Ok false, s).

Definition PipeEvent (ev : event) : SM unit :=
  s ← gets id;
  if IsHeaderSeen (hashText (sh_Header (ev_Header ev))) (s_mgr s) then mret tt else
  done ← on_env env_done;
  if (done : bool) then
    _ ← modify_mgr (SetPendingEvent (Header_Height (sh_Header (ev_Header ev))) ev);
    throw SyCanceled
  else
    sent ← try_send ev;
    if (sent : bool) then mret tt else modify_mgr (SetPendingEvent (Header_Height (sh_Header (ev_Header ev))) ev).

(** The loop of [processPendingEvents], with the number of pending events as
    fuel: each round takes one out or ends. *)
Fixpoint pending_loop (fuel : nat) (nextHeight : Z) : SM unit :=
  match fuel with
  | O => mret tt
  | Datatypes.S fuel' =>
      s ← gets id;
      match GetNextPendingEvent nextHeight (s_mgr s) with
      | (None, _) => mret tt
      | (Some ev, m) =>
          _ ← modify (set_s_mgr m);
          done ← on_env env_done;
          if (done : bool) then modify_mgr (SetPendingEvent nextHeight ev) else
          sent ← try_send (MkEvent (ev_Header ev) (ev_Data ev) (ev_DaHeight ev) (ev_Source ev) (0, 0));
          if (sent : bool) then pending_loop fuel' (add64 nextHeight 1)
          else modify_mgr (SetPendingEvent nextHeight ev)
      end
  end.

Definition processPendingEvents : SM unit :=
  r ← attempt (on_sy_store st_Height);
  match r with
  | Err _ => mret tt
  | Ok currentHeight =>
      s ← gets id;
      pending_loop (Datatypes.S (PendingEventsCount (s_mgr s))) (add64 currentHeight 1)
  end.

(** ** Start *)

Definition with_proposer (p : slice) (s : State) : State :=
  MkState (st_Version s) (st_ChainID s) (InitialHeight s) (LastBlockHeight s) (LastBlockTime s) (st_LastHeaderHash s)
    (DAHeight s) (st_AppHash s) p.

(** The stored state, or the state of a new chain. *)
Definition load_or_init : SM State :=
  r ← attempt (on_sy_store st_GetState);
  match r with
  | Ok state => mret state
  | Err _ =>
      s ← gets id;
      let g := s_genesis s in
      stateRoot ← on_sy_exec (InitChain (g_StartTime g) (g_InitialHeight g) (g_ChainID g));
      mret (MkState zero_version (g_ChainID g) (g_InitialHeight g) (sub64 (g_InitialHeight g) 1) (g_StartTime g) None
              (g_DAStartHeight g) stateRoot (initialProposerAddress s))
  end.

(** The last epoch end that is behind the DA height of the state. *)
Definition initial_checked_epoch (g : ChainGenesis) (daHeight last : Z) : Z :=
  let epochSize := g_DAEpochForcedInclusion g in
  if (0 <? epochSize) && (g_DAStartHeight g <=? daHeight) then
    let firstEpochEnd := (g_DAStartHeight g + epochSize - 1)%u64 in
    if firstEpochEnd <=? daHeight then
      let elapsed := sub64 daHeight firstEpochEnd in
      let completedEpochs := elapsed / epochSize in
      add64 firstEpochEnd (mul64 completedEpochs epochSize)
    else last
  else last.

Definition start_da_height (s : S) (state : State) : Z :=
  let g := s_genesis s in
  let daHeight := g_DAStartHeight g in
  let daHeight := if g_DAStartHeight g <? DAHeight state then Z.max daHeight (sub64 (DAHeight state) 1) else daHeight in
  let daHeight := match s_headerStore s with
                  | Some h => if LastBlockHeight state <? h then Z.max daHeight (DaHeight (s_mgr s)) else daHeight
                  | None => daHeight
                  end in
  if 0 <? s_configStart s then s_configStart s else daHeight.

Definition on_replayer (m : M (Replayer ST EX) replay_error unit) : SM unit :=
  zoom (fun s => MkReplayer (s_store s) (s_exec s) (s_genesis s))
       (fun r s => set_s_exec (rp_exec r) (set_s_store (rp_store r) s)) (wrap SyReplay m).

(** Writing the state and its height. *)
Definition persist_start (state : State) : SM unit :=
  batch ← on_sy_store st_NewBatch;
  batch ← on_sy_store (batch_SetHeight (LastBlockHeight state) batch);
  batch ← on_sy_store (batch_UpdateState state batch);
  on_sy_store (batch_Commit batch).

Definition initializeState : SM unit :=
  state ← load_or_init;
  s ← gets id;
  let state := if slen (NextProposerAddress state) =? 0 then with_proposer (initialProposerAddress s) state else state in
  if negb (DAHeight state =? 0) && (DAHeight state <? g_DAStartHeight (s_genesis s))
  then throw (SyMsg "DA height is lower than DA start height") else
  _ ← persist_start state;
  _ ← modify (SetLastState state);
  _ ← modify (fun s => set_s_check (set_lastCheckedEpochEnd
        (initial_checked_epoch (s_genesis s) (DAHeight state) (lastCheckedEpochEnd (s_check s))) (s_check s)) s);
  _ ← modify (fun s => set_s_daRetrieverHeight (start_da_height s state) s);
  on_replayer (SyncToHeight (LastBlockHeight state)).

(** ** Raft *)

Record RaftBlockState := MkRaftBlockState
  { rb_Height : Z;
    rb_LastSubmittedDaHeaderHeight : Z;
    rb_LastSubmittedDaDataHeight : Z;
    rb_Hash : slice;
    rb_Timestamp : Z;
    rb_Header : bytes;
    rb_Data : bytes }.

Definition IsSyncedWithRaft (raftState : RaftBlockState) : SM Z :=
  state ← on_sy_store st_GetState;
  let diff := i64 (to_i64 (LastBlockHeight state) - to_i64 (rb_Height raftState)) in
  if negb (diff =? 0) then mret diff else
  if rb_Height raftState =? 0 then mret 0 else
  header ← on_sy_store (st_GetHeader (rb_Height raftState));
  if slice_equal (Header_Hash (Some (sh_Header header))) (rb_Hash raftState) then mret 0
  else throw (SyMsg "header hash mismatch").

Definition decode_raft_block (raftState : RaftBlockState) : res sync_error (SignedHeader PK * Data) :=
  match SignedHeader_UnmarshalBinary (rb_Header raftState) SignedHeader_New with
  | (Err e, _) => Err (SyTypes e)
  | (Ok _, header) =>
      match Data_UnmarshalBinary (rb_Data raftState) Data_New with
      | (Err e, _) => Err (SyTypes e)
      | (Ok _, data) => Ok (header, data)
      end
  end.

Definition recovery_state : SM State :=
  s ← gets id;
  let currentState := getLastState s in
  if negb (bool_decide (st_ChainID currentState = ""%string)) then mret currentState else
  r ← attempt (on_sy_store st_GetState);
  match r with
  | Ok st => mret st
  | Err _ =>
      let g := s_genesis s in
      mret (MkState zero_version (g_ChainID g) (g_InitialHeight g) (sub64 (g_InitialHeight g) 1) zero_time None 0 None None)
  end.

Definition RecoverFromRaft (raftState : RaftBlockState) : SM unit :=
  block ← lift_res (decode_raft_block raftState);
  let '(header, data) := block in
  currentState ← recovery_state;
  if LastBlockHeight currentState =? rb_Height raftState then
    if slice_equal (st_LastHeaderHash currentState) (rb_Hash raftState) then mret tt
    else throw (SyMsg "header hash mismatch")
  else if add64 (LastBlockHeight currentState) 1 =? rb_Height raftState then
    trySyncNextBlockWithState (MkEvent header data 0 SourceRaft (0, 0)) currentState
  else if rb_Height raftState <? LastBlockHeight currentState then
    localHeader ← on_sy_store (st_GetHeader (rb_Height raftState));
    if slice_equal (Header_Hash (Some (sh_Header localHeader))) (rb_Hash raftState) then mret tt
    else throw (SyMsg "local state diverged from raft")
  else mret tt.

End syncer.
