(* ===== verification/SyncFlow.v ===== *)
(** * Where the syncer's events come from

    The handler of the DA follower ([block/internal/syncing/da_follower.go]),
    the P2P handler ([p2p_handler.go]) with the worker that drives it, and the
    raft retriever ([raft_retriever.go]). They all end in the queue of the
    syncer. *)

From S2P Require Import Prelude Sha256 Datastore Types Serialization Validation Store StoreFacts StoreAPI.
From S2P Require Import BlockCache Pending CacheManager DAClient Batching ForcedInclusion Sequencing Execution Replayer.
From S2P Require Import ForcedCheck PriorityHeights DARetriever Syncer.
From stdpp Require Import base gmap strings list numbers.
Open Scope Z_scope.

(** The header and data stores of the P2P network (go-header), which deliver
    headers and data with the DA height hints of their envelopes. *)
Class P2PStores (P PK : Type) := {
  p2p_GetHeader : Z -> M P sync_error (SignedHeader PK * Z);
  p2p_GetData : Z -> M P sync_error (Data * Z)
}.

Section flow.
Context {ST PK W F EX V P : Type} {C : Type -> Type}.
Context `{BlockStore ST PK} `{LRU C} `{MapOrder} `{BlobRPC W} `{HeaderOrder PK} `{FISource F} `{Executor EX} `{Execution EX}.
Context `{FloatConversion} `{SyncEnv V} `{PubKeys PK} `{Wire} `{HashText} `{P2PStores P PK}.
Context `{ProtoMsg pbVersion, ProtoMsg pbHeader, ProtoMsg pbSignedHeader, ProtoMsg pbMetadata, ProtoMsg pbData,
          ProtoMsg pbSignedData, ProtoMsg pbDAHeaderEnvelope}.
Abbreviation S := (Syncer ST PK W F EX V C).
Abbreviation event := (DAHeightEvent PK).
#[local] Abbreviation SM := (M S sync_error).

(** ** The DA follower *)

(** The retriever asks the syncer for the expected proposer. *)
Definition sy_RetrieveFromDA (daHeight : Z) : SM (list event) :=
  s ← gets id;
  on_retriever (RetrieveFromDA (expectedProposerForHeight s) daHeight).
Definition sy_ProcessBlobs (blobs : list bytes) (daHeight : Z) : SM (list event) :=
  s ← gets id;
  on_retriever (ProcessBlobs (expectedProposerForHeight s) blobs daHeight).

Definition fetchAndPipeHeight (daHeight : Z) : SM unit :=
  events ← attempt (sy_RetrieveFromDA daHeight);
  match events with
  | Err (SyDA DRBlobNotFound) => mret tt
  | Err e => throw e
  | Ok events => for_each events PipeEvent
  end.

Definition HandleEvent (height : Z) (blobs : list bytes) (isInline : bool) : SM unit :=
  if negb isInline then mret tt else
  if zlen blobs =? 0 then throw (SyMsg "skip inline: no blobs") else
  events ← sy_ProcessBlobs blobs height;
  if zlen events =? 0 then throw (SyMsg "skip inline: no complete events")
  else for_each events PipeEvent.

Definition pop_priority : SM Z := fun s =>
  match s_follower s with
  | Some q => let '(h, q') := popPriorityHeight q in (Ok h, set_s_follower (Some q') s)
  | None => (Ok 0, s)
  end.

(** The priority loop: every round takes a height out of the queue, whose
    length is the fuel. *)
Fixpoint drain_priority (fuel : nat) (daHeight : Z) : SM unit :=
  match fuel with
  | O => mret tt
  | Datatypes.S fuel' =>
      priorityHeight ← pop_priority;
      if priorityHeight =? 0 then mret tt else
      if priorityHeight <? daHeight then drain_priority fuel' daHeight else
      r ← attempt (fetchAndPipeHeight priorityHeight);
      match r with
      | Ok _ => mret tt
      | Err (SyDA DRHeightFromFuture) => drain_priority fuel' daHeight
      | Err e => throw e
      end
  end.

Definition HandleCatchup (daHeight : Z) : SM unit :=
  s ← gets id;
  _ ← drain_priority (Datatypes.S (length (default [] (s_follower s)))) daHeight;
  fetchAndPipeHeight daHeight.

(** ** The P2P handler *)

Definition on_p2p {A} (m : M P sync_error A) : M (S * P) sync_error A := zoom snd (fun p sp => (sp.1, p)) m.
Definition on_syncer {A} (m : SM A) : M (S * P) sync_error A := zoom fst (fun s sp => (s, sp.2)) m.

(** Without a handler there is none to call. *)
Definition ProcessHeight (height : Z) : M (S * P) sync_error unit :=
  s ← gets fst;
  if height <=? default 0 (s_p2p s) then mret tt else
  h ← on_p2p (p2p_GetHeader height);
  let '(p2pHeader, headerHint) := h in
  if negb (Header_Height (sh_Header p2pHeader) =? height) then throw (SyMsg "header height mismatch") else
  d ← on_p2p (p2p_GetData height);
  let '(p2pData, dataHint) := d in
  dataHeight ← lift_res (map_err (fun _ => SyPanic) (Data_Height p2pData));
  if negb (dataHeight =? height) then throw (SyMsg "data height mismatch") else
  if negb (bytes_eqb (sl (DataHash (sh_Header p2pHeader))) (DACommitment p2pData)) then throw (SyMsg "data hash mismatch") else
  let header := match (MemoizeHash (Some (sh_Header p2pHeader))).2 with
                | Some h => set_sh_Header h p2pHeader
                | None => p2pHeader
                end in
  let ev := MkEvent header p2pData 0 SourceP2P (headerHint, dataHint) in
  sent ← on_syncer (try_send ev);
  _ ← (if (sent : bool) then mret tt
       else on_syncer (modify_mgr (SetPendingEvent (Header_Height (sh_Header header)) ev)));
  on_syncer (modify (SetProcessedHeight height)).

(** A round of [p2pWorkerLoop], up to the wait for the store; the height it
    then waits for is the result, and there is none when the round is repeated. *)
Definition p2p_round : M (S * P) sync_error (option Z) :=
  r ← attempt (on_syncer (on_sy_store st_Height));
  match r with
  | Err _ => mret None
  | Ok currentHeight =>
      let targetHeight := add64 currentHeight 1 in
      _ ← on_syncer (modify (setP2PWaitState targetHeight));
      r ← attempt (ProcessHeight targetHeight);
      _ ← on_syncer (modify (cancelP2PWait targetHeight));
      match r with
      | Err _ => mret None
      | Ok _ => mret (Some targetHeight)
      end
  end.

(** ** Raft *)

Definition on_manager {A} (m : M (Manager ST PK C) cache_error A) : SM A := zoom s_mgr set_s_mgr (wrap SyCache m).

(** The [raftBlockPreProcessor] that [NewSyncer] installs. *)
Definition raft_preprocess (state : RaftBlockState) : SM unit :=
  _ ← on_manager (SetLastSubmittedHeaderHeight (rb_LastSubmittedDaHeaderHeight state));
  on_manager (SetLastSubmittedDataHeight (rb_LastSubmittedDaDataHeight state)).

Definition consumeRaftBlock (state : RaftBlockState) : SM unit :=
  _ ← raft_preprocess state;
  match SignedHeader_UnmarshalBinary (rb_Header state) SignedHeader_New with
  | (Err e, _) => throw (SyTypes e)
  | (Ok _, header) =>
      nw ← on_env env_now;
      match Header_ValidateBasic nw (sh_Header header) with
      | Err _ => mret tt
      | Ok _ =>
          match Data_UnmarshalBinary (rb_Data state) Data_New with
          | (Err e, _) => throw (SyTypes e)
          | (Ok _, data) => PipeEvent (MkEvent header data 0 SourceUnset (0, 0))
          end
      end
  end.

End flow.
