(* ===== verification/SyncerFacts.v ===== *)
(** * The syncer: facts

    Whatever events arrive, and whatever fails, the syncer either leaves the
    stored chain as it is or appends one block that follows it. [quiet] is the
    first outcome and [appended] the second; every operation of the syncer is
    shown to have one of the two. *)

From S2P Require Import Prelude Sha256 Datastore Types Serialization SerializationFacts Validation Store StoreFacts StoreAPI ChainWrites.
From S2P Require Import BlockCache Pending CacheManager DAClient Batching ForcedInclusion Sequencing Execution Replayer.
From S2P Require Import ForcedCheck PriorityHeights DARetriever DecodeFacts Syncer.
From stdpp Require Import base gmap strings list numbers.
Open Scope Z_scope.

Section facts.
Context {ST PK W F EX V : Type} {C : Type -> Type}.
Context `{BlockStoreLaws ST PK} `{LRU C} `{MapOrder} `{BlobRPC W} `{HeaderOrder PK} `{FISource F} `{Executor EX} `{ExecutionLaws EX}.
Context `{FloatConversion} `{SyncEnv V} `{Wire} `{HashText}.
Context `{ProtoMsg pbVersion, ProtoMsg pbHeader, ProtoMsg pbSignedHeader, ProtoMsg pbMetadata, ProtoMsg pbData,
          ProtoMsg pbSignedData, ProtoMsg pbDAHeaderEnvelope}.
Abbreviation S := (Syncer ST PK W F EX V C).
Abbreviation event := (DAHeightEvent PK).

(** ** Events and states *)

Definition s_contents (s : S) : contents PK := chain_part (bs_contents (s_store s)).

(** What waits in the DA retriever. *)
Definition waiting_of (s : S) : gmap Z (SignedHeader PK) * gmap Z Data :=
  match s_retriever s with Some r => (rs_pendingHeaders r, rs_pendingData r) | None => (∅, ∅) end.

(** All that is on its way to the syncer is well-formed. *)
Definition events_wf (s : S) : Prop :=
  Forall event_wf (s_heightInCh s) /\ map_Forall (fun _ ev => event_wf ev) (pendingEvents (s_mgr s)) /\
  map_Forall (fun _ h => signed_wf h) (waiting_of s).1 /\ map_Forall (fun _ d => data_wf d) (waiting_of s).2 /\
  Forall is_u64 (default [] (s_follower s)).

Definition unlinked_so_far (s : S) : Z := lastHeaderHashErrCount (s_tracking s).

(** The chain and the state are as they were. *)
Record quiet (s s' : S) : Prop := {
  q_contents : s_contents s' ≡ s_contents s;
  q_state : s_lastState s' = s_lastState s;
  q_provider : s_provider s' = s_provider s;
  q_genesis : s_genesis s' = s_genesis s;
  q_tracking : tracking_inv (s_tracking s) -> tracking_inv (s_tracking s') /\ unlinked_so_far s <= unlinked_so_far s';
  q_events : events_wf s -> events_wf s' }.

#[export] Instance quiet_preorder : PreOrder quiet.
Proof.
  split; [by intros s; split|]. intros s1 s2 s3 [A1 A2 A3 A4 A5 A6] [B1 B2 B3 B4 B5 B6].
  split; [by rewrite B1|congruence..| |tauto]. intros Ht. destruct (A5 Ht) as [Ht2 Hl2], (B5 Ht2) as [Ht3 Hl3].
  split; [done|lia].
Qed.

(** Changes that touch none of it. *)
Lemma quiet_same s s' :
  s_store s' = s_store s -> s_lastState s' = s_lastState s -> s_provider s' = s_provider s ->
  s_genesis s' = s_genesis s -> s_tracking s' = s_tracking s -> s_heightInCh s' = s_heightInCh s ->
  pendingEvents (s_mgr s') = pendingEvents (s_mgr s) -> waiting_of s' = waiting_of s ->
  s_follower s' = s_follower s -> quiet s s'.
Proof.
  intros E1 E2 E3 E4 E5 E6 E7 E8 E9. split; unfold s_contents, events_wf, unlinked_so_far; rewrite ?E1, ?E5, ?E6, ?E7, ?E8, ?E9; done.
Qed.

Definition quietly {A} (m : SM A) : Prop := forall s : S, wp m (fun _ s' => quiet s s') s.

Lemma quietly_ret {A} (a : A) : quietly (mret a).
Proof. by intros s; apply wp_ret. Qed.
Lemma quietly_throw {A} e : quietly (throw (A := A) e).
Proof. by intros s; apply wp_throw. Qed.
Lemma quietly_gets {A} (f : S -> A) : quietly (gets f).
Proof. by intros s; apply wp_gets. Qed.
Lemma quietly_modify f : (forall s, quiet s (f s)) -> quietly (modify f).
Proof. intros Hf s. by apply wp_modify. Qed.
Lemma quietly_attempt {A} (m : SM A) : quietly m -> quietly (attempt (F := sync_error) m).
Proof. intros Hm s. apply wp_attempt. eapply wp_mono; [apply Hm|done]. Qed.
Lemma quietly_bind {A B} (m : SM A) (k : A -> SM B) : quietly m -> (forall a, quietly (k a)) -> quietly (m ≫= k).
Proof.
  intros Hm Hk s. apply wp_bind. eapply wp_mono; [apply Hm|]. intros [a|e] s1 H1'; [|done].
  eapply wp_mono; [apply Hk|]. intros. by etrans.
Qed.
Lemma quietly_for_each {A} (l : list A) (f : A -> SM unit) : (forall a, quietly (f a)) -> quietly (for_each l f).
Proof. intros Hf. induction l; [apply quietly_ret|]. by apply quietly_bind. Qed.

Lemma quiet_store s st : chain_part (bs_contents st) ≡ s_contents s -> quiet s (set_s_store st s).
Proof. intros Hc. by split. Qed.

(** A read of the store, with what it returned. *)
Lemma wp_sy_read {A} (m : M ST store_error A) f (Q : res sync_error A -> S -> Prop) s :
  reads m f ->
  (forall st a, quiet s (set_s_store st s) -> a = f (bs_contents (s_store s)) -> Q (map_err SyStore a) (set_s_store st s)) ->
  (forall st e, quiet s (set_s_store st s) -> Q (Err (SyStore e)) (set_s_store st s)) ->
  wp (on_sy_store m) Q s.
Proof.
  intros Hm Hok Herr. apply wp_zoom, wp_wrap. eapply wp_mono; [apply Hm|]. intros r st (Hc & _ & Hr).
  assert (Hq : quiet s (set_s_store st s)) by by apply quiet_store, chain_part_proper.
  destruct Hr as [Hr|(_ & e & -> & _)]; [by apply Hok|by apply Herr].
Qed.

Lemma quietly_read {A} (m : M ST store_error A) f : reads m f -> quietly (on_sy_store m).
Proof. intros Hm s. by eapply wp_sy_read. Qed.

Lemma quietly_env {A} (f : V -> A * V) : quietly (on_env f).
Proof. intros s. apply wp_zoom, wp_infallible. by apply quiet_same. Qed.

Lemma quietly_mgr (f : Manager ST PK C -> Manager ST PK C) :
  (forall m, mgr_store (f m) = mgr_store m) -> (forall m, pendingEvents (f m) = pendingEvents m) ->
  quietly (modify_mgr f).
Proof. intros Hs Hp s. apply wp_modify, quiet_same; simpl; try done; unfold s_store; simpl; auto. Qed.

Lemma quietly_pending h ev : event_wf ev -> quietly (modify_mgr (SetPendingEvent h ev)).
Proof.
  intros Hev s. apply wp_modify. split; try done. intros (Hc & Hp & Hw). split_and!; [done| |apply Hw..]. simpl. by apply map_Forall_insert_2.
Qed.

Lemma quietly_exec {A} (m : M EX string A) : quietly (on_sy_exec m).
Proof. intros s. apply wp_zoom. unfold wp. destruct (wrap SyExec m (s_exec s)). by apply quiet_same. Qed.

End facts.

(** Quiet operations compose. *)
Create HintDb quiet.
#[export] Hint Resolve quietly_ret quietly_throw quietly_gets quietly_attempt quietly_bind quietly_for_each quietly_env
  quietly_exec quietly_pending : quiet.
#[export] Hint Extern 3 (quiet _ _) => (by apply quiet_same) : quiet.
#[export] Hint Extern 3 (quietly (modify_mgr _)) => (by apply quietly_mgr) : quiet.
Ltac quiet_auto :=
  repeat match goal with
         | |- forall _, _ => intros ?
         | |- quietly (_ ≫= _) => apply quietly_bind
         | |- quietly (attempt _) => apply quietly_attempt
         | |- quietly _ => solve [eauto with quiet]
         | |- quietly _ => case_match
         end.

Section sync.
Context {ST PK W F EX V : Type} {C : Type -> Type}.
Context `{BlockStoreLaws ST PK} `{LRU C} `{MapOrder} `{BlobRPC W} `{HeaderOrder PK} `{FISource F} `{Executor EX} `{ExecutionLaws EX}.
Context `{FloatConversion} `{SyncEnv V} `{Wire} `{HashText}.
Context `{ProtoMsg pbVersion, ProtoMsg pbHeader, ProtoMsg pbSignedHeader, ProtoMsg pbMetadata, ProtoMsg pbData,
          ProtoMsg pbSignedData, ProtoMsg pbDAHeaderEnvelope}.
Abbreviation S := (Syncer ST PK W F EX V C).
Abbreviation event := (DAHeightEvent PK).
Abbreviation quietly' := (quietly (ST := ST) (PK := PK) (W := W) (F := F) (EX := EX) (V := V) (C := C)).

(** ** Quiet operations *)

Lemma quiet_retriever (d : daRetriever ST PK W C) (s : S) :
  chain_part (bs_contents (mgr_store (dr_cache d))) ≡ s_contents s -> pendingEvents (dr_cache d) = pendingEvents (s_mgr s) ->
  (events_wf s -> waiting_wf d) -> quiet s (put_retriever d s).
Proof.
  intros Hs Hp Hd. split; try done. intros Hw. destruct (Hd Hw) as [? ?], Hw as (A1 & A2 & _ & _ & A3).
  unfold events_wf. simpl. by rewrite Hp.
Qed.

Lemma waiting_retriever (r : retr_state PK W) (s : S) : s_retriever s = Some r -> events_wf s -> waiting_wf (retriever_of r s).
Proof. intros Hr (_ & _ & Hh & Hd & _). unfold waiting_of in *. rewrite Hr in *. done. Qed.

Lemma quietly_removePendingDAData (ev : event) : quietly' (removePendingDAData ev).
Proof.
  unfold removePendingDAData. quiet_auto. apply quietly_modify. intros s. destruct (s_retriever s) as [r|] eqn:Hr; [|done].
  apply quiet_retriever; [done..|]. intros [Hh Hd]%(waiting_retriever r); [|done]. split; [done|]. by apply map_Forall_delete.
Qed.

Lemma quietly_sendCriticalError e : quietly' (modify (sendCriticalError e)).
Proof. apply quietly_modify. intros s. unfold sendCriticalError. repeat case_match; by apply quiet_same. Qed.

Lemma quietly_queue_hint latest h : is_u64 h -> quietly' (queue_hint latest h).
Proof.
  intros Hh. apply quietly_modify. intros s. do 2 (case_match; [done|]).
  destruct (s_follower s) as [q|] eqn:Hq; [|done]. split; try done. intros (A1 & A2 & A3 & A4 & A5). split_and!; try done.
  rewrite Hq in A5. simpl in *. apply list.Forall_forall. intros x [->|Hx]%elem_of_Queue; [done|].
  by apply (proj1 (list.Forall_forall _ _) A5).
Qed.

Lemma quietly_validation_height hints : quietly' (validation_height hints).
Proof.
  intros s. unfold validation_height, wp. destruct (s_retriever s) as [r|] eqn:Hr; [|done].
  destruct (existsb _ _); [|done]. destruct (GetLatestDAHeight _). apply quiet_same; try done.
  unfold waiting_of. by rewrite Hr.
Qed.

#[local] Hint Resolve quietly_validation_height : quiet.

Lemma hinted_u64 (ev : event) (m : Manager ST PK C) : event_wf ev -> Forall is_u64 (hinted_heights ev m).
Proof.
  intros [_ _ _ Hh]. unfold hinted_heights. destruct (ev_DaHeightHints ev) as [h0 h1]. simpl in Hh. destruct Hh as [H0' H1'].
  repeat case_match; simpl in *; simplify_eq; repeat (apply Forall_nil_2 || apply Forall_cons_2); done.
Qed.

Lemma quietly_hints latest l : Forall is_u64 l -> quietly' (for_each l (queue_hint latest)).
Proof.
  induction 1; [apply quietly_ret|]. apply quietly_bind; [by apply quietly_queue_hint|done].
Qed.

Lemma quietly_follow_hints (ev : event) : event_wf ev -> quietly' (follow_hints ev).
Proof.
  intros Hev. pose proof (hinted_u64 ev) as Hu. pose proof quietly_hints as Hq. unfold follow_hints. quiet_auto.
Qed.

Lemma quietly_execute n txs header cur : quietly' (execute_attempts n txs header cur).
Proof. induction n; simpl; quiet_auto. Qed.

Lemma quietly_check_forced (ev : event) hash : quietly' (check_forced ev hash).
Proof.
  unfold check_forced. quiet_auto. intros s. apply wp_attempt, wp_zoom. unfold wp.
  destruct (VerifyForcedInclusionTxs _ _ _ _ _ _). by apply quiet_same.
Qed.

(** The event with the filled in hash. *)
Lemma fill_spec (ev : event) h (s : S) :
  is_u64 h -> event_wf ev ->
  wp (fill_last_data_hash ev h) (fun r s' => quiet s s' /\
    forall ev', r = Ok (Some ev') -> event_wf ev' /\ ev_Header ev' = ev_Header ev /\ ev_DaHeight ev' = ev_DaHeight ev /\
      ev_Source ev' = ev_Source ev /\ Txs (ev_Data ev') = Txs (ev_Data ev)) s.
Proof.
  intros Hh Hev. unfold fill_last_data_hash. case_match.
  2:{ apply wp_ret. split; [done|]. by intros ? [= <-]. }
  apply wp_bind, wp_attempt. eapply wp_sy_read; [by apply GetBlockData_law| |].
  - intros st [[hdr last]|e] Hq _; cbn [map_err]; [|by apply wp_ret].
    destruct (d_Metadata (ev_Data ev)) as [m|] eqn:Hm; [|by apply wp_throw]. apply wp_ret. split; [done|]. intros ev' [= <-].
    destruct Hev as [E1 E2 E3 E4]. split_and!; try done. split; try done. intros m' [= <-]. by apply (E2 m).
  - intros st e Hq. by apply wp_ret.
Qed.

(** ** Validation *)

(** What a block that [ValidateBlock] accepts in a state has. *)
Record valid_block (p : provider) (cur : State) (header : SignedHeader PK) (data : Data) : Prop := {
  vb_signed : exists pk raw payload,
    PubKey (sh_Signer header) = Some pk /\ pk_Raw pk = Ok raw /\
    sl (ProposerAddress (sh_Header header)) = Sha256.sum256 raw /\
    signed_payload ((fun f => f (sh_Header header) data) <$> p) header payload /\ payload <> [] /\
    pk_Verify pk payload (sl (sh_Signature header)) = Ok true;
  vb_proposer : sl (NextProposerAddress cur) <> [] ->
    sl (ProposerAddress (sh_Header header)) = sl (NextProposerAddress cur);
  vb_chain : Header_ChainID (sh_Header header) = st_ChainID cur;
  vb_follows : sl (st_LastHeaderHash cur) <> [] -> follows cur header;
  vb_data : sl (DataHash (sh_Header header)) = DACommitment data }.

Lemma sequence_spec s (sh : SignedHeader PK) t :
  tracking_inv t ->
  wp (AssertValidSequence s sh) (fun r t' =>
    tracking_inv t' /\ lastHeaderHashErrCount t <= lastHeaderHashErrCount t' /\
    (r = Ok tt -> Header_ChainID (sh_Header sh) = st_ChainID s /\
       (sl (st_LastHeaderHash s) <> [] -> follows s sh /\
          lastHeaderHashErrCount t + unlinked (st_LastHeaderHash s) sh <= lastHeaderHashErrCount t'))) t.
Proof.
  intros Ht. destruct (decide (sl (st_LastHeaderHash s) = [])) as [Hn|Hn].
  - unfold AssertValidSequence. apply wp_bind, wp_lift_res. case_bool_decide; [|by split_and!].
    unfold slen. rewrite Hn. apply wp_ret. by split_and!.
  - eapply wp_mono; [by apply AssertValidSequence_spec|]. intros r t' (Hi & Hle & Hr). split_and!; [done..|].
    intros E. destruct (Hr E) as [Hf Hu]. split; [apply Hf|done].
Qed.

(** The unlinked headers that the acceptance of a header accounts for. *)
Definition unlinked_in (cur : State) (header : SignedHeader PK) : Z :=
  if decide (sl (st_LastHeaderHash cur) = []) then 0 else unlinked (st_LastHeaderHash cur) header.

Lemma ValidateBlock_spec cur data header (s : S) :
  tracking_inv (s_tracking s) ->
  wp (ValidateBlock cur data header) (fun r s' => quiet s s' /\
    (forall header', r = Ok (Ok header') -> header' = SetCustomVerifierForSyncNode (s_provider s) header /\
       valid_block (s_provider s) cur header' data /\
       unlinked_so_far s + unlinked_in cur header <= unlinked_so_far s')) s.
Proof.
  intros Ht. unfold ValidateBlock. wp_read. apply wp_bind. set (header' := SetCustomVerifierForSyncNode _ _).
  apply wp_zoom, wp_infallible. destruct (env_now (s_env s)) as [nw v]. set (s1 := set_s_env v s).
  assert (Hq : quiet s s1) by by apply quiet_same. cbn [fst snd].
  destruct (ValidateBasicWithData _ _ _) as [[]|] eqn:Hsig; [|by apply wp_ret].
  destruct (AssertExpectedProposer cur header') as [[]|] eqn:Hp; [|by apply wp_ret].
  apply wp_bind, wp_attempt, wp_zoom. eapply wp_mono; [by apply sequence_spec|].
  intros r t (Hi & Hle & Hr).
  assert (Hq' : quiet s (set_s_tracking t s1)) by (split; [done..|split; [done|exact Hle]|done]).
  destruct r as [[]|e]; [|by apply wp_ret].
  destruct (Validation.Validate header' data) as [[]|] eqn:Hd; [|by apply wp_ret].
  apply wp_ret. split; [done|]. intros h [= <-]. destruct (Hr eq_refl) as [Hc Hf]. split_and!; [done| |].
  - split; [| |done|by intros; apply Hf|by apply Validate_commitment].
    + apply validate_signed_sound in Hsig as (pk & raw & p & ? & ? & ? & _ & ? & ? & ?). by exists pk, raw, p.
    + intros Hne. unfold AssertExpectedProposer in Hp. apply guard_err_ok, negb_true_iff in Hp.
      apply slen_zero_false in Hne. rewrite slen_pos, Hne in Hp. apply negb_false_iff, slice_equal_spec in Hp. done.
  - unfold unlinked_in, unlinked_so_far. destruct (decide _); [|by apply Hf]. simpl. rewrite Z.add_0_r. exact Hle.
Qed.

(** ** Execution *)

Definition executed (cur : State) (header : Header) (data : Data) : ExecuteResult :=
  exec_result (data_txs data) (Header_Height header) (Header_Time header) (sl (st_AppHash cur)).

Lemma execute_spec n header data cur (s : S) :
  (0 < n)%nat -> is_u64 (Header_Height header) ->
  wp (execute_attempts n (data_txs data) header cur) (fun r s' => quiet s s' /\
    forall e, r = Ok e -> e = executed cur header data) s.
Proof.
  intros Hn Hh. revert s. induction n as [|n IH]; intros s; [lia|]. cbn [execute_attempts].
  apply wp_bind, wp_attempt, wp_zoom, wp_wrap. eapply wp_mono; [by apply ExecuteTxs_law|].
  intros r x [_ Hr]. assert (Hq : quiet s (set_s_exec x s)) by by apply quiet_same.
  destruct r as [e|msg]; cbn [map_err]; [apply wp_ret; split; [done|intros e' [= <-]; apply Hr]|].
  destruct (Nat.eqb_spec n 0); [by apply wp_throw|].
  apply wp_bind. eapply wp_mono; [apply quietly_env|]. intros [[]|] s2 Hq2; [apply wp_throw| |].
  - split; [by etrans|done].
  - eapply wp_mono; [apply IH; lia|]. intros r s3 [Hq3 Hr3]. split; [|done]. etrans; [exact Hq|by etrans].
  - split; [by etrans|done].
Qed.

(** The state after a block. *)
Definition synced_state (cur : State) (header : Header) (data : Data) (da : Z) : State :=
  let e := executed cur header data in
  let st := NextState cur header (UpdatedStateRoot e) (res_NextProposer e) in
  if DAHeight st <? da then with_DAHeight da st else st.

Lemma ApplyBlock_spec header data cur (s : S) :
  is_u64 (Header_Height header) ->
  wp (ApplyBlock header data cur) (fun r s' => quiet s s' /\
    forall st, r = Ok st -> let e := executed cur header data in
      st = NextState cur header (UpdatedStateRoot e) (res_NextProposer e)) s.
Proof.
  intros Hh. unfold ApplyBlock. apply wp_bind, wp_attempt. eapply wp_mono; [apply execute_spec; [|done]|].
  { unfold MaxRetriesBeforeHalt, Submitter.MaxRetriesBeforeHalt. lia. }
  intros [e|er] s1 [Hq Hr].
  - apply wp_ret. split; [done|]. intros st [= <-]. by rewrite (Hr e eq_refl).
  - apply wp_bind. eapply wp_mono; [apply quietly_sendCriticalError|]. intros [[]|] s2 Hq2; [apply wp_throw|];
      (split; [by etrans|done]).
Qed.

Lemma synced_state_wf cur header data da :
  state_wf cur -> header_wf header -> is_u64 da -> state_wf (synced_state cur header data da).
Proof.
  intros Hc Hh Hd. unfold synced_state. set (st := NextState _ _ _ _).
  assert (Hst : state_wf st) by by apply NextState_wf. destruct (_ <? _); [|done].
  destruct Hst as (A1 & A2 & A3 & A4 & A5). exact (conj A1 (conj A2 (conj Hd (conj A4 A5)))).
Qed.

Lemma synced_state_height cur header data da : LastBlockHeight (synced_state cur header data da) = Header_Height header.
Proof. unfold synced_state. by destruct (_ <? _). Qed.

(** ** Writing a block *)

Lemma commit_spec header data st h (s : S) :
  c_height (s_contents s) = Ok h -> h < Header_Height (sh_Header header) ->
  header_wf (sh_Header header) -> signer_wf (sh_Signer header) -> data_wf data -> state_wf st ->
  wp (commit_synced header data st) (fun r s' => exists db, s' = set_s_store db s /\
    match r with
    | Ok _ => s_contents s' ≡ apply_batch (s_contents s) (block_batch header data st)
    | Err _ => s_contents s' ≡ s_contents s
    end) s.
Proof.
  intros Hc Hlt Hh Hs Hd Hst. unfold commit_synced.
  assert (Hsame : forall db, same_store s_store s db -> s_contents (set_s_store db s) ≡ s_contents s)
    by (intros; by apply chain_part_proper).
  apply (wp_stage_block s_store set_s_store SyStore) with (h := h); try done.
  - intros db b S1 B1. eapply (wp_commit s_store set_s_store SyStore); [done|done|exact B1|by apply block_batch_wf|done|..].
    + intros db' C1. exists db'. split; [done|]. unfold s_contents. rewrite <- chain_part_block. by apply chain_part_proper.
    + intros db' e S2. exists db'. auto.
  - intros db e S1. exists db. auto.
Qed.

(** ** One block *)

(** One valid block was appended to the chain, and the state moved with it. *)
Record appended (cur : State) (header : SignedHeader PK) (data : Data) (da : Z) (s s' : S) : Prop := {
  ap_valid : valid_block (s_provider s) cur header data;
  ap_contents : s_contents s' ≡
    apply_batch (s_contents s) (block_batch header data (synced_state cur (sh_Header header) data da));
  ap_state : s_lastState s' = Some (synced_state cur (sh_Header header) data da);
  ap_provider : s_provider s' = s_provider s;
  ap_genesis : s_genesis s' = s_genesis s;
  ap_tracking : tracking_inv (s_tracking s') /\ unlinked_so_far s + unlinked_in cur header <= unlinked_so_far s';
  ap_events : events_wf s -> events_wf s' }.

Lemma appended_quiet cur header data da s1 s2 s3 :
  appended cur header data da s1 s2 -> quiet s2 s3 -> appended cur header data da s1 s3.
Proof.
  intros [A1 A2 A3 A4 A5 [A6 A6'] A7] [B1 B2 B3 B4 B5 B6]. destruct (B5 A6).
  split; [done|by rewrite B1|congruence..|split; [done|lia]|tauto].
Qed.

Lemma quietly_p2p h : quietly' (modify (SetProcessedHeight h)).
Proof. apply quietly_modify. intros s. unfold SetProcessedHeight. repeat case_match; by apply quiet_same. Qed.

Lemma mark_spec ev header hash st (s : S) :
  wp (mark_synced ev header hash st) (fun _ s' => quiet (SetLastState st s) s') s.
Proof.
  unfold mark_synced. apply wp_bind, wp_modify. revert s.
  enough (Hrest : quietly'
            (_ ← modify_mgr (SetHeaderSeen hash (Header_Height (sh_Header header)));
             _ ← (if negb (bytes_eqb (sl (DataHash (sh_Header header))) DataHashForEmptyTxs)
                  then modify_mgr (SetDataSeen (hash_String (DACommitment (ev_Data ev))) (LastBlockHeight st)) else mret tt);
             _ ← modify (SetProcessedHeight (LastBlockHeight st)); removePendingDAData ev))
    by (intros s; apply Hrest).
  pose proof quietly_p2p. pose proof quietly_removePendingDAData. quiet_auto.
Qed.

(** The inclusion status of a block that is not valid is dropped. *)
Lemma quietly_reject e hash dhash : quietly'
  (match e with
   | VFault FaultHeader _ => modify_mgr (RemoveHeaderDAIncluded hash)
   | VFault FaultData _ => modify_mgr (RemoveDataDAIncluded dhash)
   | VState _ => mret tt
   end).
Proof. quiet_auto. Qed.

(** A block is tried against the state [cur] of the stored chain. *)
Lemma trySync_spec ev cur h (s : S) :
  event_wf ev -> state_wf cur -> tracking_inv (s_tracking s) ->
  c_height (s_contents s) = Ok h ->
  (valid_block (s_provider s) cur (SetCustomVerifierForSyncNode (s_provider s) (ev_Header ev)) (ev_Data ev) ->
   h < Header_Height (sh_Header (ev_Header ev))) ->
  wp (trySyncNextBlockWithState ev cur) (fun r s' =>
    quiet s s' \/
    appended cur (SetCustomVerifierForSyncNode (s_provider s) (ev_Header ev)) (ev_Data ev) (ev_DaHeight ev) s s') s.
Proof.
  intros [[E1 E2] E3 E4 _] Hcur Ht Hc Hlt. unfold trySyncNextBlockWithState.
  apply wp_bind. eapply wp_mono; [apply quietly_env|]. intros [[]|] s1 Q1; [by apply wp_throw; left| |by left].
  apply wp_bind. eapply wp_mono; [apply ValidateBlock_spec, Q1, Ht|].
  intros [[header|e]|e] s2 [Q2 V2]; [| |left; by etrans].
  2:{ apply wp_bind. eapply wp_mono; [apply quietly_reject|].
      assert (Q12 : quiet s s2) by by etrans. intros [[]|] s3 Q3; [apply wp_throw|]; left; by etrans. }
  destruct (V2 header eq_refl) as (Hheader & Hvalid & Hcount). rewrite (q_provider _ _ Q1) in *.
  assert (Q12 : quiet s s2) by by etrans.
  apply wp_bind. eapply wp_mono; [apply quietly_check_forced|]. intros [[]|] s3 Q3; [|left; by etrans].
  assert (Q13 : quiet s s3) by by etrans.
  apply wp_bind. eapply wp_mono; [apply ApplyBlock_spec; by rewrite Hheader; apply E1|].
  intros [st|] s4 [Q4 X4]; [|left; by etrans]. assert (Q14 : quiet s s4) by by etrans.
  pose proof (X4 st eq_refl) as Hst. cbv zeta in Hst. clear X4.
  set (new := if DAHeight st <? _ then _ else _).
  assert (Hnew : new = synced_state cur (sh_Header header) (ev_Data ev) (ev_DaHeight ev)) by (unfold new; by rewrite Hst).
  assert (Hwf : state_wf new) by (rewrite Hnew; apply synced_state_wf; [done|by rewrite Hheader|done]).
  apply wp_bind. eapply wp_mono; [apply (commit_spec _ _ _ h); try done|].
  { rewrite (c_height_proper _ _ _ (q_contents _ _ Q14)). done. }
  { rewrite Hheader. apply Hlt. by rewrite <- Hheader. }
  1-2: by rewrite Hheader.
  intros r s5 (db & -> & C5). destruct r as [[]|e].
  - eapply wp_mono; [apply mark_spec|]. intros r s6 Q6. right. eapply appended_quiet; [|exact Q6]. rewrite <- Hheader.
    destruct Q14 as [A1 A2 A3 A4 A5 A6]. pose proof (q_tracking _ _ Q3) as T3. pose proof (q_tracking _ _ Q4) as T4.
    destruct (q_tracking _ _ Q12 Ht) as [Ht2 _]. destruct (T3 Ht2) as [Ht3 ?], (T4 Ht3) as [Ht4 ?].
    destruct (q_tracking _ _ Q1 Ht) as [_ ?].
    split; try done.
    + etrans; [exact C5|]. rewrite Hnew. by apply apply_batch_proper.
    + by rewrite <- Hnew.
    + split; [done|]. change (unlinked_so_far (SetLastState new (set_s_store db s4))) with (unlinked_so_far s4).
      replace (unlinked_in cur header) with (unlinked_in cur (ev_Header ev)) by by rewrite Hheader. lia.
  - left. etrans; [exact Q14|]. by apply quiet_store.
Qed.

(** ** Height events *)

(** The recorded height and state of the syncer are those of the stored chain. *)
Record sync_inv (s : S) : Prop := {
  si_state : exists cur, s_lastState s = Some cur /\ state_wf cur /\ c_height (s_contents s) = Ok (LastBlockHeight cur);
  si_chain : chain_contents (s_contents s);
  si_tracking : tracking_inv (s_tracking s);
  si_events : events_wf s }.

Lemma sync_quiet_inv s s' : quiet s s' -> sync_inv s -> sync_inv s'.
Proof.
  intros [A1 A2 A3 A4 A5 A6] [(cur & B1 & B2 & B3) Bc Bt Be]. split.
  - exists cur. rewrite A2, (c_height_proper _ _ _ A1). done.
  - by rewrite A1.
  - by apply A5.
  - by apply A6.
Qed.

Lemma norm_header_wf h : header_wf h -> header_wf (norm_header h).
Proof.
  intros (A1 & A2 & A3 & A4). split; [done|]. split; [done|]. split; [done|]. intros x. simpl. unfold norm_legacy.
  destruct (Legacy h) as [l|]; [|done]. destruct (Legacy_IsZero _); [done|]. intros [= <-].
  destruct (A4 l eq_refl) as (B1 & B2 & B3). unfold slen in *. simpl. by rewrite !sl_norm.
Qed.

Lemma chain_contents_block c header data st :
  header_wf (sh_Header header) -> state_wf st -> chain_contents c -> chain_contents (apply_batch c (block_batch header data st)).
Proof.
  intros Hh Hst Hc. apply (chain_contents_state _ st Hst). destruct Hc as [Hb Hs]. split; [|exact Hs].
  intros h hd d Hh0. simpl. unfold upd. destruct (decide _) as [->|].
  - intros [= <- _]. split; [done|by apply norm_header_wf].
  - by apply Hb.
Qed.

Lemma appended_inv cur header data da s s' :
  header_wf (sh_Header header) -> is_u64 da -> state_wf cur -> sync_inv s -> appended cur header data da s s' -> sync_inv s'.
Proof.
  intros Hh Hd Hcur [_ Bc Bt Be] [A1 A2 A3 A4 A5 [A6 A6'] A7]. pose proof (synced_state_wf cur _ data _ Hcur Hh Hd) as Hwf.
  set (st := synced_state _ _ _ _) in *. assert (Hst : LastBlockHeight st = Header_Height (sh_Header header)) by apply synced_state_height.
  split; [|rewrite A2; by apply chain_contents_block|done|by apply A7].
  exists st. split; [done|]. split; [exact Hwf|]. rewrite (c_height_proper _ _ _ A2). simpl. by rewrite Hst.
Qed.

(** A block follows the state: it is valid there and has the next height. *)
Definition next_block (p : provider) (cur : State) (header : SignedHeader PK) (data : Data) : Prop :=
  valid_block p cur header data /\ Header_Height (sh_Header header) = LastBlockHeight cur + 1.

(** [s'] is [s], or [s] with the block of the event appended. *)
Definition step_with (ev : event) (s s' : S) : Prop :=
  quiet s s' \/
  exists cur data, let header := SetCustomVerifierForSyncNode (s_provider s) (ev_Header ev) in
    s_lastState s = Some cur /\ Txs data = Txs (ev_Data ev) /\ next_block (s_provider s) cur header data /\
    appended cur header data (ev_DaHeight ev) s s'.

Lemma quiet_appended cur header data da s1 s2 s3 :
  tracking_inv (s_tracking s1) -> quiet s1 s2 -> appended cur header data da s2 s3 -> appended cur header data da s1 s3.
Proof.
  intros Ht [B1 B2 B3 B4 B5 B6] [A1 A2 A3 A4 A5 [A6 A6'] A7]. destruct (B5 Ht) as [_ Hle].
  split; [congruence| |congruence..|split; [done|lia]|tauto]. etrans; [exact A2|]. by apply apply_batch_proper.
Qed.

Lemma step_with_quiet ev s1 s2 s3 : step_with ev s1 s2 -> quiet s2 s3 -> step_with ev s1 s3.
Proof.
  intros [Hq|(cur & data & ? & ? & ? & Ha)] Hq'; [left; by etrans|right].
  exists cur, data. cbv zeta. split_and!; try done. by eapply appended_quiet.
Qed.

Lemma quiet_step_with ev s1 s2 s3 :
  tracking_inv (s_tracking s1) -> quiet s1 s2 -> step_with ev s2 s3 -> step_with ev s1 s3.
Proof.
  intros Ht Hq [Hq'|(cur & data & Hl & Htx & Hn & Ha)]; [left; by etrans|right].
  exists cur, data. rewrite (q_state _ _ Hq), (q_provider _ _ Hq) in *. cbv zeta.
  split_and!; try done. by eapply quiet_appended.
Qed.

(** What follows a block that was not synced. *)
Lemma quietly_retry ev e h : event_wf ev ->
  quietly'
    (s ← gets id;
     match e with
     | SyPanic => throw SyPanic
     | SyInvalid (VFault _ _) => mret tt
     | _ =>
         if s_hasCriticalError s then mret tt else
         match e with
         | SyMalicious _ => modify (sendCriticalError e)
         | SyInvalid (VState _) => modify (sendCriticalError e)
         | _ => modify_mgr (SetPendingEvent h ev)
         end
     end).
Proof. intros Hev. pose proof quietly_sendCriticalError. quiet_auto. Qed.

Lemma processHeightEvent_spec ev (s : S) :
  sync_inv s -> event_wf ev -> wp (processHeightEvent ev) (fun _ s' => step_with ev s s') s.
Proof.
  intros Hi Hev. destruct Hi as [(cur & Hl & Hcur & Hc) _ Ht _]. unfold processHeightEvent.
  apply wp_bind, wp_attempt. eapply wp_sy_read; [apply Height_law| |by intros; apply wp_ret; left].
  intros st a Q1 ->. change (c_height (bs_contents (s_store s))) with (c_height (s_contents s)). rewrite Hc. cbn [map_err]. set (s1 := set_s_store st s) in *. wp_read. simpl id.
  destruct (Z.leb_spec (Header_Height (sh_Header (ev_Header ev))) (LastBlockHeight cur)) as [Hle|Hgt]; cbn [orb].
  { eapply wp_mono; [apply quietly_removePendingDAData|]. intros. left. by etrans. }
  case_match. { eapply wp_mono; [apply quietly_removePendingDAData|]. intros. left. by etrans. }
  destruct (Z.eqb_spec (Header_Height (sh_Header (ev_Header ev))) (add64 (LastBlockHeight cur) 1)) as [Hh|]; cbn [negb].
  2:{ eapply wp_mono; [by apply quietly_pending|]. intros. left. by etrans. }
  apply wp_bind. eapply wp_mono; [by apply quietly_follow_hints|]. intros [[]|] s2 Q2; [|left; by etrans].
  assert (Q12 : quiet s s2) by by etrans.
  apply wp_bind. eapply wp_mono; [apply fill_spec; [apply Hcur|done]|]. intros r s3 [Q3 F3].
  assert (Q13 : quiet s s3) by by etrans. destruct r as [[ev'|]|]; [|by apply wp_ret; left|by left].
  destruct (F3 ev' eq_refl) as (Hev' & E1 & E2 & E3 & E4).
  apply wp_bind, wp_modify. set (s4 := cancelP2PWait _ s3).
  assert (Q14 : quiet s s4).
  { etrans; [exact Q13|]. unfold s4, cancelP2PWait. repeat case_match; by apply quiet_same. }
  assert (Hh' : Header_Height (sh_Header (ev_Header ev)) = LastBlockHeight cur + 1).
  { destruct Hcur as (_ & Hu & _). destruct Hev as [[(Hw & _) _] _ _ _]. unfold Header_Height in *.
    destruct (decide (LastBlockHeight cur + 1 < two64)); [by rewrite add64_small in Hh by (unfold is_u64 in Hu; lia)|].
    assert (LastBlockHeight cur = two64 - 1) as Hm by (unfold is_u64 in Hu; lia). unfold is_u64 in Hw. lia. }
  apply wp_bind, wp_attempt. unfold TrySyncNextBlock. wp_read. simpl id.
  replace (getLastState s4) with cur by (unfold getLastState; by rewrite (q_state _ _ Q14), Hl).
  eapply wp_mono; [apply (trySync_spec ev' cur (LastBlockHeight cur)); [done|done|by apply Q14| |rewrite E1; intros; lia]|].
  { by rewrite (c_height_proper _ _ _ (q_contents _ _ Q14)). }
  intros r s5 R5. assert (S5 : step_with ev s s5).
  { destruct R5 as [Q5|A5]; [left; by etrans|right]. exists cur, (ev_Data ev'). rewrite E1, E2, (q_provider _ _ Q14) in A5.
    cbv zeta. split_and!; [done|done| |by eapply quiet_appended]. split; [|done].
    destruct A5 as [A5 _ _ _ _ _ _]. by rewrite (q_provider _ _ Q14) in A5. }
  destruct r as [[]|e]; [by apply wp_ret|]. eapply wp_mono; [by apply quietly_retry|].
  intros r s6 Q6. by eapply step_with_quiet.
Qed.

Lemma step_with_inv ev s s' : event_wf ev -> sync_inv s -> step_with ev s s' -> sync_inv s'.
Proof.
  intros Hev Hi [Hq|(cur & data & Hl & _ & _ & Ha)]; [by eapply sync_quiet_inv|].
  eapply appended_inv; [| | |exact Hi|exact Ha]; [apply Hev..|].
  destruct Hi as [(cur' & Hl' & Hwf & _) _ _ _]. by simplify_eq.
Qed.
End sync.
