(* ===== verification/SyncRun.v ===== *)
(** * Runs of a syncing node

    The syncer, its three sources of events and its queues, taken together: a
    run interleaves their operations in any order, with any events, answers and
    failures. The stored chain only grows, by blocks that follow it. *)

From S2P Require Import Prelude Sha256 Datastore Types Serialization SerializationFacts Validation Store StoreFacts StoreAPI ChainWrites.
From S2P Require Import BlockCache Pending PendingFacts CacheManager DAClient Batching ForcedInclusion Sequencing Execution Replayer.
From S2P Require Import ForcedCheck PriorityHeights DARetriever DARetrieverFacts DecodeFacts Syncer SyncFlow SyncerFacts.
From stdpp Require Import base gmap strings list numbers.
Open Scope Z_scope.

(** What the P2P stores deliver has been decoded. *)
Class P2PStoresLaws (P PK : Type) `{P2PStores P PK} `{PubKeys PK} := {
  p2p_GetHeader_law h p : wp (p2p_GetHeader h) (fun r _ => forall header hint, r = Ok (header, hint) -> signed_wf header /\ is_u64 hint) p;
  p2p_GetData_law h p : wp (p2p_GetData h) (fun r _ => forall data hint, r = Ok (data, hint) -> data_wf data /\ is_u64 hint) p
}.

Section run.
Context {ST PK W F EX V P : Type} {C : Type -> Type}.
Context `{BlockStoreLaws ST PK} `{LRU C} `{MapOrder} `{BlobRPC W} `{HeaderOrderLaws PK} `{FISource F} `{Executor EX} `{ExecutionLaws EX}.
Context `{FloatConversion} `{SyncEnv V} `{WireLaws} `{HashText} `{!P2PStores P PK} `{!P2PStoresLaws P PK}.
Context `{ProtoMsg pbVersion, ProtoMsg pbHeader, ProtoMsg pbSignedHeader, ProtoMsg pbMetadata, ProtoMsg pbData,
          ProtoMsg pbSignedData, ProtoMsg pbDAHeaderEnvelope}.
Context `{!ProtoRange pbSignedHeader pbSignedHeader_range, !ProtoRange pbDAHeaderEnvelope pbDAHeaderEnvelope_range,
          !ProtoRange pbData pbData_range, !ProtoRange pbSignedData pbSignedData_range}.
Abbreviation S := (Syncer ST PK W F EX V C).
Abbreviation event := (DAHeightEvent PK).
Abbreviation quietly' := (quietly (ST := ST) (PK := PK) (W := W) (F := F) (EX := EX) (V := V) (C := C)).

(** ** Queues *)

Lemma try_send_quiet (ev : event) (s : S) : event_wf ev -> wp (try_send ev) (fun _ s' => quiet s s') s.
Proof.
  intros Hev. unfold try_send, wp. case_match; [|done]. split; try done. intros (A1 & A2 & A3 & A4 & A5). split_and!; try done.
  simpl. apply Forall_app. by split; [|apply Forall_cons_2].
Qed.

Lemma PipeEvent_quiet (ev : event) (s : S) : event_wf ev -> wp (PipeEvent ev) (fun _ s' => quiet s s') s.
Proof.
  intros Hev. revert s. change (quietly' (PipeEvent ev)).
  unfold PipeEvent. assert (Hs : quietly' (try_send ev))
    by (intros s; by apply try_send_quiet). quiet_auto.
Qed.

Lemma PipeEvents_quiet (evs : list event) (s : S) :
  Forall event_wf evs -> wp (for_each evs PipeEvent) (fun _ s' => quiet s s') s.
Proof.
  intros Hevs. revert s. induction Hevs as [|ev evs Hev _ IH]; intros s; [by apply wp_ret|]. cbn [for_each].
  apply wp_bind. eapply wp_mono; [by apply PipeEvent_quiet|]. intros [[]|] s1 Q1; [|done].
  eapply wp_mono; [apply IH|]. intros. by etrans.
Qed.

Lemma pending_loop_quiet fuel next (s : S) : events_wf s -> wp (pending_loop fuel next) (fun _ s' => quiet s s') s.
Proof.
  revert next s. induction fuel as [|fuel IH]; intros next s Hw; [by apply wp_ret|]. cbn [pending_loop]. wp_read.
  unfold GetNextPendingEvent. destruct (pendingEvents (s_mgr s) !! next) as [ev|] eqn:Hev; [|by apply wp_ret].
  assert (Hewf : event_wf ev) by by apply (proj1 (proj2 Hw) next).
  apply wp_bind, wp_modify. set (s1 := set_s_mgr _ s).
  assert (Q1 : quiet s s1).
  { split; try done. intros (A1 & A2 & A3 & A4 & A5). split_and!; try done. by apply map_Forall_delete. }
  apply wp_bind. eapply wp_mono; [apply quietly_env|]. intros [done|] s2 Q2; [|by etrans].
  assert (Q12 : quiet s s2) by by etrans.
  assert (Hback : forall s3, quiet s s3 -> wp (modify_mgr (SetPendingEvent next ev)) (fun _ s' => quiet s s') s3).
  { intros s3 Q3. eapply wp_mono; [by apply quietly_pending|]. intros. by etrans. }
  destruct done; [by apply Hback|]. apply wp_bind.
  eapply wp_mono; [apply try_send_quiet; destruct Hewf; by split|]. intros [sent|] s3 Q3; [|by etrans].
  assert (Q13 : quiet s s3) by by etrans. destruct sent; [|by apply Hback].
  eapply wp_mono; [apply IH; by apply Q13|]. intros. by etrans.
Qed.

Lemma processPendingEvents_quiet (s : S) : events_wf s -> wp processPendingEvents (fun _ s' => quiet s s') s.
Proof.
  intros Hw. unfold processPendingEvents. apply wp_bind, wp_attempt.
  eapply wp_sy_read; [apply Height_law| |by intros; apply wp_ret].
  intros st a Q1 _. destruct (map_err SyStore a); [|by apply wp_ret]. wp_read.
  eapply wp_mono; [apply pending_loop_quiet; by apply Q1|]. intros. by etrans.
Qed.

Lemma process_next_spec (s : S) :
  sync_inv s -> wp process_next (fun _ s' => quiet s s' \/ exists ev, event_wf ev /\ step_with ev s s') s.
Proof.
  intros Hi. unfold process_next. wp_read. destruct (s_heightInCh s) as [|ev rest] eqn:Hch; [apply wp_ret; by left|].
  apply wp_bind, wp_modify. set (s1 := set_s_heightInCh rest s).
  pose proof (si_events _ Hi) as Hw. assert (Hall := proj1 Hw). rewrite Hch in Hall. apply Forall_cons_1 in Hall as [Hev Hrest].
  assert (Q1 : quiet s s1).
  { split; try done. intros (A1 & A2 & A3 & A4 & A5). by split_and!. }
  eapply wp_mono; [apply processHeightEvent_spec; [by eapply sync_quiet_inv|done]|]. intros r s2 S2. right. exists ev.
  split; [done|]. eapply quiet_step_with; [|exact Q1|exact S2]. apply Hi.
Qed.

(** ** The DA follower *)

Lemma on_retriever_spec {A} (m : M (daRetriever ST PK W C) dr_error A) (good : A -> Prop) (s : S) :
  (forall r, wp m (fun res r' => dr_kept r r' /\ (waiting_wf r -> forall a, res = Ok a -> good a)) r) ->
  events_wf s ->
  wp (on_retriever m) (fun res s' => quiet s s' /\ forall a, res = Ok a -> good a) s.
Proof.
  intros Hm Hw. unfold on_retriever, wp. destruct (s_retriever s) as [r|] eqn:Hr; [|done].
  pose proof (Hm (retriever_of r s)) as Hk. unfold wp in Hk. destruct (m (retriever_of r s)) as [res d].
  destruct Hk as [[K1 K2 K3] Hg]. pose proof (waiting_retriever r s Hr Hw) as Hwait. split.
  - apply quiet_retriever; simpl in *; [unfold s_contents, s_store; by rewrite K1|by rewrite K2|by intros _; apply K3].
  - intros a Ha. apply (Hg Hwait). by destruct res; simplify_eq/=.
Qed.

Lemma sy_RetrieveFromDA_spec h (s : S) :
  is_u64 h -> events_wf s ->
  wp (sy_RetrieveFromDA h) (fun res s' => quiet s s' /\ forall evs, res = Ok evs -> Forall event_wf evs) s.
Proof. intros Hh Hw. unfold sy_RetrieveFromDA. wp_read. apply on_retriever_spec; [|done]. intros r. by apply RetrieveFromDA_wf. Qed.

Lemma fetchAndPipeHeight_quiet h (s : S) : is_u64 h -> events_wf s -> wp (fetchAndPipeHeight h) (fun _ s' => quiet s s') s.
Proof.
  intros Hh Hw. unfold fetchAndPipeHeight. apply wp_bind, wp_attempt. eapply wp_mono; [by apply sy_RetrieveFromDA_spec|].
  intros [evs|e] s1 [Q1 Hevs].
  - eapply wp_mono; [apply PipeEvents_quiet; by apply Hevs|]. intros. by etrans.
  - destruct e as [| | | | | | |[]| | |]; (apply wp_ret || apply wp_throw); done.
Qed.

Lemma HandleEvent_quiet h blobs inline (s : S) :
  is_u64 h -> events_wf s -> wp (HandleEvent h blobs inline) (fun _ s' => quiet s s') s.
Proof.
  intros Hh Hw. unfold HandleEvent. destruct inline; [|by apply wp_ret]. destruct (_ =? _); [by apply wp_throw|]. cbn [negb].
  apply wp_bind. unfold sy_ProcessBlobs. wp_read.
  eapply wp_mono; [apply (on_retriever_spec _ (fun evs => Forall event_wf evs)); [|done]; intros r; by apply ProcessBlobs_wf|].
  intros [evs|e] s1 [Q1 Hevs]; [|done]. destruct (_ =? _); [by apply wp_throw|].
  eapply wp_mono; [apply PipeEvents_quiet; by apply Hevs|]. intros. by etrans.
Qed.

Lemma drain_priority_quiet fuel h (s : S) : is_u64 h -> events_wf s -> wp (drain_priority fuel h) (fun _ s' => quiet s s') s.
Proof.
  intros Hh. revert s. induction fuel as [|fuel IH]; intros s Hw; [by apply wp_ret|]. cbn [drain_priority]. apply wp_bind.
  unfold pop_priority, wp at 1. destruct (s_follower s) as [[|p q]|] eqn:Hq; simpl; [apply wp_ret; by apply quiet_same; rewrite ?Hq| |by apply wp_ret].
  set (s1 := set_s_follower (Some q) s).
  assert (Hp : is_u64 p /\ Forall is_u64 q).
  { destruct Hw as (_ & _ & _ & _ & Hf). rewrite Hq in Hf. by apply Forall_cons_1 in Hf. }
  destruct Hp as [Hp Hq'].
  assert (Q1 : quiet s s1) by (split; try done; intros (A1 & A2 & A3 & A4 & A5); by split_and!).
  assert (Hw1 : events_wf s1) by by apply Q1.
  assert (Hgo : forall s2, quiet s s2 -> wp (drain_priority fuel h) (fun _ s' => quiet s s') s2).
  { intros s2 Q2. eapply wp_mono; [apply IH; by apply Q2|]. intros. by etrans. }
  case_match; [by apply wp_ret|]. case_match; [by apply Hgo|].
  apply wp_bind, wp_attempt. eapply wp_mono; [by apply fetchAndPipeHeight_quiet|]. intros r s2 Q2.
  assert (Q12 : quiet s s2) by by etrans. destruct r as [[]|e]; [by apply wp_ret|].
  destruct e as [| | | | | | |[]| | |]; first [by apply wp_throw | by apply Hgo].
Qed.

Lemma HandleCatchup_quiet h (s : S) : is_u64 h -> events_wf s -> wp (HandleCatchup h) (fun _ s' => quiet s s') s.
Proof.
  intros Hh Hw. unfold HandleCatchup. wp_read. apply wp_bind. eapply wp_mono; [by apply drain_priority_quiet|].
  intros [[]|] s1 Q1; [|done]. eapply wp_mono; [apply fetchAndPipeHeight_quiet; [done|by apply Q1]|]. intros. by etrans.
Qed.

(** ** P2P *)

Lemma wp_on_syncer {A} (m : SM A) (s0 : S) (sp : S * P) :
  quiet s0 sp.1 -> wp m (fun _ s' => quiet sp.1 s') sp.1 -> wp (on_syncer m) (fun _ sp' => quiet s0 sp'.1) sp.
Proof. intros Q0 Hm. apply wp_zoom. eapply wp_mono; [exact Hm|]. intros r s' Q1. simpl. by etrans. Qed.

Lemma ProcessHeight_quiet h (sp : S * P) : wp (ProcessHeight h) (fun _ sp' => quiet sp.1 sp'.1) sp.
Proof.
  unfold ProcessHeight. wp_read. case_match; [by apply wp_ret|].
  apply wp_bind, wp_zoom. eapply wp_mono; [apply p2p_GetHeader_law|]. intros [[header hint]|] p1 Hh; [|done].
  destruct (Hh header hint eq_refl) as [Hhw Hhint]. destruct (negb _); [by apply wp_throw|].
  apply wp_bind, wp_zoom. eapply wp_mono; [apply p2p_GetData_law|]. intros [[data dhint]|] p2 Hd; [|done].
  destruct (Hd data dhint eq_refl) as [Hdw Hdhint]. apply wp_bind, wp_lift_res. destruct (map_err _ _) as [dh|]; [|done].
  destruct (negb (dh =? h)); [by apply wp_throw|]. destruct (negb _); [by apply wp_throw|].
  fold (memoized header). set (ev := MkEvent (memoized header) data 0 SourceP2P (hint, dhint)).
  assert (Hev : event_wf ev) by (split; [by apply memoized_wf|done|done|done]).
  apply wp_bind. eapply wp_mono; [apply (wp_on_syncer _ sp.1); [done|by apply try_send_quiet]|].
  intros [[]|] sp1 Q1; [| |done]; apply wp_bind; (eapply wp_mono with (P := fun _ sp' => quiet sp.1 sp'.1)).
  - by apply wp_ret.
  - intros [[]|] sp2 Q2; [|done]. apply wp_on_syncer; [done|]. apply quietly_p2p.
  - apply wp_on_syncer; [done|by apply quietly_pending].
  - intros [[]|] sp2 Q2; [|done]. apply wp_on_syncer; [done|]. apply quietly_p2p.
Qed.

Lemma quietly_cancel h : quietly' (modify (cancelP2PWait h)).
Proof. apply quietly_modify. intros s. unfold cancelP2PWait. repeat case_match; by apply quiet_same. Qed.

Lemma p2p_round_quiet (sp : S * P) : wp p2p_round (fun _ sp' => quiet sp.1 sp'.1) sp.
Proof.
  unfold p2p_round. apply wp_bind, wp_attempt.
  eapply wp_mono; [apply (wp_on_syncer _ sp.1); [done|eapply quietly_read, Height_law]|].
  intros [h|] sp1 Q1; [|by apply wp_ret]. apply wp_bind.
  eapply wp_mono; [apply (wp_on_syncer _ sp.1); [done|]; apply quietly_modify; intros s; by apply quiet_same|].
  intros [[]|] sp2 Q2; [|done]. apply wp_bind, wp_attempt. eapply wp_mono; [apply ProcessHeight_quiet|].
  intros r sp3 Q3. assert (Q13 : quiet sp.1 sp3.1) by by etrans.
  apply wp_bind. eapply wp_mono; [apply (wp_on_syncer _ sp.1); [done|apply quietly_cancel]|].
  intros [[]|] sp4 Q4; [|done]. destruct r; by apply wp_ret.
Qed.

(** ** Raft *)

Lemma quietly_preprocess state : quietly' (raft_preprocess state).
Proof.
  unfold raft_preprocess. apply quietly_bind; [|intros []]; intros s; apply wp_zoom, wp_wrap, wp_zoom;
    (eapply wp_mono; [apply setLast_spec|]); intros r x (-> & _ & _ & Hc); cbn [map_err];
    (split; try done); simpl; unfold s_contents; destruct Hc as [[Hc _]|[_ Hc]]; exact (chain_part_proper _ _ Hc).
Qed.

Lemma consumeRaftBlock_quiet state (s : S) : wp (consumeRaftBlock state) (fun _ s' => quiet s s') s.
Proof.
  unfold consumeRaftBlock. apply wp_bind. eapply wp_mono; [apply quietly_preprocess|]. intros [[]|] s1 Q1; [|done].
  destruct (SignedHeader_UnmarshalBinary _ _) as [[[]|] header] eqn:Hh; [|by apply wp_throw].
  apply wp_bind. eapply wp_mono; [apply quietly_env|]. intros [nw|] s2 Q2; [|by etrans].
  assert (Q12 : quiet s s2) by by etrans. destruct (Header_ValidateBasic _ _); [|by apply wp_ret].
  destruct (Data_UnmarshalBinary _ _) as [[[]|] data] eqn:Hd; [|by apply wp_throw].
  eapply wp_mono; [apply PipeEvent_quiet|by intros; etrans].
  split; [by eapply SignedHeader_Unmarshal_wf|by eapply Data_Unmarshal_wf|done|done].
Qed.

(** The chain has started, and its height is not the largest one. *)
Definition started (s : S) : Prop :=
  forall cur, s_lastState s = Some cur ->
    st_ChainID cur <> ""%string /\ sl (st_LastHeaderHash cur) <> [] /\ LastBlockHeight cur < max_u64.

Lemma RecoverFromRaft_spec rs (s : S) :
  is_u64 (rb_Height rs) -> sync_inv s -> started s ->
  wp (RecoverFromRaft rs) (fun _ s' => quiet s s' \/ exists ev, event_wf ev /\ step_with ev s s') s.
Proof.
  intros Hr Hi Hs. destruct Hi as [(cur & Hl & Hcur & Hc) _ Ht _]. destruct (Hs cur Hl) as (Hid & Hhash & Hmax).
  unfold RecoverFromRaft, decode_raft_block. apply wp_bind, wp_lift_res.
  destruct (SignedHeader_UnmarshalBinary _ _) as [[[]|] header] eqn:Hh; [|by left].
  destruct (Data_UnmarshalBinary _ _) as [[[]|] data] eqn:Hd; [|by left].
  apply SignedHeader_Unmarshal_wf in Hh. apply Data_Unmarshal_wf in Hd.
  apply wp_bind. unfold recovery_state. wp_read.
  replace (getLastState s) with cur by (unfold getLastState; by rewrite Hl).
  rewrite bool_decide_false by done. apply wp_ret.
  destruct (_ =? _); [destruct (slice_equal _ _); [apply wp_ret|apply wp_throw]; by left|].
  destruct (_ =? _).
  - set (ev := MkEvent header data 0 SourceRaft (0, 0)). assert (Hev : event_wf ev) by (split; done).
    assert (Hnext : forall sh : SignedHeader PK, sh_Header sh = sh_Header header -> follows cur sh ->
              Header_Height (sh_Header header) = LastBlockHeight cur + 1).
    { intros sh <- (_ & -> & _). destruct Hcur as (_ & Hu & _). apply add64_small. unfold is_u64, max_u64, two64 in *. lia. }
    eapply wp_mono; [apply (trySync_spec ev cur (LastBlockHeight cur)); try done|].
    + intros Hv. simpl. rewrite (Hnext _ eq_refl (vb_follows _ _ _ _ Hv Hhash)). lia.
    + intros r s' [Q|A]; [by left|right]. exists ev. split; [done|]. right. exists cur, data. cbv zeta.
      pose proof (ap_valid _ _ _ _ _ _ A) as Hv.
      split_and!; [done|done| |exact A]. split; [done|]. by apply (Hnext (SetCustomVerifierForSyncNode (s_provider s) header)), Hv.
  - destruct (rb_Height rs <? _); [|apply wp_ret; by left].
    apply wp_bind. eapply wp_mono; [by eapply quietly_read, GetHeader_law|].
    intros [lh|] s1 Q1; [|by left]. destruct (slice_equal _ _); [apply wp_ret|apply wp_throw]; by left.
Qed.

(** ** Runs *)

(** A step of the node: an operation of one of its parts, whatever it returns. *)
Inductive sync_step : S * P -> S * P -> Prop :=
| step_event ev s p : event_wf ev -> sync_step (s, p) ((PipeEvent ev s).2, p)
| step_process s p : sync_step (s, p) ((process_next s).2, p)
| step_pending s p : sync_step (s, p) ((processPendingEvents s).2, p)
| step_catchup h s p : is_u64 h -> sync_step (s, p) ((HandleCatchup h s).2, p)
| step_inline h blobs inline s p : is_u64 h -> sync_step (s, p) ((HandleEvent h blobs inline s).2, p)
| step_p2p sp : sync_step sp (p2p_round sp).2
| step_raft rs s p : sync_step (s, p) ((consumeRaftBlock rs s).2, p)
| step_recover rs s p : is_u64 (rb_Height rs) -> started s -> sync_step (s, p) ((RecoverFromRaft rs s).2, p).

Lemma wp_2 {St E A} (m : M St E A) (Q : St -> Prop) s : wp m (fun _ s' => Q s') s -> Q (m s).2.
Proof. unfold wp. by destruct (m s). Qed.

Lemma step_cases sp sp' :
  sync_inv sp.1 -> sync_step sp sp' -> quiet sp.1 sp'.1 \/ exists ev, event_wf ev /\ step_with ev sp.1 sp'.1.
Proof.
  intros Hi Hst. pose proof (si_events _ Hi) as Hw. destruct Hst; simpl in *.
  - left. by apply wp_2, PipeEvent_quiet.
  - apply (wp_2 _ (fun s' => quiet s s' \/ _)), process_next_spec, Hi.
  - left. by apply wp_2, processPendingEvents_quiet.
  - left. by apply wp_2, HandleCatchup_quiet.
  - left. by apply wp_2, HandleEvent_quiet.
  - left. apply (wp_2 _ (fun sp' => quiet sp.1 sp'.1)), p2p_round_quiet.
  - left. by apply wp_2, consumeRaftBlock_quiet.
  - by apply (wp_2 _ (fun s' => quiet s s' \/ _)), RecoverFromRaft_spec.
Qed.

(** ** Growth of the chain *)

(** A synced block, with the DA height of its event. *)
Definition sblock : Type := SignedHeader PK * Data * Z.

Definition after_block (cur : State) (b : sblock) : State := synced_state cur (sh_Header b.1.1) b.1.2 b.2.
Definition state_after : State -> list sblock -> State := foldl after_block.

(** Every block follows the state that the blocks before it lead to. *)
Fixpoint follow_chain (p : provider) (cur : State) (bs : list sblock) : Prop :=
  match bs with
  | [] => True
  | b :: bs' => next_block p cur b.1.1 b.1.2 /\ follow_chain p (after_block cur b) bs'
  end.

(** What the store holds once the blocks are appended. *)
Fixpoint contents_after (cur : State) (c : contents PK) (bs : list sblock) : contents PK :=
  match bs with
  | [] => c
  | b :: bs' => contents_after (after_block cur b) (apply_batch c (block_batch b.1.1 b.1.2 (after_block cur b))) bs'
  end.

(** The headers of the blocks that do not name their predecessor. *)
Fixpoint unlinked_chain (cur : State) (bs : list sblock) : Z :=
  match bs with
  | [] => 0
  | b :: bs' => unlinked_in cur b.1.1 + unlinked_chain (after_block cur b) bs'
  end.

Lemma follow_chain_snoc p cur bs b :
  follow_chain p cur (bs ++ [b]) <-> follow_chain p cur bs /\ next_block p (state_after cur bs) b.1.1 b.1.2.
Proof. revert cur. induction bs as [|b0 bs IH]; intros cur; simpl; [tauto|]. rewrite IH. tauto. Qed.
Lemma contents_after_snoc cur c bs b :
  contents_after cur c (bs ++ [b]) =
  apply_batch (contents_after cur c bs) (block_batch b.1.1 b.1.2 (state_after cur (bs ++ [b]))).
Proof. revert cur c. induction bs as [|b0 bs IH]; intros cur c; simpl; [done|]. by rewrite IH. Qed.
Lemma unlinked_chain_snoc cur bs b :
  unlinked_chain cur (bs ++ [b]) = unlinked_chain cur bs + unlinked_in (state_after cur bs) b.1.1.
Proof. revert cur. induction bs as [|b0 bs IH]; intros cur; simpl; [lia|]. rewrite IH. lia. Qed.

(** The node [s'] has appended the blocks [bs] to the chain of [s]. *)
Record grown (bs : list sblock) (s s' : S) : Prop := {
  gr_state : forall cur, s_lastState s = Some cur -> s_lastState s' = Some (state_after cur bs) /\
    follow_chain (s_provider s) cur bs /\ s_contents s' ≡ contents_after cur (s_contents s) bs /\
    unlinked_so_far s + unlinked_chain cur bs <= unlinked_so_far s';
  gr_provider : s_provider s' = s_provider s;
  gr_inv : sync_inv s' }.

Lemma grown_nil s : sync_inv s -> grown [] s s.
Proof. intros Hi. split; [|done|done]. intros cur Hl. split_and!; [done|done|done|simpl; lia]. Qed.

Lemma grown_step bs (s s1 : S) s2 :
  grown bs s s1 -> quiet s1 s2 \/ (exists ev, event_wf ev /\ step_with ev s1 s2) -> exists bs', grown bs' s s2.
Proof.
  intros [Gs Gp Gi] Hst.
  assert (Hq : quiet s1 s2 -> grown bs s s2).
  { intros Q. destruct (q_tracking _ _ Q (si_tracking _ Gi)) as [_ Hle]. split; [|by rewrite (q_provider _ _ Q)|by eapply sync_quiet_inv].
    intros cur Hl. destruct (Gs cur Hl) as (A1 & A2 & A3 & A4). rewrite (q_state _ _ Q). split_and!; try done; [|lia].
    etrans; [exact (q_contents _ _ Q)|exact A3]. }
  destruct Hst as [Q|(ev & Hev & Hsw)]; [eauto|].
  pose proof (step_with_inv _ _ _ Hev Gi Hsw) as Hi2. destruct Hsw as [Q|(cur1 & data & Hl1 & Htx & Hn & Ha)]; [eauto|].
  set (header := SetCustomVerifierForSyncNode _ _) in *. exists (bs ++ [(header, data, ev_DaHeight ev)]).
  destruct Ha as [A1 A2 A3 A4 A5 [A6 A6'] A7]. split; [|congruence|done]. intros cur Hl.
  destruct (Gs cur Hl) as (B1 & B2 & B3 & B4). rewrite Hl1 in B1. injection B1 as ->.
  rewrite follow_chain_snoc, contents_after_snoc, unlinked_chain_snoc. unfold state_after in *. rewrite foldl_snoc.
  split; [exact A3|]. split; [split; [done|by rewrite <- Gp]|]. split; [|simpl; lia].
  etrans; [exact A2|]. apply apply_batch_proper; [exact B3|]. rewrite foldl_snoc. reflexivity.
Qed.

Lemma run_grown sp sp' : sync_inv sp.1 -> rtc sync_step sp sp' -> exists bs, grown bs sp.1 sp'.1.
Proof.
  intros Hi. apply (rtc_ind_r (fun sp' => exists bs, grown bs sp.1 sp'.1)); [exists []; by apply grown_nil|].
  intros sp1 sp2 _ Hst [bs Hg]. eapply grown_step; [exact Hg|]. apply step_cases; [apply Hg|done].
Qed.

(** ** What can be read back *)

Lemma after_block_height cur b : LastBlockHeight (after_block cur b) = Header_Height (sh_Header b.1.1).
Proof. apply synced_state_height. Qed.

Lemma follow_heights p cur bs i b :
  follow_chain p cur bs -> bs !! i = Some b -> Header_Height (sh_Header b.1.1) = LastBlockHeight cur + 1 + Z.of_nat i.
Proof.
  revert cur i. induction bs as [|b0 bs IH]; intros cur i Hf Hi; [done|]. destruct Hf as [[_ Hh] Hf].
  destruct i as [|i]; simpl in Hi; [simplify_eq; lia|]. rewrite (IH _ _ Hf Hi), after_block_height, Hh. lia.
Qed.

Lemma contents_after_height p cur c bs :
  follow_chain p cur bs -> c_height c = Ok (LastBlockHeight cur) ->
  c_height (contents_after cur c bs) = Ok (LastBlockHeight cur + zlen bs).
Proof.
  revert cur c. induction bs as [|b bs IH]; intros cur c Hf Hc; [rewrite Z.add_0_r; exact Hc|]. destruct Hf as [[_ Hh] Hf].
  cbn [contents_after]. rewrite (IH _ _ Hf) by (simpl; by rewrite after_block_height). rewrite after_block_height, Hh.
  f_equal. unfold zlen. simpl. lia.
Qed.

(** What a store holds at a height. *)
Definition at_height (c : contents PK) (h : Z) := (c_header c h, c_block c h, c_signature c h, c_states c h).

Lemma contents_after_old p cur c bs h :
  follow_chain p cur bs -> h <= LastBlockHeight cur -> at_height (contents_after cur c bs) h = at_height c h.
Proof.
  revert cur c. induction bs as [|b bs IH]; intros cur c Hf Hle; [done|]. destruct Hf as [[_ Hh] Hf]. cbn [contents_after].
  rewrite (IH _ _ Hf) by (rewrite after_block_height; lia). unfold at_height. simpl. unfold upd.
  rewrite after_block_height. by rewrite !decide_False by lia.
Qed.

Lemma contents_after_new p cur c bs i b :
  follow_chain p cur bs -> bs !! i = Some b ->
  let header := norm_signed_header b.1.1 SignedHeader_New in
  at_height (contents_after cur c bs) (LastBlockHeight cur + 1 + Z.of_nat i) =
    (Ok header, Ok (header, norm_data b.1.2), Ok (sl (sh_Signature b.1.1)), Ok (norm_state (state_after cur (take (Datatypes.S i) bs)))).
Proof.
  revert cur c i. induction bs as [|b0 bs IH]; intros cur c i Hf Hi; [done|]. destruct Hf as [[Hv Hh] Hf].
  cbn [contents_after]. destruct i as [|i]; simpl in Hi.
  - simplify_eq. rewrite (contents_after_old p) by (done || rewrite after_block_height; lia).
    unfold at_height. simpl. unfold upd. rewrite after_block_height, !decide_True by lia. done.
  - etrans; [|exact (IH (after_block cur b0) (apply_batch c (block_batch b0.1.1 b0.1.2 (after_block cur b0))) i Hf Hi)].
    rewrite after_block_height, Hh. f_equal. lia.
Qed.

(** C4: Take any interleaving of the parts of a syncing node that is up, with
    any events, blobs, P2P answers, raft messages and failures; recovery from
    raft takes part once the chain has started, that is when the state has a
    chain id and a last header hash. The chain in its store is the old one
    followed by blocks that were appended in order: each has the next height, is
    signed by its proposer over a payload of its own header, carries the chain
    id of the state, has the proposer that the state names, if it names one, and
    a data hash that commits to its transactions. If the state before it has a
    last header hash, which a new chain's state has not, the block also carries
    the state's app hash and its time does not go back, and at most one such
    block of the run does not name its predecessor. The state that is kept, in
    memory and per height in the store, is what executing the blocks results in,
    and nothing at an older height changes. *)
Theorem sync_run_correct (sp sp' : S * P) cur :
  sync_inv sp.1 -> s_lastState sp.1 = Some cur -> rtc sync_step sp sp' ->
  exists bs, follow_chain (s_provider sp.1) cur bs /\ s_lastState sp'.1 = Some (state_after cur bs) /\
    c_height (s_contents sp'.1) = Ok (LastBlockHeight cur + zlen bs) /\
    (forall i b, bs !! i = Some b ->
       let header := norm_signed_header b.1.1 SignedHeader_New in
       at_height (s_contents sp'.1) (LastBlockHeight cur + 1 + Z.of_nat i) =
         (Ok header, Ok (header, norm_data b.1.2), Ok (sl (sh_Signature b.1.1)),
          Ok (norm_state (state_after cur (take (Datatypes.S i) bs))))) /\
    (forall h, 0 <= h <= LastBlockHeight cur -> at_height (s_contents sp'.1) h = at_height (s_contents sp.1) h) /\
    unlinked_chain cur bs <= 1.
Proof.
  intros Hi Hl Hr. destruct (run_grown _ _ Hi Hr) as [bs [Gs _ Gi]]. destruct (Gs cur Hl) as (Hs & Hf & Hc & Hu). exists bs.
  assert (Hat : forall h, 0 <= h -> at_height (s_contents sp'.1) h = at_height (contents_after cur (s_contents sp.1) bs) h).
  { intros h Hh. unfold at_height. destruct Hc. f_equal; [f_equal; [f_equal|]|]; auto. }
  destruct Hi as [(cur' & Hl' & Hwf & Hch) _ Ht _]. rewrite Hl in Hl'. injection Hl' as <-.
  assert (0 <= LastBlockHeight cur) by apply Hwf. split_and!; [done|done| | | |].
  - rewrite (c_height_proper _ _ _ Hc). by eapply contents_after_height.
  - intros i b Hib. cbv zeta. rewrite Hat by lia. by eapply contents_after_new.
  - intros h Hh. rewrite Hat by lia. eapply contents_after_old; [exact Hf|lia].
  - unfold unlinked_so_far in Hu. destruct Ht as [E|E], (si_tracking _ Gi) as [E'|E']; rewrite E, E' in Hu; simpl in Hu; lia.
Qed.

End run.
