(* ===== verification/SyncStart.v ===== *)
(** * Starting a syncing node, and the events that wait

    What [initializeState] establishes: the invariant that the runs of
    [SyncRun.v] start from, and the epoch that the forced inclusion check
    resumes after. And the loop that hands waiting events to the syncer. *)

From S2P Require Import Prelude Sha256 Datastore Types Serialization SerializationFacts Validation Store StoreFacts StoreAPI ChainWrites.
From S2P Require Import BlockCache Pending PendingFacts CacheManager DAClient Batching ForcedInclusion Sequencing Execution Replayer.
From S2P Require Import ForcedCheck PriorityHeights DARetriever DARetrieverFacts DecodeFacts Syncer SyncFlow SyncerFacts SyncRun.
From stdpp Require Import base gmap strings list numbers.
Open Scope Z_scope.

(** The epoch that the check resumes after is the last one that ends by the DA
    height of the state. *)
Lemma initial_checked_epoch_spec g da last :
  let size := g_DAEpochForcedInclusion g in
  let first := g_DAStartHeight g + size - 1 in
  0 < size -> 0 <= g_DAStartHeight g -> first < two64 -> is_u64 da ->
  let e := initial_checked_epoch g da last in
  if first <=? da then (exists k, 0 <= k /\ e = first + k * size) /\ e <= da < e + size else e = last.
Proof.
  intros size first Hs Hg Hf Hd. unfold initial_checked_epoch. fold size.
  assert (Hfirst : sub64 (add64 (g_DAStartHeight g) size) 1 = first).
  { destruct (decide (g_DAStartHeight g + size < two64)) as [Hlt|Hge].
    - rewrite add64_small by lia. rewrite sub64_small; unfold first in *; lia.
    - assert (E : g_DAStartHeight g + size = two64) by (unfold first in *; lia).
      unfold add64. rewrite E. unfold first. rewrite E. reflexivity. }
  rewrite Hfirst. cbv zeta. rewrite (proj2 (Z.ltb_lt _ _) Hs). cbn [andb].
  destruct (Z.leb_spec first da) as [Hle|Hgt].
  - rewrite (proj2 (Z.leb_le (g_DAStartHeight g) da)) by (unfold first in *; lia).
    unfold is_u64 in Hd. rewrite (sub64_small da first) by (unfold first in *; lia).
    set (k := (da - first) / size).
    assert (Hk : 0 <= k) by (apply Z.div_pos; lia).
    pose proof (Z.div_mod (da - first) size ltac:(lia)) as Hdm. fold k in Hdm.
    pose proof (Z.mod_pos_bound (da - first) size Hs) as Hm.
    assert (0 <= k * size) by nia.
    rewrite (mul64_small k size) by (unfold first in *; lia). rewrite add64_small by (unfold first in *; lia).
    split; [by exists k|lia].
  - by destruct (_ <=? _).
Qed.

Section start.
Context {ST PK W F EX V : Type} {C : Type -> Type}.
Context `{BlockStoreLaws ST PK} `{LRU C} `{MapOrder} `{BlobRPC W} `{HeaderOrder PK} `{FISource F} `{Executor EX} `{ExecutionLaws EX}.
Context `{FloatConversion} `{SyncEnv V} `{Wire} `{HashText}.
Context `{ProtoMsg pbVersion, ProtoMsg pbHeader, ProtoMsg pbSignedHeader, ProtoMsg pbMetadata, ProtoMsg pbData,
          ProtoMsg pbSignedData, ProtoMsg pbDAHeaderEnvelope}.
Abbreviation S := (Syncer ST PK W F EX V C).
Abbreviation event := (DAHeightEvent PK).

(** ** Waiting events *)

Definition clear_hints (ev : event) : event := MkEvent (ev_Header ev) (ev_Data ev) (ev_DaHeight ev) (ev_Source ev) (0, 0).

(** Events leave the waiting room for the queue, from [next] on, without a gap:
    up to a height where none waits, until the queue is full, or until the
    context is found done. *)
Record handed_over (next : Z) (es : list event) (s s' : S) : Prop := {
  ho_queue : s_heightInCh s' = s_heightInCh s ++ (clear_hints <$> es);
  ho_taken i e : es !! i = Some e -> pendingEvents (s_mgr s) !! (next + Z.of_nat i) = Some e;
  ho_left h : pendingEvents (s_mgr s') !! h =
    if decide (next <= h < next + zlen es) then None else pendingEvents (s_mgr s) !! h;
  ho_end : pendingEvents (s_mgr s) !! (next + zlen es) = None \/ (heightInCap <= length (s_heightInCh s'))%nat \/
    (exists v, env_done v = (true, s_env s'));
  ho_store : bs_contents (s_store s') ≡ bs_contents (s_store s) }.

Lemma handed_over_nil next (s s' : S) :
  s_heightInCh s' = s_heightInCh s -> (forall h, pendingEvents (s_mgr s') !! h = pendingEvents (s_mgr s) !! h) ->
  bs_contents (s_store s') ≡ bs_contents (s_store s) ->
  pendingEvents (s_mgr s) !! next = None \/ (heightInCap <= length (s_heightInCh s'))%nat \/
    (exists v, env_done v = (true, s_env s')) -> handed_over next [] s s'.
Proof.
  intros Hc Hp Hs He. split; [by rewrite app_nil_r|done| |by rewrite Z.add_0_r|done].
  intros h. rewrite decide_False by (unfold zlen; simpl; lia). apply Hp.
Qed.

Lemma pending_loop_spec fuel next (s : S) :
  (size (pendingEvents (s_mgr s)) < fuel)%nat -> 0 <= next < two64 ->
  (forall h e, pendingEvents (s_mgr s) !! h = Some e -> h < max_u64) ->
  wp (pending_loop fuel next) (fun r s' => r = Ok tt /\ exists es, handed_over next es s s') s.
Proof.
  revert next s. induction fuel as [|fuel IH]; intros next s Hf Hn Hmax; [lia|].
  cbn [pending_loop]. wp_read. unfold GetNextPendingEvent.
  destruct (pendingEvents (s_mgr s) !! next) as [ev|] eqn:Hev.
  2:{ apply wp_ret. split; [done|]. exists []. apply handed_over_nil; auto. }
  apply wp_bind, wp_modify. set (s1 := set_s_mgr _ s).
  assert (Hback : forall h, <[next := ev]> (delete next (pendingEvents (s_mgr s))) !! h = pendingEvents (s_mgr s) !! h).
  { intros h. rewrite insert_delete_eq. destruct (decide (h = next)) as [->|Hne];
      [by rewrite lookup_insert_eq|by rewrite lookup_insert_ne]. }
  apply wp_bind, wp_zoom, wp_infallible. destruct (env_done (s_env s1)) as [[] v] eqn:Hdone; cbn [fst snd].
  { apply wp_modify. split; [done|]. exists []. apply handed_over_nil; try done. right; right. by exists (s_env s1). }
  set (s2 := set_s_env v s1). apply wp_bind. unfold try_send, wp at 1. fold (clear_hints ev).
  destruct (Nat.ltb_spec (length (s_heightInCh s2)) heightInCap) as [Hcap|Hcap].
  2:{ apply wp_modify. split; [done|]. exists []. apply handed_over_nil; try done. by right; left. }
  set (s3 := set_s_heightInCh _ s2). pose proof (Hmax _ _ Hev) as Hlt. unfold max_u64, two64 in *.
  rewrite add64_small by (unfold two64; lia).
  eapply wp_mono; [apply IH|].
  - simpl. rewrite map_size_delete_Some by by eexists. assert (size (pendingEvents (s_mgr s)) <> 0%nat); [|lia].
    apply map_size_non_empty_iff. intros E. by rewrite E, lookup_empty in Hev.
  - unfold two64. lia.
  - simpl. intros h e [_ Hl]%lookup_delete_Some. by eapply Hmax.
  - intros r s' (-> & es & [A1 A2 A3 A4 A5]). split; [done|]. exists (ev :: es).
    assert (Hz : zlen (ev :: es) = zlen es + 1) by (unfold zlen; simpl; lia). split.
    + rewrite A1. simpl. by rewrite <- app_assoc.
    + intros [|i] e Hi; simpl in Hi; [simplify_eq; by rewrite Z.add_0_r|].
      apply A2 in Hi. simpl in Hi. apply lookup_delete_Some in Hi as [_ Hi]. rewrite <- Hi. f_equal. lia.
    + intros h. rewrite A3. simpl. pose proof (zlen_nonneg es). destruct (decide (h = next)) as [->|Hne].
      * rewrite decide_False by lia. rewrite lookup_delete_eq. by rewrite decide_True by lia.
      * rewrite lookup_delete_ne by done. destruct (decide (next + 1 <= h < next + 1 + zlen es));
          [by rewrite decide_True by lia|by rewrite decide_False by lia].
    + destruct A4 as [A4|A4]; [left|by right]. simpl in A4. rewrite lookup_delete_ne in A4 by (pose proof (zlen_nonneg es); lia).
      rewrite <- A4. f_equal. lia.
    + exact A5.
Qed.

(** The node is as it was, up to what a failed read leaves in the store. *)
Record idle (s s' : S) : Prop := {
  id_queue : s_heightInCh s' = s_heightInCh s;
  id_pending : pendingEvents (s_mgr s') = pendingEvents (s_mgr s);
  id_store : bs_contents (s_store s') ≡ bs_contents (s_store s) }.

(** C6: Every round of the pending worker ends. Unless the backend of the store
    fails, in which case nothing moves, it hands over exactly the waiting events
    of the heights that follow the store's height without a gap, in order and
    with their hints dropped: up to the first height where none waits, unless
    the queue is full or the context is done before that. Events at any other
    height keep waiting, none is lost or duplicated, and what the store holds
    stays as it is. The recorded height, and the heights at which events wait,
    are below the last uint64. *)
Theorem pending_events_handed_over (s : S) h :
  c_height (bs_contents (s_store s)) = Ok h -> h < max_u64 ->
  (forall k e, pendingEvents (s_mgr s) !! k = Some e -> k < max_u64) ->
  exists s', processPendingEvents s = (Ok tt, s') /\
    ((exists es, handed_over (h + 1) es s s') \/ (~ bs_healthy (s_store s) /\ idle s s')).
Proof.
  intros Hh Hlt Hmax.
  enough (Hwp : wp processPendingEvents (fun r s' => r = Ok tt /\
    ((exists es, handed_over (h + 1) es s s') \/ (~ bs_healthy (s_store s) /\ idle s s'))) s).
  { apply wp_exists in Hwp as (r & s' & Hr & -> & Ho). by exists s'. }
  unfold processPendingEvents. apply wp_bind, wp_attempt, wp_zoom, wp_wrap. eapply wp_mono; [apply Height_law|].
  intros r st (Hc & _ & Hr). destruct Hr as [->|(Hf & er & -> & _)].
  2:{ cbn [map_err]. apply wp_ret. split; [done|]. right. by split. }
  change (c_height (bs_contents (s_store s)) = Ok h) in Hh. rewrite Hh. cbn [map_err]. wp_read.
  pose proof (contents_u64 _ _ Hh) as Hu. unfold is_u64, max_u64, two64 in *. rewrite add64_small by (unfold two64; lia).
  eapply wp_mono; [apply pending_loop_spec; [simpl; unfold PendingEventsCount; simpl; lia|unfold two64; lia|exact Hmax]|].
  intros r s' (-> & es & [A1 A2 A3 A4 A5]). split; [done|]. left. exists es. split; try done. etrans; [exact A5|exact Hc].
Qed.

(** ** Start *)

(** The state a node starts from: the stored one, with a proposer if it has
    none, or the state of a new chain over the root of the execution client. *)
Definition start_state (s : S) (root : slice) (stored : res store_error State) : State :=
  let g := s_genesis s in
  let st := match stored with
            | Ok st => st
            | Err _ => MkState zero_version (g_ChainID g) (g_InitialHeight g) (sub64 (g_InitialHeight g) 1) (g_StartTime g)
                         None (g_DAStartHeight g) root (initialProposerAddress s)
            end in
  if slen (NextProposerAddress st) =? 0 then with_proposer (initialProposerAddress s) st else st.

(** What the execution client answers to [InitChain] with the genesis. *)
Definition init_chain (s : S) : res string slice :=
  let g := s_genesis s in (InitChain (g_StartTime g) (g_InitialHeight g) (g_ChainID g) (s_exec s)).1.
Definition init_root (s : S) : slice := match init_chain s with Ok root => root | Err _ => None end.

(** The stored state, or the genesis state over the root of [InitChain]. *)
Definition first_state (s : S) : State := start_state s (init_root s) (c_state (bs_contents (s_store s))).

(** What decides where retrieval starts is as it was. *)
Record same_sources (s s' : S) : Prop := {
  so_headers : s_headerStore s' = s_headerStore s;
  so_config : s_configStart s' = s_configStart s;
  so_da : DaHeight (s_mgr s') = DaHeight (s_mgr s) }.

Lemma load_spec (s : S) :
  bs_healthy (s_store s) ->
  wp load_or_init (fun r s' => quiet s s' /\ s_check s' = set_fc_exec (s_exec s') (s_check s) /\
     bs_contents (s_store s') ≡ bs_contents (s_store s) /\ same_sources s s' /\
     forall st, r = Ok st -> (forall err, c_state (bs_contents (s_store s)) = Err err -> is_ok (init_chain s) = true) /\
       first_state s = if slen (NextProposerAddress st) =? 0 then with_proposer (initialProposerAddress s) st else st) s.
Proof.
  intros Hok. unfold load_or_init, first_state. apply wp_bind, wp_attempt, wp_zoom, wp_wrap. eapply wp_mono; [apply GetState_law|].
  intros r st (Hc & _ & Hr). destruct Hr as [->|[? _]]; [|done].
  assert (Q1 : quiet s (set_s_store st s)) by by apply quiet_store, chain_part_proper.
  assert (E1 : s_check s = set_fc_exec (s_exec s) (s_check s)) by (unfold s_exec, set_fc_exec; by destruct (s_check s)).
  destruct (c_state (bs_contents (s_store s))) as [st0|e]; cbn [map_err].
  - apply wp_ret. split_and!; try done. by intros st1 [= <-].
  - wp_read. apply wp_bind, wp_zoom, wp_wrap.
    eapply wp_mono with (P := fun r _ => r = init_chain s); [reflexivity|]. unfold init_root. intros r x <-.
    destruct r as [root|err]; cbn [map_err].
    + apply wp_ret. split; [etrans; [exact Q1|by apply quiet_same]|]. split_and!; try done. intros st1 [= <-]. by split.
    + split; [etrans; [exact Q1|by apply quiet_same]|]. by split_and!.
Qed.

Lemma start_state_wf (s : S) root stored :
  genesis_wf (s_genesis s) -> (forall st, stored = Ok st -> state_wf st) -> state_wf (start_state s root stored).
Proof.
  intros (Hi & Ht & Hd) Hst. unfold start_state. set (st := match stored with Ok st => st | Err _ => _ end).
  assert (Hwf : state_wf st).
  { unfold st. destruct stored as [st0|]; [by apply Hst|]. assert (Hz : is_u64 0) by done.
    exact (conj Hi (conj (sub64_u64 _ _) (conj Hd (conj (conj Hz Hz) Ht)))). }
  by destruct (_ =? _).
Qed.

(** Staging the height and the state, and committing them. *)
Lemma commit_start_spec st h (s : S) :
  c_height (bs_contents (s_store s)) = Ok h -> h <= LastBlockHeight st -> state_wf st ->
  wp (persist_start st) (fun r s' => r = Ok tt -> exists db, s' = set_s_store db s /\
       bs_contents db ≡ apply_batch (bs_contents (s_store s)) [StHeight (LastBlockHeight st); StState st]) s.
Proof.
  intros Hh Hle Hst. apply (wp_persist s_store set_s_store SyStore) with (h := h); try done. intros db C1 _. by exists db.
Qed.

(** A store that a node can start on, with its height. *)
Record startable (h : Z) (s : S) : Prop := {
  sa_healthy : bs_healthy (s_store s);
  sa_genesis : genesis_wf (s_genesis s);
  sa_initial : 1 <= g_InitialHeight (s_genesis s);
  sa_epochs : 0 <= g_DAEpochForcedInclusion (s_genesis s) /\
    g_DAStartHeight (s_genesis s) + g_DAEpochForcedInclusion (s_genesis s) <= two64;
  sa_chain : chain_contents (bs_contents (s_store s));
  sa_tracking : tracking_inv (s_tracking s);
  sa_events : events_wf s;
  sa_height : c_height (bs_contents (s_store s)) = Ok h;
  sa_stored : match c_state (bs_contents (s_store s)) with
              | Ok st => LastBlockHeight st = h
              | Err _ => h < g_InitialHeight (s_genesis s)
              end }.

(** The epoch end [e] that the forced inclusion check resumes after, for a node
    whose state is at DA height [da]: the last end of an epoch that is not above
    [da], if the first epoch has ended and epochs are in use. *)
Definition resumes_after (g : ChainGenesis) (da last e : Z) : Prop :=
  let size := g_DAEpochForcedInclusion g in
  if (0 <? size) && (g_DAStartHeight g + size - 1 <=? da)
  then (exists k, 1 <= k /\ e = g_DAStartHeight g + k * size - 1) /\ e <= da < e + size
  else e = last.

(** The DA height [d] that retrieval starts from: the configured one, or else
    the least height that is not below the genesis start, the height before
    the state's and, when the header store is ahead, the height of the cache. *)
Definition starts_at (s : S) (st : State) (d : Z) : Prop :=
  let ahead := exists h, s_headerStore s = Some h /\ LastBlockHeight st < h in
  let bounds := [g_DAStartHeight (s_genesis s); DAHeight st - 1] in
  if 0 <? s_configStart s then d = s_configStart s else
  (forall b, b ∈ bounds -> b <= d) /\ (ahead -> DaHeight (s_mgr s) <= d) /\
  (d ∈ bounds \/ (ahead /\ d = DaHeight (s_mgr s))).

Lemma checked_resumes g da last :
  0 <= g_DAEpochForcedInclusion g -> is_u64 (g_DAStartHeight g) -> g_DAStartHeight g + g_DAEpochForcedInclusion g <= two64 ->
  is_u64 da -> resumes_after g da last (initial_checked_epoch g da last).
Proof.
  intros Hs Hg Hf Hd. unfold resumes_after. cbv zeta. destruct (Z.ltb_spec 0 (g_DAEpochForcedInclusion g)) as [Hp|Hz]; cbn [andb].
  - pose proof (initial_checked_epoch_spec g da last Hp (proj1 Hg) ltac:(lia) Hd) as He. cbv zeta in He.
    destruct (_ <=? _); [|done]. destruct He as [(k & Hk & ->) He]. split; [|done]. exists (k + 1). lia.
  - unfold initial_checked_epoch. cbv zeta. by rewrite (proj2 (Z.ltb_ge _ _) Hz).
Qed.

Lemma start_da_spec (s s' : S) st :
  s_genesis s' = s_genesis s -> same_sources s s' -> is_u64 (g_DAStartHeight (s_genesis s)) -> is_u64 (DAHeight st) -> starts_at s st (start_da_height s' st).
Proof.
  intros Hg [E1 E2 E3] Hda Hd. unfold starts_at, start_da_height. rewrite Hg, E1, E2, E3. destruct (0 <? s_configStart s); [done|].
  unfold is_u64 in Hd, Hda. set (g := g_DAStartHeight (s_genesis s)).
  assert (Hx : exists m, (if g <? DAHeight st then Z.max g (sub64 (DAHeight st) 1) else g) = m /\ g <= m /\ DAHeight st - 1 <= m /\
    (m = g \/ m = DAHeight st - 1)).
  { eexists. split; [done|]. destruct (Z.ltb_spec g (DAHeight st)); [|lia].
    rewrite sub64_small by (unfold g in *; lia). lia. }
  destruct Hx as (m & -> & Hm1 & Hm2 & Hm3).
  assert (Hb : forall d, m <= d -> forall b, b ∈ [g; DAHeight st - 1] -> b <= d).
  { intros d Hd' b [->|[->|[]%elem_of_nil]%elem_of_cons]%elem_of_cons; lia. }
  assert (Hin : m ∈ [g; DAHeight st - 1]) by (rewrite !elem_of_cons; tauto).
  destruct (s_headerStore s) as [h|].
  - destruct (Z.ltb_spec (LastBlockHeight st) h) as [Hlt|Hge].
    + split; [apply Hb; lia|]. split; [lia|]. destruct (Z.max_spec m (DaHeight (s_mgr s))) as [[_ ->]|[_ ->]]; [right|by left].
      split; [by exists h|done].
    + split; [by apply Hb|]. split; [intros (h' & [= <-] & ?); lia|by left].
  - split; [by apply Hb|]. split; [by intros (h' & ? & _)|by left].
Qed.

(** What a node has when it is up. *)
Record up_from (s s' : S) : Prop := {
  uf_inv : sync_inv s';
  uf_root : forall err, c_state (bs_contents (s_store s)) = Err err ->
    exists root, init_chain s = Ok root /\ st_AppHash (first_state s) = root;
  uf_state : s_lastState s' = Some (first_state s);
  uf_epoch : resumes_after (s_genesis s) (DAHeight (first_state s)) (lastCheckedEpochEnd (s_check s))
               (lastCheckedEpochEnd (s_check s'));
  uf_da : starts_at s (first_state s) (s_daRetrieverHeight s') }.

Lemma sync_start_app_hash (s : S) root err : st_AppHash (start_state s root (Err err)) = root.
Proof. unfold start_state. by destruct (_ =? _). Qed.

Lemma initialize_spec (s : S) h : startable h s -> wp initializeState (fun r s' => r = Ok tt -> up_from s s') s.
Proof.
  intros [Hok Hg Hi1 Hep Hc Ht He Hh Hstored].
  unfold initializeState. apply wp_bind. eapply wp_mono; [by apply load_spec|].
  intros [st0|] s1 (Q1 & X1 & C1 & So & Hst); [|done]. destruct (Hst st0 eq_refl) as [Hinit Hroot]. wp_read.
  assert (Eg : s_genesis s1 = s_genesis s) by apply Q1.
  assert (Ep : initialProposerAddress s1 = initialProposerAddress s) by (unfold initialProposerAddress; by rewrite Eg).
  rewrite Ep, <- Hroot, Eg. set (st := first_state s).
  assert (Hwf : state_wf st).
  { apply start_state_wf; [done|]. intros x Hx. unfold c_state in Hx. rewrite Hh in Hx. cbn [mbind res_bind] in Hx.
    eapply cc_state; [exact Hc| |exact Hx]. by apply (contents_u64 (s_store s)). }
  assert (Hle : h <= LastBlockHeight st).
  { unfold st, first_state, start_state. pose proof (contents_u64 _ _ Hh) as Hu. destruct Hg as (Hgi & _).
    destruct (c_state _) as [x|].
    - destruct (slen (NextProposerAddress x) =? 0); simpl; lia.
    - cbn [NextProposerAddress]. destruct (slen (initialProposerAddress s) =? 0); simpl; rewrite sub64_small; unfold is_u64 in *; lia. }
  destruct (negb (DAHeight st =? 0) && _); [by apply wp_throw|].
  assert (Hh1 : c_height (bs_contents (s_store s1)) = Ok h) by by rewrite (c_height_proper _ _ _ C1).
  apply wp_bind. eapply wp_mono; [by apply (commit_start_spec st h)|]. intros [[]|] s2 Hs2; [|done].
  destruct (Hs2 eq_refl) as (db & -> & C2). do 3 apply wp_bind, wp_modify. apply wp_zoom, wp_wrap.
  eapply wp_mono; [apply SyncToHeight_chain; [apply Hwf|simpl; by rewrite Eg|]|].
  { unfold rp_contents. cbn [rp_store s_store s_mgr set_s_daRetrieverHeight set_s_check SetLastState set_s_lastState set_s_store set_s_mgr mgr_store set_mgr_store].
    rewrite C2, C1. apply chain_contents_state; [done|]. destruct Hc as [Hb Hs]. by split. }
  intros [[]|e] r ([lo Hr%os_height] & Hchain); [|done]. intros _. specialize (Hchain eq_refl).
  change (c_height (rp_contents r) = c_height (bs_contents db)) in Hr.
  rewrite (c_height_proper _ _ _ C2) in Hr. split.
  - split.
    + exists st. split; [done|]. split; [exact Hwf|]. exact Hr.
    + destruct Hchain as [Hb Hs]. by split.
    + apply Q1, Ht.
    + apply (q_events _ _ Q1), He.
  - intros err Herr. specialize (Hinit err Herr). unfold first_state. rewrite Herr. unfold init_root.
    destruct (init_chain s) as [root|]; [|done]. exists root. split; [done|]. apply sync_start_app_hash.
  - done.
  - cbn. rewrite Eg, X1. apply checked_resumes; [apply Hep|apply Hg|apply Hep|apply Hwf].
  - cbn. apply start_da_spec; [exact Eg| |apply Hg|apply Hwf]. destruct So as [S1 S2 S3]. by split.
Qed.


End start.
