(* ===== verification/Executing.v ===== *)
(** * Block production ([block/internal/executing])

    The aggregator's executor asks the sequencer for a batch, makes a block of
    it, keeps it as the pending block, executes it, signs it and commits it
    with the new state. The record [Executor] has the fields of the Go struct;
    the store is the one of the cache manager. Sequencers, raft, the signer and
    the broadcasters are interfaces, and a context that may be done is a
    question to the environment [env_done]. *)

From S2P Require Import Prelude Sha256 Datastore Types Serialization Validation Store StoreFacts StoreAPI.
From S2P Require Import BlockCache Pending CacheManager ForcedInclusion Sequencing Execution Replayer.
From S2P Require Import Syncer.
From S2P Require DASubmitter Submitter.
From stdpp Require Import base gmap strings list numbers.
Open Scope Z_scope.

(** ** Interfaces *)

(** [coresequencer.Sequencer] as the executor uses it: a response without a
    batch, like the error [ErrNoBatch], is [None], and [AckBatch] is there when
    the sequencer implements [batchAcknowledger]. *)
Class SequencerAPI (Q : Type) := {
  sq_GetNextBatch : GetNextBatchRequest -> M Q string (option GetNextBatchResponse);
  sq_GetDAHeight : Q -> Z;
  sq_SetDAHeight : Z -> Q -> Q;
  sq_AckBatch : option (M Q string unit)
}.

(** [common.RaftNode]; [GetState] returns a copy of the state. *)
Class RaftNode (R : Type) := {
  raft_HasQuorum : R -> bool * R;
  raft_GetState : R -> RaftBlockState * R;
  raft_Broadcast : RaftBlockState -> M R string unit
}.

(** [WriteToStoreAndBroadcast] of the two broadcasters. *)
Class Broadcasters (B PK : Type) := {
  bc_Header : SignedHeader PK -> M B string unit;
  bc_Data : Data -> M B string unit
}.

Module Executing.

(** ** The default options *)

Section defaults.
Context {PK : Type} `{Wire} `{ProtoMsg pbHeader}.

Definition DefaultAggregatorNodeSignatureBytesProvider (header : Header) : res string bytes :=
  map_err (fun _ => "header") (Header_MarshalBinary clean_header clean_version header).
Definition DefaultSyncNodeSignatureBytesProvider (header : Header) (_ : Data) : res unit bytes :=
  map_err (fun _ => tt) (DefaultAggregatorNodeSignatureBytesProvider header).
Definition DefaultValidatorHasherProvider (proposerAddress : slice) (pubKey : option PK) : res string slice := Ok (Some []).

End defaults.

Inductive exec_error :=
| EStore (e : store_error)
| ECache (e : cache_error)
| EExec (msg : string)
| ESequencer (msg : string)
| ESigner (msg : string)
| EProvider (msg : string)
| ETypes (e : terror)
| ERaft (msg : string)
| EReplay (e : replay_error)
| ErrNotProposer
| ENoQuorum
| EMsg (msg : string)
| ECanceled
| EPanic.

(** ** State *)

Record lastBlockInfo := MkLastBlockInfo { info_headerHash : slice; info_dataHash : slice; info_signature : slice }.

Record Executor (ST PK EX Q SG R B V : Type) (C : Type -> Type) := MkExecutor
  { (** The cache manager, whose store is the node's store. *)
    e_mgr : Manager ST PK C;
    e_exec : EX;
    e_sequencer : Q;
    (** [nil] for a based sequencer. *)
    e_signer : option SG;
    (** [config.Node.BasedSequencer], [LazyMode] and [MaxPendingHeadersAndData]. *)
    e_basedSequencer : bool;
    e_lazyMode : bool;
    e_maxPending : Z;
    e_genesis : ChainGenesis;
    (** [options.AggregatorNodeSignatureBytesProvider] and [ValidatorHasherProvider]. *)
    e_signatureBytes : Header -> res string bytes;
    e_validatorHasher : slice -> option PK -> res string slice;
    e_raft : option R;
    e_lastState : option State;
    e_hasPendingBlock : bool;
    e_lastBlockInfo : option lastBlockInfo;
    e_pendingCheckCounter : Z;
    (** The buffered channel of capacity one. *)
    e_txNotify : bool;
    e_errorCh : option (nat * list exec_error);
    e_pendingBatchAck : bool;
    (** The two broadcasters. *)
    e_broadcast : B;
    (** The package variables of [types/state.go]. *)
    e_tracking : SeqTracking;
    e_env : V }.
Arguments MkExecutor {ST PK EX Q SG R B V C}.
Arguments e_mgr {ST PK EX Q SG R B V C}.
Arguments e_exec {ST PK EX Q SG R B V C}.
Arguments e_sequencer {ST PK EX Q SG R B V C}.
Arguments e_signer {ST PK EX Q SG R B V C}.
Arguments e_basedSequencer {ST PK EX Q SG R B V C}.
Arguments e_lazyMode {ST PK EX Q SG R B V C}.
Arguments e_maxPending {ST PK EX Q SG R B V C}.
Arguments e_genesis {ST PK EX Q SG R B V C}.
Arguments e_signatureBytes {ST PK EX Q SG R B V C}.
Arguments e_validatorHasher {ST PK EX Q SG R B V C}.
Arguments e_raft {ST PK EX Q SG R B V C}.
Arguments e_lastState {ST PK EX Q SG R B V C}.
Arguments e_hasPendingBlock {ST PK EX Q SG R B V C}.
Arguments e_lastBlockInfo {ST PK EX Q SG R B V C}.
Arguments e_pendingCheckCounter {ST PK EX Q SG R B V C}.
Arguments e_txNotify {ST PK EX Q SG R B V C}.
Arguments e_errorCh {ST PK EX Q SG R B V C}.
Arguments e_pendingBatchAck {ST PK EX Q SG R B V C}.
Arguments e_broadcast {ST PK EX Q SG R B V C}.
Arguments e_tracking {ST PK EX Q SG R B V C}.
Arguments e_env {ST PK EX Q SG R B V C}.

Section executor.
Context {ST PK EX Q SG R B V : Type} {C : Type -> Type}.
Context `{BlockStore ST PK} `{LRU C} `{Execution EX} `{Submitter.Finalizer EX} `{SequencerAPI Q}.
Context `{DASubmitter.SignerAPI SG PK} `{RaftNode R} `{Broadcasters B PK} `{SyncEnv V} `{PubKeys PK} `{Wire}.
Context `{ProtoMsg pbVersion, ProtoMsg pbHeader, ProtoMsg pbSignedHeader, ProtoMsg pbMetadata, ProtoMsg pbData}.
Abbreviation E := (Executor ST PK EX Q SG R B V C).

Definition EM (A : Type) : Type := M E exec_error A.

Definition set_e_mgr x (e : E) : E :=
  MkExecutor x (e_exec e) (e_sequencer e) (e_signer e) (e_basedSequencer e) (e_lazyMode e) (e_maxPending e)
  (e_genesis e) (e_signatureBytes e) (e_validatorHasher e) (e_raft e) (e_lastState e) (e_hasPendingBlock e)
  (e_lastBlockInfo e) (e_pendingCheckCounter e) (e_txNotify e) (e_errorCh e) (e_pendingBatchAck e) (e_broadcast
  e) (e_tracking e) (e_env e).
Definition set_e_exec x (e : E) : E :=
  MkExecutor (e_mgr e) x (e_sequencer e) (e_signer e) (e_basedSequencer e) (e_lazyMode e) (e_maxPending e)
  (e_genesis e) (e_signatureBytes e) (e_validatorHasher e) (e_raft e) (e_lastState e) (e_hasPendingBlock e)
  (e_lastBlockInfo e) (e_pendingCheckCounter e) (e_txNotify e) (e_errorCh e) (e_pendingBatchAck e) (e_broadcast
  e) (e_tracking e) (e_env e).
Definition set_e_sequencer x (e : E) : E :=
  MkExecutor (e_mgr e) (e_exec e) x (e_signer e) (e_basedSequencer e) (e_lazyMode e) (e_maxPending e) (e_genesis
  e) (e_signatureBytes e) (e_validatorHasher e) (e_raft e) (e_lastState e) (e_hasPendingBlock e)
  (e_lastBlockInfo e) (e_pendingCheckCounter e) (e_txNotify e) (e_errorCh e) (e_pendingBatchAck e) (e_broadcast
  e) (e_tracking e) (e_env e).
Definition set_e_signer x (e : E) : E :=
  MkExecutor (e_mgr e) (e_exec e) (e_sequencer e) x (e_basedSequencer e) (e_lazyMode e) (e_maxPending e)
  (e_genesis e) (e_signatureBytes e) (e_validatorHasher e) (e_raft e) (e_lastState e) (e_hasPendingBlock e)
  (e_lastBlockInfo e) (e_pendingCheckCounter e) (e_txNotify e) (e_errorCh e) (e_pendingBatchAck e) (e_broadcast
  e) (e_tracking e) (e_env e).
Definition set_e_raft x (e : E) : E :=
  MkExecutor (e_mgr e) (e_exec e) (e_sequencer e) (e_signer e) (e_basedSequencer e) (e_lazyMode e) (e_maxPending
  e) (e_genesis e) (e_signatureBytes e) (e_validatorHasher e) x (e_lastState e) (e_hasPendingBlock e)
  (e_lastBlockInfo e) (e_pendingCheckCounter e) (e_txNotify e) (e_errorCh e) (e_pendingBatchAck e) (e_broadcast
  e) (e_tracking e) (e_env e).
Definition set_e_lastState x (e : E) : E :=
  MkExecutor (e_mgr e) (e_exec e) (e_sequencer e) (e_signer e) (e_basedSequencer e) (e_lazyMode e) (e_maxPending
  e) (e_genesis e) (e_signatureBytes e) (e_validatorHasher e) (e_raft e) x (e_hasPendingBlock e)
  (e_lastBlockInfo e) (e_pendingCheckCounter e) (e_txNotify e) (e_errorCh e) (e_pendingBatchAck e) (e_broadcast
  e) (e_tracking e) (e_env e).
Definition set_e_hasPendingBlock x (e : E) : E :=
  MkExecutor (e_mgr e) (e_exec e) (e_sequencer e) (e_signer e) (e_basedSequencer e) (e_lazyMode e) (e_maxPending
  e) (e_genesis e) (e_signatureBytes e) (e_validatorHasher e) (e_raft e) (e_lastState e) x (e_lastBlockInfo e)
  (e_pendingCheckCounter e) (e_txNotify e) (e_errorCh e) (e_pendingBatchAck e) (e_broadcast e) (e_tracking e)
  (e_env e).
Definition set_e_lastBlockInfo x (e : E) : E :=
  MkExecutor (e_mgr e) (e_exec e) (e_sequencer e) (e_signer e) (e_basedSequencer e) (e_lazyMode e) (e_maxPending
  e) (e_genesis e) (e_signatureBytes e) (e_validatorHasher e) (e_raft e) (e_lastState e) (e_hasPendingBlock e) x
  (e_pendingCheckCounter e) (e_txNotify e) (e_errorCh e) (e_pendingBatchAck e) (e_broadcast e) (e_tracking e)
  (e_env e).
Definition set_e_pendingCheckCounter x (e : E) : E :=
  MkExecutor (e_mgr e) (e_exec e) (e_sequencer e) (e_signer e) (e_basedSequencer e) (e_lazyMode e) (e_maxPending
  e) (e_genesis e) (e_signatureBytes e) (e_validatorHasher e) (e_raft e) (e_lastState e) (e_hasPendingBlock e)
  (e_lastBlockInfo e) x (e_txNotify e) (e_errorCh e) (e_pendingBatchAck e) (e_broadcast e) (e_tracking e) (e_env
  e).
Definition set_e_txNotify x (e : E) : E :=
  MkExecutor (e_mgr e) (e_exec e) (e_sequencer e) (e_signer e) (e_basedSequencer e) (e_lazyMode e) (e_maxPending
  e) (e_genesis e) (e_signatureBytes e) (e_validatorHasher e) (e_raft e) (e_lastState e) (e_hasPendingBlock e)
  (e_lastBlockInfo e) (e_pendingCheckCounter e) x (e_errorCh e) (e_pendingBatchAck e) (e_broadcast e)
  (e_tracking e) (e_env e).
Definition set_e_errorCh x (e : E) : E :=
  MkExecutor (e_mgr e) (e_exec e) (e_sequencer e) (e_signer e) (e_basedSequencer e) (e_lazyMode e) (e_maxPending
  e) (e_genesis e) (e_signatureBytes e) (e_validatorHasher e) (e_raft e) (e_lastState e) (e_hasPendingBlock e)
  (e_lastBlockInfo e) (e_pendingCheckCounter e) (e_txNotify e) x (e_pendingBatchAck e) (e_broadcast e)
  (e_tracking e) (e_env e).
Definition set_e_pendingBatchAck x (e : E) : E :=
  MkExecutor (e_mgr e) (e_exec e) (e_sequencer e) (e_signer e) (e_basedSequencer e) (e_lazyMode e) (e_maxPending
  e) (e_genesis e) (e_signatureBytes e) (e_validatorHasher e) (e_raft e) (e_lastState e) (e_hasPendingBlock e)
  (e_lastBlockInfo e) (e_pendingCheckCounter e) (e_txNotify e) (e_errorCh e) x (e_broadcast e) (e_tracking e)
  (e_env e).
Definition set_e_broadcast x (e : E) : E :=
  MkExecutor (e_mgr e) (e_exec e) (e_sequencer e) (e_signer e) (e_basedSequencer e) (e_lazyMode e) (e_maxPending
  e) (e_genesis e) (e_signatureBytes e) (e_validatorHasher e) (e_raft e) (e_lastState e) (e_hasPendingBlock e)
  (e_lastBlockInfo e) (e_pendingCheckCounter e) (e_txNotify e) (e_errorCh e) (e_pendingBatchAck e) x (e_tracking
  e) (e_env e).
Definition set_e_tracking x (e : E) : E :=
  MkExecutor (e_mgr e) (e_exec e) (e_sequencer e) (e_signer e) (e_basedSequencer e) (e_lazyMode e) (e_maxPending
  e) (e_genesis e) (e_signatureBytes e) (e_validatorHasher e) (e_raft e) (e_lastState e) (e_hasPendingBlock e)
  (e_lastBlockInfo e) (e_pendingCheckCounter e) (e_txNotify e) (e_errorCh e) (e_pendingBatchAck e) (e_broadcast
  e) x (e_env e).
Definition set_e_env x (e : E) : E :=
  MkExecutor (e_mgr e) (e_exec e) (e_sequencer e) (e_signer e) (e_basedSequencer e) (e_lazyMode e) (e_maxPending
  e) (e_genesis e) (e_signatureBytes e) (e_validatorHasher e) (e_raft e) (e_lastState e) (e_hasPendingBlock e)
  (e_lastBlockInfo e) (e_pendingCheckCounter e) (e_txNotify e) (e_errorCh e) (e_pendingBatchAck e) (e_broadcast
  e) (e_tracking e) x.

Definition e_store (e : E) : ST := mgr_store (e_mgr e).
Definition set_e_store x (e : E) : E := set_e_mgr (set_mgr_store x (e_mgr e)) e.

Definition on_store {A} (m : M ST store_error A) : EM A := zoom e_store set_e_store (wrap EStore m).
Definition on_exec {A} (m : M EX string A) : EM A := zoom e_exec set_e_exec (wrap EExec m).
Definition on_seq {A} (m : M Q string A) : EM A := zoom e_sequencer set_e_sequencer (wrap ESequencer m).
Definition on_cache {A} (m : M (Manager ST PK C) cache_error A) : EM A := zoom e_mgr set_e_mgr (wrap ECache m).
Definition on_clock {A} (f : V -> A * V) : EM A := zoom e_env set_e_env (infallible f).
Definition on_broadcast (m : M B string unit) : EM unit := zoom e_broadcast set_e_broadcast (wrap EMsg m).

(** A call of the signer; there is one wherever it is called. *)
Definition on_signer {A} (m : M SG string A) : EM A := fun e =>
  match e_signer e with
  | None => (Err EPanic, e)
  | Some g => let '(a, g') := m g in (map_err ESigner a, set_e_signer (Some g') e)
  end.
Definition on_raft {A} (m : M R string A) : EM A := fun e =>
  match e_raft e with
  | None => (Err EPanic, e)
  | Some r => let '(a, r') := m r in (map_err ERaft a, set_e_raft (Some r') e)
  end.
Definition has_raft : EM bool := gets (fun e => match e_raft e with Some _ => true | None => false end).

Definition sendCriticalError (err : exec_error) (e : E) : E :=
  match e_errorCh e with
  | Some (cap, l) => if (length l <? cap)%nat then set_e_errorCh (Some (cap, l ++ [err])) e else e
  | None => e
  end.
(** An error that is reported before it is returned. *)
Definition fail_critical {A} (err : exec_error) : EM A := _ ← modify (sendCriticalError err); throw err.
Definition or_critical {A} (m : EM A) : EM A :=
  r ← attempt m;
  match r with Ok a => mret a | Err err => fail_critical err end.

Definition getLastState (e : E) : State := default zero_state (e_lastState e).
Definition setLastState (state : State) (e : E) : E := set_e_lastState (Some state) e.

Definition NotifyNewTransactions (e : E) : E := set_e_txNotify true e.

Definition initialProposerAddress (e : E) : slice := cloneBytes (g_ProposerAddress (e_genesis e)).

Definition assertConfiguredSigner (expectedProposer : slice) : EM unit :=
  based ← gets e_basedSequencer;
  if (based : bool) then mret tt else
  addr ← on_signer DASubmitter.sg_GetAddress;
  if bytes_eqb addr (sl expectedProposer) then mret tt else throw ErrNotProposer.

Definition ackCommittedBatch : EM unit :=
  match sq_AckBatch with
  | None => mret tt
  | Some ack =>
      r ← attempt (on_seq ack);
      match r with
      | Err err => _ ← modify (set_e_pendingBatchAck true); throw err
      | Ok _ => modify (set_e_pendingBatchAck false)
      end
  end.

(** ** The pending block ([pending.go]) *)

Definition headerKey : string := "pending_header".
Definition dataKey : string := "pending_data".

Definition getPendingBlock : EM (option (SignedHeader PK * Data)) :=
  headerBytes ← attempt (on_store (st_GetMetadata headerKey));
  match headerBytes with
  | Err (EStore (SDs ErrNotFound)) => mret None
  | Err err => throw err
  | Ok headerBytes =>
      dataBytes ← attempt (on_store (st_GetMetadata dataKey));
      match dataBytes with
      | Err (EStore (SDs ErrNotFound)) => throw (EMsg "pending header exists but data is missing: corrupt state")
      | Err err => throw err
      | Ok dataBytes =>
          let '(r, header) := SignedHeader_UnmarshalBinary headerBytes SignedHeader_New in
          _ ← lift_res (map_err ETypes r);
          let '(r, data) := Data_UnmarshalBinary dataBytes Data_New in
          _ ← lift_res (map_err ETypes r);
          mret (Some (header, data))
      end
  end.

Definition savePendingBlock (header : SignedHeader PK) (data : Data) : EM unit :=
  headerBytes ← lift_res (map_err ETypes (marshal_signed_header header));
  dataBytes ← lift_res (map_err ETypes (Data_MarshalBinary clean_data clean_metadata data));
  batch ← on_store st_NewBatch;
  batch ← on_store (batch_PutMeta headerKey headerBytes batch);
  batch ← on_store (batch_PutMeta dataKey dataBytes batch);
  on_store (batch_Commit batch).

Definition deletePendingBlock : EM unit :=
  _ ← on_store (st_DeleteMetadata headerKey);
  on_store (st_DeleteMetadata dataKey).

Definition legacy_keys (height : Z) (headerHash : bytes) : list block_key :=
  [BKHeader height; BKData height; BKSignature height; BKIndex headerHash].

Fixpoint delete_keys (keys : list block_key) (batch : bs_batch ST PK) : EM (bs_batch ST PK) :=
  match keys with
  | [] => mret batch
  | key :: keys' => batch ← on_store (batch_Delete key batch); delete_keys keys' batch
  end.

Definition migrateLegacyPendingBlock : EM unit :=
  e ← gets id;
  let candidateHeight := add64 (LastBlockHeight (getLastState e)) 1 in
  r ← attempt (on_store (st_GetBlockData candidateHeight));
  match r with
  | Err (EStore (SDs ErrNotFound)) => mret tt
  | Err err => throw err
  | Ok (pendingHeader, pendingData) =>
      if negb (slen (sh_Signature pendingHeader) =? 0) then throw (EMsg "pending block with signatures found") else
      _ ← savePendingBlock pendingHeader pendingData;
      batch ← on_store st_NewBatch;
      headerBytes ← lift_res (map_err ETypes (marshal_signed_header pendingHeader));
      batch ← delete_keys (legacy_keys candidateHeight (Sha256.sum256 headerBytes)) batch;
      on_store (batch_Commit batch)
  end.

(** ** Batches and blocks *)

(** [BatchData]: the transactions, the time and the batch data. *)
Record BatchData := MkBatchData { bd_Transactions : list bytes; bd_Time : Z; bd_Data : list bytes }.

(** [common.ErrNoBatch] is [None]; a batch without transactions is returned
    with [ErrNoTransactionsInBatch], which its only caller ignores. *)
Definition RetrieveBatch : EM (option BatchData) :=
  e ← gets id;
  res ← on_seq (sq_GetNextBatch (MkNext (string_bytes (g_ChainID (e_genesis e))) [] DASubmitter.DefaultMaxBlobSize));
  mret ((fun r => MkBatchData (resp_Transactions r) (resp_Timestamp r) (Sequencing.BatchData r)) <$> res).

(** The hashes and the signature of the block before [height]. *)
Definition last_block (height : Z) : EM lastBlockInfo :=
  info ← gets e_lastBlockInfo;
  match info with
  | Some info => mret info
  | None =>
      lastBlock ← on_store (st_GetBlockData (sub64 height 1));
      lastSignature ← on_store (st_GetSignature (sub64 height 1));
      mret (MkLastBlockInfo (Header_Hash (Some (sh_Header lastBlock.1))) (Some (Data_Hash lastBlock.2)) (Some lastSignature))
  end.

(** The public key of the signer, which must be the proposer, and the
    validator hash. *)
Definition signer_info (proposerAddress : slice) : EM (option PK * slice) :=
  e ← gets id;
  match e_signer e with
  | Some _ =>
      pubKey ← on_signer DASubmitter.sg_GetPublic;
      addr ← on_signer DASubmitter.sg_GetAddress;
      if negb (bytes_eqb addr (sl proposerAddress)) then throw ErrNotProposer else
      validatorHash ← lift_res (map_err EProvider (e_validatorHasher e proposerAddress (Some pubKey)));
      mret (Some pubKey, validatorHash)
  | None =>
      validatorHash ← lift_res (map_err EProvider (e_validatorHasher e proposerAddress None));
      mret (None, validatorHash)
  end.

Definition CreateBlock (height : Z) (batchData : BatchData) : EM (SignedHeader PK * Data) :=
  e ← gets id;
  let currentState := getLastState e in
  let g := e_genesis e in
  let proposerAddress := if slen (NextProposerAddress currentState) =? 0 then g_ProposerAddress g
                         else NextProposerAddress currentState in
  last ← (if g_InitialHeight g <? height then last_block height else mret (MkLastBlockInfo None None None));
  let headerTime := if g_InitialHeight g <? height then u64 (bd_Time batchData) else u64 (g_StartTime g) in
  signer ← signer_info proposerAddress;
  let '(pubKey, validatorHash) := signer in
  let txs := bd_Transactions batchData in
  let data := MkData (Some (MkMetadata (g_ChainID g) height headerTime (info_dataHash last))) (Some txs) in
  let dataHash := if zlen txs =? 0 then DataHashForEmptyTxs else DACommitment data in
  let header := MkHeader (MkBaseHeader height headerTime (g_ChainID g)) (st_Version currentState) (info_headerHash last)
                  (Some dataHash) (st_AppHash currentState) validatorHash proposerAddress None None in
  mret (MkSignedHeader header (info_signature last) (MkSigner pubKey proposerAddress None) None None, data).

(** [attempts] are left. *)
Fixpoint execute_attempts (attempts : nat) (rawTxs : list bytes) (header : Header) (currentState : State)
  : EM ExecuteResult :=
  match attempts with
  | O => mret (MkExecuteResult None None)
  | Datatypes.S attempts' =>
      r ← attempt (on_exec (ExecuteTxs rawTxs (Header_Height header) (Header_Time header) (st_AppHash currentState)));
      match r with
      | Ok result => mret result
      | Err err =>
          if Nat.eqb attempts' 0 then throw err else
          done ← on_clock env_done;
          if (done : bool) then throw ECanceled else execute_attempts attempts' rawTxs header currentState
      end
  end.
Definition executeTxsWithRetry := execute_attempts MaxRetriesBeforeHalt.

Definition ApplyBlock (header : Header) (data : Data) : EM State :=
  e ← gets id;
  let currentState := getLastState e in
  result ← or_critical (executeTxsWithRetry (data_txs data) header currentState);
  mret (NextState currentState header (UpdatedStateRoot result) (res_NextProposer result)).

(** The signature; the payload is not used by the caller. *)
Definition signHeader (header : Header) : EM slice :=
  e ← gets id;
  match e_signer e with
  | None => mret (Some [])
  | Some _ =>
      bz ← lift_res (map_err EProvider (e_signatureBytes e header));
      sig ← on_signer (DASubmitter.sg_Sign bz);
      mret (Some sig)
  end.

(** ** Producing a block *)

Definition pendingCheckInterval : Z := 64.

(** A raft cluster without a quorum. *)
Definition check_quorum : EM unit :=
  raft ← has_raft;
  if negb (raft : bool) then mret tt else
  ok ← on_raft (infallible raft_HasQuorum);
  if (ok : bool) then mret tt else throw ENoQuorum.

(** Whether the limit of pending headers or data is reached. *)
Definition pending_limit : EM bool :=
  max ← gets e_maxPending;
  if max <=? 0 then mret false else
  _ ← modify (fun e => set_e_pendingCheckCounter (add64 (e_pendingCheckCounter e) 1) e);
  counter ← gets e_pendingCheckCounter;
  if negb ((max <=? pendingCheckInterval) || (counter mod pendingCheckInterval =? 0)) then mret false else
  pendingHeaders ← on_cache NumPendingHeaders;
  pendingData ← on_cache mgr_NumPendingData;
  mret ((max <=? pendingHeaders) || (max <=? pendingData)).

(** The pending block, if there is one for the height. *)
Definition stored_block (newHeight : Z) : EM (option (SignedHeader PK * Data)) :=
  has ← gets e_hasPendingBlock;
  if negb (has : bool) then mret None else
  r ← attempt getPendingBlock;
  match r with
  | Ok (Some (header, data)) =>
      mret (if Header_Height (sh_Header header) =? newHeight then Some (header, data) else None)
  | Ok None => mret None
  | Err (EStore (SDs ErrNotFound)) => mret None
  | Err err => throw err
  end.

(** The pending block or a new one; [None] without a batch. *)
Definition next_block (newHeight : Z) : EM (option (SignedHeader PK * Data)) :=
  stored ← stored_block newHeight;
  match stored with
  | Some b => mret (Some b)
  | None =>
      batch ← RetrieveBatch;
      match batch with
      | None => mret None
      | Some batchData =>
          b ← CreateBlock newHeight batchData;
          _ ← savePendingBlock b.1 b.2;
          mret (Some b)
      end
  end.

Definition set_Signature (signature : slice) (sh : SignedHeader PK) : SignedHeader PK :=
  MkSignedHeader (sh_Header sh) signature (sh_Signer sh) (aggregatorSignatureProvider sh) (syncNodeSignatureBytesProvider sh).

(** Sharing the block in the raft cluster. *)
Definition propose (newHeight : Z) (header : SignedHeader PK) (data : Data) : EM unit :=
  raft ← has_raft;
  if negb (raft : bool) then mret tt else
  headerBytes ← lift_res (map_err ETypes (marshal_signed_header header));
  dataBytes ← lift_res (map_err ETypes (Data_MarshalBinary clean_data clean_metadata data));
  e ← gets id;
  on_raft (raft_Broadcast (MkRaftBlockState newHeight (GetLastSubmittedHeaderHeight (e_mgr e))
    (GetLastSubmittedDataHeight (e_mgr e)) (Header_Hash (Some (sh_Header header))) (b_Time (h_Base (sh_Header header)))
    headerBytes dataBytes)).

Definition commit_block (newHeight : Z) (header : SignedHeader PK) (data : Data) (signature : slice) (newState : State)
  : EM unit :=
  batch ← on_store st_NewBatch;
  batch ← on_store (batch_SaveBlockData header data signature batch);
  batch ← on_store (batch_SetHeight newHeight batch);
  batch ← on_store (batch_UpdateState newState batch);
  _ ← propose newHeight header data;
  on_store (batch_Commit batch).

(** What follows the commit. *)
Definition after_commit (newHeight : Z) (header : SignedHeader PK) (data : Data) (signature : slice) (newState : State)
  : EM unit :=
  _ ← modify (set_e_hasPendingBlock false);
  _ ← modify (setLastState newState);
  _ ← attempt (F := exec_error) ackCommittedBatch;
  _ ← modify (set_e_lastBlockInfo (Some (MkLastBlockInfo (st_LastHeaderHash newState) (Some (Data_Hash data)) signature)));
  _ ← attempt (F := exec_error) (on_broadcast (bc_Header header));
  _ ← attempt (F := exec_error) (on_broadcast (bc_Data data));
  based ← gets e_basedSequencer;
  if (based : bool) then or_critical (on_exec (Submitter.SetFinal newHeight)) else mret tt.

Definition ProduceBlock : EM unit :=
  done ← on_clock env_done;
  if (done : bool) then throw ECanceled else
  _ ← check_quorum;
  retry ← gets e_pendingBatchAck;
  _ ← (if (retry : bool) then ackCommittedBatch else mret tt);
  e ← gets id;
  let currentState := getLastState e in
  let newHeight := add64 (LastBlockHeight currentState) 1 in
  limit ← pending_limit;
  if (limit : bool) then mret tt else
  block ← next_block newHeight;
  match block with
  | None => mret tt
  | Some (header, data) =>
      _ ← check_quorum;
      newState ← ApplyBlock (sh_Header header) data;
      e ← gets id;
      let newState := with_DAHeight (sq_GetDAHeight (e_sequencer e)) newState in
      signature ← signHeader (sh_Header header);
      let header := set_Signature signature header in
      _ ← or_critical (zoom e_tracking set_e_tracking (wrap ETypes (AssertValidSequence currentState header)));
      _ ← commit_block newHeight header data signature newState;
      after_commit newHeight header data signature newState
  end.

(** ** The execution loop *)

Inductive loop_event := BlockTimer | LazyTimer | TxNotification.

(** An iteration of [executionLoop]; the flag is [txsAvailable]. A failed
    block is logged. *)
Definition loop_step (ev : loop_event) (txsAvailable : bool) : EM bool :=
  lazy ← gets e_lazyMode;
  match ev with
  | BlockTimer =>
      if (lazy : bool) && negb txsAvailable then mret txsAvailable else
      _ ← attempt (F := exec_error) ProduceBlock; mret false
  | LazyTimer =>
      if (lazy : bool) then _ ← attempt (F := exec_error) ProduceBlock; mret txsAvailable else mret txsAvailable
  | TxNotification =>
      notified ← gets e_txNotify;
      if (notified : bool) then _ ← modify (set_e_txNotify false); mret true else mret txsAvailable
  end.

(** ** Start and stop *)

(** The stored state, or the state of a new chain. *)
Definition load_or_init : EM State :=
  r ← attempt (on_store st_GetState);
  match r with
  | Ok state => mret state
  | Err _ =>
      e ← gets id;
      let g := e_genesis e in
      stateRoot ← or_critical (on_exec (InitChain (g_StartTime g) (g_InitialHeight g) (g_ChainID g)));
      mret (MkState zero_version (g_ChainID g) (g_InitialHeight g) (sub64 (g_InitialHeight g) 1) (g_StartTime g) None
              (g_DAStartHeight g) stateRoot (initialProposerAddress e))
  end.

Definition compare_with_raft (height : Z) (hash : slice) : EM unit :=
  header ← on_store (st_GetHeader height);
  if slice_equal (MemoizeHash (Some (sh_Header header))).1 hash then mret tt else throw (EMsg "block hash mismatch").

(** The state may not be ahead of raft, nor different at the same height. *)
Definition check_raft (state : State) : EM unit :=
  raft ← has_raft;
  if negb (raft : bool) then mret tt else
  raftState ← on_raft (infallible raft_GetState);
  if rb_Height raftState =? 0 then mret tt else
  if rb_Height raftState <? LastBlockHeight state then throw (EMsg "invalid state: local height ahead of raft") else
  if (0 <? LastBlockHeight state) && (LastBlockHeight state =? rb_Height raftState)
  then compare_with_raft (LastBlockHeight state) (rb_Hash raftState) else mret tt.

Definition persist_start (state : State) : EM unit :=
  batch ← on_store st_NewBatch;
  batch ← on_store (batch_SetHeight (LastBlockHeight state) batch);
  batch ← on_store (batch_UpdateState state batch);
  on_store (batch_Commit batch).

(** Filling the last-block cache; errors are ignored. *)
Definition warm_last_block (state : State) : EM unit :=
  if LastBlockHeight state <=? 0 then mret tt else
  r ← attempt (on_store (st_GetBlockData (LastBlockHeight state)));
  match r with
  | Err _ => mret tt
  | Ok (h, d) =>
      sig ← attempt (on_store (st_GetSignature (LastBlockHeight state)));
      let signature := match sig with Ok s => Some s | Err _ => None end in
      modify (set_e_lastBlockInfo (Some (MkLastBlockInfo (Header_Hash (Some (sh_Header h))) (Some (Data_Hash d)) signature)))
  end.

Definition sync_target (state : State) : EM Z :=
  raft ← has_raft;
  if negb (raft : bool) then mret (LastBlockHeight state) else
  raftState ← on_raft (infallible raft_GetState);
  mret (Z.max (LastBlockHeight state) (rb_Height raftState)).

Definition on_replayer (m : M (Replayer ST EX) replay_error unit) : EM unit :=
  zoom (fun e => MkReplayer (e_store e) (e_exec e) (e_genesis e))
       (fun r e => set_e_exec (rp_exec r) (set_e_store (rp_store r) e)) (wrap EReplay m).

Definition recheck_raft : EM unit :=
  raft ← has_raft;
  if negb (raft : bool) then mret tt else
  raftState ← on_raft (infallible raft_GetState);
  newState ← on_store st_GetState;
  if (0 <? LastBlockHeight newState) && (LastBlockHeight newState =? rb_Height raftState)
  then compare_with_raft (LastBlockHeight newState) (rb_Hash raftState) else mret tt.

Definition initializeState : EM unit :=
  state ← load_or_init;
  e ← gets id;
  let state := if slen (NextProposerAddress state) =? 0 then with_proposer (initialProposerAddress e) state else state in
  _ ← assertConfiguredSigner (NextProposerAddress state);
  _ ← check_raft state;
  _ ← modify (setLastState state);
  _ ← modify (fun e => set_e_sequencer (sq_SetDAHeight (DAHeight state) (e_sequencer e)) e);
  _ ← persist_start state;
  _ ← migrateLegacyPendingBlock;
  r ← attempt (F := exec_error) (on_store (st_GetMetadata headerKey));
  _ ← (if is_ok r then modify (set_e_hasPendingBlock true) else mret tt);
  _ ← warm_last_block state;
  syncTargetHeight ← sync_target state;
  _ ← or_critical (on_replayer (SyncToHeight syncTargetHeight));
  based ← gets e_basedSequencer;
  _ ← (if (based : bool) && (0 <? syncTargetHeight)
       then or_critical (on_exec (Submitter.SetFinal syncTargetHeight)) else mret tt);
  recheck_raft.

(** [Stop], after the loop has ended. *)
Definition Stop : EM unit :=
  has ← gets e_hasPendingBlock;
  if (has : bool) then mret tt else
  _ ← attempt (F := exec_error) deletePendingBlock; mret tt.

Definition IsSyncedWithRaft (raftState : RaftBlockState) : EM Z :=
  state ← on_store st_GetState;
  let diff := i64 (to_i64 (LastBlockHeight state) - to_i64 (rb_Height raftState)) in
  if negb (diff =? 0) then mret diff else
  if rb_Height raftState =? 0 then mret 0 else
  _ ← compare_with_raft (rb_Height raftState) (rb_Hash raftState);
  mret 0.

End executor.

(** [NewExecutor], with fresh flags and caches. *)
Definition NewExecutor {ST PK EX Q SG R B V C} (mgr : Manager ST PK C) (exec : EX) (sequencer : Q) (signer : option SG)
  (basedSequencer lazyMode : bool) (maxPending : Z) (genesis : ChainGenesis) (signatureBytes : Header -> res string bytes)
  (validatorHasher : slice -> option PK -> res string slice) (raftNode : option R) (errorCh : option (nat * list exec_error))
  (broadcast : B) (tracking : SeqTracking) (env : V) : res exec_error (Executor ST PK EX Q SG R B V C) :=
  if negb basedSequencer && match signer with None => true | Some _ => false end
  then Err (EMsg "signer cannot be nil")
  else Ok (MkExecutor mgr exec sequencer signer basedSequencer lazyMode maxPending genesis signatureBytes validatorHasher
             raftNode None false None 0 false errorCh false broadcast tracking env).

End Executing.
