(* ===== verification/Raft.v ===== *)
(** * The raft node ([pkg/raft])

    Aggregators of a cluster replicate the last block through raft. The
    consensus itself is the library hashicorp/raft, an interface here: [RaftLib]
    has the calls the code makes, and a log of the entries the library has
    applied on this node. The state machine those entries drive, the node around
    the library and the leader election are translated.

    Waiting loops ask the environment for the next event of their [select]; the
    number of polls before the deadline is a parameter. *)

From S2P Require Import Prelude Sha256 Datastore Types Serialization StoreAPI Syncer Executing.
From stdpp Require Import base gmap strings list numbers.
Open Scope Z_scope.

Module Raft.

(** ** Replicated state *)

Definition assertValid (s next : RaftBlockState) : res string unit :=
  if rb_Height next <=? rb_Height s then Err "invalid height" else
  if rb_Timestamp next <=? rb_Timestamp s then Err "invalid timestamp" else Ok tt.

(** [raft.Log]: index, term and data. *)
Record Log := MkLog { log_Index : Z; log_Term : Z; log_Data : bytes }.

Record RaftApplyMsg := MkApplyMsg { am_Index : Z; am_Term : Z; am_State : RaftBlockState }.

(** The channel of [SetApplyCallback] has a capacity and the messages in it. *)
Record FSM := MkFSM { fsm_state : RaftBlockState; fsm_applyCh : option (nat * list RaftApplyMsg) }.

Definition empty_state : RaftBlockState := MkRaftBlockState 0 0 0 None 0 [] [].
(** The FSM made by [NewNode]. *)
Definition new_FSM : FSM := MkFSM empty_state None.

Section fsm.
Context `{ProtoMsg RaftBlockState}.

(** A full channel drops the message. *)
Definition notify (log : Log) (state : RaftBlockState) (f : FSM) : FSM :=
  match fsm_applyCh f with
  | None => f
  | Some (cap, msgs) =>
      if (length msgs <? cap)%nat
      then MkFSM (fsm_state f) (Some (cap, msgs ++ [MkApplyMsg (log_Index log) (log_Term log) state]))
      else f
  end.

(** The response, [nil] or an error, and the new state. *)
Definition FSM_Apply (log : Log) (f : FSM) : res string unit * FSM :=
  match proto_Unmarshal (log_Data log) with
  | Err _ => (Err "unmarshal block state", f)
  | Ok state =>
      match assertValid (fsm_state f) state with
      | Err e => (Err e, f)
      | Ok _ => (Ok tt, notify log state (MkFSM state (fsm_applyCh f)))
      end
  end.

(** [Snapshot] copies the state. *)
Definition FSM_Snapshot (f : FSM) : RaftBlockState := fsm_state f.

(** [Restore], given what reading the snapshot returned. *)
Definition FSM_Restore (read : res string bytes) (f : FSM) : res string unit * FSM :=
  match read with
  | Err _ => (Err "read snapshot", f)
  | Ok data =>
      match proto_Unmarshal data with
      | Err _ => (Err "decode snapshot", f)
      | Ok state => (Ok tt, MkFSM state (fsm_applyCh f))
      end
  end.

(** [raft.SnapshotSink]. *)
Class SnapshotSink (K : Type) := {
  sink_Write : bytes -> M K string unit;
  sink_Close : M K string unit;
  sink_Cancel : K -> K
}.

Definition Persist {K} `{SnapshotSink K} (state : RaftBlockState) : M K string unit := fun k =>
  let write : M K string unit :=
    data ← lift_res (map_err (fun _ => "marshal"%string) (proto_Marshal state));
    _ ← sink_Write data;
    sink_Close in
  match write k with
  | (Ok _, k') => (Ok tt, k')
  | (Err e, k') => (Err e, sink_Cancel k')
  end.

End fsm.

Definition set_applyCh (ch : option (nat * list RaftApplyMsg)) (f : FSM) : FSM := MkFSM (fsm_state f) ch.

(** ** Peers *)

Record Server := MkServer { srv_ID : string; srv_Address : string }.
#[export] Instance Server_eq_dec : EqDecision Server.
Proof. solve_decision. Defined.

(** [strings.Split(s, "@")]; 64 is the code of the separator. *)
Fixpoint split_on (c : Ascii.ascii) (s : string) : list string :=
  match s with
  | EmptyString => [EmptyString]
  | String a s' =>
      let rest := split_on c s' in
      if bool_decide (a = c) then EmptyString :: rest
      else match rest with
           | [] => [String a EmptyString]
           | w :: ws => String a w :: ws
           end
  end.

(** The UTF-8 encodings of the characters [unicode.IsSpace] accepts. *)
Definition spaces : list (list Z) :=
  ((fun z => [z]) <$> [9; 10; 11; 12; 13; 32]) ++ [[194; 133]; [194; 160]; [225; 154; 128]] ++
  ((fun z => [226; 128; z]) <$> [128; 129; 130; 131; 132; 133; 134; 135; 136; 137; 138; 168; 169; 175]) ++
  [[226; 129; 159]; [227; 128; 128]].

Definition codes (s : string) : list Z := (fun a => Z.of_nat (Ascii.nat_of_ascii a)) <$> String.list_ascii_of_string s.
Definition of_codes (l : list Z) : string :=
  String.string_of_list_ascii ((fun z => Ascii.ascii_of_nat (Z.to_nat z)) <$> l).

Definition drop_prefix (l : list Z) (sp : list Z) : option (list Z) :=
  if bool_decide (take (length sp) l = sp) then Some (drop (length sp) l) else None.
Fixpoint first_some {A B} (f : A -> option B) (l : list A) : option B :=
  match l with
  | [] => None
  | x :: l' => match f x with Some y => Some y | None => first_some f l' end
  end.
Fixpoint trim_left (fuel : nat) (sps : list (list Z)) (l : list Z) : list Z :=
  match fuel with
  | O => l
  | S fuel' => match first_some (drop_prefix l) sps with Some l' => trim_left fuel' sps l' | None => l end
  end.
(** [strings.TrimSpace]; every character takes at least one byte. *)
Definition TrimSpace (s : string) : string :=
  let l := codes s in
  let l := trim_left (length l) spaces l in
  of_codes (reverse (trim_left (length l) (reverse <$> spaces) (reverse l))).

Definition splitPeerAddr (peer : string) : res string Server :=
  match split_on (Ascii.ascii_of_nat 64) peer with
  | [id; addr] =>
      let nodeID := TrimSpace id in let address := TrimSpace addr in
      if bool_decide (nodeID = ""%string) then Err "nodeID cannot be empty" else
      if bool_decide (address = ""%string) then Err "address cannot be empty" else
      Ok (MkServer nodeID address)
  | _ => Err "expecting nodeID@address for peer"
  end.

Fixpoint dedup_loop (seen : list string) (servers : list Server) : list Server :=
  match servers with
  | [] => []
  | s :: rest => if bool_decide (srv_ID s ∈ seen) then dedup_loop seen rest else s :: dedup_loop (srv_ID s :: seen) rest
  end.
Definition deduplicateServers (servers : list Server) : list Server := dedup_loop [] servers.

(** ** The library *)

Class RaftLib (L : Type) := {
  (** The state machine handed to [NewRaft], which the node shares. *)
  rl_fsm : L -> FSM;
  rl_set_fsm : FSM -> L -> L;
  (** The entries applied on this node so far, oldest first. *)
  rl_log : L -> list Log;
  (** [State() == Leader]. *)
  rl_isLeader : L -> bool * L;
  (** [Apply(data, timeout)]: the error of the future. *)
  rl_Apply : bytes -> M L string unit;
  rl_Barrier : M L string unit;
  rl_GetConfiguration : M L string (list Server);
  rl_BootstrapCluster : list Server -> M L string unit;
  rl_AddVoter : string -> string -> M L string unit;
  rl_RemoveServer : string -> M L string unit;
  rl_LeaderWithID : L -> string * L;
  rl_AppliedIndex : L -> Z * L;
  rl_CommitIndex : L -> Z * L;
  rl_LeadershipTransfer : M L string unit;
  rl_Shutdown : M L string unit
}.

(** What the waiting loops ask: [ctx.Err() != nil], and which case of a [select]
    is taken next. *)
Inductive wake := WTick | WDeadline | WDone.
Class Waits (V : Type) := { w_done : V -> bool * V; w_next : V -> wake * V }.

Record Config := MkRaftConfig
  { rc_NodeID : string; rc_RaftAddr : string; rc_Peers : list string; rc_SendTimeout : Z; rc_ShutdownTimeout : Z }.

(** [NewNode] replaces a shutdown timeout that is not positive. *)
Definition clamp_config (cfg : Config) : Config :=
  if rc_ShutdownTimeout cfg <=? 0
  then MkRaftConfig (rc_NodeID cfg) (rc_RaftAddr cfg) (rc_Peers cfg) (rc_SendTimeout cfg) (5 * rc_SendTimeout cfg)
  else cfg.

Record Node (L V : Type) := MkNode { n_raft : L; n_config : Config; n_env : V }.
Arguments MkNode {L V}. Arguments n_raft {L V}. Arguments n_config {L V}. Arguments n_env {L V}.

Section node.
Context {L V : Type} `{RaftLib L} `{Waits V} `{ProtoMsg RaftBlockState}.
Abbreviation N := (Node L V).
Definition NM (A : Type) : Type := M N string A.

Definition set_n_raft l (n : N) : N := MkNode l (n_config n) (n_env n).
Definition set_n_env v (n : N) : N := MkNode (n_raft n) (n_config n) v.
Definition on_lib {A} (m : M L string A) : NM A := zoom n_raft set_n_raft m.
Definition ask_lib {A} (f : L -> A * L) : NM A := on_lib (infallible f).
Definition ask_env {A} (f : V -> A * V) : NM A := zoom n_env set_n_env (infallible f).

(** A node is never nil here: the pointer is [e_raft] of the executor. *)
Definition IsLeader : NM bool := ask_lib rl_isLeader.

Definition HasQuorum : NM bool :=
  leader ← IsLeader;
  if negb (leader : bool) then mret false else
  r ← attempt (on_lib rl_Barrier);
  mret (match r with Ok _ => true | Err _ => false end).

Definition LeaderID : NM string := ask_lib rl_LeaderWithID.
Definition NodeID (n : N) : string := rc_NodeID (n_config n).
Definition leadershipTransfer : NM unit := on_lib rl_LeadershipTransfer.

Definition Broadcast (state : RaftBlockState) : NM unit :=
  leader ← IsLeader;
  if negb (leader : bool) then throw "not leader"%string else
  data ← lift_res (map_err (fun _ => "marshal block state"%string) (proto_Marshal state));
  done ← ask_env w_done;
  if (done : bool) then throw "context canceled"%string else
  wrap (fun _ => "apply log"%string) (on_lib (rl_Apply data)).

(** [GetState] clones the state. *)
Definition GetState (n : N) : RaftBlockState := fsm_state (rl_fsm (n_raft n)).

Definition SetApplyCallback (cap : nat) : NM unit :=
  modify (fun n => set_n_raft (rl_set_fsm (set_applyCh (Some (cap, [])) (rl_fsm (n_raft n))) (n_raft n)) n).

(** The servers of the configuration, before duplicates are looked for. *)
Fixpoint add_peers (this : Server) (peers : list string) (servers : list Server) : res string (list Server) :=
  match peers with
  | [] => Ok servers
  | peer :: rest =>
      match splitPeerAddr peer with
      | Err e => Err e
      | Ok addr => add_peers this rest (if bool_decide (addr = this) then servers else servers ++ [addr])
      end
  end.

Definition Start : NM unit :=
  r ← attempt (E := string) (on_lib rl_GetConfiguration);
  if match r with Ok (_ :: _) => true | _ => false end then mret tt else
  cfg ← gets n_config;
  let thisNode := MkServer (rc_NodeID cfg) (rc_RaftAddr cfg) in
  servers ← lift_res (add_peers thisNode (rc_Peers cfg) [thisNode]);
  if negb (bool_decide (length (deduplicateServers servers) = length servers))
  then throw "duplicate peers found in config"%string else
  wrap (fun _ => "bootstrap cluster"%string) (on_lib (rl_BootstrapCluster servers)).

(** Polls until everything committed is applied, and checks a last time at the
    deadline; the ticker fires at most [polls] times before. *)
Definition landed : NM bool :=
  applied ← ask_lib rl_AppliedIndex;
  commit ← ask_lib rl_CommitIndex;
  mret (commit <=? applied).
Fixpoint wait_landed (polls : nat) : NM unit :=
  let deadline := ok ← landed; if (ok : bool) then mret tt else throw "max wait time reached"%string in
  match polls with
  | O => deadline
  | S polls' =>
      ev ← ask_env w_next;
      match ev with
      | WTick => ok ← landed; if (ok : bool) then mret tt else wait_landed polls'
      | _ => deadline
      end
  end.
Definition waitForMsgsLanded (timeout : Z) : NM unit :=
  wait_landed (Z.to_nat (timeout / Z.min (50 * millisecond) (Z.quot timeout 4))).

Definition Stop : NM unit :=
  cfg ← gets n_config;
  _ ← attempt (F := string) (waitForMsgsLanded (rc_ShutdownTimeout cfg));
  leader ← IsLeader;
  _ ← (if (leader : bool) then attempt (F := string) leadershipTransfer else mret (Ok tt));
  on_lib rl_Shutdown.

(** The transfer is left to itself when the context is done first. *)
Definition ResignLeader : NM unit :=
  leader ← IsLeader;
  if negb (leader : bool) then mret tt else
  r ← attempt leadershipTransfer;
  done ← ask_env w_done;
  if (done : bool) then throw "context canceled"%string else lift_res r.

(** [true] when the node is a member under this address already. *)
Fixpoint remove_existing (nodeID addr : string) (servers : list Server) : NM bool :=
  match servers with
  | [] => mret false
  | srv :: rest =>
      if bool_decide (srv_ID srv = nodeID) || bool_decide (srv_Address srv = addr) then
        if bool_decide (srv_ID srv = nodeID) && bool_decide (srv_Address srv = addr) then mret true else
        _ ← wrap (fun _ => "removing existing node"%string) (on_lib (rl_RemoveServer (srv_ID srv)));
        remove_existing nodeID addr rest
      else remove_existing nodeID addr rest
  end.
Definition AddPeer (nodeID addr : string) : NM unit :=
  servers ← on_lib rl_GetConfiguration;
  member ← remove_existing nodeID addr servers;
  if (member : bool) then mret tt else on_lib (rl_AddVoter nodeID addr).
Definition RemovePeer (nodeID : string) : NM unit := on_lib (rl_RemoveServer nodeID).
Definition Shutdown : NM unit := on_lib rl_Shutdown.

End node.

(** The node is what the executor calls raft. *)
#[export] Instance node_port {L V} `{RaftLib L} `{Waits V} `{ProtoMsg RaftBlockState} : RaftNode (Node L V) := {
  raft_HasQuorum n := match HasQuorum n with (Ok b, n') => (b, n') | (Err _, n') => (false, n') end;
  raft_GetState n := (GetState n, n);
  raft_Broadcast := Broadcast
}.

End Raft.

(** * Leader election ([pkg/raft/election.go])

    [Run] of the election selects between notifications of the raft library, a
    ticker, the errors of its worker and its context: every case is a definition,
    and [run_step] one turn of the loop. A worker is a goroutine; the record keeps
    which one runs. *)

Module Election.
Import Raft.

(** ** Interfaces *)

(** [sourceNode]; the timeouts of the configuration are part of the calls. *)
Class SourceNode (N : Type) := {
  sn_leaderID : N -> string * N;
  sn_NodeID : N -> string;
  sn_GetState : N -> RaftBlockState;
  sn_leadershipTransfer : M N string unit;
  sn_waitForMsgsLanded : M N string unit
}.

(** [Runnable]; the work of [Run] is a goroutine of its own. *)
Class Runnable (W : Type) := {
  rn_IsSynced : RaftBlockState -> M W string Z;
  rn_Recover : RaftBlockState -> M W string unit
}.

Inductive Role := Leader | Follower.
Class Factories (F W : Type) := { new_runnable : Role -> M F string W }.

Inductive elect_error :=
| ErrLeadershipLost
| ElCanceled
| ElFailed (msg : string).

Inductive syncResult := syncResultSynced | syncResultTimeout | syncResultLostLeadership | syncResultCanceled.

(** ** State *)

Record DynamicLeaderElection (N W F V : Type) := MkElection
  { el_node : N; el_factory : F; el_env : V;
    el_isStarted : bool; el_isCurrentlyLeader : bool;
    (** [ticker.C] is not nil. *)
    el_ticker : bool;
    el_runnable : option W;
    el_worker : option Role;
    el_errCh : option string }.
Arguments MkElection {N W F V}. Arguments el_node {N W F V}. Arguments el_factory {N W F V}.
Arguments el_env {N W F V}. Arguments el_isStarted {N W F V}. Arguments el_isCurrentlyLeader {N W F V}.
Arguments el_ticker {N W F V}. Arguments el_runnable {N W F V}. Arguments el_worker {N W F V}.
Arguments el_errCh {N W F V}.

Section election.
Context {N W F V : Type} `{SourceNode N} `{Runnable W} `{Factories F W} `{Waits V}.
(** How often a waiting loop polls before its deadline. *)
Context (polls : nat).
Abbreviation D := (DynamicLeaderElection N W F V).
Definition ElM (A : Type) : Type := M D elect_error A.

Definition set_el_node x (d : D) : D := MkElection x (el_factory d) (el_env d) (el_isStarted d)
  (el_isCurrentlyLeader d) (el_ticker d) (el_runnable d) (el_worker d) (el_errCh d).
Definition set_el_factory x (d : D) : D := MkElection (el_node d) x (el_env d) (el_isStarted d)
  (el_isCurrentlyLeader d) (el_ticker d) (el_runnable d) (el_worker d) (el_errCh d).
Definition set_el_env x (d : D) : D := MkElection (el_node d) (el_factory d) x (el_isStarted d)
  (el_isCurrentlyLeader d) (el_ticker d) (el_runnable d) (el_worker d) (el_errCh d).
Definition set_el_isStarted x (d : D) : D := MkElection (el_node d) (el_factory d) (el_env d) x
  (el_isCurrentlyLeader d) (el_ticker d) (el_runnable d) (el_worker d) (el_errCh d).
Definition set_el_isCurrentlyLeader x (d : D) : D := MkElection (el_node d) (el_factory d) (el_env d) (el_isStarted d)
  x (el_ticker d) (el_runnable d) (el_worker d) (el_errCh d).
Definition set_el_ticker x (d : D) : D := MkElection (el_node d) (el_factory d) (el_env d) (el_isStarted d)
  (el_isCurrentlyLeader d) x (el_runnable d) (el_worker d) (el_errCh d).
Definition set_el_runnable x (d : D) : D := MkElection (el_node d) (el_factory d) (el_env d) (el_isStarted d)
  (el_isCurrentlyLeader d) (el_ticker d) x (el_worker d) (el_errCh d).
Definition set_el_worker x (d : D) : D := MkElection (el_node d) (el_factory d) (el_env d) (el_isStarted d)
  (el_isCurrentlyLeader d) (el_ticker d) (el_runnable d) x (el_errCh d).
Definition set_el_errCh x (d : D) : D := MkElection (el_node d) (el_factory d) (el_env d) (el_isStarted d)
  (el_isCurrentlyLeader d) (el_ticker d) (el_runnable d) (el_worker d) x.

Definition on_node {A} (m : M N string A) : ElM A := wrap ElFailed (zoom el_node set_el_node m).
Definition on_env {A} (f : V -> A * V) : ElM A := zoom el_env set_el_env (infallible f).
Definition on_runnable {A} (m : M W string A) : ElM A := fun d =>
  match el_runnable d with
  | None => (Err (ElFailed "nil runnable"), d)
  | Some w => let '(r, w') := m w in (map_err ElFailed r, set_el_runnable (Some w') d)
  end.
Definition leaderID : ElM string := on_node (infallible sn_leaderID).

(** [workerCancel(); wg.Wait()] *)
Definition stop_worker : ElM unit := modify (set_el_worker None).
Definition startWorker (r : Role) : ElM unit :=
  _ ← stop_worker;
  modify (set_el_worker (Some r)).

(** The goroutine of the worker ended with an error that is not a cancellation:
    leadership is given up, and the error kept unless there is one already. *)
Definition worker_failed (msg : string) : ElM unit :=
  _ ← attempt (F := elect_error) (on_node sn_leadershipTransfer);
  modify (fun d => set_el_worker None (match el_errCh d with None => set_el_errCh (Some msg) d | Some _ => d end)).

(** ** Verification of the follower's state *)

(** Waits for a raft state that is not at height zero; [None] at the deadline. *)
Fixpoint wait_for_state (n : nat) : ElM (option RaftBlockState) :=
  raftState ← gets (fun d => sn_GetState (el_node d));
  if negb (rb_Height raftState =? 0) then mret (Some raftState) else
  match n with
  | O => mret None
  | S n' =>
      ev ← on_env w_next;
      match ev with
      | WDone => throw ElCanceled
      | WDeadline => mret None
      | WTick => wait_for_state n'
      end
  end.

Definition verifyState : ElM unit :=
  rs ← wait_for_state polls;
  match rs with
  | None => mret tt
  | Some raftState =>
      r ← attempt (F := elect_error) (on_runnable (rn_IsSynced raftState));
      match r with
      | Err _ => on_runnable (rn_Recover raftState)
      | Ok diff =>
          if diff =? 0 then mret tt else
          if diff <? 0 then mret tt else
          on_runnable (rn_Recover raftState)
      end
  end.

Definition make_runnable (r : Role) : ElM unit :=
  w ← wrap ElFailed (zoom el_factory set_el_factory (new_runnable r));
  modify (set_el_runnable (Some w)).

Definition startFollower : ElM unit :=
  _ ← make_runnable Follower;
  _ ← attempt (F := elect_error) (on_node sn_waitForMsgsLanded);
  _ ← verifyState;
  startWorker Follower.

(** ** Becoming the leader *)

Definition synced_enough : ElM bool :=
  rs ← gets (fun d => sn_GetState (el_node d));
  r ← attempt (F := elect_error) (on_runnable (rn_IsSynced rs));
  mret (match r with Ok diff => -1 <=? diff | Err _ => false end).

Fixpoint wait_sync (n : nat) : ElM syncResult :=
  let deadline := ok ← synced_enough; mret (if (ok : bool) then syncResultSynced else syncResultTimeout) in
  match n with
  | O => deadline
  | S n' =>
      ev ← on_env w_next;
      match ev with
      | WDone => mret syncResultCanceled
      | WDeadline => deadline
      | WTick =>
          id ← leaderID;
          me ← gets (fun d => sn_NodeID (el_node d));
          if negb (bool_decide (id = me)) then mret syncResultLostLeadership else
          ok ← synced_enough;
          if (ok : bool) then mret syncResultSynced else wait_sync n'
      end
  end.
Definition waitForBlockStoreSync : ElM syncResult := wait_sync polls.

(** What was found out about the store: [None] is [continue], the new leader
    does not start. *)
Definition measure_sync : ElM (option (Z * RaftBlockState)) :=
  raftState ← gets (fun d => sn_GetState (el_node d));
  diff ← on_runnable (rn_IsSynced raftState);
  if negb (diff <? -1) then mret (Some (diff, raftState)) else
  r ← waitForBlockStoreSync;
  match r with
  | syncResultCanceled => throw ElCanceled
  | syncResultLostLeadership => mret None
  | syncResultTimeout =>
      _ ← on_node sn_leadershipTransfer;
      mret None
  | syncResultSynced =>
      raftState ← gets (fun d => sn_GetState (el_node d));
      diff ← on_runnable (rn_IsSynced raftState);
      mret (Some (diff, raftState))
  end.

(** A follower that becomes the leader; [true] if it may. *)
Definition promote : ElM bool :=
  id ← leaderID;
  me ← gets (fun d => sn_NodeID (el_node d));
  if negb (bool_decide (id = me)) then mret false else
  m ← measure_sync;
  match m with
  | None => mret false
  | Some (diff, raftState) =>
      _ ← (if diff =? 0 then mret tt else
           r ← attempt (on_runnable (rn_Recover raftState));
           match r with
           | Ok _ => mret tt
           | Err e =>
               _ ← attempt (F := elect_error) (on_node sn_leadershipTransfer);
               throw e
           end);
      _ ← stop_worker;
      mret true
  end.

Definition become_leader : ElM unit :=
  r ← attempt (F := elect_error) (on_node sn_waitForMsgsLanded);
  match r with
  | Err _ =>
      _ ← attempt (F := elect_error) (on_node sn_leadershipTransfer);
      mret tt
  | Ok _ =>
      started ← gets el_isStarted;
      go ← (if (started : bool) then promote else mret true);
      if negb (go : bool) then mret tt else
      _ ← make_runnable Leader;
      _ ← modify (set_el_isStarted true);
      _ ← modify (set_el_isCurrentlyLeader true);
      startWorker Leader
  end.

(** ** The loop *)

(** [case becameLeader := <-d.node.leaderCh()] *)
Definition on_leader_change (becameLeader : bool) : ElM unit :=
  d ← gets id;
  if becameLeader && negb (el_isCurrentlyLeader d) then become_leader
  else if negb becameLeader && el_isCurrentlyLeader d then
    _ ← stop_worker;
    throw ErrLeadershipLost
  else if negb becameLeader && negb (el_isCurrentlyLeader d) && negb (el_isStarted d) then
    _ ← modify (set_el_isStarted true);
    startFollower
  else mret tt.

(** [case <-ticker.C] *)
Definition on_ticker : ElM unit :=
  active ← gets el_ticker;
  if negb (active : bool) then mret tt else
  id ← leaderID;
  if bool_decide (id = ""%string) then mret tt else
  _ ← modify (set_el_ticker false);
  started ← gets el_isStarted;
  if (started : bool) then mret tt else
  me ← gets (fun d => sn_NodeID (el_node d));
  if bool_decide (id = me) then mret tt else
  _ ← modify (set_el_isStarted true);
  startFollower.

Inductive el_event := EvLeader (becameLeader : bool) | EvTicker | EvErr | EvDone.

(** One turn; an error is what [Run] returns, after its deferred clean-up. *)
Definition run_step (ev : el_event) : ElM unit := fun d =>
  let body : ElM unit :=
    match ev with
    | EvLeader b => on_leader_change b
    | EvTicker => on_ticker
    | EvErr => fun d => match el_errCh d with Some e => (Err (ElFailed e), d) | None => (Ok tt, d) end
    | EvDone => throw ElCanceled
    end in
  match body d with
  | (Ok _, d') => (Ok tt, d')
  | (Err e, d') => (Err e, set_el_worker None d')
  end.

End election.

(** [NewDynamicLeaderElection] and the variables of [Run]. *)
Definition NewDynamicLeaderElection {N W F V} (node : N) (factory : F) (env : V) : DynamicLeaderElection N W F V :=
  MkElection node factory env false false true None None None.

(** The node of [pkg/raft] as a source node. *)
#[export] Instance node_source {L V} `{RaftLib L} `{Waits V} : SourceNode (Node L V) := {
  sn_leaderID n := match LeaderID n with (Ok i, n') => (i, n') | (Err _, n') => (""%string, n') end;
  sn_NodeID := NodeID;
  sn_GetState := GetState;
  sn_leadershipTransfer := leadershipTransfer;
  sn_waitForMsgsLanded n := waitForMsgsLanded (rc_SendTimeout (n_config n)) n
}.

End Election.

(** * Catching up before producing, and the roles of a node ([node/failover.go])

    A node in aggregator mode may first run the syncer until its recovery
    sources are exhausted. What it asks of its parts is an interface; the loop of
    [waitForCatchup] is a step on what its select receives. *)

Module Failover.

Record catchupStatus := MkCatchup
  { storeHeight : Z; headerHeight : Z; dataHeight : Z; headerP2PReady : bool; dataP2PReady : bool;
    daCaughtUp : bool; pendingEvents : Z }.

Definition p2pReady (s : catchupStatus) : bool :=
  headerP2PReady s && dataP2PReady s && (Z.max (headerHeight s) (dataHeight s) <=? storeHeight s).
Definition ready (p2pRecovery : bool) (s : catchupStatus) : bool :=
  if negb (daCaughtUp s) || negb (pendingEvents s =? 0) then false else
  if negb p2pRecovery then true else p2pReady s.

(** What the node asks of the store, of the sync services and of the syncer, if
    there is one; raft is [None] on a node without it. *)
Class Parts (B : Type) := {
  pt_store_Height : M B string Z;
  pt_header_Height : B -> Z * B;
  pt_data_Height : B -> Z * B;
  pt_header_P2PInitialized : B -> bool * B;
  pt_data_P2PInitialized : B -> bool * B;
  pt_HasReachedDAHead : B -> bool * B;
  pt_PendingCount : B -> Z * B;
  pt_raft_IsLeader : option (B -> bool * B);
  pt_syncer_IsSynced : RaftBlockState -> M B string Z;
  pt_executor_IsSynced : RaftBlockState -> M B string Z;
  pt_syncer_Recover : RaftBlockState -> M B string unit;
  pt_syncer_Start : M B string unit
}.

Record failoverState (B : Type) := MkFailover
  { fs_parts : B; fs_syncer : bool; fs_executor : bool; fs_isAggregator : bool; fs_catchupEnabled : bool;
    fs_catchupTimeout : Z; fs_p2pRecovery : bool; fs_daBlockTime : Z }.
Arguments MkFailover {B}. Arguments fs_parts {B}. Arguments fs_syncer {B}. Arguments fs_executor {B}. Arguments fs_isAggregator {B}.
Arguments fs_catchupEnabled {B}. Arguments fs_catchupTimeout {B}. Arguments fs_p2pRecovery {B}. Arguments fs_daBlockTime {B}.

(** What [setupFailoverState] decides; the parts are built before. *)
Definition setupFailoverState {B} (parts : B) (isAggregator hasExecutor : bool) (catchupTimeout daBlockTime : Z) (peers : string) : failoverState B :=
  let catchupEnabled := isAggregator && (0 <? catchupTimeout) in
  MkFailover parts (negb (isAggregator && negb catchupEnabled)) hasExecutor isAggregator catchupEnabled catchupTimeout
    (negb (bool_decide (Raft.TrimSpace peers = ""%string))) daBlockTime.

Section failover.
Context {B : Type} `{Parts B}.
Definition FoM (A : Type) : Type := M (failoverState B) string A.
Definition set_fs_parts x (f : failoverState B) : failoverState B := MkFailover x (fs_syncer f) (fs_executor f) (fs_isAggregator f) (fs_catchupEnabled f) (fs_catchupTimeout f) (fs_p2pRecovery f) (fs_daBlockTime f).
Definition drop_syncer (f : failoverState B) : failoverState B := MkFailover (fs_parts f) false (fs_executor f) (fs_isAggregator f) (fs_catchupEnabled f) (fs_catchupTimeout f) (fs_p2pRecovery f) (fs_daBlockTime f).
Definition on_parts {A} (m : M B string A) : FoM A := zoom fs_parts set_fs_parts m.
Definition ask_parts {A} (g : B -> A * B) : FoM A := zoom fs_parts set_fs_parts (infallible g).

Definition catchup_status : FoM catchupStatus :=
  height ← on_parts pt_store_Height;
  hh ← ask_parts pt_header_Height;
  dh ← ask_parts pt_data_Height;
  hr ← ask_parts pt_header_P2PInitialized;
  dr ← ask_parts pt_data_P2PInitialized;
  syncer ← gets fs_syncer;
  if (syncer : bool) then
    da ← ask_parts pt_HasReachedDAHead;
    n ← ask_parts pt_PendingCount;
    mret (MkCatchup height hh dh hr dr da n)
  else mret (MkCatchup height hh dh hr dr false 0).

Definition shouldStartSyncInPublisherMode : FoM bool :=
  agg ← gets fs_isAggregator;
  if negb agg then mret false else
  match pt_raft_IsLeader with
  | None => mret false
  | Some isLeader =>
      leader ← ask_parts isLeader;
      if negb leader then mret false else
      r ← attempt (F := string) (on_parts pt_store_Height);
      match r with
      | Err _ => mret false
      | Ok _ =>
          hh ← ask_parts pt_header_Height;
          dh ← ask_parts pt_data_Height;
          mret (negb ((0 <? hh) || (0 <? dh)))
      end
  end.

(** ** Waiting *)

Inductive wait_event := WDone | WTimeout | WTick.
(** The outcome of a turn: go on, with or without the timeout channel, or return. *)
Inductive wait_outcome := WContinue (timeout : bool) | WReturn (r : res string bool).

(** [timeoutCh] is not nil at first. *)
Definition initial_timeout (f : failoverState B) : bool := fs_p2pRecovery f && (0 <? fs_catchupTimeout f).

Definition wait_turn (timeout : bool) (ev : wait_event) : M (failoverState B) Empty_set wait_outcome :=
  p2pRecovery ← gets fs_p2pRecovery;
  match ev with
  | WDone => mret (WReturn (Err "context canceled"%string))
  | WTimeout =>
      if negb timeout then mret (WContinue timeout) else
      r ← attempt catchup_status;
      match r with
      | Err e => mret (WReturn (Err ("P2P recovery timed out: " +:+ e)))
      | Ok status => if p2pReady status then mret (WContinue false) else mret (WReturn (Err "P2P recovery timed out"%string))
      end
  | WTick =>
      r ← attempt catchup_status;
      match r with
      | Err _ => mret (WContinue timeout)
      | Ok status =>
          let timeout := if p2pRecovery && p2pReady status then false else timeout in
          if ready p2pRecovery status then mret (WReturn (Ok true)) else mret (WContinue timeout)
      end
  end.

(** The events that the select receives, one turn each; [None] while it waits. *)
Fixpoint wait_events (timeout : bool) (evs : list wait_event) : M (failoverState B) Empty_set (option (res string bool)) :=
  match evs with
  | [] => mret None
  | ev :: rest =>
      o ← wait_turn timeout ev;
      match o with WContinue timeout => wait_events timeout rest | WReturn r => mret (Some r) end
  end.
Definition waitForCatchup (evs : list wait_event) : M (failoverState B) Empty_set (option (res string bool)) :=
  f ← gets id;
  wait_events (initial_timeout f) evs.

(** The syncer is dropped, and block production starts, only when caught up. *)
Definition catchup_end (evs : list wait_event) : FoM (option unit) := fun f =>
  match waitForCatchup evs f with
  | (Ok None, f) => (Ok None, f)
  | (Ok (Some (Ok true)), f) => (Ok (Some tt), drop_syncer f)
  | (Ok (Some (Ok false)), f) => (Err "context canceled"%string, f)
  | (Ok (Some (Err e)), f) => (Err e, f)
  | (Err e, f) => match e with end
  end.
Definition runCatchupPhase (evs : list wait_event) : FoM (option unit) :=
  _ ← on_parts pt_syncer_Start;
  catchup_end evs.

(** ** Roles *)

Definition IsSynced (s : RaftBlockState) : FoM Z :=
  f ← gets id;
  if fs_syncer f then on_parts (pt_syncer_IsSynced s)
  else if fs_executor f then on_parts (pt_executor_IsSynced s)
  else throw "sync check not supported in this mode"%string.
Definition Recover (s : RaftBlockState) : FoM unit :=
  f ← gets id;
  if fs_syncer f then on_parts (pt_syncer_Recover s) else throw "recovery not supported in this mode"%string.

#[export] Instance failover_runnable : Election.Runnable (failoverState B) := { rn_IsSynced := IsSynced; rn_Recover := Recover }.

(** ** When production starts *)

(** The status that a tick saw. *)
Definition saw (status : catchupStatus) (f : failoverState B) : Prop := (catchup_status f).1 = Ok status.

Lemma catchup_status_fields f : let f' := (catchup_status f).2 in
  fs_p2pRecovery f' = fs_p2pRecovery f /\ fs_syncer f' = fs_syncer f /\ fs_executor f' = fs_executor f.
Proof.
  unfold catchup_status, on_parts, ask_parts, mbind, M_bind, zoom, infallible, gets. 
  destruct (pt_store_Height (fs_parts f)) as [[n|e] p]; simpl; [|done].
  destruct (pt_header_Height p) as [hh p1]; simpl. destruct (pt_data_Height p1) as [dh p2]; simpl.
  destruct (pt_header_P2PInitialized p2) as [hr p3]; simpl. destruct (pt_data_P2PInitialized p3) as [dr p4]; simpl.
  destruct (fs_syncer f) eqn:Hs; simpl; [|done].
  destruct (pt_HasReachedDAHead p4) as [da p5]; simpl. by destruct (pt_PendingCount p5) as [k p6].
Qed.

(** Without recovery from peers the timeout plays no part, and a wait ends well
    only at a tick that saw the node caught up. *)
Lemma wait_events_spec evs : forall timeout f r f', wait_events timeout evs f = (Ok (Some r), f') ->
  match r with
  | Ok b => b = true /\ exists f1 status, saw status f1 /\ ready (fs_p2pRecovery f) status = true
  | Err _ => WDone ∈ evs \/ timeout = true /\ WTimeout ∈ evs
  end.
Proof.
  induction evs as [|ev evs IH]; intros timeout f r f'; simpl; [done|].
  assert (Hgo : forall t2 f2, fs_p2pRecovery f2 = fs_p2pRecovery f -> (t2 = true -> timeout = true) ->
    wait_events t2 evs f2 = (Ok (Some r), f') ->
    match r with
    | Ok b => b = true /\ exists f1 status, saw status f1 /\ ready (fs_p2pRecovery f) status = true
    | Err _ => WDone ∈ ev :: evs \/ timeout = true /\ WTimeout ∈ ev :: evs
    end).
  { intros t2 f2 Hp Ht Hrun. apply IH in Hrun. rewrite Hp in Hrun. destruct r; [done|].
    destruct Hrun as [|[-> Hin]]; [left; by right|]. right. split; [by apply Ht|by right]. }
  unfold mbind, M_bind, wait_turn, gets. simpl. pose proof (catchup_status_fields f) as (Hp & _ & _).
  destruct ev; simpl.
  - intros [= <- _]. left. left.
  - destruct timeout; simpl; [|intros Hrun; by apply (Hgo false f)]. unfold mbind, M_bind, attempt.
    destruct (catchup_status f) as [[st|e] f2] eqn:Hc; simpl in *.
    + destruct (p2pReady st); simpl; [intros Hrun; by apply (Hgo false f2)|]. intros [= <- _]. right. split; [done|left].
    + intros [= <- _]. right. split; [done|left].
  - unfold mbind, M_bind, attempt. destruct (catchup_status f) as [[st|e] f2] eqn:Hc; simpl in *; [|intros Hrun; by apply (Hgo timeout f2)].
    destruct (ready (fs_p2pRecovery f) st) eqn:Hr; simpl.
    + intros [= <- _]. split; [done|]. exists f, st. split; [unfold saw; by rewrite Hc|done].
    + intros Hrun. apply (Hgo _ f2 Hp) in Hrun; [done|]. by destruct (fs_p2pRecovery f && p2pReady st).
Qed.

(** The syncer is dropped, and block production starts, only after a poll that
    saw the DA head reached and no event pending, and, when peers are configured,
    the store at the height of both exchanges. The phase fails only when the
    context ends or the exchange with configured peers times out. *)
Theorem production_after_catchup evs f r f' : runCatchupPhase evs f = (r, f') ->
  (r = Ok (Some tt) -> fs_syncer f' = false /\ exists f1 status, saw status f1 /\
     daCaughtUp status = true /\ pendingEvents status = 0 /\
     (fs_p2pRecovery f = true -> headerP2PReady status = true /\ dataP2PReady status = true /\
        headerHeight status <= storeHeight status /\ dataHeight status <= storeHeight status)) /\
  (forall e, r = Err e -> (pt_syncer_Start (fs_parts f)).1 = Err e \/ WDone ∈ evs \/
     initial_timeout f = true /\ WTimeout ∈ evs).
Proof.
  unfold runCatchupPhase, on_parts, mbind, M_bind, zoom. destruct (pt_syncer_Start (fs_parts f)) as [[[]|e] p]; simpl.
  2:{ intros [= <- <-]. split; [done|]. intros e' [= <-]. by left. }
  set (f0 := set_fs_parts p f). unfold catchup_end, waitForCatchup, mbind, M_bind, gets. simpl.
  pose proof (wait_events_spec evs (initial_timeout f) f0) as Hs. change (initial_timeout f0) with (initial_timeout f).
  destruct (wait_events (initial_timeout f) evs f0) as [[[[b|e]|]|[]] f2].
  - destruct (Hs (Ok b) f2 eq_refl) as (-> & f1 & st & Hsaw & Hr). intros [= <- <-]. simpl in Hr. split; [|done]. intros _. split; [done|]. exists f1, st.
    unfold ready in Hr. destruct (daCaughtUp st), (Z.eqb_spec (pendingEvents st) 0); try done. simpl in Hr. split_and!; try done.
    intros Hp. rewrite Hp in Hr. simpl in Hr. unfold p2pReady in Hr.
    destruct (headerP2PReady st), (dataP2PReady st); try done. simpl in Hr. apply Z.leb_le in Hr. split_and!; done || lia.
  - intros [= <- <-]. split; [done|]. intros e' [= <-]. right. by apply (Hs (Err e) f2).
  - by intros [= <- <-].
Qed.
End failover.
End Failover.
