(* ===== verification/RaftFacts.v ===== *)
(** * The replicas of a raft cluster agree

    Whatever the order of commits, applications, snapshots, restores and
    restarts: the state of a replica is determined by the prefix of the log it
    has applied, and heights and times of the states only grow. *)

From S2P Require Import Prelude Sha256 Datastore Types Serialization StoreAPI Syncer Executing Raft.
From stdpp Require Import base gmap strings list numbers.
Open Scope Z_scope.

Import Raft.

(** ** The codec of the replicated state *)

Definition rb_wf (m : RaftBlockState) : Prop :=
  is_u64 (rb_Height m) /\ is_u64 (rb_LastSubmittedDaHeaderHeight m) /\ is_u64 (rb_LastSubmittedDaDataHeight m) /\
  is_u64 (rb_Timestamp m) /\ norm_slice (rb_Hash m) = rb_Hash m.

(** What is decoded has fields in their ranges and no empty, non-nil bytes; such
    a state is encoded, and read back. *)
Class RaftCodec `{ProtoMsg RaftBlockState} := {
  codec_range b m : proto_Unmarshal b = Ok m -> rb_wf m;
  codec_roundtrip m b : rb_wf m -> proto_Marshal m = Ok b -> proto_Unmarshal b = Ok m
}.

(** A sink that collects what is written. *)
#[export] Instance memory_sink : SnapshotSink bytes := {
  sink_Write b k := (Ok tt, k ++ b);
  sink_Close k := (Ok tt, k);
  sink_Cancel _ := []
}.

Section facts.
Context `{RaftCodec}.

(** ** The abstract state machine *)

(** The state after an entry: rejected entries change nothing. *)
Definition accept (s : RaftBlockState) (e : Log) : RaftBlockState :=
  match proto_Unmarshal (log_Data e) with
  | Ok next => if is_ok (assertValid s next) then next else s
  | Err _ => s
  end.
Definition replay (l : list Log) : RaftBlockState := foldl accept empty_state l.

(** Later states. *)
Definition later (s s' : RaftBlockState) : Prop :=
  s' = s \/ (rb_Height s < rb_Height s' /\ rb_Timestamp s < rb_Timestamp s').
#[export] Instance later_preorder : PreOrder later.
Proof. split; [by left|]. intros a b c [->|[? ?]] [->|[? ?]]; unfold later; auto; right; lia. Qed.

Lemma assertValid_ok s n : is_ok (assertValid s n) = true <-> rb_Height s < rb_Height n /\ rb_Timestamp s < rb_Timestamp n.
Proof.
  unfold assertValid. destruct (Z.leb_spec (rb_Height n) (rb_Height s)); [simpl; split; [done|lia]|].
  destruct (Z.leb_spec (rb_Timestamp n) (rb_Timestamp s)); simpl; split; (done || lia).
Qed.

Lemma accept_later s e : later s (accept s e).
Proof.
  unfold accept. destruct (proto_Unmarshal (log_Data e)) as [n|]; [|by left].
  destruct (is_ok (assertValid s n)) eqn:Ha; [right; by apply assertValid_ok|by left].
Qed.

Lemma foldl_accept_later l s : later s (foldl accept s l).
Proof. revert s. induction l as [|e l IH]; intros s; [done|]. etrans; [apply accept_later|apply IH]. Qed.

Lemma rb_wf_empty : rb_wf empty_state.
Proof. unfold rb_wf, is_u64, two64. simpl. split_and!; done || lia. Qed.

Lemma accept_wf s e : rb_wf s -> rb_wf (accept s e).
Proof.
  intros Hs. unfold accept. destruct (proto_Unmarshal (log_Data e)) as [n|] eqn:Hn; [|done].
  destruct (is_ok _); [by eapply codec_range|done].
Qed.

Lemma foldl_accept_wf l s : rb_wf s -> rb_wf (foldl accept s l).
Proof. revert s. induction l as [|e l IH]; intros s Hs; [done|]. apply IH. by apply accept_wf. Qed.

(** A state is the initial one or was committed. *)
Lemma replay_committed l : replay l = empty_state \/ exists e, e ∈ l /\ proto_Unmarshal (log_Data e) = Ok (replay l).
Proof.
  unfold replay. induction l as [|e l IH] using rev_ind; [by left|]. rewrite foldl_snoc.
  set (s := foldl accept empty_state l) in *. unfold accept.
  destruct (proto_Unmarshal (log_Data e)) as [n|] eqn:Hn.
  - destruct (is_ok (assertValid s n)).
    + right. exists e. split; [|done]. apply elem_of_app. right. by apply list_elem_of_singleton.
    + destruct IH as [->|(e' & Hin & He')]; [by left|right]. exists e'. split; [|done]. apply elem_of_app. by left.
  - destruct IH as [->|(e' & Hin & He')]; [by left|right]. exists e'. split; [|done]. apply elem_of_app. by left.
Qed.

Lemma FSM_Apply_accept e f : fsm_state (FSM_Apply e f).2 = accept (fsm_state f) e.
Proof.
  unfold FSM_Apply, accept. destruct (proto_Unmarshal (log_Data e)) as [n|]; [|done].
  destruct (assertValid (fsm_state f) n); simpl; [|done]. unfold notify. simpl.
  destruct (fsm_applyCh f) as [[cap msgs]|]; [|done]. by destruct (length msgs <? cap)%nat.
Qed.

(** ** A cluster *)

(** The committed log; the replicas, each with the number of entries it has
    applied; the snapshots taken so far. *)
Record Cluster := MkCluster { cl_log : list Log; cl_nodes : list (FSM * nat); cl_snaps : list (nat * bytes) }.

Inductive cl_step : Cluster -> Cluster -> Prop :=
| cl_commit log nodes snaps e :
    cl_step (MkCluster log nodes snaps) (MkCluster (log ++ [e]) nodes snaps)
| cl_apply log nodes snaps i f k e :
    nodes !! i = Some (f, k) -> log !! k = Some e ->
    cl_step (MkCluster log nodes snaps) (MkCluster log (<[i := ((FSM_Apply e f).2, S k)]> nodes) snaps)
| cl_snapshot log nodes snaps i f k b :
    nodes !! i = Some (f, k) -> Persist (FSM_Snapshot f) [] = (Ok tt, b) ->
    cl_step (MkCluster log nodes snaps) (MkCluster log nodes (snaps ++ [(k, b)]))
| cl_restore log nodes snaps i f k j b f' :
    nodes !! i = Some (f, k) -> (j, b) ∈ snaps -> FSM_Restore (Ok b) f = (Ok tt, f') ->
    cl_step (MkCluster log nodes snaps) (MkCluster log (<[i := (f', j)]> nodes) snaps)
| cl_restart log nodes snaps i :
    cl_step (MkCluster log nodes snaps) (MkCluster log (<[i := (new_FSM, O)]> nodes) snaps)
(** A callback is set, or its consumer takes messages. *)
| cl_channel log nodes snaps i f k ch :
    nodes !! i = Some (f, k) ->
    cl_step (MkCluster log nodes snaps) (MkCluster log (<[i := (set_applyCh ch f, k)]> nodes) snaps).

Definition new_cluster (size : nat) : Cluster := MkCluster [] (replicate size (new_FSM, O)) [].

Record cl_inv (c : Cluster) : Prop := {
  ci_nodes i f k : cl_nodes c !! i = Some (f, k) ->
    (k <= length (cl_log c))%nat /\ fsm_state f = replay (take k (cl_log c));
  ci_snaps j b : (j, b) ∈ cl_snaps c ->
    (j <= length (cl_log c))%nat /\ proto_Unmarshal b = Ok (replay (take j (cl_log c)))
}.

Lemma lookup_insert_cases {A} (l : list A) i j x y :
  <[i := x]> l !! j = Some y -> (i = j /\ y = x) \/ l !! j = Some y.
Proof. rewrite list_lookup_insert_Some. naive_solver. Qed.

Lemma Persist_bytes m b : Persist m [] = (Ok tt, b) -> proto_Marshal m = Ok b.
Proof.
  unfold Persist, lift_res, mbind, M_bind. simpl. destruct (proto_Marshal m); simpl; [|done]. by intros [= <-].
Qed.

Lemma cl_step_inv c c' : cl_step c c' -> cl_inv c -> cl_inv c'.
Proof.
  intros Hst [Hn Hs]. destruct Hst as [log nodes snaps e|log nodes snaps i f k e Hi Hk|log nodes snaps i f k b Hi Hp
    |log nodes snaps i f k j b f' Hi Hj Hr|log nodes snaps i|log nodes snaps i f k ch Hi]; simpl in *;
    (split; simpl; [intros i0 f0 k0 Hl|intros j0 b0 Hl]).
  - destruct (Hn i0 f0 k0 Hl) as [Hle Hst]. rewrite length_app. split; [lia|]. by rewrite take_app_le.
  - destruct (Hs j0 b0 Hl) as [Hle Hst]. rewrite length_app. split; [lia|]. by rewrite take_app_le.
  - apply lookup_insert_cases in Hl as [[<- [= -> ->]]|Hl]; [|by apply (Hn i0 f0 k0)].
    apply lookup_lt_Some in Hk as Hlt. destruct (Hn i f k Hi) as [Hle Hst]. split; [lia|].
    rewrite FSM_Apply_accept, Hst. unfold replay. by rewrite (take_S_r log k e Hk), foldl_snoc.
  - by apply (Hs j0 b0).
  - by apply (Hn i0 f0 k0).
  - apply elem_of_app in Hl as [Hl|Hl]; [by apply (Hs j0 b0)|]. apply list_elem_of_singleton in Hl. injection Hl as -> ->.
    destruct (Hn i f k Hi) as [Hle Hst]. split; [done|]. apply Persist_bytes in Hp. rewrite <- Hst.
    apply codec_roundtrip; [|done]. unfold FSM_Snapshot. rewrite Hst. apply foldl_accept_wf, rb_wf_empty.
  - apply lookup_insert_cases in Hl as [[<- [= -> ->]]|Hl]; [|by apply (Hn i0 f0 k0)].
    destruct (Hs j b Hj) as [Hle Hun]. split; [done|]. simpl in Hr. rewrite Hun in Hr. by injection Hr as <-.
  - by apply (Hs j0 b0).
  - apply lookup_insert_cases in Hl as [[<- [= -> ->]]|Hl]; [|by apply (Hn i0 f0 k0)]. split; [lia|done].
  - by apply (Hs j0 b0).
  - apply lookup_insert_cases in Hl as [[<- [= -> ->]]|Hl]; [|by apply (Hn i0 f0 k0)]. simpl. by apply (Hn i).
  - by apply (Hs j0 b0).
Qed.

Lemma cluster_reachable_inv size c : rtc cl_step (new_cluster size) c -> cl_inv c.
Proof.
  revert c. apply (rtc_ind_r cl_inv).
  - split; simpl; [|intros ? ? Hin; by apply not_elem_of_nil in Hin].
    intros i f k Hi. apply lookup_replicate in Hi as [[= -> ->] _]. done.
  - intros y z _ Hst Hy. by eapply cl_step_inv.
Qed.

(** C20: In every reachable cluster, whatever was committed and however the
    replicas applied, snapshotted, restored and restarted: replicas that have
    applied equally many entries hold the same state; one that has applied more
    holds the same state or one with a larger height and a larger time; and a
    state other than the initial one was committed. *)
Theorem replicas_agree size c i j f g k l :
  rtc cl_step (new_cluster size) c ->
  cl_nodes c !! i = Some (f, k) -> cl_nodes c !! j = Some (g, l) -> (k <= l)%nat ->
  (k = l -> fsm_state f = fsm_state g) /\
  (fsm_state f <> fsm_state g ->
     rb_Height (fsm_state f) < rb_Height (fsm_state g) /\ rb_Timestamp (fsm_state f) < rb_Timestamp (fsm_state g)) /\
  (fsm_state g <> empty_state -> exists e, e ∈ take l (cl_log c) /\ proto_Unmarshal (log_Data e) = Ok (fsm_state g)).
Proof.
  intros Hr Hi Hj Hkl. destruct (cluster_reachable_inv _ _ Hr) as [Hn _].
  destruct (Hn i f k Hi) as [Hk Hf], (Hn j g l Hj) as [Hl Hg]. rewrite Hf, Hg. split_and!.
  - by intros ->.
  - intros Hne. assert (Ht : take l (cl_log c) = take k (cl_log c) ++ drop k (take l (cl_log c))).
    { rewrite <- (take_drop k (take l (cl_log c))) at 1. by rewrite take_take, Nat.min_l. }
    rewrite Ht in *. unfold replay in *. rewrite foldl_app in *.
    destruct (foldl_accept_later (drop k (take l (cl_log c))) (foldl accept empty_state (take k (cl_log c)))) as [He|]; [|done].
    by rewrite He in Hne.
  - intros Hne. by destruct (replay_committed (take l (cl_log c))).
Qed.

End facts.

(** ** Broadcasting *)

(** What is relied on of the library: entries are applied in order, once each,
    and an [Apply] that succeeds has had its entry applied on this node. *)
Class RaftLibLaws (L : Type) `{ProtoMsg RaftBlockState} `{RaftLib L} := {
  lib_leader_law l : let l' := (rl_isLeader l).2 in
    exists es, rl_log l' = rl_log l ++ es /\ fsm_state (rl_fsm l') = foldl accept (fsm_state (rl_fsm l)) es;
  lib_apply_law data l :
    wp (rl_Apply data) (fun r l' => exists es, rl_log l' = rl_log l ++ es /\
      fsm_state (rl_fsm l') = foldl accept (fsm_state (rl_fsm l)) es /\
      (r = Ok tt -> exists e, e ∈ es /\ log_Data e = data)) l
}.

Section broadcast.
Context {L V : Type} `{RaftCodec} `{!RaftLib L} `{!RaftLibLaws L} `{!Waits V}.
Implicit Types n : Node L V.

(** A broadcast that succeeds has had its entry applied on this node. If the
    state was newer than the one it met, the node now holds it or a later one;
    but if it was not, the entry is dropped, and the call succeeds all the same. *)
Theorem broadcast_correct s n n' :
  rb_wf s -> Broadcast s n = (Ok tt, n') ->
  later (GetState n) (GetState n') /\
  exists pre e post, rl_log (n_raft n') = rl_log (n_raft n) ++ pre ++ e :: post /\
    proto_Unmarshal (log_Data e) = Ok s /\
    let met := foldl accept (GetState n) pre in
    GetState n' = foldl accept (if is_ok (assertValid met s) then s else met) post.
Proof.
  intros Hwf. unfold Broadcast, IsLeader, ask_lib, on_lib. unfold mbind at 1, M_bind, zoom at 1, infallible at 1.
  destruct (lib_leader_law (n_raft n)) as (es0 & Hl0 & Hf0). destruct (rl_isLeader (n_raft n)) as [ld l0]. simpl in Hl0, Hf0.
  destruct ld; simpl; [|done]. unfold mbind at 1, lift_res. destruct (proto_Marshal s) as [data|] eqn:Hm; simpl; [|done].
  unfold mbind, ask_env, zoom, infallible. simpl. destruct (w_done (n_env n)) as [[] v]; [done|].
  unfold wrap. simpl. pose proof (lib_apply_law data l0) as Ha. unfold wp in Ha.
  destruct (rl_Apply data l0) as [[[]|err] l1]; simpl in *; [|done]. intros [= <-].
  destruct Ha as (es1 & Hl1 & Hf1 & Hok). destruct (Hok eq_refl) as (e & He & Hd).
  apply list_elem_of_split in He as (pre & post & ->). unfold GetState. simpl.
  assert (Hall : fsm_state (rl_fsm l1) = foldl accept (fsm_state (rl_fsm (n_raft n))) ((es0 ++ pre) ++ e :: post)).
  { rewrite Hf1, Hf0. rewrite <- (app_assoc es0 pre (e :: post)). symmetry. apply (foldl_app accept es0). }
  split; [rewrite Hall; apply foldl_accept_later|]. exists (es0 ++ pre), e, post.
  assert (Hun : proto_Unmarshal (log_Data e) = Ok s) by (rewrite Hd; by apply codec_roundtrip).
  split_and!; [by rewrite Hl1, Hl0, <- !app_assoc|done|]. rewrite Hall, foldl_app. simpl. f_equal. unfold accept at 1.
  by rewrite Hun.
Qed.

End broadcast.

(** A successful wait ended in a comparison of an applied index with a commit
    index that was not above it. *)
Section landed.
Context {L V : Type} `{RaftLib L} `{Waits V}.

Definition applied_all (n : Node L V) : Prop :=
  exists l0 applied l1 commit, rl_AppliedIndex l0 = (applied, l1) /\ rl_CommitIndex l1 = (commit, n_raft n) /\ commit <= applied.

Lemma landed_spec (n : Node L V) : wp landed (fun r n' => r = Ok true -> applied_all n') n.
Proof.
  unfold landed. apply wp_bind, wp_zoom, wp_infallible. destruct (rl_AppliedIndex (n_raft n)) as [a l1] eqn:Ha.
  apply wp_bind, wp_zoom, wp_infallible. cbn. destruct (rl_CommitIndex l1) as [c l2] eqn:Hc. apply wp_ret.
  intros [= Hle%Z.leb_le]. by exists (n_raft n), a, l1, c.
Qed.

Lemma landed_applied timeout (n n' : Node L V) : waitForMsgsLanded timeout n = (Ok tt, n') -> applied_all n'.
Proof.
  intros Hrun. enough (Hw : forall polls n, wp (wait_landed polls) (fun r n' => r = Ok tt -> applied_all n') n).
  { by apply (wp_run _ _ _ _ _ (Hw _ n) Hrun). }
  clear. assert (Hend : forall n : Node L V, wp (ok ← landed; if (ok : bool) then mret tt else throw "max wait time reached"%string)
    (fun r n' => r = Ok tt -> applied_all n') n).
  { intros n. apply wp_bind. eapply wp_mono; [apply landed_spec|]. intros [[]|] n1 Hok; [apply wp_ret; auto|by apply wp_throw|done]. }
  induction polls as [|polls IH]; intros n; [apply Hend|]. cbn [wait_landed]. apply wp_bind, wp_zoom, wp_infallible.
  destruct (w_next (n_env n)) as [[] v]; cbn [fst snd]; [|apply Hend..].
  apply wp_bind. eapply wp_mono; [apply landed_spec|]. intros [[]|] n1 Hok; [apply wp_ret; auto|apply IH|done].
Qed.
End landed.

(** * A leader starts only with everything applied and its store in step *)

Import Raft Election.

Section facts.
Context {N W F V : Type} `{SourceNode N} `{Runnable W} `{Factories F W} `{Waits V} (polls : nat).
Abbreviation D := (DynamicLeaderElection N W F V).
Implicit Types d : D.

(** The flags and the worker. *)
Definition flags (d : D) : bool * bool * option Role := (el_isStarted d, el_isCurrentlyLeader d, el_worker d).
(** The same runnable, after some synchronization checks. *)
Definition checked : relation W := rtc (fun w w' => exists rs, (rn_IsSynced rs w).2 = w').
Definition checked_runnable (d d' : D) : Prop :=
  match el_runnable d, el_runnable d' with
  | Some w, Some w' => checked w w'
  | None, None => True
  | _, _ => False
  end.
(** The runnable of [d], after some checks, was found in step with the state of
    the node of [d'], or recovered from it. *)
Definition in_step (d d' : D) : Prop :=
  exists w0 w w1 diff, el_runnable d = Some w0 /\ checked w0 w /\ rn_IsSynced (sn_GetState (el_node d')) w = (Ok diff, w1) /\
    (diff = 0 \/ exists w2, rn_Recover (sn_GetState (el_node d')) w1 = (Ok tt, w2)).

#[local] Instance checked_preorder : PreOrder checked_runnable.
Proof.
  unfold checked_runnable. split.
  - intros d. by destruct (el_runnable d).
  - intros d1 d2 d3. destruct (el_runnable d1), (el_runnable d2), (el_runnable d3); try done. unfold checked. by etrans.
Qed.

(** Calls that leave the flags alone, and those that only check the runnable. *)
Abbreviation quiet m := (forall d, wp m (fun _ d' => flags d' = flags d) d).
Abbreviation checking m := (forall d, wp m (fun _ d' => checked_runnable d d') d).

Lemma checking_bind {A B} (m : ElM A) (k : A -> ElM (N := N) (W := W) (F := F) (V := V) B) :
  checking m -> (forall a, checking (k a)) -> checking (m ≫= k).
Proof.
  intros Hm Hk d. apply wp_bind. eapply wp_mono; [apply Hm|]. intros [a|e] d1 Hd1; [|done].
  eapply wp_mono; [apply Hk|]. intros r d2 Hd2. by etrans.
Qed.
Lemma checking_ret {A} (a : A) : checking (mret a : ElM A).
Proof. intros d. by apply wp_ret. Qed.
Lemma checking_gets {A} (f : D -> A) : checking (gets f : ElM A).
Proof. intros d. by apply wp_gets. Qed.
Lemma checking_node {A} (m : M N string A) : checking (on_node m).
Proof. intros d. apply wp_wrap, wp_zoom. unfold wp. destruct (m (el_node d)). by change (checked_runnable d d). Qed.
Lemma checking_env {A} (f : V -> A * V) : checking (on_env f).
Proof. intros d. apply wp_zoom, wp_infallible. by change (checked_runnable d d). Qed.
Lemma checking_IsSynced rs : checking (on_runnable (rn_IsSynced rs)).
Proof.
  intros d. unfold wp, on_runnable. destruct (el_runnable d) as [w|] eqn:Hw; [|done].
  destruct (rn_IsSynced rs w) as [r w1] eqn:Hs. unfold checked_runnable. rewrite Hw. simpl. apply rtc_once. exists rs. by rewrite Hs.
Qed.
Lemma checking_synced_enough : checking synced_enough.
Proof.
  unfold synced_enough. apply checking_bind; [apply checking_gets|intros rs].
  apply checking_bind; [|intros r; apply checking_ret]. intros d. apply wp_attempt. eapply wp_mono; [apply checking_IsSynced|done].
Qed.
Lemma checking_wait_sync n : checking (wait_sync n).
Proof.
  assert (Hend : checking (ok ← synced_enough; mret (if (ok : bool) then syncResultSynced else syncResultTimeout)))
    by (apply checking_bind; [apply checking_synced_enough|intros a; apply checking_ret]).
  induction n as [|n IH]; [exact Hend|]. cbn [wait_sync]. unfold leaderID. apply checking_bind; [apply checking_env|].
  intros []; [|exact Hend|apply checking_ret].
  apply checking_bind; [apply checking_node|intros id]. apply checking_bind; [apply checking_gets|intros me].
  case_match; [apply checking_ret|]. apply checking_bind; [apply checking_synced_enough|]. intros []; [apply checking_ret|apply IH].
Qed.

Lemma quiet_bind {A B} (m : ElM A) (k : A -> ElM (N := N) (W := W) (F := F) (V := V) B) : quiet m -> (forall a, quiet (k a)) -> quiet (m ≫= k).
Proof.
  intros Hm Hk d. apply wp_bind. eapply wp_mono; [apply Hm|]. intros [a|e] d1 Hd1; [|done].
  eapply wp_mono; [apply Hk|]. intros r d2 Hd2. by rewrite Hd2, Hd1.
Qed.
Lemma quiet_ret {A} (a : A) : quiet (mret a : ElM A).
Proof. intros d. by apply wp_ret. Qed.
Lemma quiet_throw {A} e : quiet (throw e : ElM A).
Proof. intros d. by apply wp_throw. Qed.
Lemma quiet_gets {A} (f : D -> A) : quiet (gets f : ElM A).
Proof. intros d. by apply wp_gets. Qed.
Lemma quiet_node {A} (m : M N string A) : quiet (on_node m).
Proof. intros d. apply wp_wrap, wp_zoom. unfold wp. by destruct (m (el_node d)). Qed.
Lemma quiet_env {A} (f : V -> A * V) : quiet (on_env f).
Proof. intros d. apply wp_zoom, wp_infallible. done. Qed.
Lemma quiet_runnable {A} (m : M W string A) : quiet (on_runnable m).
Proof. intros d. unfold wp, on_runnable. destruct (el_runnable d) as [w|]; [|done]. by destruct (m w). Qed.
Lemma quiet_attempt {A G} (m : ElM A) : quiet m -> quiet (attempt (F := G) m).
Proof. intros Hm d. apply wp_attempt. eapply wp_mono; [apply Hm|]. done. Qed.

Ltac quiet := repeat first
  [ apply quiet_bind; [|intros ?] | apply quiet_ret | apply quiet_throw | apply quiet_gets | apply quiet_node
  | apply quiet_env | apply quiet_runnable | apply quiet_attempt | case_match ].

Lemma quiet_synced_enough : quiet synced_enough.
Proof. unfold synced_enough. quiet. Qed.
Lemma quiet_wait_sync n : quiet (wait_sync n).
Proof.
  induction n as [|n IH]; simpl.
  - apply quiet_bind; [apply quiet_synced_enough|]. intros a. apply quiet_ret.
  - unfold leaderID. apply quiet_bind; [apply quiet_env|]. intros [].
    + apply quiet_bind; [apply quiet_node|intros id]. apply quiet_bind; [apply quiet_gets|intros me].
      case_match; [apply quiet_ret|]. apply quiet_bind; [apply quiet_synced_enough|]. intros []; [apply quiet_ret|apply IH].
    + apply quiet_bind; [apply quiet_synced_enough|]. intros a. apply quiet_ret.
    + apply quiet_ret.
Qed.
Lemma quiet_wait_for_state n : quiet (wait_for_state n).
Proof.
  induction n as [|n IH]; simpl; (apply quiet_bind; [apply quiet_gets|intros rs]); case_match; try apply quiet_ret.
  apply quiet_bind; [apply quiet_env|]. intros []; [apply IH|apply quiet_ret|apply quiet_throw].
Qed.
Lemma quiet_verifyState : quiet (verifyState polls).
Proof. unfold verifyState. apply quiet_bind; [apply quiet_wait_for_state|intros rs]. quiet. Qed.
Lemma quiet_make_runnable r : quiet (make_runnable r).
Proof.
  unfold make_runnable. intros d. apply wp_bind, wp_wrap, wp_zoom. unfold wp. by destruct (new_runnable r (el_factory d)) as [[]].
Qed.

(** A synchronization check, and where it leaves the node. *)
Lemma on_IsSynced_spec rs d :
  wp (on_runnable (rn_IsSynced rs)) (fun r d' => flags d' = flags d /\ el_node d' = el_node d /\
    (forall diff, r = Ok diff -> exists w w1, el_runnable d = Some w /\ rn_IsSynced rs w = (Ok diff, w1) /\ el_runnable d' = Some w1)) d.
Proof.
  unfold wp, on_runnable. destruct (el_runnable d) as [w|]; [|done].
  destruct (rn_IsSynced rs w) as [r w1] eqn:Hw. simpl. split_and!; try done.
  intros diff Hd. destruct r; simpl in Hd; [|done]. injection Hd as ->. eauto.
Qed.

Lemma on_Recover_spec rs w1 d : el_runnable d = Some w1 ->
  wp (on_runnable (rn_Recover rs)) (fun r d' => flags d' = flags d /\ el_node d' = el_node d /\
    (r = Ok tt -> exists w2, rn_Recover rs w1 = (Ok tt, w2))) d.
Proof.
  intros Hw. unfold wp, on_runnable. rewrite Hw. destruct (rn_Recover rs w1) as [[[]|e] w2]; simpl; split_and!; eauto; done.
Qed.

Lemma measure_sync_spec d :
  wp (measure_sync polls) (fun r d' => flags d' = flags d /\
    (forall diff rs, r = Ok (Some (diff, rs)) -> rs = sn_GetState (el_node d') /\
       exists w0 w w1, el_runnable d = Some w0 /\ checked w0 w /\ rn_IsSynced rs w = (Ok diff, w1) /\ el_runnable d' = Some w1)) d.
Proof.
  assert (Hpath : forall d1 w, checked_runnable d d1 -> el_runnable d1 = Some w -> exists w0, el_runnable d = Some w0 /\ checked w0 w).
  { intros d1 w Hc Hw. unfold checked_runnable in Hc. rewrite Hw in Hc. destruct (el_runnable d) as [w0|]; [by exists w0|done]. }
  unfold measure_sync. wp_read. apply wp_bind. eapply wp_mono; [apply wp_and; [apply on_IsSynced_spec|apply checking_IsSynced]|].
  intros [diff|e] d1 [(Hf1 & Hn1 & Hs1) Hc1]; [|done].
  destruct (diff <? -1); simpl.
  2:{ apply wp_ret. split; [done|]. intros diff' rs [= <- <-]. rewrite Hn1. split; [done|].
      destruct (Hs1 diff eq_refl) as (w & w1 & E1 & E2 & E3). by exists w, w, w1. }
  apply wp_bind. eapply wp_mono; [apply wp_and; [apply quiet_wait_sync|apply checking_wait_sync]|].
  intros [r|e] d2 [Hf2 Hc2]; [|by rewrite Hf2].
  destruct r; simpl.
  - wp_read. apply wp_bind. eapply wp_mono; [apply on_IsSynced_spec|].
    intros [diff2|e] d3 (Hf3 & Hn3 & Hs3); [|by rewrite Hf3, Hf2]. apply wp_ret. rewrite Hf3, Hf2. split; [done|].
    intros diff' rs [= <- <-]. rewrite Hn3. split; [done|].
    destruct (Hs3 diff2 eq_refl) as (w & w1 & E1 & E2 & E3). destruct (Hpath d2 w) as (w0 & E0 & Hch); [by etrans|done|].
    by exists w0, w, w1.
  - apply wp_bind. eapply wp_mono; [apply quiet_node|]. intros [u|e] d3 Hf3; [apply wp_ret|]; by rewrite Hf3, Hf2.
  - apply wp_ret. by rewrite Hf2.
  - apply wp_throw. by rewrite Hf2.
Qed.

Lemma node_keeps {A} (m : M N string A) d :
  wp (on_node m) (fun _ d' => flags d' = flags d /\ el_runnable d' = el_runnable d) d.
Proof. apply wp_wrap, wp_zoom. unfold wp. by destruct (m (el_node d)). Qed.

Lemma promote_spec d :
  wp (promote polls) (fun r d' => el_isStarted d' = el_isStarted d /\ el_isCurrentlyLeader d' = el_isCurrentlyLeader d /\
    (r = Ok true -> el_worker d' = None /\ in_step d d') /\ (r <> Ok true -> el_worker d' = el_worker d)) d.
Proof.
  assert (Hq : forall d' r, flags d' = flags d -> r <> Ok true -> el_isStarted d' = el_isStarted d /\
    el_isCurrentlyLeader d' = el_isCurrentlyLeader d /\ (r = (Ok true : res elect_error bool) -> el_worker d' = None /\ in_step d d') /\
    (r <> Ok true -> el_worker d' = el_worker d)) by (intros d' r [= -> -> ->]; done).
  unfold promote, leaderID. apply wp_bind. eapply wp_mono; [apply (node_keeps (infallible sn_leaderID))|].
  intros [id|e] d1 [Hf1 Hr1]; [|by apply Hq].
  wp_read. case_bool_decide; simpl; [|by apply wp_ret, Hq].
  apply wp_bind. eapply wp_mono; [apply measure_sync_spec|].
  intros [[[diff rs]|]|e] d2 (Hf2 & Hm); [|by apply wp_ret, Hq; rewrite ?Hf2|by apply Hq; rewrite ?Hf2].
  destruct (Hm diff rs eq_refl) as (-> & w0 & w & w1 & Hw0 & Hch & Hsy & Hw1). rewrite Hr1 in Hw0. rewrite Hf1 in Hf2. injection Hf2 as Hst Hcl Hwk.
  apply wp_bind. destruct (Z.eqb_spec diff 0) as [->|Hne].
  { apply wp_ret. apply wp_bind, wp_modify, wp_ret. simpl. split_and!; try done. intros _. split; [done|].
    exists w0, w, w1, 0. split_and!; [done|done|exact Hsy|by left]. }
  apply wp_bind, wp_attempt. eapply wp_mono; [by apply on_Recover_spec|].
  intros [[]|e] d3 ([= Hs3 Hc3 Hk3] & Hn3 & Hrec); simpl.
  - apply wp_ret, wp_bind, wp_modify, wp_ret. simpl. split_and!; try done; [congruence..|]. intros _. split; [done|].
    exists w0, w, w1, diff. simpl. rewrite Hn3. split_and!; [done|done|exact Hsy|]. right. by apply Hrec.
  - apply wp_bind, wp_attempt. eapply wp_mono; [apply quiet_node|]. intros r d4 Hf4. apply wp_throw.
    apply Hq; [|done]. rewrite Hf4. unfold flags. congruence.
Qed.

(** ** The loop *)

Record el_inv (d : D) : Prop := {
  ei_leader : el_worker d = Some Leader -> el_isCurrentlyLeader d = true;
  ei_follower : el_worker d = Some Follower -> el_isCurrentlyLeader d = false;
  ei_started : el_isCurrentlyLeader d = true -> el_isStarted d = true
}.

Lemma become_leader_spec d : el_inv d -> el_isCurrentlyLeader d = false ->
  wp (become_leader polls) (fun r d' => r = Ok tt -> el_inv d' /\
    (el_worker d' = Some Leader ->
       (exists n1, sn_waitForMsgsLanded (el_node d) = (Ok tt, n1)) /\ (el_isStarted d = true -> in_step d d'))) d.
Proof.
  intros Hi Hnl. assert (Hq : forall d', flags d' = flags d -> el_inv d' /\ el_worker d' <> Some Leader).
  { intros d' [= Hs Hc Hw]. destruct Hi as [I1 I2 I3]. split; [split; by rewrite ?Hs, ?Hc, ?Hw|].
    rewrite Hw. intros Hl. rewrite (I1 Hl) in Hnl. done. }
  unfold become_leader. apply wp_bind, wp_attempt, wp_wrap, wp_zoom. unfold wp at 1.
  destruct (sn_waitForMsgsLanded (el_node d)) as [[[]|e] n1] eqn:Hwait; simpl.
  2:{ apply wp_bind, wp_attempt. eapply wp_mono; [apply quiet_node|]. intros r d1 Hf1. apply wp_ret. intros _.
      destruct (Hq d1 Hf1). by split. }
  wp_read. simpl. apply wp_bind.
  assert (Hgo : forall d2, (el_isStarted d = true -> in_step d d2) ->
    wp (make_runnable Leader ≫= fun _ => modify (set_el_isStarted true) ≫= fun _ =>
        modify (set_el_isCurrentlyLeader true) ≫= fun _ => startWorker Leader)
      (fun r d' => r = Ok tt -> el_inv d' /\ (el_worker d' = Some Leader ->
         (exists n, (Ok tt : res string unit, n1) = (Ok tt, n)) /\ (el_isStarted d = true -> in_step d d'))) d2).
  { intros d2 Hs2. unfold make_runnable. apply wp_bind, wp_bind, wp_wrap, wp_zoom. unfold wp at 1.
    destruct (new_runnable Leader (el_factory d2)) as [[w|e] f']; simpl; [|done].
    apply wp_modify, wp_bind, wp_modify, wp_bind, wp_modify. unfold startWorker, stop_worker. apply wp_bind, wp_modify, wp_modify.
    intros _. simpl. split; [by split|]. intros _. split; [eauto|]. exact Hs2. }
  destruct (el_isStarted d) eqn:Hst.
  - eapply wp_mono; [apply promote_spec|]. simpl. intros r d2 (Hs2 & Hc2 & Ht & Hf). destruct r as [[]|e]; simpl; [| |done].
    + apply Hgo. intros _. by apply Ht.
    + apply wp_ret. intros _. destruct (Hq d2); [|by split]. unfold flags. rewrite Hs2, Hc2, Hst, (Hf ltac:(done)). done.
  - apply wp_ret. simpl. apply Hgo. done.
Qed.

Lemma startFollower_spec d : el_isCurrentlyLeader d = false ->
  wp (startFollower polls) (fun r d' => r = Ok tt -> el_inv d' /\ el_worker d' <> Some Leader) d.
Proof.
  intros Hnl. unfold startFollower. apply wp_bind. eapply wp_mono; [apply quiet_make_runnable|].
  intros [[]|e] d1 Hf1; [|done]. apply wp_bind, wp_attempt. eapply wp_mono; [apply quiet_node|]. intros r d2 Hf2. simpl.
  apply wp_bind. eapply wp_mono; [apply quiet_verifyState|]. intros [[]|e] d3 Hf3; [|done].
  unfold startWorker, stop_worker. apply wp_bind, wp_modify, wp_modify. intros _.
  assert (Hc3 : el_isCurrentlyLeader d3 = false).
  { rewrite Hf2, Hf1 in Hf3. injection Hf3 as _ -> _. done. }
  simpl. split; [|done]. split; simpl; [done|done|by rewrite Hc3].
Qed.

(** C21: A turn of the election loop keeps its invariant: the leader's worker runs
    only while the node counts itself leader, the follower's only while it does
    not. A turn starts the leader's worker only after [waitForMsgsLanded] has
    succeeded on the node (which [landed_applied] explains for the node of
    [pkg/raft]), and, where a runnable was started before, only if that very
    runnable, after some further checks of its synchronization, reported no
    difference to the node's raft state, or reported one and then recovered to
    that state without an error. When leadership is lost, or on any error, [Run]
    ends with no worker left. *)
Theorem leader_starts_in_step ev d r d' :
  el_inv d -> run_step polls ev d = (r, d') ->
  (r = Ok tt -> el_inv d' /\ (el_worker d' = Some Leader -> el_worker d <> Some Leader ->
     (exists n1, sn_waitForMsgsLanded (el_node d) = (Ok tt, n1)) /\ (el_isStarted d = true -> in_step d d'))) /\
  (forall e, r = Err e -> el_worker d' = None) /\
  (ev = EvLeader false -> el_isCurrentlyLeader d = true -> r = Err ErrLeadershipLost).
Proof.
  intros Hi. unfold run_step.
  set (body := match ev with EvLeader b => _ | EvTicker => _ | EvErr => _ | EvDone => _ end).
  assert (Hb : wp body (fun r d' => (r = Ok tt -> el_inv d' /\ (el_worker d' = Some Leader -> el_worker d <> Some Leader ->
      (exists n1, sn_waitForMsgsLanded (el_node d) = (Ok tt, n1)) /\ (el_isStarted d = true -> in_step d d'))) /\
      (ev = EvLeader false -> el_isCurrentlyLeader d = true -> r = Err ErrLeadershipLost)) d).
  { unfold body. destruct ev as [[]| | |].
    - unfold on_leader_change. wp_read. simpl. destruct (el_isCurrentlyLeader d) eqn:Hc; simpl; [by apply wp_ret|].
      eapply wp_mono; [by apply become_leader_spec|]. intros r1 d1 Hr. split; [|done]. intros Hok. destruct (Hr Hok). by split; auto.
    - unfold on_leader_change. wp_read. simpl. destruct (el_isCurrentlyLeader d) eqn:Hc; simpl.
      { apply wp_bind, wp_modify, wp_throw. done. }
      destruct (el_isStarted d); simpl; [by apply wp_ret|]. apply wp_bind, wp_modify.
      eapply wp_mono; [by apply startFollower_spec|]. intros r1 d1 Hr. split; [|done]. intros Hok. destruct (Hr Hok). by split.
    - unfold on_ticker, leaderID. wp_read. destruct (el_ticker d); simpl; [|by apply wp_ret].
      apply wp_bind. eapply wp_mono; [apply quiet_node|]. intros [id|e] d1 Hf1; [|done].
      assert (Hi1 : el_inv d1 /\ (el_worker d1 = Some Leader -> el_worker d = Some Leader)).
      { destruct Hi as [I1 I2 I3]. injection Hf1 as Hs1 Hc1 Hw1. split; [split; by rewrite ?Hs1, ?Hc1, ?Hw1|]. by rewrite Hw1. }
      destruct Hi1 as [[I1 I2 I3] Hw1].
      assert (Hk : forall d2, flags d2 = flags d1 -> el_inv d2 /\ (el_worker d2 = Some Leader -> el_worker d <> Some Leader ->
        (exists n1, sn_waitForMsgsLanded (el_node d) = (Ok tt, n1)) /\ (el_isStarted d = true -> in_step d d2))).
      { intros d2 [= Hs2 Hc2 Hw2]. split; [split; by rewrite ?Hs2, ?Hc2, ?Hw2|]. rewrite Hw2. intros Hl Hn. destruct (Hn (Hw1 Hl)). }
      case_bool_decide; [apply wp_ret; split; [intros _; by apply Hk|done]|]. apply wp_bind, wp_modify. wp_read. simpl.
      destruct (el_isStarted d1) eqn:Hst; [apply wp_ret; split; [intros _; by apply Hk|done]|]. wp_read. simpl.
      case_bool_decide; [apply wp_ret; split; [intros _; by apply Hk|done]|]. apply wp_bind, wp_modify.
      eapply wp_mono; [apply startFollower_spec|]; simpl.
      + destruct (el_isCurrentlyLeader d1) eqn:Hc; [|done]. specialize (I3 eq_refl). congruence.
      + intros r1 d2 Hr. split; [|done]. intros Hok. destruct (Hr Hok). by split.
    - unfold wp. simpl. by destruct (el_errCh d).
    - by apply wp_throw. }
  unfold wp in Hb. destruct (body d) as [[[]|e] d1]; intros [= <- <-]; destruct Hb as [Hb1 Hb2]; split_and!; try done; auto.
Qed.

End facts.
