(* ===== verification/Evm.v ===== *)
(** * The EVM execution client ([execution/evm/execution.go])

    Drives an Ethereum execution layer through the Engine API. The two RPC
    clients are interfaces with the execution layer as their state; hashes are
    byte strings; the context and the clock are questions to the environment.
    Logs are left out. *)

From S2P Require Import Prelude Sha256 Datastore Types Serialization Execution Sequencing Raft.
From stdpp Require Import base gmap strings list numbers.
Open Scope Z_scope.

(** * The EVM client's store ([execution/evm/store.go])

    Execution metadata by height, for idempotent execution and crash recovery.
    The generated message is an interface like the other protobuf messages.
    Keys hold the raw bytes of a height, so what [ds.NewKey] does to a string
    matters here: it is a parameter, and its documentation says that it cleans
    the path. *)

(** ** Keys *)

(** [ds.NewKey]. *)
Class DsKeys := { NewKey : string -> string }.

(** [path.Clean] of a rooted path: empty and [.] elements are dropped, [..]
    removes the element before it. *)
Fixpoint clean_elements (rev : list string) (elems : list string) : list string :=
  match elems with
  | [] => reverse rev
  | e :: rest =>
      if bool_decide (e = "") || bool_decide (e = ".") then clean_elements rev rest
      else if bool_decide (e = "..") then clean_elements (tail rev) rest
      else clean_elements (e :: rev) rest
  end.
Fixpoint join_rooted (elems : list string) : string :=
  match elems with
  | [] => ""
  | e :: rest => "/" +:+ e +:+ join_rooted rest
  end.
Definition path_Clean_rooted (s : string) : string :=
  match clean_elements [] (Raft.split_on (Ascii.ascii_of_nat 47) s) with
  | [] => "/"
  | elems => join_rooted elems
  end.

(** A string without a leading slash gets one, and is cleaned. *)
Class DsKeysLaws `{DsKeys} := { NewKey_clean s : NewKey s = path_Clean_rooted s }.

(** ** Metadata *)

Module EvmStore.

Definition evmStorePrefix : string := "evm/".
Definition lastPrunedExecMetaKey : string := evmStorePrefix +:+ "last-pruned-execmeta-height".

Definition ExecStageStarted : string := "started".
Definition ExecStageBuilt : string := "built".
Definition ExecStageSubmitted : string := "submitted".
Definition ExecStagePromoted : string := "promoted".

Record ExecMeta := MkExecMeta
  { em_Height : Z; em_ParentHash : slice; em_PayloadID : slice; em_BlockHash : slice; em_StateRoot : slice;
    em_TxHash : slice; em_Timestamp : Z; em_Stage : string; em_UpdatedAtUnix : Z }.

(** The generated message has the same fields. *)
Record pbExecMeta := MkPbExecMeta
  { pe_Height : Z; pe_ParentHash : slice; pe_PayloadId : slice; pe_BlockHash : slice; pe_StateRoot : slice;
    pe_TxHash : slice; pe_Timestamp : Z; pe_Stage : string; pe_UpdatedAtUnix : Z }.

Definition ToProto (em : ExecMeta) : pbExecMeta :=
  MkPbExecMeta (em_Height em) (em_ParentHash em) (em_PayloadID em) (em_BlockHash em) (em_StateRoot em) (em_TxHash em)
    (em_Timestamp em) (em_Stage em) (em_UpdatedAtUnix em).

(** [append([]byte(nil), b...)] is nil for an empty slice. *)
Definition FromProto (other : option pbExecMeta) (em : ExecMeta) : ExecMeta :=
  match other with
  | None => em
  | Some o =>
      MkExecMeta (pe_Height o) (norm_slice (pe_ParentHash o)) (norm_slice (pe_PayloadId o)) (norm_slice (pe_BlockHash o))
        (norm_slice (pe_StateRoot o)) (norm_slice (pe_TxHash o)) (pe_Timestamp o) (pe_Stage o) (pe_UpdatedAtUnix o)
  end.
Definition zero_ExecMeta : ExecMeta := MkExecMeta 0 None None None None None 0 "" 0.

(** The characters of a Go string made of bytes. *)
Definition raw_string (b : bytes) : string :=
  String.string_of_list_ascii (Ascii.ascii_of_byte <$> b).

Section store.
Context {DB : Type} `{Datastore DB} `{DsKeys} `{ProtoMsg pbExecMeta}.

Inductive evm_store_error := EsDs (e : ds_error) | EsProto.

Definition execMetaKey (height : Z) : string :=
  NewKey (evmStorePrefix +:+ "execmeta/" +:+ raw_string (be_bytes 8 height)).

Definition GetExecMeta (height : Z) : M DB evm_store_error (option ExecMeta) :=
  r ← attempt (ds_get (execMetaKey height));
  match r with
  | Err ErrNotFound => mret None
  | Err e => throw (EsDs e)
  | Ok data =>
      pbMeta ← lift_res (map_err (fun _ => EsProto) (proto_Unmarshal data));
      mret (Some (FromProto (Some pbMeta) zero_ExecMeta))
  end.

Definition SaveExecMeta (meta : ExecMeta) : M DB evm_store_error unit :=
  data ← lift_res (map_err (fun _ => EsProto) (proto_Marshal (ToProto meta)));
  wrap EsDs (ds_put (execMetaKey (em_Height meta)) data).

(** The staged deletion of a height; a missing key is no error. *)
Definition stage_delete (h : Z) : M DB ds_error unit :=
  r ← attempt (ds_stage (BDelete (execMetaKey h)));
  match r with
  | Err ErrNotFound | Ok _ => mret tt
  | Err e => throw e
  end.

Definition exec_heights (last height : Z) : list Z :=
  (fun i => last + 1 + Z.of_nat i) <$> seq 0 (Z.to_nat (height - last)).

(** What a batch of the deletions and the marker does when it is committed. *)
Definition exec_prune_ops (last height : Z) : list bop :=
  ((fun h => BDelete (execMetaKey h)) <$> exec_heights last height) ++ [BPut (NewKey lastPrunedExecMetaKey) (be_bytes 8 height)].

Definition last_pruned_exec : M DB evm_store_error Z :=
  r ← attempt (ds_get (NewKey lastPrunedExecMetaKey));
  match r with
  | Err ErrNotFound => mret 0
  | Err e => throw (EsDs e)
  | Ok data => mret (if zlen data =? 8 then be_val data else 0)
  end.

Definition PruneExec (height : Z) : M DB evm_store_error unit :=
  lastPruned ← last_pruned_exec;
  if height <=? lastPruned then mret tt else
  _ ← wrap EsDs ds_batch;
  _ ← wrap EsDs (for_each (exec_heights lastPruned height) stage_delete);
  _ ← wrap EsDs (ds_stage (BPut (NewKey lastPrunedExecMetaKey) (be_bytes 8 height)));
  wrap EsDs (ds_commit (exec_prune_ops lastPruned height)).

End store.
End EvmStore.

(** ** RPC interfaces *)

Inductive rpc_error :=
| RpcNotFound                       (* ethereum.NotFound *)
| RpcCode (code : Z)                (* a JSON-RPC error *)
| RpcOther (msg : string).

(** [engine.PayloadStatusV1.Status]. *)
Inductive PayloadStatus := VALID | SYNCING | ACCEPTED | INVALID | UnknownStatus (s : string).

Record ForkchoiceState := MkForkchoice { HeadBlockHash : bytes; SafeBlockHash : bytes; FinalizedBlockHash : bytes }.

(** The attributes that [buildPayloadAttributes] sets; withdrawals and the
    parent beacon root are constants. [slotNumber] may be absent. *)
Record PayloadAttributes := MkAttributes
  { pa_timestamp : Z; pa_prevRandao : Z; pa_feeRecipient : bytes; pa_transactions : list string; pa_gasLimit : Z;
    pa_slotNumber : option Z }.

Record ForkChoiceResponse := MkFcr { fcr_Status : PayloadStatus; fcr_PayloadID : option bytes }.

(** [EnginePayloadEnvelope]: the fields the client reads; the rest of the
    envelope, which it hands on, is [ep_rest]. *)
Record Payload := MkPayload
  { ep_Number : Z; ep_Timestamp : Z; ep_BlockHash : bytes; ep_StateRoot : bytes; ep_amsterdam : bool; ep_rest : bytes }.

(** [types.Header]: hash, root, gas limit, time and number. *)
Record ElHeader := MkElHeader { eh_Hash : bytes; eh_Root : bytes; eh_GasLimit : Z; eh_Time : Z; eh_Number : Z }.

Class EngineRPCClient (L : Type) := {
  en_ForkchoiceUpdated : ForkchoiceState -> option PayloadAttributes -> M L rpc_error ForkChoiceResponse;
  en_GetPayload : bytes -> M L rpc_error Payload;
  en_NewPayload : Payload -> M L rpc_error PayloadStatus
}.
Class EthRPCClient (L : Type) := {
  (** [None] is the latest block. *)
  eth_HeaderByNumber : option Z -> M L rpc_error ElHeader;
  eth_GetTxs : M L rpc_error (list string);
  eth_GetNextProposer : Z -> M L rpc_error bytes
}.
(** The context is done; the time. *)
Class EvmEnv (V : Type) := { ev_done : V -> bool * V; ev_now : V -> Z * V }.
(** [types.Transaction.UnmarshalBinary] and [Gas]: the gas of a transaction that
    can be decoded; [common.FromHex]. *)
Class EthTx := { tx_gas : bytes -> option Z; FromHex : string -> bytes }.

Module Evm.
Import EvmStore.

Definition MaxPayloadStatusRetries : nat := 3.
Definition SafeBlockLag : Z := 2.
Definition FinalizedBlockLag : Z := 3.
Definition prunedHistoryErrorCode : Z := 4444.

Inductive evm_error :=
| ErrInvalidPayloadStatus
| ErrPayloadSyncing
(** [max retries exceeded], which wraps the last error, if there was one. *)
| EvMaxRetries (last : bool)
| EvCanceled
| EvRpc (e : rpc_error)
| EvStore (e : evm_store_error)
| EvMsg (msg : string).

Definition zero_hash : bytes := replicate 32 (byte_of_Z 0).

Definition validatePayloadStatus (status : PayloadStatus) : res evm_error unit :=
  match status with
  | VALID => Ok tt
  | SYNCING | ACCEPTED => Err ErrPayloadSyncing
  | INVALID => Err ErrInvalidPayloadStatus
  | UnknownStatus _ => Err ErrInvalidPayloadStatus
  end.

Definition isHistoryUnavailable (e : rpc_error) : bool :=
  match e with
  | RpcNotFound => true
  | RpcCode c => c =? prunedHistoryErrorCode
  | RpcOther _ => false
  end.
Definition isRPCMethodNotFound (e : rpc_error) : bool := match e with RpcCode c => c =? -32601 | _ => false end.

(** [engine.PayloadID] and the hash of the transactions, which is nil for none. *)
Definition hashTxs (txs : list bytes) : slice :=
  match txs with [] => None | _ => Some (Sha256.sum256 (concat txs)) end.

Definition derivePrevRandao (blockHeight : Z) : Z := blockHeight.
Definition deriveSlotNumber (blockHeight : Z) : Z := blockHeight.

(** [filterTransactions]: empty transactions are left out. *)
Definition filterTransactions (txs : list bytes) : list string :=
  omap (fun tx => match tx with [] => None | _ => Some ("0x" +:+ hex_encode tx) end) txs.

(** ** FilterTxs *)

Record filter_acc := MkFilterAcc { fa_gas : Z; fa_bytes : Z; fa_limit : bool }.

Definition filter_tx `{EthTx} (maxBytes maxGas : Z) (forced : bool) (acc : filter_acc) (tx : bytes) : FilterStatus * filter_acc :=
  if zlen tx =? 0 then (FilterRemove, acc) else
  let txBytes := zlen tx in
  match (if forced then tx_gas tx else Some 0) with
  | None => (FilterRemove, acc)
  | Some txGas =>
      if forced && (0 <? maxGas) && (maxGas <? txGas) then (FilterRemove, acc) else
      if (0 <? maxBytes) && (maxBytes <? txBytes) then (FilterRemove, acc) else
      if fa_limit acc then (FilterPostpone, acc) else
      if (0 <? maxBytes) && (maxBytes <? add64 (fa_bytes acc) txBytes) then (FilterPostpone, MkFilterAcc (fa_gas acc) (fa_bytes acc) true) else
      if forced && (0 <? maxGas) && (maxGas <? add64 (fa_gas acc) txGas) then (FilterPostpone, MkFilterAcc (fa_gas acc) (fa_bytes acc) true) else
      (FilterOK, MkFilterAcc (add64 (fa_gas acc) txGas) (add64 (fa_bytes acc) txBytes) (fa_limit acc))
  end.
Fixpoint filter_all `{EthTx} (maxBytes maxGas : Z) (forced : bool) (acc : filter_acc) (txs : list bytes) : list FilterStatus :=
  match txs with
  | [] => []
  | tx :: rest => let '(st, acc') := filter_tx maxBytes maxGas forced acc tx in st :: filter_all maxBytes maxGas forced acc' rest
  end.

(** ** The client *)

Record EngineClient (DB L V : Type) := MkEngineClient
  { (** The execution layer behind the two RPC clients. *)
    ec_el : L;
    ec_genesisHash : bytes;
    ec_initialHeight : Z;
    ec_feeRecipient : bytes;
    ec_store : DB;
    ec_head : bytes;
    ec_headHeight : Z;
    ec_safe : bytes;
    ec_finalized : bytes;
    ec_blockHashCache : gmap Z bytes;
    ec_executionInfo : option Z;
    ec_env : V }.
Arguments MkEngineClient {DB L V}. Arguments ec_el {DB L V}. Arguments ec_genesisHash {DB L V}.
Arguments ec_initialHeight {DB L V}. Arguments ec_feeRecipient {DB L V}. Arguments ec_store {DB L V}.
Arguments ec_head {DB L V}. Arguments ec_headHeight {DB L V}. Arguments ec_safe {DB L V}. Arguments ec_finalized {DB L V}.
Arguments ec_blockHashCache {DB L V}. Arguments ec_executionInfo {DB L V}. Arguments ec_env {DB L V}.

(** [NewEngineExecutionClient], once the connections are made. *)
Definition NewEngineExecutionClient {DB L V} (el : L) (genesisHash feeRecipient : bytes) (db : DB) (env : V) : EngineClient DB L V :=
  MkEngineClient el genesisHash 0 feeRecipient db genesisHash 0 genesisHash genesisHash ∅ None env.

Section client.
Context {DB : Type} `{Datastore DB} `{DsKeys} `{ProtoMsg pbExecMeta}.
Context {L : Type} `{EngineRPCClient L} `{EthRPCClient L} {V : Type} `{EvmEnv V} `{EthTx}.
Abbreviation C := (EngineClient DB L V).
Definition EvM (A : Type) : Type := M C evm_error A.

Definition set_ec_el x (c : C) : C := MkEngineClient x (ec_genesisHash c) (ec_initialHeight c) (ec_feeRecipient c) (ec_store c) (ec_head c) (ec_headHeight c) (ec_safe c) (ec_finalized c) (ec_blockHashCache c) (ec_executionInfo c) (ec_env c).
Definition set_ec_initialHeight x (c : C) : C := MkEngineClient (ec_el c) (ec_genesisHash c) x (ec_feeRecipient c) (ec_store c) (ec_head c) (ec_headHeight c) (ec_safe c) (ec_finalized c) (ec_blockHashCache c) (ec_executionInfo c) (ec_env c).
Definition set_ec_store x (c : C) : C := MkEngineClient (ec_el c) (ec_genesisHash c) (ec_initialHeight c) (ec_feeRecipient c) x (ec_head c) (ec_headHeight c) (ec_safe c) (ec_finalized c) (ec_blockHashCache c) (ec_executionInfo c) (ec_env c).
(** Head, its height, safe and finalized. *)
Definition set_ec_labels head height safe final (c : C) : C := MkEngineClient (ec_el c) (ec_genesisHash c) (ec_initialHeight c) (ec_feeRecipient c) (ec_store c) head height safe final (ec_blockHashCache c) (ec_executionInfo c) (ec_env c).
Definition set_ec_blockHashCache x (c : C) : C := MkEngineClient (ec_el c) (ec_genesisHash c) (ec_initialHeight c) (ec_feeRecipient c) (ec_store c) (ec_head c) (ec_headHeight c) (ec_safe c) (ec_finalized c) x (ec_executionInfo c) (ec_env c).
Definition set_ec_executionInfo x (c : C) : C := MkEngineClient (ec_el c) (ec_genesisHash c) (ec_initialHeight c) (ec_feeRecipient c) (ec_store c) (ec_head c) (ec_headHeight c) (ec_safe c) (ec_finalized c) (ec_blockHashCache c) x (ec_env c).
Definition set_ec_env x (c : C) : C := MkEngineClient (ec_el c) (ec_genesisHash c) (ec_initialHeight c) (ec_feeRecipient c) (ec_store c) (ec_head c) (ec_headHeight c) (ec_safe c) (ec_finalized c) (ec_blockHashCache c) (ec_executionInfo c) x.

Definition on_el {A} (m : M L rpc_error A) : EvM A := zoom ec_el set_ec_el (wrap EvRpc m).
Definition on_evm_store {A} (m : M DB evm_store_error A) : EvM A := zoom ec_store set_ec_store (wrap EvStore m).
Definition ask_env {A} (f : V -> A * V) : EvM A := zoom ec_env set_ec_env (infallible f).

(** At most [n] more attempts, the waits in between cut short by the context. The
    source's function returns no value; here it returns what a closure leaves in
    a variable of the caller when it succeeds. *)
Fixpoint retry_loop {A} (n : nat) (fn : EvM A) : EvM A :=
  match n with
  | O => throw (EvMaxRetries false)
  | S n' =>
      r ← attempt fn;
      match r with
      | Ok a => mret a
      | Err ErrPayloadSyncing =>
          match n' with
          | O => throw (EvMaxRetries true)
          | S _ =>
              done ← ask_env ev_done;
              if (done : bool) then throw EvCanceled else retry_loop n' fn
          end
      | Err e => throw e
      end
  end.
Definition retryWithBackoffOnPayloadStatus {A} (fn : EvM A) : EvM A := retry_loop MaxPayloadStatusRetries fn.

Definition labels (c : C) : ForkchoiceState := MkForkchoice (ec_head c) (ec_safe c) (ec_finalized c).

Definition doForkchoiceUpdate (args : ForkchoiceState) : EvM unit :=
  retryWithBackoffOnPayloadStatus (
    r ← on_el (en_ForkchoiceUpdated args None);
    lift_res (validatePayloadStatus (fcr_Status r))).

Definition getBlockInfo (height : Z) : EvM ElHeader := on_el (eth_HeaderByNumber (Some height)).

Definition InitChain (genesisTime initialHeight : Z) (chainID : string) : EvM slice :=
  if negb (initialHeight =? 1) then throw (EvMsg "initialHeight must be 1") else
  g ← gets ec_genesisHash;
  _ ← doForkchoiceUpdate (MkForkchoice g g g);
  info ← getBlockInfo 0;
  _ ← modify (set_ec_initialHeight initialHeight);
  mret (Some (eh_Root info)).

(** An entry of the pool is [0x] and at least one digit. *)
Definition decode_pool_tx (rlpHex : string) : res evm_error bytes :=
  if negb (String.prefix "0x" rlpHex) || (Z.of_nat (String.length rlpHex) <? 3)
  then Err (EvMsg "invalid hex format for transaction")
  else let txBytes := FromHex rlpHex in
       if (zlen txBytes =? 0) && (2 <? Z.of_nat (String.length rlpHex)) then Err (EvMsg "failed to decode hex transaction") else Ok txBytes.
Definition GetTxs : EvM (list bytes) :=
  result ← on_el eth_GetTxs;
  lift_res (mapM decode_pool_tx result).

(** ** Labels *)

Definition setHead (blockHash : bytes) : EvM unit :=
  _ ← modify (fun c => set_ec_labels blockHash (ec_headHeight c) (ec_safe c) (ec_finalized c) c);
  args ← gets labels;
  doForkchoiceUpdate args.

(** The hash of a block from the cache or from the execution layer; [None] when
    it is not found, and the label stays. *)
Definition label_hash (update : bool) (height : Z) : EvM (option bytes) :=
  if negb update then mret None else
  cache ← gets ec_blockHashCache;
  match (cache : gmap Z bytes) !! height with
  | Some h => mret (Some h)
  | None =>
      r ← attempt (F := evm_error) (getBlockInfo height);
      mret (match r with Ok info => Some (eh_Hash info) | Err _ => None end)
  end.

Definition setFinalWithHeight (blockHash : bytes) (headHeight : Z) (isFinal : bool) : EvM unit :=
  safeHash ← label_hash (negb isFinal && (SafeBlockLag <? headHeight)) (sub64 headHeight SafeBlockLag);
  finalizedHash ← label_hash (negb isFinal && (FinalizedBlockLag <? headHeight)) (sub64 headHeight FinalizedBlockLag);
  _ ← modify (fun c =>
        if (isFinal : bool) then set_ec_labels (ec_head c) (ec_headHeight c) blockHash blockHash c
        else set_ec_labels blockHash headHeight (default (ec_safe c) safeHash) (default (ec_finalized c) finalizedHash) c);
  args ← gets labels;
  doForkchoiceUpdate args.
Definition setFinal (blockHash : bytes) (isFinal : bool) : EvM unit := setFinalWithHeight blockHash 0 isFinal.

Definition SetFinal (blockHeight : Z) : EvM unit :=
  r ← attempt (getBlockInfo blockHeight);
  match r with
  | Ok info => setFinal (eh_Hash info) true
  | Err e =>
      if negb (match e with EvRpc e => isHistoryUnavailable e | _ => false end) then throw e else
      h ← attempt (F := evm_error) (on_el (eth_HeaderByNumber None));
      match h with
      | Ok head => if (two64 <=? eh_Number head) || (eh_Number head <? blockHeight) then throw e else mret tt
      | Err _ => throw e
      end
  end.

Definition SetSafe (blockHash : bytes) : EvM unit :=
  _ ← modify (fun c => set_ec_labels (ec_head c) (ec_headHeight c) blockHash (ec_finalized c) c);
  args ← gets labels;
  doForkchoiceUpdate args.

Definition SetSafeByHeight (height : Z) : EvM unit :=
  h ← label_hash true height;
  match h with Some blockHash => SetSafe blockHash | None => mret tt end.

Definition SetFinalized (blockHash : bytes) : EvM unit :=
  _ ← modify (fun c => set_ec_labels (ec_head c) (ec_headHeight c) blockHash blockHash c);
  args ← gets labels;
  doForkchoiceUpdate args.

Definition maxCacheSize : Z := 10.
Definition cacheBlockHash (height : Z) (hash : bytes) (c : C) : C :=
  let m := <[height := hash]> (ec_blockHashCache c) in
  let m := if maxCacheSize <? Z.of_nat (size m) then
             let minHeight := if maxCacheSize - 1 <=? height then height - (maxCacheSize - 1) else 0 in
             filter (fun kv => minHeight <= kv.1) m
           else m in
  set_ec_blockHashCache m c.

Definition Rollback (targetHeight : Z) : EvM unit :=
  info ← getBlockInfo targetHeight;
  let h := eh_Hash info in
  _ ← modify (set_ec_labels h targetHeight h h);
  doForkchoiceUpdate (MkForkchoice h h h).

Definition GetLatestHeight : EvM Z :=
  header ← on_el (eth_HeaderByNumber None);
  mret (u64 (eh_Number header)).

Definition PruneExec (height : Z) : EvM unit := on_evm_store (EvmStore.PruneExec height).

Definition GetExecutionInfo : EvM Z :=
  cached ← gets ec_executionInfo;
  match cached with
  | Some g => mret g
  | None =>
      header ← on_el (eth_HeaderByNumber None);
      _ ← modify (set_ec_executionInfo (Some (eh_GasLimit header)));
      mret (eh_GasLimit header)
  end.

Definition FilterTxs (txs : list bytes) (maxBytes maxGas : Z) (hasForceIncludedTransaction : bool) : EvM (list FilterStatus) :=
  mret (filter_all maxBytes maxGas hasForceIncludedTransaction (MkFilterAcc 0 0 false) txs).

(** ** Execution *)

(** Best effort: an error is logged. *)
Definition saveExecMeta (height timestamp : Z) (payloadID blockHash stateRoot : slice) (txs : list bytes) (stage : string) : EvM unit :=
  now ← ask_env ev_now;
  _ ← attempt (F := evm_error) (on_evm_store (SaveExecMeta
        (MkExecMeta height None payloadID blockHash stateRoot (hashTxs txs) timestamp stage (time_Unix now))));
  mret tt.

Definition processPayload (payloadID : bytes) (txs : list bytes) : EvM bytes :=
  payloadResult ← on_el (en_GetPayload payloadID);
  let blockHeight := ep_Number payloadResult in
  let blockTimestamp := to_i64 (ep_Timestamp payloadResult) in
  _ ← retryWithBackoffOnPayloadStatus (
        st ← on_el (en_NewPayload payloadResult);
        lift_res (validatePayloadStatus st));
  let blockHash := ep_BlockHash payloadResult in
  _ ← modify (cacheBlockHash blockHeight blockHash);
  _ ← setFinalWithHeight blockHash blockHeight false;
  _ ← saveExecMeta blockHeight blockTimestamp (Some payloadID) (Some blockHash) (Some (ep_StateRoot payloadResult)) txs ExecStagePromoted;
  mret (ep_StateRoot payloadResult).

Definition ResumePayload (payloadIDBytes : bytes) : EvM bytes :=
  if negb (zlen payloadIDBytes =? 8) then throw (EvMsg "ResumePayload: invalid payloadID length") else
  processPayload payloadIDBytes [].

(** What was found at the height. *)
Inductive reconciled := Reuse (stateRoot : bytes) | Resume (payloadID : bytes) | Fresh.

(** A promoted record whose block the execution layer still has. *)
Definition check_promoted (height unix : Z) (m : ExecMeta) : EvM (option bytes) :=
  if negb (bool_decide (em_Stage m = ExecStagePromoted) && (0 <? slen (em_StateRoot m)) && (em_Timestamp m =? unix)) then mret None else
  r ← attempt (F := evm_error) (getBlockInfo height);
  match r with
  | Ok info =>
      if negb (bool_decide (eh_Hash info = zero_hash)) && (eh_Time info =? u64 unix) then
        _ ← attempt (F := evm_error) (setHead (eh_Hash info));
        mret (Some (eh_Root info))
      else mret None
  | Err _ => mret None
  end.

(** A started record for the same block whose payload the execution layer still
    has. *)
Definition check_started (unix : Z) (txs : list bytes) (m : ExecMeta) : EvM (option bytes) :=
  if negb (bool_decide (em_Stage m = ExecStageStarted) && (slen (em_PayloadID m) =? 8)) then mret None else
  if negb (em_Timestamp m =? unix) || negb (slice_equal (em_TxHash m) (hashTxs txs)) then mret None else
  r ← attempt (F := evm_error) (on_el (en_GetPayload (sl (em_PayloadID m))));
  mret (match r with Ok _ => Some (sl (em_PayloadID m)) | Err _ => None end).

(** The block of the execution layer itself. *)
Definition check_el (height unix : Z) (txs : list bytes) : EvM reconciled :=
  r ← attempt (F := evm_error) (getBlockInfo height);
  match r with
  | Ok info =>
      if bool_decide (eh_Hash info = zero_hash) then mret Fresh else
      if eh_Time info =? u64 unix then
        _ ← attempt (F := evm_error) (setHead (eh_Hash info));
        _ ← saveExecMeta height unix None (Some (eh_Hash info)) (Some (eh_Root info)) txs ExecStagePromoted;
        mret (Reuse (eh_Root info))
      else if 0 <? height then
        _ ← Rollback (height - 1);
        mret Fresh
      else mret Fresh
  | Err _ => mret Fresh
  end.

Definition reconcileExecutionAtHeight (height timestamp : Z) (txs : list bytes) : EvM reconciled :=
  let unix := time_Unix timestamp in
  m ← attempt (F := evm_error) (on_evm_store (GetExecMeta height));
  match m with
  | Ok (Some meta) =>
      promoted ← check_promoted height unix meta;
      match promoted with
      | Some root => mret (Reuse root)
      | None =>
          started ← check_started unix txs meta;
          match started with
          | Some pid => mret (Resume pid)
          | None => check_el height unix txs
          end
      end
  | _ => check_el height unix txs
  end.

Definition nextProposerAtBlock (blockHeight : Z) : EvM (option bytes) :=
  r ← attempt (on_el (eth_GetNextProposer blockHeight));
  match r with
  | Ok p => mret (Some p)
  | Err e => if match e with EvRpc e => isRPCMethodNotFound e | _ => false end then mret None else throw e
  end.

Definition nextProposerChangeAfterBlock (executedBlockHeight : Z) : EvM slice :=
  if executedBlockHeight =? 0 then mret None else
  before ← nextProposerAtBlock (executedBlockHeight - 1);
  match before with
  | None => mret None
  | Some b =>
      after ← nextProposerAtBlock executedBlockHeight;
      match after with
      | None => mret None
      | Some a => if bool_decide (a = zero_hash) || bool_decide (a = b) then mret None else mret (Some a)
      end
  end.

Definition executionResultAfterBlock (stateRoot : bytes) (executedBlockHeight : Z) : EvM ExecuteResult :=
  nextProposer ← nextProposerChangeAfterBlock executedBlockHeight;
  mret (MkExecuteResult (Some stateRoot) nextProposer).

Definition buildPayloadAttributes (txsPayload : list string) (blockHeight timestamp prevGasLimit : Z) (c : C) : PayloadAttributes :=
  MkAttributes (time_Unix timestamp) (derivePrevRandao blockHeight) (ec_feeRecipient c) txsPayload prevGasLimit
    (Some (deriveSlotNumber blockHeight)).

(** The request for a payload. *)
Definition request_payload (args : ForkchoiceState) (attrs : PayloadAttributes) : EvM bytes :=
  retryWithBackoffOnPayloadStatus (
    r ← on_el (en_ForkchoiceUpdated args (Some attrs));
    _ ← lift_res (validatePayloadStatus (fcr_Status r));
    match fcr_PayloadID r with
    | None => throw (EvMsg "returned nil PayloadID")
    | Some id => mret id
    end).

Definition ExecuteTxs (txs : list bytes) (blockHeight timestamp : Z) (prevStateRoot : slice) : EvM ExecuteResult :=
  r ← attempt (F := evm_error) (reconcileExecutionAtHeight blockHeight timestamp txs);
  match r with
  | Ok (Reuse stateRoot) => executionResultAfterBlock stateRoot blockHeight
  | Ok (Resume payloadID) =>
      stateRoot ← processPayload payloadID txs;
      executionResultAfterBlock stateRoot blockHeight
  | _ =>
      prev ← getBlockInfo (sub64 blockHeight 1);
      if (0 <? slen prevStateRoot) && negb (bytes_eqb (sl prevStateRoot) (eh_Root prev)) then throw (EvMsg "prevStateRoot mismatch") else
      let txsPayload := filterTransactions txs in
      _ ← modify (cacheBlockHash (sub64 blockHeight 1) (eh_Hash prev));
      c ← gets id;
      let args := MkForkchoice (eh_Hash prev) (ec_safe c) (ec_finalized c) in
      let attrs := buildPayloadAttributes txsPayload blockHeight timestamp (eh_GasLimit prev) c in
      newPayloadID ← request_payload args attrs;
      _ ← saveExecMeta blockHeight (time_Unix timestamp) (Some newPayloadID) None None txs ExecStageStarted;
      stateRoot ← processPayload newPayloadID txs;
      executionResultAfterBlock stateRoot blockHeight
  end.

End client.
End Evm.

(** * Engine API version negotiation ([execution/evm/engine_rpc_client.go])

    The versions of [forkchoiceUpdated] and [getPayload] that a server accepts
    depend on the fork that is active; the client remembers the last version
    that worked and tries the others when the server says "Unsupported fork".
    The JSON-RPC connection is an interface. Against a server that supports one
    version of a method, the client is a direct call of that version, whatever
    it remembers. *)

(** [rpc.Client.CallContext], by the method and its parameters. *)
Class RpcConnection (L : Type) := {
  call_forkchoiceUpdated : string -> ForkchoiceState -> option PayloadAttributes -> M L rpc_error ForkChoiceResponse;
  call_getPayload : string -> bytes -> M L rpc_error Payload;
  call_newPayload : string -> Payload -> M L rpc_error PayloadStatus
}.

Module EvmRpc.

Definition engineErrUnsupportedFork : Z := -38005.
Definition forkchoiceUpdatedV3Method : string := "engine_forkchoiceUpdatedV3".
Definition forkchoiceUpdatedV4Method : string := "engine_forkchoiceUpdatedV4".
Definition getPayloadV4Method : string := "engine_getPayloadV4".
Definition getPayloadV5Method : string := "engine_getPayloadV5".
Definition getPayloadV6Method : string := "engine_getPayloadV6".
Definition newPayloadV4Method : string := "engine_newPayloadV4".
Definition newPayloadV5Method : string := "engine_newPayloadV5".

Definition enginePayloadVersionV4 : Z := 4.
Definition enginePayloadVersionV5 : Z := 5.
Definition enginePayloadVersionV6 : Z := 6.
Definition engineForkchoiceVersionV3 : Z := 3.
Definition engineForkchoiceVersionV4 : Z := 4.

(** The remembered versions are 0 until a call succeeds. *)
Record engineRPCClient (L : Type) := MkEngineRPC { er_client : L; er_payloadVersion : Z; er_forkchoiceVersion : Z }.
Arguments MkEngineRPC {L}. Arguments er_client {L}. Arguments er_payloadVersion {L}. Arguments er_forkchoiceVersion {L}.

Definition NewEngineRPCClient {L} (client : L) : engineRPCClient L := MkEngineRPC client 0 0.

Definition preferredPayloadVersion {L} (e : engineRPCClient L) : Z :=
  if (er_payloadVersion e =? enginePayloadVersionV5) || (er_payloadVersion e =? enginePayloadVersionV6)
  then er_payloadVersion e else enginePayloadVersionV4.
Definition getPayloadMethod (v : Z) : string :=
  if v =? enginePayloadVersionV5 then getPayloadV5Method
  else if v =? enginePayloadVersionV6 then getPayloadV6Method else getPayloadV4Method.
Definition getPayloadFallbackOrder (preferred : Z) : list Z :=
  if preferred =? enginePayloadVersionV5 then [enginePayloadVersionV5; enginePayloadVersionV6; enginePayloadVersionV4]
  else if preferred =? enginePayloadVersionV6 then [enginePayloadVersionV6; enginePayloadVersionV5; enginePayloadVersionV4]
  else [enginePayloadVersionV4; enginePayloadVersionV5; enginePayloadVersionV6].

Definition preferredForkchoiceVersion {L} (e : engineRPCClient L) : Z :=
  if er_forkchoiceVersion e =? engineForkchoiceVersionV4 then er_forkchoiceVersion e else engineForkchoiceVersionV3.
Definition forkchoiceUpdatedMethod (v : Z) : string :=
  if v =? engineForkchoiceVersionV4 then forkchoiceUpdatedV4Method else forkchoiceUpdatedV3Method.
Definition forkchoiceFallbackOrder (preferred : Z) : list Z :=
  if preferred =? engineForkchoiceVersionV4 then [engineForkchoiceVersionV4; engineForkchoiceVersionV3]
  else [engineForkchoiceVersionV3; engineForkchoiceVersionV4].

(** A copy of the attributes: V3 does without the slot number, V4 requires it. *)
Definition forkchoiceArgsForMethod (args : option PayloadAttributes) (method : string) : res rpc_error (option PayloadAttributes) :=
  match args with
  | None => Ok None
  | Some a =>
      if bool_decide (method = forkchoiceUpdatedV4Method) then
        match pa_slotNumber a with
        | None => Err (RpcOther (method +:+ " requires slotNumber payload attribute"))
        | Some _ => Ok (Some a)
        end
      else if bool_decide (method = forkchoiceUpdatedV3Method) then
        Ok (Some (MkAttributes (pa_timestamp a) (pa_prevRandao a) (pa_feeRecipient a) (pa_transactions a) (pa_gasLimit a) None))
      else Ok (Some a)
  end.

Definition newPayloadMethod (payload : Payload) : string := if ep_amsterdam payload then newPayloadV5Method else newPayloadV4Method.
Definition isUnsupportedForkErr (e : rpc_error) : bool :=
  match e with RpcCode c => c =? engineErrUnsupportedFork | _ => false end.

Section client.
Context {L : Type} `{RpcConnection L}.
Abbreviation E := (engineRPCClient L).

Definition on_conn {A} (m : M L rpc_error A) : M E rpc_error A :=
  zoom er_client (fun l e => MkEngineRPC l (er_payloadVersion e) (er_forkchoiceVersion e)) m.

(** The versions in turn; the errors that are returned wrap the last one. *)
Fixpoint try_forkchoice (versions : list Z) (last : rpc_error) (state : ForkchoiceState) (args : option PayloadAttributes)
  : M E rpc_error ForkChoiceResponse :=
  match versions with
  | [] => throw last
  | version :: rest =>
      let method := forkchoiceUpdatedMethod version in
      methodArgs ← lift_res (forkchoiceArgsForMethod args method);
      r ← attempt (on_conn (call_forkchoiceUpdated method state methodArgs));
      match r with
      | Ok result =>
          _ ← modify (fun e => MkEngineRPC (er_client e)
                (if version =? engineForkchoiceVersionV4 then enginePayloadVersionV6 else er_payloadVersion e) version);
          mret result
      | Err err => if negb (isUnsupportedForkErr err) then throw err else try_forkchoice rest err state args
      end
  end.
Definition ForkchoiceUpdated (state : ForkchoiceState) (args : option PayloadAttributes) : M E rpc_error ForkChoiceResponse :=
  preferred ← gets preferredForkchoiceVersion;
  try_forkchoice (forkchoiceFallbackOrder preferred) (RpcOther "") state args.

Fixpoint try_payload (versions : list Z) (last : rpc_error) (payloadID : bytes) : M E rpc_error Payload :=
  match versions with
  | [] => throw last
  | version :: rest =>
      r ← attempt (on_conn (call_getPayload (getPayloadMethod version) payloadID));
      match r with
      | Ok result =>
          _ ← modify (fun e => MkEngineRPC (er_client e) version (er_forkchoiceVersion e));
          mret result
      | Err err => if negb (isUnsupportedForkErr err) then throw err else try_payload rest err payloadID
      end
  end.
Definition GetPayload (payloadID : bytes) : M E rpc_error Payload :=
  preferred ← gets preferredPayloadVersion;
  try_payload (getPayloadFallbackOrder preferred) (RpcOther "") payloadID.

(** The raw payload goes back as it came. *)
Definition NewPayload (payload : Payload) : M E rpc_error PayloadStatus :=
  on_conn (call_newPayload (newPayloadMethod payload) payload).

#[export] Instance negotiated : EngineRPCClient E := {
  en_ForkchoiceUpdated := ForkchoiceUpdated;
  en_GetPayload := GetPayload;
  en_NewPayload := NewPayload
}.
End client.

(** ** Negotiation *)

Section negotiation.
Context {L : Type} `{RpcConnection L}.

(** The connection with a record of the methods that were called. *)
#[local] Instance logged : RpcConnection (L * list string) := {
  call_forkchoiceUpdated m state args := fun c =>
    let '(r, l) := call_forkchoiceUpdated m state args c.1 in (r, (l, c.2 ++ [m]));
  call_getPayload m id := fun c => let '(r, l) := call_getPayload m id c.1 in (r, (l, c.2 ++ [m]));
  call_newPayload m p := fun c => let '(r, l) := call_newPayload m p c.1 in (r, (l, c.2 ++ [m]))
}.
Implicit Types (e : engineRPCClient (L * list string)).

(** A server with one active fork: payloads of other versions, and forkchoice
    updates with attributes for other versions, are refused as of an unsupported
    fork and without effect; those of the supported version are not. *)
Record one_fork (v fv : Z) : Prop := {
  of_payload_version : v ∈ [enginePayloadVersionV4; enginePayloadVersionV5; enginePayloadVersionV6];
  of_forkchoice_version : fv ∈ [engineForkchoiceVersionV3; engineForkchoiceVersionV4];
  of_get_other v' id (l : L) : getPayloadMethod v' <> getPayloadMethod v ->
    call_getPayload (getPayloadMethod v') id l = (Err (RpcCode engineErrUnsupportedFork), l);
  of_get id (l : L) err : (call_getPayload (getPayloadMethod v) id l).1 = Err err -> isUnsupportedForkErr err = false;
  of_fcu_other fv' state a (l : L) : forkchoiceUpdatedMethod fv' <> forkchoiceUpdatedMethod fv ->
    call_forkchoiceUpdated (forkchoiceUpdatedMethod fv') state (Some a) l = (Err (RpcCode engineErrUnsupportedFork), l);
  of_fcu state a (l : L) err :
    (call_forkchoiceUpdated (forkchoiceUpdatedMethod fv) state (Some a) l).1 = Err err -> isUnsupportedForkErr err = false
}.

(** Calls that are refused, then one of the supported version, and what is
    remembered if that succeeds. *)
Definition direct_get (v : Z) (id : bytes) (refused : list string) e : res rpc_error Payload * engineRPCClient (L * list string) :=
  let '(r, l) := call_getPayload (getPayloadMethod v) id (er_client e).1 in
  (r, MkEngineRPC (l, (er_client e).2 ++ refused ++ [getPayloadMethod v]) (if is_ok r then v else er_payloadVersion e)
        (er_forkchoiceVersion e)).
Definition direct_fcu (fv : Z) (state : ForkchoiceState) (args : option PayloadAttributes) (refused : list string) e :=
  let '(r, l) := call_forkchoiceUpdated (forkchoiceUpdatedMethod fv) state args (er_client e).1 in
  (r, MkEngineRPC (l, (er_client e).2 ++ refused ++ [forkchoiceUpdatedMethod fv])
        (if is_ok r && (fv =? engineForkchoiceVersionV4) then enginePayloadVersionV6 else er_payloadVersion e)
        (if is_ok r then fv else er_forkchoiceVersion e)).

Section fork.
Variables (v fv : Z).
Hypothesis Hfork : one_fork v fv.

Lemma try_payload_direct versions : v ∈ versions -> forall last id e,
  (forall v', v' ∈ versions -> v' <> v -> getPayloadMethod v' <> getPayloadMethod v) ->
  exists refused, (length refused < length versions)%nat /\ try_payload versions last id e = direct_get v id refused e.
Proof.
  induction versions as [|v' rest IH]; [by intros ?%elem_of_nil|]. intros Hin last id e Hinj. simpl.
  unfold mbind, M_bind, attempt, on_conn, zoom, direct_get. destruct (decide (v' = v)) as [->|Hne].
  - exists []. split; [simpl; lia|]. pose proof (of_get _ _ Hfork id (er_client e).1) as Hok. simpl.
    destruct (call_getPayload (getPayloadMethod v) id (er_client e).1) as [[p|err] l]; [done|].
    rewrite (Hok err) by done. done.
  - simpl. rewrite (of_get_other _ _ Hfork) by (apply Hinj; [left|done]). simpl.
    assert (Hv : v ∈ rest) by (by apply elem_of_cons in Hin as [->|]).
    destruct (IH Hv (RpcCode engineErrUnsupportedFork) id
      (MkEngineRPC ((er_client e).1, (er_client e).2 ++ [getPayloadMethod v']) (er_payloadVersion e) (er_forkchoiceVersion e)))
      as (refused & Hlen & Hrun); [by intros v'' Hv''; apply Hinj; right|].
    exists (getPayloadMethod v' :: refused). split; [simpl; lia|]. unfold direct_get in Hrun. simpl in Hrun.
    rewrite Hrun. by rewrite <- app_assoc.
Qed.

Lemma try_forkchoice_direct versions : fv ∈ versions -> forall last state a a' e,
  (forall v', v' ∈ versions -> v' <> fv -> forkchoiceUpdatedMethod v' <> forkchoiceUpdatedMethod fv) ->
  (forall v', v' ∈ versions -> exists a'', forkchoiceArgsForMethod (Some a) (forkchoiceUpdatedMethod v') = Ok (Some a'')) ->
  forkchoiceArgsForMethod (Some a) (forkchoiceUpdatedMethod fv) = Ok (Some a') ->
  exists refused, (length refused < length versions)%nat /\
    try_forkchoice versions last state (Some a) e = direct_fcu fv state (Some a') refused e.
Proof.
  induction versions as [|v' rest IH]; [by intros ?%elem_of_nil|]. intros Hin last state a a' e Hinj Hargs Hfv.
  cbn [try_forkchoice]. unfold mbind, M_bind, attempt, on_conn, zoom, direct_fcu, lift_res. destruct (decide (v' = fv)) as [->|Hne].
  - exists []. split; [simpl; lia|]. rewrite Hfv. pose proof (of_fcu _ _ Hfork state a' (er_client e).1) as Hok. simpl.
    destruct (call_forkchoiceUpdated (forkchoiceUpdatedMethod fv) state (Some a') (er_client e).1) as [[p|err] l]; [done|].
    rewrite (Hok err) by done. done.
  - destruct (Hargs v') as [a'' Ha]; [left|]. rewrite Ha. simpl.
    rewrite (of_fcu_other _ _ Hfork) by (apply Hinj; [left|done]). simpl.
    assert (Hv : fv ∈ rest) by (by apply elem_of_cons in Hin as [->|]).
    destruct (IH Hv (RpcCode engineErrUnsupportedFork) state a a'
      (MkEngineRPC ((er_client e).1, (er_client e).2 ++ [forkchoiceUpdatedMethod v']) (er_payloadVersion e) (er_forkchoiceVersion e)))
      as (refused & Hlen & Hrun); [by intros v'' Hv''; apply Hinj; right|by intros v'' Hv''; apply Hargs; right|done|].
    exists (forkchoiceUpdatedMethod v' :: refused). split; [simpl; lia|]. unfold direct_fcu in Hrun. simpl in Hrun.
    rewrite Hrun. by rewrite <- app_assoc.
Qed.
End fork.

(** The attributes as a version gets them. *)
Definition args_for (fv : Z) (a : PayloadAttributes) : PayloadAttributes :=
  if fv =? engineForkchoiceVersionV4 then a
  else MkAttributes (pa_timestamp a) (pa_prevRandao a) (pa_feeRecipient a) (pa_transactions a) (pa_gasLimit a) None.

Lemma payload_order_spec v p : v ∈ [enginePayloadVersionV4; enginePayloadVersionV5; enginePayloadVersionV6] ->
  v ∈ getPayloadFallbackOrder p /\
  forall v', v' ∈ getPayloadFallbackOrder p -> v' <> v -> getPayloadMethod v' <> getPayloadMethod v.
Proof.
  intros Hv. unfold getPayloadFallbackOrder.
  destruct (p =? enginePayloadVersionV5), (p =? enginePayloadVersionV6);
    (split; [set_solver|]); intros v' Hv' Hne; set_unfold in Hv; set_unfold in Hv'; naive_solver.
Qed.

Lemma forkchoice_order_spec fv p : fv ∈ [engineForkchoiceVersionV3; engineForkchoiceVersionV4] ->
  fv ∈ forkchoiceFallbackOrder p /\
  forall v', v' ∈ forkchoiceFallbackOrder p -> v' <> fv -> forkchoiceUpdatedMethod v' <> forkchoiceUpdatedMethod fv.
Proof.
  intros Hv. unfold forkchoiceFallbackOrder.
  destruct (p =? engineForkchoiceVersionV4);
    (split; [set_solver|]); intros v' Hv' Hne; set_unfold in Hv; set_unfold in Hv'; naive_solver.
Qed.

Lemma args_for_method fv a : pa_slotNumber a <> None ->
  forkchoiceArgsForMethod (Some a) (forkchoiceUpdatedMethod fv) = Ok (Some (args_for fv a)).
Proof.
  intros Hslot. unfold forkchoiceUpdatedMethod, args_for. simpl. destruct (fv =? engineForkchoiceVersionV4); [|done].
  simpl. by destruct (pa_slotNumber a).
Qed.

Lemma order_lengths p : length (getPayloadFallbackOrder p) = 3%nat /\ length (forkchoiceFallbackOrder p) = 2%nat.
Proof. unfold getPayloadFallbackOrder, forkchoiceFallbackOrder. by repeat case_match. Qed.

(** C27: Take a server with one active fork: it refuses payload requests of other
    versions, and forkchoice updates with attributes for other versions, as of
    an unsupported fork. Whatever versions the client remembers from before, its
    request for a payload is at most two refused calls followed by one call of
    the supported version, whose answer it returns; a forkchoice update with
    attributes (that have a slot number, as all of the client's have) is at most
    one refused call followed by one of the supported version. The attributes
    that the call gets carry the slot number exactly if the version is V4. After
    a success the version is remembered, so the next call tries it first.
    Nothing is claimed of updates without attributes, which servers need not
    refuse. *)
Theorem negotiation_correct v fv e : one_fork v fv ->
  (forall id, exists refused, (length refused <= 2)%nat /\ GetPayload id e = direct_get v id refused e) /\
  (forall state a, pa_slotNumber a <> None -> exists refused, (length refused <= 1)%nat /\
     ForkchoiceUpdated state (Some a) e = direct_fcu fv state (Some (args_for fv a)) refused e) /\
  (forall a, pa_slotNumber a <> None -> pa_slotNumber (args_for fv a) <> None <-> fv = engineForkchoiceVersionV4) /\
  (forall id p e', GetPayload id e = (Ok p, e') -> head (getPayloadFallbackOrder (preferredPayloadVersion e')) = Some v) /\
  (forall state a r e', pa_slotNumber a <> None -> ForkchoiceUpdated state (Some a) e = (Ok r, e') ->
     head (forkchoiceFallbackOrder (preferredForkchoiceVersion e')) = Some fv).
Proof.
  intros Hfork.
  assert (Hget : forall id, exists refused, (length refused <= 2)%nat /\ GetPayload id e = direct_get v id refused e).
  { intros id. unfold GetPayload. rewrite run_gets.
    destruct (payload_order_spec v (preferredPayloadVersion e) (of_payload_version _ _ Hfork)) as [Hin Hinj].
    destruct (try_payload_direct v fv Hfork _ Hin (RpcOther "") id e Hinj) as (refused & Hlen & Hrun).
    exists refused. split; [|exact Hrun]. rewrite (proj1 (order_lengths _)) in Hlen. lia. }
  assert (Hfcu : forall state a, pa_slotNumber a <> None -> exists refused, (length refused <= 1)%nat /\
     ForkchoiceUpdated state (Some a) e = direct_fcu fv state (Some (args_for fv a)) refused e).
  { intros state a Hslot. unfold ForkchoiceUpdated. rewrite run_gets.
    destruct (forkchoice_order_spec fv (preferredForkchoiceVersion e) (of_forkchoice_version _ _ Hfork)) as [Hin Hinj].
    destruct (try_forkchoice_direct v fv Hfork _ Hin (RpcOther "") state a (args_for fv a) e Hinj) as (refused & Hlen & Hrun);
      [intros v' _; exists (args_for v' a); by apply args_for_method|by apply args_for_method|].
    exists refused. split; [|exact Hrun]. rewrite (proj2 (order_lengths _)) in Hlen. lia. }
  split_and!; [done|done| | |].
  - intros a Ha. unfold args_for. destruct (Z.eqb_spec fv engineForkchoiceVersionV4); naive_solver.
  - intros id p e'. destruct (Hget id) as (refused & _ & ->). unfold direct_get.
    destruct (call_getPayload (getPayloadMethod v) id (er_client e).1) as [[q|err] l]; [|done]. intros [= _ <-].
    pose proof (of_payload_version _ _ Hfork) as Hv. set_unfold in Hv. by destruct Hv as [->|[->|[->|[]]]].
  - intros state a r e' Hslot. destruct (Hfcu state a Hslot) as (refused & _ & ->). unfold direct_fcu.
    destruct (call_forkchoiceUpdated (forkchoiceUpdatedMethod fv) state (Some (args_for fv a)) (er_client e).1) as [[q|err] l]; [|done].
    intros [= _ <-].
    pose proof (of_forkchoice_version _ _ Hfork) as Hv. set_unfold in Hv. by destruct Hv as [->|[->|[]]].
Qed.

End negotiation.
End EvmRpc.
