(* ===== verification/EvmFacts.v ===== *)
(** * Facts about the EVM execution client

    What [FilterTxs] keeps, against a reference definition; that an executed
    block is the canonical block of the execution layer at its height, whichever
    way the client found or built it; what a second execution does. *)

From S2P Require Import Prelude Sha256 Datastore Types Serialization Execution Sequencing Evm.
From stdpp Require Import base gmap strings list numbers.
Open Scope Z_scope.

Import EvmStore Evm.

(** ** FilterTxs *)

Section filter.
Context `{EthTx} (maxBytes maxGas : Z) (forced : bool).

Definition gas_of (tx : bytes) : Z := if forced then default 0 (tx_gas tx) else 0.

(** Transactions that can be in no block. *)
Definition removable (tx : bytes) : bool :=
  (zlen tx =? 0) ||
  forced && (match tx_gas tx with None => true | Some _ => false end) ||
  forced && (0 <? maxGas) && (maxGas <? gas_of tx) ||
  (0 <? maxBytes) && (maxBytes <? zlen tx).

Definition sum_Z (l : list Z) : Z := foldr Z.add 0 l.
Definition fits (txs : list bytes) : bool :=
  negb ((0 <? maxBytes) && (maxBytes <? sum_Z (zlen <$> txs))) &&
  negb (forced && (0 <? maxGas) && (maxGas <? sum_Z (gas_of <$> txs))).

(** The reference: of the transactions that could be in some block, the longest
    prefix that fits in this one. [pre] are those already seen. *)
Fixpoint filter_ref (pre : list bytes) (txs : list bytes) : list FilterStatus :=
  match txs with
  | [] => []
  | tx :: rest =>
      if removable tx then FilterRemove :: filter_ref pre rest
      else (if fits (pre ++ [tx]) then FilterOK else FilterPostpone) :: filter_ref (pre ++ [tx]) rest
  end.

(** The transactions with status OK. *)
Definition kept (txs : list bytes) (sts : list FilterStatus) : list bytes :=
  omap (fun x => match x.2 with FilterOK => Some x.1 | _ => None end) (zip txs sts).

Lemma sum_Z_app l k : sum_Z (l ++ k) = sum_Z l + sum_Z k.
Proof. induction l as [|x l IH]; simpl; [done|]. rewrite IH. lia. Qed.

Hypothesis Hmb : 0 <= maxBytes < 9223372036854775808.
Hypothesis Hmg : 0 <= maxGas < 9223372036854775808.
Hypothesis Hgas : forall tx g, tx_gas tx = Some g -> 0 <= g.

Lemma gas_of_nonneg tx : 0 <= gas_of tx.
Proof. unfold gas_of. destruct forced; [|lia]. destruct (tx_gas tx) eqn:Hg; simpl; [eauto|lia]. Qed.

Lemma within_mono b m s x : 0 <= x -> negb (b && (m <? s + x)) = true -> negb (b && (m <? s)) = true.
Proof. destruct b; simpl; [|done]. destruct (Z.ltb_spec m (s + x)), (Z.ltb_spec m s); simpl; intros; done || lia. Qed.

Lemma fits_app pre tx : fits (pre ++ [tx]) = true -> fits pre = true.
Proof.
  unfold fits. rewrite !fmap_app, !sum_Z_app. simpl. rewrite !Z.add_0_r. intros [H1 H2]%andb_prop.
  rewrite (within_mono _ _ _ _ (zlen_nonneg tx) H1), (within_mono _ _ _ _ (gas_of_nonneg tx) H2). done.
Qed.

(** What the accumulator knows about the transactions seen. *)
Definition acc_ok (pre : list bytes) (acc : filter_acc) : Prop :=
  if fa_limit acc then fits pre = false
  else fits pre = true /\ fa_bytes acc = u64 (sum_Z (zlen <$> pre)) /\ fa_gas acc = u64 (sum_Z (gas_of <$> pre)).

Lemma add64_u64_l a b : add64 (u64 a) b = u64 (a + b).
Proof. unfold add64, u64. by rewrite Zplus_mod_idemp_l. Qed.

Lemma sum_Z_nonneg {A} (f : A -> Z) l : (forall x, 0 <= f x) -> 0 <= sum_Z (f <$> l).
Proof. intros Hf. induction l as [|x l IH]; [done|]. rewrite fmap_cons. simpl. specialize (Hf x). lia. Qed.

Lemma filter_tx_spec pre acc tx : acc_ok pre acc ->
  let '(st, acc') := filter_tx maxBytes maxGas forced acc tx in
  if removable tx then st = FilterRemove /\ acc_ok pre acc'
  else st = (if fits (pre ++ [tx]) then FilterOK else FilterPostpone) /\ acc_ok (pre ++ [tx]) acc'.
Proof.
  intros Hacc. unfold filter_tx, removable.
  destruct (Z.eqb_spec (zlen tx) 0) as [Hz|Hz]; [done|]. simpl.
  set (g := if forced then tx_gas tx else Some 0).
  assert (Hg : g = None /\ forced = true /\ tx_gas tx = None \/
    g = Some (gas_of tx) /\ (forced && (match tx_gas tx with None => true | Some _ => false end)) = false).
  { unfold g, gas_of. destruct forced, (tx_gas tx); simpl; naive_solver. }
  destruct Hg as [(-> & -> & ->)|(-> & ->)]; [done|]. simpl.
  destruct (forced && (0 <? maxGas) && (maxGas <? gas_of tx)) eqn:Hbig; simpl; [done|].
  destruct ((0 <? maxBytes) && (maxBytes <? zlen tx)) eqn:Hlong; [done|].
  unfold acc_ok in Hacc. destruct (fa_limit acc) eqn:Hlim.
  { assert (Hn : fits (pre ++ [tx]) = false).
    { destruct (fits (pre ++ [tx])) eqn:Hf; [|done]. apply fits_app in Hf. congruence. }
    rewrite Hn. unfold acc_ok. by rewrite Hlim. }
  destruct Hacc as (Hfit & Hb & Hgs). rewrite Hb, Hgs, !add64_u64_l.
  pose proof (gas_of_nonneg tx) as Hg0. pose proof (zlen_nonneg tx) as Hb0.
  pose proof (sum_Z_nonneg zlen pre zlen_nonneg) as Hsb. pose proof (sum_Z_nonneg gas_of pre gas_of_nonneg) as Hsg.
  assert (Hbt : ((0 <? maxBytes) && (maxBytes <? u64 (sum_Z (zlen <$> pre) + zlen tx))) =
                ((0 <? maxBytes) && (maxBytes <? sum_Z (zlen <$> pre) + zlen tx))).
  { destruct (Z.ltb_spec 0 maxBytes); [|done]. simpl in *. f_equal. apply u64_small. unfold is_u64, two64.
    unfold fits in Hfit. destruct (Z.ltb_spec 0 maxBytes); [|lia]. simpl in Hfit.
    destruct (Z.ltb_spec maxBytes (sum_Z (zlen <$> pre))); [done|]. lia. }
  assert (Hgt : (forced && (0 <? maxGas) && (maxGas <? u64 (sum_Z (gas_of <$> pre) + gas_of tx))) =
                (forced && (0 <? maxGas) && (maxGas <? sum_Z (gas_of <$> pre) + gas_of tx))).
  { destruct (forced && (0 <? maxGas)) eqn:Hfg; [|done]. simpl in *. f_equal. apply u64_small. unfold is_u64, two64.
    unfold fits in Hfit. rewrite Hfg in Hfit. apply andb_prop in Hfit as [_ Hfit]. simpl in Hfit.
    destruct (Z.ltb_spec maxGas (sum_Z (gas_of <$> pre))); [done|].
    destruct (Z.ltb_spec maxGas (gas_of tx)); [done|]. lia. }
  rewrite Hbt, Hgt.
  assert (Hfa : fits (pre ++ [tx]) = negb ((0 <? maxBytes) && (maxBytes <? sum_Z (zlen <$> pre) + zlen tx)) &&
    negb (forced && (0 <? maxGas) && (maxGas <? sum_Z (gas_of <$> pre) + gas_of tx))).
  { unfold fits. rewrite !fmap_app, !sum_Z_app. simpl. by rewrite !Z.add_0_r. }
  unfold acc_ok. rewrite Hfa.
  destruct ((0 <? maxBytes) && (maxBytes <? sum_Z (zlen <$> pre) + zlen tx)); simpl; [done|].
  destruct (forced && (0 <? maxGas) && (maxGas <? sum_Z (gas_of <$> pre) + gas_of tx)); simpl; [done|].
  rewrite !fmap_app, !sum_Z_app. simpl. by rewrite !Z.add_0_r.
Qed.

Lemma filter_all_ref txs : forall pre acc, acc_ok pre acc -> filter_all maxBytes maxGas forced acc txs = filter_ref pre txs.
Proof.
  induction txs as [|tx txs IH]; intros pre acc Hacc; simpl; [done|].
  pose proof (filter_tx_spec pre acc tx Hacc) as Hs. destruct (filter_tx maxBytes maxGas forced acc tx) as [st acc'].
  destruct (removable tx); destruct Hs as [-> Hacc']; f_equal; by apply IH.
Qed.

Lemma filter_ref_length txs : forall pre, length (filter_ref pre txs) = length txs.
Proof. induction txs as [|tx txs IH]; intros pre; simpl; [done|]. destruct (removable tx); simpl; by rewrite IH. Qed.

(** Once one does not fit, nothing is kept. *)
Lemma filter_ref_full txs : forall pre, fits pre = false -> kept txs (filter_ref pre txs) = [].
Proof.
  unfold kept. induction txs as [|tx txs IH]; intros pre Hf; simpl; [done|].
  destruct (removable tx); simpl; [by apply IH|].
  assert (Hn : fits (pre ++ [tx]) = false).
  { destruct (fits (pre ++ [tx])) eqn:Hf'; [|done]. apply fits_app in Hf'. congruence. }
  rewrite Hn. simpl. by apply IH.
Qed.

Lemma filter_ref_kept txs : forall pre, fits pre = true -> fits (pre ++ kept txs (filter_ref pre txs)) = true.
Proof.
  induction txs as [|tx txs IH]; intros pre Hf; simpl; [by rewrite app_nil_r|].
  destruct (removable tx); [by apply IH|]. destruct (fits (pre ++ [tx])) eqn:Hfa.
  - change (kept _ _) with (tx :: kept txs (filter_ref (pre ++ [tx]) txs)).
    specialize (IH _ Hfa). by rewrite <- app_assoc in IH.
  - change (kept _ _) with (kept txs (filter_ref (pre ++ [tx]) txs)).
    rewrite filter_ref_full by done. by rewrite app_nil_r.
Qed.

End filter.

Section filter_client.
Context {DB L V : Type} `{EthTx}.

(** C25: [FilterTxs] is its reference. When forced transactions are present, a
    transaction is removed exactly when it is empty, cannot be decoded, or
    exceeds the gas or the size limit on its own; without forced ones nothing is
    decoded, and it is removed exactly when it is empty or exceeds the size
    limit. Of the others the longest prefix is kept whose bytes, and whose gas
    when forced transactions are present, are within the limits, and the rest is
    postponed. What is kept is within these limits, and there is one status for
    each transaction. A limit of 0 is none; the limits are below 2^63 and a
    transaction's gas is not negative, so no sum wraps. *)
Theorem filter_txs_correct (maxBytes maxGas : Z) (forced : bool) (txs : list bytes) (c : EngineClient DB L V) :
  0 <= maxBytes < 9223372036854775808 -> 0 <= maxGas < 9223372036854775808 ->
  (forall tx g, tx_gas tx = Some g -> 0 <= g) ->
  exists statuses, FilterTxs txs maxBytes maxGas forced c = (Ok statuses, c) /\
    statuses = filter_ref maxBytes maxGas forced [] txs /\
    length statuses = length txs /\
    (0 < maxBytes -> sum_Z (zlen <$> kept txs statuses) <= maxBytes) /\
    (forced = true -> 0 < maxGas -> sum_Z (gas_of forced <$> kept txs statuses) <= maxGas).
Proof.
  intros Hb Hg Hgas. assert (Hnil : fits maxBytes maxGas forced [] = true).
  { unfold fits. simpl. destruct (Z.ltb_spec 0 maxBytes), (Z.ltb_spec maxBytes 0), (Z.ltb_spec 0 maxGas), (Z.ltb_spec maxGas 0), forced;
      simpl; done || lia. }
  exists (filter_ref maxBytes maxGas forced [] txs). split_and!.
  - unfold FilterTxs, mret. simpl. unfold M_ret. do 2 f_equal.
    apply filter_all_ref; [done..|]. unfold acc_ok. by simpl.
  - done.
  - apply filter_ref_length.
  - intros Hp. pose proof (filter_ref_kept maxBytes maxGas forced Hgas txs [] Hnil) as Hk. unfold fits in Hk.
    apply andb_prop in Hk as [Hk _]. simpl in Hk. destruct (Z.ltb_spec 0 maxBytes); [|lia]. simpl in Hk.
    destruct (Z.ltb_spec maxBytes (sum_Z (zlen <$> kept txs (filter_ref maxBytes maxGas forced [] txs)))); [done|lia].
  - intros -> Hp. pose proof (filter_ref_kept maxBytes maxGas true Hgas txs [] Hnil) as Hk. unfold fits in Hk.
    apply andb_prop in Hk as [_ Hk]. simpl in Hk. destruct (Z.ltb_spec 0 maxGas); [|lia]. simpl in Hk.
    destruct (Z.ltb_spec maxGas (sum_Z (gas_of true <$> kept txs (filter_ref maxBytes maxGas true [] txs)))); [done|lia].
Qed.
End filter_client.

(** ** The client as the sequencers' executor *)

Section ports.
Context {DB : Type} `{Datastore DB} {L : Type} `{EngineRPCClient L} `{EthRPCClient L} {V : Type} `{EvmEnv V} `{EthTx}.

#[export] Instance evm_executor : Sequencing.Executor (EngineClient DB L V) := {
  GetExecutionInfo := wrap (fun _ => tt) Evm.GetExecutionInfo;
  FilterTxs txs maxBytes maxGas forced := wrap (fun _ => tt) (Evm.FilterTxs txs maxBytes maxGas forced);
  clock_Now c := let '(now, v) := ev_now (ec_env c) in (now, set_ec_env v c)
}.

Lemma filter_all_length maxBytes maxGas forced txs : forall acc, length (filter_all maxBytes maxGas forced acc txs) = length txs.
Proof. induction txs as [|tx txs IH]; intros acc; simpl; [done|]. destruct (filter_tx maxBytes maxGas forced acc tx). simpl. by rewrite IH. Qed.

#[export] Instance evm_executor_laws : ExecutorLaws (EngineClient DB L V).
Proof. split. intros txs maxBytes maxGas forced x statuses x' [= <- <-]. apply filter_all_length. Qed.
End ports.

(** ** The store *)

Section store_facts.
Context {DB : Type} `{DatastoreLaws DB} `{DsKeys} `{ProtoMsg pbExecMeta}.

(** The key holds the raw bytes of the height, and a key is cleaned like a path:
    the bytes 2f 2e and 2f 2f are a slash before a dot and two slashes, both of
    which are dropped. *)
Lemma exec_keys_collide `{!DsKeysLaws} : execMetaKey 12078 = execMetaKey 12079.
Proof. unfold execMetaKey. rewrite !NewKey_clean. vm_compute. reflexivity. Qed.

Lemma stage_deletes_law hs d :
  wp (for_each hs stage_delete) (fun r d' => ds_view d' = ds_view d /\ (ds_healthy d -> ds_healthy d') /\
    match r with Ok _ => True | Err _ => ~ ds_healthy d end) d.
Proof.
  revert d. induction hs as [|h hs IH]; intros d; simpl; [done|]. apply wp_bind. unfold stage_delete.
  apply wp_bind, wp_attempt. eapply wp_mono; [apply stage_law|]. intros r d1 (Hv & Hh & Hr).
  assert (Hgo : forall d', ds_view d' = ds_view d -> (ds_healthy d -> ds_healthy d') ->
    wp (for_each hs stage_delete) (fun r d' => ds_view d' = ds_view d /\ (ds_healthy d -> ds_healthy d') /\
      match r with Ok _ => True | Err _ => ~ ds_healthy d end) d').
  { intros d' Hv' Hh'. eapply wp_mono; [apply IH|]. intros r' d2 (Hv2 & Hh2 & Hr2). rewrite Hv2, Hv'.
    split_and!; [done|tauto|]. destruct r'; [done|tauto]. }
  destruct r as [[]|[]]; [by apply Hgo|by apply Hgo|]. apply wp_throw. tauto.
Qed.

(** Pruning deletes the records after the last pruned one up to [height] and moves
    the mark, all of it or nothing, and fails only if the backend does. *)
Lemma prune_exec_law height d : let last := (last_pruned_exec d).1 in
  wp (EvmStore.PruneExec height) (fun r d' =>
    (ds_healthy d -> ds_healthy d') /\
    match r with
    | Ok _ => exists l, last = Ok l /\ if height <=? l then ds_view d' = ds_view d else ds_view d' = apply_bops (ds_view d) (exec_prune_ops l height)
    | Err _ => ds_view d' = ds_view d /\ ~ ds_healthy d
    end) d.
Proof.
  cbv zeta. unfold EvmStore.PruneExec. apply wp_bind.
  assert (Hlast : wp last_pruned_exec (fun r d' => (last_pruned_exec d).1 = r /\ ds_view d' = ds_view d /\ (ds_healthy d -> ds_healthy d') /\
    match r with Ok _ => True | Err _ => ~ ds_healthy d end) d).
  { pose proof (get_law (NewKey lastPrunedExecMetaKey) d) as Hg. unfold last_pruned_exec. unfold wp in *. unfold mbind, M_bind, attempt.
    destruct (ds_get (NewKey lastPrunedExecMetaKey) d) as [[data|[]] d1]; simpl in *; tauto. }
  eapply wp_mono; [exact Hlast|]. intros [l|e] d1 (Hl & Hv1 & Hh1 & Hr1); [|tauto]. rewrite Hl.
  destruct (Z.leb_spec height l) as [Hle|Hgt].
  { apply wp_ret. split; [done|]. exists l. split; [done|]. destruct (Z.leb_spec height l); [done|lia]. }
  apply wp_bind, wp_wrap. eapply wp_mono; [apply batch_law|]. intros [[]|e] d2 (Hv2 & Hh2 & Hr2); [|simpl; rewrite Hv2; tauto].
  apply wp_bind, wp_wrap. eapply wp_mono; [apply stage_deletes_law|]. intros [[]|e] d3 (Hv3 & Hh3 & Hr3); [|simpl; rewrite Hv3, Hv2; tauto].
  apply wp_bind, wp_wrap. eapply wp_mono; [apply stage_law|]. intros [[]|e] d4 (Hv4 & Hh4 & Hr4); [|simpl; rewrite Hv4, Hv3, Hv2; tauto].
  apply wp_wrap. eapply wp_mono; [apply commit_law|]. intros [[]|e] d5 (Hh5 & Hv5); simpl.
  - split; [tauto|]. exists l. split; [done|]. destruct (Z.leb_spec height l); [lia|]. rewrite Hv5. by rewrite Hv4, Hv3, Hv2, Hv1.
  - rewrite Hv4, Hv3, Hv2, Hv1 in Hv5. tauto.
Qed.
End store_facts.

(** * Executing a block on the execution layer

    What the client relies on of the execution layer is stated over three views
    of its state: the blocks it has imported, its canonical chain, and the
    parameters of the payloads it was asked to build. Whichever way [ExecuteTxs]
    takes (a block that is there already, a payload to resume, a new payload),
    the root it returns is that of the canonical block at the height, and the
    records it leaves in its store only ever name payloads that were asked for
    at their height, with their time and transactions. *)

Import EvmStore Evm.

(** ** The execution layer *)

Class ElView (L : Type) := {
  el_known : L -> bytes -> option ElHeader;
  el_canon : L -> Z -> option ElHeader;
  (** What a payload identifier stands for: the number of the block, and the
      timestamp and the transactions that were asked for. *)
  el_job : L -> bytes -> option (Z * Z * list string)
}.

Section views.
Context {L : Type} `{ElView L}.
(** Blocks are not forgotten and identifiers keep their meaning. *)
Definition grows (l l' : L) : Prop :=
  (forall b hd, el_known l b = Some hd -> el_known l' b = Some hd) /\
  (forall id j, el_job l id = Some j -> el_job l' id = Some j).
Definition quiet (l l' : L) : Prop := grows l l' /\ forall h, el_canon l' h = el_canon l h.

#[export] Instance grows_preorder : PreOrder grows.
Proof. split; [by intros l|]. intros l1 l2 l3 [A1 A2] [B1 B2]. split; naive_solver. Qed.
#[export] Instance quiet_preorder : PreOrder quiet.
Proof.
  split; [by intros l|]. intros l1 l2 l3 [A1 A2] [B1 B2]. split; [by etrans|]. intros h. by rewrite B2, A2.
Qed.
End views.

Class ElLaws (L : Type) `{ElView L, EngineRPCClient L, EthRPCClient L} := {
  canon_known (l : L) h hd : el_canon l h = Some hd -> eh_Number hd = h /\ el_known l (eh_Hash hd) = Some hd;
  (** Reads change nothing; a header by number is the canonical one. *)
  header_law n (l : L) : wp (eth_HeaderByNumber n) (fun r l' =>
    quiet l l' /\ forall h hd, n = Some h -> r = Ok hd -> el_canon l h = Some hd) l;
  proposer_law h (l : L) : wp (eth_GetNextProposer h) (fun _ l' => quiet l l') l;
  (** A payload is of the block that its identifier stands for. *)
  get_payload_law id (l : L) : wp (en_GetPayload id) (fun r l' =>
    quiet l l' /\ forall p n t txs, r = Ok p -> el_job l id = Some (n, t, txs) -> ep_Number p = n /\ ep_Timestamp p = t) l;
  (** A payload that is valid is imported; the canonical chain does not move. *)
  new_payload_law p (l : L) : wp (en_NewPayload p) (fun r l' =>
    quiet l l' /\ (r = Ok VALID -> exists hd, el_known l' (ep_BlockHash p) = Some hd /\
      eh_Number hd = ep_Number p /\ eh_Time hd = ep_Timestamp p /\ eh_Root hd = ep_StateRoot p)) l;
  (** A head that is valid becomes canonical, and one that is canonical stays so;
      a payload that is asked for is the head's successor. *)
  forkchoice_law args attrs (l : L) : wp (en_ForkchoiceUpdated args attrs) (fun r l' =>
    grows l l' /\ forall hd, el_known l (HeadBlockHash args) = Some hd ->
      (el_canon l (eh_Number hd) = Some hd -> el_canon l' (eh_Number hd) = Some hd) /\
      forall resp, r = Ok resp -> fcr_Status resp = VALID ->
        el_canon l' (eh_Number hd) = Some hd /\
        forall a id, attrs = Some a -> fcr_PayloadID resp = Some id ->
          el_job l' id = Some (eh_Number hd + 1, pa_timestamp a, pa_transactions a)) l
}.

(** An execution layer that is up stays up, and answers what it knows. *)
Class ElUp (L : Type) `{ElView L, EngineRPCClient L, EthRPCClient L} := {
  el_up : L -> Prop;
  up_header n (l : L) : el_up l -> wp (eth_HeaderByNumber n) (fun r l' =>
    el_up l' /\ forall h hd, n = Some h -> el_canon l h = Some hd -> r = Ok hd) l;
  up_proposer h (l : L) : el_up l -> wp (eth_GetNextProposer h) (fun r l' => el_up l' /\
    match r with Ok _ => True | Err e => isRPCMethodNotFound e = true end) l;
  up_forkchoice args attrs (l : L) : el_up l -> wp (en_ForkchoiceUpdated args attrs) (fun _ l' => el_up l') l
}.

(** The clock is after 1970 and within 64 bits. *)
Class EvmEnvLaws (V : Type) `{EvmEnv V} := now_range v : 0 <= time_Unix (ev_now v).1 < 9223372036854775808.

Definition norm_pbExecMeta (m : pbExecMeta) : pbExecMeta :=
  MkPbExecMeta (pe_Height m) (norm_slice (pe_ParentHash m)) (norm_slice (pe_PayloadId m)) (norm_slice (pe_BlockHash m))
    (norm_slice (pe_StateRoot m)) (norm_slice (pe_TxHash m)) (pe_Timestamp m) (pe_Stage m) (pe_UpdatedAtUnix m).
Definition is_i64 (z : Z) : Prop := -9223372036854775808 <= z < 9223372036854775808.
Definition pbExecMeta_ok (m : pbExecMeta) : Prop :=
  is_u64 (pe_Height m) /\ is_i64 (pe_Timestamp m) /\ is_i64 (pe_UpdatedAtUnix m) /\
  pe_Stage m ∈ [ExecStageStarted; ExecStageBuilt; ExecStageSubmitted; ExecStagePromoted].

Section exec.
Context {DB : Type} `{DatastoreLaws DB} `{DsKeys} `{ProtoMsg pbExecMeta, !ProtoLaws pbExecMeta norm_pbExecMeta pbExecMeta_ok}.
Context {L : Type} `{ElLaws L} {V : Type} `{EvmEnvLaws V} `{EthTx}.
Abbreviation C := (EngineClient DB L V).
Implicit Types (c : C).

(** The payload [pid] was asked for, as the block of height [h] and second [ts],
    with transactions whose hash is [txHash]. *)
Definition asked (h ts : Z) (txHash : slice) (pid : bytes) (c : C) : Prop :=
  exists txs, el_job (ec_el c) pid = Some (h, ts, filterTransactions txs) /\ sl (hashTxs txs) = sl txHash.

Lemma asked_grows h ts txHash pid c c' : grows (ec_el c) (ec_el c') -> asked h ts txHash pid c -> asked h ts txHash pid c'.
Proof. intros Hg (txs & Hj & Hh). exists txs. split; [by apply Hg|done]. Qed.

(** The record at a height, when it is one that would be resumed, names a payload
    that was asked for at that height, with the record's time and transactions. *)
Definition resumable_ok (h : Z) (c : C) : Prop := forall data pb,
  ds_view (ec_store c) !! execMetaKey h = Some data -> proto_Unmarshal data = Ok pb ->
  pe_Stage pb = ExecStageStarted -> slen (pe_PayloadId pb) = 8 ->
  asked h (pe_Timestamp pb) (pe_TxHash pb) (sl (pe_PayloadId pb)) c.

(** What every step at height [h] keeps. *)
Definition progress (h : Z) (c c' : C) : Prop :=
  grows (ec_el c) (ec_el c') /\
  (forall k, k <> execMetaKey h -> ds_view (ec_store c') !! k = ds_view (ec_store c) !! k) /\
  (resumable_ok h c -> resumable_ok h c').
(** Steps that leave the canonical chain alone. *)
Definition still (h : Z) (c c' : C) : Prop := progress h c c' /\ forall n, el_canon (ec_el c') n = el_canon (ec_el c) n.

#[local] Instance progress_preorder h : PreOrder (progress h).
Proof.
  split; [by intros c|]. intros c1 c2 c3 (A1 & A2 & A3) (B1 & B2 & B3). unfold progress.
  split_and!; [by etrans| |naive_solver]. intros k Hk. by rewrite B2, A2.
Qed.
#[local] Instance still_preorder h : PreOrder (still h).
Proof. split; [by intros c|]. intros c1 c2 c3 [A1 A2] [B1 B2]. split; [by etrans|]. intros n. by rewrite B2, A2. Qed.

Lemma progress_el h c c' :
  grows (ec_el c) (ec_el c') -> ds_view (ec_store c') = ds_view (ec_store c) -> progress h c c'.
Proof.
  intros Hg Hst. unfold progress. split_and!; [done|by intros; rewrite Hst|].
  intros Hr data pb Hd Hpb Hs Hl. rewrite Hst in Hd. apply (asked_grows _ _ _ _ _ _ Hg). by eapply Hr.
Qed.
Lemma still_el h c c' :
  quiet (ec_el c) (ec_el c') -> ds_view (ec_store c') = ds_view (ec_store c) -> still h c c'.
Proof. intros [Hg Hc] Hst. split; [by apply progress_el|done]. Qed.

(** ** Small steps *)

Lemma wp_on_el {A} (m : M L rpc_error A) (Q : res evm_error A -> C -> Prop) c :
  wp m (fun r l => Q (map_err EvRpc r) (set_ec_el l c)) (ec_el c) -> wp (on_el m) Q c.
Proof. intros Hm. by apply wp_zoom, wp_wrap. Qed.

Lemma getBlockInfo_spec h n c : wp (getBlockInfo n) (fun r c' =>
  still h c c' /\ ec_store c' = ec_store c /\ forall hd, r = Ok hd -> el_canon (ec_el c') n = Some hd) c.
Proof.
  apply wp_on_el. eapply wp_mono; [apply (header_law (Some n))|]. intros r l' (Hq & Hok). split_and!; [by apply still_el|done|].
  intros hd Hr. simpl. destruct Hq as [_ ->]. apply Hok; [done|]. by destruct r; simplify_eq/=.
Qed.

Lemma nextProposerAtBlock_spec h n c : wp (nextProposerAtBlock n) (fun _ c' => still h c c') c.
Proof.
  apply wp_bind, wp_attempt, wp_on_el. eapply wp_mono; [apply proposer_law|]. intros r l' Hq.
  assert (Hs : still h c (set_ec_el l' c)) by by apply still_el.
  destruct r as [p|e]; simpl; [done|]. by destruct (isRPCMethodNotFound e).
Qed.

Lemma executionResultAfterBlock_spec h root n c : wp (executionResultAfterBlock root n) (fun r c' =>
  still h c c' /\ forall x, r = Ok x -> UpdatedStateRoot x = Some root) c.
Proof.
  assert (Hend : forall np c', still h c c' ->
    wp (E := evm_error) (mret (MkExecuteResult (Some root) np)) (fun r c' => still h c c' /\ forall x, r = Ok x -> UpdatedStateRoot x = Some root) c').
  { intros np c' Hs. apply wp_ret. split; [done|]. by intros x [= <-]. }
  unfold executionResultAfterBlock, nextProposerChangeAfterBlock. apply wp_bind.
  destruct (n =? 0); [by apply wp_ret, Hend|].
  apply wp_bind. eapply wp_mono; [apply (nextProposerAtBlock_spec h)|]. intros [[b|]|e] c1 Hs1; [|by apply wp_ret, Hend|by split].
  apply wp_bind. eapply wp_mono; [apply (nextProposerAtBlock_spec h)|]. intros r c2 Hs2.
  assert (Hs : still h c c2) by by etrans.
  destruct r as [[a|]|e]; [|by apply wp_ret, Hend|by split].
  destruct (bool_decide (a = zero_hash) || bool_decide (a = b)); by apply wp_ret, Hend.
Qed.

(** [I] is kept, and [Q] holds of what is returned. *)
Definition ensures {A} (I : C -> Prop) (m : EvM A) (Q : A -> C -> Prop) : Prop :=
  forall c, I c -> wp m (fun r c' => I c' /\ forall a, r = Ok a -> Q a c') c.

Lemma retry_ensures {A} (I : C -> Prop) (fn : EvM A) (Q : A -> C -> Prop) :
  ensures I fn Q -> (forall c v, I c -> I (set_ec_env v c)) -> forall n, ensures I (retry_loop n fn) Q.
Proof.
  intros Hfn Henv n. induction n as [|n IH]; intros c Hc; simpl; [by apply wp_throw|].
  apply wp_bind, wp_attempt. eapply wp_mono; [by apply Hfn|]. intros [a|e] c1 [HI HQ].
  - apply wp_ret. split; [done|]. intros a' [= <-]. by apply HQ.
  - destruct e; try by apply wp_throw.
    destruct n; [by apply wp_throw|]. apply wp_bind, wp_zoom, wp_infallible.
    destruct (ev_done (ec_env c1)) as [[] v]; [apply wp_throw; split; [by apply Henv|done]|]. by apply IH, Henv.
Qed.

(** ** Forkchoice *)

(** Since [c0]: the head is an imported block, and if it was canonical it still
    is. *)
Definition fc_inv (h : Z) (head : bytes) (hd : ElHeader) (c0 c : C) : Prop :=
  progress h c0 c /\ el_known (ec_el c) head = Some hd /\
  (el_canon (ec_el c0) (eh_Number hd) = Some hd -> el_canon (ec_el c) (eh_Number hd) = Some hd).

Lemma fc_inv_init h head hd c : el_known (ec_el c) head = Some hd -> fc_inv h head hd c c.
Proof. intros Hk. unfold fc_inv. by split_and!. Qed.

Lemma fc_inv_env h head hd c0 c v : fc_inv h head hd c0 c -> fc_inv h head hd c0 (set_ec_env v c).
Proof. done. Qed.

Lemma forkchoice_spec h args attrs hd c0 c : fc_inv h (HeadBlockHash args) hd c0 c ->
  wp (on_el (en_ForkchoiceUpdated args attrs)) (fun r c' => fc_inv h (HeadBlockHash args) hd c0 c' /\
    forall resp, r = Ok resp -> fcr_Status resp = VALID -> el_canon (ec_el c') (eh_Number hd) = Some hd /\
      forall a id, attrs = Some a -> fcr_PayloadID resp = Some id -> el_job (ec_el c') id = Some (eh_Number hd + 1, pa_timestamp a, pa_transactions a)) c.
Proof.
  intros (Hp & Hk & Hcan). apply wp_on_el. eapply wp_mono; [apply forkchoice_law|]. intros r l' (Hg & Hhd).
  destruct (Hhd _ Hk) as [Hstay Hval]. split.
  - unfold fc_inv. split_and!; [|by apply Hg|naive_solver]. etrans; [done|]. by apply progress_el.
  - intros resp Hr Hv. destruct r; simplify_eq/=. by apply Hval.
Qed.

Lemma validate_VALID st : validatePayloadStatus st = Ok tt -> st = VALID.
Proof. by destruct st. Qed.

Lemma doForkchoiceUpdate_spec h args hd c0 : ensures (fc_inv h (HeadBlockHash args) hd c0) (doForkchoiceUpdate args)
  (fun _ c' => el_canon (ec_el c') (eh_Number hd) = Some hd).
Proof.
  apply retry_ensures; [|intros; by apply fc_inv_env]. intros c Hc. apply wp_bind.
  eapply wp_mono; [by apply (forkchoice_spec h args None hd c0)|]. intros [resp|e] c' [HI Hok]; [|by split].
  apply wp_lift_res. split; [done|]. intros [] Hv%validate_VALID. by destruct (Hok resp).
Qed.

Lemma request_payload_spec h args attrs hd c0 : ensures (fc_inv h (HeadBlockHash args) hd c0) (request_payload args attrs)
  (fun id c' => el_job (ec_el c') id = Some (eh_Number hd + 1, pa_timestamp attrs, pa_transactions attrs)).
Proof.
  apply retry_ensures; [|intros; by apply fc_inv_env]. intros c Hc. apply wp_bind.
  eapply wp_mono; [by apply (forkchoice_spec h args (Some attrs) hd c0)|]. intros [resp|e] c' [HI Hok]; [|by split].
  apply wp_bind, wp_lift_res. destruct (validatePayloadStatus (fcr_Status resp)) as [[]|e] eqn:Hv; [|by split].
  apply validate_VALID in Hv. destruct (Hok resp) as [_ Hj]; [done..|].
  destruct (fcr_PayloadID resp) as [id|]; [|by apply wp_throw]. apply wp_ret. split; [done|].
  intros id' [= <-]. by apply Hj.
Qed.

(** The canonical block at [h] has this root and time. *)
Definition canonical (h unix : Z) (root : bytes) (c : C) : Prop :=
  exists hd, el_canon (ec_el c) h = Some hd /\ eh_Root hd = root /\ eh_Time hd = unix.

Lemma canonical_still h k unix root c c' : still k c c' -> canonical h unix root c -> canonical h unix root c'.
Proof. intros [_ Hc] (hd & Hh & Hr). exists hd. by rewrite Hc. Qed.

Lemma still_progress h c c' : still h c c' -> progress h c c'.
Proof. by intros []. Qed.

(** Labels, the cache and the environment are of no concern. *)
Lemma setHead_spec h n hd c : el_canon (ec_el c) n = Some hd ->
  wp (setHead (eh_Hash hd)) (fun _ c' => progress h c c' /\ el_canon (ec_el c') n = Some hd) c.
Proof.
  intros Hc. destruct (canon_known _ _ _ Hc) as [<- Hk]. apply wp_bind, wp_modify, wp_bind, wp_gets.
  eapply wp_mono; [apply (doForkchoiceUpdate_spec h _ hd c); unfold fc_inv; by split_and!|].
  intros r c' [(Hp & _ & Hstay) _]. split; [done|]. by apply Hstay.
Qed.

Lemma label_hash_spec h b n c : wp (label_hash b n) (fun r c' => still h c c' /\ is_ok r = true) c.
Proof.
  unfold label_hash. destruct b; [|by apply wp_ret]. simpl. wp_read.
  destruct (ec_blockHashCache c !! n); [by apply wp_ret|]. apply wp_bind, wp_attempt.
  eapply wp_mono; [apply (getBlockInfo_spec h)|]. intros r c' [Hs _]. by apply wp_ret.
Qed.

Lemma setFinalWithHeight_spec h b n hd c : el_known (ec_el c) b = Some hd ->
  wp (setFinalWithHeight b n false) (fun r c' => progress h c c' /\
    (r = Ok tt -> el_canon (ec_el c') (eh_Number hd) = Some hd)) c.
Proof.
  intros Hk. unfold setFinalWithHeight. apply wp_bind. eapply wp_mono; [apply (label_hash_spec h)|].
  intros [safe|e] c1 [Hs1 Hok]; [|done]. apply wp_bind. eapply wp_mono; [apply (label_hash_spec h)|].
  intros [final|e] c2 [Hs2 _]; [|split; [|done]; by apply still_progress; etrans].
  assert (Hs : progress h c c2) by (apply still_progress; by etrans).
  apply wp_bind, wp_modify, wp_bind, wp_gets.
  eapply wp_mono; [apply (doForkchoiceUpdate_spec h _ hd c2); unfold fc_inv; split_and!; [done|by apply Hs|done]|].
  intros r c' [(Hp & _ & _) Hq]. split; [by etrans|]. intros ->. by apply (Hq tt).
Qed.

(** ** The store *)

Lemma GetExecMeta_spec h c : wp (on_evm_store (GetExecMeta h)) (fun r c' => still h c c' /\
  forall m, r = Ok (Some m) -> exists data pb, ds_view (ec_store c') !! execMetaKey h = Some data /\
    proto_Unmarshal data = Ok pb /\ m = FromProto (Some pb) zero_ExecMeta) c.
Proof.
  apply wp_zoom, wp_wrap, wp_bind, wp_attempt. eapply wp_mono; [apply get_law|]. intros r d' (Hv & _ & Hr).
  assert (Hs : still h c (set_ec_store d' c)) by by apply still_el.
  destruct r as [data|[]]; [|by split..]. apply wp_bind, wp_lift_res.
  destruct (proto_Unmarshal data) as [pb|[]] eqn:Hpb; simpl; [|done]. apply wp_ret. split; [done|].
  intros m [= <-]. exists data, pb. simpl. by rewrite Hv.
Qed.

Lemma saveExecMeta_spec h ts pid bh root txs stage c :
  is_u64 h -> is_i64 ts -> stage ∈ [ExecStageStarted; ExecStageBuilt; ExecStageSubmitted; ExecStagePromoted] ->
  (stage = ExecStageStarted -> asked h ts (hashTxs txs) (sl pid) c) ->
  wp (saveExecMeta h ts pid bh root txs stage) (fun r c' => r = Ok tt /\ still h c c') c.
Proof.
  intros Hh Hts Hst Hjob. unfold saveExecMeta. apply wp_bind, wp_zoom, wp_infallible.
  pose proof (now_range (ec_env c)) as Hnow. destruct (ev_now (ec_env c)) as [now v]. simpl in Hnow.
  apply wp_bind, wp_attempt, wp_zoom, wp_wrap. unfold SaveExecMeta. apply wp_bind, wp_lift_res.
  set (pb := ToProto _). destruct (proto_Marshal pb) as [data|[]] eqn:Hm; [|apply wp_ret; split; [done|by apply still_el]].
  apply wp_wrap. eapply wp_mono; [apply put_law|]. intros r d' [_ Hr]. simpl in Hr.
  destruct r as [[]|e]; (apply wp_ret; split; [done|]); [|apply still_el; [done|by destruct Hr]].
  split; [|done]. unfold progress. simpl. split_and!; [done| |].
  - intros k Hk. rewrite Hr. by rewrite lookup_insert_ne.
  - intros _ data' pb' Hd Hpb' Hs Hl. simpl in Hd |- *. rewrite Hr, lookup_insert_eq in Hd. injection Hd as <-.
    rewrite (unmarshal_marshal pb) in Hpb'; [|split_and!; unfold is_i64; simpl; done || lia|done].
    injection Hpb' as <-. simpl in *. rewrite sl_norm in *. unfold asked. rewrite sl_norm. by apply Hjob.
Qed.

(** ** Payloads *)

Section at_height.
Variables (h unix : Z).
Hypothesis Hh : is_u64 h.
Hypothesis Hunix : 0 <= unix < 9223372036854775808.

(** The new payload is offered until it is imported. *)
Lemma newPayload_spec p c0 : ensures (fun c => still h c0 c)
  (retryWithBackoffOnPayloadStatus (on_el (en_NewPayload p) ≫= fun st => lift_res (validatePayloadStatus st)))
  (fun _ c' => exists hd, el_known (ec_el c') (ep_BlockHash p) = Some hd /\
     eh_Number hd = ep_Number p /\ eh_Time hd = ep_Timestamp p /\ eh_Root hd = ep_StateRoot p).
Proof.
  apply retry_ensures; [|done]. intros c Hc. apply wp_bind, wp_on_el. eapply wp_mono; [apply new_payload_law|].
  intros r l' [Hq Hok]. assert (Hs : still h c0 (set_ec_el l' c)) by (etrans; [done|by apply still_el]).
  destruct r as [st|e]; [|by split]. apply wp_lift_res. split; [done|]. intros [] ->%validate_VALID. by apply Hok.
Qed.

Lemma processPayload_spec pid txs asked_txs c : el_job (ec_el c) pid = Some (h, unix, asked_txs) ->
  wp (processPayload pid txs) (fun r c' => progress h c c' /\ forall root, r = Ok root -> canonical h unix root c') c.
Proof.
  intros Hj. unfold processPayload. apply wp_bind, wp_on_el. eapply wp_mono; [apply get_payload_law|].
  intros r l1 [Hq1 Hp]. set (c1 := set_ec_el l1 c). assert (Hs1 : still h c c1) by by apply still_el.
  destruct r as [p|e]; [|by split; [apply still_progress|]]. destruct (Hp p h unix asked_txs) as [Hn Ht]; [done..|].
  apply wp_bind. eapply wp_mono; [by apply (newPayload_spec p c1)|]. intros [[]|e] c2 [Hs2 Hk].
  2:{ split; [|done]. apply still_progress. by etrans. }
  destruct (Hk tt) as (hd & Hknown & Hhn & Hht & Hhr); [done|]. apply wp_bind, wp_modify, wp_bind.
  set (c3 := cacheBlockHash (ep_Number p) (ep_BlockHash p) c2).
  assert (Hs3 : still h c c3) by (etrans; [done|]; etrans; [done|by apply still_el]).
  eapply wp_mono; [by apply (setFinalWithHeight_spec h _ _ hd)|]. intros [[]|e] c4 [Hp4 Hcan].
  2:{ split; [|done]. etrans; [by apply still_progress|done]. }
  specialize (Hcan eq_refl). apply wp_bind. rewrite Hn.
  eapply wp_mono; [apply saveExecMeta_spec; [done| | |done]|].
  - rewrite Ht, to_i64_small by lia. unfold is_i64. lia.
  - set_solver.
  - intros r c5 [-> Hs5]. apply wp_ret. split.
    + etrans; [by apply still_progress|]. etrans; [done|by apply still_progress].
    + intros root [= <-]. apply (canonical_still _ _ _ _ _ _ Hs5). exists hd. rewrite <- Hn at 1. rewrite <- Hhn. by rewrite Hht.
Qed.

(** ** What is found at the height *)

Lemma check_promoted_spec m c : wp (check_promoted h unix m) (fun r c' => progress h c c' /\
  match r with Ok (Some root) => canonical h unix root c' | Ok None => ec_store c' = ec_store c | Err _ => False end) c.
Proof.
  unfold check_promoted. destruct (negb _); [by apply wp_ret|]. apply wp_bind, wp_attempt.
  eapply wp_mono; [apply (getBlockInfo_spec h)|]. intros r c1 (Hs1 & Hst & Hok). apply still_progress in Hs1.
  destruct r as [info|e]; [|by apply wp_ret]. specialize (Hok info eq_refl).
  destruct (negb (bool_decide (eh_Hash info = zero_hash))); simpl; [|by apply wp_ret].
  destruct (Z.eqb_spec (eh_Time info) (u64 unix)) as [Ht|]; [|by apply wp_ret].
  rewrite u64_small in Ht by (unfold is_u64, two64; lia).
  apply wp_bind, wp_attempt. eapply wp_mono; [by apply (setHead_spec h h info)|]. intros r c2 [Hp2 Hc2].
  apply wp_ret. split; [by etrans|]. by exists info.
Qed.

Lemma check_started_spec txs data pb c :
  ds_view (ec_store c) !! execMetaKey h = Some data -> proto_Unmarshal data = Ok pb ->
  wp (check_started unix txs (FromProto (Some pb) zero_ExecMeta)) (fun r c' => still h c c' /\
    match r with
    | Ok (Some pid) => resumable_ok h c -> asked h unix (hashTxs txs) pid c'
    | Ok None => True
    | Err _ => False
    end) c.
Proof.
  intros Hd Hpb. unfold check_started. simpl.
  destruct (bool_decide_reflect (pe_Stage pb = ExecStageStarted)) as [Hst|]; simpl; [|by apply wp_ret].
  unfold slen. rewrite sl_norm. destruct (Z.eqb_spec (zlen (sl (pe_PayloadId pb))) 8) as [Hl|]; simpl; [|by apply wp_ret].
  destruct (Z.eqb_spec (pe_Timestamp pb) unix) as [Ht|]; simpl; [|by apply wp_ret].
  destruct (slice_equal _ _) eqn:Heq; cbn [negb]; [|by apply wp_ret]. apply slice_equal_spec in Heq. rewrite sl_norm in Heq.
  apply wp_bind, wp_attempt, wp_on_el. eapply wp_mono; [apply get_payload_law|]. intros r l' [Hq _].
  apply wp_ret. assert (Hs : still h c (set_ec_el l' c)) by by apply still_el.
  split; [done|]. destruct r; [|done]. intros Hr. destruct (Hr data pb Hd Hpb Hst Hl) as (txs' & Hj & Hh').
  exists txs'. split; [|by rewrite <- Heq]. rewrite <- Ht. by apply Hq.
Qed.

Lemma evm_Rollback_spec n c : wp (Rollback n) (fun _ c' => progress h c c') c.
Proof.
  unfold Rollback. apply wp_bind. eapply wp_mono; [apply (getBlockInfo_spec h)|]. intros [info|e] c1 (Hs1 & _ & Hok).
  2:{ by apply still_progress. }
  specialize (Hok info eq_refl). destruct (canon_known _ _ _ Hok) as [<- Hk]. apply wp_bind, wp_modify.
  eapply wp_mono; [apply (doForkchoiceUpdate_spec h _ info c1); unfold fc_inv; by split_and!|].
  intros r c' [(Hp & _) _]. etrans; [by apply still_progress|done].
Qed.

Lemma check_el_spec txs c : wp (check_el h unix txs) (fun r c' => progress h c c' /\
  match r with Ok (Reuse root) => canonical h unix root c' | Ok (Resume _) => False | _ => True end) c.
Proof.
  unfold check_el. apply wp_bind, wp_attempt.
  eapply wp_mono; [apply (getBlockInfo_spec h)|]. intros r c1 (Hs1 & _ & Hok). apply still_progress in Hs1.
  destruct r as [info|e]; [|by apply wp_ret]. specialize (Hok info eq_refl).
  destruct (bool_decide (eh_Hash info = zero_hash)); [by apply wp_ret|].
  destruct (Z.eqb_spec (eh_Time info) (u64 unix)) as [Ht|].
  - rewrite u64_small in Ht by (unfold is_u64, two64; lia).
    apply wp_bind, wp_attempt. eapply wp_mono; [by apply (setHead_spec h h info)|]. intros r c2 [Hp2 Hc2].
    apply wp_bind. eapply wp_mono; [apply saveExecMeta_spec; [done|unfold is_i64; lia|set_solver|done]|].
    intros r' c3 [-> Hs3]. apply wp_ret. split; [etrans; [done|]; etrans; [done|by apply still_progress]|].
    apply (canonical_still _ _ _ _ _ _ Hs3). by exists info.
  - destruct (0 <? h); [|by apply wp_ret]. apply wp_bind. eapply wp_mono; [apply evm_Rollback_spec|].
    intros [[]|e] c2 Hp2; [apply wp_ret|]; (split; [by etrans|done]).
Qed.
End at_height.

Lemma reconcile_spec h t txs c : is_u64 h -> 0 <= time_Unix t < 9223372036854775808 -> resumable_ok h c ->
  wp (reconcileExecutionAtHeight h t txs) (fun r c' => progress h c c' /\
    match r with
    | Ok (Reuse root) => canonical h (time_Unix t) root c'
    | Ok (Resume pid) => asked h (time_Unix t) (hashTxs txs) pid c'
    | _ => True
    end) c.
Proof.
  intros Hh Ht Hr. unfold reconcileExecutionAtHeight. apply wp_bind, wp_attempt.
  eapply wp_mono; [apply GetExecMeta_spec|]. intros r c1 [Hs1 Hm]. apply still_progress in Hs1.
  assert (Hel : forall c2, progress h c c2 -> wp (check_el h (time_Unix t) txs) (fun r c' => progress h c c' /\
    match r with
    | Ok (Reuse root) => canonical h (time_Unix t) root c'
    | Ok (Resume pid) => asked h (time_Unix t) (hashTxs txs) pid c'
    | _ => True
    end) c2).
  { intros c2 Hp2. eapply wp_mono; [by apply check_el_spec|]. intros r' c' [Hp Hx]. split; [by etrans|].
    by destruct r' as [[]|]. }
  destruct r as [[m|]|e]; [|by apply Hel..]. destruct (Hm m eq_refl) as (data & pb & Hd & Hpb & ->).
  apply wp_bind. eapply wp_mono; [by apply check_promoted_spec|]. intros [[root|]|e] c2 [Hp2 Hx]; [|..|done].
  { apply wp_ret. split; [by etrans|done]. }
  apply wp_bind. eapply wp_mono; [apply (check_started_spec h (time_Unix t) txs data pb); [by rewrite Hx|done]|].
  intros [[pid|]|e] c3 [Hs3 Hj]; [..|done].
  - apply wp_ret. assert (Hp : progress h c c2) by by etrans. split; [etrans; [done|by apply still_progress]|].
    apply Hj. by apply Hp.
  - apply Hel. etrans; [done|]. etrans; [done|by apply still_progress].
Qed.

(** ** Execution *)

Definition executed (h unix : Z) (c c' : C) (r : res evm_error ExecuteResult) : Prop :=
  progress h c c' /\
  forall x, r = Ok x -> exists hd, el_canon (ec_el c') h = Some hd /\ eh_Time hd = unix /\
    eh_Number hd = h /\ UpdatedStateRoot x = Some (eh_Root hd).

(** A root of the canonical block ends in an executed block. *)
Lemma evm_finish_spec h unix c c1 root : progress h c c1 -> canonical h unix root c1 ->
  wp (executionResultAfterBlock root h) (fun r c' => executed h unix c c' r) c1.
Proof.
  intros Hp Hc. eapply wp_mono; [apply (executionResultAfterBlock_spec h)|]. intros r c' [Hs Hok]. split.
  - etrans; [done|by apply still_progress].
  - intros x Hx. destruct (canonical_still _ _ _ _ _ _ Hs Hc) as (hd & Hcan & <- & Ht). exists hd.
    destruct (canon_known _ _ _ Hcan). by rewrite (Hok x Hx).
Qed.

Lemma process_and_finish h unix c c1 pid txs asked_txs : is_u64 h -> 0 <= unix < 9223372036854775808 ->
  progress h c c1 -> el_job (ec_el c1) pid = Some (h, unix, asked_txs) ->
  wp (processPayload pid txs ≫= fun root => executionResultAfterBlock root h) (fun r c' => executed h unix c c' r) c1.
Proof.
  intros Hh Hu Hp Hj. apply wp_bind. eapply wp_mono; [by apply (processPayload_spec h unix Hh Hu pid txs asked_txs)|].
  intros [root|e] c2 [Hp2 Hc]; [apply evm_finish_spec; [by etrans|by apply Hc]|]. split; [by etrans|done].
Qed.

Lemma ExecuteTxs_spec txs h t prev c : 1 <= h < two64 -> 0 <= time_Unix t < 9223372036854775808 -> resumable_ok h c ->
  wp (ExecuteTxs txs h t prev) (fun r c' => executed h (time_Unix t) c c' r) c.
Proof.
  intros Hh Ht Hr. assert (Hu : is_u64 h) by (unfold is_u64; lia).
  unfold ExecuteTxs. apply wp_bind, wp_attempt. eapply wp_mono; [by apply reconcile_spec|].
  assert (Hfresh : forall c1, progress h c c1 -> wp (
      prev0 ← getBlockInfo (sub64 h 1);
      if (0 <? slen prev) && negb (bytes_eqb (sl prev) (eh_Root prev0)) then throw (EvMsg "prevStateRoot mismatch") else
      let txsPayload := filterTransactions txs in
      _ ← modify (cacheBlockHash (sub64 h 1) (eh_Hash prev0));
      c ← gets id;
      let args := MkForkchoice (eh_Hash prev0) (ec_safe c) (ec_finalized c) in
      let attrs := buildPayloadAttributes txsPayload h t (eh_GasLimit prev0) c in
      newPayloadID ← request_payload args attrs;
      _ ← saveExecMeta h (time_Unix t) (Some newPayloadID) None None txs ExecStageStarted;
      stateRoot ← processPayload newPayloadID txs;
      executionResultAfterBlock stateRoot h) (fun r c' => executed h (time_Unix t) c c' r) c1).
  { intros c1 Hp1. apply wp_bind. eapply wp_mono; [apply (getBlockInfo_spec h)|]. intros [info|e] c2 (Hs2 & _ & Hok).
    2:{ split; [|done]. etrans; [done|by apply still_progress]. }
    assert (Hp2 : progress h c c2) by (etrans; [done|by apply still_progress]).
    destruct (_ && _); [by apply wp_throw|]. apply wp_bind, wp_modify, wp_bind, wp_gets. cbv zeta. apply wp_bind.
    specialize (Hok info eq_refl). destruct (canon_known _ _ _ Hok) as [Hn Hk].
    eapply wp_mono; [apply (request_payload_spec h _ _ info c2); unfold fc_inv; by split_and!|].
    intros [pid|e] c3 [(Hp3 & _ & _) Hj]; [|split; [by etrans|done]]. specialize (Hj pid eq_refl).
    rewrite Hn, sub64_small in Hj by (unfold two64 in *; lia).
    assert (Hj' : el_job (ec_el c3) pid = Some (h, time_Unix t, filterTransactions txs)) by (rewrite Hj; simpl; do 3 f_equal; lia).
    apply wp_bind. eapply wp_mono; [apply saveExecMeta_spec; [done|unfold is_i64; lia|set_solver|by exists txs]|].
    intros r c4 [-> Hs4]. apply (process_and_finish h _ _ _ _ _ (filterTransactions txs)); [done..| |].
    - etrans; [done|]. etrans; [done|by apply still_progress].
    - apply Hs4. exact Hj'. }
  intros [[root|pid|]|e] c1 [Hp1 Hx]; [by apply evm_finish_spec| |by apply Hfresh..].
  destruct Hx as (txs' & Hj & _). by eapply process_and_finish.
Qed.

(** C15: Whatever the execution client finds (a block that is there already, a
    payload to resume or nothing) and whatever fails: if [ExecuteTxs] returns a
    state root for a height, it is the root of the canonical block of the
    execution layer at that height, and that block has the requested time. A
    payload that it resumes was asked for as the block of this height and second
    and with transactions whose joined bytes have the hash of the requested
    ones. Also if it fails, the record at the height still names a payload that
    was asked for at this height with the time and the transaction hash of the
    record, as it did before, so that the next call can rely on it; and the
    records of heights with other keys are as before. *)
Theorem executed_is_canonical txs h t prev c r c' :
  1 <= h < two64 -> 0 <= time_Unix t < 9223372036854775808 -> resumable_ok h c ->
  ExecuteTxs txs h t prev c = (r, c') ->
  (forall x, r = Ok x -> exists hd, el_canon (ec_el c') h = Some hd /\ eh_Time hd = time_Unix t /\
     eh_Number hd = h /\ UpdatedStateRoot x = Some (eh_Root hd)) /\
  (forall pid c1, reconcileExecutionAtHeight h t txs c = (Ok (Resume pid), c1) -> asked h (time_Unix t) (hashTxs txs) pid c1) /\
  resumable_ok h c' /\
  (forall h', execMetaKey h' <> execMetaKey h ->
     ds_view (ec_store c') !! execMetaKey h' = ds_view (ec_store c) !! execMetaKey h') /\
  (forall h', execMetaKey h' <> execMetaKey h -> resumable_ok h' c -> resumable_ok h' c').
Proof.
  intros Hh Ht Hr Hrun. destruct (wp_run _ _ _ _ _ (ExecuteTxs_spec txs h t prev c Hh Ht Hr) Hrun) as [(Hg & Hst & Hres) Hok].
  assert (Hu : is_u64 h) by (unfold is_u64; lia).
  split_and!; [done| |by apply Hres|by intros; apply Hst|].
  - intros pid c1 Hrec. by apply (wp_run _ _ _ _ _ (reconcile_spec h t txs c Hu Ht Hr) Hrec).
  - intros h' Hne Hr' data pb Hd Hpb Hs Hl. rewrite Hst in Hd by done. apply (asked_grows _ _ _ _ _ _ Hg). by eapply Hr'.
Qed.

(** ** Executing again *)

Section again.
Context `{!ElUp L}.
Variables (h unix : Z) (hd : ElHeader).
Hypothesis Hh : 1 <= h < two64.
Hypothesis Hunix : 0 <= unix < 9223372036854775808.
Hypothesis Htime : eh_Time hd = unix.
Hypothesis Hnz : eh_Hash hd <> zero_hash.

(** The block is there, and the execution layer answers. *)
Definition there (c : C) : Prop := el_up (ec_el c) /\ el_canon (ec_el c) h = Some hd.

Lemma getBlockInfo_there c : there c -> wp (getBlockInfo h) (fun r c' => r = Ok hd /\ there c' /\ ec_store c' = ec_store c) c.
Proof.
  intros [Hup Hc]. apply wp_on_el. pose proof (header_law (Some h) (ec_el c)) as Hl.
  pose proof (up_header (Some h) (ec_el c) Hup) as Hu. unfold wp in *.
  destruct (eth_HeaderByNumber (Some h) (ec_el c)) as [r l']. destruct Hl as [[_ Hq] _], Hu as [Hup' Hr].
  rewrite (Hr h hd) by done. unfold there. simpl. by rewrite Hq.
Qed.

Lemma setHead_there c : there c -> wp (setHead (eh_Hash hd)) (fun _ c' => there c') c.
Proof.
  intros [Hup Hc]. destruct (canon_known _ _ _ Hc) as [Hn Hk]. apply wp_bind, wp_modify, wp_bind, wp_gets.
  set (I := fun x : C => fc_inv h (eh_Hash hd) hd c x /\ el_up (ec_el x)).
  set (c1 := set_ec_labels _ _ _ _ c). assert (HI : I c1) by (unfold I, fc_inv; by split_and!).
  eapply wp_mono; [apply (retry_ensures I _ (fun _ _ => True)); [|done|exact HI]|].
  - intros x [Hx Hxup]. apply wp_bind.
    pose proof (forkchoice_spec h (labels c1) None hd c x Hx) as Hf. apply wp_on_el. 
    pose proof (up_forkchoice (labels c1) None (ec_el x) Hxup) as Hu. revert Hf Hu.
    unfold wp, on_el, zoom, wrap. destruct (en_ForkchoiceUpdated (labels c1) None (ec_el x)) as [r l']. simpl.
    intros [Hfc _] Hup'. destruct r as [resp|e]; simpl; [|by split]. done.
  - intros r x [[(_ & _ & Hcan) Hxup] _]. split; [done|]. rewrite Hn in Hcan. by apply Hcan.
Qed.

Lemma saveExecMeta_there ts pid bh root txs stage c : there c ->
  wp (saveExecMeta h ts pid bh root txs stage) (fun r c' => r = Ok tt /\ there c') c.
Proof.
  intros Hc. unfold saveExecMeta. apply wp_bind, wp_zoom, wp_infallible. destruct (ev_now (ec_env c)) as [now v].
  apply wp_bind, wp_attempt. apply wp_zoom. unfold wp. by destruct (wrap _ _ _).
Qed.

Lemma check_el_there txs c : there c -> wp (check_el h unix txs) (fun r c' => r = Ok (Reuse (eh_Root hd)) /\ there c') c.
Proof.
  intros Hc. unfold check_el. apply wp_bind, wp_attempt. eapply wp_mono; [by apply getBlockInfo_there|].
  intros r c1 (-> & Hc1 & _). rewrite bool_decide_eq_false_2 by done.
  rewrite Htime, u64_small, Z.eqb_refl by (unfold is_u64, two64; lia).
  apply wp_bind, wp_attempt. eapply wp_mono; [by apply setHead_there|]. intros r c2 Hc2.
  apply wp_bind. eapply wp_mono; [by apply saveExecMeta_there|]. intros r' c3 [-> Hc3]. by apply wp_ret.
Qed.

Lemma check_promoted_there m c : there c -> wp (check_promoted h unix m) (fun r c' => there c' /\
  match r with Ok (Some root) => root = eh_Root hd | Ok None => True | Err _ => False end) c.
Proof.
  intros Hc. unfold check_promoted. destruct (negb _); [by apply wp_ret|]. apply wp_bind, wp_attempt.
  eapply wp_mono; [by apply getBlockInfo_there|]. intros r c1 (-> & Hc1 & _).
  rewrite bool_decide_eq_false_2 by done. rewrite Htime, u64_small, Z.eqb_refl by (unfold is_u64, two64; lia). simpl.
  apply wp_bind, wp_attempt. eapply wp_mono; [by apply setHead_there|]. intros r c2 Hc2. by apply wp_ret.
Qed.

Lemma proposer_there n c : there c -> wp (nextProposerAtBlock n) (fun r c' => is_ok r = true /\ there c') c.
Proof.
  intros [Hup Hc]. apply wp_bind, wp_attempt, wp_on_el. pose proof (proposer_law n (ec_el c)) as Hl.
  pose proof (up_proposer n (ec_el c) Hup) as Hu. unfold wp in *.
  destruct (eth_GetNextProposer n (ec_el c)) as [r l']. destruct Hl as [_ Hq], Hu as [Hup' Hr].
  assert (Ht : there (set_ec_el l' c)) by (unfold there; simpl; by rewrite Hq).
  destruct r as [a|e]; simpl; [done|]. by rewrite Hr.
Qed.

Lemma finish_there root c : there c -> wp (executionResultAfterBlock root h) (fun r c' =>
  there c' /\ exists x, r = Ok x /\ UpdatedStateRoot x = Some root) c.
Proof.
  intros Hc. unfold executionResultAfterBlock, nextProposerChangeAfterBlock. apply wp_bind.
  destruct (Z.eqb_spec h 0); [lia|]. apply wp_bind. eapply wp_mono; [by apply proposer_there|].
  intros [[b|]|e] c1 [Hok1 Hc1]; [..|done]; [|apply wp_ret, wp_ret; split; [done|by eexists]].
  apply wp_bind. eapply wp_mono; [by apply proposer_there|].
  intros [[a|]|e] c2 [Hok2 Hc2]; [..|done]; [|apply wp_ret, wp_ret; split; [done|by eexists]].
  destruct (_ || _); apply wp_ret, wp_ret; (split; [done|by eexists]).
Qed.
End again.

(** C16: Execution is idempotent: when the execution layer has a canonical block at
    the height with the requested time and answers, and the record at the height
    is not one of a payload in progress, [ExecuteTxs] returns the root of that
    block and the block stays canonical; whatever the store does, and whatever
    the transactions are: they are not compared with those of the block. *)
Theorem execute_again `{!ElUp L} txs h t prev hd c :
  1 <= h < two64 -> 0 <= time_Unix t < 9223372036854775808 ->
  el_up (ec_el c) -> el_canon (ec_el c) h = Some hd -> eh_Time hd = time_Unix t -> eh_Hash hd <> zero_hash ->
  (forall data pb, ds_view (ec_store c) !! execMetaKey h = Some data -> proto_Unmarshal data = Ok pb -> pe_Stage pb <> ExecStageStarted) ->
  exists x c', ExecuteTxs txs h t prev c = (Ok x, c') /\ UpdatedStateRoot x = Some (eh_Root hd) /\
    el_canon (ec_el c') h = Some hd.
Proof.
  intros Hh Ht Hup Hcan Htime Hnz Hrec. assert (Hc : there h hd c) by done.
  enough (Hwp : wp (ExecuteTxs txs h t prev) (fun r c' => there h hd c' /\ exists x, r = Ok x /\ UpdatedStateRoot x = Some (eh_Root hd)) c).
  { apply wp_exists in Hwp as (r & c' & Hrun & (_ & Hcan') & x & -> & Hx). by exists x, c'. }
  unfold ExecuteTxs. apply wp_bind, wp_attempt. 
  enough (Hwp : wp (reconcileExecutionAtHeight h t txs) (fun r c' => r = Ok (Reuse (eh_Root hd)) /\ there h hd c') c).
  { eapply wp_mono; [exact Hwp|]. intros r c' [-> Hc']. by apply finish_there. }
  unfold reconcileExecutionAtHeight. apply wp_bind, wp_attempt, wp_zoom, wp_wrap, wp_bind, wp_attempt.
  eapply wp_mono; [apply get_law|]. intros r d' (Hv & _ & Hr). assert (Hd' : there h hd (set_ec_store d' c)) by done.
  destruct r as [data|[]]; [|by apply (check_el_there h (time_Unix t) hd)..].
  apply wp_bind, wp_lift_res. destruct (proto_Unmarshal data) as [pb|[]] eqn:Hpb; [|by apply (check_el_there h (time_Unix t) hd)].
  apply wp_ret. cbv beta iota. apply wp_bind. eapply wp_mono; [by apply (check_promoted_there h (time_Unix t) hd)|].
  intros [[root|]|e] c1 [Hc1 Hx]; [..|done]; [apply wp_ret; by rewrite Hx|].
  apply wp_bind. unfold check_started at 1. simpl. rewrite bool_decide_eq_false_2 by (by eapply Hrec). simpl.
  apply wp_ret. by apply (check_el_there h (time_Unix t) hd).
Qed.
End exec.
