(* ===== verification/EvmWitness.v ===== *)
(** * The EVM client on a small execution layer

    An execution layer that builds, imports and finalizes blocks meets the laws
    that the client's theorems assume, and the theorems are applied to runs on
    it. *)

From S2P Require Import Prelude Sha256 Datastore Types Serialization ProtoInst Sequencing Execution Evm EvmFacts.
From stdpp Require Import base gmap strings list numbers.
Open Scope Z_scope.

Module EvmWitness.
Import MemDS ProtoInst EvmStore Evm.

(** ** Messages and keys *)

#[export] Instance pbExecMeta_eq_dec : EqDecision pbExecMeta.
Proof. solve_decision. Defined.
#[export] Instance pbExecMeta_countable : Countable pbExecMeta.
Proof.
  refine (inj_countable (fun m => [encode (pe_Height m);
      encode (pe_ParentHash m);
      encode (pe_PayloadId m);
      encode (pe_BlockHash m);
      encode (pe_StateRoot m);
      encode (pe_TxHash m);
      encode (pe_Timestamp m);
      encode (pe_Stage m);
      encode (pe_UpdatedAtUnix m)])
    (fun l => match l with
              | [a; b; c; d; e; f; g; h; i] => a ← decode a; b ← decode b; c ← decode c; d ← decode d; e ← decode e; f ← decode f; g ← decode g; h ← decode h; i ← decode i; Some (MkPbExecMeta a b c d e f g h i)
              | _ => None end) _).
  intros []. cbv beta iota. rewrite !decode_encode. reflexivity.
Defined.
#[export] Instance pbExecMeta_msg : ProtoMsg pbExecMeta := countable_msg norm_pbExecMeta.
#[export] Instance pbExecMeta_laws ok : ProtoLaws pbExecMeta norm_pbExecMeta ok.
Proof. apply countable_msg_laws. intros []. unfold norm_pbExecMeta. simpl. by rewrite !norm_slice_idemp. Qed.

#[export] Instance path_keys : DsKeys := { NewKey := path_Clean_rooted }.
#[export] Instance path_keys_laws : DsKeysLaws.
Proof. done. Qed.

(** ** An execution layer *)

#[export] Instance ElHeader_eq_dec : EqDecision ElHeader.
Proof. solve_decision. Defined.

Record chain := MkChain { ch_blocks : gmap bytes ElHeader; ch_canon : gmap Z ElHeader; ch_jobs : gmap bytes (Z * Z * list string) }.

#[export] Instance chain_view : ElView chain := {
  el_known l b := hd ← ch_blocks l !! b; if decide (eh_Hash hd = b) then Some hd else None;
  el_canon l h :=
    hd ← ch_canon l !! h;
    if decide (eh_Number hd = h /\ ch_blocks l !! eh_Hash hd = Some hd) then Some hd else None;
  el_job l id := ch_jobs l !! id
}.

Definition block_hash (n t : Z) : bytes := be_bytes 32 (n * two64 + t + 1).
Definition block_root (n : Z) : bytes := be_bytes 32 (1000 + n).

(** The canonical chain up to a head, whose ancestors are taken to be canonical. *)
Definition adopt (hd : ElHeader) (l : chain) : chain :=
  MkChain (ch_blocks l) (<[eh_Number hd := hd]> (filter (fun x => x.1 < eh_Number hd) (ch_canon l))) (ch_jobs l).

#[export] Instance chain_engine : EngineRPCClient chain := {
  en_ForkchoiceUpdated args attrs := fun l =>
    match el_known l (HeadBlockHash args) with
    | None => (Ok (MkFcr SYNCING None), l)
    | Some hd =>
        let l1 := adopt hd l in
        match attrs with
        | None => (Ok (MkFcr VALID None), l1)
        | Some a =>
            let job := (eh_Number hd + 1, pa_timestamp a, pa_transactions a) in
            let id := be_bytes 8 ((eh_Number hd + 1) * 4096 + pa_timestamp a) in
            if bool_decide (default job (ch_jobs l !! id) = job)
            then (Ok (MkFcr VALID (Some id)), MkChain (ch_blocks l1) (ch_canon l1) (<[id := job]> (ch_jobs l1)))
            else (Err (RpcOther "busy"), l)
        end
    end;
  en_GetPayload id := fun l =>
    match ch_jobs l !! id with
    | None => (Err (RpcCode (-38001)), l)
    | Some (n, t, _) => (Ok (MkPayload n t (block_hash n t) (block_root n) false []), l)
    end;
  en_NewPayload p := fun l =>
    let hd := MkElHeader (ep_BlockHash p) (ep_StateRoot p) 30000000 (ep_Timestamp p) (ep_Number p) in
    match ch_blocks l !! ep_BlockHash p with
    | Some hd' => (Ok (if bool_decide (hd' = hd) then VALID else INVALID), l)
    | None =>
        if bool_decide (map_Forall (fun _ x => eh_Hash x <> ep_BlockHash p) (ch_canon l))
        then (Ok VALID, MkChain (<[ep_BlockHash p := hd]> (ch_blocks l)) (ch_canon l) (ch_jobs l))
        else (Ok INVALID, l)
    end
}.
#[export] Instance chain_eth : EthRPCClient chain := {
  eth_HeaderByNumber n := fun l =>
    match n with
    | Some h => (match el_canon l h with Some hd => Ok hd | None => Err RpcNotFound end, l)
    | None => (match el_canon l (Z.of_nat (size (ch_canon l)) - 1) with Some hd => Ok hd | None => Err RpcNotFound end, l)
    end;
  eth_GetTxs := fun l => (Ok [], l);
  eth_GetNextProposer h := fun l => (Err (RpcCode (-32601)), l)
}.

Lemma known_spec (l : chain) b hd : el_known l b = Some hd <-> ch_blocks l !! b = Some hd /\ eh_Hash hd = b.
Proof.
  simpl. destruct (ch_blocks l !! b) as [hd'|]; simpl; [|naive_solver]. destruct (decide (eh_Hash hd' = b)); naive_solver.
Qed.
Lemma canon_spec (l : chain) h hd : el_canon l h = Some hd <->
  ch_canon l !! h = Some hd /\ eh_Number hd = h /\ ch_blocks l !! eh_Hash hd = Some hd.
Proof.
  simpl. destruct (ch_canon l !! h) as [hd'|]; simpl; [|naive_solver].
  destruct (decide (eh_Number hd' = h /\ ch_blocks l !! eh_Hash hd' = Some hd')); naive_solver.
Qed.

Lemma adopt_canon hd l : el_known l (eh_Hash hd) = Some hd -> el_canon (adopt hd l) (eh_Number hd) = Some hd.
Proof. intros [Hk _]%known_spec. apply canon_spec. simpl. by rewrite lookup_insert_eq. Qed.

#[export] Instance chain_laws : ElLaws chain.
Proof.
  split.
  - intros l h hd (_ & Hn & Hk)%canon_spec. split; [done|]. by apply known_spec.
  - intros n l. unfold wp, eth_HeaderByNumber, chain_eth. destruct n as [h|]; (split; [done|]); [|done].
    intros h' hd [= <-]. destruct (el_canon l h); naive_solver.
  - done.
  - intros id l. unfold wp, en_GetPayload, chain_engine. destruct (ch_jobs l !! id) as [[[n t] ts]|] eqn:Hj; (split; [done|]); [|done].
    intros p n' t' ts' [= <-] Hj'. simpl in Hj'. rewrite Hj in Hj'. by injection Hj' as <- <- <-.
  - intros p l. unfold wp, en_NewPayload, chain_engine. set (hd := MkElHeader _ _ _ _ _).
    destruct (ch_blocks l !! ep_BlockHash p) as [hd'|] eqn:Hb.
    { split; [done|]. destruct (bool_decide_reflect (hd' = hd)) as [->|]; [|done]. intros _. exists hd.
      by split; [apply known_spec|]. }
    destruct (bool_decide_reflect (map_Forall (fun _ x => eh_Hash x <> ep_BlockHash p) (ch_canon l))) as [Hall|]; [|done].
    assert (Hl : forall b, b <> ep_BlockHash p -> <[ep_BlockHash p := hd]> (ch_blocks l) !! b = ch_blocks l !! b)
      by (intros b Hne; by rewrite lookup_insert_ne).
    split; [split; [split; [|done]|]|].
    + intros b x [Hx Hbx]%known_spec. apply known_spec. split; [|done]. simpl. rewrite Hl; [done|congruence].
    + intros h. simpl. destruct (ch_canon l !! h) as [x|] eqn:Hx; simpl; [|done]. by rewrite (Hl (eh_Hash x)) by (by eapply Hall).
    + intros _. exists hd. split; [|done]. apply known_spec. simpl. by rewrite lookup_insert_eq.
  - intros args attrs l. unfold wp, en_ForkchoiceUpdated, chain_engine.
    destruct (el_known l (HeadBlockHash args)) as [hd|] eqn:Hk; [|done].
    assert (Hk' := Hk). apply known_spec in Hk' as [_ Hh]. rewrite <- Hh in Hk.
    destruct attrs as [a|].
    + set (job := (eh_Number hd + 1, pa_timestamp a, pa_transactions a)). set (id := be_bytes 8 _).
      destruct (bool_decide_reflect (default job (ch_jobs l !! id) = job)) as [Hj|].
      2:{ split; [done|]. intros hd' [= <-]. done. }
      split; [split; [done|]|].
      * intros id' j Hid. simpl in *. destruct (decide (id' = id)) as [->|]; [|by rewrite lookup_insert_ne].
        rewrite Hid in Hj. simpl in Hj. subst j. apply lookup_insert_eq.
      * intros hd' [= <-]. split; [intros _; by apply adopt_canon|]. intros resp [= <-] _. split; [by apply adopt_canon|].
        intros a' id' [= <-] [= <-]. apply lookup_insert_eq.
    + split; [done|]. intros hd' [= <-]. split; [intros _; by apply adopt_canon|].
      intros resp [= <-] _. split; [by apply adopt_canon|done].
Qed.

#[export] Instance chain_up : ElUp chain.
Proof.
  refine {| el_up := fun _ => True |}.
  - intros n l _. split; [done|]. intros h hd -> Hc. cbn [eth_HeaderByNumber chain_eth fst]. by rewrite Hc.
  - intros h l _. by split.
  - intros args attrs l _. unfold wp. by destruct (en_ForkchoiceUpdated args attrs l).
Defined.

(** A clock that stands still, and a context that is not done. *)
#[export] Instance clock_env : EvmEnv unit := { ev_done v := (false, v); ev_now v := (1700000000 * second, v) }.
#[export] Instance clock_laws : EvmEnvLaws unit.
Proof. intros []. by vm_compute. Qed.

(** Transactions of four bytes: the gas is the last one. *)
#[export] Instance small_txs : EthTx := {
  tx_gas tx := match tx with [_; _; _; g] => Some (Z_of_byte g) | _ => None end;
  FromHex s := []
}.

(** ** Runs *)

Definition genesis : ElHeader := MkElHeader (block_hash 0 0) (block_root 0) 30000000 0 0.
Definition el0 : chain := MkChain {[eh_Hash genesis := genesis]} {[0 := genesis]} ∅.
Definition c0 : EngineClient memds chain unit := NewEngineExecutionClient el0 (eh_Hash genesis) [] (MemDS ∅ []) tt.
Definition tx (g : Z) : bytes := byte_of_Z <$> [1; 2; 3; g].
Definition at_second (n : Z) : Z := n * second.

Definition run1 := Evm.ExecuteTxs [tx 10] 1 (at_second 100) None c0.
Definition c1 : EngineClient memds chain unit := run1.2.

Lemma run1_ok : run1.1 = Ok (MkExecuteResult (Some (block_root 1)) None).
Proof. vm_compute. reflexivity. Qed.

(** The first block is built, imported and made canonical. *)
Lemma executed_is_canonical_witness :
  exists hd, el_canon (ec_el c1) 1 = Some hd /\ eh_Time hd = 100 /\ eh_Root hd = block_root 1.
Proof.
  destruct (executed_is_canonical [tx 10] 1 (at_second 100) None c0 run1.1 c1) as (Hok & _).
  - by vm_compute.
  - by vm_compute.
  - intros data pb Hd. done.
  - apply surjective_pairing.
  - destruct (Hok _ run1_ok) as (hd & Hc & Ht & _ & Hr). exists hd. split; [exact Hc|]. split; [exact Ht|]. by injection Hr as Hr.
Defined.

Definition started_at (h : Z) (c : EngineClient memds chain unit) : bool :=
  match ds_view (ec_store c) !! execMetaKey h with
  | Some data => match proto_Unmarshal data with Ok pb => bool_decide (pe_Stage pb = ExecStageStarted) | Err _ => false end
  | None => false
  end.

(** Executing the same height and second again, here with other transactions,
    returns the root of the block that is there. *)
Lemma execute_again_witness : exists x c', Evm.ExecuteTxs [tx 77] 1 (at_second 100) None c1 = (Ok x, c') /\
  UpdatedStateRoot x = Some (block_root 1).
Proof.
  destruct (execute_again [tx 77] 1 (at_second 100) None (MkElHeader (block_hash 1 100) (block_root 1) 30000000 100 1) c1)
    as (x & c' & Hrun & Hx & _).
  - by vm_compute.
  - by vm_compute.
  - done.
  - vm_compute. reflexivity.
  - done.
  - intros Heq. vm_compute in Heq. discriminate Heq.
  - intros data pb Hd Hpb Hs. assert (Hst : started_at 1 c1 = false) by (vm_compute; reflexivity).
    unfold started_at in Hst. rewrite Hd, Hpb, bool_decide_eq_true_2 in Hst by exact Hs. discriminate Hst.
  - exists x, c'. split; [exact Hrun|exact Hx].
Defined.

(** An empty, a malformed and an oversized transaction are removed; two fit, and
    the rest waits although the last one would fit. *)
Lemma filter_txs_correct_witness :
  (Evm.FilterTxs [[]; tx 10; [Byte.x00]; tx 200; tx 20; tx 90; tx 1] 1000 100 true c0).1 =
  Ok [FilterRemove; FilterOK; FilterRemove; FilterRemove; FilterOK; FilterPostpone; FilterPostpone].
Proof.
  destruct (filter_txs_correct 1000 100 true [[]; tx 10; [Byte.x00]; tx 200; tx 20; tx 90; tx 1] c0) as (sts & Hrun & Href & _).
  - lia.
  - lia.
  - intros t g Hg. unfold tx_gas, small_txs in Hg. destruct t as [|? [|? [|? [|b [|]]]]]; try done. injection Hg as <-. apply Z_of_byte_range.
  - rewrite Hrun. rewrite Href. vm_compute. reflexivity.
Defined.

(** Five blocks: the safe block is two behind the head, the finalized one three.
    [SetFinal] of a block that was included in DA later than that takes both back. *)
Definition five : EvM (DB := memds) (L := chain) (V := unit) unit :=
  for_each [1; 2; 3; 4; 5] (fun h => _ ← Evm.ExecuteTxs [tx h] h (at_second (100 + h)) None; mret tt).
Definition c5 : EngineClient memds chain unit := (five c0).2.
Example set_final_moves_back :
  (ec_safe c5, ec_finalized c5) = (block_hash 3 103, block_hash 2 102) /\
  (ec_safe (Evm.SetFinal 1 c5).2, ec_finalized (Evm.SetFinal 1 c5).2) = (block_hash 1 101, block_hash 1 101).
Proof. split; vm_compute; reflexivity. Qed.

(** The hash of the transactions does not see where one ends. *)
Example hash_of_joined_txs : hashTxs [[Byte.x01; Byte.x02]; [Byte.x03]] = hashTxs [[Byte.x01]; [Byte.x02; Byte.x03]].
Proof. reflexivity. Qed.

Example keys_collide : execMetaKey 12078 = execMetaKey 12079.
Proof. apply exec_keys_collide. Qed.

(** ** A server on the Amsterdam fork *)

Definition unsupported {A} : M chain rpc_error A := fun l => (Err (RpcCode EvmRpc.engineErrUnsupportedFork), l).
#[export] Instance amsterdam : RpcConnection chain := {
  call_forkchoiceUpdated m state args :=
    if bool_decide (m = EvmRpc.forkchoiceUpdatedV4Method) then en_ForkchoiceUpdated state args else unsupported;
  call_getPayload m id := if bool_decide (m = EvmRpc.getPayloadV6Method) then en_GetPayload id else unsupported;
  call_newPayload m p := if bool_decide (m = EvmRpc.newPayloadV5Method) then en_NewPayload p else unsupported
}.

Lemma amsterdam_fork : EvmRpc.one_fork (L := chain) EvmRpc.enginePayloadVersionV6 EvmRpc.engineForkchoiceVersionV4.
Proof.
  split.
  - set_solver.
  - set_solver.
  - intros v' id l Hne. unfold call_getPayload, amsterdam. by rewrite bool_decide_eq_false_2.
  - intros id l err. unfold call_getPayload, amsterdam. rewrite bool_decide_eq_true_2 by done.
    unfold en_GetPayload, chain_engine. destruct (ch_jobs l !! id) as [[[n t] ts]|]; [done|]. by intros [= <-].
  - intros fv' state a l Hne. unfold call_forkchoiceUpdated, amsterdam. by rewrite bool_decide_eq_false_2.
  - intros state a l err. unfold call_forkchoiceUpdated, amsterdam. rewrite bool_decide_eq_true_2 by done.
    unfold en_ForkchoiceUpdated, chain_engine. destruct (el_known l (HeadBlockHash state)) as [hd|]; [|done].
    destruct (bool_decide _); [done|]. by intros [= <-].
Qed.

(** A client that remembers nothing finds the version of the payload. *)
Lemma negotiation_correct_witness :
  exists refused, (length refused <= 2)%nat /\
    EvmRpc.GetPayload (H := EvmRpc.logged) (be_bytes 8 7) (EvmRpc.NewEngineRPCClient (el0, [])) =
    EvmRpc.direct_get EvmRpc.enginePayloadVersionV6 (be_bytes 8 7) refused (EvmRpc.NewEngineRPCClient (el0, [])).
Proof.
  apply (proj1 (EvmRpc.negotiation_correct EvmRpc.enginePayloadVersionV6 EvmRpc.engineForkchoiceVersionV4
    (EvmRpc.NewEngineRPCClient (el0, [])) amsterdam_fork)).
Defined.

(** The calls that it makes. *)
Example negotiation_calls :
  (EvmRpc.er_client (EvmRpc.GetPayload (H := EvmRpc.logged) (be_bytes 8 7) (EvmRpc.NewEngineRPCClient (el0, []))).2).2 =
  [EvmRpc.getPayloadV4Method; EvmRpc.getPayloadV5Method; EvmRpc.getPayloadV6Method].
Proof. vm_compute. reflexivity. Qed.
End EvmWitness.
