(* ===== verification/BlockFacts.v ===== *)
(** * Blocks an aggregator makes

    [made_on] says what a block that extends a chain has: its height, its links
    to the header and the data before it, the state it is built on, its
    proposer and its data hash. Encoding and decoding keep it, and a signed
    block that has it passes every check of a node that is in the same state. *)

From S2P Require Import Prelude Sha256 Datastore Types Serialization SerializationFacts Validation Store StoreFacts StoreAPI.
From S2P Require Import DARetrieverFacts DecodeFacts Syncer.
From stdpp Require Import base gmap strings list numbers.
Open Scope Z_scope.

Section made.
Context {PK : Type} `{PubKeysLaws PK} `{WireLaws}.
Context `{ProtoMsg pbVersion, ProtoMsg pbHeader, ProtoMsg pbSignedHeader, ProtoMsg pbMetadata, ProtoMsg pbData}.
Context `{!ProtoLaws pbHeader norm_pbHeader pbHeader_ok, !ProtoLaws pbSignedHeader norm_pbSignedHeader pbSignedHeader_ok,
          !ProtoLaws pbData norm_pbData pbData_ok, !ProtoEmptyData}.

(** The hash of empty data is the constant of the code. *)
Lemma empty_commitment m : DACommitment (MkData m (Some [])) = DataHashForEmptyTxs.
Proof. unfold DACommitment. cbn [Txs]. rewrite marshal_empty_data. vm_compute. reflexivity. Qed.

(** A block built by the holder of [pk] in the state [cur] of a chain whose
    first height is [initial] and whose last block is [last]. *)
Record made_on (initial : Z) (last : res store_error (SignedHeader PK * Data)) (cur : State) (pk : PK)
  (header : SignedHeader PK) (data : Data) : Prop := {
  mo_height : Header_Height (sh_Header header) = LastBlockHeight cur + 1;
  mo_chain : Header_ChainID (sh_Header header) = st_ChainID cur;
  mo_link : sl (LastHeaderHash (sh_Header header)) = sl (st_LastHeaderHash cur);
  mo_app : sl (AppHash (sh_Header header)) = sl (st_AppHash cur);
  mo_proposer : sl (ProposerAddress (sh_Header header)) = sl (NextProposerAddress cur);
  mo_key : PubKey (sh_Signer header) = Some pk;
  mo_address : sl (KeyAddress pk) = sl (ProposerAddress (sh_Header header)) /\
               sl (s_Address (sh_Signer header)) = sl (ProposerAddress (sh_Header header));
  mo_fresh : cachedHash (sh_Header header) = None;
  mo_header_wf : header_wf (sh_Header header);
  mo_signer_wf : signer_wf (sh_Signer header);
  mo_data_wf : data_wf data;
  mo_data : Validation.Validate header data = Ok tt;
  mo_data_link : forall h d, initial <= LastBlockHeight cur -> last = Ok (h, d) -> Data_Verify d (Some data) = Ok tt }.

Lemma slice_equal_norm a b : slice_equal (norm_slice a) b = slice_equal a b.
Proof. unfold slice_equal. by rewrite sl_norm. Qed.
Lemma slice_equal_norm_r a b : slice_equal a (norm_slice b) = slice_equal a b.
Proof. unfold slice_equal. by rewrite sl_norm. Qed.

Lemma Validate_norm (header sh0 : SignedHeader PK) data :
  Validation.Validate (norm_signed_header header sh0) (norm_data data) = Validation.Validate header data.
Proof.
  unfold Validation.Validate, norm_data. cbn [d_Metadata Txs norm_signed_header sh_Header norm_header DataHash].
  rewrite slice_equal_norm_r.
  assert (DACommitment (MkData None (Some (data_txs data))) = DACommitment (MkData None (Txs data))) as ->
    by (unfold DACommitment, data_txs; simpl; by destruct (Txs data)).
  by destruct (d_Metadata data) as [m|].
Qed.

Lemma Data_Hash_norm d : Data_Hash (norm_data d) = Data_Hash d.
Proof. unfold Data_Hash. by rewrite marshal_norm_data. Qed.

Lemma Data_Verify_norm d data : Data_Verify d (Some (norm_data data)) = Data_Verify d (Some data).
Proof.
  unfold Data_Verify, norm_data. cbn [d_Metadata]. destruct (d_Metadata data) as [m|]; [|done].
  cbn [fmap option_fmap option_map norm_metadata LastDataHash]. by rewrite slice_equal_norm_r.
Qed.

(** The hash of a header does not change on the way. *)
Lemma Header_Hash_norm h : cachedHash h = None -> Header_Hash (Some (norm_header h)) = Header_Hash (Some h).
Proof. intros Hc. cbn [Header_Hash cachedHash norm_header]. by rewrite Hc, computeHash_norm. Qed.

Lemma Header_MarshalBinary_norm dirty dirtyv h :
  Header_MarshalBinary dirty dirtyv (norm_header h) = Header_MarshalBinary dirty dirtyv h.
Proof. unfold Header_MarshalBinary. rewrite !fill_pooled_header_eq. by rewrite <- marshal_norm, norm_ToProto, marshal_norm. Qed.

Lemma norm_signer_wf (s : Signer PK) :
  signer_wf s -> is_ok (MarshalledPubKey s).1 = true -> signer_wf (norm_signer s).
Proof.
  unfold signer_wf, norm_signer, MarshalledPubKey. destruct (PubKey s) as [pk|]; [|done]. intros Hs Hm. cbn [PubKey marshalledPubKey].
  destruct (0 <? slen (marshalledPubKey s)) eqn:Hl.
  - right. destruct Hs as [Hs|Hs]; [|done]. unfold slen in Hl. by rewrite Hs in Hl.
  - destruct (MarshalPublicKey pk) as [b|] eqn:Hb; [|done]. right. by apply unmarshal_marshal_pubkey.
Qed.

Lemma norm_legacy_wf l : legacy_wf l -> legacy_wf (norm_legacy l).
Proof.
  intros Hl. destruct l as [l|]; [|done]. unfold norm_legacy. destruct (Legacy_IsZero _); [done|].
  intros x [= <-]. specialize (Hl l eq_refl). unfold legacy_bounded in *. cbn. by rewrite !slen_norm.
Qed.

(** A block is decoded to one that has the same. *)
Lemma made_norm initial last cur pk header data sh0 b :
  made_on initial last cur pk header data -> marshal_signed_header header = Ok b ->
  made_on initial last cur pk (norm_signed_header header sh0) (norm_data data).
Proof.
  intros [A1 A2 A3 A4 A5 A6 [A7 A7'] A8 A9 A10 A11 A12 A13] Hb.
  assert (Hm : is_ok (MarshalledPubKey (sh_Signer header)).1 = true).
  { unfold marshal_signed_header in Hb. rewrite signed_header_marshal_eq in Hb. unfold SignedHeader_ToProto, Signer_ToProto in Hb.
    rewrite A6 in Hb. destruct (MarshalledPubKey (sh_Signer header)) as [[m|e] s]; done. }
  assert (Hs : norm_signer (sh_Signer header) = MkSigner (Some pk) (norm_slice (s_Address (sh_Signer header)))
                 (marshalledPubKey (norm_signer (sh_Signer header)))) by (unfold norm_signer; by rewrite A6).
  split; cbn [norm_signed_header sh_Header norm_header]; try done.
  - cbn. by rewrite sl_norm.
  - cbn. by rewrite sl_norm.
  - cbn. by rewrite sl_norm.
  - cbn [norm_signed_header sh_Signer]. by rewrite Hs.
  - cbn [norm_signed_header sh_Signer ProposerAddress]. rewrite Hs. cbn. by rewrite !sl_norm.
  - destruct A9 as (B1 & B2 & B3 & B4). split; [exact B1|]. split; [exact B2|]. split; [exact B3|]. by apply norm_legacy_wf.
  - by apply norm_signer_wf.
  - intros m Hm'. unfold norm_data in Hm'. cbn in Hm'. destruct (d_Metadata data) as [m0|] eqn:Hm0; [|done]. injection Hm' as <-.
    by apply (A11 m0).
  - etrans; [apply Validate_norm|done].
  - intros h d Hi Hl. rewrite Data_Verify_norm. by eapply A13.
Qed.

(** Only the signature is added later. *)
Lemma made_signed initial last cur pk header data sig :
  made_on initial last cur pk header data ->
  made_on initial last cur pk (MkSignedHeader (sh_Header header) sig (sh_Signer header)
    (aggregatorSignatureProvider header) (syncNodeSignatureBytesProvider header)) data.
Proof. intros []. by split. Qed.

(** ** Such a block is accepted *)

(** The payload a verifier tries first. *)
Definition first_payload (custom : option (res unit bytes)) (header : Header) : res unit bytes :=
  match custom with
  | Some r => r
  | None => match Header_MarshalBinary clean_header clean_version header with Ok b => Ok b | Err _ => Err tt end
  end.

Lemma tryPayload_ok pk sig p : p <> [] -> pk_Verify pk p sig = Ok true -> tryPayload pk sig p [] = (Ok true, [p]).
Proof. intros Hne Hv. unfold tryPayload. destruct p; [done|]. cbn [existsb]. by rewrite Hv. Qed.

Lemma first_payload_accepted pk (header : SignedHeader PK) custom p :
  first_payload custom (sh_Header header) = Ok p -> p <> [] -> pk_Verify pk p (sl (sh_Signature header)) = Ok true ->
  (trySignaturePayloads pk header custom []).1 = Ok tt.
Proof.
  intros Hp Hne Hv. unfold trySignaturePayloads, mbind, M_bind. pose proof (tryPayload_ok _ _ _ Hne Hv) as Ht.
  destruct custom as [r|]; simpl in Hp.
  - subst r. by rewrite Ht.
  - cbn. unfold lift_res. destruct (Header_MarshalBinary _ _ _) as [b|]; [|done]. injection Hp as ->. by rewrite Ht.
Qed.

Section accepted.
Context (initial : Z) (last : res store_error (SignedHeader PK * Data)) (cur : State) (pk : PK)
  (header : SignedHeader PK) (data : Data).
Context (Hmade : made_on initial last cur pk header data) (Hproposer : sl (NextProposerAddress cur) <> []).

Lemma made_signature now custom p :
  sl (sh_Signature header) <> [] -> first_payload custom (sh_Header header) = Ok p -> p <> [] ->
  pk_Verify pk p (sl (sh_Signature header)) = Ok true ->
  b_Time (h_Base (sh_Header header)) <> 0 -> Header_Time (sh_Header header) <= now + MaxClockDrift ->
  validate_signed now custom header = Ok tt.
Proof.
  intros Hsig Hp Hne Hv Ht0 Ht. destruct Hmade as [_ _ _ _ A5 A6 [A7 A7'] _ _ _ _ _ _].
  unfold validate_signed, Header_ValidateBasic, Signature_ValidateBasic, validateSignerIdentity. rewrite A6.
  assert ((slen (ProposerAddress (sh_Header header)) =? 0) = false) as -> by (apply slen_zero_false; congruence).
  assert ((b_Time (h_Base (sh_Header header)) =? 0) = false) as -> by by apply Z.eqb_neq.
  assert ((now + MaxClockDrift <? Header_Time (sh_Header header)) = false) as -> by (apply Z.ltb_ge; lia).
  assert ((slen (sh_Signature header) =? 0) = false) as -> by by apply slen_zero_false.
  assert (slice_equal (KeyAddress pk) (s_Address (sh_Signer header)) = true) as -> by (apply slice_equal_spec; congruence).
  assert (slice_equal (ProposerAddress (sh_Header header)) (s_Address (sh_Signer header)) = true) as ->
    by by apply slice_equal_spec.
  simpl. by eapply first_payload_accepted.
Qed.

Lemma made_proposer : AssertExpectedProposer cur header = Ok tt.
Proof.
  unfold AssertExpectedProposer.
  assert (slice_equal (ProposerAddress (sh_Header header)) (NextProposerAddress cur) = true) as ->
    by (apply slice_equal_spec; apply Hmade).
  by rewrite andb_false_r.
Qed.

Lemma made_sequence t :
  0 <= LastBlockHeight cur -> LastBlockHeight cur + 1 < two64 ->
  (sl (st_LastHeaderHash cur) <> [] -> LastBlockTime cur <= Header_Time (sh_Header header)) ->
  AssertValidSequence cur header t = (Ok tt, t).
Proof.
  intros Hge Hlt Ht. destruct Hmade as [A1 A2 A3 A4 _ _ _ _ _ _ _ _ _].
  unfold AssertValidSequence, mbind, M_bind, lift_res. rewrite bool_decide_true by done. cbn [guard_err].
  destruct (slen (st_LastHeaderHash cur) =? 0) eqn:Hz; [done|]. apply slen_zero_false in Hz.
  rewrite A1, add64_small, Z.eqb_refl by lia. cbn [guard_err].
  assert ((Header_Time (sh_Header header) <? LastBlockTime cur) = false) as -> by (apply Z.ltb_ge; auto). cbn [negb guard_err].
  assert (slice_equal (LastHeaderHash (sh_Header header)) (st_LastHeaderHash cur) = true) as -> by by apply slice_equal_spec.
  assert (slice_equal (AppHash (sh_Header header)) (st_AppHash cur) = true) as -> by by apply slice_equal_spec.
  done.
Qed.

End accepted.

End made.
