(* ===== verification/ExecutingFacts.v ===== *)
(** * Block production: facts

    A [site] is a point of a chain: its store, its state, its genesis and the
    key of its aggregator. [here x e] says that the executor [e] is at [x],
    whatever else it holds; every step of block production stays there, or
    moves to the site after one block. *)

From S2P Require Import Prelude Sha256 Datastore Types Serialization SerializationFacts Validation Store StoreFacts StoreAPI ChainWrites.
From S2P Require Import BlockCache Pending PendingFacts CacheManager DASubmitterFacts Sequencing Execution Replayer DecodeFacts.
From S2P Require Import DARetrieverFacts Syncer BlockFacts Executing.
From S2P Require Submitter SyncerFacts.
From stdpp Require Import base gmap strings list numbers.
Open Scope Z_scope.
Import Executing.

Lemma stable_look {S E A} (I : S -> Prop) (f : S -> A) : stable (E := E) I (gets f) (fun _ => True).
Proof. by apply stable_gets. Qed.

(** What a sequencer promises: its DA height is a uint64 if it is set to such. *)
Class SequencerLaws (Q : Type) `{SequencerAPI Q} := {
  sq_wf : Q -> Prop;
  sq_next_wf req q : sq_wf q -> wp (sq_GetNextBatch req) (fun _ q' => sq_wf q') q;
  sq_ack_wf ack q : sq_AckBatch = Some ack -> sq_wf q -> wp ack (fun _ q' => sq_wf q') q;
  sq_set_wf h q : is_u64 h -> sq_wf q -> sq_wf (sq_SetDAHeight h q);
  sq_height_wf q : sq_wf q -> is_u64 (sq_GetDAHeight q)
}.

Section facts.
Context {ST PK EX Q SG R B V : Type} {C : Type -> Type}.
Context `{BlockStoreLaws ST PK} `{!PubKeysLaws PK} `{LRU C} `{ExecutionLaws EX} `{Submitter.Finalizer EX} `{SequencerLaws Q}.
Context `{!DASubmitter.SignerAPI SG PK} `{!SignerLaws (SG := SG) (PK := PK)} `{RaftNode R} `{!Broadcasters B PK} `{SyncEnv V}.
Context `{WireLaws}.
Context `{ProtoMsg pbVersion, ProtoMsg pbHeader, ProtoMsg pbSignedHeader, ProtoMsg pbMetadata, ProtoMsg pbData}.
Context `{!ProtoLaws pbHeader norm_pbHeader pbHeader_ok, !ProtoLaws pbSignedHeader norm_pbSignedHeader pbSignedHeader_ok,
          !ProtoLaws pbData norm_pbData pbData_ok, !ProtoEmptyData}.
Abbreviation E := (Executor ST PK EX Q SG R B V C).
Abbreviation EM' A := (M E exec_error A).

Definition e_contents (e : E) : contents PK := bs_contents (e_store e).

(** ** Sites *)

Record site := MkSite
  { x_chain : contents PK;
    x_state : State;
    x_genesis : ChainGenesis;
    x_key : PK;
    x_bytes : Header -> res string bytes;
    (** The heights that a pending block may have. *)
    x_pending : Z -> Prop }.

Definition x_last (x : site) : res store_error (SignedHeader PK * Data) := c_block (x_chain x) (LastBlockHeight (x_state x)).
Definition x_made (x : site) : SignedHeader PK -> Data -> Prop :=
  made_on (g_InitialHeight (x_genesis x)) (x_last x) (x_state x) (x_key x).
Definition x_started (x : site) : Prop := g_InitialHeight (x_genesis x) <= LastBlockHeight (x_state x).

Record site_wf (x : site) : Prop := {
  sw_state : state_wf (x_state x);
  sw_height : c_height (x_chain x) = Ok (LastBlockHeight (x_state x));
  sw_chain : st_ChainID (x_state x) = g_ChainID (x_genesis x);
  sw_initial : is_u64 (g_InitialHeight (x_genesis x)) /\ g_InitialHeight (x_genesis x) <= LastBlockHeight (x_state x) + 1;
  sw_first : ~ x_started x -> sl (st_LastHeaderHash (x_state x)) = [];
  sw_proposer : sl (NextProposerAddress (x_state x)) <> [];
  sw_last : forall h d, x_started x -> x_last x = Ok (h, d) ->
    sl (Header_Hash (Some (sh_Header h))) = sl (st_LastHeaderHash (x_state x));
  sw_pending : x_pending x (LastBlockHeight (x_state x) + 1) }.

(** The cached hashes are those of the last block. *)
Definition info_ok (x : site) (info : lastBlockInfo) : Prop :=
  x_started x -> sl (info_headerHash info) = sl (st_LastHeaderHash (x_state x)) /\
    forall h d, x_last x = Ok (h, d) -> sl (info_dataHash info) = Data_Hash d.

(** A pending block of the next height was made here. *)
Definition pending_ok (x : site) (c : contents PK) : Prop :=
  forall hb db header data,
    c_meta c headerKey = Ok hb -> c_meta c dataKey = Ok db ->
    SignedHeader_UnmarshalBinary hb SignedHeader_New = (Ok tt, header) ->
    Data_UnmarshalBinary db Data_New = (Ok tt, data) ->
    x_pending x (Header_Height (sh_Header header)) /\
    (Header_Height (sh_Header header) = LastBlockHeight (x_state x) + 1 -> x_made x header data).

(** The same place once a block of the next height is pending. *)
Definition settled (x : site) : site :=
  MkSite (x_chain x) (x_state x) (x_genesis x) (x_key x) (x_bytes x) (eq (LastBlockHeight (x_state x) + 1)).

(** What was submitted is recorded under other keys. *)
Definition free_key (k : string) : Prop := k <> headerKey /\ k <> dataKey.
Definition base_ok {T} (pb : pendingBase C T) : Prop := free_key (metaKey pb) /\ 0 <= lastHeight pb.
Definition keys_ok (m : Manager ST PK C) : Prop := base_ok (pendingHeaders m) /\ base_ok (pendingData m).

Record here (x : site) (e : E) : Prop := {
  hr_chain : chain_part (e_contents e) ≡ x_chain x;
  hr_state : e_lastState e = Some (x_state x);
  hr_genesis : e_genesis e = x_genesis x;
  hr_bytes : e_signatureBytes e = x_bytes x;
  hr_key : sg_key <$> e_signer e = Some (x_key x);
  hr_info : forall info, e_lastBlockInfo e = Some info -> info_ok x info;
  hr_pending : pending_ok x (e_contents e);
  hr_keys : keys_ok (e_mgr e);
  hr_tracking : tracking_inv (e_tracking e);
  hr_sequencer : sq_wf (e_sequencer e) }.

(** ** Steps that stay *)

Section stay.
Context (x : site) (Hx : site_wf x).
#[local] Abbreviation calm m P := (stable (here x) m P).
#[local] Abbreviation quiet m := (stable (here x) m (fun _ => True)).

Lemma here_same e e' :
  e_contents e' ≡ e_contents e -> e_lastState e' = e_lastState e -> e_genesis e' = e_genesis e ->
  e_signatureBytes e' = e_signatureBytes e -> e_signer e' = e_signer e -> e_lastBlockInfo e' = e_lastBlockInfo e ->
  pendingHeaders (e_mgr e') = pendingHeaders (e_mgr e) -> pendingData (e_mgr e') = pendingData (e_mgr e) ->
  e_tracking e' = e_tracking e -> e_sequencer e' = e_sequencer e -> here x e -> here x e'.
Proof.
  intros E1 E2 E3 E4 E5 E6 E7 E7' E8 E9 [A1 A2 A3 A4 A5 A6 A7 A8 A9 A10].
  split; rewrite ?E2, ?E3, ?E4, ?E5, ?E6, ?E8, ?E9; try done.
  - by rewrite E1.
  - intros hb db header data. rewrite !(same_meta _ _ E1). apply A7.
  - unfold keys_ok. by rewrite E7, E7'.
Qed.

Lemma quiet_modify f : (forall e, here x e -> here x (f e)) -> quiet (modify f : EM' unit).
Proof. apply stable_modify. Qed.

Lemma quiet_clock {A} (f : V -> A * V) : quiet (on_clock f : EM' A).
Proof. intros e He. apply wp_zoom, wp_infallible. split; [|done]. by apply (here_same e). Qed.
Lemma quiet_exec {A} (m : M EX string A) : quiet (on_exec m : EM' A).
Proof. intros e He. apply wp_zoom. unfold wp. destruct (wrap EExec m (e_exec e)). split; [|done]. by apply (here_same e). Qed.
Lemma quiet_broadcast m : quiet (on_broadcast m : EM' unit).
Proof. intros e He. apply wp_zoom. unfold wp. destruct (wrap EMsg m (e_broadcast e)). split; [|done]. by apply (here_same e). Qed.
Lemma quiet_raft {A} (m : M R string A) : quiet (on_raft m : EM' A).
Proof.
  intros e He. unfold on_raft, wp. destruct (e_raft e) as [r|]; [|done]. destruct (m r). split; [|done]. by apply (here_same e).
Qed.
Lemma quiet_has_raft : quiet (has_raft : EM' bool).
Proof. by apply stable_gets. Qed.
Lemma quiet_critical err : quiet (modify (sendCriticalError err) : EM' unit).
Proof. apply quiet_modify. intros e He. unfold sendCriticalError. repeat case_match; try done; by apply (here_same e). Qed.

Lemma calm_or_critical {A} (m : EM' A) P : calm m P -> calm (or_critical m) P.
Proof.
  intros Hm. eapply stable_bind; [by apply stable_attempt|]. intros [a|err] Ha; [by apply stable_ret, Ha|].
  eapply stable_bind; [apply quiet_critical|]. intros _ _. apply stable_throw.
Qed.

Lemma calm_read {A} (m : M ST store_error A) f (P : A -> Prop) :
  reads m f -> (forall e a, here x e -> f (e_contents e) = Ok a -> P a) -> calm (on_store m : EM' A) P.
Proof.
  intros Hm HP e He. apply wp_zoom, wp_wrap. eapply wp_mono; [apply Hm|]. intros r st (Hc & _ & Hr).
  split; [by apply (here_same e)|]. intros a Ha. destruct Hr as [->|(_ & err & -> & _)]; [|done].
  eapply HP; [exact He|]. unfold e_contents. destruct (f (bs_contents (e_store e))); simpl in Ha; congruence.
Qed.
Lemma quiet_read {A} (m : M ST store_error A) f : reads m f -> quiet (on_store m : EM' A).
Proof. intros Hm. by eapply calm_read. Qed.

Lemma calm_signer {A} (m : M SG string A) (P : A -> Prop) :
  (forall g, sg_key g = x_key x -> wp m (fun r g' => sg_key g' = sg_key g /\ match r with Ok a => P a | Err _ => True end) g) ->
  calm (on_signer m : EM' A) P.
Proof.
  intros Hm e He. pose proof (hr_key _ _ He) as Hk. unfold on_signer, wp. destruct (e_signer e) as [g|] eqn:Hg; [|done].
  injection Hk as Hk. specialize (Hm g Hk). unfold wp in Hm. destruct (m g) as [a g']. destruct Hm as [Hk' Ha]. cbn [fst snd] in *.
  split.
  - destruct He as [A1 A2 A3 A4 A5 A6 A7 A8 A9 A10]. split; try done. simpl. congruence.
  - intros a' Ha'. by destruct a; simplify_eq/=.
Qed.

Lemma calm_GetPublic : calm (on_signer DASubmitter.sg_GetPublic : EM' PK) (fun pk => pk = x_key x).
Proof. apply calm_signer. intros g <-. eapply wp_mono; [apply GetPublic_law|]. intros [pk|] g'; naive_solver. Qed.
Lemma calm_GetAddress : calm (on_signer DASubmitter.sg_GetAddress : EM' bytes) (fun a => KeyAddress (x_key x) = Some a).
Proof. apply calm_signer. intros g <-. eapply wp_mono; [apply GetAddress_law|]. intros [pk|] g'; naive_solver. Qed.
Lemma calm_Sign b : calm (on_signer (DASubmitter.sg_Sign b) : EM' bytes) (fun sig => pk_Verify (x_key x) b sig = Ok true).
Proof. apply calm_signer. intros g <-. eapply wp_mono; [apply Sign_law|]. intros [pk|] g'; naive_solver. Qed.

Lemma here_sequencer q e : sq_wf q -> here x e -> here x (set_e_sequencer q e).
Proof. intros Hq [A1 A2 A3 A4 A5 A6 A7 A8 A9 A10]. by split. Qed.

Lemma quiet_seq {A} (m : M Q string A) : (forall q, sq_wf q -> wp m (fun _ q' => sq_wf q') q) -> quiet (on_seq m : EM' A).
Proof.
  intros Hm e He. apply wp_zoom, wp_wrap. eapply wp_mono; [apply Hm, He|]. intros r q Hq. split; [by apply here_sequencer|done].
Qed.

Lemma quiet_ack : quiet (ackCommittedBatch : EM' unit).
Proof.
  unfold ackCommittedBatch. destruct sq_AckBatch as [ack|] eqn:Hack; [|by apply stable_ret].
  eapply stable_bind; [apply stable_attempt, quiet_seq; intros q Hq; by eapply sq_ack_wf|]. intros [[]|err] _.
  - apply quiet_modify. intros e He. by apply (here_same e).
  - eapply stable_bind; [apply quiet_modify; intros e He; by apply (here_same e)|]. intros _ _. apply stable_throw.
Qed.

Lemma quiet_quorum : quiet (check_quorum : EM' unit).
Proof.
  eapply stable_bind; [apply quiet_has_raft|]. intros [] _; [|by apply stable_ret].
  eapply stable_bind; [apply quiet_raft|]. intros [] _; [by apply stable_ret|apply stable_throw].
Qed.


(** ** The pending limit *)

(** A store at the site. *)
Definition st_here (st : ST) : Prop := chain_part (bs_contents st) ≡ x_chain x /\ pending_ok x (bs_contents st).

Lemma here_st e : here x e -> st_here (e_store e).
Proof. intros [A1 _ _ _ _ _ A7 _ _ _]. by split. Qed.
Lemma here_store st e : st_here st -> here x e -> here x (set_e_store st e).
Proof. intros [? ?] [A1 A2 A3 A4 A5 A6 A7 A8 A9 A10]. by split. Qed.

Lemma st_here_same st st' : bs_contents st' ≡ bs_contents st -> st_here st -> st_here st'.
Proof.
  intros Hc [Hs Hp]. split; [by rewrite Hc|]. intros hb db header data. rewrite !(same_meta _ _ Hc). apply Hp.
Qed.
Lemma st_here_meta k v st st' :
  k <> headerKey -> k <> dataKey -> bs_contents st' ≡ with_meta k v (bs_contents st) -> st_here st -> st_here st'.
Proof.
  intros Hh Hd Hc [Hs Hp]. split; [by rewrite Hc|]. intros hb db header data. rewrite !(same_meta _ _ Hc). cbn [with_meta c_meta].
  rewrite !upd_ne by done. apply Hp.
Qed.

Lemma st_read {A} (m : M ST store_error A) f : reads m f -> stable st_here (on_st m) (fun _ => True).
Proof. intros Hm st Hst. apply wp_wrap. eapply wp_mono; [apply Hm|]. intros r st' (Hc & _). split; [by eapply st_here_same|done]. Qed.

Section base.
Context {T : Type}.
Definition pb_here (p : pendingBase C T * ST) : Prop := st_here p.2 /\ base_ok p.1.

Lemma pb_store {A} (m : M ST cache_error A) : stable st_here m (fun _ => True) -> stable pb_here (p_store m) (fun _ => True).
Proof.
  intros Hm. apply (stable_zoom _ snd _ st_here); [by intros p [? _]| |done]. intros p st [_ Hk] Hst. by split.
Qed.

Lemma pb_numPending : stable pb_here (numPending (T := T)) (fun _ => True).
Proof.
  eapply stable_bind; [apply stable_attempt, pb_store, (st_read _ _ Height_law)|]. intros [h|e] _; [|by apply stable_ret].
  eapply stable_bind; [apply stable_look|]. intros lsh _. by apply stable_ret.
Qed.

Lemma pb_setLast h : 0 <= h -> stable pb_here (setLastSubmittedHeight (T := T) h) (fun _ => True).
Proof.
  intros Hh [pb st] (Hst & [Hk1 Hk2] & Hl). unfold setLastSubmittedHeight. apply wp_bind, wp_gets. cbn [fst snd].
  destruct (_ <? _); [|by apply wp_ret]. apply wp_bind, wp_modify, wp_bind, wp_gets, wp_bind, wp_attempt, wp_zoom, wp_wrap.
  cbn [fst snd]. eapply wp_mono; [apply SetMetadata_law|]. intros r st' [_ Hr]. apply wp_ret. split; [|done].
  split; [|done]. cbn [fst snd]. destruct r as [[]|e]; [by eapply (st_here_meta (metaKey pb))|].
  destruct Hr as [Hr _]. by eapply st_here_same.
Qed.
End base.

Lemma st_fetchData h : is_u64 h -> stable st_here (fetchData h) (fun _ => True).
Proof.
  intros Hh. eapply stable_bind; [by apply (st_read _ _ (GetBlockData_law h Hh))|]. intros b _.
  eapply stable_bind; [by apply stable_lift with (P := fun _ => True)|]. intros h' _. destruct (_ =? 0); [apply stable_throw|by apply stable_ret].
Qed.

Lemma pb_advance hs : Forall is_u64 hs -> stable pb_here (advance_loop hs) (fun _ => True).
Proof.
  induction 1 as [|h hs Hh Hhs IH]; simpl; [by apply stable_ret|].
  eapply stable_bind; [by apply stable_attempt, pb_store, st_fetchData|]. intros [d|e] _.
  - destruct (_ <? _); [by apply stable_ret|]. eapply stable_bind; [apply pb_setLast, Hh|done].
  - destruct e; try (by apply stable_ret). apply stable_throw.
Qed.

Lemma pb_NumPendingData : stable pb_here NumPendingData (fun _ => True).
Proof.
  eapply stable_bind; [|intros; apply pb_numPending]. instantiate (1 := fun _ => True).
  intros [pb st] (Hst & Hk & Hl). apply wp_bind, wp_attempt, wp_zoom, wp_wrap. cbn [fst snd].
  eapply wp_mono; [apply Height_law|]. intros r st' (Hc & _ & Hr).
  assert (Hp : pb_here (pb, st')) by (split; [by eapply st_here_same|done]).
  destruct r as [h|e]; cbn [map_err]; [|by apply wp_ret]. apply wp_bind, wp_gets. cbn [fst snd]. apply pb_advance; [|done].
  destruct Hr as [Hr|(_ & e & ? & _)]; [|done]. pose proof (contents_u64 st h (eq_sym Hr)) as Hu. unfold is_u64 in *.
  apply list.Forall_forall. intros y Hy%elem_of_z_range. unfold is_u64. simpl in Hl. lia.
Qed.

Lemma quiet_cache {A} (m : M (Manager ST PK C) cache_error A) :
  stable (fun mg => st_here (mgr_store mg) /\ keys_ok mg) m (fun _ => True) -> quiet (on_cache m : EM' A).
Proof.
  intros Hm e He. apply wp_zoom, wp_wrap. eapply wp_mono; [apply Hm; split; [by apply here_st|apply He]|].
  intros r mg [[[Hc Hp] Hk] _]. split; [|done]. destruct He as [A1 A2 A3 A4 A5 A6 A7 A8 A9 A10]. by split.
Qed.

Lemma quiet_limit : quiet (pending_limit : EM' bool).
Proof.
  eapply stable_bind; [apply stable_look|]. intros max _. destruct (_ <=? 0); [by apply stable_ret|].
  eapply stable_bind; [apply quiet_modify; intros e He; by apply (here_same e)|]. intros _ _.
  eapply stable_bind; [apply stable_look|]. intros counter _. destruct (negb _); [by apply stable_ret|].
  eapply stable_bind; [apply quiet_cache|intros n _].
  { apply (stable_zoom _ _ _ pb_here); [by intros mg (? & ? & ?)| |apply pb_numPending].
    intros mg [pb st] (_ & _ & Hd) [? ?]. by split. }
  eapply stable_bind; [apply quiet_cache|intros n' _; by apply stable_ret].
  apply (stable_zoom _ _ _ pb_here); [by intros mg (? & ? & ?)| |apply pb_NumPendingData].
  intros mg [pb st] (_ & Hh & _) [? ?]. by split.
Qed.

(** ** The pending block *)

(** Where a block of the next height is read or written. *)
Definition settles (e : E) (header : SignedHeader PK) (data : Data) : Prop := x_made x header data /\ here (settled x) e.

Lemma here_settled e st : here x e -> chain_part (bs_contents st) ≡ x_chain x -> pending_ok (settled x) (bs_contents st) ->
  here (settled x) (set_e_store st e).
Proof. intros [A1 A2 A3 A4 A5 A6 A7 A8 A9 A10] Hc Hp. by split. Qed.

Lemma getPendingBlock_spec e :
  here x e -> wp getPendingBlock (fun r e' => here x e' /\ forall header data, r = Ok (Some (header, data)) ->
    Header_Height (sh_Header header) = LastBlockHeight (x_state x) + 1 -> settles e' header data) e.
Proof.
  intros He. pose proof (here_st _ He) as Hst. unfold getPendingBlock. apply wp_bind, wp_attempt, wp_zoom, wp_wrap.
  eapply wp_mono; [apply GetMetadata_law|]. intros r1 s1 (C1 & _ & R1).
  assert (H1' : here x (set_e_store s1 e)) by (apply here_store; [by eapply st_here_same|done]).
  destruct r1 as [hb|e1]; cbn [map_err]; [|by repeat case_match; (apply wp_throw || apply wp_ret); split].
  destruct R1 as [R1|(_ & ? & ? & _)]; [|done].
  apply wp_bind, wp_attempt, wp_zoom, wp_wrap. eapply wp_mono; [apply GetMetadata_law|]. intros r2 s2 (C2 & _ & R2).
  assert (S2 : st_here s2) by by eapply st_here_same; [|apply (here_st _ H1')].
  assert (H2' : here x (set_e_store s2 (set_e_store s1 e))) by by apply here_store.
  destruct r2 as [db|e2]; cbn [map_err]; [|by repeat case_match; (apply wp_throw || apply wp_ret); split].
  destruct R2 as [R2|(_ & ? & ? & _)]; [|done]. change (e_store (set_e_store s1 e)) with s1 in R2, C2.
  assert (M1 : c_meta (bs_contents s2) headerKey = Ok hb) by by rewrite (same_meta _ _ C2), (same_meta _ _ C1).
  assert (M2 : c_meta (bs_contents s2) dataKey = Ok db) by by rewrite (same_meta _ _ C2).
  destruct (SignedHeader_UnmarshalBinary hb SignedHeader_New) as [[[]|er] header] eqn:Uh; apply wp_bind, wp_lift_res; [|done].
  destruct (Data_UnmarshalBinary db Data_New) as [[[]|er] data] eqn:Ud; apply wp_bind, wp_lift_res; [|done].
  apply wp_ret. split; [done|]. intros header' data' [= <- <-] Hh.
  destruct (proj2 S2 _ _ _ _ M1 M2 Uh Ud) as [_ Hm]. split; [by apply Hm|]. apply here_settled; [done|apply S2|].
  intros hb' db' header' data' E1 E2 U1 U2. rewrite M1 in E1. rewrite M2 in E2. injection E1 as <-. injection E2 as <-.
  rewrite Uh in U1. rewrite Ud in U2. injection U1 as <-. injection U2 as <-. split; [symmetry; exact Hh|by apply Hm].
Qed.

Lemma stored_spec e :
  here x e -> wp (stored_block (LastBlockHeight (x_state x) + 1)) (fun r e' => here x e' /\
    forall header data, r = Ok (Some (header, data)) -> settles e' header data) e.
Proof.
  intros He. unfold stored_block. wp_read. destruct (negb _); [by apply wp_ret|]. apply wp_bind, wp_attempt.
  eapply wp_mono; [by apply getPendingBlock_spec|]. intros [[[header data]|]|err] e' [He' Hr].
  - apply wp_ret. split; [done|]. intros header' data' Hb.
    destruct (Z.eqb_spec (Header_Height (sh_Header header)) (LastBlockHeight (x_state x) + 1)); [|done].
    injection Hb as <- <-. by apply Hr.
  - by apply wp_ret.
  - repeat case_match; by first [apply wp_ret|apply wp_throw].
Qed.

(** Saving writes the two encodings, or fails and writes nothing. *)
Lemma save_writes e header data :
  wp (savePendingBlock header data) (fun r e' => exists s, e' = set_e_store s e /\
    match r with
    | Ok _ => exists hb db, marshal_signed_header header = Ok hb /\ Data_MarshalBinary clean_data clean_metadata data = Ok db /\
        bs_contents s ≡ apply_batch (e_contents e) [StMeta headerKey hb; StMeta dataKey db]
    | Err _ => bs_contents s ≡ e_contents e
    end) e.
Proof.
  assert (Hid : e = set_e_store (e_store e) e) by (destruct e as [[] ]; reflexivity).
  unfold savePendingBlock.
  destruct (marshal_signed_header header) as [hb|er] eqn:Hhb; apply wp_bind, wp_lift_res; [|exists (e_store e); by split]. cbn [map_err].
  destruct (Data_MarshalBinary clean_data clean_metadata data) as [db|er] eqn:Hdb; apply wp_bind, wp_lift_res;
    [|exists (e_store e); by split]. cbn [map_err].
  apply (wp_new_batch e_store set_e_store EStore); [|by intros s ? ?; exists s]. intros s1 b1 S1 B1.
  eapply (wp_stage e_store set_e_store EStore); [done|done|apply PutMeta_law|exact B1|done| |by intros s ? ?; exists s].
  intros s2 b2 l2 S2 -> B2.
  eapply (wp_stage e_store set_e_store EStore); [done|done|apply PutMeta_law|exact B2|done| |by intros s ? ?; exists s].
  intros s3 b3 l3 S3 -> B3.
  eapply (wp_commit e_store set_e_store EStore); [done|done|exact B3|by repeat constructor|done| |by intros s ? ?; exists s].
  intros s4 C4. exists s4. split; [done|]. by exists hb, db.
Qed.

(** The encodings of a block made here are those of a pending block. *)
Lemma pending_written header data hb db (c : contents PK) :
  x_made x header data -> marshal_signed_header header = Ok hb -> Data_MarshalBinary clean_data clean_metadata data = Ok db ->
  c_meta c headerKey = Ok hb -> c_meta c dataKey = Ok db -> pending_ok (settled x) c.
Proof.
  intros Hm Hhb Hdb M1 M2 hb' db' header' data'. rewrite M1, M2. intros [= <-] [= <-] Uh Ud.
  pose proof (mo_header_wf _ _ _ _ _ _ Hm) as W1. pose proof (mo_signer_wf _ _ _ _ _ _ Hm) as W2.
  pose proof (mo_data_wf _ _ _ _ _ _ Hm) as W3. pose proof Hhb as Hhb'.
  unfold marshal_signed_header in Hhb. rewrite (signed_header_decode _ _ _ _ _ SignedHeader_New _ W1 W2 Hhb) in Uh.
  rewrite (data_decode _ _ _ Data_New _ W3 Hdb) in Ud. injection Uh as <-. injection Ud as <-.
  split; [symmetry; exact (mo_height _ _ _ _ _ _ Hm)|]. intros _. by eapply made_norm.
Qed.

Lemma save_spec e header data :
  here x e -> x_made x header data ->
  wp (savePendingBlock header data) (fun r e' => here x e' /\ (r = Ok tt -> here (settled x) e')) e.
Proof.
  intros He Hm. eapply wp_mono; [apply save_writes|]. intros [[]|er] e' (s & -> & Hr).
  - destruct Hr as (hb & db & Hhb & Hdb & C4).
    assert (Hc : chain_part (bs_contents s) ≡ x_chain x) by (etrans; [apply chain_part_proper, C4|]; apply He).
    assert (Hp : pending_ok (settled x) (bs_contents s))
      by (eapply pending_written; [exact Hm|exact Hhb|exact Hdb|by rewrite (same_meta _ _ C4)..]).
    split; [|intros _; by apply here_settled]. apply here_store; [|done]. split; [done|].
    intros hb' db' header' data' E1 E2 U1 U2. destruct (Hp _ _ _ _ E1 E2 U1 U2) as [<- Hmade]. split; [apply (sw_pending _ Hx)|done].
  - split; [|done]. apply here_store; [|done]. eapply st_here_same; [exact Hr|by apply here_st].
Qed.

(** ** New blocks *)

Lemma quiet_RetrieveBatch : quiet (RetrieveBatch : EM' _).
Proof.
  eapply stable_bind; [apply stable_look|]. intros e _. eapply stable_bind; [apply quiet_seq; intros q Hq; by apply sq_next_wf|].
  intros o _. by apply stable_ret.
Qed.

Context (Hroom : LastBlockHeight (x_state x) + 1 < two64).

Lemma last_u64 : is_u64 (LastBlockHeight (x_state x)).
Proof. apply (sw_state _ Hx). Qed.

Lemma calm_last : calm (last_block (LastBlockHeight (x_state x) + 1) : EM' _) (info_ok x).
Proof.
  pose proof last_u64 as Hu. unfold is_u64 in Hu.
  assert (Hsub : sub64 (LastBlockHeight (x_state x) + 1) 1 = LastBlockHeight (x_state x)) by (rewrite sub64_small; lia).
  eapply (stable_bind _ _ _ (fun o => forall info, o = Some info -> info_ok x info)); [by apply stable_gets, hr_info|].
  intros [info|] Hi; [by apply stable_ret, Hi|]. rewrite Hsub.
  eapply (stable_bind _ _ _ (fun b => x_last x = Ok b)).
  { eapply calm_read; [by apply GetBlockData_law|]. intros e b He Hb. rewrite <- Hb. unfold x_last.
    symmetry. apply (same_block _ _ (hr_chain _ _ He)). lia. }
  intros [h d] Hl. eapply stable_bind; [eapply quiet_read; by apply GetSignature_law|]. intros sig _. apply stable_ret.
  intros Hs. split; [by eapply sw_last|]. intros h' d' Hl'. rewrite Hl in Hl'. by injection Hl' as <- <-.
Qed.

Lemma calm_signer_info p :
  calm (signer_info p : EM' _) (fun i => i.1 = Some (x_key x) /\ KeyAddress (x_key x) = Some (sl p)).
Proof.
  intros e He. unfold signer_info. wp_read. pose proof (hr_key _ _ He) as Hk. destruct (e_signer e) as [g|]; [|done].
  revert e He Hk. enough (Hm : forall vh, calm
    (pubKey ← on_signer DASubmitter.sg_GetPublic;
     addr ← on_signer DASubmitter.sg_GetAddress;
     if negb (bytes_eqb addr (sl p)) then throw ErrNotProposer else
     validatorHash ← lift_res (map_err EProvider (vh p (Some pubKey)));
     mret (Some pubKey, validatorHash) : EM' (option PK * slice))
     (fun i => i.1 = Some (x_key x) /\ KeyAddress (x_key x) = Some (sl p))) by (intros e He _; by apply Hm).
  intros vh. eapply stable_bind; [apply calm_GetPublic|]. intros pk ->. eapply stable_bind; [apply calm_GetAddress|]. intros a Ha.
  destruct (bytes_eqb a (sl p)) eqn:Hab; [|apply stable_throw]. apply bytes_eqb_spec in Hab as ->.
  eapply stable_bind; [by apply stable_lift with (P := fun _ => True)|]. intros h _. by apply stable_ret.
Qed.

(** The parts of a new block. *)
Lemma created_made info time txs vh p :
  info_ok x info -> (~ x_started x -> info = MkLastBlockInfo None None None) -> KeyAddress (x_key x) = Some (sl p) ->
  sl p = sl (NextProposerAddress (x_state x)) ->
  let g := x_genesis x in
  let data := MkData (Some (MkMetadata (g_ChainID g) (LastBlockHeight (x_state x) + 1) (u64 time) (info_dataHash info))) (Some txs) in
  let dataHash := if zlen txs =? 0 then DataHashForEmptyTxs else DACommitment data in
  let header := MkHeader (MkBaseHeader (LastBlockHeight (x_state x) + 1) (u64 time) (g_ChainID g)) (st_Version (x_state x))
                  (info_headerHash info) (Some dataHash) (st_AppHash (x_state x)) vh p None None in
  x_made x (MkSignedHeader header (info_signature info) (MkSigner (Some (x_key x)) p None) None None) data.
Proof.
  intros Hi Hn Hk Hp g data dataHash header. pose proof last_u64 as Hu. destruct (sw_state _ Hx) as (_ & _ & _ & Hv & _).
  assert (Hdh : DACommitment data = dataHash).
  { unfold dataHash. destruct (Z.eqb_spec (zlen txs) 0) as [Hz|]; [|done]. apply zlen_zero in Hz. subst txs. apply empty_commitment. }
  assert (Hh : is_u64 (LastBlockHeight (x_state x) + 1)) by (unfold is_u64 in *; lia).
  split; try done; cbn [sh_Header sh_Signer header].
  - symmetry. apply (sw_chain _ Hx).
  - cbn. destruct (decide (x_started x)) as [Hs|Hs]; [by apply Hi|]. rewrite (Hn Hs). by rewrite (sw_first _ Hx Hs).
  - cbn. by rewrite Hk.
  - split; [exact Hh|]. split; [apply u64_range|]. by split.
  - by left.
  - intros m [= <-]. split; [exact Hh|apply u64_range].
  - unfold Validation.Validate. cbn [data d_Metadata sh_Header header Header_ChainID Header_Height Header_Time h_Base b_ChainID b_Height
      m_ChainID m_Height Txs DataHash]. rewrite bool_decide_true by done. unfold Metadata_Time, Header_Time. cbn. rewrite !Z.eqb_refl.
    cbn. change (DACommitment (MkData None (Some txs))) with (DACommitment data). rewrite Hdh. unfold slice_equal. by rewrite bytes_eqb_refl.
  - intros h d Hs Hl. cbn. destruct (Hi Hs) as [_ Hd]. specialize (Hd h d Hl). unfold slice_equal. cbn. rewrite Hd.
    by rewrite bytes_eqb_refl.
Qed.

Lemma calm_CreateBlock bd : calm (CreateBlock (LastBlockHeight (x_state x) + 1) bd : EM' _) (fun b => x_made x b.1 b.2).
Proof.
  intros e He. unfold CreateBlock. wp_read. unfold getLastState. rewrite (hr_state _ _ He), (hr_genesis _ _ He).
  change (default zero_state (Some (x_state x))) with (x_state x).
  set (p := if slen _ =? 0 then _ else _).
  assert (Hp : sl p = sl (NextProposerAddress (x_state x))).
  { unfold p. pose proof (sw_proposer _ Hx) as Hne. apply slen_zero_false in Hne. by rewrite Hne. }
  clearbody p. revert e He. apply stable_bind with (P := fun info => info_ok x info /\ (~ x_started x -> info = MkLastBlockInfo None None None)).
  { unfold x_started. destruct (Z.ltb_spec (g_InitialHeight (x_genesis x)) (LastBlockHeight (x_state x) + 1)).
    - eapply stable_mono; [apply calm_last|]. intros info Hi. split; [done|lia].
    - apply stable_ret. split; [|done]. unfold info_ok, x_started. lia. }
  intros info [Hi Hn]. eapply stable_bind; [apply calm_signer_info|]. intros [pk vh] [Hpk Hk]. cbn [fst] in Hpk. subst pk. apply stable_ret. cbn [fst snd].
  destruct (_ <? _); by apply created_made.
Qed.

Lemma next_spec e :
  here x e -> wp (next_block (LastBlockHeight (x_state x) + 1)) (fun r e' => here x e' /\
    forall header data, r = Ok (Some (header, data)) -> settles e' header data) e.
Proof.
  intros He. apply wp_bind. eapply wp_mono; [by apply stored_spec|]. intros [[[header data]|]|err] e1 [H1' R1]; [| |done].
  - apply wp_ret. split; [done|]. intros header' data' [= <- <-]. by apply R1.
  - apply wp_bind. eapply wp_mono; [by apply quiet_RetrieveBatch|]. intros [[bd|]|err] e2 [H2' _]; [|by apply wp_ret|done].
    apply wp_bind. eapply wp_mono; [by apply calm_CreateBlock|]. intros [b|err] e3 [H3' R3]; [|done]. specialize (R3 b eq_refl).
    apply wp_bind. eapply wp_mono; [by apply save_spec|]. intros [[]|err] e4 [H4' R4]; [|done]. apply wp_ret.
    split; [done|]. intros header data [= ->]. split; [exact R3|by apply R4].
Qed.

(** ** Execution and signature *)

Definition executes (header : Header) (data : Data) : ExecuteResult :=
  exec_result (data_txs data) (Header_Height header) (Header_Time header) (sl (st_AppHash (x_state x))).

Lemma calm_execute n header data :
  (0 < n)%nat -> is_u64 (Header_Height header) ->
  calm (execute_attempts n (data_txs data) header (x_state x) : EM' _) (fun r => r = executes header data).
Proof.
  intros Hn Hh. induction n as [|n IH]; [lia|]. cbn [execute_attempts].
  apply stable_bind with (P := fun r => forall a, r = Ok a -> a = executes header data).
  { apply stable_attempt. intros e He. apply wp_zoom, wp_wrap. eapply wp_mono; [by apply ExecuteTxs_law|]. intros r x' [_ Hr].
    split; [by apply (here_same e)|]. intros a Ha. destruct r; [|done]. injection Ha as <-. apply Hr. }
  intros [a|err] Ha; [by apply stable_ret, Ha|]. destruct (Nat.eqb_spec n 0); [apply stable_throw|].
  eapply stable_bind; [apply quiet_clock|]. intros [] _; [apply stable_throw|]. apply IH. lia.
Qed.

Lemma calm_ApplyBlock header data :
  is_u64 (Header_Height header) ->
  calm (ApplyBlock header data : EM' _) (fun st => let r := executes header data in
    st = NextState (x_state x) header (UpdatedStateRoot r) (res_NextProposer r)).
Proof.
  intros Hh e He. unfold ApplyBlock. wp_read. unfold getLastState. rewrite (hr_state _ _ He).
  change (default zero_state (Some (x_state x))) with (x_state x). revert e He.
  eapply stable_bind; [apply calm_or_critical, calm_execute; [|done]|].
  { unfold MaxRetriesBeforeHalt, Submitter.MaxRetriesBeforeHalt. lia. }
  intros r ->. by apply stable_ret.
Qed.

Definition signed_by (header : Header) (sig : slice) : Prop :=
  exists bz s, x_bytes x header = Ok bz /\ sig = Some s /\ pk_Verify (x_key x) bz s = Ok true.

Lemma calm_signHeader header : calm (signHeader header : EM' slice) (signed_by header).
Proof.
  intros e He. unfold signHeader. wp_read. pose proof (hr_key _ _ He) as Hk. destruct (e_signer e) as [g|]; [|done].
  rewrite (hr_bytes _ _ He). clear Hk. revert e He.
  apply stable_bind with (P := fun bz => x_bytes x header = Ok bz).
  { apply stable_lift. intros bz. by destruct (x_bytes x header) as [b|]; simpl; intros [= <-]. }
  intros bz Hb. eapply stable_bind; [apply calm_Sign|]. intros s Hs. apply stable_ret. by exists bz, s.
Qed.

Lemma calm_sequence (header : SignedHeader PK) :
  calm (or_critical (zoom e_tracking set_e_tracking (wrap ETypes (AssertValidSequence (x_state x) header))) : EM' unit)
       (fun _ => sl (st_LastHeaderHash (x_state x)) <> [] -> follows (x_state x) header).
Proof.
  apply calm_or_critical. intros e He. apply wp_zoom, wp_wrap. eapply wp_mono; [apply SyncerFacts.sequence_spec, He|].
  intros r t (Ht & _ & Hr). split; [destruct He; by split|]. intros [] Ha Hne. destruct r as [[]|]; [|done]. by apply Hr.
Qed.

(** ** One block *)

(** A block that was produced here, at a DA height of the sequencer. *)
Record produced (header : SignedHeader PK) (data : Data) (da : Z) : Prop := {
  pd_made : x_made x header data;
  pd_signed : signed_by (sh_Header header) (sh_Signature header);
  pd_follows : sl (st_LastHeaderHash (x_state x)) <> [] -> follows (x_state x) header;
  pd_da : is_u64 da }.

Definition produced_state (header : SignedHeader PK) (data : Data) (da : Z) : State :=
  let r := executes (sh_Header header) data in
  with_DAHeight da (NextState (x_state x) (sh_Header header) (UpdatedStateRoot r) (res_NextProposer r)).

(** The place after it. *)
Definition x_after (header : SignedHeader PK) (data : Data) (da : Z) : site :=
  let st := produced_state header data da in
  MkSite (apply_batch (x_chain x) (block_batch header data st)) st (x_genesis x) (x_key x) (x_bytes x) (fun _ => True).

Lemma produced_height header data da : LastBlockHeight (produced_state header data da) = Header_Height (sh_Header header).
Proof. done. Qed.

Lemma after_last header data da :
  x_last (x_after header data da) = Ok (norm_signed_header header SignedHeader_New, norm_data data).
Proof. unfold x_last. cbn [x_after x_state x_chain]. rewrite produced_height. cbn. by rewrite upd_eq. Qed.

Lemma after_wf header data da : produced header data da -> site_wf (x_after header data da).
Proof.
  intros [Hm Hs Hf Hd]. pose proof (mo_header_wf _ _ _ _ _ _ Hm) as Hh. pose proof (mo_height _ _ _ _ _ _ Hm) as Hn.
  destruct (sw_initial _ Hx) as [Hi Hle].
  assert (Hstarted : x_started (x_after header data da)).
  { unfold x_started. cbn [x_after x_state x_genesis]. rewrite produced_height, Hn. exact Hle. }
  split.
  - assert (Hst : state_wf (NextState (x_state x) (sh_Header header) (UpdatedStateRoot (executes (sh_Header header) data))
      (res_NextProposer (executes (sh_Header header) data)))) by (apply NextState_wf; [apply Hx|done]).
    destruct Hst as (A1 & A2 & A3 & A4 & A5). exact (conj A1 (conj A2 (conj Hd (conj A4 A5)))).
  - done.
  - apply (sw_chain _ Hx).
  - split; [exact Hi|]. cbn [x_after x_state x_genesis]. rewrite produced_height, Hn. cbn. lia.
  - done.
  - cbn. pose proof (sw_proposer _ Hx) as Hp. unfold cloneBytes. set (r := res_NextProposer _).
    destruct (0 <? slen r) eqn:Hr.
    + assert (Hz : (slen r =? 0) = false) by (apply Z.ltb_lt in Hr; apply Z.eqb_neq; lia). rewrite Hz, Hz. cbn. by apply slen_zero_false in Hz.
    + apply slen_zero_false in Hp. rewrite Hp, Hp. cbn. by apply slen_zero_false in Hp.
  - intros h d _. rewrite after_last. intros [= <- <-]. cbn [norm_signed_header sh_Header].
    rewrite Header_Hash_norm by apply Hm. done.
  - done.
Qed.

End stay.

(** ** Producing a block *)

Lemma settled_wf x : site_wf x -> site_wf (settled x).
Proof. intros []. by split. Qed.
Lemma here_unsettled x e : site_wf x -> here (settled x) e -> here x e.
Proof.
  intros Hx [A1 A2 A3 A4 A5 A6 A7 A8 A9 A10]. split; try done. intros hb db header data E1 E2 U1 U2.
  destruct (A7 _ _ _ _ E1 E2 U1 U2) as [Hp Hm]. split; [|done]. cbn in Hp. rewrite <- Hp. by apply sw_pending.
Qed.

Lemma set_store_same (e : E) : set_e_store (e_store e) e = e.
Proof. destruct e as [[]]. done. Qed.

Lemma ack_frame (e : E) :
  sq_wf (e_sequencer e) ->
  wp ackCommittedBatch (fun _ e' => exists q b, sq_wf q /\ e' = set_e_pendingBatchAck b (set_e_sequencer q e)) e.
Proof.
  intros Hq. unfold ackCommittedBatch. destruct sq_AckBatch as [ack|] eqn:Hack.
  - apply wp_bind, wp_attempt, wp_zoom, wp_wrap. eapply wp_mono; [by eapply sq_ack_wf|]. intros [[]|err] q Hq'; cbn [map_err].
    + apply wp_modify. by exists q, false.
    + apply wp_bind, wp_modify, wp_throw. by exists q, true.
  - apply wp_ret. exists (e_sequencer e), (e_pendingBatchAck e). split; [done|]. by destruct e.
Qed.

(** The store after a commit, with the executor still where it was. *)
Lemma here_committed x header data da st (e : E) :
  site_wf x -> here (settled x) e -> produced x header data da ->
  chain_part (bs_contents st) ≡ apply_batch (x_chain x) (block_batch header data (produced_state x header data da)) ->
  (forall k, c_meta (bs_contents st) k = c_meta (e_contents e) k) ->
  forall q b sig, sq_wf q ->
    here (x_after x header data da)
      (set_e_lastBlockInfo (Some (MkLastBlockInfo (st_LastHeaderHash (produced_state x header data da)) (Some (Data_Hash data)) sig))
        (set_e_pendingBatchAck b (set_e_sequencer q (setLastState (produced_state x header data da)
          (set_e_hasPendingBlock false (set_e_store st e)))))).
Proof.
  intros Hx [A1 A2 A3 A4 A5 A6 A7 A8 A9 A10] Hp Hc Hk q b sig Hq. split; try done.
  - intros info [= <-] _. split; [done|]. intros h d Hl. rewrite after_last in Hl. injection Hl as <- <-.
    cbn. by rewrite Data_Hash_norm.
  - intros hb db header' data'. unfold e_contents. cbn. rewrite !Hk. intros E1 E2 U1 U2.
    destruct (A7 _ _ _ _ E1 E2 U1 U2) as [Hh _]. split; [done|]. cbn in Hh.
    rewrite <- Hh, (mo_height _ _ _ _ _ _ (pd_made _ _ _ _ Hp)). lia.
Qed.

Lemma finish_spec x header data da sig (e : E) :
  site_wf x -> here (x_after x header data da) e -> produced x header data da ->
  wp (_ ← attempt (F := exec_error) (on_broadcast (bc_Header header));
      _ ← attempt (F := exec_error) (on_broadcast (bc_Data data));
      based ← gets e_basedSequencer;
      if (based : bool) then or_critical (on_exec (Submitter.SetFinal sig)) else mret tt)
     (fun _ e' => here (x_after x header data da) e') e.
Proof.
  intros Hx He Hp. set (y := x_after x header data da) in *.
  enough (Hs : stable (here y)
     (_ ← attempt (F := exec_error) (on_broadcast (bc_Header header));
      _ ← attempt (F := exec_error) (on_broadcast (bc_Data data));
      based ← gets e_basedSequencer;
      if (based : bool) then or_critical (on_exec (Submitter.SetFinal sig)) else mret tt : EM' unit) (fun _ => True)).
  { eapply wp_mono; [by apply Hs|]. by intros r e' [? _]. }
  eapply stable_bind; [apply stable_attempt, quiet_broadcast|]. intros _ _.
  eapply stable_bind; [apply stable_attempt, quiet_broadcast|]. intros _ _.
  eapply stable_bind; [apply stable_look|]. intros [] _; [apply calm_or_critical, quiet_exec|by apply stable_ret].
Qed.

Lemma quiet_propose x h header data : stable (here x) (propose h header data : EM' unit) (fun _ => True).
Proof.
  eapply stable_bind; [apply quiet_has_raft|]. intros [] _; [|by apply stable_ret].
  eapply stable_bind; [by apply stable_lift with (P := fun _ => True)|]. intros hb _.
  eapply stable_bind; [by apply stable_lift with (P := fun _ => True)|]. intros db _.
  eapply stable_bind; [apply stable_look|]. intros e _. apply quiet_raft.
Qed.

(** Committing a produced block. *)
Lemma produced_commit_spec x header data da (e : E) :
  site_wf x -> here (settled x) e -> produced x header data da ->
  let st := produced_state x header data da in
  wp (_ ← commit_block (Header_Height (sh_Header header)) header data (sh_Signature header) st;
      after_commit (Header_Height (sh_Header header)) header data (sh_Signature header) st)
     (fun _ e' => here x e' \/ here (x_after x header data da) e') e.
Proof.
  intros Hx He Hp st. pose proof (pd_made _ _ _ _ Hp) as Hm. pose proof (after_wf x Hx _ _ _ Hp) as Hw.
  assert (Hsame : forall s, same_store e_store e s -> here (settled x) (set_e_store s e))
    by (intros s Hs; apply here_store; [eapply st_here_same; [exact Hs|by apply here_st]|done]).
  apply wp_bind. apply (wp_stage_block e_store set_e_store EStore) with (h := LastBlockHeight (x_state x)); [done|done| | |done| |].
  - rewrite <- (sw_height _ Hx). apply (same_height _ _ (hr_chain _ _ He)).
  - rewrite (mo_height _ _ _ _ _ _ Hm). lia.
  - intros s b S1 B1. apply Hsame in S1. apply wp_bind. eapply wp_mono; [by apply quiet_propose|].
    intros [[]|err] e2 [H2' _]; [|left; by apply here_unsettled]. rewrite <- (set_store_same e2) at 1.
    eapply (wp_commit e_store set_e_store EStore); [done|done|exact B1| |done| |].
    + apply block_batch_wf; [apply Hm..|apply Hw].
    + intros s' C1. unfold after_commit. apply wp_bind, wp_modify, wp_bind, wp_modify, wp_bind, wp_attempt.
      eapply wp_mono; [apply ack_frame, H2'|]. intros _ e3 (q & bb & Hq & ->).
      apply wp_bind, wp_modify. eapply wp_mono; [apply (finish_spec x header data da); [done| |done]|by right].
      apply here_committed; try done.
      * etrans; [apply chain_part_proper, C1|]. rewrite chain_part_block. apply apply_batch_proper; [apply H2'|done].
      * intros k. apply (same_meta _ _ C1).
    + intros s' err S2. left. apply here_unsettled; [done|]. apply here_store; [|done].
      eapply st_here_same; [exact S2|by apply here_st].
  - intros s err S1. left. apply here_unsettled; [done|]. by apply Hsame.
Qed.

(** The block that is pending is executed, signed and committed. *)
Lemma make_spec x header data (e : E) :
  site_wf x -> LastBlockHeight (x_state x) + 1 < two64 -> here (settled x) e -> x_made x header data ->
  wp (_ ← check_quorum;
      newState ← ApplyBlock (sh_Header header) data;
      e ← gets id;
      let newState := with_DAHeight (sq_GetDAHeight (e_sequencer e)) newState in
      signature ← signHeader (sh_Header header);
      let header := set_Signature signature header in
      _ ← or_critical (zoom e_tracking set_e_tracking (wrap ETypes (AssertValidSequence (x_state x) header)));
      _ ← commit_block (LastBlockHeight (x_state x) + 1) header data signature newState;
      after_commit (LastBlockHeight (x_state x) + 1) header data signature newState)
     (fun _ e' => here x e' \/ exists header da, produced x header data da /\ here (x_after x header data da) e') e.
Proof.
  intros Hx Hroom He Hm. pose proof (mo_height _ _ _ _ _ _ Hm) as Hh. pose proof (mo_header_wf _ _ _ _ _ _ Hm) as Hwf.
  assert (Hback : forall e', here (settled x) e' -> here x e') by (intros; by apply here_unsettled).
  apply wp_bind. eapply wp_mono; [by apply quiet_quorum|]. intros [[]|err] e1 [H1' _]; [|left; auto].
  apply wp_bind. eapply wp_mono; [apply (calm_ApplyBlock (settled x)); [apply Hwf|done]|].
  intros [ns|err] e2 [H2' R2]; [|left; auto]. specialize (R2 ns eq_refl). cbv zeta in R2. wp_read.
  apply wp_bind. eapply wp_mono; [by apply (calm_signHeader (settled x))|]. intros [sig|err] e3 [H3' R3]; [|left; auto].
  specialize (R3 sig eq_refl). cbv zeta. set (header' := set_Signature sig header). set (da := sq_GetDAHeight (e_sequencer e2)).
  apply wp_bind. eapply wp_mono; [by apply (calm_sequence (settled x) header')|]. intros [[]|err] e4 [H4' R4]; [|left; auto].
  specialize (R4 tt eq_refl).
  assert (Hp : produced x header' data da).
  { split; [by apply made_signed|exact R3|exact R4|]. apply sq_height_wf, H2'. }
  rewrite <- Hh. subst ns. change (sh_Header header) with (sh_Header header'). change sig with (sh_Signature header') at 1 2.
  eapply wp_mono; [by apply (produced_commit_spec x header' data da)|]. intros r e' [He'|He']; [by left|right].
  by exists header', da.
Qed.

Lemma ProduceBlock_spec x (e : E) :
  site_wf x -> LastBlockHeight (x_state x) + 1 < two64 -> here x e ->
  wp ProduceBlock (fun _ e' => here x e' \/ exists header data da, produced x header data da /\ here (x_after x header data da) e') e.
Proof.
  intros Hx Hroom He. unfold ProduceBlock. pose proof (last_u64 x Hx) as Hu. unfold is_u64 in Hu.
  apply wp_bind. eapply wp_mono; [by apply quiet_clock|]. intros [[]|err] e1 [H1' _]; [by left| |by left].
  apply wp_bind. eapply wp_mono; [by apply quiet_quorum|]. intros [[]|err] e2 [H2' _]; [|by left].
  wp_read. apply wp_bind. eapply wp_mono with (P := fun _ e' => here x e').
  { destruct (e_pendingBatchAck e2); [|by apply wp_ret]. eapply wp_mono; [by apply quiet_ack|]. by intros r e' [? _]. }
  intros [[]|err] e3 H3'; [|by left]. wp_read. unfold getLastState. rewrite (hr_state _ _ H3').
  change (default zero_state (Some (x_state x))) with (x_state x). rewrite add64_small by lia.
  apply wp_bind. eapply wp_mono; [by apply quiet_limit|]. intros [[]|err] e4 [H4' _]; [by left| |by left].
  apply wp_bind. eapply wp_mono; [by apply next_spec|]. intros [[[header data]|]|err] e5 [H5' R5]; [|by left..].
  destruct (R5 header data eq_refl) as [Hm Hs]. eapply wp_mono; [by apply make_spec|].
  intros r e' [?|(h & da & ? & ?)]; [by left|right; by exists h, data, da].
Qed.

End facts.
