(* ===== verification/ExecutingRun.v ===== *)
(** * The chain an aggregator produces

    Whatever the sequencer, the executor, raft, the signer and the store
    answer, the chain of a running aggregator grows by blocks that were made,
    signed and executed in order. *)

From S2P Require Import Prelude Sha256 Datastore Types Serialization SerializationFacts Validation Store StoreFacts StoreAPI ChainWrites.
From S2P Require Import BlockCache Pending PendingFacts CacheManager DASubmitterFacts Sequencing Execution Replayer DecodeFacts.
From S2P Require Import DARetrieverFacts Syncer BlockFacts Executing ExecutingFacts.
From S2P Require Submitter.
From stdpp Require Import base gmap strings list numbers relations.
Open Scope Z_scope.
Import Executing.

Section run.
Context {ST PK EX Q SG R B V : Type} {C : Type -> Type}.
Context `{BlockStoreLaws ST PK} `{!PubKeysLaws PK} `{LRU C} `{ExecutionLaws EX} `{Submitter.Finalizer EX} `{SequencerLaws Q}.
Context `{!DASubmitter.SignerAPI SG PK} `{!SignerLaws (SG := SG) (PK := PK)} `{RaftNode R} `{!Broadcasters B PK} `{SyncEnv V}.
Context `{WireLaws}.
Context `{ProtoMsg pbVersion, ProtoMsg pbHeader, ProtoMsg pbSignedHeader, ProtoMsg pbMetadata, ProtoMsg pbData}.
Context `{!ProtoLaws pbHeader norm_pbHeader pbHeader_ok, !ProtoLaws pbSignedHeader norm_pbSignedHeader pbSignedHeader_ok,
          !ProtoLaws pbData norm_pbData pbData_ok, !ProtoEmptyData}.
Abbreviation E := (Executor ST PK EX Q SG R B V C).
Abbreviation site := (site (PK := PK)).

(** A step of the node: an iteration of the loop, with [txsAvailable], or a
    notification by the reaper. *)
Inductive exec_step : E * bool -> E * bool -> Prop :=
| step_loop ev e txs txs' e' : loop_step ev txs e = (Ok txs', e') -> exec_step (e, txs) (e', txs')
| step_notify e txs : exec_step (e, txs) (NotifyNewTransactions e, txs).

(** A produced block, with the DA height of the sequencer. *)
Definition pblock : Type := SignedHeader PK * Data * Z.

Definition next_site (x : site) (b : pblock) : site := x_after x b.1.1 b.1.2 b.2.
Definition site_after : site -> list pblock -> site := foldl next_site.

(** Every block was produced where the blocks before it lead. *)
Fixpoint produced_chain (x : site) (bs : list pblock) : Prop :=
  match bs with
  | [] => True
  | b :: bs' => produced x b.1.1 b.1.2 b.2 /\ produced_chain (next_site x b) bs'
  end.

Lemma site_after_cons x b bs : site_after x (b :: bs) = site_after (next_site x b) bs.
Proof. done. Qed.

Lemma produced_chain_snoc x bs b :
  produced_chain x (bs ++ [b]) <-> produced_chain x bs /\ produced (site_after x bs) b.1.1 b.1.2 b.2.
Proof. revert x. induction bs as [|b0 bs IH]; intros x; simpl; [tauto|]. rewrite IH. tauto. Qed.

Lemma next_height x b : produced x b.1.1 b.1.2 b.2 -> LastBlockHeight (x_state (next_site x b)) = LastBlockHeight (x_state x) + 1.
Proof. intros Hp. apply (mo_height _ _ _ _ _ _ (pd_made _ _ _ _ Hp)). Qed.

Lemma site_after_spec x bs :
  site_wf x -> produced_chain x bs ->
  site_wf (site_after x bs) /\ LastBlockHeight (x_state (site_after x bs)) = LastBlockHeight (x_state x) + zlen bs.
Proof.
  revert x. induction bs as [|b bs IH]; intros x Hx Hb; [split; [done|unfold zlen; simpl; lia]|]. destruct Hb as [Hp Hb].
  destruct (IH (next_site x b)) as [Hw Hh]; [by apply after_wf|done|]. split; [done|].
  rewrite site_after_cons, Hh, (next_height _ _ Hp). unfold zlen. simpl. lia.
Qed.

(** Every step stays or adds a block. *)
Lemma step_here x s s' :
  site_wf x -> LastBlockHeight (x_state x) + 1 < two64 -> here x s.1 -> exec_step s s' ->
  here x s'.1 \/ exists b, produced x b.1.1 b.1.2 b.2 /\ here (next_site x b) s'.1.
Proof.
  intros Hx Hroom He Hst. destruct Hst as [ev e txs txs' e' Hl|e txs]; cbn [fst] in *; [|left; by apply (here_same _ e)].
  assert (Hprod : forall txs0 : bool, wp (_ ← attempt (F := exec_error) ProduceBlock; mret txs0)
            (fun _ e' => here x e' \/ exists b : pblock, produced x b.1.1 b.1.2 b.2 /\ here (next_site x b) e') e).
  { intros txs0. apply wp_bind, wp_attempt. eapply wp_mono; [by apply ProduceBlock_spec|]. intros r e1 He1. apply wp_ret.
    destruct He1 as [|(h & d & da & ? & ?)]; [by left|right; by exists (h, d, da)]. }
  assert (Hw : wp (loop_step ev txs) (fun _ e' => here x e' \/ exists b : pblock, produced x b.1.1 b.1.2 b.2 /\ here (next_site x b) e') e).
  { unfold loop_step. wp_read. destruct ev.
    - destruct (_ && _); [by apply wp_ret; left|apply Hprod].
    - destruct (e_lazyMode e); [apply Hprod|by apply wp_ret; left].
    - wp_read. destruct (e_txNotify e); [|by apply wp_ret; left]. apply wp_bind, wp_modify, wp_ret. left. by apply (here_same _ e). }
  exact (wp_run _ _ _ _ _ Hw Hl).
Qed.

Lemma run_here x n s s' :
  site_wf x -> here x s.1 -> LastBlockHeight (x_state x) + Z.of_nat n < two64 -> nsteps exec_step n s s' ->
  exists bs, produced_chain x bs /\ (length bs <= n)%nat /\ here (site_after x bs) s'.1.
Proof.
  revert x s. induction n as [|n IH]; intros x s Hx He Hroom Hn; inversion Hn as [|? ? s1 ? Hst Hn']; subst; [by exists []|].
  destruct (step_here x s s1 Hx ltac:(lia) He Hst) as [He1|(b & Hp & He1)].
  - destruct (IH x s1 Hx He1 ltac:(lia) Hn') as (bs & Hb & Hl & Hh). exists bs. split_and!; [done|lia|done].
  - destruct (IH (next_site x b) s1) as (bs & Hb & Hl & Hh); [by apply after_wf|done|rewrite (next_height _ _ Hp); lia|done|].
    exists (b :: bs). split_and!; [done|simpl; lia|done].
Qed.

(** ** What can be read back *)

Lemma site_after_old x bs h :
  site_wf x -> produced_chain x bs -> h <= LastBlockHeight (x_state x) ->
  c_block (x_chain (site_after x bs)) h = c_block (x_chain x) h /\
  c_signature (x_chain (site_after x bs)) h = c_signature (x_chain x) h /\
  c_states (x_chain (site_after x bs)) h = c_states (x_chain x) h.
Proof.
  revert x. induction bs as [|b bs IH]; intros x Hx Hb Hh; [done|]. destruct Hb as [Hp Hb]. pose proof (next_height _ _ Hp) as Hn.
  destruct (IH (next_site x b)) as (A1 & A2 & A3); [by apply after_wf|done|lia|].
  rewrite site_after_cons, A1, A2, A3. pose proof (mo_height _ _ _ _ _ _ (pd_made _ _ _ _ Hp)) as Hbh. cbn. unfold upd.
  rewrite !decide_False by (rewrite ?produced_height; lia). done.
Qed.

Lemma site_after_new x bs i b :
  site_wf x -> produced_chain x bs -> bs !! i = Some b ->
  let c := x_chain (site_after x bs) in
  let h := LastBlockHeight (x_state x) + 1 + Z.of_nat i in
  c_block c h = Ok (norm_signed_header b.1.1 SignedHeader_New, norm_data b.1.2) /\
  c_signature c h = Ok (sl (sh_Signature b.1.1)) /\
  c_states c h = Ok (norm_state (x_state (site_after x (take (Datatypes.S i) bs)))).
Proof.
  revert x i. induction bs as [|b0 bs IH]; intros x i Hx Hb Hi; [done|]. destruct Hb as [Hp Hb].
  pose proof (next_height _ _ Hp) as Hn. pose proof (mo_height _ _ _ _ _ _ (pd_made _ _ _ _ Hp)) as Hbh.
  cbv zeta. destruct i as [|i]; simpl in Hi.
  - simplify_eq. destruct (site_after_old (next_site x b) bs (LastBlockHeight (x_state x) + 1)) as (A1 & A2 & A3);
      [by apply after_wf|done|lia|]. rewrite site_after_cons, Z.add_0_r, A1, A2, A3. cbn.
    by rewrite <- Hbh, !upd_eq.
  - destruct (IH (next_site x b0) i) as (A1 & A2 & A3); [by apply after_wf|done|done|].
    rewrite site_after_cons. rewrite Hn in A1, A2, A3.
    replace (LastBlockHeight (x_state x) + 1 + Z.of_nat (Datatypes.S i)) with (LastBlockHeight (x_state x) + 1 + 1 + Z.of_nat i) by lia.
    done.
Qed.

(** C1: An aggregator, however its sequencer, executor, signer, raft cluster,
    broadcasters and store answer and fail, and in whatever order its timers
    fire, only ever extends its chain, one block at a time: each block names
    the header and the data before it, has the next height, the chain id, the
    app hash and the proposer of the state, commits to its own transactions,
    does not go back in time, and carries a signature by the aggregator's key
    over its payload; what is stored per height is that block, its signature
    and the state that executing it results in, the last of which is the state
    in memory; and nothing at an older height changes. *)
Theorem block_production_correct (x : site) n s s' :
  site_wf x -> here x s.1 -> LastBlockHeight (x_state x) + Z.of_nat n < two64 -> nsteps exec_step n s s' ->
  exists bs, produced_chain x bs /\ (length bs <= n)%nat /\ e_lastState s'.1 = Some (x_state (site_after x bs)) /\
    c_height (e_contents s'.1) = Ok (LastBlockHeight (x_state x) + zlen bs) /\
    (forall i b, bs !! i = Some b ->
       let h := LastBlockHeight (x_state x) + 1 + Z.of_nat i in
       c_block (e_contents s'.1) h = Ok (norm_signed_header b.1.1 SignedHeader_New, norm_data b.1.2) /\
       c_signature (e_contents s'.1) h = Ok (sl (sh_Signature b.1.1)) /\
       c_states (e_contents s'.1) h = Ok (norm_state (x_state (site_after x (take (Datatypes.S i) bs))))) /\
    (forall h, 0 <= h <= LastBlockHeight (x_state x) -> c_block (e_contents s'.1) h = c_block (e_contents s.1) h).
Proof.
  intros Hx He Hroom Hn. destruct (run_here x n s s' Hx He Hroom Hn) as (bs & Hb & Hl & Hh). exists bs.
  pose proof (hr_chain _ _ He) as C0. pose proof (hr_chain _ _ Hh) as C1. destruct (site_after_spec x bs Hx Hb) as [Hw Hlast].
  assert (0 <= LastBlockHeight (x_state x)) by apply (sw_state _ Hx). split_and!; [done|done|apply Hh| | |].
  - etrans; [exact (same_height _ _ C1)|]. rewrite (sw_height _ Hw). by rewrite Hlast.
  - intros i b Hi. cbv zeta. destruct (site_after_new x bs i b Hx Hb Hi) as (A1 & A2 & A3). split_and!.
    + etrans; [apply (same_block _ _ C1); lia|exact A1].
    + etrans; [apply (same_signature _ _ C1); lia|exact A2].
    + etrans; [apply (same_states _ _ C1); lia|exact A3].
  - intros h Hh'. etrans; [apply (same_block _ _ C1); lia|]. destruct (site_after_old x bs h Hx Hb) as [-> _]; [lia|].
    symmetry. apply (same_block _ _ C0). lia.
Qed.

End run.
