(* ===== verification/ExecutingStart.v ===== *)
(** * Starting an aggregator

    What [initializeState] of the executor establishes: the node is at a site
    of its chain, from where block production goes on. *)

From S2P Require Import Prelude Sha256 Datastore Types Serialization SerializationFacts Validation Store StoreFacts StoreAPI ChainWrites.
From S2P Require Import BlockCache Pending PendingFacts CacheManager DASubmitterFacts Sequencing Execution Replayer DecodeFacts.
From S2P Require Import DARetrieverFacts Syncer BlockFacts Executing ExecutingFacts.
From S2P Require Submitter.
From stdpp Require Import base gmap strings list numbers.
Open Scope Z_scope.
Import Executing.

(** Heights of a raft cluster are uint64. *)
Class RaftLaws (R : Type) `{RaftNode R} := { raft_height_law r : is_u64 (rb_Height (raft_GetState r).1) }.

Section start.
Context {ST PK EX Q SG R B V : Type} {C : Type -> Type}.
Context `{BlockStoreLaws ST PK} `{!PubKeysLaws PK} `{LRU C} `{ExecutionLaws EX} `{Submitter.Finalizer EX} `{SequencerLaws Q}.
Context `{!DASubmitter.SignerAPI SG PK} `{!SignerLaws (SG := SG) (PK := PK)} `{RaftLaws R} `{!Broadcasters B PK} `{SyncEnv V}.
Context `{WireLaws}.
Context `{ProtoMsg pbVersion, ProtoMsg pbHeader, ProtoMsg pbSignedHeader, ProtoMsg pbMetadata, ProtoMsg pbData}.
Context `{!ProtoLaws pbHeader norm_pbHeader pbHeader_ok, !ProtoLaws pbSignedHeader norm_pbSignedHeader pbSignedHeader_ok,
          !ProtoLaws pbData norm_pbData pbData_ok, !ProtoEmptyData}.
Abbreviation E := (Executor ST PK EX Q SG R B V C).
Abbreviation EM' A := (M E exec_error A).
Abbreviation site := (site (PK := PK)).

(** ** Steps before the node has a state *)

(** What a site speaks of is as it was. *)
Record held (e e' : E) : Prop := {
  hd_state : e_lastState e' = e_lastState e;
  hd_contents : e_contents e' ≡ e_contents e;
  hd_genesis : e_genesis e' = e_genesis e;
  hd_bytes : e_signatureBytes e' = e_signatureBytes e;
  hd_key : sg_key <$> e_signer e' = sg_key <$> e_signer e;
  hd_info : e_lastBlockInfo e' = e_lastBlockInfo e;
  hd_headers : pendingHeaders (e_mgr e') = pendingHeaders (e_mgr e);
  hd_data : pendingData (e_mgr e') = pendingData (e_mgr e);
  hd_tracking : e_tracking e' = e_tracking e;
  hd_sequencer : e_sequencer e' = e_sequencer e }.

#[local] Instance held_preorder : PreOrder held.
Proof.
  split; [by intros e; split|]. intros a b c [] []. split; try congruence. by etrans.
Qed.

Section frame.
Context (e0 : E).
#[local] Abbreviation keeps m P := (stable (held e0) m P).

Lemma held_exec {A} (m : M EX string A) : keeps (on_exec m : EM' A) (fun _ => True).
Proof. intros e He. apply wp_zoom. unfold wp. destruct (wrap EExec m (e_exec e)). split; [|done]. etrans; [exact He|by split]. Qed.
Lemma held_raft {A} (m : M R string A) P : (forall r a r', m r = (Ok a, r') -> P a) -> keeps (on_raft m : EM' A) P.
Proof.
  intros HP e He. unfold on_raft, wp. destruct (e_raft e) as [r|]; [|done]. specialize (HP r).
  destruct (m r) as [[a|er] r']; (split; [etrans; [exact He|by split]|]); [|done]. intros a' [= <-]. by eapply HP.
Qed.
Lemma held_read {A} (m : M ST store_error A) f : reads m f -> keeps (on_store m : EM' A) (fun _ => True).
Proof.
  intros Hm e He. apply wp_zoom, wp_wrap. eapply wp_mono; [apply Hm|]. intros r st (Hc & _). split; [|done].
  etrans; [exact He|by split].
Qed.
Lemma held_critical err : keeps (modify (sendCriticalError err) : EM' unit) (fun _ => True).
Proof.
  apply stable_modify. intros e He. unfold sendCriticalError. repeat case_match; try done. etrans; [exact He|by split].
Qed.
Lemma held_or_critical {A} (m : EM' A) P : keeps m P -> keeps (or_critical m) P.
Proof.
  intros Hm. eapply stable_bind; [by apply stable_attempt|]. intros [a|err] Ha; [by apply stable_ret, Ha|].
  eapply stable_bind; [apply held_critical|]. intros _ _. apply stable_throw.
Qed.

Lemma held_signer p : keeps (assertConfiguredSigner p : EM' unit) (fun _ => True).
Proof.
  eapply stable_bind; [apply stable_look|]. intros [] _; [by apply stable_ret|].
  apply stable_bind with (P := fun _ => True).
  - intros e He. unfold on_signer, wp. destruct (e_signer e) as [g|] eqn:Hg; [|done].
    pose proof (GetAddress_law g) as Ha. unfold wp in Ha. destruct (DASubmitter.sg_GetAddress g) as [a g'].
    split; [|done]. etrans; [exact He|]. split; try done. simpl. rewrite Hg. simpl. f_equal. apply Ha.
  - intros a _. destruct (bytes_eqb _ _); [by apply stable_ret|apply stable_throw].
Qed.

Lemma held_compare h hash : is_u64 h -> keeps (compare_with_raft h hash : EM' unit) (fun _ => True).
Proof.
  intros Hh. eapply stable_bind; [by eapply held_read, GetHeader_law|]. intros hd _.
  destruct (slice_equal _ _); [by apply stable_ret|apply stable_throw].
Qed.

Lemma held_state : keeps (on_raft (infallible raft_GetState) : EM' _) (fun rs => is_u64 (rb_Height rs)).
Proof.
  apply held_raft. intros r a r'. unfold infallible. destruct (raft_GetState r) as [rs r1] eqn:Hr. intros [= <- _].
  pose proof (raft_height_law r) as Hl. by rewrite Hr in Hl.
Qed.

Lemma held_check_raft st : is_u64 (LastBlockHeight st) -> keeps (check_raft st : EM' unit) (fun _ => True).
Proof.
  intros Hst. eapply stable_bind; [apply stable_look|]. intros [] _; [|by apply stable_ret].
  eapply stable_bind; [apply held_state|]. intros rs Hrs. cbn [negb].
  repeat (case_match; try by (apply stable_ret || apply stable_throw)). by apply held_compare.
Qed.

Lemma held_recheck : keeps (recheck_raft : EM' unit) (fun _ => True).
Proof.
  eapply stable_bind; [apply stable_look|]. intros [] _; [|by apply stable_ret].
  eapply stable_bind; [apply held_state|]. intros rs Hrs. eapply stable_bind; [eapply held_read, GetState_law|]. intros st _.
  destruct (_ && _) eqn:Hb; [|by apply stable_ret]. apply held_compare. apply andb_true_iff in Hb as [_ ->%Z.eqb_eq]. done.
Qed.

Lemma held_target st : is_u64 (LastBlockHeight st) -> keeps (sync_target st : EM' Z) is_u64.
Proof.
  intros Hst. eapply stable_bind; [apply stable_look|]. intros [] _; [|by apply stable_ret].
  eapply stable_bind; [apply held_state|]. intros rs Hrs. apply stable_ret. unfold is_u64 in *. lia.
Qed.

End frame.

(** ** The state it starts from *)

Definition start_state (e : E) (root : slice) (stored : res store_error State) : State :=
  let g := e_genesis e in
  let st := match stored with
            | Ok st => st
            | Err _ => MkState zero_version (g_ChainID g) (g_InitialHeight g) (sub64 (g_InitialHeight g) 1) (g_StartTime g)
                         None (g_DAStartHeight g) root (initialProposerAddress e)
            end in
  if slen (NextProposerAddress st) =? 0 then with_proposer (initialProposerAddress e) st else st.

(** What the execution client answers to [InitChain] with the genesis. *)
Definition init_chain (e : E) : res string slice :=
  let g := e_genesis e in (InitChain (g_StartTime g) (g_InitialHeight g) (g_ChainID g) (e_exec e)).1.
Definition init_root (e : E) : slice := match init_chain e with Ok root => root | Err _ => None end.

(** The stored state, or the genesis state over the root of [InitChain]. *)
Definition first_state (e : E) : State := start_state e (init_root e) (c_state (e_contents e)).

Lemma launch_load_spec (e : E) :
  bs_healthy (e_store e) ->
  wp load_or_init (fun r e' => held e e' /\
     forall st, r = Ok st -> (forall err, c_state (e_contents e) = Err err -> is_ok (init_chain e) = true) /\
       first_state e = if slen (NextProposerAddress st) =? 0 then with_proposer (initialProposerAddress e) st else st) e.
Proof.
  intros Hok. unfold load_or_init, first_state. apply wp_bind, wp_attempt, wp_zoom, wp_wrap. eapply wp_mono; [apply GetState_law|].
  intros r st (Hc & _ & Hr). destruct Hr as [->|[? _]]; [|done].
  set (e1 := set_e_store st e). assert (Q1 : held e e1) by by split. fold (e_contents e).
  destruct (c_state (e_contents e)) as [st0|err]; cbn [map_err].
  - apply wp_ret. split; [done|]. by intros st1 [= <-].
  - wp_read. apply wp_bind, wp_bind, wp_attempt, wp_zoom, wp_wrap.
    eapply wp_mono with (P := fun r _ => r = init_chain e); [reflexivity|]. unfold init_root. intros r ex <-.
    destruct r as [root|err']; cbn [map_err].
    + apply wp_ret, wp_ret. split; [by split|]. intros st1 [= <-]. by split.
    + apply wp_bind, wp_modify, wp_throw. split; [|done].
      by apply (held_critical e (EExec err') (set_e_exec ex e1)).
Qed.

Definition site_at (e : E) (c : contents PK) (st : State) (key : PK) : site :=
  MkSite (chain_part c) st (e_genesis e) key (e_signatureBytes e) (fun _ => True).

(** The stored state fits the chain up to height [h]. *)
Record fits (g : ChainGenesis) (c : contents PK) (h : Z) (st : State) : Prop := {
  ft_height : LastBlockHeight st = h;
  ft_chain : st_ChainID st = g_ChainID g;
  ft_initial : g_InitialHeight g <= h + 1;
  ft_first : h < g_InitialHeight g -> sl (st_LastHeaderHash st) = [];
  ft_last : forall hd d, g_InitialHeight g <= h -> c_block c h = Ok (hd, d) ->
    sl (Header_Hash (Some (sh_Header hd))) = sl (st_LastHeaderHash st) }.

(** A node that can be started on its store, whose height is [h]. *)
Record launchable (h : Z) (key : PK) (e : E) : Prop := {
  la_healthy : bs_healthy (e_store e);
  la_genesis : genesis_wf (e_genesis e) /\ 1 <= g_InitialHeight (e_genesis e) /\ sl (g_ProposerAddress (e_genesis e)) <> [];
  la_chain : chain_contents (e_contents e);
  la_height : c_height (e_contents e) = Ok h;
  la_room : h + 1 < two64;
  la_stored : match c_state (e_contents e) with
              | Ok st => fits (e_genesis e) (e_contents e) h st /\
                         pending_ok (site_at e (e_contents e) (start_state e None (Ok st)) key) (e_contents e)
              | Err _ => h < g_InitialHeight (e_genesis e) /\ c_meta (e_contents e) headerKey = Err (SDs ErrNotFound)
              end;
  (** An unsigned block of the next height, as an older version left it,
      continues the chain. *)
  la_legacy : forall hd d, c_block (e_contents e) (LastBlockHeight (first_state e) + 1) = Ok (hd, d) ->
    slen (sh_Signature hd) = 0 -> x_made (site_at e (e_contents e) (first_state e) key) hd d;
  la_key : sg_key <$> e_signer e = Some key;
  la_keys : keys_ok (e_mgr e);
  la_info : e_lastBlockInfo e = None;
  la_tracking : tracking_inv (e_tracking e);
  la_sequencer : sq_wf (e_sequencer e) }.

Section launch.
Context (h : Z) (key : PK) (e : E) (Hla : launchable h key e).

Lemma launch_u64 : is_u64 h.
Proof. exact (contents_u64 (e_store e) h (la_height _ _ _ Hla)). Qed.

(** The start state fits the chain at its own height, which is that of the
    store unless the chain is new. *)
Lemma start_fits root : let st := start_state e root (c_state (e_contents e)) in
  state_wf st /\ h <= LastBlockHeight st /\ fits (e_genesis e) (e_contents e) (LastBlockHeight st) st /\
  sl (NextProposerAddress st) <> [] /\ LastBlockHeight st + 1 < two64 /\
  pending_ok (site_at e (e_contents e) st key) (e_contents e).
Proof.
  destruct Hla as [_ (Hg & Hi & Hp) Hc Hh Hroom Hst _ _ _ _ _ _]. pose proof launch_u64 as Hu.
  assert (Hclone : sl (initialProposerAddress e) <> []).
  { unfold initialProposerAddress, cloneBytes. apply slen_zero_false in Hp. rewrite Hp. cbn. by apply slen_zero_false in Hp. }
  assert (Hfix : forall st, sl (NextProposerAddress
    (if slen (NextProposerAddress st) =? 0 then with_proposer (initialProposerAddress e) st else st)) <> []).
  { intros st. destruct (slen (NextProposerAddress st) =? 0) eqn:Hz; [done|]. by apply slen_zero_false in Hz. }
  unfold start_state. destruct (c_state (e_contents e)) as [st|err] eqn:Hs.
  - destruct Hst as [[F1 F2 F3 F4 F5] Hpend].
    assert (Hwf : state_wf st).
    { unfold c_state in Hs. rewrite Hh in Hs. cbn [mbind res_bind] in Hs. eapply cc_state; [exact Hc|apply Hu|exact Hs]. }
    split; [by destruct (_ =? _)|]. specialize (Hfix st). unfold start_state in Hpend.
    destruct (slen (NextProposerAddress st) =? 0); (split_and!; [cbn; lia| |done|cbn; lia|done]);
      (split; [done|done|cbn; lia|cbn; rewrite F1; auto|cbn; rewrite F1; auto]).
  - destruct Hst as [Hlt Hno]. cbn [NextProposerAddress]. destruct Hg as (G1 & G2 & G3). unfold is_u64 in *.
    assert (Hsub : sub64 (g_InitialHeight (e_genesis e)) 1 = g_InitialHeight (e_genesis e) - 1) by (rewrite sub64_small; lia).
    set (st := MkState _ _ _ _ _ _ _ _ _). apply slen_zero_false in Hclone as Hz. rewrite Hz.
    assert (LastBlockHeight st = g_InitialHeight (e_genesis e) - 1) as Hl by exact Hsub.
    split_and!; rewrite ?Hl; try lia.
    + assert (Hz0 : is_u64 0) by done. repeat split; cbn; try apply Hz0; rewrite ?Hsub; lia.
    + split; [done|done|lia|done|lia].
    + done.
    + intros hb db header data Hb. congruence.
Qed.

(** Everything but the pending block is in place once the state is persisted. *)
Lemma persisted_here root e1 q db :
  held e e1 -> sq_wf q ->
  let st := start_state e root (c_state (e_contents e)) in
  bs_contents db ≡ apply_batch (e_contents e) [StHeight (LastBlockHeight st); StState st] ->
  let x := site_at e (bs_contents db) st key in
  x_last x = c_block (e_contents e) (LastBlockHeight st) /\ site_wf x /\ here x (set_e_store db (set_e_sequencer q (setLastState st e1))).
Proof.
  intros Hh Hq st Hc x. destruct (start_fits root) as (Hwf & Hle & [F1 F2 F3 F4 F5] & Hp & Hroom & Hpend). fold st in Hwf, Hle, F1, F2, F3, F4, F5, Hp, Hpend.
  assert (Hu : is_u64 (LastBlockHeight st)) by apply Hwf. unfold is_u64 in Hu.
  destruct Hla as [_ (Hg & Hi & _) _ _ _ _ _ Lk Lks Li Lt Lq].
  assert (Hlast : x_last x = c_block (e_contents e) (LastBlockHeight st)).
  { unfold x_last. cbn. rewrite (same_block _ _ Hc) by lia. done. }
  split; [exact Hlast|]. split.
  - split; try done.
    + exact (same_height _ _ Hc).
    + split; [apply Hg|done].
    + intros Hns. apply F4. unfold x_started in Hns. cbn in Hns. lia.
    + intros hd d Hs. rewrite Hlast. by apply F5.
  - destruct Hh as [A0 A1 A2 A3 A4 A5 A6 A7 A8 A9]. split; cbn [set_e_store set_e_mgr set_e_sequencer setLastState set_e_lastState
      e_lastState e_genesis e_signatureBytes e_signer e_lastBlockInfo e_tracking e_sequencer]; try done.
    + by rewrite A4.
    + rewrite A5, Li. done.
    + intros hb d2 header data. unfold e_contents. cbn. rewrite !(same_meta _ _ Hc). cbn. intros E1 E2 U1 U2.
      destruct (Hpend _ _ _ _ E1 E2 U1 U2) as [_ Hm]. split; [done|]. unfold x_made. rewrite Hlast. exact Hm.
    + unfold keys_ok. cbn. by rewrite A6, A7.
    + by rewrite A8.
Qed.

End launch.

(** ** The steps after that *)

Lemma here_held (x : site) e e' : held e e' -> here x e -> here x e'.
Proof.
  intros [A0 A1 A2 A3 A4 A5 A6 A7 A8 A9] [B1 B2 B3 B4 B5 B6 B7 B8 B9 B10]. split; rewrite ?A0, ?A2, ?A3, ?A4, ?A5, ?A8, ?A9; try done.
  - by rewrite A1.
  - intros hb db header data. rewrite !(same_meta _ _ A1). apply B7.
  - unfold keys_ok. by rewrite A6, A7.
Qed.

Lemma stay {A} (x : site) (m : EM' A) (P : A -> Prop) : (forall e, stable (held e) m P) -> stable (here x) m P.
Proof.
  intros Hm e He. eapply wp_mono; [apply (Hm e); reflexivity|]. intros r e' [Hh Hr]. split; [by eapply here_held|done].
Qed.

Section later.
Context (x : site) (Hx : site_wf x) (Hroom : LastBlockHeight (x_state x) + 1 < two64).

Lemma stay_warm : stable (here x) (warm_last_block (x_state x) : EM' unit) (fun _ => True).
Proof.
  unfold warm_last_block. destruct (_ <=? 0); [by apply stable_ret|]. pose proof (last_u64 x Hx) as Hu.
  apply stable_bind with (P := fun r => forall b, r = Ok b -> x_last x = Ok b).
  { apply stable_attempt. eapply calm_read; [by apply GetBlockData_law|]. intros e b He Hb. rewrite <- Hb. unfold x_last.
    symmetry. apply (same_block _ _ (hr_chain _ _ He)). apply Hu. }
  intros [[hd d]|er] Hl; [|by apply stable_ret]. specialize (Hl _ eq_refl).
  eapply stable_bind; [apply stable_attempt; eapply quiet_read; by apply GetSignature_law|]. intros sig _. cbv zeta.
  apply quiet_modify. intros e []. split; try done. intros info [= <-] Hs. split; [by eapply sw_last|].
  intros h' d' Hl'. rewrite Hl in Hl'. by injection Hl' as <- <-.
Qed.

(** The same place after a replay: only stored states differ. *)
Definition restated (c : contents PK) : site :=
  MkSite (chain_part c) (x_state x) (x_genesis x) (x_key x) (x_bytes x) (x_pending x).

Lemma restated_last lo hi c c' :
  chain_part c ≡ x_chain x -> only_states lo hi c c' -> x_last (restated c') = x_last x.
Proof.
  intros Hc Ho. pose proof (last_u64 x Hx) as Hu. unfold is_u64 in Hu. unfold x_last. cbn.
  rewrite (os_block _ _ _ _ Ho) by lia. apply (same_block _ _ Hc). lia.
Qed.

Lemma restated_wf lo hi c c' : chain_part c ≡ x_chain x -> only_states lo hi c c' -> site_wf (restated c').
Proof.
  intros Hc Ho. pose proof (restated_last _ _ _ _ Hc Ho) as Hl. destruct Hx as [A1 A2 A3 A4 A5 A6 A7 A8]. split; try done.
  - cbn. rewrite (os_height _ _ _ _ Ho), <- A2. apply (same_height _ _ Hc).
  - intros hd d Hs. rewrite Hl. by apply A7.
Qed.

Lemma here_restated lo hi st ex (e : E) :
  here x e -> only_states lo hi (e_contents e) (bs_contents st) -> here (restated (bs_contents st)) (set_e_exec ex (set_e_store st e)).
Proof.
  intros He Ho. pose proof (restated_last _ _ _ _ (hr_chain _ _ He) Ho) as Hl.
  destruct He as [A1 A2 A3 A4 A5 A6 A7 A8 A9 A10]. split; try done.
  - intros info Hi Hs. rewrite Hl. by apply A6.
  - intros hb db header data. unfold e_contents. cbn. rewrite !(os_meta _ _ _ _ Ho). intros E1 E2 U1 U2.
    destruct (A7 _ _ _ _ E1 E2 U1 U2) as [Hp Hm]. split; [done|]. unfold x_made. rewrite Hl. exact Hm.
Qed.

Lemma replay_moves target (e : E) :
  is_u64 target -> genesis_wf (x_genesis x) -> chain_contents (x_chain x) -> here x e ->
  wp (or_critical (on_replayer (SyncToHeight target)) : EM' unit) (fun r e' => r = Ok tt ->
    exists c lo, only_states lo target (e_contents e) c /\ here (restated c) e' /\ e_contents e' = c) e.
Proof.
  intros Ht Hg Hc He. apply wp_bind, wp_attempt, wp_zoom, wp_wrap.
  eapply wp_mono; [apply SyncToHeight_chain; [done|by rewrite (hr_genesis _ _ He)|]|].
  { assert (Hcp : chain_contents (chain_part (e_contents e))) by by rewrite (hr_chain _ _ He).
    destruct Hcp as [Hb Hs]. by split. }
  intros [[]|err] r ([lo Ho] & _); cbn [map_err].
  - apply wp_ret. intros _. exists (rp_contents r), lo. split; [done|]. split; [|done]. by eapply here_restated.
  - apply wp_bind, wp_modify. by apply wp_throw.
Qed.

(** *** A legacy pending block *)

(** [c'] is [c] with the block stored at height [next], if there is one,
    turned into the pending block: it was unsigned, its encodings are under the
    two pending keys, and nothing is stored at that height any more. Without
    such a block the metadata is as it was. *)
Definition migrated (next : Z) (c c' : contents PK) : Prop :=
  (forall h, 0 <= h -> h <> next -> c_block c' h = c_block c h) /\
  match c_block c next with
  | Ok (hd, d) =>
      slen (sh_Signature hd) = 0 /\ c_block c' next = Err (SDs ErrNotFound) /\
      exists hb db, marshal_signed_header hd = Ok hb /\ Data_MarshalBinary clean_data clean_metadata d = Ok db /\
        c_meta c' headerKey = Ok hb /\ c_meta c' dataKey = Ok db
  | Err err => c_block c' next = Err err /\ forall k, c_meta c' k = c_meta c k
  end.

(** The store after the two batches of a migration. *)
Record moved (next : Z) (hb db : bytes) (c c' : contents PK) : Prop := {
  mv_height : c_height c' = c_height c;
  mv_block h : 0 <= h -> h <> next -> c_block c' h = c_block c h;
  mv_states h : 0 <= h -> c_states c' h = c_states c h;
  mv_next : c_block c' next = Err (SDs ErrNotFound);
  mv_header : c_meta c' headerKey = Ok hb;
  mv_data : c_meta c' dataKey = Ok db }.

Lemma moved_batches next hb db hash c c1 c' :
  0 <= next -> c1 ≡ apply_batch c [StMeta headerKey hb; StMeta dataKey db] ->
  c' ≡ apply_batch c1 (StDelete <$> legacy_keys next hash) -> moved next hb db c c'.
Proof.
  intros Hn C1 C2. assert (C3 : c' ≡ apply_batch (apply_batch c [StMeta headerKey hb; StMeta dataKey db]) (StDelete <$> legacy_keys next hash))
    by (etrans; [exact C2|]; by apply apply_batch_proper).
  destruct C3 as [E1 E2 E3 E4 E5 E6]. split.
  - rewrite E1. done.
  - intros h Hh Hne. rewrite E3 by done. cbn. by rewrite !upd_ne.
  - intros h Hh. rewrite E5 by done. done.
  - rewrite E3 by done. cbn. by rewrite !upd_eq.
  - rewrite E6. done.
  - rewrite E6. done.
Qed.

Lemma moved_site next hb db hd d (e e' : E) :
  next = LastBlockHeight (x_state x) + 1 -> held e (set_e_store (e_store e) e') -> here x e ->
  x_made x hd d -> marshal_signed_header hd = Ok hb -> Data_MarshalBinary clean_data clean_metadata d = Ok db ->
  moved next hb db (e_contents e) (e_contents e') ->
  site_wf (restated (e_contents e')) /\ here (restated (e_contents e')) e'.
Proof.
  intros -> Hd He Hm Hhb Hdb Hv. pose proof (last_u64 x Hx) as Hu. unfold is_u64 in Hu.
  assert (Hl : x_last (restated (e_contents e')) = x_last x).
  { unfold x_last. cbn. rewrite (mv_block _ _ _ _ _ Hv) by lia. apply (same_block _ _ (hr_chain _ _ He)). lia. }
  split.
  - destruct Hx as [A1 A2 A3 A4 A5 A6 A7 A8]. split; try done.
    + cbn. rewrite (mv_height _ _ _ _ _ Hv), <- A2. apply (same_height _ _ (hr_chain _ _ He)).
    + intros hd' d' Hs. rewrite Hl. by apply A7.
  - pose proof (pending_written x hd d hb db (e_contents e') Hm Hhb Hdb (mv_header _ _ _ _ _ Hv) (mv_data _ _ _ _ _ Hv)) as Hp.
    destruct Hd as [D0 D1 D2 D3 D4 D5 D6 D7 D8 D9]. destruct He as [A1 A2 A3 A4 A5 A6 A7 A8 A9 A10].
    cbn [set_e_store set_e_mgr e_lastState e_genesis e_signatureBytes e_signer e_lastBlockInfo e_tracking e_sequencer] in *.
    split; rewrite ?D0, ?D2, ?D3, ?D4, ?D8, ?D9; try done.
    + intros info Hi Hs. rewrite Hl. apply A6; [by rewrite <- D5|done].
    + intros hb' db' header' data' M1 M2 U1 U2. destruct (Hp _ _ _ _ M1 M2 U1 U2) as [Heq Hmade]. cbn in Heq.
      split; [cbn; rewrite <- Heq; apply (sw_pending _ Hx)|]. unfold x_made. rewrite Hl. exact Hmade.
    + unfold keys_ok in *. cbn in D6, D7. by rewrite D6, D7.
Qed.

Lemma migrate_moves (e : E) :
  here x e -> chain_contents (x_chain x) ->
  (forall hd d, c_block (x_chain x) (LastBlockHeight (x_state x) + 1) = Ok (hd, d) -> slen (sh_Signature hd) = 0 -> x_made x hd d) ->
  wp migrateLegacyPendingBlock (fun r e' => r = Ok tt ->
    migrated (LastBlockHeight (x_state x) + 1) (e_contents e) (e_contents e') /\
    site_wf (restated (e_contents e')) /\ here (restated (e_contents e')) e' /\ chain_contents (e_contents e')) e.
Proof.
  intros He Hcc Hleg. unfold migrateLegacyPendingBlock. wp_read. unfold getLastState. rewrite (hr_state _ _ He).
  change (default zero_state (Some (x_state x))) with (x_state x). pose proof (last_u64 x Hx) as Hu. unfold is_u64 in Hu.
  rewrite add64_small by lia. set (next := LastBlockHeight (x_state x) + 1) in *.
  assert (Hce : chain_contents (e_contents e)).
  { assert (Hcp : chain_contents (chain_part (e_contents e))) by by rewrite (hr_chain _ _ He). destruct Hcp. by split. }
  assert (Hnx : c_block (x_chain x) next = c_block (e_contents e) next) by (symmetry; apply (same_block _ _ (hr_chain _ _ He)); lia).
  apply wp_bind, wp_attempt, wp_zoom, wp_wrap.
  eapply wp_mono; [apply GetBlockData_law; unfold is_u64; lia|]. intros r st (Hc & _ & Hr). fold (e_contents e) in Hr, Hc.
  assert (Hskip : forall err, c_block (e_contents e) next = Err err ->
    migrated next (e_contents e) (e_contents (set_e_store st e)) /\ site_wf (restated (bs_contents st)) /\
    here (restated (bs_contents st)) (set_e_store st e) /\ chain_contents (bs_contents st)).
  { intros err Hb. assert (Ho : only_states 0 0 (e_contents e) (bs_contents st)) by by apply only_states_equiv.
    split; [|split; [|split]].
    - split; [intros h Hh _; apply (same_block _ _ Hc h Hh)|]. rewrite Hb. split; [|apply (same_meta _ _ Hc)].
      rewrite <- Hb. apply (same_block _ _ Hc). lia.
    - by eapply restated_wf; [apply (hr_chain _ _ He)|].
    - apply (here_same _ (set_e_exec (e_exec e) (set_e_store st e))); try done. by eapply here_restated.
    - by rewrite Hc. }
  destruct r as [[hd d]|err]; cbn [map_err].
  - destruct Hr as [Hb|(_ & ? & ? & _)]; [|done]. rewrite Hnx, <- Hb in Hleg. specialize (Hleg hd d eq_refl).
    destruct (Z.eqb_spec (slen (sh_Signature hd)) 0) as [Hs|]; cbn [negb]; [|by apply wp_throw]. specialize (Hleg Hs).
    apply wp_bind. eapply wp_mono; [apply save_writes|]. intros [[]|err] e1 (s1 & -> & Hw); [|done].
    destruct Hw as (hb & db & Hhb & Hdb & C1). set (e1 := set_e_store s1 (set_e_store st e)).
    apply (wp_new_batch e_store set_e_store EStore); [|done]. intros s2 b0 S2 B0.
    apply wp_bind, wp_lift_res. rewrite Hhb. cbn [map_err]. apply wp_bind. cbn [legacy_keys delete_keys].
    eapply (wp_stage e_store set_e_store EStore); [done|done|apply Delete_law|exact B0|done| |done]. intros s3 b3 l3 S3 -> B3.
    eapply (wp_stage e_store set_e_store EStore); [done|done|apply Delete_law|exact B3|done| |done]. intros s4 b4 l4 S4 -> B4.
    eapply (wp_stage e_store set_e_store EStore); [done|done|apply Delete_law|exact B4|done| |done]. intros s5 b5 l5 S5 -> B5.
    eapply (wp_stage e_store set_e_store EStore); [done|done|apply Delete_law|exact B5|done| |done]. intros s6 b6 l6 S6 -> B6.
    apply wp_ret. eapply (wp_commit e_store set_e_store EStore); [done|done|exact B6| |done| |done].
    { assert (is_u64 next) by (unfold is_u64; lia). repeat apply Forall_cons_2; done. }
    intros s7 C7 _.
    assert (Hv : moved next hb db (e_contents e) (bs_contents s7)).
    { eapply moved_batches; [lia| |exact C7]. etrans; [exact C1|]. by apply apply_batch_proper. }
    destruct (moved_site next hb db hd d e (set_e_store s7 e1) eq_refl ltac:(by split) He Hleg Hhb Hdb Hv) as [Hw' Hh'].
    split; [|split; [done|split; [done|]]].
    + split; [apply Hv|]. rewrite <- Hb. split; [done|]. split; [apply Hv|]. exists hb, db. split_and!; try done; apply Hv.
    + change (e_contents (set_e_store s7 e1)) with (bs_contents s7). destruct Hce as [Hbk Hst']. split.
      * intros h hd' d' Hh. destruct (decide (h = next)) as [->|Hne]; [by rewrite (mv_next _ _ _ _ _ Hv)|].
        rewrite (mv_block _ _ _ _ _ Hv h Hh Hne). by apply Hbk.
      * intros h st' Hh. rewrite (mv_states _ _ _ _ _ Hv h Hh). by apply Hst'.
  - destruct Hr as [Hr|(_ & er & [= <-] & Hne)].
    + repeat case_match; simplify_eq; try (by apply wp_throw). apply wp_ret. intros _. by eapply Hskip.
    + repeat case_match; simplify_eq; by apply wp_throw.
Qed.

(** *** The steps after the migration *)

(** The metadata is as it was. *)
Definition metas (e e' : E) : Prop := forall k, c_meta (e_contents e') k = c_meta (e_contents e) k.

Lemma metas_held {A} e0 (m : EM' A) P : (forall e, stable (held e) m P) -> stable (metas e0) m P.
Proof.
  intros Hm e He. eapply wp_mono; [apply (Hm e); reflexivity|]. intros r e' [Hh Hr]. split; [|done].
  intros k. rewrite <- He. apply (same_meta _ _ (hd_contents _ _ Hh)).
Qed.
Lemma metas_modify e0 f : (forall e, e_store (f e) = e_store e) -> stable (metas e0) (modify f : EM' unit) (fun _ => True).
Proof. intros Hf. apply stable_modify. intros e He k. unfold e_contents. rewrite Hf. apply He. Qed.
Lemma metas_read {A} e0 (m : M ST store_error A) f : reads m f -> stable (metas e0) (on_store m : EM' A) (fun _ => True).
Proof. intros Hm. apply metas_held. intros e. by eapply held_read. Qed.

Lemma metas_warm e0 : stable (metas e0) (warm_last_block (x_state x) : EM' unit) (fun _ => True).
Proof.
  unfold warm_last_block. destruct (_ <=? 0); [by apply stable_ret|]. pose proof (last_u64 x Hx) as Hu.
  eapply stable_bind; [eapply stable_attempt, metas_read; by apply GetBlockData_law|]. intros [[hd d]|er] _; [|by apply stable_ret].
  eapply stable_bind; [eapply stable_attempt, metas_read; by apply GetSignature_law|]. intros sig _. by apply metas_modify.
Qed.

(** The end of [initializeState]. *)
Definition launch_end (state : State) : EM' unit :=
  r ← attempt (F := exec_error) (on_store (st_GetMetadata headerKey));
  _ ← (if is_ok r then modify (set_e_hasPendingBlock true) else mret tt);
  _ ← warm_last_block state;
  syncTargetHeight ← sync_target state;
  _ ← or_critical (on_replayer (SyncToHeight syncTargetHeight));
  based ← gets e_basedSequencer;
  _ ← (if (based : bool) && (0 <? syncTargetHeight)
       then or_critical (on_exec (Submitter.SetFinal syncTargetHeight)) else mret tt);
  recheck_raft.

Lemma launch_end_spec (e : E) :
  here x e -> genesis_wf (x_genesis x) -> chain_contents (x_chain x) ->
  wp (launch_end (x_state x))
     (fun r e' => r = Ok tt -> exists c, site_wf (restated c) /\ here (restated c) e' /\ metas e e' /\
        forall h, 0 <= h -> c_block c h = c_block (x_chain x) h) e.
Proof.
  intros He Hg Hc. pose proof (last_u64 x Hx) as Hu. assert (M0 : metas e e) by done.
  apply wp_bind, wp_attempt. eapply wp_mono; [apply wp_and; [exact (quiet_read x _ _ (GetMetadata_law headerKey) e He)|
    exact (metas_read e _ _ (GetMetadata_law headerKey) e M0)]|]. intros r e2 [[H2' _] [M2 _]].
  apply wp_bind. eapply wp_mono with (P := fun r e' => here x e' /\ metas e e').
  { destruct (is_ok r); [apply wp_modify; split; [by apply (here_same _ e2)|done]|by apply wp_ret]. }
  intros [[]|] e3 [H3' M3]; [|done].
  apply wp_bind. eapply wp_mono; [apply wp_and; [exact (stay_warm e3 H3')|exact (metas_warm e e3 M3)]|].
  intros [[]|] e4 [[H4' _] [M4 _]]; [|done].
  apply wp_bind. eapply wp_mono; [apply wp_and; [exact (stay x _ _ (fun e0 => held_target e0 _ Hu) e4 H4')|
    exact (metas_held e _ _ (fun e0 => held_target e0 _ Hu) e4 M4)]|].
  intros [target|] e5 [[H5' Ht] [M5 _]]; [|done]. specialize (Ht target eq_refl).
  apply wp_bind. eapply wp_mono; [by apply replay_moves|]. intros [[]|] e6 Hr; [|done].
  destruct (Hr eq_refl) as (c & lo & Ho & H6' & C6). wp_read.
  assert (M6 : metas e e6) by (intros k; rewrite C6, (os_meta _ _ _ _ Ho); apply M5).
  apply wp_bind. eapply wp_mono with (P := fun r e' => here (restated c) e' /\ metas e e').
  { destruct (_ && _); [|by apply wp_ret]. eapply wp_mono; [apply wp_and; [exact (calm_or_critical _ _ _ (quiet_exec _ _) e6 H6')|
      exact (metas_held e _ _ (fun e0 => held_or_critical e0 _ _ (held_exec e0 _)) e6 M6)]|]. by intros r' e' [[? _] [? _]]. }
  intros [[]|] e7 [H7' M7]; [|done].
  eapply wp_mono; [apply wp_and; [exact (stay _ _ _ held_recheck e7 H7')|exact (metas_held e _ _ held_recheck e7 M7)]|].
  intros r' e8 [[H8' _] [M8 _]] _. exists c.
  split; [by eapply restated_wf; [apply (hr_chain _ _ H5')|]|]. split; [done|]. split; [done|]. intros h Hh.
  rewrite (os_block _ _ _ _ Ho h Hh). apply (same_block _ _ (hr_chain _ _ H5') h Hh).
Qed.

End later.

(** What a started node has: it is at a site of the chain that it was started
    on, in the stored state, or in the genesis state over the root that
    [InitChain] returned; a legacy pending block was migrated, and nothing else
    that the store holds of blocks and metadata has changed. *)
Definition launched (key : PK) (e e' : E) : Prop :=
  (forall err, c_state (e_contents e) = Err err ->
     exists root, init_chain e = Ok root /\ st_AppHash (first_state e) = root) /\
  (exists x, site_wf x /\ here x e' /\ x_state x = first_state e /\
     x_genesis x = e_genesis e /\ x_key x = key /\ x_bytes x = e_signatureBytes e) /\
  migrated (LastBlockHeight (first_state e) + 1) (e_contents e) (e_contents e').

Lemma start_app_hash (e : E) root err : st_AppHash (start_state e root (Err err)) = root.
Proof. unfold start_state. by destruct (_ =? _). Qed.

Lemma launch_spec h key (e : E) :
  launchable h key e -> wp initializeState (fun r e' => r = Ok tt -> launched key e e') e.
Proof.
  intros Hla. unfold initializeState. apply wp_bind. eapply wp_mono; [apply launch_load_spec, Hla|].
  intros [st0|] e1 [Q1 Hst]; [|done]. destruct (Hst st0 eq_refl) as [Hinit Hroot]. wp_read.
  assert (Ep : initialProposerAddress e1 = initialProposerAddress e) by (unfold initialProposerAddress; by rewrite (hd_genesis _ _ Q1)).
  rewrite Ep, <- Hroot. destruct (start_fits h key e Hla (init_root e)) as (Hwf & Hle & _ & _ & Hroom & _). cbv zeta in Hwf, Hle, Hroom.
  pose proof (la_legacy _ _ _ Hla) as Hleg. unfold first_state in *. set (st := start_state e (init_root e) _) in *.
  assert (Hu : is_u64 (LastBlockHeight st)) by apply Hwf.
  apply wp_bind. eapply wp_mono; [exact (held_signer e _ e1 Q1)|]. intros [[]|] e2 [Q2 _]; [|done].
  apply wp_bind. eapply wp_mono; [exact (held_check_raft e st Hu e2 Q2)|]. intros [[]|] e3 [Q3 _]; [|done].
  do 2 apply wp_bind, wp_modify. set (q := sq_SetDAHeight _ _).
  assert (Hq : sq_wf q) by (apply sq_set_wf; [apply Hwf|]; cbn; rewrite (hd_sequencer _ _ Q3); apply Hla).
  apply wp_bind. set (e4 := set_e_sequencer _ _).
  assert (C4 : bs_contents (e_store e4) ≡ e_contents e) by apply Q3.
  apply (wp_persist e_store set_e_store EStore) with (h := h);
    [done|done|by rewrite (c_height_proper _ _ _ C4); apply Hla|done|done| |done].
  intros db C5. change (set_e_store db e4) with (set_e_store db (set_e_sequencer q (setLastState st e3))).
  assert (C5' : bs_contents db ≡ apply_batch (e_contents e) [StHeight (LastBlockHeight st); StState st])
    by (etrans; [exact C5|]; by apply apply_batch_proper).
  destruct (persisted_here h key e Hla (init_root e) e3 q db Q3 Hq C5') as (Hlast & Hx & He). fold st in Hlast, Hx, He.
  set (x := site_at e (bs_contents db) st key) in *.
  assert (Hcc : chain_contents (x_chain x)).
  { assert (Hcc : chain_contents (bs_contents db)) by (rewrite C5'; apply chain_contents_state; [done|]; destruct (la_chain _ _ _ Hla); by split).
    destruct Hcc as [Hb Hs]. by split. }
  unfold is_u64 in Hu.
  assert (Hblk : forall k, 0 <= k -> c_block (bs_contents db) k = c_block (e_contents e) k)
    by (intros k Hk; by rewrite (same_block _ _ C5' k Hk)).
  apply wp_bind. eapply wp_mono; [apply (migrate_moves x Hx Hroom _ He Hcc)|].
  { intros hd d Hb Hs. unfold x_made. rewrite Hlast. apply Hleg; [|done]. rewrite <- Hblk by lia. exact Hb. }
  intros [[]|] e5 Hm; [|done]. destruct (Hm eq_refl) as (Hmig & Hx5 & H5' & Hc5).
  eapply wp_mono; [apply (launch_end_spec _ Hx5 _ H5'); [apply Hla|destruct Hc5; by split]|].
  intros r e' Hr Hok. destruct (Hr Hok) as (c & Hw & Hh & HM & Hb).
  assert (Hblk' : forall k, 0 <= k -> c_block (e_contents e') k = c_block (e_contents e5) k)
    by (intros k Hk; etrans; [exact (same_block _ _ (hr_chain _ _ Hh) k Hk)|]; apply (Hb k Hk)).
  split; [|split].
  - intros err Herr. specialize (Hinit err Herr). unfold first_state. rewrite Herr. unfold init_root.
    destruct (init_chain e) as [root|]; [|done]. exists root. split; [done|]. apply start_app_hash.
  - exists (restated (restated x (e_contents e5)) c). by split_and!.
  - destruct Hmig as [Hm1 Hm2]. cbn in Hm1, Hm2. change (e_contents (set_e_store db _)) with (bs_contents db) in *.
    split; [intros k Hk Hne; rewrite Hblk' by done; rewrite Hm1 by done; by apply Hblk|].
    unfold first_state. fold st. rewrite Hblk' by lia.
    change (e_contents (set_e_store db (set_e_sequencer q (setLastState st e3)))) with (bs_contents db) in Hm2.
    rewrite Hblk in Hm2 by lia. destruct (c_block (e_contents e) (LastBlockHeight st + 1)) as [[hd d]|err].
    + destruct Hm2 as (S1 & S2 & hb & db' & T1 & T2 & T3 & T4). split_and!; [done|done|]. exists hb, db'.
      rewrite !HM. by split_and!.
    + destruct Hm2 as (S1 & S2). split; [done|]. intros k. rewrite HM, S2. by rewrite (same_meta _ _ C5').
Qed.

(** C3: An aggregator that is started on a healthy store, with a well-formed
    genesis, is ready to produce. The store holds a chain of encodable blocks
    whose last block and state fit together, or is below the initial height
    without a state or pending keys; a pending block of the next height, under
    the pending keys or left unsigned at that height by an older version,
    continues the chain. When [initializeState] succeeds, the node is at a site of
    its chain: in the stored state, or on a new chain in the genesis state whose
    app hash is the root that [InitChain] returned, with the recorded height at
    that state's height, cached hashes that are those of the last block, and any
    pending block of the next height one that may be produced next. A legacy
    pending block is no longer stored at its height, and its encodings are under
    the two pending keys; without one the metadata is as before. No other stored
    block changed, whatever raft and the execution client answered. *)
Theorem launch_correct h key (e e' : E) :
  launchable h key e -> initializeState e = (Ok tt, e') -> launched key e e'.
Proof. intros Hla Hrun. exact (wp_run _ _ _ _ _ (launch_spec h key e Hla) Hrun eq_refl). Qed.

End start.
