(* ===== verification/Following.v ===== *)
(** * Full nodes follow the aggregator

    The executor of the aggregator and the syncer of a full node together: a
    block that was produced, encoded and decoded again passes every check of a
    node in the same state, and applying it leads to the state the aggregator
    has. *)

From S2P Require Import Prelude Sha256 Datastore Types Serialization SerializationFacts Validation Store StoreFacts StoreAPI ChainWrites.
From S2P Require Import BlockCache Pending PendingFacts CacheManager DAClient Batching ForcedInclusion DASubmitterFacts Sequencing Execution Replayer.
From S2P Require Import ForcedCheck PriorityHeights DARetriever DARetrieverFacts DecodeFacts Syncer SyncerFacts BlockFacts Executing ExecutingFacts.
From S2P Require Submitter.
From stdpp Require Import base gmap strings list numbers.
Open Scope Z_scope.

Section following.
Context {ST PK W F EX V : Type} {C : Type -> Type}.
Context `{BlockStoreLaws ST PK} `{!PubKeysLaws PK} `{LRU C} `{MapOrder} `{BlobRPC W} `{HeaderOrder PK} `{FISource F} `{Executor EX} `{ExecutionLaws EX}.
Context `{FloatConversion} `{SyncEnv V} `{WireLaws} `{HashText}.
Context `{ProtoMsg pbVersion, ProtoMsg pbHeader, ProtoMsg pbSignedHeader, ProtoMsg pbMetadata, ProtoMsg pbData,
          ProtoMsg pbSignedData, ProtoMsg pbDAHeaderEnvelope}.
Context `{!ProtoLaws pbHeader norm_pbHeader pbHeader_ok, !ProtoLaws pbSignedHeader norm_pbSignedHeader pbSignedHeader_ok,
          !ProtoLaws pbData norm_pbData pbData_ok, !ProtoEmptyData}.
Abbreviation S := (Syncer ST PK W F EX V C).
Abbreviation site := (site (PK := PK)).

(** States that differ in the DA height only, which every node has its own of. *)
Definition agree (a b : State) : Prop := with_DAHeight 0 a = with_DAHeight 0 b.

#[export] Instance agree_equivalence : Equivalence agree.
Proof. unfold agree. split; [by intros a|by intros a b|]. intros a b c ? ?. congruence. Qed.

Lemma agree_fields a b :
  agree a b -> st_ChainID a = st_ChainID b /\ LastBlockHeight a = LastBlockHeight b /\ LastBlockTime a = LastBlockTime b /\
    st_LastHeaderHash a = st_LastHeaderHash b /\ st_AppHash a = st_AppHash b /\ NextProposerAddress a = NextProposerAddress b.
Proof. intros [=]. by split_and!. Qed.

(** The block as a full node gets it. *)
Definition wire_header (header : SignedHeader PK) : SignedHeader PK := norm_signed_header header SignedHeader_New.

(** What the checks of a node need besides a block that was produced for its
    state: the payload is the one that was signed, signatures are not empty,
    and the node's clock is not behind. *)
Record verifiable (x : site) (p : provider) (now : Z) (header : SignedHeader PK) (data : Data) : Prop := {
  vf_marshal : is_ok (marshal_signed_header header) = true;
  vf_payload : forall bz, x_bytes x (sh_Header header) = Ok bz -> bz <> [] /\
    first_payload ((fun f => f (sh_Header (wire_header header)) (norm_data data)) <$> p) (sh_Header (wire_header header)) = Ok bz;
  vf_signature : forall bz, pk_Verify (x_key x) bz [] <> Ok true;
  vf_time : b_Time (h_Base (sh_Header header)) <> 0 /\ Header_Time (sh_Header header) <= now + MaxClockDrift }.

(** With the default options the two nodes agree on the payload. *)
Lemma default_payload (x : site) (p : provider) (header : SignedHeader PK) data bz :
  x_bytes x = Executing.DefaultAggregatorNodeSignatureBytesProvider ->
  p = None \/ p = Some Executing.DefaultSyncNodeSignatureBytesProvider -> x_bytes x (sh_Header header) = Ok bz ->
  first_payload ((fun f => f (sh_Header (wire_header header)) (norm_data data)) <$> p) (sh_Header (wire_header header)) = Ok bz.
Proof.
  intros -> Hp. unfold Executing.DefaultAggregatorNodeSignatureBytesProvider. cbn [wire_header norm_signed_header sh_Header].
  destruct (Header_MarshalBinary _ _ (sh_Header header)) as [b|] eqn:Hb; intros [= <-]. destruct Hp as [->| ->]; cbn [first_payload fmap option_fmap option_map];
    unfold Executing.DefaultSyncNodeSignatureBytesProvider, Executing.DefaultAggregatorNodeSignatureBytesProvider;
    by rewrite ?Header_MarshalBinary_norm, ?Hb.
Qed.

Lemma made_agree initial last cur cur' pk (header : SignedHeader PK) data :
  agree cur cur' -> made_on initial last cur pk header data -> made_on initial last cur' pk header data.
Proof. intros (E1 & E2 & E3 & E4 & E5 & E6)%agree_fields []. split; rewrite <- ?E1, <- ?E2, <- ?E4, <- ?E5, <- ?E6; done. Qed.

Lemma validate_accepts x header data da cur (s : S) :
  site_wf x -> LastBlockHeight (x_state x) + 1 < two64 -> produced x header data da -> agree (x_state x) cur ->
  verifiable x (s_provider s) (env_now (s_env s)).1 header data ->
  let header' := SetCustomVerifierForSyncNode (s_provider s) (wire_header header) in
  wp (ValidateBlock cur (norm_data data) (wire_header header)) (fun r s' => r = Ok (Ok header') /\ quiet s s') s.
Proof.
  intros Hx Hroom Hp Hag [V1 V2 V3 [V4 V5]] header'. destruct Hp as [Hm (bz & sig & Hbz & Hsig & Hver) Hf _].
  destruct (marshal_signed_header header) as [hb|] eqn:Hhb; [|done].
  pose proof (made_agree _ _ _ _ _ _ _ Hag (made_norm _ _ _ _ _ _ SignedHeader_New _ Hm Hhb)) as Hw. fold (wire_header header) in Hw.
  assert (Hw' : made_on (g_InitialHeight (x_genesis x)) (x_last x) cur (x_key x) header' (norm_data data)) by (destruct Hw; by split).
  destruct (agree_fields _ _ Hag) as (E1 & E2 & E3 & E4 & E5 & E6). destruct (V2 bz Hbz) as [Hne Hfp].
  assert (Hsl : sl (sh_Signature header') = sig) by (cbn; by rewrite sl_norm, Hsig).
  assert (Hprop : sl (NextProposerAddress cur) <> []) by (rewrite <- E6; apply Hx).
  unfold ValidateBlock. wp_read. fold header'. apply wp_bind, wp_zoom, wp_infallible.
  set (s1 := set_s_env _ s). assert (Q1 : quiet s s1) by by apply quiet_same.
  unfold ValidateBasicWithData.
  rewrite (made_signature _ _ _ _ _ _ Hw' Hprop _ _ bz); [| |exact Hfp|exact Hne|by rewrite Hsl|exact V4|exact V5].
  2:{ rewrite Hsl. intros ->. by apply (V3 bz). }
  rewrite (made_proposer _ _ _ _ _ _ Hw'). apply wp_bind, wp_attempt, wp_zoom. unfold wp at 1.
  rewrite (made_sequence _ _ _ _ _ _ Hw'); cbn [fst snd].
  - rewrite (mo_data _ _ _ _ _ _ Hw'). apply wp_ret. split; [done|]. etrans; [exact Q1|]. by apply quiet_same.
  - rewrite <- E2. apply (sw_state _ Hx).
  - by rewrite <- E2.
  - rewrite <- E4, <- E3. intros Hn. apply (Hf Hn).
Qed.

(** A failure that is not the block's. *)
Definition transient (e : sync_error) : Prop :=
  match e with SyStore _ | SyExec _ | SyCanceled => True | _ => False end.

Lemma execute_transient n txs header cur (s : S) :
  wp (execute_attempts n txs header cur) (fun r _ => forall e, r = Err e -> transient e) s.
Proof.
  revert s. induction n as [|n IH]; intros s; cbn [execute_attempts]; [by apply wp_ret|].
  apply wp_bind, wp_attempt, wp_zoom, wp_wrap. unfold wp at 1. destruct (ExecuteTxs _ _ _ _ _) as [[r|msg] x']; cbn [fst snd map_err].
  - by apply wp_ret.
  - destruct (Nat.eqb n 0); [apply wp_throw; by intros e [= <-]|]. apply wp_bind, wp_zoom, wp_infallible.
    destruct (env_done _).1; [apply wp_throw; by intros e [= <-]|apply IH].
Qed.

Lemma ApplyBlock_transient header data cur (s : S) :
  wp (ApplyBlock header data cur) (fun r _ => forall e, r = Err e -> transient e) s.
Proof.
  unfold ApplyBlock. apply wp_bind, wp_attempt. eapply wp_mono; [apply execute_transient|]. intros [r|e] s1 Hr; [by apply wp_ret|].
  apply wp_bind, wp_modify, wp_throw. intros e' [= <-]. auto.
Qed.

Lemma commit_transient header data st (s : S) : wp (commit_synced header data st) (fun r _ => forall e, r = Err e -> transient e) s.
Proof.
  assert (Hst : forall {A} (m : M ST store_error A) (k : A -> M S sync_error unit) s,
    (forall a s, wp (k a) (fun r _ => forall e, r = Err e -> transient e) s) ->
    wp (on_sy_store m ≫= k) (fun r _ => forall e, r = Err e -> transient e) s).
  { intros A m k s0 Hk. apply wp_bind, wp_zoom, wp_wrap. unfold wp at 1. destruct (m _) as [[a|e] st']; cbn [fst snd map_err]; [apply Hk|].
    by intros e' [= <-]. }
  unfold commit_synced. do 4 (apply Hst; intros ? ?). apply wp_zoom, wp_wrap. unfold wp. destruct (batch_Commit _ _) as [[u|e] db]; [done|].
  by intros e' [= <-].
Qed.

Lemma mark_ok ev (header : SignedHeader PK) hash st (s : S) : wp (mark_synced ev header hash st) (fun r _ => r = Ok tt) s.
Proof.
  unfold mark_synced, removePendingDAData. do 2 apply wp_bind, wp_modify. apply wp_bind.
  destruct (negb (bytes_eqb _ _)); [apply wp_modify|apply wp_ret]; apply wp_bind, wp_modify; by destruct (negb _).
Qed.

(** ** Execution leads to the same state *)

Lemma follow_state x header data da da' cur :
  site_wf x -> produced x header data da -> agree (x_state x) cur ->
  agree (produced_state x header data da) (synced_state cur (sh_Header (wire_header header)) (norm_data data) da').
Proof.
  intros Hx Hp Hag. pose proof (mo_fresh _ _ _ _ _ _ (pd_made _ _ _ _ Hp)) as Hc.
  assert (Hex : executed cur (sh_Header (wire_header header)) (norm_data data) = executes x (sh_Header header) data).
  { destruct (agree_fields _ _ Hag) as (_ & _ & _ & _ & E5 & _). unfold executed, executes. by rewrite E5. }
  unfold synced_state. rewrite Hex. set (r := executes _ _ _).
  assert (Hns : agree (NextState (x_state x) (sh_Header header) (UpdatedStateRoot r) (res_NextProposer r))
                      (NextState cur (sh_Header (wire_header header)) (UpdatedStateRoot r) (res_NextProposer r))).
  { unfold agree in *. unfold NextState, with_DAHeight in *. cbn [wire_header norm_signed_header sh_Header] in *.
    rewrite (Header_Hash_norm _ Hc). injection Hag as F1 F2 F3 F4 F5 F6 F7 F8. rewrite F1, F2, F3, F8. cbn.
    assert (Hn : (slen (NextProposerAddress cur) =? 0) = false) by (rewrite <- F8; apply slen_zero_false, Hx).
    destruct (Z.ltb_spec 0 (slen (res_NextProposer r))) as [Hr|Hr]; [|by rewrite Hn].
    by rewrite (proj2 (Z.eqb_neq (slen (res_NextProposer r)) 0)) by lia. }
  destruct (_ <? _); exact Hns.
Qed.

(** C2: A full node accepts and follows what the aggregator produces. Let a
    block be produced at a place of the chain, encoded and decoded, and
    let a full node whose state agrees with that place (DA heights aside) get
    it from the P2P network or from raft. If the two nodes agree on the payload
    of signatures and the node's clock is not behind the block, then the node
    never rejects the block: either it appends it, and its new state agrees
    with the one the aggregator has after the block, or its store, its executor
    or its context failed, and then its chain and its state are as before. *)
Theorem full_node_follows x header data da cur (s : S) (ev : DAHeightEvent PK) :
  site_wf x -> LastBlockHeight (x_state x) + 1 < two64 -> produced x header data da ->
  agree (x_state x) cur -> state_wf cur -> s_lastState s = Some cur -> c_height (s_contents s) = Ok (LastBlockHeight cur) ->
  verifiable x (s_provider s) (env_now (env_done (s_env s)).2).1 header data ->
  ev_Header ev = wire_header header -> ev_Data ev = norm_data data -> ev_Source ev <> SourceDA -> is_u64 (ev_DaHeight ev) ->
  exists r s', TrySyncNextBlock ev s = (r, s') /\
    match r with
    | Ok _ => exists st, s_lastState s' = Some st /\ agree (produced_state x header data da) st /\
        s_contents s' ≡ apply_batch (s_contents s)
          (block_batch (SetCustomVerifierForSyncNode (s_provider s) (wire_header header)) (norm_data data) st)
    | Err e => transient e /\ s_lastState s' = Some cur /\ s_contents s' ≡ s_contents s
    end.
Proof.
  intros Hx Hroom Hp Hag Hwf Hl Hc Hv He Hd Hsrc Hda. apply wp_exists. unfold TrySyncNextBlock. wp_read. unfold getLastState. rewrite Hl.
  change (default zero_state (Some cur)) with cur. unfold trySyncNextBlockWithState.
  apply wp_bind, wp_zoom, wp_infallible. set (s1 := set_s_env _ s). assert (Q1 : quiet s s1) by by apply quiet_same.
  destruct (env_done (s_env s)).1; [apply wp_throw; by split_and!|].
  rewrite He, Hd. set (header' := SetCustomVerifierForSyncNode (s_provider s) (wire_header header)).
  apply wp_bind. eapply wp_mono; [by apply (validate_accepts x header data da cur s1)|]. intros r s2 [-> Q2]. fold header'.
  assert (Q12 : quiet s s2) by by etrans.
  unfold check_forced. rewrite bool_decide_false by done. cbn [negb]. apply wp_bind, wp_ret.
  assert (Hh : Header_Height (sh_Header header') = LastBlockHeight cur + 1).
  { destruct (agree_fields _ _ Hag) as (_ & <- & _). exact (mo_height _ _ _ _ _ _ (pd_made _ _ _ _ Hp)). }
  pose proof (vf_marshal _ _ _ _ _ Hv) as Hmar. destruct (marshal_signed_header header) as [hb|] eqn:Hhb; [|done].
  pose proof (made_norm _ _ _ _ _ _ SignedHeader_New _ (pd_made _ _ _ _ Hp) Hhb) as Hw. fold (wire_header header) in Hw.
  pose proof (mo_header_wf _ _ _ _ _ _ Hw) as W1. pose proof (mo_signer_wf _ _ _ _ _ _ Hw) as W2.
  pose proof (mo_data_wf _ _ _ _ _ _ Hw) as W3.
  apply wp_bind. eapply wp_mono; [apply wp_and; [apply ApplyBlock_spec, W1|apply ApplyBlock_transient]|].
  intros r s3 [[Q3 R3] T3]. assert (Q13 : quiet s s3) by by etrans. destruct r as [st|err].
  2:{ split; [by apply T3|]. split; [by rewrite (q_state _ _ Q13)|apply Q13]. }
  specialize (R3 st eq_refl). cbv zeta in R3. set (new := if _ <? _ then _ else _).
  assert (Hnew : new = synced_state cur (sh_Header (wire_header header)) (norm_data data) (ev_DaHeight ev)) by (unfold new; by rewrite R3).
  assert (Hnwf : state_wf new) by (rewrite Hnew; by apply synced_state_wf).
  apply wp_bind. eapply wp_mono; [apply wp_and; [apply (SyncerFacts.commit_spec _ _ _ (LastBlockHeight cur)); try done|apply commit_transient]|].
  { by rewrite (c_height_proper _ _ _ (q_contents _ _ Q13)). }
  { change (LastBlockHeight cur < Header_Height (sh_Header header')). lia. }
  intros r s4 [(db & -> & C4) T4]. destruct r as [[]|err].
  - eapply wp_mono; [apply wp_and; [apply mark_spec|apply mark_ok]|]. intros r s5 [Q5 ->]. exists new.
    split; [exact (q_state _ _ Q5)|]. split; [rewrite Hnew; by apply follow_state|].
    etrans; [exact (q_contents _ _ Q5)|]. etrans; [exact C4|]. apply apply_batch_proper; [apply Q13|done].
  - split; [by apply T4|]. split; [exact (eq_trans (q_state _ _ Q13) Hl)|]. etrans; [exact C4|apply Q13].
Qed.

End following.
