(* ===== verification/SingleSequencer.v ===== *)
(** * The single sequencer ([pkg/sequencers/single/sequencer.go])

    The sequencer hands out batches: the forced inclusion transactions of the
    current DA epoch first, then the transactions drained from the queue. The
    three namespaces of its database (the queue's write-ahead log, the block
    store, the checkpoint) are three datastores. [fiRetriever] is the source of
    forced inclusion transactions with the DA client in it, [executor] the
    executor; both may change with every call. *)

From stdpp Require Import base gmap strings list numbers.
From S2P Require Import Prelude Datastore Types Serialization Store BatchQueue Epoch ForcedInclusion Sequencing.
Open Scope Z_scope.

Record Genesis := MkGenesis { DAStartHeight : Z; DAEpochForcedInclusion : Z; StartTime : Z }.

Inductive CatchUpState := catchUpUnchecked | catchUpInProgress | catchUpDone.
#[export] Instance CatchUpState_eq_dec : EqDecision CatchUpState.
Proof. solve_decision. Defined.

Inductive seq_error :=
| ErrInvalidId
| ErrNoBatch
| ErrNoDAClient
| SeqQueue (e : queue_error)
| SeqFI (e : fi_error)
| SeqCheckpoint (e : checkpoint_error)
| SeqStore (e : store_error)
| SeqDA (msg : string)
| SeqPanic.

Record Sequencer (DB F X : Type) := MkSequencer
  { genesis : Genesis;
    Id : bytes;
    seq_queue : BatchQueue DB;
    seq_store : DB;
    checkpointStore : DB;
    fiRetriever : F;
    daHeight : Z;
    daStartHeight : Z;
    checkpoint : Checkpoint;
    executor : X;
    cachedForcedInclusionTxs : list bytes;
    catchUpState : CatchUpState;
    currentDAEndTime : Z;
    currentEpochTxCount : Z }.
Arguments MkSequencer {DB F X}.
Arguments genesis {DB F X}.
Arguments Id {DB F X}.
Arguments seq_queue {DB F X}.
Arguments seq_store {DB F X}.
Arguments checkpointStore {DB F X}.
Arguments fiRetriever {DB F X}.
Arguments daHeight {DB F X}.
Arguments daStartHeight {DB F X}.
Arguments checkpoint {DB F X}.
Arguments executor {DB F X}.
Arguments cachedForcedInclusionTxs {DB F X}.
Arguments catchUpState {DB F X}.
Arguments currentDAEndTime {DB F X}.
Arguments currentEpochTxCount {DB F X}.

(** Field assignments. *)
Section setters.
Context {DB F X : Type}.
Definition set_seq_queue (x : BatchQueue DB) (s : Sequencer DB F X) : Sequencer DB F X :=
  MkSequencer (genesis s) (Id s) x (seq_store s) (checkpointStore s) (fiRetriever s)
    (daHeight s) (daStartHeight s) (checkpoint s) (executor s) (cachedForcedInclusionTxs
    s) (catchUpState s) (currentDAEndTime s) (currentEpochTxCount s).
Definition set_seq_store (x : DB) (s : Sequencer DB F X) : Sequencer DB F X :=
  MkSequencer (genesis s) (Id s) (seq_queue s) x (checkpointStore s) (fiRetriever s)
    (daHeight s) (daStartHeight s) (checkpoint s) (executor s) (cachedForcedInclusionTxs
    s) (catchUpState s) (currentDAEndTime s) (currentEpochTxCount s).
Definition set_checkpointStore (x : DB) (s : Sequencer DB F X) : Sequencer DB F X :=
  MkSequencer (genesis s) (Id s) (seq_queue s) (seq_store s) x (fiRetriever s) (daHeight
    s) (daStartHeight s) (checkpoint s) (executor s) (cachedForcedInclusionTxs s)
    (catchUpState s) (currentDAEndTime s) (currentEpochTxCount s).
Definition set_fiRetriever (x : F) (s : Sequencer DB F X) : Sequencer DB F X :=
  MkSequencer (genesis s) (Id s) (seq_queue s) (seq_store s) (checkpointStore s) x
    (daHeight s) (daStartHeight s) (checkpoint s) (executor s) (cachedForcedInclusionTxs
    s) (catchUpState s) (currentDAEndTime s) (currentEpochTxCount s).
Definition set_daHeight (x : Z) (s : Sequencer DB F X) : Sequencer DB F X :=
  MkSequencer (genesis s) (Id s) (seq_queue s) (seq_store s) (checkpointStore s)
    (fiRetriever s) x (daStartHeight s) (checkpoint s) (executor s)
    (cachedForcedInclusionTxs s) (catchUpState s) (currentDAEndTime s)
    (currentEpochTxCount s).
Definition set_daStartHeight (x : Z) (s : Sequencer DB F X) : Sequencer DB F X :=
  MkSequencer (genesis s) (Id s) (seq_queue s) (seq_store s) (checkpointStore s)
    (fiRetriever s) (daHeight s) x (checkpoint s) (executor s) (cachedForcedInclusionTxs
    s) (catchUpState s) (currentDAEndTime s) (currentEpochTxCount s).
Definition set_checkpoint (x : Checkpoint) (s : Sequencer DB F X) : Sequencer DB F X :=
  MkSequencer (genesis s) (Id s) (seq_queue s) (seq_store s) (checkpointStore s)
    (fiRetriever s) (daHeight s) (daStartHeight s) x (executor s)
    (cachedForcedInclusionTxs s) (catchUpState s) (currentDAEndTime s)
    (currentEpochTxCount s).
Definition set_executor (x : X) (s : Sequencer DB F X) : Sequencer DB F X :=
  MkSequencer (genesis s) (Id s) (seq_queue s) (seq_store s) (checkpointStore s)
    (fiRetriever s) (daHeight s) (daStartHeight s) (checkpoint s) x
    (cachedForcedInclusionTxs s) (catchUpState s) (currentDAEndTime s)
    (currentEpochTxCount s).
Definition set_cachedForcedInclusionTxs (x : list bytes) (s : Sequencer DB F X) : Sequencer DB F X :=
  MkSequencer (genesis s) (Id s) (seq_queue s) (seq_store s) (checkpointStore s)
    (fiRetriever s) (daHeight s) (daStartHeight s) (checkpoint s) (executor s) x
    (catchUpState s) (currentDAEndTime s) (currentEpochTxCount s).
Definition set_catchUpState (x : CatchUpState) (s : Sequencer DB F X) : Sequencer DB F X :=
  MkSequencer (genesis s) (Id s) (seq_queue s) (seq_store s) (checkpointStore s)
    (fiRetriever s) (daHeight s) (daStartHeight s) (checkpoint s) (executor s)
    (cachedForcedInclusionTxs s) x (currentDAEndTime s) (currentEpochTxCount s).
Definition set_currentDAEndTime (x : Z) (s : Sequencer DB F X) : Sequencer DB F X :=
  MkSequencer (genesis s) (Id s) (seq_queue s) (seq_store s) (checkpointStore s)
    (fiRetriever s) (daHeight s) (daStartHeight s) (checkpoint s) (executor s)
    (cachedForcedInclusionTxs s) (catchUpState s) x (currentEpochTxCount s).
Definition set_currentEpochTxCount (x : Z) (s : Sequencer DB F X) : Sequencer DB F X :=
  MkSequencer (genesis s) (Id s) (seq_queue s) (seq_store s) (checkpointStore s)
    (fiRetriever s) (daHeight s) (daStartHeight s) (checkpoint s) (executor s)
    (cachedForcedInclusionTxs s) (catchUpState s) (currentDAEndTime s) x.
End setters.

(** The key of [NewCheckpointStore(db, ds.NewKey("/single/checkpoint"))]. *)
Definition singleCheckpointKey : string := "/single/checkpoint".

(** The loop over the filter statuses. *)
Record filtered := MkFiltered
  { validForcedTxs : list bytes; validMempoolTxs : list bytes; postponedMempoolTxs : list bytes;
    forcedTxConsumedCount : Z; forcedTxPostponed : bool }.

Definition no_filtered : filtered := MkFiltered [] [] [] 0 false.

(** [allTxs[i]], which panics out of range. *)
Definition tx_at {E} (panic : E) (allTxs : list bytes) (i : nat) : res E bytes :=
  match allTxs !! i with Some tx => Ok tx | None => Err panic end.

Definition filter_forced (status : FilterStatus) (tx : res seq_error bytes) (f : filtered)
  : res seq_error filtered :=
  if forcedTxPostponed f then Ok f else
  match status with
  | FilterOK =>
      tx ← tx;
      Ok (MkFiltered (validForcedTxs f ++ [tx]) (validMempoolTxs f) (postponedMempoolTxs f)
                     (add64 (forcedTxConsumedCount f) 1) false)
  | FilterRemove =>
      Ok (MkFiltered (validForcedTxs f) (validMempoolTxs f) (postponedMempoolTxs f)
                     (add64 (forcedTxConsumedCount f) 1) false)
  | FilterPostpone =>
      Ok (MkFiltered (validForcedTxs f) (validMempoolTxs f) (postponedMempoolTxs f)
                     (forcedTxConsumedCount f) true)
  end.

Definition filter_mempool (status : FilterStatus) (tx : res seq_error bytes) (f : filtered)
  : res seq_error filtered :=
  match status with
  | FilterOK =>
      tx ← tx;
      Ok (MkFiltered (validForcedTxs f) (validMempoolTxs f ++ [tx]) (postponedMempoolTxs f)
                     (forcedTxConsumedCount f) (forcedTxPostponed f))
  | FilterPostpone =>
      tx ← tx;
      Ok (MkFiltered (validForcedTxs f) (validMempoolTxs f) (postponedMempoolTxs f ++ [tx])
                     (forcedTxConsumedCount f) (forcedTxPostponed f))
  | FilterRemove => Ok f
  end.

Fixpoint filter_loop (i : nat) (statuses : list FilterStatus) (allTxs : list bytes) (forcedTxCount : nat)
  (f : filtered) : res seq_error filtered :=
  match statuses with
  | [] => Ok f
  | status :: statuses' =>
      f ← (if (i <? forcedTxCount)%nat then filter_forced status (tx_at SeqPanic allTxs i) f
           else filter_mempool status (tx_at SeqPanic allTxs i) f);
      filter_loop (S i) statuses' allTxs forcedTxCount f
  end.

(** [time.Duration(n) * time.Millisecond] for a uint64 [n]. *)
Definition millis (n : Z) : Z := i64 (to_i64 n * millisecond).
(** [-time.Duration(n) * time.Millisecond]. *)
Definition neg_millis (n : Z) : Z := i64 (i64 (- to_i64 n) * millisecond).

Section sequencer.
Context {DB : Type} `{Datastore DB} `{HashText} {PK : Type} `{PubKeys PK} `{Wire}.
Context `{ProtoMsg pbVersion, ProtoMsg pbHeader, ProtoMsg pbSignedHeader, ProtoMsg pbMetadata,
          ProtoMsg pbData, ProtoMsg pbState, ProtoMsg pbBatch, ProtoMsg pbCheckpoint}.
Context {F : Type} `{FISource F} {X : Type} `{Executor X}.

Abbreviation S := (Sequencer DB F X).
Definition SM (A : Type) : Type := M S seq_error A.

Definition on_queue {A} (m : M (BatchQueue DB) queue_error A) : SM A :=
  zoom seq_queue set_seq_queue (wrap SeqQueue m).
Definition on_blocks {A} (m : M DB store_error A) : SM A :=
  zoom seq_store set_seq_store (wrap SeqStore m).
Definition on_checkpoint {A} (m : M DB checkpoint_error A) : SM A :=
  zoom checkpointStore set_checkpointStore (wrap SeqCheckpoint m).
Definition on_fi {E A} (wrapping : E -> seq_error) (m : M F E A) : SM A :=
  zoom fiRetriever set_fiRetriever (wrap wrapping m).
Definition on_executor {A} (m : M X seq_error A) : SM A := zoom executor set_executor m.

Definition isValid (i : bytes) (s : S) : bool := bytes_eqb (Id s) i.
Definition SetDAHeight (height : Z) (s : S) : S := set_daHeight height s.
Definition GetDAHeight (s : S) : Z := daHeight s.
Definition isCatchingUp (s : S) : bool := bool_decide (catchUpState s = catchUpInProgress).

(** ** Start *)

Definition reconcileQueueWithLastBlock : SM unit :=
  s ← gets id;
  if Size (seq_queue s) =? 0 then mret tt else
  height ← on_blocks Height;
  if height =? 0 then mret tt else
  block ← on_blocks (GetBlockData height);
  let data := block.2 in
  if zlen (data_txs data) =? 0 then mret tt else
  dropped ← on_queue (DropIncluded (data_txs data));
  mret tt.

Definition getInitialDAStartHeight : SM Z :=
  s ← gets id;
  if negb (daStartHeight s =? 0) then mret (daStartHeight s) else
  daIncludedHeightBytes ← attempt (on_blocks (GetMetadata GenesisDAHeightKey));
  match daIncludedHeightBytes with
  | Err _ => mret 0
  | Ok b =>
      if negb (zlen b =? 8) then mret 0 else
      let start := uint64_le b in
      _ ← modify (set_daStartHeight start);
      mret start
  end.

Definition load_checkpoint : SM unit :=
  r ← attempt (on_checkpoint (CheckpointStore_Load singleCheckpointKey));
  match r with
  | Err (SeqCheckpoint ErrCheckpointNotFound) =>
      modify (fun s => set_checkpoint (MkCheckpoint (GetDAHeight s) 0) s)
  | Err e => throw e
  | Ok c => modify (set_checkpoint c)
  end.

(** The calls of [NewSequencer] on the struct it has built. *)
Definition start_sequencer : SM unit :=
  _ ← on_queue Load;
  _ ← reconcileQueueWithLastBlock;
  _ ← load_checkpoint;
  initialDAHeight ← getInitialDAStartHeight;
  modify (fun s => set_fiRetriever (fi_New initialDAHeight (DAEpochForcedInclusion (genesis s)) (fiRetriever s)) s).

Definition fresh_sequencer (g : Genesis) (i : bytes) (maxQueueSize : Z) (queueDB blocks cpDB : DB) (da : F) (exec : X) : S :=
  MkSequencer g i (NewBatchQueue queueDB maxQueueSize) blocks cpDB da (DAStartHeight g) (DAStartHeight g)
    (MkCheckpoint 0 0) exec [] catchUpUnchecked (StartTime g) 0.

(** The error, if any, and the sequencer with the databases as they are then;
    without a DA client there is no sequencer. *)
Definition NewSequencer (g : Genesis) (i : bytes) (maxQueueSize : Z) (queueDB blocks cpDB : DB)
  (daClient : option F) (exec : X) : res seq_error unit * option S :=
  match daClient with
  | None => (Err ErrNoDAClient, None)
  | Some da =>
      let '(r, s) := start_sequencer (fresh_sequencer g i maxQueueSize queueDB blocks cpDB da exec) in
      (r, Some s)
  end.

(** ** Submission *)

Definition SubmitBatchTxs (req : SubmitBatchTxsRequest) : SM unit :=
  s ← gets id;
  if negb (isValid (sub_Id req) s) then throw ErrInvalidId else
  match sub_Batch req with
  | None => mret tt
  | Some transactions =>
      if zlen transactions =? 0 then mret tt else on_queue (AddBatch transactions)
  end.

(** ** Fetching DA epochs *)

Definition updateCatchUpState : SM unit :=
  s ← gets id;
  if negb (bool_decide (catchUpState s = catchUpUnchecked)) then mret tt else
  _ ← modify (set_catchUpState catchUpDone);
  let epochSize := DAEpochForcedInclusion (genesis s) in
  if epochSize =? 0 then mret tt else
  let currentDAHeight := cp_DAHeight (checkpoint s) in
  let start := DAStartHeight (genesis s) in
  latest ← attempt (on_fi SeqDA fi_LatestDAHeight);
  match latest with
  | Err _ => mret tt
  | Ok latestDAHeight =>
      if latestDAHeight <=? currentDAHeight then mret tt else
      let currentEpoch := Epoch.CalculateEpochNumber currentDAHeight start epochSize in
      let latestEpoch := Epoch.CalculateEpochNumber latestDAHeight start epochSize in
      let missedEpochs := sub64 latestEpoch currentEpoch in
      if missedEpochs =? 0 then mret tt else
      _ ← modify (set_catchUpState catchUpInProgress);
      state ← attempt (on_blocks GetState);
      match state with
      | Err _ => mret tt
      | Ok state =>
          if negb (LastBlockTime state =? zero_time) then
            modify (fun s => if currentDAEndTime s <? LastBlockTime state
                             then set_currentDAEndTime (LastBlockTime state) s else s)
          else mret tt
      end
  end.

(** The transactions of an epoch that fit in a block. *)
Definition fitting (maxBytes : Z) (txs : list bytes) : list bytes :=
  List.filter (fun tx => negb (maxBytes <? zlen tx)) txs.

Definition fetchNextDAEpoch (maxBytes : Z) : SM Z :=
  s ← gets id;
  let currentDAHeight := cp_DAHeight (checkpoint s) in
  _ ← updateCatchUpState;
  event ← attempt (on_fi SeqFI (fi_Retrieve currentDAHeight));
  match event with
  | Err (SeqFI ErrHeightFromFuture) =>
      _ ← modify (fun s => if isCatchingUp s then set_catchUpState catchUpDone s else s);
      mret 0
  | Err (SeqFI ErrForceInclusionNotConfigured) =>
      _ ← modify (set_cachedForcedInclusionTxs []);
      _ ← modify (set_catchUpState catchUpDone);
      mret 0
  | Err e => throw e
  | Ok event =>
      let validTxs := fitting maxBytes (fi_Txs event) in
      _ ← modify (set_cachedForcedInclusionTxs validTxs);
      _ ← modify (set_currentEpochTxCount (zlen validTxs));
      _ ← modify (fun s => if currentDAEndTime s <? fi_Timestamp event
                           then set_currentDAEndTime (fi_Timestamp event) s else s);
      mret (EndDaHeight event)
  end.

(** ** Batches *)

(** The checkpoint is set when the DA height becomes known. *)
Definition bootstrap_checkpoint (height : Z) : SM unit :=
  s ← gets id;
  if (0 <? height) && (cp_DAHeight (checkpoint s) =? 0) then
    _ ← modify (set_checkpoint (MkCheckpoint height 0));
    start ← getInitialDAStartHeight;
    modify (fun s => set_fiRetriever (fi_New start (DAEpochForcedInclusion (genesis s)) (fiRetriever s)) s)
  else mret tt.

(** The epoch is exhausted: nothing is cached or all of it is consumed. *)
Definition epoch_consumed (s : S) : bool :=
  (zlen (cachedForcedInclusionTxs s) =? 0) ||
  (zlen (cachedForcedInclusionTxs s) <=? cp_TxIndex (checkpoint s)).

(** The cached transactions from the checkpoint on. *)
Definition remaining_forced (s : S) : list bytes :=
  if (0 <? zlen (cachedForcedInclusionTxs s)) &&
     (cp_TxIndex (checkpoint s) <? zlen (cachedForcedInclusionTxs s))
  then drop (Z.to_nat (cp_TxIndex (checkpoint s))) (cachedForcedInclusionTxs s) else [].

(** The checkpoint is advanced and saved; the result is [txIndexForTimestamp]. *)
Definition advance_checkpoint (height : Z) (forcedTxs : list bytes) (consumed : Z) : SM Z :=
  if (0 <? height) || (0 <? zlen forcedTxs) then
    _ ← modify (fun s => set_checkpoint (MkCheckpoint (cp_DAHeight (checkpoint s))
                                           (add64 (cp_TxIndex (checkpoint s)) consumed)) s);
    s ← gets id;
    let txIndexForTimestamp := cp_TxIndex (checkpoint s) in
    _ ← (if zlen (cachedForcedInclusionTxs s) <=? cp_TxIndex (checkpoint s) then
           _ ← modify (set_checkpoint (MkCheckpoint (add64 height 1) 0));
           _ ← modify (set_cachedForcedInclusionTxs []);
           modify (SetDAHeight (add64 height 1))
         else mret tt);
    c ← gets checkpoint;
    _ ← on_checkpoint (CheckpointStore_Save singleCheckpointKey c);
    mret txIndexForTimestamp
  else mret 0.

Definition GetNextBatch (req : GetNextBatchRequest) : SM GetNextBatchResponse :=
  s ← gets id;
  if negb (isValid (req_Id req) s) then throw ErrInvalidId else
  let height := GetDAHeight s in
  _ ← bootstrap_checkpoint height;
  s ← gets id;
  height ← (if (0 <? height) && epoch_consumed s then fetchNextDAEpoch (MaxBytes req) else mret height);
  s ← gets id;
  let forcedTxs := remaining_forced s in
  mempoolTxs ← (if negb (isCatchingUp s) then on_queue (Drain (MaxBytes req)) else mret []);
  let allTxs := forcedTxs ++ mempoolTxs in
  maxGas ← on_executor getMaxGas;
  filterStatuses ← on_executor (filter_or_all allTxs (MaxBytes req) maxGas (0 <? zlen forcedTxs));
  f ← lift_res (filter_loop 0 filterStatuses allTxs (length forcedTxs) no_filtered);
  _ ← on_queue (SetPostponed (postponedMempoolTxs f));
  txIndexForTimestamp ← advance_checkpoint height forcedTxs (forcedTxConsumedCount f);
  let batchTxs := validForcedTxs f ++ validMempoolTxs f in
  now ← on_executor (infallible clock_Now);
  s ← gets id;
  let timestamp :=
    if isCatchingUp s || (0 <? forcedTxConsumedCount f)
    then currentDAEndTime s + neg_millis (currentEpochTxCount s) + millis txIndexForTimestamp
    else now in
  if isCatchingUp s && (zlen batchTxs =? 0) then throw ErrNoBatch else
  mret (MkNextResp batchTxs timestamp (LastBatchData req)).

Definition AckBatch : SM unit := on_queue Ack.

Definition VerifyBatch (i : bytes) (batchData : list bytes) : SM bool :=
  s ← gets id;
  if negb (isValid i s) then throw ErrInvalidId else
  proofs ← on_fi SeqDA (fi_GetProofs batchData (Id s));
  valid ← on_fi SeqDA (fi_Validate batchData proofs (Id s));
  mret (forallb id valid).

End sequencer.
