(* ===== verification/SingleSequencerFacts.v ===== *)
(** * Theorems on the single sequencer

    The order of the transactions of a batch and its tie to the executor, the
    exactly-once handing out of the forced inclusion transactions of an epoch, and
    catch-up. [consult] is the executor's answer in the order of the calls,
    [decided] and [select] describe what the filter loop of [GetNextBatch] does
    with a list of statuses. *)

From stdpp Require Import base gmap strings list numbers.
From S2P Require Import Prelude Datastore Types Serialization Store BatchQueue Epoch ForcedInclusion.
From S2P Require Import Sequencing SequencingFacts SingleSequencer.
Open Scope Z_scope.

(** ** The filter loop *)

(** The transactions with a given status. *)
Definition select (st : FilterStatus) (statuses : list FilterStatus) (txs : list bytes) : list bytes :=
  (List.filter (fun p => bool_decide (p.1 = st)) (zip statuses txs)).*2.

(** The statuses before the first [FilterPostpone]. *)
Fixpoint decided (statuses : list FilterStatus) : list FilterStatus :=
  match statuses with
  | [] | FilterPostpone :: _ => []
  | s :: l => s :: decided l
  end.

Lemma select_app st l1 l2 t1 t2 :
  length l1 = length t1 -> select st (l1 ++ l2) (t1 ++ t2) = select st l1 t1 ++ select st l2 t2.
Proof.
  intros Hl. unfold select. rewrite zip_with_app by done.
  by rewrite List.filter_app, fmap_app.
Qed.

Lemma select_cons st s l t ts :
  select st (s :: l) (t :: ts) = (if bool_decide (s = st) then [t] else []) ++ select st l ts.
Proof. unfold select. simpl. by destruct (bool_decide (s = st)). Qed.

Lemma select_take st l ts : select st l (take (length l) ts) = select st l ts.
Proof.
  revert ts. induction l as [|s l IH]; intros [|t ts]; try done.
  cbn [length take]. by rewrite !select_cons, IH.
Qed.

Lemma decided_prefix l : exists r, l = decided l ++ r.
Proof. induction l as [|[] l [r IH]]; simpl; [by exists []|exists r; by f_equal..|by eexists]. Qed.

Lemma decided_length l : (length (decided l) <= length l)%nat.
Proof. destruct (decided_prefix l) as [r Hr]. rewrite Hr at 2. rewrite length_app. lia. Qed.

Lemma decided_no_postpone l : FilterPostpone ∉ decided l.
Proof. induction l as [|[] l IH]; simpl; set_solver. Qed.

Lemma filter_loop_app i l1 l2 all n f :
  filter_loop i (l1 ++ l2) all n f
  = filter_loop i l1 all n f ≫= filter_loop (i + length l1) l2 all n.
Proof.
  revert i f. induction l1 as [|s l1 IH]; intros i f; cbn [app filter_loop length].
  - by rewrite Nat.add_0_r.
  - destruct (if (i <? n)%nat then _ else _) as [f'|e]; [|done]. cbn.
    rewrite IH. by rewrite Nat.add_succ_r.
Qed.

(** After the forced transactions, the statuses sort the mempool transactions. *)
Lemma filter_loop_mempool pre txs statuses n f :
  (n <= length pre)%nat -> length statuses = length txs ->
  filter_loop (length pre) statuses (pre ++ txs) n f
  = Ok (MkFiltered (validForcedTxs f) (validMempoolTxs f ++ select FilterOK statuses txs)
          (postponedMempoolTxs f ++ select FilterPostpone statuses txs)
          (forcedTxConsumedCount f) (forcedTxPostponed f)).
Proof.
  revert pre txs f. induction statuses as [|s l IH]; intros pre [|tx txs] f Hn Hl; try done.
  { simpl. rewrite !app_nil_r. by destruct f. }
  cbn [filter_loop]. destruct (Nat.ltb_spec (length pre) n); [lia|].
  unfold tx_at. rewrite list_lookup_middle by done.
  replace (S (length pre)) with (length (pre ++ [tx])) by (rewrite length_app; simpl; lia).
  rewrite !select_cons, (cons_middle tx pre txs), app_assoc.
  destruct s; cbn; rewrite IH by (rewrite ?length_app; simpl in *; lia); cbn; by rewrite <- ?app_assoc.
Qed.

(** Once a forced transaction is postponed the rest of them are left alone. *)
Lemma filter_loop_postponed i l all n f :
  (i + length l <= n)%nat -> forcedTxPostponed f = true -> filter_loop i l all n f = Ok f.
Proof.
  revert i. induction l as [|s l IH]; intros i Hn Hp; [done|]. cbn [filter_loop length] in *.
  destruct (Nat.ltb_spec i n); [|lia]. unfold filter_forced. rewrite Hp. cbn. apply IH; [lia|done].
Qed.

Lemma filter_loop_forced pre txs post statuses n f :
  (length pre + length txs <= n)%nat -> length statuses = length txs ->
  forcedTxPostponed f = false -> 0 <= forcedTxConsumedCount f ->
  forcedTxConsumedCount f + zlen txs < two64 ->
  filter_loop (length pre) statuses (pre ++ txs ++ post) n f
  = Ok (MkFiltered (validForcedTxs f ++ select FilterOK (decided statuses) txs) (validMempoolTxs f)
          (postponedMempoolTxs f) (forcedTxConsumedCount f + zlen (decided statuses))
          (negb (length (decided statuses) =? length statuses)%nat)).
Proof.
  revert pre txs f. induction statuses as [|s l IH]; intros pre [|tx txs] f Hn Hl Hp Hpos Hb; try done.
  { unfold zlen. simpl. rewrite app_nil_r, Z.add_0_r. destruct f; simpl in *. by subst. }
  cbn [filter_loop length] in *. destruct (Nat.ltb_spec (length pre) n); [|lia].
  rewrite <- app_comm_cons. unfold tx_at, filter_forced. rewrite list_lookup_middle, Hp by done.
  unfold zlen in Hb. cbn [length] in Hb.
  assert (Hpre : S (length pre) = length (pre ++ [tx])) by (rewrite length_app; simpl; lia).
  destruct s; cbn [mbind res_bind decided length].
  1,2: rewrite Hpre, (cons_middle tx pre (txs ++ post)), app_assoc, IH;
    [|rewrite length_app; simpl; lia|lia|done|cbn; rewrite add64_small; lia
     |cbn; rewrite add64_small by lia; unfold zlen; lia];
    cbn [validForcedTxs validMempoolTxs postponedMempoolTxs forcedTxConsumedCount forcedTxPostponed];
    rewrite add64_small, select_cons, <- ?app_assoc by lia; unfold zlen; cbn [length];
    f_equal; f_equal; lia.
  rewrite filter_loop_postponed; [|lia|done]. unfold zlen. simpl. by rewrite app_nil_r, Z.add_0_r.
Qed.

(** The whole loop. *)
Lemma filter_loop_spec forced mempool statuses :
  length statuses = length (forced ++ mempool) -> zlen forced < two64 ->
  let fs := take (length forced) statuses in
  let ms := drop (length forced) statuses in
  filter_loop 0 statuses (forced ++ mempool) (length forced) no_filtered
  = Ok (MkFiltered (select FilterOK (decided fs) forced) (select FilterOK ms mempool)
          (select FilterPostpone ms mempool) (zlen (decided fs))
          (negb (length (decided fs) =? length forced)%nat)).
Proof.
  intros Hlen Hb fs ms. rewrite length_app in Hlen.
  assert (Hfs : length fs = length forced) by (subst fs; rewrite length_take; lia).
  assert (Hms : length ms = length mempool) by (subst ms; rewrite length_drop; lia).
  rewrite <- (take_drop (length forced) statuses). fold fs ms. rewrite filter_loop_app.
  rewrite (filter_loop_forced [] forced mempool fs); [|simpl; lia|done|done|simpl; lia|simpl; lia].
  cbn [mbind res_bind]. rewrite Hfs. rewrite Nat.add_0_l, filter_loop_mempool by done. done.
Qed.

(** ** One batch *)

Section facts.
Context {DB : Type} `{DatastoreLaws DB} `{HashText} {PK : Type} `{PubKeys PK} `{Wire}.
Context `{ProtoMsg pbVersion, ProtoMsg pbHeader, ProtoMsg pbSignedHeader, ProtoMsg pbMetadata,
          ProtoMsg pbData, ProtoMsg pbState, ProtoMsg pbBatch, ProtoMsg pbCheckpoint}.
Context `{!ProtoLaws pbCheckpoint id (fun m => is_u64 (pc_DaHeight m) /\ is_u64 (pc_TxIndex m))}.
Context {F : Type} `{FISource F} `{!FISourceLaws F} {X : Type} `{Executor X} `{!ExecutorLaws X}.

Abbreviation S := (Sequencer DB F X).

(** Draining never fails. *)
Lemma Drain_total n (q : BatchQueue DB) : exists txs q', Drain n q = (Ok txs, q').
Proof.
  cut (wp (Drain n) (fun r _ => is_ok r = true) q).
  { unfold wp. destruct (Drain n q) as [[txs|e] q']; [by eexists _, _|done]. }
  unfold Drain. apply wp_bind. unfold rollbackInFlightLocked.
  assert (Htail : forall q1, wp (q ← gets id;
     if (length (queue q) <=? head q)%nat then mret [] else
     let '(allTxs, q') := drain_loop (length (queue q) - head q) n 0 [] q in
     _ ← modify (fun _ => q'); _ ← compactLocked; mret allTxs)
     (fun (r : res queue_error (list bytes)) _ => is_ok r = true) (q1 : BatchQueue DB)).
  { intros q1. apply wp_bind, wp_gets. destruct (_ <=? _)%nat; [done|].
    by destruct (drain_loop _ _ _ _ _). }
  apply wp_bind, wp_gets. destruct (zlen (inFlight (id q)) =? 0); [apply wp_ret, Htail|].
  apply wp_bind. destruct (postponedItem (id q)) as [it|].
  - apply wp_bind, wp_attempt. unfold wp. destruct (on_db _ q) as [r q1]. apply Htail.
  - apply wp_ret, Htail.
Qed.

(** The body of [GetNextBatch] once the epoch at hand is known. *)
Definition finish_batch (req : GetNextBatchRequest) (height : Z) : SM (DB := DB) (F := F) (X := X) GetNextBatchResponse :=
  s ← gets id;
  let forcedTxs := remaining_forced s in
  mempoolTxs ← (if negb (isCatchingUp s) then on_queue (Drain (MaxBytes req)) else mret []);
  let allTxs := forcedTxs ++ mempoolTxs in
  maxGas ← on_executor getMaxGas;
  filterStatuses ← on_executor (filter_or_all allTxs (MaxBytes req) maxGas (0 <? zlen forcedTxs));
  f ← lift_res (filter_loop 0 filterStatuses allTxs (length forcedTxs) no_filtered);
  _ ← on_queue (SetPostponed (postponedMempoolTxs f));
  txIndexForTimestamp ← advance_checkpoint height forcedTxs (forcedTxConsumedCount f);
  let batchTxs := validForcedTxs f ++ validMempoolTxs f in
  now ← on_executor (infallible clock_Now);
  s ← gets id;
  let timestamp :=
    if isCatchingUp s || (0 <? forcedTxConsumedCount f)
    then currentDAEndTime s + neg_millis (currentEpochTxCount s) + millis txIndexForTimestamp
    else now in
  if isCatchingUp s && (zlen batchTxs =? 0) then throw ErrNoBatch else
  mret (MkNextResp batchTxs timestamp (LastBatchData req)).

(** What no part of a batch changes. *)
Definition config (s : S) := (genesis s, Id s, fiRetriever s, catchUpState s, currentDAEndTime s, currentEpochTxCount s).
(** The position in the DA epochs. *)
Definition position (s : S) := (checkpoint s, cachedForcedInclusionTxs s, daHeight s).

(** The position after [k] more forced transactions were consumed. *)
Definition next_position (s : S) (height k : Z) : Checkpoint * list bytes * Z :=
  if zlen (cachedForcedInclusionTxs s) <=? cp_TxIndex (checkpoint s) + k
  then (MkCheckpoint (add64 height 1) 0, [], add64 height 1)
  else (MkCheckpoint (cp_DAHeight (checkpoint s)) (cp_TxIndex (checkpoint s) + k),
        cachedForcedInclusionTxs s, daHeight s).

(** The cached forced transactions that are not consumed. *)
Definition outstanding (s : S) : list bytes :=
  drop (Z.to_nat (cp_TxIndex (checkpoint s))) (cachedForcedInclusionTxs s).

Lemma remaining_outstanding (s : S) : 0 <= cp_TxIndex (checkpoint s) -> remaining_forced s = outstanding s.
Proof.
  intros Hpos. unfold remaining_forced, outstanding.
  destruct (Z.ltb_spec (cp_TxIndex (checkpoint s)) (zlen (cachedForcedInclusionTxs s))) as [Hlt|Hge].
  - destruct (Z.ltb_spec 0 (zlen (cachedForcedInclusionTxs s))); [done|lia].
  - rewrite andb_false_r, drop_ge; [done|]. unfold zlen in Hge. lia.
Qed.

Lemma consumed_outstanding (s : S) :
  0 <= cp_TxIndex (checkpoint s) -> epoch_consumed s = bool_decide (outstanding s = []).
Proof.
  intros Hpos. unfold epoch_consumed, outstanding. symmetry.
  assert (Hl : length (drop (Z.to_nat (cp_TxIndex (checkpoint s))) (cachedForcedInclusionTxs s))
    = (length (cachedForcedInclusionTxs s) - Z.to_nat (cp_TxIndex (checkpoint s)))%nat) by apply length_drop.
  unfold zlen. destruct (Z.leb_spec (Z.of_nat (length (cachedForcedInclusionTxs s))) (cp_TxIndex (checkpoint s))).
  - rewrite orb_true_r, bool_decide_eq_true. apply nil_length_inv. lia.
  - destruct (Z.eqb_spec (Z.of_nat (length (cachedForcedInclusionTxs s))) 0); [lia|].
    rewrite bool_decide_eq_false. intros Hn. rewrite Hn in Hl. simpl in Hl. lia.
Qed.

(** Whether the checkpoint is touched. *)
Definition advances (s : S) (height : Z) : bool := (0 <? height) || (0 <? zlen (outstanding s)).

Lemma advance_checkpoint_spec height k (s : S) :
  is_u64 height -> checkpoint_ok (checkpoint s) -> 0 <= k ->
  is_u64 (cp_TxIndex (checkpoint s) + k) ->
  wp (advance_checkpoint height (outstanding s) k) (fun r s' =>
    config s' = config s /\ seq_queue s' = seq_queue s /\ executor s' = executor s /\
    if advances s height then
      position s' = next_position s height k /\
      match r with
      | Ok t => t = cp_TxIndex (checkpoint s) + k /\ saved singleCheckpointKey (checkpointStore s') (checkpoint s')
      | Err e => exists c, e = SeqCheckpoint c
      end
    else position s' = position s /\ r = Ok 0) s.
Proof.
  intros Hh [Hc1 Hc2] Hk Hidx. unfold advance_checkpoint, advances.
  destruct ((0 <? height) || (0 <? zlen (outstanding s))) eqn:Hadv; [|done].
  assert (Hadd : add64 (cp_TxIndex (checkpoint s)) k = cp_TxIndex (checkpoint s) + k)
    by (by apply add64_small).
  apply wp_bind, wp_modify, wp_bind, wp_gets. cbn [id checkpoint set_checkpoint cp_TxIndex cp_DAHeight].
  cbn [cachedForcedInclusionTxs set_checkpoint]. rewrite Hadd. unfold next_position.
  destruct (zlen (cachedForcedInclusionTxs s) <=? cp_TxIndex (checkpoint s) + k); apply wp_bind.
  - apply wp_bind, wp_modify, wp_bind, wp_modify, wp_modify, wp_bind, wp_gets, wp_bind, wp_zoom, wp_wrap.
    eapply wp_mono; [apply Save_spec|].
    { split; simpl; [apply u64_range|done]. }
    intros [[]|e] d Hd; cbn [map_err]; [apply wp_ret|]; split_and!; try done. by eexists.
  - apply wp_ret, wp_bind, wp_gets, wp_bind, wp_zoom, wp_wrap.
    eapply wp_mono; [apply Save_spec|].
    { split; simpl; done. }
    intros [[]|e] d Hd; cbn [map_err]; [apply wp_ret|]; split_and!; try done. by eexists.
Qed.

(** The answer of the executor on the transactions [all], in the order of its
    calls: the statuses of [FilterTxs] under the gas limit it reports (none if it
    fails to), or [FilterOK] for all when [FilterTxs] fails. *)
Definition consult (all : list bytes) (maxBytes : Z) (x : X) (forced : bool) : list FilterStatus * X :=
  let '(info, x1) := GetExecutionInfo x in
  match FilterTxs all maxBytes (match info with Ok gas => gas | Err _ => 0 end) forced x1 with
  | (Ok statuses, x2) => (statuses, x2)
  | (Err _, x2) => (replicate (length all) FilterOK, x2)
  end.

(** The mempool transactions of a batch and the queue they leave: none during
    catch-up. *)
Definition drain_for (maxBytes : Z) (s : S) : list bytes * BatchQueue DB :=
  if isCatchingUp s then ([], seq_queue s) else
  match Drain maxBytes (seq_queue s) with (Ok txs, q) => (txs, q) | (Err _, q) => ([], q) end.
Definition drained (maxBytes : Z) (s : S) : list bytes := (drain_for maxBytes s).1.

(** The executor's answer on the outstanding forced transactions followed by the
    drained ones, and the parts of it: the forced transactions are decided up to
    the first that is postponed. *)
Definition answer (maxBytes : Z) (s : S) : list FilterStatus * X :=
  consult (outstanding s ++ drained maxBytes s) maxBytes (executor s) (negb (bool_decide (outstanding s = []))).
Definition forced_statuses (maxBytes : Z) (s : S) : list FilterStatus :=
  decided (take (length (outstanding s)) (answer maxBytes s).1).
Definition mempool_statuses (maxBytes : Z) (s : S) : list FilterStatus :=
  drop (length (outstanding s)) (answer maxBytes s).1.

Definition batch_forced (maxBytes : Z) (s : S) : list bytes :=
  select FilterOK (forced_statuses maxBytes s) (outstanding s).
Definition batch_mempool (maxBytes : Z) (s : S) : list bytes :=
  select FilterOK (mempool_statuses maxBytes s) (drained maxBytes s).
Definition kept_mempool (maxBytes : Z) (s : S) : list bytes :=
  select FilterPostpone (mempool_statuses maxBytes s) (drained maxBytes s).
(** The number of forced transactions decided. *)
Definition consumed (maxBytes : Z) (s : S) : Z := zlen (forced_statuses maxBytes s).

(** The outcome of a batch: everything but the database of the checkpoint is
    given by the state [s] the batch is made in. *)
Definition batch_post (req : GetNextBatchRequest) (height : Z) (s : S) (r : res seq_error GetNextBatchResponse)
  (s' : S) : Prop :=
  let n := MaxBytes req in
  config s' = config s /\
  seq_queue s' = (SetPostponed (kept_mempool n s) (drain_for n s).2).2 /\
  position s' = (if advances s height then next_position s height (consumed n s) else position s) /\
  match r with
  | Ok resp =>
      resp_Transactions resp = batch_forced n s ++ batch_mempool n s /\ BatchData resp = LastBatchData req /\
      (advances s height = true -> saved singleCheckpointKey (checkpointStore s') (checkpoint s')) /\
      (isCatchingUp s = true -> resp_Transactions resp <> []) /\
      resp_Timestamp resp =
        (if isCatchingUp s || (0 <? consumed n s)
         then currentDAEndTime s + neg_millis (currentEpochTxCount s)
              + millis (if advances s height then cp_TxIndex (checkpoint s) + consumed n s else 0)
         else (clock_Now (answer n s).2).1)
  | Err e =>
      e = ErrNoBatch /\ isCatchingUp s = true /\ batch_forced n s = [] /\
        (advances s height = true -> saved singleCheckpointKey (checkpointStore s') (checkpoint s')) \/
      exists c, e = SeqCheckpoint c
  end.

Lemma outstanding_length (s : S) :
  0 <= cp_TxIndex (checkpoint s) ->
  0 < zlen (outstanding s) ->
  cp_TxIndex (checkpoint s) + zlen (outstanding s) = zlen (cachedForcedInclusionTxs s).
Proof. unfold outstanding, zlen. intros Hpos Hlt. rewrite length_drop in *. lia. Qed.

Lemma config_catching (s s' : S) : config s' = config s -> isCatchingUp s' = isCatchingUp s.
Proof. unfold config, isCatchingUp. by intros [= _ _ _ -> _ _]. Qed.

(** Draining, or not, ahead of the filter. *)
Lemma wp_drain_phase {A} maxBytes (k : list bytes -> SM A) Q (s : S) :
  wp (k (drained maxBytes s)) Q (set_seq_queue (drain_for maxBytes s).2 s) ->
  wp (txs ← (if negb (isCatchingUp s) then on_queue (Drain maxBytes) else mret []); k txs) Q s.
Proof.
  unfold drained, drain_for. intros Hk. apply wp_bind. destruct (isCatchingUp s) eqn:Hcu; simpl.
  - apply wp_ret. by destruct s.
  - apply wp_zoom, wp_wrap. destruct (Drain_total maxBytes (seq_queue s)) as (txs & q & Hd).
    rewrite Hd in Hk. unfold wp at 1. rewrite Hd. exact Hk.
Qed.

Lemma consult_length all maxBytes x forced : length ((consult all maxBytes x forced).1) = length all.
Proof.
  unfold consult. destruct (GetExecutionInfo x) as [info x1].
  destruct (FilterTxs all maxBytes _ forced x1) as [[l|e] x2] eqn:Hf; simpl; [|apply length_replicate].
  by eapply FilterTxs_length.
Qed.

(** The executor's two calls change nothing but the executor. *)
Lemma wp_filter_phase {A} all maxBytes forced (k : list FilterStatus -> SM A) Q (s : S) :
  (let '(l, x) := consult all maxBytes (executor s) forced in wp (k l) Q (set_executor x s)) ->
  wp (maxGas ← on_executor getMaxGas; l ← on_executor (filter_or_all all maxBytes maxGas forced); k l) Q s.
Proof.
  unfold consult, getMaxGas, filter_or_all. intros Hk. apply wp_bind, wp_zoom, wp_bind, wp_attempt. unfold wp at 1.
  destruct (GetExecutionInfo (executor s)) as [info x1]. cbn [fst snd].
  destruct info as [g|e]; apply wp_ret, wp_bind, wp_zoom, wp_bind, wp_attempt; unfold wp at 1; cbn [executor set_executor];
    (destruct (FilterTxs all maxBytes _ forced x1) as [[l|e'] x2]; cbn [fst snd]; apply wp_ret; exact Hk).
Qed.

(** The index stays in range. *)
Lemma consumed_range (s : S) k :
  checkpoint_ok (checkpoint s) -> zlen (cachedForcedInclusionTxs s) < two64 ->
  0 <= k <= zlen (outstanding s) -> is_u64 (cp_TxIndex (checkpoint s) + k).
Proof.
  intros [_ [Hp Hp']] Hlen Hk. unfold is_u64. pose proof (outstanding_length s Hp).
  destruct (Z.eq_dec k 0) as [->|]; lia.
Qed.

(** The batch is handed out, or refused when it is empty during catch-up. *)
Lemma batch_result_spec req (f : filtered) t (Q : res seq_error GetNextBatchResponse -> S -> Prop) s :
  (let now := (clock_Now (executor s)).1 in let s' := set_executor (clock_Now (executor s)).2 s in
    let batchTxs := validForcedTxs f ++ validMempoolTxs f in
    (isCatchingUp s = true -> batchTxs = [] -> Q (Err ErrNoBatch) s') /\
    ((isCatchingUp s = true -> batchTxs <> []) ->
     Q (Ok (MkNextResp batchTxs
         (if isCatchingUp s || (0 <? forcedTxConsumedCount f)
          then currentDAEndTime s + neg_millis (currentEpochTxCount s) + millis t else now)
         (LastBatchData req))) s')) ->
  wp (now ← on_executor (infallible clock_Now);
      s ← gets id;
      if isCatchingUp s && (zlen (validForcedTxs f ++ validMempoolTxs f) =? 0) then throw ErrNoBatch else
      mret (MkNextResp (validForcedTxs f ++ validMempoolTxs f)
         (if isCatchingUp s || (0 <? forcedTxConsumedCount f)
          then currentDAEndTime s + neg_millis (currentEpochTxCount s) + millis t else now)
         (LastBatchData req))) Q s.
Proof.
  intros HQ. apply wp_bind, wp_zoom, wp_infallible, wp_bind, wp_gets. cbn [id].
  cbv zeta in HQ. destruct (clock_Now (executor s)) as [now x]. cbn [fst snd] in *. destruct HQ as [Herr Hok].
  change (isCatchingUp (set_executor x s)) with (isCatchingUp s).
  destruct (isCatchingUp s); cbn [andb orb] in *; [|by apply wp_ret, Hok].
  destruct (Z.eqb_spec (zlen (validForcedTxs f ++ validMempoolTxs f)) 0) as [Hz|Hz].
  - apply Herr; [done|]. by apply zlen_zero.
  - apply wp_ret, Hok. intros _ Hn. by rewrite Hn in Hz.
Qed.

Lemma finish_batch_spec req height (s : S) :
  is_u64 height -> checkpoint_ok (checkpoint s) -> zlen (cachedForcedInclusionTxs s) < two64 ->
  wp (finish_batch req height) (batch_post req height s) s.
Proof.
  intros Hh Hcp Hlen. unfold finish_batch. wp_read. cbv zeta. rewrite (remaining_outstanding s (proj1 (proj2 Hcp))).
  apply wp_drain_phase, wp_filter_phase. cbn [executor set_seq_queue].
  set (n := MaxBytes req). set (forced := outstanding s).
  assert (Hflag : (0 <? zlen forced) = negb (bool_decide (forced = []))) by (by destruct forced).
  rewrite Hflag. change (consult (forced ++ drained n s) n (executor s) _) with (answer n s).
  destruct (answer n s) as [statuses x] eqn:Ha.
  assert (Hl : length statuses = length (forced ++ drained n s)).
  { pose proof (consult_length (forced ++ drained n s) n (executor s) (negb (bool_decide (forced = [])))) as Hc.
    change (length (answer n s).1 = length (forced ++ drained n s)) in Hc. by rewrite Ha in Hc. }
  assert (Hf : zlen forced < two64).
  { pose proof (outstanding_length s (proj1 (proj2 Hcp))). pose proof (zlen_nonneg forced).
    destruct (Z.eq_dec (zlen forced) 0) as [->|]; [done|]. destruct Hcp as [_ [Hp _]]. unfold forced in *. lia. }
  rewrite (filter_loop_spec forced _ statuses Hl Hf). apply wp_bind, wp_lift_res.
  set (fs := decided (take (length forced) statuses)).
  assert (Hfs : forced_statuses n s = fs) by (unfold forced_statuses; by rewrite Ha).
  assert (Hms : drop (length forced) statuses = mempool_statuses n s) by (unfold mempool_statuses; by rewrite Ha).
  rewrite Hms, <- Hfs. fold (batch_mempool n s) (kept_mempool n s) (batch_forced n s) (consumed n s).
  change (select FilterOK (forced_statuses n s) forced) with (batch_forced n s).
  apply wp_bind, wp_zoom, wp_wrap. cbn [postponedMempoolTxs forcedTxConsumedCount]. apply wp_modify.
  cbn [map_err]. set (s4 := set_seq_queue _ _).
  assert (Hk : 0 <= consumed n s <= zlen forced).
  { split; [apply zlen_nonneg|]. unfold consumed, zlen. rewrite Hfs.
    pose proof (decided_length (take (length forced) statuses)) as Hd. rewrite length_take in Hd. subst fs. lia. }
  change forced with (outstanding s4).
  apply wp_bind. eapply wp_mono; [apply advance_checkpoint_spec; [done|exact Hcp|apply Hk|by apply consumed_range]|].
  intros r s5 (Hcfg & Hqu & Hex & Hpos). change (advances s4 height) with (advances s height) in Hpos.
  unfold batch_post. fold n.
  destruct r as [t|e]; cycle 1.
  { destruct (advances s height) eqn:Hadv; [|by destruct Hpos as [_ [=]]].
    destruct Hpos as [Hpos [c ->]]. split_and!; try done. right. by exists c. }
  assert (Ht : t = (if advances s height then cp_TxIndex (checkpoint s) + consumed n s else 0) /\
    position s5 = (if advances s height then next_position s height (consumed n s) else position s) /\
    (advances s height = true -> saved singleCheckpointKey (checkpointStore s5) (checkpoint s5))).
  { destruct (advances s height); [destruct Hpos as [? [? ?]]; done|].
    destruct Hpos as [? [= ->]]. done. }
  destruct Ht as (-> & Hps & Hsv). pose proof (config_catching _ _ Hcfg) as Hcu.
  change (isCatchingUp s4) with (isCatchingUp s) in Hcu.
  apply (batch_result_spec req (MkFiltered _ _ _ _ _)). intros now s6 batch. cbn [validForcedTxs validMempoolTxs forcedTxConsumedCount] in *.
  split.
  - intros Hc Hb. split_and!; try done. left. rewrite Hcu in Hc. apply app_eq_nil in Hb as [Hb _]. done.
  - intros Hb. split_and!; try done; cbn [resp_Transactions resp_Timestamp].
    + intros Hc. apply Hb. by rewrite Hcu.
    + rewrite Hcu. unfold config in Hcfg. injection Hcfg as _ _ _ _ -> ->. subst now. rewrite Hex, Ha. done.
Qed.

(** ** An epoch *)

(** Some forced transactions of the epoch [txs] at the sequencer's DA height,
    those from index [i] on, have not been consumed. *)
Definition in_epoch (s : S) (txs : list bytes) (i : Z) : Prop :=
  cachedForcedInclusionTxs s = txs /\ cp_TxIndex (checkpoint s) = i /\ 0 <= i < zlen txs /\
  zlen txs < two64 /\ 0 < daHeight s < two64 /\ cp_DAHeight (checkpoint s) = daHeight s.

Lemma in_epoch_outstanding s txs i : in_epoch s txs i -> outstanding s = drop (Z.to_nat i) txs.
Proof. intros (Ht & Hi & _). unfold outstanding. by rewrite Ht, Hi. Qed.

Lemma in_epoch_batch s txs i req :
  in_epoch s txs i -> isValid (req_Id req) s = true ->
  GetNextBatch req s = finish_batch req (daHeight s) s.
Proof.
  intros (Ht & Hi & Hr & Hl & Hd & Hc) Hv. unfold GetNextBatch.
  run_read. rewrite Hv. cbn [negb]. cbv zeta.
  assert (Hb : bootstrap_checkpoint (GetDAHeight s) s = (Ok tt, s)).
  { unfold bootstrap_checkpoint, GetDAHeight. run_read.
    destruct (Z.eqb_spec (cp_DAHeight (checkpoint s)) 0); [lia|]. by rewrite andb_false_r. }
  rewrite (run_bind _ _ _ _ _ Hb), run_gets. cbn [id].
  assert (He : epoch_consumed s = false).
  { unfold epoch_consumed. rewrite Ht, Hi. destruct (Z.eqb_spec (zlen txs) 0); [lia|].
    destruct (Z.leb_spec (zlen txs) i); [lia|done]. }
  rewrite He, andb_false_r. done.
Qed.

Lemma get_next_batch_valid req (s : S) r s' :
  GetNextBatch req s = (r, s') -> r <> Err ErrInvalidId -> isValid (req_Id req) s = true.
Proof.
  unfold GetNextBatch. run_read.
  destruct (isValid (req_Id req) s); [done|]. by intros [= <- <-].
Qed.

(** The position after a batch of the epoch. *)
Lemma in_epoch_next s txs i height k s' :
  in_epoch s txs i -> height = daHeight s -> 0 <= k <= zlen txs - i ->
  position s' = next_position s height k ->
  (i + k < zlen txs /\ in_epoch s' txs (i + k) /\ daHeight s' = daHeight s) \/
  (i + k = zlen txs /\ position s' = (MkCheckpoint (add64 (daHeight s) 1) 0, [], add64 (daHeight s) 1)).
Proof.
  intros (Ht & Hi & Hr & Hl & Hd & Hc) -> Hk Hp. unfold next_position in Hp. rewrite Ht, Hi, Hc in Hp.
  destruct (Z.leb_spec (zlen txs) (i + k)); [right; split; [lia|done]|left].
  unfold position in Hp. injection Hp as Hp1 Hp2 Hp3.
  split_and!; [done| |done]. unfold in_epoch. rewrite Hp1, Hp2, Hp3. simpl. split_and!; done || lia.
Qed.

(** A call of [GetNextBatch]: the state it found, the request and the result. *)
Record call := MkCall
  { c_state : S; c_request : GetNextBatchRequest; c_result : res seq_error GetNextBatchResponse }.

(** What the sequencer does until the epoch is consumed: batches are asked for
    (with any limits, and refused when they are empty during catch-up), while
    transactions are submitted and batches acknowledged; the list is that of
    the calls for a batch. *)
Inductive epoch_run : S -> list call -> S -> Prop :=
| epoch_end s : cachedForcedInclusionTxs s = [] -> epoch_run s [] s
| epoch_batch s req resp s1 log s2 :
    cachedForcedInclusionTxs s <> [] -> GetNextBatch req s = (Ok resp, s1) ->
    epoch_run s1 log s2 -> epoch_run s (MkCall s req (Ok resp) :: log) s2
| epoch_no_batch s req s1 log s2 :
    cachedForcedInclusionTxs s <> [] -> GetNextBatch req s = (Err ErrNoBatch, s1) ->
    epoch_run s1 log s2 -> epoch_run s (MkCall s req (Err ErrNoBatch) :: log) s2
| epoch_submit s req r s1 log s2 :
    SubmitBatchTxs req s = (r, s1) -> epoch_run s1 log s2 -> epoch_run s log s2
| epoch_ack s r s1 log s2 :
    AckBatch s = (r, s1) -> epoch_run s1 log s2 -> epoch_run s log s2.

Lemma on_queue_position {A} (m : M (BatchQueue DB) queue_error A) (s : S) r s' :
  on_queue m s = (r, s') -> position s' = position s.
Proof. unfold on_queue, zoom, wrap. destruct (m (seq_queue s)). by intros [= _ <-]. Qed.

Lemma submit_position req (s : S) r s' : SubmitBatchTxs req s = (r, s') -> position s' = position s.
Proof.
  unfold SubmitBatchTxs. run_read. destruct (isValid _ s); [|by intros [= _ <-]].
  destruct (sub_Batch req) as [txs|]; [|by intros [= _ <-]].
  simpl. destruct (zlen txs =? 0); [by intros [= _ <-]|]. apply on_queue_position.
Qed.

Lemma in_epoch_position s s' txs i : position s' = position s -> in_epoch s txs i -> in_epoch s' txs i.
Proof. unfold position, in_epoch. by intros [= -> -> ->]. Qed.

(** The statuses the executor gives in a call when the forced transactions [txs]
    are offered to it ahead of the drained ones. *)
Definition call_statuses (txs : list bytes) (c : call) : list FilterStatus :=
  let n := MaxBytes (c_request c) in
  (consult (txs ++ drained n (c_state c)) n (executor (c_state c)) (negb (bool_decide (txs = [])))).1.
(** Those of [txs] that it decides: the ones before the first it postpones. *)
Definition call_decides (txs : list bytes) (c : call) : list FilterStatus :=
  decided (take (length txs) (call_statuses txs c)).

(** The calls go through [txs] once and in order: each is offered what the calls
    before it left undecided, the batch it returns is the part of it that the
    executor accepts followed by the accepted mempool transactions (a call that
    returns no batch has none to hand out), and the last leaves nothing. *)
Fixpoint exactly_once (txs : list bytes) (log : list call) : Prop :=
  match log with
  | [] => txs = []
  | c :: log' =>
      let fs := call_decides txs c in
      match c_result c with
      | Ok resp => resp_Transactions resp = select FilterOK fs txs ++
          select FilterOK (drop (length txs) (call_statuses txs c)) (drained (MaxBytes (c_request c)) (c_state c))
      | Err _ => select FilterOK fs txs = []
      end /\ exactly_once (drop (length fs) txs) log'
  end.

Lemma in_epoch_checkpoint s txs i : in_epoch s txs i -> checkpoint_ok (checkpoint s) /\ is_u64 (daHeight s).
Proof. unfold in_epoch, checkpoint_ok, is_u64. intros (_ & -> & ? & ? & ? & ->). lia. Qed.

(** One call within the epoch, whether or not it returns a batch. *)
Lemma in_epoch_step s txs i req r s1 :
  in_epoch s txs i -> GetNextBatch req s = (r, s1) -> r <> Err ErrInvalidId ->
  let left := drop (Z.to_nat i) txs in
  let fs := call_decides left (MkCall s req r) in
  (length fs <= length left)%nat /\
  (i + zlen fs < zlen txs /\ in_epoch s1 txs (i + zlen fs) /\ daHeight s1 = daHeight s \/
   i + zlen fs = zlen txs /\
     position s1 = (MkCheckpoint (add64 (daHeight s) 1) 0, [], add64 (daHeight s) 1)) /\
  match r with
  | Ok resp => resp_Transactions resp = select FilterOK fs left ++
      select FilterOK (drop (length left) (call_statuses left (MkCall s req r))) (drained (MaxBytes req) s)
  | Err ErrNoBatch => select FilterOK fs left = []
  | Err _ => True
  end.
Proof.
  intros Hin Hrun Hne left fs. pose proof (get_next_batch_valid _ _ _ _ Hrun Hne) as Hv.
  rewrite (in_epoch_batch s txs i req Hin Hv) in Hrun. destruct (in_epoch_checkpoint _ _ _ Hin) as [Hck Hu].
  assert (Hlen : zlen (cachedForcedInclusionTxs s) < two64) by (destruct Hin as (-> & _ & _ & ? & _); lia).
  destruct (wp_run _ _ _ _ _ (finish_batch_spec req (daHeight s) s Hu Hck Hlen) Hrun) as (_ & _ & Hpos & Hres).
  assert (Hadv : advances s (daHeight s) = true).
  { unfold advances. destruct Hin as (_ & _ & _ & _ & Hd & _). by destruct (Z.ltb_spec 0 (daHeight s)); [|lia]. }
  rewrite Hadv in Hpos. pose proof (in_epoch_outstanding s txs i Hin) as Hout. fold left in Hout.
  assert (Hfs : forced_statuses (MaxBytes req) s = fs) by (unfold forced_statuses, answer; by rewrite Hout).
  assert (Hms : mempool_statuses (MaxBytes req) s = drop (length left) (call_statuses left (MkCall s req r)))
    by (unfold mempool_statuses, answer; by rewrite Hout).
  assert (Hl : (length fs <= length left)%nat).
  { subst fs. unfold call_decides. pose proof (decided_length (take (length left) (call_statuses left (MkCall s req r)))) as Hd.
    rewrite length_take in Hd. lia. }
  unfold consumed in Hpos. unfold batch_forced, batch_mempool in Hres. rewrite Hfs, Hout, ?Hms in *. split_and!; try done.
  - apply (in_epoch_next s txs i (daHeight s)); try done. unfold zlen in *. subst left.
    rewrite length_drop in Hl. destruct Hin as (_ & _ & Hi & _). unfold zlen in Hi. lia.
  - destruct r as [resp|e]; [by destruct Hres as [? _]|].
    destruct Hres as [(-> & _ & Hb & _)|[c ->]]; done.
Qed.

(** The position at the end of the epoch at DA height [h]. *)
Definition epoch_over (s : S) (h : Z) : Prop :=
  position s = (MkCheckpoint (add64 h 1) 0, [], add64 h 1).

Lemma epoch_run_over s1 log s2 h :
  epoch_run s1 log s2 -> epoch_over s1 h -> exactly_once [] log /\ epoch_over s2 h.
Proof.
  unfold epoch_over.
  induction 1 as [s Hc|s req resp s1 log s2 Hc|s req s1 log s2 Hc
      |s req r s1 log s2 Hsub Hrun IH|s r s1 log s2 Hack Hrun IH]; intros Hp.
  - done.
  - unfold position in Hp. congruence.
  - unfold position in Hp. congruence.
  - apply IH. by rewrite (submit_position _ _ _ _ Hsub).
  - apply IH. by rewrite (on_queue_position _ _ _ _ Hack).
Qed.

(** What is left of the epoch after a batch is processed by the rest of the run. *)
Lemma epoch_continue s s1 s2 log txs i (fs : list FilterStatus) :
  in_epoch s txs i -> epoch_run s1 log s2 ->
  (i + zlen fs < zlen txs /\ in_epoch s1 txs (i + zlen fs) /\ daHeight s1 = daHeight s \/
   i + zlen fs = zlen txs /\ epoch_over s1 (daHeight s)) ->
  (forall j, in_epoch s1 txs j -> exactly_once (drop (Z.to_nat j) txs) log /\ epoch_over s2 (daHeight s1)) ->
  exactly_once (drop (length fs) (drop (Z.to_nat i) txs)) log /\ epoch_over s2 (daHeight s).
Proof.
  intros (_ & _ & Hi & _) Hrun Hnext IH. rewrite drop_drop. unfold zlen in *.
  destruct Hnext as [(_ & Hin1 & Hd)|[Hend Hp]].
  - destruct (IH _ Hin1) as [He Ho]. rewrite Hd in Ho. by rewrite Z2Nat.inj_add, Nat2Z.id in He by lia.
  - rewrite drop_ge by lia. by apply (epoch_run_over s1).
Qed.

Lemma epoch_run_spec s log s' txs i :
  epoch_run s log s' -> in_epoch s txs i ->
  exactly_once (drop (Z.to_nat i) txs) log /\ epoch_over s' (daHeight s).
Proof.
  intros Hrun. revert i.
  induction Hrun as [s Hc|s req resp s1 log s2 Hc Hb Hrun IH|s req s1 log s2 Hc Hb Hrun IH
    |s req r s1 log s2 Hsub Hrun IH|s r s1 log s2 Hack Hrun IH]; intros i Hin.
  - destruct Hin as (<- & _ & Hi & _). rewrite Hc in Hi. unfold zlen in Hi. simpl in Hi. lia.
  - destruct (in_epoch_step _ _ _ _ _ _ Hin Hb ltac:(done)) as (Hl & Hnext & Hres).
    destruct (epoch_continue _ _ _ _ _ _ _ Hin Hrun Hnext IH) as [He Ho]. by split.
  - destruct (in_epoch_step _ _ _ _ _ _ Hin Hb ltac:(done)) as (Hl & Hnext & Hnil).
    destruct (epoch_continue _ _ _ _ _ _ _ Hin Hrun Hnext IH) as [He Ho]. by split.
  - pose proof (submit_position _ _ _ _ Hsub) as Hp. assert (daHeight s1 = daHeight s) as <-
      by (unfold position in Hp; congruence). apply IH. by apply (in_epoch_position s).
  - pose proof (on_queue_position _ _ _ _ Hack) as Hp. assert (daHeight s1 = daHeight s) as <-
      by (unfold position in Hp; congruence). apply IH. by apply (in_epoch_position s).
Qed.

(** C29: The forced inclusion transactions of a DA epoch are handed out exactly
    once and in order. Take a sequencer whose checkpoint stands at index [i] of
    the cached epoch, at the sequencer's DA height, and any run (batches asked
    for with any limits, each returned or refused as empty during catch-up,
    transactions submitted, batches acknowledged) after which the epoch is
    consumed. Then each call offers the executor exactly the forced transactions
    that the calls before it left undecided; the batch it returns is those that
    [FilterTxs], as it answers in that call, accepts before the first one it
    postpones, in DA order, followed by the accepted mempool transactions; the
    last call leaves none; and the checkpoint stands at the start of the next DA
    height. Excluded from the run are a failing save of the checkpoint, a
    restart and a change of the DA height from outside. *)
Theorem epoch_exactly_once s log s' txs i :
  in_epoch s txs i -> epoch_run s log s' ->
  exactly_once (drop (Z.to_nat i) txs) log /\
  checkpoint s' = MkCheckpoint (add64 (daHeight s) 1) 0 /\ daHeight s' = add64 (daHeight s) 1.
Proof.
  intros Hin Hrun. destruct (epoch_run_spec _ _ _ _ _ Hrun Hin) as [He Ho].
  unfold epoch_over, position in Ho. injection Ho as -> _ ->. done.
Qed.

(** ** Fetching the next epoch *)

(** The catch-up state only moves forward. *)
Definition catch_up_le (a b : CatchUpState) : Prop := a = b \/ a = catchUpUnchecked \/ b = catchUpDone.

#[export] Instance catch_up_le_preorder : PreOrder catch_up_le.
Proof. split; [by left|]. intros [] [] []; unfold catch_up_le; naive_solver. Qed.

(** What a fetch leaves alone. *)
Definition untouched (s : S) := (genesis s, Id s, seq_queue s, checkpointStore s, executor s, daHeight s).

(** A step of the fetch: time and catch-up move forward, the source stays good. *)
Definition fetch_step (s s' : S) : Prop :=
  untouched s' = untouched s /\ catch_up_le (catchUpState s) (catchUpState s') /\
  currentDAEndTime s <= currentDAEndTime s' /\
  (fi_inv (fiRetriever s) -> is_u64 (daStartHeight s) ->
   fi_inv (fiRetriever s') /\ is_u64 (daStartHeight s')).

(** Closes the parts of a step that assignments leave alone. *)
Ltac stepped := try unfold fetch_step; split_and!; try done; simpl; try reflexivity; try lia; try (by right; right); try (by right; left).

#[export] Instance fetch_step_preorder : PreOrder fetch_step.
Proof.
  split.
  - intros s. stepped.
  - intros s1 s2 s3 (? & ? & ? & Hf) (? & ? & ? & Hf'). split_and!; [congruence|by etrans|lia|].
    intros Hi Hu. destruct (Hf Hi Hu). by apply Hf'.
Qed.

Lemma blocks_step {A} (m : M DB store_error A) (s : S) r s' :
  on_blocks m s = (r, s') -> fetch_step s s' /\ position s' = position s /\
    currentEpochTxCount s' = currentEpochTxCount s /\ catchUpState s' = catchUpState s.
Proof.
  unfold on_blocks, zoom, wrap. destruct (m (seq_store s)). intros [= _ <-].
  stepped.
Qed.

Lemma getInitialDAStartHeight_spec (s : S) :
  is_u64 (daStartHeight s) ->
  wp getInitialDAStartHeight (fun r s' => fetch_step s s' /\ position s' = position s /\
    currentEpochTxCount s' = currentEpochTxCount s /\ exists start, r = Ok start /\ is_u64 start) s.
Proof.
  intros Hu. unfold getInitialDAStartHeight. wp_read.
  destruct (daStartHeight s =? 0) eqn:Hz; cbn [negb].
  2: { apply wp_ret. split_and!; [reflexivity|done|done|]. by eexists. }
  apply wp_bind, wp_attempt. unfold wp at 1.
  destruct (on_blocks (GetMetadata GenesisDAHeightKey) s) as [r s1] eqn:Hb.
  destruct (blocks_step _ _ _ _ Hb) as (Hs & Hp & Hc & _). cbn [fst snd]. destruct r as [b|e]; simpl.
  - destruct (zlen b =? 8); cbn [negb].
    + apply wp_bind, wp_modify, wp_ret. pose proof (uint64_le_range b) as Hr. split_and!; try done; [|by eexists].
      etrans; [exact Hs|]. stepped.
    + apply wp_ret. split_and!; try done. by exists 0.
  - apply wp_ret. split_and!; try done. by exists 0.
Qed.

Lemma bootstrap_spec (s : S) :
  is_u64 (daHeight s) -> is_u64 (daStartHeight s) -> fi_inv (fiRetriever s) ->
  wp (bootstrap_checkpoint (daHeight s)) (fun r s' => r = Ok tt /\ fetch_step s s' /\
    currentEpochTxCount s' = currentEpochTxCount s /\
    cachedForcedInclusionTxs s' = cachedForcedInclusionTxs s /\
    checkpoint s' = if (0 <? daHeight s) && (cp_DAHeight (checkpoint s) =? 0)
                    then MkCheckpoint (daHeight s) 0 else checkpoint s) s.
Proof.
  intros Hd Hst Hfi. unfold bootstrap_checkpoint. wp_read.
  destruct ((0 <? daHeight s) && (cp_DAHeight (checkpoint s) =? 0)); cycle 1.
  { apply wp_ret. stepped. }
  apply wp_bind, wp_modify, wp_bind. eapply wp_mono; [by apply getInitialDAStartHeight_spec|].
  intros r s1 (Hs & Hp & Hc & start & -> & Hu). apply wp_modify.
  assert (Hs' : fetch_step s s1).
  { etrans; [|exact Hs]. stepped. }
  unfold position in Hp. injection Hp as Hp1 Hp2 Hp3.
  split_and!; try done. etrans; [exact Hs'|]. stepped.
  intros Hf Hs1. split; [by apply fi_New_law|done].
Qed.

Lemma updateCatchUpState_spec (s : S) :
  fi_inv (fiRetriever s) ->
  wp updateCatchUpState (fun r s' => r = Ok tt /\ fetch_step s s' /\ position s' = position s /\
    currentEpochTxCount s' = currentEpochTxCount s) s.
Proof.
  intros Hfi. unfold updateCatchUpState. wp_read.
  destruct (bool_decide (catchUpState s = catchUpUnchecked)) eqn:Hu; cbn [negb]; [|by split_and!; try done; reflexivity].
  apply bool_decide_eq_true in Hu. apply wp_bind, wp_modify.
  set (s0 := set_catchUpState catchUpDone s).
  assert (Hst0 : fetch_step s s0 /\ position s0 = position s /\ currentEpochTxCount s0 = currentEpochTxCount s).
  { stepped. }
  destruct Hst0 as (Hs0 & Hp0 & Hc0).
  destruct (DAEpochForcedInclusion (genesis s) =? 0); [by split_and!|].
  apply wp_bind, wp_attempt, wp_zoom, wp_wrap. eapply wp_mono; [apply fi_LatestDAHeight_law; exact Hfi|].
  intros r f Hf. set (s1 := set_fiRetriever f s0).
  assert (Hs1 : fetch_step s s1).
  { etrans; [exact Hs0|]. stepped. }
  destruct r as [latest|e]; cbn [map_err]; [|by split_and!].
  destruct (latest <=? _); [by split_and!|]. destruct (sub64 _ _ =? 0); [by split_and!|].
  apply wp_bind, wp_modify. set (s2 := set_catchUpState catchUpInProgress s1).
  assert (Hs2 : fetch_step s s2).
  { stepped. }
  apply wp_bind, wp_attempt. unfold wp at 1. destruct (on_blocks GetState s2) as [r s3] eqn:Hb.
  destruct (blocks_step _ _ _ _ Hb) as (Hs & Hp & Hc & _). cbn [fst snd].
  assert (Hs3 : fetch_step s s3) by (by etrans).
  destruct r as [st|e]; [|by apply wp_ret; split_and!].
  destruct (negb _); [|by apply wp_ret; split_and!]. apply wp_modify.
  destruct (Z.ltb_spec (currentDAEndTime s3) (LastBlockTime st)); [|by split_and!].
  split_and!; try done. etrans; [exact Hs3|]. stepped.
Qed.

(** What a fetch at the checkpoint leads to. *)
Definition fetched (maxBytes : Z) (s : S) (r : res seq_error Z) (s' : S) : Prop :=
  fetch_step s s' /\ checkpoint s' = checkpoint s /\
  match r with
  | Ok h =>
      h = 0 /\ (cachedForcedInclusionTxs s' = cachedForcedInclusionTxs s \/ cachedForcedInclusionTxs s' = []) \/
      h = cp_DAHeight (checkpoint s) /\ exists f f' ev,
        fi_inv f /\ fi_Retrieve h f = (Ok ev, f') /\
        cachedForcedInclusionTxs s' = fitting maxBytes (fi_Txs ev) /\
        currentEpochTxCount s' = zlen (cachedForcedInclusionTxs s') /\ fi_Timestamp ev <= currentDAEndTime s'
  | Err e => cachedForcedInclusionTxs s' = cachedForcedInclusionTxs s /\ exists fe, e = SeqFI fe
  end.

Lemma fetchNextDAEpoch_spec maxBytes (s : S) :
  fi_inv (fiRetriever s) -> is_u64 (daStartHeight s) -> checkpoint_ok (checkpoint s) ->
  wp (fetchNextDAEpoch maxBytes) (fetched maxBytes s) s.
Proof.
  intros Hfi Hst [Hcp _]. unfold fetchNextDAEpoch. wp_read.
  apply wp_bind. eapply wp_mono; [by apply updateCatchUpState_spec|].
  intros r s1 (-> & Hs1 & Hp1 & Hc1). unfold position in Hp1. injection Hp1 as Hck Hca Hda.
  assert (Hfi1 : fi_inv (fiRetriever s1)) by (by apply Hs1).
  apply wp_bind, wp_attempt, wp_zoom, wp_wrap.
  pose proof (fi_Retrieve_law (cp_DAHeight (checkpoint s)) _ Hfi1 Hcp) as Hret.
  unfold wp in Hret |- *. destruct (fi_Retrieve (cp_DAHeight (checkpoint s)) (fiRetriever s1)) as [r f] eqn:Hrun.
  cbn [fst snd] in *. destruct Hret as [Hf Hev]. set (s2 := set_fiRetriever f s1).
  assert (Hs2 : fetch_step s s2).
  { etrans; [exact Hs1|]. stepped. }
  destruct r as [ev|e]; cbn [map_err].
  - simpl. rewrite Hev. set (s3 := if currentDAEndTime s1 <? _ then _ else _).
    assert (Hs3 : fetch_step s2 s3 /\ checkpoint s3 = checkpoint s1 /\
      cachedForcedInclusionTxs s3 = fitting maxBytes (fi_Txs ev) /\
      currentEpochTxCount s3 = zlen (cachedForcedInclusionTxs s3) /\ fi_Timestamp ev <= currentDAEndTime s3).
    { subst s3. destruct (Z.ltb_spec (currentDAEndTime s1) (fi_Timestamp ev)); stepped. }
    destruct Hs3 as (Hs3 & Hck3 & Hca3 & Hct3 & Het3).
    split; [by etrans|]. split; [congruence|]. right. split; [done|].
    by exists (fiRetriever s1), f, ev.
  - destruct e; try (split; [exact Hs2|split; [exact Hck|split; [exact Hca|by eexists]]]).
    + split; [|split; [done|left; split; [done|by right]]].
      etrans; [exact Hs2|]. stepped.
    + simpl. unfold isCatchingUp. destruct (bool_decide _); (split; [|split; [done|by left; split; [|left]]]).
      * etrans; [exact Hs2|]. stepped.
      * done.
Qed.

(** ** Any call *)

Definition seq_ok (s : S) : Prop :=
  is_u64 (daHeight s) /\ is_u64 (daStartHeight s) /\ checkpoint_ok (checkpoint s) /\ fi_inv (fiRetriever s).

(** The state in which a call on [s] finds the epoch it works on: the checkpoint
    is set if it was not, and the epoch at the checkpoint is fetched if nothing
    of the current one is left. *)
Definition ready (maxBytes : Z) (s : S) (r : res seq_error Z) (s1 : S) : Prop :=
  exists s0, fetch_step s s0 /\ cachedForcedInclusionTxs s0 = cachedForcedInclusionTxs s /\
    currentEpochTxCount s0 = currentEpochTxCount s /\
    checkpoint s0 = (if (0 <? daHeight s) && (cp_DAHeight (checkpoint s) =? 0)
                     then MkCheckpoint (daHeight s) 0 else checkpoint s) /\
    if (0 <? daHeight s) && bool_decide (outstanding s0 = []) then fetched maxBytes s0 r s1
    else r = Ok (daHeight s) /\ s1 = s0.

Lemma get_next_batch_run req (s : S) :
  seq_ok s -> isValid (req_Id req) s = true ->
  exists rf s1, ready (MaxBytes req) s rf s1 /\
    GetNextBatch req s = match rf with Ok h => finish_batch req h s1 | Err e => (Err e, s1) end.
Proof.
  intros (Hd & Hst & Hcp & Hfi) Hv. unfold GetNextBatch. run_read. rewrite Hv.
  cbn [negb]. cbv zeta. change (GetDAHeight s) with (daHeight s).
  pose proof (bootstrap_spec s Hd Hst Hfi) as Hb. unfold wp in Hb.
  destruct (bootstrap_checkpoint (daHeight s) s) as [r0 s0] eqn:Hrun0. cbn [fst snd] in Hb.
  destruct Hb as (-> & Hs0 & Hct & Hca & Hck). rewrite (run_bind _ _ _ _ _ Hrun0), run_gets. cbn [id].
  assert (Hcp0 : checkpoint_ok (checkpoint s0)).
  { rewrite Hck. destruct (_ && _); [by split|done]. }
  rewrite (consumed_outstanding s0 (proj1 (proj2 Hcp0))).
  unfold ready. destruct ((0 <? daHeight s) && bool_decide (outstanding s0 = [])) eqn:Hfetch; cycle 1.
  { exists (Ok (daHeight s)), s0. split; [|done]. exists s0. rewrite Hfetch. done. }
  destruct Hs0 as (? & ? & ? & Hf0). destruct (Hf0 Hfi Hst) as [Hfi0 Hst0].
  pose proof (fetchNextDAEpoch_spec (MaxBytes req) s0 Hfi0 Hst0 Hcp0) as Hw. unfold wp in Hw.
  destruct (fetchNextDAEpoch (MaxBytes req) s0) as [rf s1] eqn:Hrun1. cbn [fst snd] in Hw.
  exists rf, s1. split; [exists s0; rewrite Hfetch; by split_and!|].
  destruct rf as [h|e]; [by rewrite (run_bind _ _ _ _ _ Hrun1)|by rewrite (run_bind_err _ _ _ _ _ Hrun1)].
Qed.

Lemma ready_ok maxBytes s r s1 :
  seq_ok s -> ready maxBytes s r s1 ->
  fetch_step s s1 /\ checkpoint_ok (checkpoint s1) /\ match r with Ok h => is_u64 h | Err _ => True end.
Proof.
  intros (Hd & Hst & Hcp & Hfi) (s0 & Hs0 & Hca & Hct & Hck & Hf).
  assert (Hcp0 : checkpoint_ok (checkpoint s0)).
  { rewrite Hck. destruct (_ && _); [by split|done]. }
  destruct ((0 <? daHeight s) && bool_decide (outstanding s0 = [])); [|by destruct Hf as [-> ->]].
  destruct Hf as (Hs1 & Hck1 & Hr). rewrite Hck1. split_and!; [by etrans|done|].
  destruct r as [h|e]; [|done]. destruct Hr as [[-> _]|[-> _]]; [done|apply Hcp0].
Qed.


(** A call that fetches an epoch enters it: if the DA height agrees with the
    checkpoint, nothing is cached and the source returns transactions beyond the
    checkpoint's index, then the call is the same as a call from a state within
    that epoch, at the checkpoint's index. *)
Theorem fetch_enters_epoch req (s : S) :
  seq_ok s -> isValid (req_Id req) s = true -> cachedForcedInclusionTxs s = [] ->
  cp_DAHeight (checkpoint s) = daHeight s -> 0 < daHeight s ->
  exists rf s1, ready (MaxBytes req) s rf s1 /\
    (0 < zlen (cachedForcedInclusionTxs s1) < two64 ->
     cp_TxIndex (checkpoint s) < zlen (cachedForcedInclusionTxs s1) ->
     exists f f' ev, fi_inv f /\ fi_Retrieve (cp_DAHeight (checkpoint s)) f = (Ok ev, f') /\
       in_epoch s1 (fitting (MaxBytes req) (fi_Txs ev)) (cp_TxIndex (checkpoint s)) /\
       currentEpochTxCount s1 = zlen (fitting (MaxBytes req) (fi_Txs ev)) /\
       GetNextBatch req s = GetNextBatch req s1).
Proof.
  intros Hok Hv Hnil Hsync Hpos. destruct (get_next_batch_run req s Hok Hv) as (rf & s1 & Hr & Heq).
  exists rf, s1. split; [done|]. intros Hlen Hidx.
  destruct Hr as (s0 & Hs0 & Hca & Hct & Hck & Hf). rewrite Hsync in Hck.
  destruct (Z.eqb_spec (daHeight s) 0); [lia|]. rewrite andb_false_r in Hck.
  assert (He : (0 <? daHeight s) && bool_decide (outstanding s0 = []) = true).
  { unfold outstanding. rewrite Hca, Hnil, drop_nil. by destruct (Z.ltb_spec 0 (daHeight s)); [|lia]. }
  rewrite He in Hf. destruct Hf as (Hs1 & Hck1 & Hrf). destruct Hok as (Hd & _ & [_ Hti] & _).
  destruct rf as [h|e]; cycle 1. { destruct Hrf as [Hc _]. rewrite Hc, Hca, Hnil in Hlen. unfold zlen in Hlen. simpl in Hlen. lia. }
  destruct Hrf as [[_ Hc]|(-> & f & f' & ev & Hf & Hrun & Hc1 & Hcnt & _)].
  { destruct Hc as [Hc|Hc]; rewrite Hc, ?Hca, ?Hnil in Hlen; unfold zlen in Hlen; simpl in Hlen; lia. }
  rewrite Hck in *. assert (Hu : untouched s1 = untouched s) by (destruct Hs0 as [? _], Hs1 as [? _]; congruence).
  unfold untouched in Hu. injection Hu as _ Hid _ _ _ Hda.
  assert (Hin : in_epoch s1 (fitting (MaxBytes req) (fi_Txs ev)) (cp_TxIndex (checkpoint s))).
  { unfold in_epoch. rewrite <- Hc1, Hck1, Hda. unfold is_u64 in *. split_and!; done || lia. }
  exists f, f', ev. split_and!; try done; [congruence|].
  rewrite Heq, (in_epoch_batch s1 _ _ req Hin) by (unfold isValid in *; by rewrite Hid). congruence.
Qed.

(** ** Catch-up *)

Lemma i64_small z : -9223372036854775808 <= z < 9223372036854775808 -> i64 z = z.
Proof.
  intros Hz. unfold i64, to_i64, u64, two64.
  destruct (Z_lt_le_dec z 0).
  - assert (Hm : z mod 18446744073709551616 = z + 18446744073709551616).
    { symmetry. apply (Z.mod_unique z 18446744073709551616 (-1)); lia. }
    rewrite Hm. destruct (Z.ltb_spec (z + 18446744073709551616) 9223372036854775808); lia.
  - rewrite Z.mod_small by lia. destruct (Z.ltb_spec z 9223372036854775808); lia.
Qed.

Lemma millis_small n : 0 <= n -> n * millisecond < 9223372036854775808 ->
  millis n = n * millisecond /\ neg_millis n = - (n * millisecond).
Proof.
  unfold millis, neg_millis, millisecond. intros Hn Hb. rewrite to_i64_small by lia.
  rewrite (i64_small (- n)) by lia. rewrite !i64_small by lia. lia.
Qed.

(** During catch-up a batch holds forced transactions only, at least one, and
    drains nothing from the queue; its timestamp is the end of the DA epoch less
    one millisecond for each forced transaction of the epoch that is not yet
    consumed, so that timestamps increase from batch to batch of an epoch, never
    pass its end, and reach it exactly with the batch that consumes the epoch. *)
Theorem catch_up_batch (s : S) txs i req resp s' :
  in_epoch s txs i -> currentEpochTxCount s = zlen txs -> zlen txs * millisecond < 9223372036854775808 ->
  isCatchingUp s = true -> GetNextBatch req s = (Ok resp, s') ->
  let left := drop (Z.to_nat i) txs in
  let fs := call_decides left (MkCall s req (Ok resp)) in
    (0 < length fs <= length left)%nat /\
    resp_Transactions resp = select FilterOK fs left /\ resp_Transactions resp <> [] /\
    seq_queue s' = (SetPostponed [] (seq_queue s)).2 /\
    resp_Timestamp resp = currentDAEndTime s - (zlen txs - (i + zlen fs)) * millisecond /\
    (resp_Timestamp resp = currentDAEndTime s' <-> cachedForcedInclusionTxs s' = []).
Proof.
  intros Hin Hcnt Hms Hcu Hrun left fs. pose proof (get_next_batch_valid _ _ _ _ Hrun ltac:(done)) as Hv.
  pose proof (in_epoch_step _ _ _ _ _ _ Hin Hrun ltac:(done)) as Hstep. fold left fs in Hstep. destruct Hstep as (Hl & _ & _).
  rewrite (in_epoch_batch s txs i req Hin Hv) in Hrun. destruct (in_epoch_checkpoint _ _ _ Hin) as [Hck Hu].
  pose proof Hin as (Htx & Hi & Hri & Hlt & Hd & Hsync).
  assert (Hlen : zlen (cachedForcedInclusionTxs s) < two64) by (rewrite Htx; lia).
  destruct (wp_run _ _ _ _ _ (finish_batch_spec req (daHeight s) s Hu Hck Hlen) Hrun)
    as (Hcfg & Hqu & Hpos & (Hresp & _ & _ & Hne & Hts)).
  assert (Hadv : advances s (daHeight s) = true) by (unfold advances; by destruct (Z.ltb_spec 0 (daHeight s)); [|lia]).
  assert (Hdr : drain_for (MaxBytes req) s = ([], seq_queue s)) by (unfold drain_for; by rewrite Hcu).
  assert (Hnil : forall st, select st (mempool_statuses (MaxBytes req) s) [] = []).
  { intros st. unfold select. by rewrite zip_with_nil_r. }
  assert (Hfs : forced_statuses (MaxBytes req) s = fs)
    by (unfold forced_statuses, answer; by rewrite (in_epoch_outstanding s txs i Hin)).
  unfold consumed, kept_mempool, batch_mempool, batch_forced, drained in *.
  rewrite Hadv, Hfs in *. rewrite Hcu in Hts. rewrite Hdr, Hnil in Hqu, Hresp.
  rewrite app_nil_r, (in_epoch_outstanding s txs i Hin) in Hresp. fold left in Hresp. specialize (Hne Hcu).
  assert (Hk : (0 < length fs)%nat).
  { destruct fs as [|x l]; [|simpl; lia]. by rewrite Hresp in Hne. }
  assert (Hl' : (length fs <= length txs - Z.to_nat i)%nat) by (unfold left in Hl; by rewrite length_drop in Hl).
  unfold zlen in *. cbn [orb] in Hts. rewrite Hcnt, Hi in Hts.
  assert (Hmm : forall n, 0 <= n <= Z.of_nat (length txs) -> n * millisecond < 9223372036854775808)
    by (unfold millisecond in *; lia).
  rewrite (proj2 (millis_small (Z.of_nat (length txs)) ltac:(lia) ltac:(apply Hmm; lia))) in Hts.
  rewrite (proj1 (millis_small (i + Z.of_nat (length fs)) ltac:(lia) ltac:(apply Hmm; lia))) in Hts.
  unfold config in Hcfg. injection Hcfg as _ _ _ _ Het _.
  split_and!; try done; [rewrite Hts; unfold millisecond; lia|].
  rewrite Hts, Het. unfold next_position in Hpos. rewrite Htx, Hi in Hpos. unfold zlen in Hpos.
  destruct (Z.leb_spec (Z.of_nat (length txs)) (i + Z.of_nat (length fs)));
    unfold position in Hpos; injection Hpos as _ -> _.
  - split; [done|]. intros _. unfold millisecond. lia.
  - split; [unfold millisecond; lia|]. intros ->. simpl in *. lia.
Qed.

End facts.
