(* ===== verification/SequencerInst.v ===== *)
(** * Concrete parameters for the sequencers

    An encoding of checkpoints and a small executor that satisfies
    [ExecutorLaws]: it removes the transactions whose first byte is zero and
    postpones those that do not fit in the byte limit. *)

From stdpp Require Import base gmap strings list numbers countable.
From S2P Require Import Prelude Datastore Serialization ProtoInst Sequencing.
Open Scope Z_scope.

Module SequencerInst.
Import ProtoInst.

#[export] Instance pbCheckpoint_eq_dec : EqDecision pbCheckpoint.
Proof. solve_decision. Defined.
#[export] Instance pbCheckpoint_countable : Countable pbCheckpoint :=
  inj_countable' (fun m => (pc_DaHeight m, pc_TxIndex m)) (fun '(h, i) => MkPbCheckpoint h i)
                 ltac:(by intros []).
#[export] Instance pbCheckpoint_msg : ProtoMsg pbCheckpoint := countable_msg id.
#[export] Instance pbCheckpoint_laws :
  ProtoLaws pbCheckpoint id (fun m => is_u64 (pc_DaHeight m) /\ is_u64 (pc_TxIndex m)).
Proof. by apply countable_msg_laws. Qed.

(** The executor's clock, and whether its coming calls of [FilterTxs] fail. *)
Record toyexec := MkExec { exec_clock : Z; exec_faults : list bool }.

Definition gibberish (tx : bytes) : bool :=
  match tx with [] => true | b :: _ => Z_of_byte b =? 0 end.

Fixpoint toy_filter (maxBytes used : Z) (txs : list bytes) : list FilterStatus :=
  match txs with
  | [] => []
  | tx :: txs' =>
      if gibberish tx then FilterRemove :: toy_filter maxBytes used txs'
      else if maxBytes <? used + zlen tx then FilterPostpone :: toy_filter maxBytes used txs'
      else FilterOK :: toy_filter maxBytes (used + zlen tx) txs'
  end.

#[export] Instance toy_executor : Executor toyexec := {
  GetExecutionInfo x := (Ok 0, x);
  FilterTxs txs maxBytes maxGas forced x :=
    match exec_faults x with
    | true :: fs => (Err tt, MkExec (exec_clock x) fs)
    | fs => (Ok (toy_filter maxBytes 0 txs), MkExec (exec_clock x) (tail fs))
    end;
  clock_Now x := (exec_clock x, MkExec (exec_clock x + 1) (exec_faults x))
}.

Lemma toy_filter_length maxBytes used txs : length (toy_filter maxBytes used txs) = length txs.
Proof.
  revert used. induction txs as [|tx txs IH]; intros used; simpl; [done|].
  destruct (gibberish tx); [simpl; by rewrite IH|].
  destruct (maxBytes <? used + zlen tx); simpl; by rewrite IH.
Qed.

#[export] Instance toy_executor_laws : ExecutorLaws toyexec.
Proof.
  split. intros txs maxBytes maxGas forced x st x'. simpl.
  destruct (exec_faults x) as [|[] fs]; intros [= <- <-]; apply toy_filter_length.
Qed.

End SequencerInst.
