(* ===== verification/ReplayerWitness.v ===== *)
(** * Replay at a concrete store

    A small execution client (its state root is a hash chain over the
    transactions) and a store with two executed blocks: a client that lost both
    blocks, one that is a block ahead, and one whose results differ. *)

From S2P Require Import Prelude Sha256 Datastore Types Serialization SerializationFacts ProtoInst Validation Store StoreFacts StoreMaintenance StoreAPI.
From S2P Require Import Sequencing SequencerInst Execution Replayer NodeInst SubmitterWitness.
From stdpp Require Import base gmap strings list numbers.
Open Scope Z_scope.

Module ReplayerWitness.
Import ProtoInst MemDS StoreWitness NodeInst SubmitterWitness SequencerInst.

(** The height, whether coming calls fail, and the clock. *)
Record chainexec := MkChainExec { ce_height : Z; ce_faults : list bool; ce_clock : Z }.

Definition chain_root (txs : list bytes) (h : Z) (root : bytes) : bytes := Sha256.sum256 (byte_of_Z h :: root ++ mjoin txs).
Definition clamp (h : Z) : Z := Z.max 0 (Z.min h (two64 - 1)).

#[export] Instance chain_execution : Execution chainexec := {
  InitChain t h chain x := (Ok (Some (Sha256.sum256 [byte_of_Z h])), x);
  ExecuteTxs txs h t root x :=
    match ce_faults x with
    | true :: fs => (Err "execution client is down", MkChainExec (ce_height x) fs (ce_clock x))
    | fs => (Ok (MkExecuteResult (Some (chain_root txs h (sl root))) None), MkChainExec h (tail fs) (ce_clock x))
    end;
  GetLatestHeight := Some (fun x => (Ok (clamp (ce_height x)), x));
  ex_Rollback := Some (fun h x => (Ok tt, MkChainExec h (ce_faults x) (ce_clock x)));
  ex_height x := clamp (ce_height x);
  ex_ok x := Forall (fun b => b = false) (ce_faults x);
  exec_result txs h t root := MkExecuteResult (Some (chain_root txs h root)) None
}.

Lemma clamp_u64 h : is_u64 h -> clamp h = h.
Proof. unfold is_u64, clamp. lia. Qed.

#[export] Instance chain_execution_laws : ExecutionLaws chainexec.
Proof.
  split.
  - intros txs h t root x Hh. unfold wp, ExecuteTxs, chain_execution, ex_ok, ex_height.
    destruct (ce_faults x) as [|[] fs]; cbn [fst snd ce_faults ce_height tail]; rewrite ?(clamp_u64 h) by done.
    + done.
    + split; [by inversion 1|by inversion 1].
    + split; [by inversion 1|done].
  - intros m x [= <-]. split; [done|]. split; [done|]. split; [done|]. simpl. unfold clamp, is_u64, two64. lia.
  - intros f h x Hh [= <-]. split; [done|]. simpl. by apply clamp_u64.
Qed.

(** Two executed blocks. *)
Definition g1 : ChainGenesis := MkChainGenesis "c" 5 1 (Some key) 0 10.
Definition hdr_on (h : Z) (root : slice) : SignedHeader bytes :=
  MkSignedHeader (MkHeader (MkBaseHeader h 7 "c") (MkVersion 11 1) None None root None (Some key) None None)
                 (Some key) (MkSigner (Some key) (Some (Sha256.sum256 key)) None) None None.
Definition executed (prev : State) (h : Z) (header : SignedHeader bytes) (data : Data) : State :=
  let e := exec_result (EX := chainexec) (data_txs data) h (Header_Time (sh_Header header)) (sl (st_AppHash prev)) in
  NextState prev (sh_Header header) (UpdatedStateRoot e) (res_NextProposer e).
Definition root0 : slice := Some (Sha256.sum256 [byte_of_Z 1]).
Definition bh1 : SignedHeader bytes := hdr_on 1 root0.
Definition est1 : State := executed (genesis_state g1 (sh_Header bh1)) 1 bh1 (dat 1).
Definition bh2 : SignedHeader bytes := hdr_on 2 (st_AppHash est1).
Definition est2 : State := executed est1 2 bh2 (dat 2).
Definition commit_one (header : SignedHeader bytes) (data : Data) (st : State) (d : memds) : memds :=
  (commit_block header data (Some key) st d).2.
Definition chain2 : memds := commit_one bh2 (dat 2) est2 (commit_one bh1 (dat 1) est1 empty_db).
(** The same blocks with another state after the second. *)
Definition chain2_bad : memds := commit_one bh2 (dat 2) (state_at 2) (commit_one bh1 (dat 1) est1 empty_db).

Definition on_chain (d : memds) (h : Z) (faults : list bool) : Replayer memds chainexec :=
  MkReplayer d (MkChainExec h faults 0) g1.

Example client_behind : let '(r, rp) := SyncToHeight 2 (on_chain chain2 0 []) in r = Ok tt /\ ce_height (rp_exec rp) = 2.
Proof. vm_compute. split; reflexivity. Qed.
Example client_ahead : let '(r, rp) := SyncToHeight 2 (on_chain chain2 5 []) in r = Ok tt /\ ce_height (rp_exec rp) = 2.
Proof. vm_compute. split; reflexivity. Qed.
Example client_fails : (SyncToHeight 2 (on_chain chain2 0 [false; true])).1 = Err (RExec "execution client is down").
Proof. vm_compute. reflexivity. Qed.
Example result_differs : (SyncToHeight 2 (on_chain chain2_bad 0 [])).1 = Err (RAppHashMismatch 2).
Proof. vm_compute. reflexivity. Qed.

(** The DA height of the stored states is not carried over: after a replay of the
    whole chain the last state is back at DA height 0. *)
Definition with_DAHeight (da : Z) (s : State) : State :=
  MkState (st_Version s) (st_ChainID s) (InitialHeight s) (LastBlockHeight s) (LastBlockTime s) (st_LastHeaderHash s) da
    (st_AppHash s) (NextProposerAddress s).
Definition chain2_da : memds :=
  commit_one bh2 (dat 2) (with_DAHeight 41 est2) (commit_one bh1 (dat 1) (with_DAHeight 40 est1) empty_db).
Example replay_loses_da_height :
  let da (d : memds) := match view_states (ds_view d) 2 with Ok st => Some (DAHeight st) | Err _ => None end in
  let '(r, rp) := SyncToHeight 2 (on_chain chain2_da 0 []) in
  r = Ok tt /\ da chain2_da = Some 41 /\ da (rp_store rp) = Some 0.
Proof. vm_compute. repeat split. Qed.

(** ** The contents of a concrete store *)

(** The character after the first slash tells the kind of a key. *)
Definition key_tag (k : string) : option Ascii.ascii :=
  match k with String _ (String a _) => Some a | _ => None end.
Definition keys_among (t : Ascii.ascii) (ks : list string) (d : memds) : Prop :=
  map_Forall (fun k (_ : bytes) => key_tag k = Some t -> k ∈ ks) (ds_view d).

Lemma no_other_key (f : Z -> string) t hs d h :
  (forall a b, 0 <= a -> 0 <= b -> f a = f b -> a = b) -> (forall a, key_tag (f a) = Some t) ->
  keys_among t (f <$> hs) d -> Forall (fun a => 0 <= a) hs -> 0 <= h -> h ∉ hs -> ds_view d !! f h = None.
Proof.
  intros Hinj Ht Hk Hpos Hh Hn. destruct (ds_view d !! f h) as [b|] eqn:Hl; [|done].
  pose proof (Hk _ _ Hl (Ht h)) as Hin. apply list_elem_of_fmap in Hin as (a & Heq & Ha).
  apply Hinj in Heq; [by subst|done|]. by apply (proj1 (list.Forall_forall _ hs) Hpos).
Qed.

Lemma chain_header_key_inj a b : 0 <= a -> 0 <= b -> getHeaderKey a = getHeaderKey b -> a = b.
Proof. exact (stored_key_inj a b). Qed.
Lemma chain_state_key_inj a b : 0 <= a -> 0 <= b -> getStateAtHeightKey a = getStateAtHeightKey b -> a = b.
Proof. intros Ha Hb Heq. by pose proof (skey_string_inj (KState a) (KState b) Ha Hb Heq) as [= ->]. Qed.

Definition tag_of (k : string) : Ascii.ascii := match key_tag k with Some a => a | None => Ascii.zero end.

Definition header_ok (header : SignedHeader bytes) : Prop := header_wf (sh_Header header).

(** The blocks and states of a concrete store are at the heights [hs]. *)
Lemma concrete_chain d hs :
  Forall (fun a => 0 <= a) hs -> keys_among (tag_of (getHeaderKey 1)) (getHeaderKey <$> hs) d ->
  keys_among (tag_of (getStateAtHeightKey 1)) (getStateAtHeightKey <$> hs) d ->
  (forall h, h ∈ hs -> (exists header data, view_block (PK := bytes) (ds_view d) h = Ok (header, data) /\
       Header_Height (sh_Header header) = h /\ header_wf (sh_Header header)) /\
     (exists st, view_states (ds_view d) h = Ok st /\ state_wf st)) ->
  chain_contents (bs_contents d : contents bytes).
Proof.
  intros Hpos Hhk Hsk Hall. split.
  - intros h header data Hh Hb. change (view_block (PK := bytes) (ds_view d) h = Ok (header, data)) in Hb.
    destruct (decide (h ∈ hs)) as [Hin|Hn].
    + destruct (Hall h Hin) as [(hd & dt & Hb' & Hhh & Hwf) _]. rewrite Hb' in Hb. by injection Hb as <- <-.
    + unfold view_block, view_header, view_get in Hb.
      by rewrite (no_other_key getHeaderKey _ hs d h chain_header_key_inj (fun a => eq_refl) Hhk Hpos Hh Hn) in Hb.
  - intros h st Hh Hs. change (view_states (ds_view d) h = Ok st) in Hs.
    destruct (decide (h ∈ hs)) as [Hin|Hn].
    + destruct (Hall h Hin) as [_ (st' & Hs' & Hwf)]. rewrite Hs' in Hs. by injection Hs as <-.
    + unfold view_states, view_get in Hs.
      by rewrite (no_other_key getStateAtHeightKey _ hs d h chain_state_key_inj (fun a => eq_refl) Hsk Hpos Hh Hn) in Hs.
Qed.

Lemma chain2_contents : chain_contents (bs_contents chain2 : contents bytes).
Proof.
  apply (concrete_chain chain2 [1; 2]).
  - repeat constructor; lia.
  - apply (bool_decide_unpack _). vm_compute. exact I.
  - apply (bool_decide_unpack _). vm_compute. exact I.
  - intros h Hin. apply elem_of_cons in Hin as [->|Hin]; [|apply list_elem_of_singleton in Hin as ->].
    + split; [eexists _, _|eexists]; (split; [vm_compute; reflexivity|]).
      * split; [reflexivity|]. unfold header_wf, version_wf, is_u64. split_and!; vm_compute; discriminate || reflexivity.
      * unfold state_wf, version_wf, is_u64. split_and!; vm_compute; discriminate || reflexivity.
    + split; [eexists _, _|eexists]; (split; [vm_compute; reflexivity|]).
      * split; [reflexivity|]. unfold header_wf, version_wf, is_u64. split_and!; vm_compute; discriminate || reflexivity.
      * unfold state_wf, version_wf, is_u64. split_and!; vm_compute; discriminate || reflexivity.
Qed.

Lemma g1_wf : genesis_wf g1.
Proof. unfold genesis_wf, is_u64. vm_compute. repeat split; discriminate. Qed.

Lemma replay_correct_witness :
  exists r', SyncToHeight 2 (on_chain chain2 0 []) = (Ok tt, r') /\ ex_height (rp_exec r') = 2 /\
    replayed (EX := chainexec) (PK := bytes) g1 (rp_contents r') 1.
Proof.
  destruct (replay_correct (PK := bytes) 2 (on_chain chain2 0 []) (fun x => (Ok (clamp (ce_height x)), x))) as (r & r' & Hr & _ & Hok).
  - split; [discriminate|reflexivity].
  - discriminate.
  - exact g1_wf.
  - discriminate.
  - exact chain2_contents.
  - reflexivity.
  - exists r'. assert (Hres : r = Ok tt).
    { transitivity ((SyncToHeight (PK := bytes) 2 (on_chain chain2 0 [])).1); [by rewrite Hr|vm_compute; reflexivity]. }
    subst r. split; [exact Hr|]. destruct (Hok eq_refl) as [Hh Hrep]. split; [exact Hh|].
    apply (Hrep 1). vm_compute. split; [reflexivity|discriminate].
Defined.

End ReplayerWitness.
