(* ===== verification/ForcedCheckWitness.v ===== *)
(** * The forced inclusion check at concrete states

    A table of forced transactions per epoch, which may fail, stands for the
    retriever. An honest sequencer passes, a censoring one is accused; the
    examples show an honest one that is accused, and an accusation that is lost. *)

From S2P Require Import Prelude Sha256 Types Serialization DASubmitter Batching ForcedInclusion Sequencing SequencerInst Execution ForcedCheck ForcedCheckFacts.
From stdpp Require Import base gmap strings list numbers.
Open Scope Z_scope.

Module ForcedCheckWitness.
Import SequencerInst.

(** The forced transactions by epoch end, and the epoch ends whose retrieval fails. *)
Record tablefi := MkTable { ft_txs : gmap Z (list bytes); ft_down : list Z }.

#[export] Instance table_source : FISource tablefi := {
  fi_New _ _ f := f;
  fi_Retrieve h f :=
    if bool_decide (h ∈ ft_down f) then (Err (FRetrieve "unavailable"), MkTable (ft_txs f) [])
    else (Ok (MkFIEvent 0 h h (default [] (ft_txs f !! h))), f);
  fi_LatestDAHeight f := (Ok 0, f);
  fi_GetProofs _ _ f := (Ok [], f);
  fi_Validate _ _ _ f := (Ok [], f)
}.
#[local] Instance out_of_range : FloatConversion := { uint64_out_of_range _ := 0 }.

Definition tx (n : Z) : bytes := [byte_of_Z 1; byte_of_Z n].
Definition block_of (txs : list bytes) : Data := MkData (Some (MkMetadata "c" 1 1 None)) (Some txs).
(** Epochs of two DA heights: 1-2, 3-4, 5-6, ... *)
Definition gen : ChainGenesis := MkChainGenesis "c" 0 1 None 1 2.
Definition forced1 : gmap Z (list bytes) := {[ 2 := [tx 7]; 4 := [tx 8] ]}.
Definition fc0 (t : gmap Z (list bytes)) (down : list Z) : ForcedCheck tablefi toyexec :=
  MkForcedCheck (Some (MkTable t down)) (MkExec 0 []) ∅ ∅ ∅ 0.

(** Blocks with their DA heights, one after the other; the outcome of each. *)
Fixpoint sync (blocks : list (Z * list bytes)) (c : ForcedCheck tablefi toyexec)
  : list (res check_error unit) * ForcedCheck tablefi toyexec :=
  match blocks with
  | [] => ([], c)
  | (h, txs) :: rest =>
      let '(r, c) := VerifyForcedInclusionTxs 50 gen 0 h (block_of txs) c in
      let '(rs, c) := sync rest c in (r :: rs, c)
  end.

Example honest_passes :
  (sync [(3, [tx 7]); (5, [tx 8]); (7, []); (9, [])] (fc0 forced1 [])).1 = [Ok tt; Ok tt; Ok tt; Ok tt].
Proof. vm_compute. reflexivity. Qed.

Example censor_accused :
  (sync [(3, []); (5, [tx 8])] (fc0 forced1 [])).1 = [Ok tt; Err (CMalicious 1)].
Proof. vm_compute. reflexivity. Qed.

(** A transaction that was already in a block of the first epoch, and is forced
    and included again in the second: pruning the first epoch forgets both
    inclusions, and the sequencer is accused. *)
Example included_twice_accused :
  (sync [(2, [tx 8]); (5, [tx 8; tx 7]); (7, [])] (fc0 {[ 4 := [tx 8] ]} [])).1 = [Ok tt; Ok tt; Err (CMalicious 1)].
Proof. vm_compute. reflexivity. Qed.

(** The epoch that ends at 2 is censored; the check also covers the epoch that
    ends at 4, whose retrieval fails: the accusation is dropped, and the next
    check starts behind the censored epoch. *)
Example accusation_lost :
  (sync [(7, [tx 8]); (8, [])] (fc0 forced1 [4])).1 = [Err (CRetrieve (FRetrieve "unavailable")); Ok tt].
Proof. vm_compute. reflexivity. Qed.

(** Two blocks in one DA block: only the bytes of the second are counted. *)
Example bytes_overwritten :
  daBlockBytes (record_block 3 (block_of []) (record_block 3 (block_of [tx 7]) (fc0 forced1 []))) !! 3 = Some 0.
Proof. vm_compute. reflexivity. Qed.

Definition never_down (f : tablefi) : Prop := f = MkTable forced1 [].
Definition steady (x : toyexec) : Prop := exec_faults x = [].

Lemma table_oracle :
  check_oracle never_down steady (fun e => default [] (forced1 !! e)) (toy_filter DefaultMaxBlobSize 0).
Proof.
  split.
  - intros e f ->. unfold wp. split; [reflexivity|]. eexists. split; reflexivity.
  - intros x Hx. split; [exact Hx|]. by exists 0.
  - intros txs g x Hx. unfold wp, FilterTxs, toy_executor. rewrite Hx. split; reflexivity.
  - intros txs. apply toy_filter_length.
Qed.


End ForcedCheckWitness.
