(* ===== verification/SyncWitness.v ===== *)
(** * A syncing node at concrete states

    A node starts on an empty store, reads the first block from the DA layer and
    the second from the P2P network, and syncs both; the theorems on its runs
    apply. The examples at the end show two ways in which a restart loses
    information. *)

From S2P Require Import Prelude Sha256 Datastore Types Serialization SerializationFacts ProtoInst Validation Store StoreFacts StoreMaintenance StoreAPI.
From S2P Require Import BlockCache Pending CacheManager DAClient DASubmitter Batching Submitter NodeInst SubmitterWitness.
From S2P Require Import ForcedInclusion Sequencing SequencerInst Execution Replayer ReplayerWitness ForcedCheck ForcedCheckWitness.
From S2P Require Import PriorityHeights DARetriever DARetrieverFacts DARetrieverWitness DecodeFacts Syncer SyncFlow SyncerFacts SyncRun SyncStart.
From stdpp Require Import base gmap strings list numbers.
Open Scope Z_scope.

Module SyncWitness.
Import ProtoInst MemDS MemDA StoreWitness NodeInst SubmitterWitness SequencerInst ReplayerWitness ForcedCheckWitness DARetrieverWitness.

(** ** The parameters *)

#[export] Instance chain_executor : Executor chainexec := {
  GetExecutionInfo x := (Ok 0, x);
  FilterTxs txs maxBytes maxGas forced x := (Ok (toy_filter maxBytes 0 txs), x);
  clock_Now x := (ce_clock x, x)
}.

(** The time, and whether the context is done at the coming questions. *)
Record syncenv := MkSyncEnv { se_now : Z; se_done : list bool }.
#[export] Instance sync_env : SyncEnv syncenv := {
  env_now v := (se_now v, v);
  env_done v := (default false (head (se_done v)), MkSyncEnv (se_now v) (tail (se_done v)))
}.

(** ** Two blocks *)

Definition proposer : slice := Some (Sha256.sum256 key).
Definition gen1 : ChainGenesis := MkChainGenesis "c" 5 1 proposer 3 2.

Definition unsigned (h : Z) (last root : slice) (data : Data) : SignedHeader bytes :=
  MkSignedHeader (MkHeader (MkBaseHeader h 7 "c") (MkVersion 11 1) last (Some (DACommitment data)) root None proposer None None)
    None (MkSigner (Some key) proposer None) None None.
Definition signed (sh : SignedHeader bytes) : SignedHeader bytes :=
  MkSignedHeader (sh_Header sh) (Some (key ++ ok_or_nil (Header_MarshalBinary clean_header clean_version (sh_Header sh))))
    (sh_Signer sh) None None.

Definition sb1 : SignedHeader bytes := signed (unsigned 1 None None (dat 1)).
Definition root1 : slice := Some (chain_root (data_txs (dat 1)) 1 (Sha256.sum256 [byte_of_Z 1])).
Definition sb2 : SignedHeader bytes := signed (unsigned 2 (Header_Hash (Some (sh_Header sb1))) root1 (dat 2)).

(** The P2P stores have the second block. *)
#[export] Instance p2p_one : P2PStores unit bytes := {
  p2p_GetHeader h p := (if h =? 2 then Ok (sb2, 0) else Err SyCanceled, p);
  p2p_GetData h p := (if h =? 2 then Ok (dat 2, 0) else Err SyCanceled, p)
}.

Lemma sb2_wf : signed_wf sb2.
Proof. split; [|left; reflexivity]. unfold header_wf, version_wf, is_u64. split_and!; vm_compute; discriminate || reflexivity. Qed.
Lemma dat2_wf : data_wf (dat 2).
Proof. intros m [= <-]. vm_compute. repeat split; discriminate. Qed.

#[export] Instance p2p_one_laws : P2PStoresLaws unit bytes.
Proof.
  split; intros h p; unfold wp; cbn [p2p_GetHeader p2p_GetData p2p_one]; destruct (h =? 2); try done;
    intros ? ? [= <- <-]; (split; [|done]); [exact sb2_wf|exact dat2_wf].
Qed.

(** ** The node *)

Definition retr0 : retr_state bytes memda := MkRetr rt_client da_ns da_ns ∅ ∅ false.
Definition node_on (st : memds) : Syncer memds bytes memda tablefi chainexec syncenv (gmap Z) :=
  MkSyncer (mgr_on st) gen1 0 None None 0 (Some 0) [] (Some (1%nat, [])) false (Some retr0) (Some [])
    (MkForcedCheck (Some (MkTable ∅ [])) (MkChainExec 0 [] 0) ∅ ∅ ∅ 0) (Some 0) None initial_tracking (MkSyncEnv 100 []).

Definition n1 := initializeState (node_on empty_db).
Definition n2 := HandleEvent 9 [data_blob key (dat 1); envelope_by key sb1] true n1.2.
Definition n3 := process_next n2.2.
Definition n4 := p2p_round (n3.2, tt).
Definition n5 := process_next n4.2.1.

Example synced : n1.1 = Ok tt /\ n2.1 = Ok tt /\ n3.1 = Ok tt /\ n4.1 = Ok (Some 2) /\ n5.1 = Ok tt /\
  (LastBlockHeight <$> s_lastState n5.2) = Some 2 /\ (DAHeight <$> s_lastState n5.2) = Some 9.
Proof. vm_compute. repeat split. Qed.

(** ** The theorems apply *)

Lemma gen1_wf : genesis_wf gen1.
Proof. unfold genesis_wf, is_u64. vm_compute. repeat split; discriminate. Qed.

Lemma empty_chain : chain_contents (bs_contents empty_db : contents bytes).
Proof.
  apply (concrete_chain empty_db []).
  - constructor.
  - apply map_Forall_empty.
  - apply map_Forall_empty.
  - intros h []%not_elem_of_nil.
Qed.

Lemma node_events st : events_wf (node_on st).
Proof. split_and!; [constructor|apply map_Forall_empty..|constructor]. Qed.

Lemma node_startable : startable 0 (node_on empty_db).
Proof.
  split.
  - apply (bool_decide_unpack _). vm_compute. exact I.
  - exact gen1_wf.
  - discriminate.
  - vm_compute. split; discriminate.
  - exact empty_chain.
  - left. reflexivity.
  - apply node_events.
  - vm_compute. reflexivity.
  - vm_compute. reflexivity.
Qed.

Lemma n1_ok : initializeState (node_on empty_db) = (Ok tt, n1.2).
Proof. apply run_eq. vm_compute. reflexivity. Qed.


Lemma n1_up : up_from (node_on empty_db) n1.2.
Proof. exact (wp_run _ _ _ _ _ (initialize_spec _ 0 node_startable) n1_ok eq_refl). Qed.

Definition state0 : State := getLastState n1.2.
Lemma n1_state : s_lastState n1.2 = Some state0.
Proof. pose proof (uf_state _ _ n1_up) as Hs. unfold state0, getLastState. by rewrite Hs. Qed.

Lemma n_run : rtc sync_step (n1.2, tt) (n5.2, tt).
Proof.
  apply (rtc_l _ _ (n2.2, tt)); [exact (step_inline 9 _ true n1.2 tt ltac:(split; [discriminate|reflexivity]))|].
  apply (rtc_l _ _ (n3.2, tt)); [exact (step_process n2.2 tt)|].
  apply (rtc_l _ _ (n4.2.1, tt)).
  { replace (n4.2.1, tt) with n4.2 by (destruct n4.2 as [? []]; reflexivity). exact (step_p2p (n3.2, tt)). }
  apply rtc_once. exact (step_process n4.2.1 tt).
Qed.

Lemma sync_run_correct_witness :
  exists bs, follow_chain None state0 bs /\ s_lastState n5.2 = Some (state_after state0 bs) /\ unlinked_chain state0 bs <= 1.
Proof.
  destruct (sync_run_correct (n1.2, tt) (n5.2, tt) state0 (uf_inv _ _ n1_up) n1_state n_run) as (bs & Hf & Hs & _ & _ & _ & Hu).
  exists bs. split; [|split; [exact Hs|exact Hu]].
  replace None with (s_provider n1.2) by (vm_compute; reflexivity). exact Hf.
Defined.

(** ** Waiting events *)

Definition ev_at (h : Z) : DAHeightEvent bytes := MkEvent (hdr h) (dat h) 0 SourceP2P (4, 5).
(** Blocks 1, 2 and 4 wait on an empty chain. *)
Definition waiting : Syncer memds bytes memda tablefi chainexec syncenv (gmap Z) :=
  set_s_mgr (set_pendingEvents {[ 1 := ev_at 1; 2 := ev_at 2; 4 := ev_at 4 ]} (s_mgr (node_on empty_db))) (node_on empty_db).

Example handed12 : let s := (processPendingEvents waiting).2 in
  s_heightInCh s = [clear_hints (ev_at 1); clear_hints (ev_at 2)] /\ PendingEventsCount (s_mgr s) = 1%nat.
Proof. vm_compute. split; reflexivity. Qed.

(** A done context stops the worker before the first event. *)
Example done_hands_nothing : let s := (processPendingEvents (set_s_env (MkSyncEnv 100 [true]) waiting)).2 in
  s_heightInCh s = [] /\ PendingEventsCount (s_mgr s) = 3%nat.
Proof. vm_compute. split; reflexivity. Qed.

Lemma pending_events_handed_over_witness :
  exists s', processPendingEvents waiting = (Ok tt, s') /\ exists es, handed_over 1 es waiting s'.
Proof.
  destruct (pending_events_handed_over waiting 0) as (s' & Hrun & [Ho|[Hf _]]).
  - vm_compute. reflexivity.
  - reflexivity.
  - apply (bool_decide_unpack (map_Forall (fun k _ => k < max_u64) (pendingEvents (s_mgr waiting)))). vm_compute. exact I.
  - exists s'. split; [exact Hrun|exact Ho].
  - exfalso. apply Hf. apply (bool_decide_unpack _). vm_compute. exact I.
Defined.

(** ** What a restart loses *)

(** A read that fails at the start looks like an empty store: the node of a
    chain of two blocks is back at the genesis state. *)
Example failed_read_resets :
  let db := MemDS (mem (s_store n5.2)) [true] in
  let '(r, s) := initializeState (node_on db) in
  r = Ok tt /\ (LastBlockHeight <$> s_lastState s) = Some 0 /\ c_height (bs_contents (PK := bytes) (s_store s)) = Ok 2.
Proof. vm_compute. repeat split. Qed.

(** The check of an epoch is due after its grace period, but a restart takes the
    epochs that have ended as checked: the censoring sequencer that is accused
    at DA height 5 goes free when the node restarts at DA height 3. *)
Example restart_skips_epoch :
  let c := set_lastCheckedEpochEnd (initial_checked_epoch gen 3 0) (fc0 forced1 []) in
  (sync [(3, []); (5, [tx 8])] (fc0 forced1 [])).1 = [Ok tt; Err (CMalicious 1)] /\
  (sync [(5, [tx 8]); (7, []); (9, [])] c).1 = [Ok tt; Ok tt; Ok tt].
Proof. vm_compute. split; reflexivity. Qed.

End SyncWitness.
