(* ===== verification/SingleSequencerWitness.v ===== *)
(** * A single sequencer at work

    Witnesses of the theorems of [SingleSequencerFacts.v] on a DA chain with two
    epochs, and three runs in which forced inclusion transactions are lost or
    repeated: after a failed retrieval, after a restart with a checkpoint ahead
    of the DA height in the state, and after a failed save of the checkpoint. *)

From stdpp Require Import base gmap strings list numbers.
From S2P Require Import Prelude Datastore Types Serialization ProtoInst Store StoreMaintenance BatchQueue.
From S2P Require Import BatchQueueProps DAClient ForcedInclusion ForcedInclusionFacts Sequencing SequencingFacts SequencerInst SingleSequencer.
From S2P Require Import SingleSequencerFacts.
Open Scope Z_scope.

Module SingleSequencerWitness.
Import ProtoInst MemDS MemDA StoreWitness BatchQueueWitness ForcedInclusionWitness SequencerInst.

Definition ns : bytes := [Init.Byte.x0f].
Definition tx (n : Z) : bytes := [byte_of_Z n; byte_of_Z 1].
Definition chain_id : bytes := [Init.Byte.x63].

(** DA heights 10 and 11 are the first epoch, 12 and 13 the second. *)
Definition da_blocks : gmap Z (Z * gmap bytes (list bytes)) := list_to_map
  [(10, (1700000000000000000, {[ ns := [tx 1; tx 0] ]}));
   (11, (1700000006000000000, {[ ns := [tx 2; tx 3] ]}));
   (12, (1700000012000000000, ∅)); (13, (1700000018000000000, ∅))].

Definition da_client (faults : list bool) : client memda :=
  MkClient true ns (newBlockTimestampCache 0) (MkMemDA da_blocks faults 5).

Abbreviation Seq := (Sequencer memds (forcedInclusionRetriever memds memda) toyexec).

(** A sequencer at DA height [h] with checkpoint [c], caught up. *)
Definition sequencer (h : Z) (c : Checkpoint) (state : CatchUpState) (rpc_faults cp_faults : list bool) : Seq :=
  MkSequencer (MkGenesis 10 2 1600000000000000000) chain_id
    (NewBatchQueue (MemDS.MemDS ∅ []) 10) (MemDS.MemDS ∅ []) (MemDS.MemDS ∅ cp_faults)
    (NewForcedInclusionRetriever (da_client rpc_faults) 10 2) h 10 c (MkExec 99 []) [] state 1600000000000000000 0.

(** A request for at most four bytes: two transactions. *)
Definition next : GetNextBatchRequest := MkNext chain_id [] 4.

Definition batch_of (r : res seq_error GetNextBatchResponse) : option (list bytes) :=
  match r with Ok resp => Some (resp_Transactions resp) | Err _ => None end.
(** The state after [n] requests and what they returned. *)
Definition after (n : nat) (s : Seq) : Seq := Nat.iter n (fun s => (GetNextBatch next s).2) s.
Definition batch_after (n : nat) (s : Seq) : option (list bytes) := batch_of (GetNextBatch next (after n s)).1.

(** ** Normal operation *)

(** At the end of the first epoch. *)
Definition s0 : Seq := sequencer 11 (MkCheckpoint 11 0) catchUpDone [] [].
Definition s1 : Seq := (GetNextBatch next s0).2.
Definition s2 : Seq := (GetNextBatch next s1).2.
Definition epoch1 : list bytes := [tx 1; tx 0; tx 2; tx 3].

Lemma da_client_inv faults : client_inv (da_client faults).
Proof. split_and!; [done..|]. simpl. intros h t Hl. by rewrite lookup_empty in Hl. Qed.

Lemma s0_ok : seq_ok s0.
Proof. split_and!; [done..|]. exact (ex_intro _ [] (reach_new (da_client []) 10 2 (da_client_inv []) (conj (Zle_bool_imp_le 0 10 eq_refl) eq_refl))). Qed.

Lemma s0_run : GetNextBatch next s0 = (Ok (MkNextResp [tx 1; tx 2] 1700000005999000000 []), s1).
Proof. unfold s1. refine (run_eq (GetNextBatch next) s0 _ _). vm_compute. reflexivity. Qed.

Lemma s1_run : GetNextBatch next s1 = (Ok (MkNextResp [tx 3] 1700000006000000000 []), s2).
Proof. unfold s2. refine (run_eq (GetNextBatch next) s1 _ _). vm_compute. reflexivity. Qed.


Lemma fetch_enters_epoch_witness :
  exists rf sf, ready 4 s0 rf sf /\
    (0 < zlen (cachedForcedInclusionTxs sf) < two64 ->
     0 < zlen (cachedForcedInclusionTxs sf) ->
     exists f f' ev, fi_inv f /\ fi_Retrieve 11 f = (Ok ev, f') /\
       in_epoch sf (fitting 4 (fi_Txs ev)) 0 /\ currentEpochTxCount sf = zlen (fitting 4 (fi_Txs ev)) /\
       GetNextBatch next s0 = GetNextBatch next sf).
Proof. exact (fetch_enters_epoch next s0 s0_ok eq_refl eq_refl eq_refl eq_refl). Defined.

(** The epoch from its start: the executor accepts the first transaction, removes
    the second, accepts the third and postpones the fourth, which the second
    batch hands out. *)
Definition e0 : Seq := set_checkpoint (MkCheckpoint 11 0) s1.
Definition e1 : Seq := (GetNextBatch next e0).2.
Definition e2 : Seq := (GetNextBatch next e1).2.
Definition call1 : SingleSequencerFacts.call := MkCall e0 next (Ok (MkNextResp [tx 1; tx 2] 1700000005999000000 [])).
Definition call2 : SingleSequencerFacts.call := MkCall e1 next (Ok (MkNextResp [tx 3] 1700000006000000000 [])).

Lemma e0_run : GetNextBatch next e0 = (Ok (MkNextResp [tx 1; tx 2] 1700000005999000000 []), e1).
Proof. unfold e1. refine (run_eq (GetNextBatch next) e0 _ _). vm_compute. reflexivity. Qed.

Lemma e1_run : GetNextBatch next e1 = (Ok (MkNextResp [tx 3] 1700000006000000000 []), e2).
Proof. unfold e2. refine (run_eq (GetNextBatch next) e1 _ _). vm_compute. reflexivity. Qed.

Lemma e0_in_epoch : in_epoch e0 epoch1 0.
Proof.
  assert (H1 : cachedForcedInclusionTxs e0 = epoch1) by (vm_compute; reflexivity).
  assert (H2 : checkpoint e0 = MkCheckpoint 11 0) by (vm_compute; reflexivity).
  assert (H3 : daHeight e0 = 11) by (vm_compute; reflexivity).
  unfold in_epoch. rewrite H1, H2, H3. split_and!; done.
Qed.

Lemma e2_over : cachedForcedInclusionTxs e2 = [].
Proof. vm_compute. reflexivity. Qed.

Lemma e0_not_nil : cachedForcedInclusionTxs e0 <> [].
Proof. vm_compute. discriminate. Qed.

Lemma e1_not_nil : cachedForcedInclusionTxs e1 <> [].
Proof. vm_compute. discriminate. Qed.

Lemma epoch_exactly_once_witness :
  exactly_once epoch1 [call1; call2] /\
  checkpoint e2 = MkCheckpoint (add64 (daHeight e0) 1) 0 /\ daHeight e2 = add64 (daHeight e0) 1.
Proof.
  exact (epoch_exactly_once e0 [call1; call2] e2 epoch1 0 e0_in_epoch
           (epoch_batch e0 next _ e1 [call2] e2 e0_not_nil e0_run
             (epoch_batch e1 next _ e2 [] e2 e1_not_nil e1_run (epoch_end e2 e2_over)))).
Defined.

Example epoch_verdicts :
  call_decides epoch1 call1 = [FilterOK; FilterRemove; FilterOK] /\ call_decides [tx 3] call2 = [FilterOK].
Proof. vm_compute. split; reflexivity. Qed.

(** ** Catch-up *)

(** The DA chain is an epoch ahead of the checkpoint. *)
Definition c0 : Seq := sequencer 11 (MkCheckpoint 11 0) catchUpUnchecked [] [].
Definition c1 : Seq := (GetNextBatch next c0).2.
Definition c2 : Seq := (GetNextBatch next c1).2.

Lemma c1_run : GetNextBatch next c1 = (Ok (MkNextResp [tx 3] 1700000006000000000 []), c2).
Proof. unfold c2. refine (run_eq (GetNextBatch next) c1 _ _). vm_compute. reflexivity. Qed.

Lemma c1_state :
  in_epoch c1 epoch1 3 /\ currentEpochTxCount c1 = zlen epoch1 /\ isCatchingUp c1 = true.
Proof.
  assert (H1 : cachedForcedInclusionTxs c1 = epoch1) by (vm_compute; reflexivity).
  assert (H2 : checkpoint c1 = MkCheckpoint 11 3) by (vm_compute; reflexivity).
  assert (H3 : daHeight c1 = 11) by (vm_compute; reflexivity).
  assert (H4 : currentEpochTxCount c1 = 4) by (vm_compute; reflexivity).
  assert (H5 : isCatchingUp c1 = true) by (vm_compute; reflexivity).
  unfold in_epoch. rewrite H1, H2, H3, H4, H5. split_and!; done.
Qed.

Lemma catch_up_batch_witness :
  let fs := call_decides [tx 3] (MkCall c1 next (Ok (MkNextResp [tx 3] 1700000006000000000 []))) in
    (0 < length fs <= 1)%nat /\
    [tx 3] = select FilterOK fs [tx 3] /\ [tx 3] <> [] /\
    seq_queue c2 = (SetPostponed [] (seq_queue c1)).2 /\
    1700000006000000000 = currentDAEndTime c1 - (4 - (3 + zlen fs)) * millisecond /\
    (1700000006000000000 = currentDAEndTime c2 <-> cachedForcedInclusionTxs c2 = []).
Proof.
  exact (catch_up_batch c1 epoch1 3 next _ c2 (proj1 c1_state) (proj1 (proj2 c1_state)) eq_refl
           (proj2 (proj2 c1_state)) c1_run).
Defined.

(** ** Lost and repeated transactions *)

(** The DA node fails to answer for height 11: the retriever returns an empty
    event for a retry, but the sequencer takes it for an epoch without forced
    transactions and moves its checkpoint past the epoch. *)
Definition f0 : Seq := sequencer 11 (MkCheckpoint 11 0) catchUpDone [false; false; true] [].

Example failed_epoch_is_skipped :
  batch_after 0 f0 = Some [] /\ checkpoint (after 1 f0) = MkCheckpoint 12 0 /\
  batch_after 1 f0 = Some [] /\ batch_after 2 f0 = Some [] /\ checkpoint (after 3 f0) = MkCheckpoint 14 0.
Proof. vm_compute. repeat split; reflexivity. Qed.

(** A restart after a crash between the save of the checkpoint, which stands at
    11, and the commit of the block: the last committed state has DA height 10,
    which the executor hands to [SetDAHeight]. The epoch needs two batches;
    consuming it sets the checkpoint to 10 + 1, and the same forced transactions
    are handed out again. *)
Definition g0 : Seq := SetDAHeight 10 (sequencer 11 (MkCheckpoint 11 0) catchUpDone [] []).

Example restart_repeats_epoch :
  batch_after 0 g0 = Some [tx 1; tx 2] /\ batch_after 1 g0 = Some [tx 3] /\
  checkpoint (after 2 g0) = MkCheckpoint 11 0 /\ batch_after 2 g0 = Some [tx 1; tx 2].
Proof. vm_compute. repeat split; reflexivity. Qed.

(** The checkpoint cannot be saved: the batch is not returned, but the position
    in memory has moved, and its transactions are never handed out. *)
Definition h0 : Seq := sequencer 11 (MkCheckpoint 11 0) catchUpDone [] [true].

Example failed_save_loses_batch :
  batch_after 0 h0 = None /\ batch_after 1 h0 = Some [tx 3] /\ checkpoint (after 2 h0) = MkCheckpoint 12 0.
Proof. vm_compute. repeat split; reflexivity. Qed.

End SingleSequencerWitness.
