(* ===== verification/BasedSequencer.v ===== *)
(** * The based sequencer ([pkg/sequencers/based/sequencer.go])

    A sequencer whose transactions are those of the DA layer only: it processes
    the forced inclusion transactions of the DA epochs in order and persists
    where it is. *)

From stdpp Require Import base gmap strings list numbers.
From S2P Require Import Prelude Datastore Types Serialization Store ForcedInclusion Sequencing SingleSequencer.
Open Scope Z_scope.

Module Based.

Inductive based_error :=
| BNoBatch
| BContext
| BFI (e : fi_error)
| BCheckpoint (e : checkpoint_error)
| BPanic.

Record BasedSequencer (DB F X : Type) := MkBased
  { fiRetriever : F;
    daHeight : Z;
    checkpointStore : DB;
    checkpoint : Checkpoint;
    executor : X;
    currentBatchTxs : list bytes;
    currentDAEndTime : Z;
    currentEpochTxCount : Z }.
Arguments MkBased {DB F X}.
Arguments fiRetriever {DB F X}. Arguments daHeight {DB F X}. Arguments checkpointStore {DB F X}.
Arguments checkpoint {DB F X}. Arguments executor {DB F X}. Arguments currentBatchTxs {DB F X}.
Arguments currentDAEndTime {DB F X}. Arguments currentEpochTxCount {DB F X}.

(** Field assignments. *)
Section setters.
Context {DB F X : Type}.
Abbreviation B := (BasedSequencer DB F X).
Definition set_fiRetriever (x : F) (s : B) : B :=
  MkBased x (daHeight s) (checkpointStore s) (checkpoint s) (executor s) (currentBatchTxs s)
          (currentDAEndTime s) (currentEpochTxCount s).
Definition set_daHeight (x : Z) (s : B) : B :=
  MkBased (fiRetriever s) x (checkpointStore s) (checkpoint s) (executor s) (currentBatchTxs s)
          (currentDAEndTime s) (currentEpochTxCount s).
Definition set_checkpointStore (x : DB) (s : B) : B :=
  MkBased (fiRetriever s) (daHeight s) x (checkpoint s) (executor s) (currentBatchTxs s)
          (currentDAEndTime s) (currentEpochTxCount s).
Definition set_checkpoint (x : Checkpoint) (s : B) : B :=
  MkBased (fiRetriever s) (daHeight s) (checkpointStore s) x (executor s) (currentBatchTxs s)
          (currentDAEndTime s) (currentEpochTxCount s).
Definition set_executor (x : X) (s : B) : B :=
  MkBased (fiRetriever s) (daHeight s) (checkpointStore s) (checkpoint s) x (currentBatchTxs s)
          (currentDAEndTime s) (currentEpochTxCount s).
Definition set_currentBatchTxs (x : list bytes) (s : B) : B :=
  MkBased (fiRetriever s) (daHeight s) (checkpointStore s) (checkpoint s) (executor s) x
          (currentDAEndTime s) (currentEpochTxCount s).
Definition set_currentDAEndTime (x : Z) (s : B) : B :=
  MkBased (fiRetriever s) (daHeight s) (checkpointStore s) (checkpoint s) (executor s) (currentBatchTxs s)
          x (currentEpochTxCount s).
Definition set_currentEpochTxCount (x : Z) (s : B) : B :=
  MkBased (fiRetriever s) (daHeight s) (checkpointStore s) (checkpoint s) (executor s) (currentBatchTxs s)
          (currentDAEndTime s) x.
End setters.

Definition basedCheckpointKey : string := "/based/checkpoint".

(** The loop over the filter statuses, which ends at the first postponed one:
    the valid transactions and how many were consumed. *)
Fixpoint filter_loop (i : nat) (statuses : list FilterStatus) (batchTxs validTxs : list bytes) (consumedCount : Z)
  : res based_error (list bytes * Z) :=
  match statuses with
  | [] => Ok (validTxs, consumedCount)
  | FilterOK :: statuses' =>
      tx ← tx_at BPanic batchTxs i;
      filter_loop (S i) statuses' batchTxs (validTxs ++ [tx]) (add64 consumedCount 1)
  | FilterRemove :: statuses' => filter_loop (S i) statuses' batchTxs validTxs (add64 consumedCount 1)
  | FilterPostpone :: _ => Ok (validTxs, consumedCount)
  end.

Section sequencer.
Context {DB : Type} `{Datastore DB} `{ProtoMsg pbVersion, ProtoMsg pbState, ProtoMsg pbCheckpoint}.
Context {F : Type} `{FISource F} {X : Type} `{Executor X}.

Abbreviation B := (BasedSequencer DB F X).
Definition BasedM (A : Type) : Type := M B based_error A.

Definition on_checkpoint {A} (m : M DB checkpoint_error A) : BasedM A :=
  zoom checkpointStore set_checkpointStore (wrap BCheckpoint m).
Definition on_fi {A} (m : M F fi_error A) : BasedM A := zoom fiRetriever set_fiRetriever (wrap BFI m).
Definition on_executor {A} (m : M X based_error A) : BasedM A := zoom executor set_executor m.

Definition SetDAHeight (height : Z) (s : B) : B := set_daHeight height s.
Definition GetDAHeight (s : B) : Z := daHeight s.

Definition load_checkpoint : BasedM unit :=
  r ← attempt (on_checkpoint (CheckpointStore_Load basedCheckpointKey));
  match r with
  | Err (BCheckpoint ErrCheckpointNotFound) =>
      modify (fun s => set_checkpoint (MkCheckpoint (GetDAHeight s) 0) s)
  | Err e => throw e
  | Ok c => modify (set_checkpoint c)
  end.

(** The error, if any, the sequencer and the block store. *)
Definition NewBasedSequencer (g : Genesis) (blocks cpDB : DB) (da : F) (exec : X)
  : res based_error unit * B * DB :=
  let '(state, blocks) := GetState blocks in
  let daStartHeight :=
    match state with
    | Ok state => if 0 <? DAHeight state then DAHeight state else DAStartHeight g
    | Err _ => DAStartHeight g
    end in
  let bs := MkBased da 0 cpDB (MkCheckpoint 0 0) exec [] (StartTime g) 0 in
  let bs := SetDAHeight daStartHeight bs in
  let '(r, bs) := (_ ← load_checkpoint;
                   modify (fun s => set_fiRetriever (fi_New (DAStartHeight g) (DAEpochForcedInclusion g)
                                                       (fiRetriever s)) s)) bs in
  (r, bs, blocks).

(** Submitted transactions are ignored. *)
Definition SubmitBatchTxs (req : SubmitBatchTxsRequest) : BasedM unit := mret tt.

Definition fetchNextDAEpoch (maxBytes : Z) : BasedM Z :=
  s ← gets id;
  let currentDAHeight := cp_DAHeight (checkpoint s) in
  event ← attempt (on_fi (fi_Retrieve currentDAHeight));
  match event with
  | Err (BFI ErrHeightFromFuture) => mret 0
  | Err e => throw e
  | Ok event =>
      let validTxs := fitting maxBytes (fi_Txs event) in
      _ ← modify (set_currentBatchTxs validTxs);
      _ ← modify (set_currentEpochTxCount (zlen validTxs));
      _ ← modify (fun s => if currentDAEndTime s <? fi_Timestamp event
                           then set_currentDAEndTime (fi_Timestamp event) s else s);
      mret (EndDaHeight event)
  end.

Definition epoch_consumed (s : B) : bool :=
  (zlen (currentBatchTxs s) =? 0) || (zlen (currentBatchTxs s) <=? cp_TxIndex (checkpoint s)).

Definition remaining (s : B) : list bytes :=
  if (0 <? zlen (currentBatchTxs s)) && (cp_TxIndex (checkpoint s) <? zlen (currentBatchTxs s))
  then drop (Z.to_nat (cp_TxIndex (checkpoint s))) (currentBatchTxs s) else [].

Definition advance_checkpoint (height : Z) (batchTxs : list bytes) (consumedCount : Z) : BasedM Z :=
  if (0 <? height) || (0 <? zlen batchTxs) then
    _ ← modify (fun s => set_checkpoint (MkCheckpoint (cp_DAHeight (checkpoint s))
                                           (add64 (cp_TxIndex (checkpoint s)) consumedCount)) s);
    s ← gets id;
    let txIndexForTimestamp := cp_TxIndex (checkpoint s) in
    _ ← (if zlen (currentBatchTxs s) <=? cp_TxIndex (checkpoint s) then
           _ ← modify (set_checkpoint (MkCheckpoint (add64 height 1) 0));
           _ ← modify (set_currentBatchTxs []);
           modify (SetDAHeight (add64 height 1))
         else mret tt);
    c ← gets checkpoint;
    _ ← on_checkpoint (CheckpointStore_Save basedCheckpointKey c);
    mret txIndexForTimestamp
  else mret 0.

(** [cancelled]: the context is done when the call starts. *)
Definition GetNextBatch (cancelled : bool) (req : GetNextBatchRequest) : BasedM GetNextBatchResponse :=
  if cancelled then throw BContext else
  s ← gets id;
  let height := GetDAHeight s in
  height ← (if (0 <? height) && epoch_consumed s then fetchNextDAEpoch (MaxBytes req) else mret height);
  s ← gets id;
  let batchTxs := remaining s in
  maxGas ← on_executor getMaxGas;
  filterStatuses ← on_executor (filter_or_all batchTxs (MaxBytes req) maxGas true);
  f ← lift_res (filter_loop 0 filterStatuses batchTxs [] 0);
  let '(validTxs, consumedCount) := f in
  txIndexForTimestamp ← advance_checkpoint height batchTxs consumedCount;
  s ← gets id;
  let timestamp := currentDAEndTime s + neg_millis (currentEpochTxCount s) + millis txIndexForTimestamp in
  if zlen validTxs =? 0 then throw BNoBatch else
  mret (MkNextResp validTxs timestamp (LastBatchData req)).

Definition VerifyBatch (i : bytes) (batchData : list bytes) : BasedM bool := mret true.

End sequencer.
End Based.
