(* ===== verification/BasedSequencerFacts.v ===== *)
(** * Catch-up is based sequencing

    The single sequencer that catches up and the based sequencer, started at the
    same position over the same DA layer, hand out the same batches with the
    same timestamps. The executors are compared by [exec_equiv], a partial
    equivalence that the calls of the sequencers respect. *)

From stdpp Require Import base gmap strings list numbers.
From S2P Require Import Prelude Datastore Types Serialization Store BatchQueue ForcedInclusion Sequencing.
From S2P Require Import SequencingFacts SingleSequencer SingleSequencerFacts BasedSequencer.
Open Scope Z_scope.

(** Executors that answer alike and go on answering alike; reading the clock and
    filtering no transactions make no difference. *)
Class ExecutorQueries (X : Type) `{Executor X} := {
  exec_equiv : relation X;
  exec_equiv_per : RelationClasses.PER exec_equiv;
  info_query x y : exec_equiv x y ->
    (GetExecutionInfo x).1 = (GetExecutionInfo y).1 /\ exec_equiv (GetExecutionInfo x).2 (GetExecutionInfo y).2;
  filter_query txs maxBytes maxGas b x y : exec_equiv x y ->
    (FilterTxs txs maxBytes maxGas b x).1 = (FilterTxs txs maxBytes maxGas b y).1 /\
    exec_equiv (FilterTxs txs maxBytes maxGas b x).2 (FilterTxs txs maxBytes maxGas b y).2;
  filter_nil maxBytes maxGas b b' x y : exec_equiv x y ->
    exec_equiv (FilterTxs [] maxBytes maxGas b x).2 (FilterTxs [] maxBytes maxGas b' y).2;
  clock_query x y : exec_equiv x y -> exec_equiv (clock_Now x).2 y
}.

(** ** The two filter loops *)

Lemma filter_loops_agree statuses : forall i all n f,
  forcedTxPostponed f = false -> (i + length statuses <= n)%nat ->
  match Based.filter_loop i statuses all (validForcedTxs f) (forcedTxConsumedCount f) with
  | Ok (v, c) => exists p, filter_loop i statuses all n f
      = Ok (MkFiltered v (validMempoolTxs f) (postponedMempoolTxs f) c p)
  | Err e => e = Based.BPanic /\ filter_loop i statuses all n f = Err SeqPanic
  end.
Proof.
  induction statuses as [|st l IH]; intros i all n f Hp Hn; cbn [filter_loop Based.filter_loop length] in *.
  { exists false. by destruct f; simpl in *; subst. }
  destruct (Nat.ltb_spec i n); [|lia]. unfold filter_forced. rewrite Hp. unfold tx_at.
  destruct st; cbn [mbind res_bind].
  - destruct (all !! i) as [tx|]; cbn; [|done].
    apply (IH (S i) all n (MkFiltered _ _ _ _ _)); [done|lia].
  - apply (IH (S i) all n (MkFiltered _ _ _ _ _)); [done|lia].
  - exists true. rewrite filter_loop_postponed; [done|lia|done].
Qed.

Section facts.
Context {DB : Type} `{DatastoreLaws DB} `{HashText} {PK : Type} `{PubKeys PK} `{Wire}.
Context `{ProtoMsg pbVersion, ProtoMsg pbHeader, ProtoMsg pbSignedHeader, ProtoMsg pbMetadata,
          ProtoMsg pbData, ProtoMsg pbState, ProtoMsg pbBatch, ProtoMsg pbCheckpoint}.
Context {F : Type} `{FISource F} {X : Type} `{Executor X} `{!ExecutorLaws X} `{!ExecutorQueries X}.

Abbreviation S := (Sequencer DB F X).
Abbreviation B := (Based.BasedSequencer DB F X).

(** The positions agree. *)
Definition same_position (s : S) (b : B) : Prop :=
  checkpoint s = Based.checkpoint b /\ cachedForcedInclusionTxs s = Based.currentBatchTxs b /\
  daHeight s = Based.daHeight b /\ currentDAEndTime s = Based.currentDAEndTime b /\
  currentEpochTxCount s = Based.currentEpochTxCount b /\ fiRetriever s = Based.fiRetriever b /\
  (cp_DAHeight (checkpoint s) = 0 -> daHeight s = 0).

Definition sim (s : S) (b : B) : Prop :=
  same_position s b /\ exec_equiv (executor s) (Based.executor b) /\
  ds_healthy (checkpointStore s) /\ ds_healthy (Based.checkpointStore b) /\ isCatchingUp s = true.

(** Outcomes that correspond. *)
Definition same_outcome {A} (r : res seq_error A) (r' : res Based.based_error A) : Prop :=
  match r, r' with
  | Ok a, Ok a' => a = a'
  | Err ErrNoBatch, Err Based.BNoBatch => True
  | Err (SeqFI e), Err (Based.BFI e') => e = e'
  | Err (SeqCheckpoint e), Err (Based.BCheckpoint e') => e = e'
  | Err SeqPanic, Err Based.BPanic => True
  | _, _ => False
  end.

(** ** Phases *)

Lemma max_gas_agree {E E'} (x y : X) :
  exec_equiv x y -> exists g x' y', getMaxGas (E := E) x = (Ok g, x') /\ getMaxGas (E := E') y = (Ok g, y') /\
    exec_equiv x' y'.
Proof.
  intros Hxy. destruct (info_query x y Hxy) as [Hr He]. unfold getMaxGas, attempt, mbind, M_bind.
  destruct (GetExecutionInfo x) as [r x'], (GetExecutionInfo y) as [r' y']. simpl in *. subst r'.
  destruct r as [g|e]; [by exists g, x', y'|by exists 0, x', y'].
Qed.

Lemma filter_agree {E E'} txs maxBytes g (x y : X) :
  exec_equiv x y -> exists l x' y',
    filter_or_all (E := E) txs maxBytes g (0 <? zlen txs) x = (Ok l, x') /\
    filter_or_all (E := E') txs maxBytes g true y = (Ok l, y') /\ exec_equiv x' y' /\ length l = length txs.
Proof.
  intros Hxy.
  pose proof (filter_or_all_spec (E := E) txs maxBytes g (0 <? zlen txs) x) as Hl.
  unfold wp in Hl. destruct txs as [|tx txs].
  - change (0 <? zlen (@nil bytes)) with false in *.
    pose proof (filter_or_all_spec (E := E') [] maxBytes g true y) as Hl'. unfold wp in Hl'.
    pose proof (filter_nil maxBytes g false true x y Hxy) as He.
    unfold filter_or_all, attempt, mbind, M_bind in *.
    destruct (FilterTxs [] maxBytes g false x) as [[l|e] x'],
      (FilterTxs [] maxBytes g true y) as [[l'|e'] y']; simpl in *;
      destruct Hl as (? & [= <-] & ?), Hl' as (? & [= <-] & ?);
      try (destruct l; [|done]); try (destruct l'; [|done]); by exists [], x', y'.
  - change (0 <? zlen (tx :: txs)) with true in *.
    destruct (filter_query (tx :: txs) maxBytes g true x y Hxy) as [Hr He].
    unfold filter_or_all, attempt, mbind, M_bind in *.
    destruct (FilterTxs (tx :: txs) maxBytes g true x) as [r x'],
      (FilterTxs (tx :: txs) maxBytes g true y) as [r' y']. simpl in Hr, He. subst r'.
    destruct r as [l|e]; simpl in Hl; destruct Hl as (? & [= <-] & Hl); by eexists _, x', y'.
Qed.

Lemma save_agree key key' c (d d' : DB) :
  ds_healthy d -> ds_healthy d' ->
  exists r d1 d1', CheckpointStore_Save key c d = (r, d1) /\ CheckpointStore_Save key' c d' = (r, d1') /\
    ds_healthy d1 /\ ds_healthy d1'.
Proof.
  intros Hd Hd'. unfold CheckpointStore_Save. destruct (proto_Marshal _) as [data|e]; cycle 1.
  { by eexists _, d, d'. }
  pose proof (put_law key data d) as Hp. pose proof (put_law key' data d') as Hp'. unfold wp in *. unfold wrap.
  destruct (ds_put key data d) as [[[]|e] d1]; [|by destruct Hp as [_ [_ []]]].
  destruct (ds_put key' data d') as [[[]|e] d1']; [|by destruct Hp' as [_ [_ []]]].
  exists (Ok tt), d1, d1'. simpl in *. naive_solver.
Qed.

(** The fetch, as long as the catch-up goes on. *)
Lemma fetch_agree maxBytes s b :
  sim s b ->
  exists rf s1 rf' b1, fetchNextDAEpoch maxBytes s = (rf, s1) /\ Based.fetchNextDAEpoch maxBytes b = (rf', b1) /\
    (isCatchingUp s1 = true -> same_outcome rf rf' /\ sim s1 b1).
Proof.
  intros ((Hc & Hca & Hd & Het & Hct & Hfi & Hz) & Hex & Hh & Hh' & Hcu).
  unfold fetchNextDAEpoch, Based.fetchNextDAEpoch. rewrite !run_gets. cbn [id]. cbv zeta.
  assert (Hup : updateCatchUpState s = (Ok tt, s)).
  { unfold updateCatchUpState. run_read. unfold isCatchingUp in Hcu.
    apply bool_decide_eq_true in Hcu. by rewrite Hcu. }
  rewrite (run_bind _ _ _ _ _ Hup). unfold attempt, on_fi, Based.on_fi, zoom, wrap.
  unfold mbind, M_bind. rewrite <- Hc, <- Hfi.
  destruct (fi_Retrieve (cp_DAHeight (checkpoint s)) (fiRetriever s)) as [r f]. destruct r as [ev|e]; cbn [map_err].
  - eexists _, _, _, _. split; [reflexivity|]. split; [reflexivity|]. intros _. split; [done|].
    simpl. rewrite <- Het. split_and!;
      destruct (currentDAEndTime s <? fi_Timestamp ev); try done; by split_and!.
  - unfold modify, mret, M_ret, throw.
    destruct e; eexists _, _, _, _; (split; [reflexivity|]); (split; [reflexivity|]); intros Hcu1;
      try (by split; [|split_and!]).
    exfalso. change (isCatchingUp (set_fiRetriever f s)) with (isCatchingUp s) in Hcu1. by rewrite Hcu in Hcu1.
Qed.

(** A checkpoint that is advanced alike. *)
Lemma advance_agree height txs k s b :
  sim s b ->
  exists r s1 r' b1, advance_checkpoint height txs k s = (r, s1) /\
    Based.advance_checkpoint height txs k b = (r', b1) /\ same_outcome r r' /\ sim s1 b1.
Proof.
  intros Hsim. pose proof Hsim as ((Hc & Hca & Hd & Het & Hct & Hfi & Hz) & Hex & Hh & Hh' & Hcu).
  unfold advance_checkpoint, Based.advance_checkpoint.
  destruct ((0 <? height) || (0 <? zlen txs)); [|by eexists _, s, _, b].
  unfold mbind, M_bind, modify, gets, mret, M_ret, on_checkpoint, Based.on_checkpoint, zoom, wrap. simpl.
  rewrite <- Hc, <- Hca. set (c1 := MkCheckpoint _ (add64 _ k)).
  set (over := zlen (cachedForcedInclusionTxs s) <=? _).
  destruct (save_agree singleCheckpointKey Based.basedCheckpointKey
      (if over then MkCheckpoint (add64 height 1) 0 else c1)
      (checkpointStore s) (Based.checkpointStore b) Hh Hh') as (r & d & d' & Hr & Hr' & Hhd & Hhd').
  destruct over; simpl; rewrite Hr, Hr'; destruct r as [[]|e];
    eexists _, _, _, _; (split; [reflexivity|]); (split; [reflexivity|]); by split_and!.
Qed.

(** Computations that leave the catch-up state alone. *)
Definition keeps_catch_up {A} (m : SM (DB := DB) (F := F) (X := X) A) : Prop :=
  forall s, wp m (fun _ s' => catchUpState s' = catchUpState s) s.

Lemma keeps_bind {A A'} (m : SM A) (f : A -> SM A') :
  keeps_catch_up m -> (forall a, keeps_catch_up (f a)) -> keeps_catch_up (m ≫= f).
Proof.
  intros Hm Hf s. apply wp_bind. eapply wp_mono; [apply Hm|]. intros [a|e] s' Hs; [|done].
  eapply wp_mono; [apply Hf|]. intros r s'' ->. done.
Qed.

Lemma keeps_finish req height : keeps_catch_up (finish_batch req height).
Proof.
  assert (Hq : forall A (m : M (BatchQueue DB) queue_error A), keeps_catch_up (on_queue m)).
  { intros A m s. apply wp_zoom. unfold wp. done. }
  assert (Hx : forall A (m : M X seq_error A), keeps_catch_up (on_executor m)).
  { intros A m s. apply wp_zoom. unfold wp. done. }
  assert (Hc : forall A (m : M DB checkpoint_error A), keeps_catch_up (on_checkpoint m)).
  { intros A m s. apply wp_zoom. unfold wp. done. }
  unfold finish_batch, advance_checkpoint. cbv zeta.
  repeat first
    [ apply Hq | apply Hx | apply Hc
    | apply keeps_bind; [|intros ?]
    | match goal with |- keeps_catch_up (if ?b then _ else _) => destruct b end
    | by intros ? ].
Qed.

(** The rest of [Based.GetNextBatch] once the epoch is known. *)
Definition based_finish (req : GetNextBatchRequest) (height : Z) : Based.BasedM (DB := DB) (F := F) (X := X) GetNextBatchResponse :=
  s ← gets id;
  let batchTxs := Based.remaining s in
  maxGas ← Based.on_executor getMaxGas;
  filterStatuses ← Based.on_executor (filter_or_all batchTxs (MaxBytes req) maxGas true);
  f ← lift_res (Based.filter_loop 0 filterStatuses batchTxs [] 0);
  let '(validTxs, consumedCount) := f in
  txIndexForTimestamp ← Based.advance_checkpoint height batchTxs consumedCount;
  s ← gets id;
  let timestamp := Based.currentDAEndTime s + neg_millis (Based.currentEpochTxCount s) + millis txIndexForTimestamp in
  if zlen validTxs =? 0 then throw Based.BNoBatch else
  mret (MkNextResp validTxs timestamp (LastBatchData req)).

Lemma sim_executor s b x y : sim s b -> exec_equiv x y -> sim (set_executor x s) (Based.set_executor y b).
Proof. by intros (? & ? & ? & ? & ?) ?. Qed.

Lemma finish_agree req height s b :
  sim s b ->
  exists r s1 r' b1, finish_batch req height s = (r, s1) /\ based_finish req height b = (r', b1) /\
    same_outcome r r' /\ sim s1 b1.
Proof.
  intros Hsim. pose proof Hsim as ((Hc & Hca & _) & Hex & _ & _ & Hcu).
  assert (Hrem : Based.remaining b = remaining_forced s).
  { unfold Based.remaining, remaining_forced. by rewrite Hc, Hca. }
  unfold finish_batch, based_finish. rewrite !run_gets. cbn [id]. cbv zeta. rewrite Hrem, Hcu. cbn [negb].
  set (forced := remaining_forced s).
  destruct (max_gas_agree (E := seq_error) (E' := Based.based_error) _ _ Hex) as (g & x1 & y1 & Hg & Hg' & He1).
  destruct (filter_agree (E := seq_error) (E' := Based.based_error) forced (MaxBytes req) g x1 y1 He1)
    as (l & x2 & y2 & Hf & Hf' & He2 & Hl).
  pose proof (sim_executor s b x2 y2 Hsim He2) as Hsim2.
  pose proof (filter_loops_agree l 0 forced (length forced) no_filtered eq_refl ltac:(rewrite Hl; lia)) as Hfl.
  unfold mbind at 1, M_bind at 1, mret at 1, M_ret at 1. rewrite app_nil_r.
  assert (Hxg : on_executor getMaxGas s = (Ok g, set_executor x1 s)) by (unfold on_executor, zoom; by rewrite Hg).
  assert (Hyg : Based.on_executor getMaxGas b = (Ok g, Based.set_executor y1 b)) by (unfold Based.on_executor, zoom; by rewrite Hg').
  assert (Hxf : on_executor (filter_or_all forced (MaxBytes req) g (0 <? zlen forced)) (set_executor x1 s)
    = (Ok l, set_executor x2 s)) by (unfold on_executor, zoom; simpl; by rewrite Hf).
  assert (Hyf : Based.on_executor (filter_or_all forced (MaxBytes req) g true) (Based.set_executor y1 b)
    = (Ok l, Based.set_executor y2 b)) by (unfold Based.on_executor, zoom; simpl; by rewrite Hf').
  rewrite (run_bind _ _ _ _ _ Hxg), (run_bind _ _ _ _ _ Hxf), (run_bind _ _ _ _ _ Hyg), (run_bind _ _ _ _ _ Hyf).
  cbn [validForcedTxs forcedTxConsumedCount no_filtered] in Hfl.
  destruct (Based.filter_loop 0 l forced [] 0) as [[v c]|e]; cycle 1.
  { destruct Hfl as [-> Hfl]. rewrite Hfl, !run_lift_err. by eexists _, _, _, _. }
  destruct Hfl as [p Hfl]. rewrite Hfl, !run_lift. cbn [postponedMempoolTxs forcedTxConsumedCount].
  set (s3 := set_seq_queue (SetPostponed [] (seq_queue s)).2 (set_executor x2 s)).
  assert (Hq : on_queue (SetPostponed []) (set_executor x2 s) = (Ok tt, s3)) by done.
  rewrite (run_bind _ _ _ _ _ Hq).
  assert (Hsim3 : sim s3 (Based.set_executor y2 b)) by exact Hsim2.
  destruct (advance_agree height forced c _ _ Hsim3) as (r & s4 & r' & b4 & Ha & Ha' & Ho & Hsim4).
  destruct r as [t|e], r' as [t'|e']; try done; try by destruct e.
  2: { rewrite (run_bind_err _ _ _ _ _ Ha), (run_bind_err _ _ _ _ _ Ha'). eexists _, _, _, _.
       split; [done|]. split; [done|]. split; [|done]. destruct e, e'; done. }
  simpl in Ho. subst t'. rewrite (run_bind _ _ _ _ _ Ha), (run_bind _ _ _ _ _ Ha').
  destruct Hsim4 as (Hp4 & He4 & Hh4 & Hh4' & Hcu4). pose proof Hp4 as (_ & _ & _ & Het & Hct & _ & _).
  unfold mbind, M_bind, on_executor, zoom, infallible, gets. pose proof (clock_query _ _ He4) as Hck.
  destruct (clock_Now (executor s4)) as [now x5]. simpl in Hck. cbn [id].
  change (isCatchingUp (set_executor x5 s4)) with (isCatchingUp s4). rewrite Hcu4. cbn [andb orb validForcedTxs validMempoolTxs].
  rewrite app_nil_r, <- Het, <- Hct. destruct (zlen v =? 0); eexists _, _, _, _; (split; [reflexivity|]);
    (split; [reflexivity|]); by split_and!.
Qed.

Lemma based_get_next_batch req b :
  Based.GetNextBatch false req b
  = (height ← (if (0 <? Based.daHeight b) && Based.epoch_consumed b
               then Based.fetchNextDAEpoch (MaxBytes req) else mret (Based.daHeight b));
     based_finish req height) b.
Proof. done. Qed.

(** C38: During catch-up the single sequencer is a based sequencer. If the two are
    at the same position over the same DA source, with executors that answer
    alike and healthy databases, then a request that leaves the single sequencer
    catching up has the same outcome for both, the same batch with the same
    timestamp or the same kind of error, and leaves them at the same position
    again. *)
Theorem catch_up_matches_based req s b r s' :
  sim s b -> isValid (req_Id req) s = true -> GetNextBatch req s = (r, s') -> isCatchingUp s' = true ->
  exists r' b', Based.GetNextBatch false req b = (r', b') /\ same_outcome r r' /\ sim s' b'.
Proof.
  intros Hsim Hv Hrun Hcu'. pose proof Hsim as ((Hc & Hca & Hd & _ & _ & _ & Hz) & _).
  unfold GetNextBatch in Hrun. rewrite run_gets in Hrun. cbn [id] in Hrun. rewrite Hv in Hrun.
  cbn [negb] in Hrun. cbv zeta in Hrun. change (GetDAHeight s) with (daHeight s) in Hrun.
  assert (Hb : bootstrap_checkpoint (daHeight s) s = (Ok tt, s)).
  { unfold bootstrap_checkpoint. run_read.
    destruct (Z.eqb_spec (cp_DAHeight (checkpoint s)) 0) as [Hz0|]; [rewrite (Hz Hz0); done|by rewrite andb_false_r]. }
  rewrite (run_bind _ _ _ _ _ Hb), run_gets in Hrun. cbn [id] in Hrun.
  assert (He : Based.epoch_consumed b = epoch_consumed s).
  { unfold Based.epoch_consumed, epoch_consumed. by rewrite Hc, Hca. }
  rewrite based_get_next_batch, He, <- Hd.
  destruct ((0 <? daHeight s) && epoch_consumed s); cycle 1.
  { change (exists r' b', based_finish req (daHeight s) b = (r', b') /\ same_outcome r r' /\ sim s' b').
    destruct (finish_agree req (daHeight s) s b Hsim) as (r1 & s1 & r' & b1 & Hr1 & Hr2 & Ho & Hs1).
    change (finish_batch req (daHeight s) s = (r, s')) in Hrun. rewrite Hr1 in Hrun. injection Hrun as <- <-.
    by exists r', b1. }
  destruct (fetch_agree (MaxBytes req) s b Hsim) as (rf & s1 & rf' & b1 & Hf & Hf' & Hgo).
  destruct rf as [h|e]; cycle 1.
  { rewrite (run_bind_err _ _ _ _ _ Hf) in Hrun. injection Hrun as <- <-.
    destruct (Hgo Hcu') as [Ho Hs1]. destruct rf' as [h'|e']; [by destruct e|].
    rewrite (run_bind_err _ _ _ _ _ Hf'). exists (Err e'), b1. split; [done|]. split; [|done]. by destruct e, e'. }
  rewrite (run_bind _ _ _ _ _ Hf) in Hrun. change (finish_batch req h s1 = (r, s')) in Hrun.
  assert (Hcu1 : isCatchingUp s1 = true).
  { pose proof (wp_run _ _ _ _ _ (keeps_finish req h s1) Hrun) as Hk. simpl in Hk.
    unfold isCatchingUp in *. by rewrite <- Hk. }
  destruct (Hgo Hcu1) as [Ho Hs1]. destruct rf' as [h'|e']; [|done]. simpl in Ho. subst h'.
  rewrite (run_bind _ _ _ _ _ Hf').
  destruct (finish_agree req h s1 b1 Hs1) as (r1 & s2 & r' & b2 & Hr1 & Hr2 & Ho & Hs2).
  rewrite Hr1 in Hrun. injection Hrun as <- <-. by exists r', b2.
Qed.

End facts.
