(* ===== verification/BasedSequencerWitness.v ===== *)
(** * A based sequencer next to a single sequencer that catches up

    The witness of [catch_up_matches_based]. *)

From stdpp Require Import base gmap strings list numbers.
From S2P Require Import Prelude Datastore Types Serialization ProtoInst Store StoreMaintenance BatchQueue.
From S2P Require Import BatchQueueProps DAClient ForcedInclusion ForcedInclusionFacts Sequencing SequencingFacts SequencerInst SingleSequencer.
From S2P Require Import SingleSequencerFacts SingleSequencerWitness BasedSequencer BasedSequencerFacts.
Open Scope Z_scope.

Module BasedSequencerWitness.
Import ProtoInst MemDS MemDA StoreWitness BatchQueueWitness ForcedInclusionWitness SequencerInst SingleSequencerWitness.

(** Executors that do not fail answer alike. *)
#[export] Instance toy_queries : ExecutorQueries toyexec.
Proof.
  refine {| exec_equiv x y := exec_faults x = [] /\ exec_faults y = [] |}.
  - split; [by intros x y []|by intros x y z [] []].
  - intros x y []. done.
  - intros txs mb g b x y [Hx Hy]. simpl. by rewrite Hx, Hy.
  - intros mb g b b' x y [Hx Hy]. simpl. by rewrite Hx, Hy.
  - intros x y []. done.
Defined.

Definition u0 : Seq := sequencer 11 (MkCheckpoint 11 0) catchUpInProgress [] [].
Definition u1 : Seq := (GetNextBatch next u0).2.
Definition b0 : Based.BasedSequencer memds (forcedInclusionRetriever memds memda) toyexec :=
  Based.MkBased (fiRetriever u0) 11 (MemDS.MemDS ∅ []) (MkCheckpoint 11 0) (MkExec 7 []) [] 1600000000000000000 0.

Lemma u0_sim : sim u0 b0.
Proof. split_and!; try done; try (by constructor). Qed.

Lemma u0_run : GetNextBatch next u0 = (Ok (MkNextResp [tx 1; tx 2] 1700000005999000000 []), u1).
Proof. unfold u1. refine (run_eq (GetNextBatch next) u0 _ _). vm_compute. reflexivity. Qed.

Lemma u1_catching : isCatchingUp u1 = true.
Proof. vm_compute. reflexivity. Qed.

Lemma catch_up_matches_based_witness :
  exists r' b', Based.GetNextBatch false next b0 = (r', b') /\
    same_outcome (Ok (MkNextResp [tx 1; tx 2] 1700000005999000000 [])) r' /\ sim u1 b'.
Proof. exact (catch_up_matches_based next u0 b0 _ u1 u0_sim eq_refl u0_run u1_catching). Defined.

(** The based sequencer goes on with the rest of the epoch. *)
Example based_epoch :
  let b1 := (Based.GetNextBatch false next b0).2 in
  let '(r, b2) := Based.GetNextBatch false next b1 in
  r = Ok (MkNextResp [tx 3] 1700000006000000000 []) /\ Based.checkpoint b2 = MkCheckpoint 12 0.
Proof. vm_compute. split; reflexivity. Qed.

End BasedSequencerWitness.
