(* ===== verification/SoloSequencer.v ===== *)
(** * The solo sequencer ([pkg/sequencers/solo/sequencer.go])

    An in-memory queue of transactions. [GetNextBatch] takes the queue under the
    mutex, filters it without the mutex, compacting the slice in place, and puts
    the postponed transactions back under the mutex; submissions may come in
    between. The three parts are definitions of their own, [GetNextBatch] is
    their composition, and [solo_step] interleaves them with submissions. The
    theorems: no transaction is lost or duplicated, and the byte count of the
    queue is exact. *)

From stdpp Require Import base gmap strings list numbers.
From S2P Require Import Prelude Sequencing SequencerInst SingleSequencer SingleSequencerFacts.
Open Scope Z_scope.

Module Solo.

Inductive solo_error := ErrInvalidID | ErrQueueFull | SoloPanic.

Record SoloSequencer (X : Type) := MkSolo
  { id_ : bytes; executor : X; daHeight : Z; queue : list bytes; queueBytes : Z; maxQueueBytes : Z }.
Arguments MkSolo {X}. Arguments id_ {X}. Arguments executor {X}. Arguments daHeight {X}.
Arguments queue {X}. Arguments queueBytes {X}. Arguments maxQueueBytes {X}.

Section sequencer.
Context {X : Type} `{Executor X}.

Abbreviation T := (SoloSequencer X).
Definition SoloM (A : Type) : Type := M T solo_error A.

Definition set_queue (q : list bytes) (n : Z) (s : T) : T :=
  MkSolo (id_ s) (executor s) (daHeight s) q n (maxQueueBytes s).
Definition set_executor (x : X) (s : T) : T :=
  MkSolo (id_ s) x (daHeight s) (queue s) (queueBytes s) (maxQueueBytes s).
Definition on_executor {A} (m : M X solo_error A) : SoloM A := zoom executor set_executor m.

(** [NewSoloSequencer(logger, id, executor, WithMaxQueueBytes(n))]. *)
Definition NewSoloSequencer (i : bytes) (exec : X) (n : Z) : T := MkSolo i exec 0 [] 0 n.

Definition isValid (i : bytes) (s : T) : bool := bytes_eqb (id_ s) i.
Definition SetDAHeight (height : Z) (s : T) : T :=
  MkSolo (id_ s) (executor s) height (queue s) (queueBytes s) (maxQueueBytes s).
Definition GetDAHeight (s : T) : Z := daHeight s.

(** The sum of the sizes of transactions, a uint64. *)
Definition tx_bytes (txs : list bytes) : Z := foldl (fun n tx => add64 n (zlen tx)) 0 txs.

Definition SubmitBatchTxs (req : SubmitBatchTxsRequest) : SoloM unit :=
  s ← gets id;
  if negb (isValid (sub_Id req) s) then throw ErrInvalidID else
  match sub_Batch req with
  | None => mret tt
  | Some transactions =>
      if zlen transactions =? 0 then mret tt else
      if maxQueueBytes s =? 0 then modify (set_queue (queue s ++ transactions) (queueBytes s)) else
      let batchBytes := tx_bytes transactions in
      if maxQueueBytes s <? add64 (queueBytes s) batchBytes then throw ErrQueueFull else
      modify (set_queue (queue s ++ transactions) (add64 (queueBytes s) batchBytes))
  end.

(** The first critical section of [GetNextBatch]. *)
Definition take_queue : SoloM (list bytes) :=
  txs ← gets queue;
  _ ← modify (set_queue [] 0);
  mret txs.

(** The loop that compacts [txs] in place and collects the postponed. *)
Fixpoint compact_loop (i : nat) (statuses : list FilterStatus) (txs : list bytes) (write : nat)
  (postponedTxs : list bytes) : res solo_error (list bytes * nat * list bytes) :=
  match statuses with
  | [] => Ok (txs, write, postponedTxs)
  | FilterOK :: statuses' =>
      tx ← tx_at SoloPanic txs i;
      compact_loop (S i) statuses' (<[write := tx]> txs) (S write) postponedTxs
  | FilterPostpone :: statuses' =>
      tx ← tx_at SoloPanic txs i;
      compact_loop (S i) statuses' txs write (postponedTxs ++ [tx])
  | FilterRemove :: statuses' => compact_loop (S i) statuses' txs write postponedTxs
  end.

(** The second critical section. *)
Definition requeue (postponedTxs : list bytes) : SoloM unit :=
  if 0 <? zlen postponedTxs then
    modify (fun s => set_queue (postponedTxs ++ queue s) (add64 (queueBytes s) (tx_bytes postponedTxs)) s)
  else mret tt.

Definition now : SoloM Z := on_executor (infallible clock_Now).

Definition GetNextBatch (req : GetNextBatchRequest) : SoloM GetNextBatchResponse :=
  s ← gets id;
  if negb (isValid (req_Id req) s) then throw ErrInvalidID else
  txs ← take_queue;
  if zlen txs =? 0 then t ← now; mret (MkNextResp [] t (LastBatchData req)) else
  maxGas ← on_executor getMaxGas;
  filterStatuses ← attempt (zoom executor set_executor (FilterTxs txs (MaxBytes req) maxGas false));
  match filterStatuses with
  | Err _ => t ← now; mret (MkNextResp txs t (LastBatchData req))
  | Ok filterStatuses =>
      r ← lift_res (compact_loop 0 filterStatuses txs 0 []);
      let '(txs, write, postponedTxs) := r in
      _ ← requeue postponedTxs;
      t ← now;
      mret (MkNextResp (take write txs) t (LastBatchData req))
  end.

Definition VerifyBatch (i : bytes) : SoloM bool :=
  s ← gets id;
  if negb (isValid i s) then throw ErrInvalidID else mret true.

(** ** The in-place compaction *)

Lemma compact_loop_spec statuses : forall pre txs kept post rest,
  length statuses = length rest -> txs = kept ++ pre ++ rest ->
  exists junk, compact_loop (length kept + length pre) statuses txs (length kept) post
    = Ok (kept ++ select FilterOK statuses rest ++ junk, (length kept + length (select FilterOK statuses rest))%nat,
          post ++ select FilterPostpone statuses rest).
Proof.
  induction statuses as [|st l IH]; intros pre txs kept post [|tx rest] Hl ->; try done.
  { exists pre. simpl. rewrite !app_nil_r, Nat.add_0_r. done. }
  injection Hl as Hl. cbn [compact_loop]. unfold tx_at.
  rewrite (app_assoc kept), list_lookup_middle by (rewrite length_app; done). cbn [mbind res_bind].
  rewrite !select_cons.
  assert (Hmid : (kept ++ pre) ++ tx :: rest = kept ++ (pre ++ [tx]) ++ rest) by (by rewrite <- !app_assoc).
  assert (Hlen : S (length kept + length pre) = (length kept + length (pre ++ [tx]))%nat)
    by (rewrite length_app; simpl; lia).
  destruct st; simpl.
  - assert (exists pre2, S (length kept + length pre) = (length (kept ++ [tx]) + length pre2)%nat /\
      <[length kept := tx]> ((kept ++ pre) ++ tx :: rest) = (kept ++ [tx]) ++ pre2 ++ rest) as (pre2 & Hlen' & Hins).
    { rewrite Hmid, insert_app_r_alt, Nat.sub_diag by lia. rewrite length_app. simpl.
      destruct pre as [|p pre]; [exists []|exists (pre ++ [tx]); rewrite length_app];
        (split; [simpl; lia|]); simpl; by rewrite <- ?app_assoc. }
    destruct (IH pre2 _ (kept ++ [tx]) post rest Hl Hins) as [junk Hj]. exists junk.
    rewrite Hlen'. replace (S (length kept)) with (length (kept ++ [tx])) by (rewrite length_app; simpl; lia).
    rewrite Hj, length_app, <- !app_assoc. simpl. do 3 f_equal. lia.
  - rewrite Hlen. by apply IH.
  - rewrite Hlen. destruct (IH (pre ++ [tx]) ((kept ++ pre) ++ tx :: rest) kept (post ++ [tx]) rest Hl Hmid) as [junk Hj].
    exists junk. rewrite Hj. by rewrite <- app_assoc.
Qed.

Lemma compact_spec statuses txs :
  length statuses = length txs -> exists txs' write,
    compact_loop 0 statuses txs 0 [] = Ok (txs', write, select FilterPostpone statuses txs) /\
    take write txs' = select FilterOK statuses txs.
Proof.
  intros Hl. destruct (compact_loop_spec statuses [] txs [] [] txs Hl eq_refl) as [junk Hj].
  eexists _, _. split; [exact Hj|]. simpl. by rewrite take_app_length.
Qed.

(** The statuses split the transactions in three. *)
Lemma select_partition statuses txs :
  length statuses = length txs ->
  txs ≡ₚ select FilterOK statuses txs ++ select FilterRemove statuses txs ++ select FilterPostpone statuses txs.
Proof.
  revert txs. induction statuses as [|st l IH]; intros [|tx txs] Hl; try done.
  injection Hl as Hl. rewrite !select_cons. specialize (IH txs Hl). destruct st; simpl; rewrite IH at 1.
  - done.
  - by rewrite Permutation_middle.
  - rewrite Permutation_middle. f_equiv. by rewrite Permutation_middle.
Qed.

(** What a request leads to: everything is handed out unfiltered, or the queue is
    split by the statuses of the executor. *)
Definition batch_post (req : GetNextBatchRequest) (s : T) (resp : GetNextBatchResponse) (s' : T) : Prop :=
  BatchData resp = LastBatchData req /\ maxQueueBytes s' = maxQueueBytes s /\ id_ s' = id_ s /\
  (resp_Transactions resp = queue s /\ queue s' = [] /\ queueBytes s' = 0 \/
   exists statuses, length statuses = length (queue s) /\
     resp_Transactions resp = select FilterOK statuses (queue s) /\
     queue s' = select FilterPostpone statuses (queue s) /\ queueBytes s' = tx_bytes (queue s')).

Lemma tx_bytes_u64 txs : is_u64 (tx_bytes txs).
Proof.
  unfold tx_bytes. rewrite <- (rev_involutive txs). destruct (rev txs) as [|t l]; [done|].
  simpl. rewrite foldl_snoc. apply u64_range.
Qed.

Lemma respond_spec req txs (Q : res solo_error GetNextBatchResponse -> T -> Prop) s :
  (forall t x, Q (Ok (MkNextResp txs t (LastBatchData req))) (set_executor x s)) ->
  wp (t ← now; mret (MkNextResp txs t (LastBatchData req))) Q s.
Proof. intros HQ. apply wp_bind, wp_zoom, wp_infallible, wp_ret. apply HQ. Qed.

Lemma requeue_spec postponed (s : T) :
  wp (requeue postponed) (fun r s' => r = Ok tt /\
    s' = set_queue (postponed ++ queue s) (u64 (queueBytes s + tx_bytes postponed)) s \/
    r = Ok tt /\ postponed = [] /\ s' = s) s.
Proof.
  unfold requeue. destruct (Z.ltb_spec 0 (zlen postponed)) as [Hp|Hp]; [by left|right].
  split_and!; try done. apply zlen_zero. pose proof (zlen_nonneg postponed). lia.
Qed.

(** A batch of the solo sequencer. With the right chain id a request always
    returns; the batch is the transactions of the queue that the executor
    accepted, in order (all of them when the filter fails), the queue is left
    with the postponed ones, in order, and the in-place compaction of the slice
    computes exactly that split. *)
Theorem solo_batch_correct `{!ExecutorLaws X} req (s : T) :
  isValid (req_Id req) s = true ->
  exists resp s', GetNextBatch req s = (Ok resp, s') /\ batch_post req s resp s'.
Proof.
  intros Hv. cut (wp (GetNextBatch req) (fun r s' => exists resp, r = Ok resp /\ batch_post req s resp s') s).
  { unfold wp. destruct (GetNextBatch req s) as [r s']. cbn [fst snd]. intros (resp & -> & Hrest).
    by exists resp, s'. }
  unfold GetNextBatch. wp_read. rewrite Hv. cbn [negb].
  apply wp_bind, wp_bind, wp_gets, wp_bind, wp_modify, wp_ret.
  destruct (Z.eqb_spec (zlen (queue s)) 0) as [Hz|Hz].
  { apply respond_spec. intros t x. eexists. split; [done|]. split_and!; [done..|]. left.
    apply zlen_zero in Hz as ->. done. }
  apply wp_bind, wp_zoom. eapply wp_mono; [apply getMaxGas_spec|]. intros [g|e] x Hg; [|done].
  apply wp_bind, wp_attempt, wp_zoom. unfold wp at 1. simpl.
  destruct (FilterTxs (queue s) (MaxBytes req) g false x) as [[statuses|e] x'] eqn:Hf; cbn [fst snd]; cycle 1.
  { apply respond_spec. intros t y. eexists. split; [done|]. split_and!; [done..|]. by left. }
  apply FilterTxs_length in Hf. destruct (compact_spec statuses (queue s) Hf) as (txs' & write & Hc & Htake).
  rewrite Hc. apply wp_bind, wp_lift_res, wp_bind. eapply wp_mono; [apply requeue_spec|].
  intros r s1 Hs1. assert (r = Ok tt) as -> by (destruct Hs1 as [[? _]|[? _]]; done).
  apply respond_spec. intros t y. eexists. split; [done|].
  destruct Hs1 as [[_ ->]|(_ & Hnil & ->)]; (split_and!; [done..|]); right; exists statuses; simpl;
    (split_and!; try done); rewrite ?app_nil_r; try done.
  - simpl. apply u64_small, tx_bytes_u64.
Qed.

(** ** Interleavings

    A request in progress holds the transactions it took; the history records
    the transactions accepted from submissions, handed out in batches and
    removed by the executor. *)

Record system := MkSystem
  { solo : T; taken : option (list bytes); accepted : list bytes; delivered : list bytes; removed : list bytes }.

Definition submitted (req : SubmitBatchTxsRequest) (r : res solo_error unit) : list bytes :=
  if is_ok r then default [] (sub_Batch req) else [].

Inductive solo_step : system -> system -> Prop :=
| step_submit y req r s' :
    SubmitBatchTxs req (solo y) = (r, s') ->
    solo_step y (MkSystem s' (taken y) (accepted y ++ submitted req r) (delivered y) (removed y))
| step_take y txs s' :
    taken y = None -> take_queue (solo y) = (Ok txs, s') ->
    solo_step y (MkSystem s' (Some txs) (accepted y) (delivered y) (removed y))
| step_filter y txs statuses txs' write postponed s' :
    taken y = Some txs -> length statuses = length txs ->
    compact_loop 0 statuses txs 0 [] = Ok (txs', write, postponed) ->
    requeue postponed (solo y) = (Ok tt, s') ->
    solo_step y (MkSystem s' None (accepted y) (delivered y ++ take write txs')
                          (removed y ++ select FilterRemove statuses txs))
| step_unfiltered y txs :
    taken y = Some txs ->
    solo_step y (MkSystem (solo y) None (accepted y) (delivered y ++ txs) (removed y))
| step_executor y x :
    solo_step y (MkSystem (set_executor x (solo y)) (taken y) (accepted y) (delivered y) (removed y)).

Definition init (i : bytes) (x : X) (n : Z) : system := MkSystem (NewSoloSequencer i x n) None [] [] [].

Definition total_bytes (txs : list bytes) : Z := foldr (fun tx n => zlen tx + n) 0 txs.

(** Every accepted transaction is in exactly one place, and the byte count is
    that of the queue (it is not kept when there is no limit). *)
Definition conserved (y : system) : Prop :=
  accepted y ≡ₚ delivered y ++ removed y ++ default [] (taken y) ++ queue (solo y).
Definition counted (y : system) : Prop :=
  maxQueueBytes (solo y) <> 0 -> queueBytes (solo y) = total_bytes (queue (solo y)).

Lemma total_bytes_app a b : total_bytes (a ++ b) = total_bytes a + total_bytes b.
Proof. induction a as [|x a IH]; simpl; [done|]. rewrite IH. lia. Qed.

Lemma total_bytes_nonneg a : 0 <= total_bytes a.
Proof. induction a as [|x a IH]; simpl; [done|]. pose proof (zlen_nonneg x). lia. Qed.

#[export] Instance total_bytes_perm : Proper ((≡ₚ) ==> eq) total_bytes.
Proof. induction 1; simpl; lia. Qed.

Lemma tx_bytes_total txs : total_bytes txs < two64 -> tx_bytes txs = total_bytes txs.
Proof.
  unfold tx_bytes. intros Hb.
  enough (Hg : forall n, 0 <= n -> n + total_bytes txs < two64 ->
    foldl (fun n tx => add64 n (zlen tx)) n txs = n + total_bytes txs) by (rewrite Hg; lia).
  clear Hb. induction txs as [|tx txs IH]; intros n Hn Hb; simpl in *; [lia|].
  pose proof (zlen_nonneg tx). pose proof (total_bytes_nonneg txs).
  rewrite add64_small by lia. rewrite IH by lia. lia.
Qed.

(** The outcomes of a submission. *)
Lemma submit_spec req (s : T) r s' :
  SubmitBatchTxs req s = (r, s') ->
  (s' = s /\ (is_ok r = true -> default [] (sub_Batch req) = [])) \/
  exists txs, r = Ok tt /\ sub_Batch req = Some txs /\ queue s' = queue s ++ txs /\
    maxQueueBytes s' = maxQueueBytes s /\
    (maxQueueBytes s <> 0 -> queueBytes s' = add64 (queueBytes s) (tx_bytes txs) /\ queueBytes s' <= maxQueueBytes s).
Proof.
  unfold SubmitBatchTxs. run_read.
  destruct (isValid (sub_Id req) s); cbn [negb]; [|by intros [= <- <-]; left].
  destruct (sub_Batch req) as [txs|]; [|by intros [= <- <-]; left].
  destruct (Z.eqb_spec (zlen txs) 0) as [Hz|Hz].
  { intros [= <- <-]. left. split; [done|]. by apply zlen_zero in Hz. }
  destruct (Z.eqb_spec (maxQueueBytes s) 0) as [Hm|Hm].
  { intros [= <- <-]. right. exists txs. split_and!; done. }
  destruct (Z.ltb_spec (maxQueueBytes s) (add64 (queueBytes s) (tx_bytes txs))) as [Hlt|Hge].
  { intros [= <- <-]. left. split; done. }
  intros [= <- <-]. right. exists txs. split_and!; try done.
Qed.

Lemma conserved_step y y' :
  solo_step y y' -> total_bytes (accepted y') < two64 -> conserved y /\ counted y -> conserved y' /\ counted y'.
Proof.
  unfold conserved, counted.
  intros Hst Hb [Hc Hn].
  destruct Hst as [y req r s' Hrun|y txs s' Ht Hrun|y txs st txs' w p s' Ht Hl Hcl Hrq|y txs Ht|y x];
    cbn [solo taken accepted delivered removed] in *.
  - destruct (submit_spec _ _ _ _ Hrun) as [[-> Hnil]|(txs & -> & Hreq & Hq & Hm & Hqb)].
    + unfold submitted in *. destruct (is_ok r); [rewrite (Hnil eq_refl)|]; by rewrite app_nil_r.
    + unfold submitted in *. cbn [is_ok] in *. rewrite Hreq in *. cbn [default from_option id] in *. rewrite Hq, Hm.
      rewrite total_bytes_app, Hc, !total_bytes_app in Hb.
      pose proof (total_bytes_nonneg (delivered y)). pose proof (total_bytes_nonneg (removed y)).
      pose proof (total_bytes_nonneg (default [] (taken y))). pose proof (total_bytes_nonneg (queue (solo y))).
      pose proof (total_bytes_nonneg txs). split.
      * rewrite Hc. by rewrite <- !app_assoc.
      * intros Hm0. destruct (Hqb Hm0) as [-> _]. rewrite (Hn Hm0), tx_bytes_total by lia.
        rewrite total_bytes_app. apply add64_small. lia.
  - unfold take_queue in Hrun. rewrite run_gets in Hrun. injection Hrun as <- <-. rewrite Ht in Hc. simpl in *.
    split; [by rewrite app_nil_r|]. done.
  - destruct (compact_spec st txs Hl) as (txs2 & w2 & Hcl2 & Htake). rewrite Hcl in Hcl2.
    injection Hcl2 as <- <- ->. rewrite Htake. rewrite Ht in Hc. simpl in Hc.
    pose proof (select_partition st txs Hl) as Hpart.
    assert (Hs' : s' = set_queue (select FilterPostpone st txs ++ queue (solo y))
                        (u64 (queueBytes (solo y) + tx_bytes (select FilterPostpone st txs))) (solo y) \/
                  select FilterPostpone st txs = [] /\ s' = solo y).
    { pose proof (wp_run _ _ _ _ _ (requeue_spec (select FilterPostpone st txs) (solo y)) Hrq) as Hr. simpl in Hr. tauto. }
    assert (Hq : queue s' = select FilterPostpone st txs ++ queue (solo y)).
    { by destruct Hs' as [->|[-> ->]]. }
    split.
    + rewrite Hc, Hq. simpl. rewrite Hpart at 1. solve_Permutation.
    + destruct Hs' as [->|[_ ->]]; [|done]. simpl. intros Hm. rewrite (Hn Hm).
      rewrite Hc, !total_bytes_app, (total_bytes_perm _ _ Hpart), !total_bytes_app in Hb.
      pose proof (total_bytes_nonneg (delivered y)). pose proof (total_bytes_nonneg (removed y)).
      pose proof (total_bytes_nonneg (queue (solo y))).
      pose proof (total_bytes_nonneg (select FilterOK st txs)).
      pose proof (total_bytes_nonneg (select FilterRemove st txs)).
      pose proof (total_bytes_nonneg (select FilterPostpone st txs)).
      rewrite tx_bytes_total by lia. rewrite total_bytes_app, u64_small by (unfold is_u64; lia). lia.
  - rewrite Ht in Hc. simpl in *. split; [|done]. rewrite Hc. solve_Permutation.
  - done.
Qed.

(** The history only grows. *)
Lemma accepted_grows y y' : solo_step y y' -> total_bytes (accepted y) <= total_bytes (accepted y').
Proof.
  destruct 1; simpl; try lia. rewrite total_bytes_app. pose proof (total_bytes_nonneg (submitted req r)). lia.
Qed.

(** The solo sequencer loses and duplicates nothing. However submissions and
    the parts of requests interleave, the accepted transactions are, as a
    multiset, those handed out, those the executor removed, those held by a
    request in progress and those in the queue; and with a limit the byte count
    of the queue is exact. *)
Theorem solo_no_tx_lost i x n y :
  rtc solo_step (init i x n) y -> total_bytes (accepted y) < two64 -> conserved y /\ counted y.
Proof.
  revert y. apply (rtc_ind_r (fun y => total_bytes (accepted y) < two64 -> conserved y /\ counted y)).
  { intros _. split; [unfold conserved; simpl; reflexivity|]. intros _. done. }
  intros y y' _ Hst IH Hb. eapply conserved_step; [done|done|]. apply IH. apply accepted_grows in Hst. lia.
Qed.

(** With a limit on the queue a submission is admitted whole or refused whole:
    a non-empty batch for the right chain is appended, and then the queue is
    within the limit, or it is refused with [ErrQueueFull] exactly because it
    does not fit, and nothing changes. *)
Theorem solo_submit_all_or_nothing i (s : T) txs :
  isValid i s = true -> txs <> [] -> 0 < maxQueueBytes s ->
  queueBytes s = total_bytes (queue s) -> total_bytes (queue s) + total_bytes txs < two64 ->
  exists r s', SubmitBatchTxs (MkSubmit i (Some txs)) s = (r, s') /\
    (r = Ok tt /\ queue s' = queue s ++ txs /\ queueBytes s' = total_bytes (queue s') /\
       total_bytes (queue s') <= maxQueueBytes s \/
     r = Err ErrQueueFull /\ s' = s /\ maxQueueBytes s < total_bytes (queue s) + total_bytes txs).
Proof.
  intros Hv Hne Hm Hq Hb. unfold SubmitBatchTxs. rewrite run_gets. cbn [id sub_Id sub_Batch]. rewrite Hv. cbn [negb].
  pose proof (total_bytes_nonneg (queue s)). pose proof (total_bytes_nonneg txs).
  destruct (Z.eqb_spec (zlen txs) 0) as [Hz|_]; [by apply zlen_zero in Hz|].
  destruct (Z.eqb_spec (maxQueueBytes s) 0); [lia|]. rewrite Hq, tx_bytes_total, add64_small by lia.
  destruct (Z.ltb_spec (maxQueueBytes s) (total_bytes (queue s) + total_bytes txs)).
  - eexists _, _. split; [done|]. by right.
  - eexists _, _. split; [done|]. left. simpl. rewrite total_bytes_app. split_and!; done || lia.
Qed.

End sequencer.
End Solo.

Module SoloWitness.
Import Solo SequencerInst.

Definition tx (n : Z) : bytes := [byte_of_Z n; byte_of_Z 1].
Definition chain_id : bytes := [Init.Byte.x63].
Definition x0 : toyexec := MkExec 99 [].
Definition s0 : SoloSequencer toyexec := NewSoloSequencer chain_id x0 8.
Definition submit (txs : list bytes) : SubmitBatchTxsRequest := MkSubmit chain_id (Some txs).
Definition s1 : SoloSequencer toyexec := (SubmitBatchTxs (submit [tx 0; tx 1; tx 2; tx 3]) s0).2.
(** At most four bytes. *)
Definition next : GetNextBatchRequest := MkNext chain_id [] 4.

Lemma solo_batch_correct_witness :
  exists resp s', GetNextBatch next s1 = (Ok resp, s') /\ batch_post next s1 resp s'.
Proof. exact (solo_batch_correct next s1 eq_refl). Defined.

Example solo_batch :
  let '(r, s2) := GetNextBatch next s1 in
  r = Ok (MkNextResp [tx 1; tx 2] 99 []) /\ queue s2 = [tx 3] /\ queueBytes s2 = 2.
Proof. vm_compute. repeat split; reflexivity. Qed.

(** A submission is accepted while a request is in progress. *)
Definition y0 : system := init chain_id x0 8.
Definition y1 : system := MkSystem s1 None [tx 0; tx 1; tx 2; tx 3] [] [].
Definition y2 : system := MkSystem (take_queue s1).2 (Some [tx 0; tx 1; tx 2; tx 3]) [tx 0; tx 1; tx 2; tx 3] [] [].
Definition y3 : system :=
  MkSystem (SubmitBatchTxs (submit [tx 4]) (take_queue s1).2).2 (Some [tx 0; tx 1; tx 2; tx 3])
           [tx 0; tx 1; tx 2; tx 3; tx 4] [] [].
Definition y4 : system :=
  MkSystem (requeue [tx 3] (solo y3)).2 None [tx 0; tx 1; tx 2; tx 3; tx 4] [tx 1; tx 2] [tx 0].

Lemma y_steps : rtc solo_step y0 y4.
Proof.
  apply (rtc_l _ _ y1); [exact (step_submit y0 (submit [tx 0; tx 1; tx 2; tx 3]) (Ok tt) s1 eq_refl)|].
  apply (rtc_l _ _ y2); [exact (step_take y1 [tx 0; tx 1; tx 2; tx 3] _ eq_refl eq_refl)|].
  apply (rtc_l _ _ y3); [exact (step_submit y2 (submit [tx 4]) (Ok tt) _ eq_refl)|].
  apply (rtc_l _ _ y4); [|apply rtc_refl].
  exact (step_filter y3 [tx 0; tx 1; tx 2; tx 3] [FilterRemove; FilterOK; FilterOK; FilterPostpone]
           [tx 1; tx 2; tx 2; tx 3] 2 [tx 3] _ eq_refl eq_refl eq_refl eq_refl).
Qed.

Lemma solo_no_tx_lost_witness : conserved y4 /\ counted y4 /\ queue (solo y4) = [tx 3; tx 4].
Proof.
  destruct (solo_no_tx_lost chain_id x0 8 y4 y_steps eq_refl) as [Hc Hn].
  split; [exact Hc|]. split; [exact Hn|]. reflexivity.
Defined.

Lemma solo_submit_all_or_nothing_witness :
  exists r s', SubmitBatchTxs (MkSubmit chain_id (Some [tx 5])) s1 = (r, s') /\
    (r = Ok tt /\ queue s' = queue s1 ++ [tx 5] /\ queueBytes s' = total_bytes (queue s') /\
       total_bytes (queue s') <= maxQueueBytes s1 \/
     r = Err ErrQueueFull /\ s' = s1 /\ maxQueueBytes s1 < total_bytes (queue s1) + total_bytes [tx 5]).
Proof.
  exact (solo_submit_all_or_nothing chain_id s1 [tx 5] eq_refl ltac:(discriminate) eq_refl eq_refl eq_refl).
Defined.

End SoloWitness.
