(* ===== verification/SequencerPorts.v ===== *)
(** * The sequencers as the executor sees them

    The single, the based and the solo sequencer implement the interface of the
    executor and keep its promise, so the theorems on block production hold
    with each of them. The texts of errors, which the executor only wraps, are
    left out. *)

From S2P Require Import Prelude Datastore Types Serialization Store BatchQueue ForcedInclusion Sequencing SingleSequencer.
From S2P Require Import BasedSequencer SoloSequencer Executing ExecutingFacts.
From stdpp Require Import base gmap strings list numbers.
Open Scope Z_scope.

(** A call of a sequencer whose error [no_batch] means that there is no batch. *)
Definition port {S E A} (no_batch : E -> bool) (m : M S E A) : M S string (option A) := fun s =>
  match m s with
  | (Ok a, s') => (Ok (Some a), s')
  | (Err e, s') => (if no_batch e then Ok None else Err "sequencer", s')
  end.

Lemma port_keeps {S E A} (I : S -> Prop) no_batch (m : M S E A) s :
  stable I m (fun _ => True) -> I s -> wp (port no_batch m) (fun _ s' => I s') s.
Proof. intros Hm Hs. specialize (Hm s Hs). unfold wp, port in *. destruct (m s) as [[a|e] s']; apply Hm. Qed.

(** A part of the state that the invariant does not speak of. *)
Lemma stable_part {S T E A} (I : S -> Prop) (get : S -> T) (set : T -> S -> S) (m : M T E A) :
  (forall s t, I s -> I (set t s)) -> stable I (zoom get set m) (fun _ => True).
Proof. intros Hset. apply (stable_zoom I get set (fun _ => True)); [done|auto|]. intros t _. unfold wp. by destruct (m t). Qed.

Lemma stable_gets_any {S E A} (I : S -> Prop) (f : S -> A) : stable (E := E) I (gets f) (fun _ => True).
Proof. by apply stable_gets. Qed.

(** Walks through a body whose every step keeps the invariant. *)
Ltac stable_step :=
  match goal with
  | |- stable _ (mret _) _ => by apply stable_ret
  | |- stable _ (throw _) _ => apply stable_throw
  | |- stable _ (modify _) _ => apply stable_modify; intros; repeat case_match; done
  | |- stable _ (lift_res _) _ => by apply stable_lift with (P := fun _ => True)
  | |- stable _ (zoom _ _ _) _ => apply stable_part; done
  | |- stable _ (attempt _) _ => eapply stable_any, stable_attempt with (P := fun _ => True)
  | |- stable _ (_ ≫= _) _ => apply stable_bind with (P := fun _ => True); [|intros ? _]
  | |- stable _ (match ?b with _ => _ end) _ => destruct b
  end.
Ltac stable_walk := repeat (first [by apply stable_gets_any | stable_step]).

(** ** The single sequencer *)

Section single.
Context {DB : Type} `{Datastore DB} `{HashText} {PK : Type} `{PubKeys PK} `{Wire}.
Context `{ProtoMsg pbVersion, ProtoMsg pbHeader, ProtoMsg pbSignedHeader, ProtoMsg pbMetadata,
          ProtoMsg pbData, ProtoMsg pbState, ProtoMsg pbBatch, ProtoMsg pbCheckpoint}.
Context {F : Type} `{FISource F} {X : Type} `{Executor X}.

#[export] Instance single_port : SequencerAPI (Sequencer DB F X) := {
  sq_GetNextBatch req := port (fun e => match e with ErrNoBatch => true | _ => false end) (GetNextBatch req);
  sq_GetDAHeight := GetDAHeight;
  sq_SetDAHeight := SetDAHeight;
  sq_AckBatch := Some (_ ← port (fun _ => false) AckBatch; mret tt)
}.

Definition single_wf (s : Sequencer DB F X) : Prop := is_u64 (daHeight s).

Lemma single_bootstrap h : stable single_wf (bootstrap_checkpoint h : M (Sequencer DB F X) _ _) (fun _ => True).
Proof. unfold bootstrap_checkpoint, getInitialDAStartHeight, on_blocks. stable_walk. Qed.

Lemma single_fetch n : stable single_wf (fetchNextDAEpoch n : M (Sequencer DB F X) _ _) (fun _ => True).
Proof. unfold fetchNextDAEpoch, updateCatchUpState, on_fi, on_blocks. stable_walk. Qed.

Lemma single_advance h txs n : stable single_wf (advance_checkpoint h txs n : M (Sequencer DB F X) _ _) (fun _ => True).
Proof.
  unfold advance_checkpoint, on_checkpoint. stable_walk.
  all: apply stable_modify; intros; apply u64_range.
Qed.

Lemma single_next req : stable single_wf (GetNextBatch req : M (Sequencer DB F X) _ _) (fun _ => True).
Proof.
  unfold GetNextBatch, on_queue, on_executor.
  repeat first [apply single_bootstrap | apply single_fetch | apply single_advance | by apply stable_gets_any | stable_step].
Qed.

Lemma single_ack : stable single_wf (AckBatch : M (Sequencer DB F X) _ _) (fun _ => True).
Proof. unfold AckBatch, on_queue. stable_walk. Qed.

#[export] Instance single_port_laws : SequencerLaws (Sequencer DB F X).
Proof.
  refine {| sq_wf := single_wf |}.
  - intros req q Hq. apply port_keeps; [apply single_next|done].
  - intros ack q [= <-] Hq. apply wp_bind. eapply wp_mono; [apply (port_keeps single_wf); [apply single_ack|done]|]. by intros [].
  - done.
  - done.
Defined.

End single.

(** ** The based sequencer *)

Section based.
Context {DB : Type} `{Datastore DB} `{ProtoMsg pbVersion, ProtoMsg pbState, ProtoMsg pbCheckpoint}.
Context {F : Type} `{FISource F} {X : Type} `{Executor X}.
Abbreviation Q := (Based.BasedSequencer DB F X).

(** The executor calls it while its context is not done; there is no
    acknowledgement. *)
#[export] Instance based_port : SequencerAPI Q := {
  sq_GetNextBatch req := port (fun e => match e with Based.BNoBatch => true | _ => false end) (Based.GetNextBatch false req);
  sq_GetDAHeight := Based.GetDAHeight;
  sq_SetDAHeight := Based.SetDAHeight;
  sq_AckBatch := None
}.

Definition based_wf (s : Q) : Prop := is_u64 (Based.daHeight s).

Lemma based_fetch n : stable based_wf (Based.fetchNextDAEpoch n : M Q _ _) (fun _ => True).
Proof. unfold Based.fetchNextDAEpoch, Based.on_fi. stable_walk. Qed.

Lemma based_advance h txs n : stable based_wf (Based.advance_checkpoint h txs n : M Q _ _) (fun _ => True).
Proof.
  unfold Based.advance_checkpoint, Based.on_checkpoint. stable_walk.
  all: apply stable_modify; intros; apply u64_range.
Qed.

Lemma based_next req : stable based_wf (Based.GetNextBatch false req : M Q _ _) (fun _ => True).
Proof.
  unfold Based.GetNextBatch, Based.on_executor.
  repeat first [apply based_fetch | apply based_advance | by apply stable_gets_any | stable_step].
Qed.

#[export] Instance based_port_laws : SequencerLaws Q.
Proof.
  refine {| sq_wf := based_wf |}; [|done..].
  intros req q Hq. apply port_keeps; [apply based_next|done].
Defined.

End based.

(** ** The solo sequencer *)

Section solo.
Context {X : Type} `{Executor X}.
Abbreviation Q := (Solo.SoloSequencer X).

#[export] Instance solo_port : SequencerAPI Q := {
  sq_GetNextBatch req := port (fun _ => false) (Solo.GetNextBatch req);
  sq_GetDAHeight := Solo.GetDAHeight;
  sq_SetDAHeight := Solo.SetDAHeight;
  sq_AckBatch := None
}.

Definition solo_wf (s : Q) : Prop := is_u64 (Solo.daHeight s).

Lemma solo_next req : stable solo_wf (Solo.GetNextBatch req : M Q _ _) (fun _ => True).
Proof.
  unfold Solo.GetNextBatch, Solo.take_queue, Solo.requeue, Solo.now, Solo.on_executor. stable_walk.
Qed.

#[export] Instance solo_port_laws : SequencerLaws Q.
Proof.
  refine {| sq_wf := solo_wf |}; [|done..].
  intros req q Hq. apply port_keeps; [apply solo_next|done].
Defined.

End solo.
