(* ===== verification/Reaper.v ===== *)
(** * The reaper ([block/internal/reaping])

    Hands the transactions of the execution client's mempool to the sequencer.
    The mempool, the sequencer and the callback are interfaces; the instances at
    the end are the sequencers of the development, so that reaping is composed
    with the queue of the single sequencer. *)

From S2P Require Import Prelude Datastore Types Serialization Store BatchQueue BatchQueueFacts ForcedInclusion Sequencing SingleSequencer.
From S2P Require Import BasedSequencer SoloSequencer Executing SequencerPorts.
From stdpp Require Import base gmap strings list numbers.
Open Scope Z_scope.

(** [coreexecutor.Executor.GetTxs]. *)
Class Mempool (EX : Type) := { GetTxs : M EX string (list bytes) }.
(** [coresequencer.Sequencer.SubmitBatchTxs]. *)
Class TxSequencer (Q : Type) := { sq_SubmitBatchTxs : SubmitBatchTxsRequest -> M Q string unit }.
(** [onTxsSubmitted] of whoever [K] is. *)
Class TxCallback (K : Type) := { onTxsSubmitted : K -> K }.
(** Whether the context is done, now, or before the timer of [wait] fires. *)
Class ReaperContext (V : Type) := { rp_done : V -> bool * V }.

Module Reaping.

Definition MaxBackoffInterval : Z := 30 * second.

Inductive reaper_error := RpExec (msg : string) | RpSequencer (msg : string).

Record Reaper (EX Q K V : Type) := MkReaper
  { rp_exec : EX; rp_sequencer : Q; rp_chainID : string; rp_interval : Z;
    (** [nil] or the listener. *)
    rp_callback : option K;
    rp_ctx : V;
    (** [cancel] is not nil. *)
    rp_started : bool;
    (** The variable of [reaperLoop]. *)
    rp_failures : Z }.
Arguments MkReaper {EX Q K V}. Arguments rp_exec {EX Q K V}. Arguments rp_sequencer {EX Q K V}.
Arguments rp_chainID {EX Q K V}. Arguments rp_interval {EX Q K V}. Arguments rp_callback {EX Q K V}.
Arguments rp_ctx {EX Q K V}. Arguments rp_started {EX Q K V}. Arguments rp_failures {EX Q K V}.

Definition NewReaper {EX Q K V} (exec : EX) (sequencer : Q) (chainID : string) (scrapeInterval : Z) (callback : option K) (ctx : V)
  : res string (Reaper EX Q K V) :=
  if scrapeInterval =? 0 then Err "scrape interval cannot be empty"
  else Ok (MkReaper exec sequencer chainID scrapeInterval callback ctx false 0).

Section reaper.
Context {EX Q K V : Type} `{Mempool EX} `{TxSequencer Q} `{TxCallback K} `{ReaperContext V}.
Abbreviation R := (Reaper EX Q K V).
Definition RpM (A : Type) : Type := M R reaper_error A.

Definition set_rp_exec x (r : R) : R := MkReaper x (rp_sequencer r) (rp_chainID r) (rp_interval r) (rp_callback r) (rp_ctx r) (rp_started r) (rp_failures r).
Definition set_rp_sequencer x (r : R) : R := MkReaper (rp_exec r) x (rp_chainID r) (rp_interval r) (rp_callback r) (rp_ctx r) (rp_started r) (rp_failures r).
Definition set_rp_callback x (r : R) : R := MkReaper (rp_exec r) (rp_sequencer r) (rp_chainID r) (rp_interval r) x (rp_ctx r) (rp_started r) (rp_failures r).
Definition set_rp_ctx x (r : R) : R := MkReaper (rp_exec r) (rp_sequencer r) (rp_chainID r) (rp_interval r) (rp_callback r) x (rp_started r) (rp_failures r).
Definition set_rp_started x (r : R) : R := MkReaper (rp_exec r) (rp_sequencer r) (rp_chainID r) (rp_interval r) (rp_callback r) (rp_ctx r) x (rp_failures r).
Definition set_rp_failures x (r : R) : R := MkReaper (rp_exec r) (rp_sequencer r) (rp_chainID r) (rp_interval r) (rp_callback r) (rp_ctx r) (rp_started r) x.

Definition on_mempool {A} (m : M EX string A) : RpM A := wrap RpExec (zoom rp_exec set_rp_exec m).
Definition on_sequencer {A} (m : M Q string A) : RpM A := wrap RpSequencer (zoom rp_sequencer set_rp_sequencer m).
Definition ask_ctx : RpM bool := zoom rp_ctx set_rp_ctx (infallible rp_done).

Definition drainMempool : RpM unit :=
  txs ← on_mempool GetTxs;
  if zlen txs =? 0 then mret tt else
  chainID ← gets rp_chainID;
  _ ← on_sequencer (sq_SubmitBatchTxs (MkSubmit (string_bytes chainID) (Some txs)));
  modify (fun r => match rp_callback r with Some k => set_rp_callback (Some (onTxsSubmitted k)) r | None => r end).

(** One pass of [reaperLoop], up to [wait]: how long to wait. *)
Definition reaper_turn : RpM Z :=
  r ← attempt (F := reaper_error) drainMempool;
  again ← (match r with
           | Err _ => done ← ask_ctx; mret (negb done)
           | Ok _ => mret false
           end);
  interval ← gets rp_interval;
  if (again : bool) then
    _ ← modify (fun r => set_rp_failures (rp_failures r + 1) r);
    failures ← gets rp_failures;
    let backoff := i64 (interval * 2 ^ Z.min failures 5) in
    mret (Z.min backoff MaxBackoffInterval)
  else
    _ ← modify (set_rp_failures 0);
    mret interval.

(** [true] if the loop ends: the context is done before the timer. *)
Definition reaper_loop_step : RpM bool :=
  _ ← reaper_turn;
  ask_ctx.

Definition Start (ctx : V) : M R string unit := fun r =>
  if rp_started r then (Err "reaper already started", r) else (Ok tt, set_rp_started true (set_rp_ctx ctx r)).

(** A pass of the loop, branch by branch. It waits the interval after a
    success and between two and thirty-two times as long, but never more than
    [MaxBackoffInterval], after an error; the failures are counted until the
    next success; the listener is notified exactly when transactions were
    handed over. *)
Theorem reaper_turn_correct r res r' :
  0 < rp_interval r -> 32 * rp_interval r < 9223372036854775808 -> 0 <= rp_failures r ->
  reaper_turn r = (res, r') ->
  exists wait, res = Ok wait /\ rp_interval r' = rp_interval r /\
  let '(out, r1) := drainMempool r in
  rp_exec r' = rp_exec r1 /\ rp_sequencer r' = rp_sequencer r1 /\ rp_callback r' = rp_callback r1 /\
  match out with
  | Ok _ => wait = rp_interval r /\ rp_failures r' = 0 /\
      exists txs x', GetTxs (rp_exec r) = (Ok txs, x') /\
      rp_callback r' = (if zlen txs =? 0 then rp_callback r else onTxsSubmitted <$> rp_callback r)
  | Err _ => rp_callback r' = rp_callback r /\
      (rp_failures r' = 0 /\ wait = rp_interval r \/
       rp_failures r' = rp_failures r + 1 /\ 
       Z.min (2 * rp_interval r) MaxBackoffInterval <= wait <= Z.min (32 * rp_interval r) MaxBackoffInterval)
  end.
Proof.
  intros Hpos Hov Hf Hrun. pattern res, r'. eapply wp_run; [|exact Hrun]. clear Hrun.
  unfold reaper_turn. apply wp_bind, wp_attempt.
  assert (Hd : wp drainMempool (fun out r1 => rp_interval r1 = rp_interval r /\ rp_failures r1 = rp_failures r /\
    match out with
    | Ok _ => exists txs x', GetTxs (rp_exec r) = (Ok txs, x') /\
        rp_callback r1 = (if zlen txs =? 0 then rp_callback r else onTxsSubmitted <$> rp_callback r)
    | Err _ => rp_callback r1 = rp_callback r
    end) r).
  { unfold drainMempool. apply wp_bind, wp_wrap, wp_zoom. unfold wp at 1.
    destruct (GetTxs (rp_exec r)) as [[txs|e] x'] eqn:Hg; simpl; [|done].
    destruct (zlen txs =? 0) eqn:Hz; [apply wp_ret; split_and!; try done; exists txs, x'; by rewrite Hz|].
    wp_read. apply wp_bind, wp_wrap, wp_zoom. unfold wp at 1. simpl.
    destruct (sq_SubmitBatchTxs _ (rp_sequencer r)) as [[[]|e] q']; simpl; [|done]. apply wp_modify. simpl.
    split_and!; [by destruct (rp_callback r)..|]. exists txs, x'. rewrite Hz. split; [done|]. by destruct (rp_callback r) eqn:Hcb. }
  unfold wp in Hd.
  destruct (drainMempool r) as [out r1] eqn:Hdm. simpl in Hd. destruct Hd as (Hi1 & Hf1 & Hout). unfold wp at 1. rewrite Hdm. simpl.
  destruct out as [[]|e].
  - apply wp_bind, wp_ret. wp_read. simpl. apply wp_bind, wp_modify, wp_ret. exists (rp_interval r1). simpl.
    rewrite Hi1. split_and!; try done.
  - unfold ask_ctx. apply wp_bind, wp_bind, wp_zoom, wp_infallible. destruct (rp_done (rp_ctx r1)) as [done v]. simpl.
    apply wp_ret. wp_read. simpl. destruct done; simpl.
    + apply wp_bind, wp_modify, wp_ret. exists (rp_interval r1). simpl. rewrite Hi1. split_and!; try done. by left.
    + apply wp_bind, wp_modify. wp_read. apply wp_ret. simpl. rewrite Hi1, Hf1. eexists. split; [reflexivity|].
      split_and!; try done. right. split; [done|].
      assert (Hp : 2 ^ 1 <= 2 ^ Z.min (rp_failures r + 1) 5 <= 2 ^ 5).
      { split; apply Z.pow_le_mono_r; lia. }
      change (2 ^ 1) with 2 in Hp. change (2 ^ 5) with 32 in Hp. set (w := rp_interval r * 2 ^ Z.min (rp_failures r + 1) 5).
      assert (Hw : 2 * rp_interval r <= w <= 32 * rp_interval r) by (unfold w; nia).
      unfold i64. rewrite u64_small by (unfold is_u64, two64; lia). rewrite to_i64_small by lia. lia.
Qed.

End reaper.
End Reaping.

(** ** The sequencers *)

(** The text of an error, which the reaper only logs, is left out. *)
Definition submit_port {S E} (m : M S E unit) : M S string unit := wrap (fun _ => "sequencer"%string) m.

Section instances.
Context {DB : Type} `{Datastore DB} `{HashText} {PK : Type} `{PubKeys PK} `{Wire}.
Context `{ProtoMsg pbVersion, ProtoMsg pbHeader, ProtoMsg pbSignedHeader, ProtoMsg pbMetadata,
          ProtoMsg pbData, ProtoMsg pbState, ProtoMsg pbBatch, ProtoMsg pbCheckpoint}.
Context {F : Type} `{FISource F} {X : Type} `{Executor X}.

#[export] Instance single_submit : TxSequencer (Sequencer DB F X) := { sq_SubmitBatchTxs req := submit_port (SubmitBatchTxs req) }.
#[export] Instance based_submit : TxSequencer (Based.BasedSequencer DB F X) :=
  { sq_SubmitBatchTxs req := submit_port (Based.SubmitBatchTxs req) }.
#[export] Instance solo_submit : TxSequencer (Solo.SoloSequencer X) := { sq_SubmitBatchTxs req := submit_port (Solo.SubmitBatchTxs req) }.

End instances.

(** ** Reaping into the queue of the single sequencer *)

Section single.
Context {DB : Type} `{DatastoreLaws DB} `{HashText} {PK : Type} `{PubKeys PK} `{Wire}.
Context `{ProtoMsg pbVersion, ProtoMsg pbHeader, ProtoMsg pbSignedHeader, ProtoMsg pbMetadata,
          ProtoMsg pbData, ProtoMsg pbState, ProtoMsg pbCheckpoint} `{ProtoMsg pbBatch} `{!ProtoLaws pbBatch (fun m => m) (fun _ => True)}.
Context {F : Type} `{FISource F} {X : Type} `{Executor X}.
Context {EX K V : Type} `{Mempool EX} `{TxCallback K} `{ReaperContext V}.
Import Reaping.
Abbreviation Rp := (Reaper EX (Sequencer DB F X) K V).
Definition rp_queue (r : Rp) : BatchQueue DB := seq_queue (rp_sequencer r).

(** What is handed over is queued unless it was seen. *)
Lemma drain_into_queue (r : Rp) txs x' :
  Id (rp_sequencer r) = string_bytes (rp_chainID r) -> queue_inv (rp_queue r) -> headroom (rp_queue r) ->
  GetTxs (rp_exec r) = (Ok txs, x') ->
  let fresh := (dedup (txSeen (rp_queue r)) txs).1 in
  wp drainMempool (fun res r' => rp_exec r' = x' /\ rp_chainID r' = rp_chainID r /\ Id (rp_sequencer r') = Id (rp_sequencer r) /\
    queue_inv (rp_queue r') /\ inFlight (rp_queue r') = inFlight (rp_queue r) /\
    match res with
    | Ok _ =>
        live (rp_queue r') = live (rp_queue r) ++
          (if decide (fresh = []) then [] else [MkItem fresh (seqToKey (nextAddSeq (rp_queue r)))]) /\
        forall tx, tx ∈ txs -> txHash tx ∈ txSeen (rp_queue r')
    | Err _ => live (rp_queue r') = live (rp_queue r) /\ txSeen (rp_queue r') = txSeen (rp_queue r)
    end) r.
Proof.
  intros Hid Hinv Hroom Hg fresh. unfold drainMempool. apply wp_bind, wp_wrap, wp_zoom. unfold wp at 1. rewrite Hg. simpl.
  destruct (Z.eqb_spec (zlen txs) 0) as [Hz|Hz].
  { apply zlen_zero in Hz. subst txs. apply wp_ret. unfold rp_queue in *. simpl in *. split_and!; try done.
    - by rewrite app_nil_r.
    - intros tx Hin. by apply not_elem_of_nil in Hin. }
  wp_read. simpl. apply wp_bind, wp_wrap, wp_zoom, wp_wrap. unfold SubmitBatchTxs. wp_read. simpl.
  unfold isValid. rewrite Hid, (proj2 (bytes_eqb_spec _ _) eq_refl). simpl.
  destruct (Z.eqb_spec (zlen txs) 0) as [|_]; [done|]. unfold on_queue. apply wp_zoom, wp_wrap.
  eapply wp_mono; [by apply (AddBatch_spec txs)|]. intros [[]|e] q' (Hinv' & Hif & Hr & _); simpl.
  - apply wp_modify. destruct Hr as (Hl & _ & Hse).
    pose proof (dedup_spec (txSeen (rp_queue r)) txs) as Hd. destruct (dedup (txSeen (rp_queue r)) txs) as [u s'] eqn:Hdd.
    destruct Hd as (-> & _ & _ & Hall & _). unfold rp_queue in *. rewrite Hdd in Hl, Hse. simpl in *.
    destruct (rp_callback r); simpl; split_and!; try done; by rewrite Hse.
  - unfold rp_queue. simpl. split_and!; try done; apply Hr.
Qed.

Lemma dedup_all_seen seen txs : (forall tx, tx ∈ txs -> txHash tx ∈ seen) -> (dedup seen txs).1 = [].
Proof.
  induction txs as [|tx txs IH]; intros Hs; [done|]. simpl. rewrite decide_True by (apply Hs; left).
  apply IH. intros t Ht. apply Hs. by right.
Qed.

(** The hashes of the transactions that a queue holds, queued or in flight. *)
Definition held (q : BatchQueue DB) : list bytes := txHash <$> txs_of (all_items q).

(** C24: Reaping into the single sequencer, whose queue satisfies its invariant
    and whose sequence counters have room. Transactions are told apart by their
    SHA-256 hash. After a pass that succeeds every transaction of the mempool is
    queued or in flight, and none of what the queue holds occurs twice; what is
    appended to the queue are transactions of the mempool in its order, none of
    them twice and none that was queued or in flight before; what was queued
    stays in front, and what is in flight stays. If the mempool still holds the
    same transactions at the next pass, that one changes nothing in the queue. *)
Theorem reaped_once (r r1 r2 : Rp) txs x' :
  Id (rp_sequencer r) = string_bytes (rp_chainID r) -> queue_inv (rp_queue r) -> headroom (rp_queue r) ->
  GetTxs (rp_exec r) = (Ok txs, x') -> drainMempool r = (Ok tt, r1) ->
  (forall tx, tx ∈ txs -> txHash tx ∈ held (rp_queue r1)) /\ NoDup (held (rp_queue r1)) /\
  (exists fresh, txs_of (live (rp_queue r1)) = txs_of (live (rp_queue r)) ++ fresh /\ sublist fresh txs /\
     NoDup (txHash <$> fresh) /\ (forall tx, tx ∈ fresh -> txHash tx ∉ held (rp_queue r))) /\
  inFlight (rp_queue r1) = inFlight (rp_queue r) /\
  (headroom (rp_queue r1) -> (exists x2, GetTxs x' = (Ok txs, x2)) -> drainMempool r1 = (Ok tt, r2) ->
   live (rp_queue r2) = live (rp_queue r1) /\ inFlight (rp_queue r2) = inFlight (rp_queue r1)).
Proof.
  intros Hid Hinv Hroom Hg Hrun.
  pose proof (drain_into_queue r txs x' Hid Hinv Hroom Hg) as Hw. cbv zeta in Hw.
  destruct (wp_run _ _ _ _ _ Hw Hrun) as (Hx & Hc & Hi & Hinv1 & Hif & Hl & Hall).
  assert (Hseen : forall q : BatchQueue DB, queue_inv q -> forall h, h ∈ txSeen q <-> h ∈ held q).
  { intros q [(_ & _ & -> & _) _] h. by rewrite elem_of_list_to_set. }
  pose proof (dedup_spec (txSeen (rp_queue r)) txs) as Hd. destruct (dedup (txSeen (rp_queue r)) txs) as [fresh s'] eqn:Hdd.
  destruct Hd as (-> & Hnd & Hnew & _ & Hsub). cbn [fst] in Hl. split_and!.
  - intros tx Htx. apply (Hseen _ Hinv1). by apply Hall.
  - apply Hinv1.
  - exists fresh. split_and!; [|done|done|].
    + rewrite Hl. destruct (decide (fresh = [])) as [->|]; rewrite ?app_nil_r; [done|].
      unfold txs_of. rewrite bind_app. simpl. by rewrite app_nil_r.
    + intros tx Htx Hh. apply (Hnew (txHash tx)); [by apply list_elem_of_fmap_2|by apply (Hseen _ Hinv)].
  - exact Hif.
  - intros Hroom1 (x2 & Hg2) Hrun2. rewrite <- Hx in Hg2.
    pose proof (drain_into_queue r1 txs x2 ltac:(congruence) Hinv1 Hroom1 Hg2) as Hw2. cbv zeta in Hw2.
    destruct (wp_run _ _ _ _ _ Hw2 Hrun2) as (_ & _ & _ & _ & Hif2 & Hl2 & _).
    rewrite (dedup_all_seen _ _ Hall), decide_True, app_nil_r in Hl2 by done. by split.
Qed.

End single.
