(* ===== verification/ExecutingWitness.v ===== *)
(** * An aggregator at concrete states

    An aggregator with the single sequencer starts on an empty store, takes two
    transactions from its queue, and produces two blocks; a full node gets the
    first and follows. The examples at the end show what can go
    wrong. *)

From S2P Require Import Prelude Sha256 Datastore Types Serialization SerializationFacts ProtoInst Validation Store StoreFacts StoreMaintenance StoreAPI ChainWrites.
From S2P Require Import BlockCache Pending CacheManager DAClient DASubmitter Batching Submitter NodeInst SubmitterWitness.
From S2P Require Import ForcedInclusion BatchQueue BatchQueueProps Sequencing SequencerInst Execution Replayer ReplayerWitness ForcedCheck ForcedCheckWitness.
From S2P Require Import PriorityHeights DARetriever DARetrieverFacts DARetrieverWitness DecodeFacts Syncer SyncerFacts SyncWitness.
From S2P Require Import SingleSequencer BlockFacts Executing ExecutingFacts ExecutingRun ExecutingStart Following SequencerPorts.
From stdpp Require Import base gmap strings list numbers relations.
Open Scope Z_scope.

Module ExecutingWitness.
Import ProtoInst MemDS MemDA StoreWitness BatchQueueWitness NodeInst SubmitterWitness SequencerInst ReplayerWitness ForcedCheckWitness DARetrieverWitness SyncWitness.
Import Executing.

(** ** The parameters *)

#[export] Instance chain_finalizer : Finalizer chainexec := {
  SetFinal h x := (Ok tt, x);
  is_final x h := True;
  exec_healthy x := True
}.
(** There is no raft cluster, and nobody listens to broadcasts. *)
#[export] Instance no_raft : RaftNode unit := {
  raft_HasQuorum u := (false, u);
  raft_GetState u := (MkRaftBlockState 0 0 0 None 0 [] [], u);
  raft_Broadcast _ u := (Err "no raft", u)
}.
#[export] Instance no_broadcast : Broadcasters unit bytes := {
  bc_Header _ u := (Ok tt, u);
  bc_Data _ u := (Ok tt, u)
}.

(** ** The aggregator *)

Abbreviation Seq := (Sequencer memds tablefi chainexec).
Abbreviation Agg := (Executor memds bytes chainexec Seq bytes unit unit syncenv (gmap Z)).

(** The forced transactions by DA height, and the time. *)
Definition seq_on (forced : gmap Z (list bytes)) (clock : Z) : Seq :=
  MkSequencer (MkGenesis 3 2 5) (string_bytes "c") (NewBatchQueue empty_db 0) empty_db empty_db (MkTable forced []) 0 0
    (MkCheckpoint 0 0) (MkChainExec 0 [] clock) [] catchUpDone 5 0.
Definition submit (txs : list bytes) (q : Seq) : Seq := (SubmitBatchTxs (MkSubmit (string_bytes "c") (Some txs)) q).2.

Definition agg_on (st : memds) (faults : list bool) (q : Seq) : Agg :=
  MkExecutor (mgr_on st) (MkChainExec 0 faults 0) q (Some key) false false 0 gen1
    DefaultAggregatorNodeSignatureBytesProvider DefaultValidatorHasherProvider None None false None 0 false
    (Some (1%nat, [])) false tt initial_tracking (MkSyncEnv 100 []).

Definition a0 : Agg := agg_on empty_db [] (submit [tx 7; tx 8] (seq_on ∅ 50)).
Definition a1 := Executing.initializeState a0.
Definition a2 := loop_step BlockTimer false a1.2.
Definition a3 := loop_step BlockTimer false a2.2.

Definition txs_at (h : Z) (e : Agg) : option (list bytes) :=
  match c_block (e_contents e) h with Ok (_, d) => Some (data_txs d) | Err _ => None end.

Example two_blocks :
  a1.1 = Ok tt /\ a2.1 = Ok false /\ a3.1 = Ok false /\ (LastBlockHeight <$> e_lastState a3.2) = Some 2 /\
  txs_at 1 a3.2 = Some [tx 7; tx 8] /\ txs_at 2 a3.2 = Some [].
Proof. vm_compute. repeat split. Qed.

(** An older version left an unsigned block with other transactions at height
    1: it is migrated, and it is the block that is produced. *)
Definition old_block := match (Executing.CreateBlock 1 (Executing.MkBatchData [tx 9] 60 []) a1.2).1 with
                        | Ok b => b | Err _ => (SignedHeader_New, Data_New) end.
Definition old_store : memds :=
  snd ((batch ← st_NewBatch; batch ← batch_SaveBlockData old_block.1 old_block.2 None batch; batch_Commit batch) empty_db).
Definition b0 : Agg := agg_on old_store [] (submit [tx 7; tx 8] (seq_on ∅ 50)).
Definition b1 := Executing.initializeState b0.
Definition b2 := loop_step BlockTimer false b1.2.

Example legacy_block_produced :
  slen (sh_Signature old_block.1) = 0 /\ txs_at 1 b0 = Some [tx 9] /\ b1.1 = Ok tt /\ txs_at 1 b1.2 = None /\
  b2.1 = Ok false /\ (LastBlockHeight <$> e_lastState b2.2) = Some 1 /\ txs_at 1 b2.2 = Some [tx 9].
Proof. vm_compute. repeat split. Qed.

(** ** The theorems apply *)

#[export] Instance no_raft_laws : RaftLaws unit.
Proof. split. intros []. vm_compute. split; [discriminate|reflexivity]. Qed.

Lemma empty_block h : c_block (bs_contents empty_db : contents bytes) h = Err (SDs ErrNotFound).
Proof. reflexivity. Qed.

Lemma a0_launchable : launchable 0 key a0.
Proof.
  split.
  - apply (bool_decide_unpack _). vm_compute. exact I.
  - split; [exact gen1_wf|]. vm_compute. split; discriminate.
  - exact empty_chain.
  - vm_compute. reflexivity.
  - reflexivity.
  - vm_compute. repeat split.
  - intros hd d Hb. rewrite empty_block in Hb. done.
  - reflexivity.
  - unfold keys_ok, base_ok, free_key. vm_compute. repeat split; discriminate.
  - reflexivity.
  - left. reflexivity.
  - unfold sq_wf. vm_compute. split; [discriminate|reflexivity].
Qed.

Lemma a1_ok : Executing.initializeState a0 = (Ok tt, a1.2).
Proof. apply run_eq. vm_compute. reflexivity. Qed.

Lemma launch_correct_witness : launched key a0 a1.2 /\ (LastBlockHeight <$> e_lastState a1.2) = Some 0.
Proof. split; [exact (launch_correct 0 key a0 a1.2 a0_launchable a1_ok)|vm_compute; reflexivity]. Defined.

Lemma a1_launched : launched key a0 a1.2.
Proof. exact (wp_run _ _ _ _ _ (launch_spec 0 key a0 a0_launchable) a1_ok eq_refl). Qed.

Lemma a_run : nsteps exec_step 2 (a1.2, false) (a3.2, false).
Proof.
  apply (nsteps_l _ _ _ (a2.2, false)); [|apply nsteps_once].
  - apply (step_loop BlockTimer). apply run_eq. vm_compute. reflexivity.
  - apply (step_loop BlockTimer). apply run_eq. vm_compute. reflexivity.
Qed.

Lemma a1_state root : start_state a0 root (c_state (e_contents a0)) = MkState zero_version "c" 1 0 5 None 3 root proposer.
Proof. reflexivity. Qed.

Lemma block_production_correct_witness :
  exists x bs, produced_chain x bs /\ length bs = 2%nat /\ e_lastState a3.2 = Some (x_state (site_after x bs)).
Proof.
  destruct a1_launched as (_ & (x & Hw & Hh & Hs & _) & _). unfold first_state in Hs. rewrite a1_state in Hs.
  destruct (block_production_correct x 2 (a1.2, false) (a3.2, false) Hw Hh ltac:(rewrite Hs; reflexivity) a_run)
    as (bs & Hp & _ & Hl & Hc & _).
  exists x, bs. split; [exact Hp|]. split; [|exact Hl].
  assert (Ok (E := store_error) 2 = Ok (LastBlockHeight (x_state x) + zlen bs)) as [= Hn].
  { rewrite <- Hc. vm_compute. reflexivity. }
  rewrite Hs in Hn. unfold zlen in Hn. cbn in Hn. lia.
Defined.

(** ** A full node follows *)

Definition x0 : site (PK := bytes) :=
  MkSite (chain_part (e_contents a1.2)) (Executing.getLastState a1.2) gen1 key DefaultAggregatorNodeSignatureBytesProvider (fun _ => True).

Lemma x0_state : x_state x0 = MkState zero_version "c" 1 0 5 None 3 (Some (Sha256.sum256 [byte_of_Z 1])) proposer.
Proof. vm_compute. reflexivity. Qed.

Lemma x0_wf : site_wf x0.
Proof.
  split; try (rewrite x0_state).
  - unfold state_wf, version_wf, is_u64. vm_compute. repeat split; discriminate.
  - vm_compute. reflexivity.
  - reflexivity.
  - unfold is_u64. vm_compute. repeat split; discriminate.
  - reflexivity.
  - vm_compute. discriminate.
  - intros h d Hs. exfalso. unfold x_started in Hs. rewrite x0_state in Hs. vm_compute in Hs. by apply Hs.
  - exact I.
Qed.

(** The first block, as it is stored. *)
Definition block1 : SignedHeader bytes * Data :=
  match c_block (e_contents a2.2) 1 with Ok b => b | Err _ => (SignedHeader_New, Data_New) end.

Lemma block1_signer : sh_Signer block1.1 = MkSigner (Some key) proposer (Some (match MarshalPublicKey key with Ok b => b | Err _ => [] end)).
Proof. vm_compute. reflexivity. Qed.
Lemma block1_metadata : d_Metadata block1.2 = Some (MkMetadata "c" 1 5 None).
Proof. vm_compute. reflexivity. Qed.

Lemma block1_made : x_made x0 block1.1 block1.2.
Proof.
  split.
  - vm_compute. reflexivity.
  - vm_compute. reflexivity.
  - vm_compute. reflexivity.
  - vm_compute. reflexivity.
  - vm_compute. reflexivity.
  - vm_compute. reflexivity.
  - vm_compute. split; reflexivity.
  - vm_compute. reflexivity.
  - unfold header_wf, version_wf, is_u64. vm_compute. repeat split; discriminate.
  - rewrite block1_signer. right. vm_compute. reflexivity.
  - unfold data_wf. rewrite block1_metadata. intros m [= <-]. vm_compute. repeat split; discriminate.
  - vm_compute. reflexivity.
  - intros h d Hs. exfalso. rewrite x0_state in Hs. vm_compute in Hs. by apply Hs.
Qed.

Definition payload1 : bytes := ok_or_nil (Header_MarshalBinary clean_header clean_version (sh_Header block1.1)).
Lemma length_not_nil (b : bytes) : (length b =? 0)%nat = false -> b <> [].
Proof. by destruct b. Qed.
Lemma block1_payload : x_bytes x0 (sh_Header block1.1) = Ok payload1.
Proof. vm_compute. reflexivity. Qed.

Lemma block1_produced : produced x0 block1.1 block1.2 3.
Proof.
  split.
  - exact block1_made.
  - exists payload1, (key ++ payload1). split; [exact block1_payload|]. vm_compute. split; reflexivity.
  - rewrite x0_state. done.
  - vm_compute. split; [discriminate|reflexivity].
Qed.

(** The full node of [SyncWitness], which has just started. *)
Lemma block1_verifiable : verifiable x0 (s_provider n1.2) (env_now (env_done (s_env n1.2)).2).1 block1.1 block1.2.
Proof.
  replace (s_provider n1.2) with (None : provider) by (vm_compute; reflexivity). split.
  - vm_compute. reflexivity.
  - intros bz Hbz. split.
    + assert (bz = payload1) as -> by (rewrite block1_payload in Hbz; congruence).
      apply length_not_nil. vm_compute. reflexivity.
    + by apply (default_payload x0); [|left|].
  - by intros bz [= Hb].
  - vm_compute. split; discriminate.
Qed.

Definition ev1 : DAHeightEvent bytes := MkEvent (wire_header block1.1) (norm_data block1.2) 0 SourceP2P (0, 0).

Lemma state0_agrees : agree (x_state x0) state0.
Proof. vm_compute. reflexivity. Qed.

Lemma full_node_follows_witness :
  exists s', TrySyncNextBlock ev1 n1.2 = (Ok tt, s') /\
    exists st, s_lastState s' = Some st /\ agree (produced_state x0 block1.1 block1.2 3) st.
Proof.
  destruct (full_node_follows x0 block1.1 block1.2 3 state0 n1.2 ev1) as (r & s' & Hr & Ho).
  - exact x0_wf.
  - rewrite x0_state. reflexivity.
  - exact block1_produced.
  - exact state0_agrees.
  - vm_compute. repeat split; discriminate.
  - exact n1_state.
  - vm_compute. reflexivity.
  - exact block1_verifiable.
  - reflexivity.
  - reflexivity.
  - discriminate.
  - vm_compute. split; [discriminate|reflexivity].
  - assert (Hok : (TrySyncNextBlock ev1 n1.2).1 = Ok tt) by (vm_compute; reflexivity).
    rewrite Hr in Hok. cbn [fst] in Hok. subst r. destruct Ho as (st & ? & ? & _). exists s'. split; [exact Hr|]. exists st. split; assumption.
Defined.

(** ** What goes wrong *)

(** A raft cluster that remembers what was proposed. *)
Definition lograft : Type := list RaftBlockState.
#[local] Instance log_raft : RaftNode lograft := {
  raft_HasQuorum l := (true, l);
  raft_GetState l := (MkRaftBlockState 0 0 0 None 0 [] [], l);
  raft_Broadcast s l := (Ok tt, l ++ [s])
}.
Abbreviation RAgg := (Executor memds bytes chainexec Seq bytes lograft unit syncenv (gmap Z)).
Definition raft_agg (st : memds) (q : Seq) : RAgg :=
  MkExecutor (mgr_on st) (MkChainExec 0 [] 0) q (Some key) false false 0 gen1
    DefaultAggregatorNodeSignatureBytesProvider DefaultValidatorHasherProvider (Some []) None false None 0 false
    (Some (1%nat, [])) false tt initial_tracking (MkSyncEnv 100 []).
Definition r1 : RAgg := (Executing.initializeState (raft_agg empty_db (submit [tx 7; tx 8] (seq_on ∅ 50)))).2.

(** The store fails once, after [n] calls. *)
Definition fault_after (n : nat) (e : RAgg) : RAgg :=
  set_e_store (MemDS (mem (e_store e)) (replicate n false ++ [true])) e.
Definition submit_to (txs : list bytes) (e : RAgg) : RAgg := set_e_sequencer (submit txs (e_sequencer e)) e.
Definition pending_txs (e : RAgg) : option (list bytes) :=
  match (getPendingBlock e).1 with Ok (Some (_, d)) => Some (data_txs d) | _ => None end.
Definition produce (e : RAgg) : res exec_error unit * RAgg := ProduceBlock e.
Definition proposed (e : RAgg) : list RaftBlockState := default [] (e_raft e).

(** Saving the pending block does not set the flag that says there is one. A
    node whose commit fails makes another block for the height when the timer
    fires again, although the first was already proposed to raft. *)
Example pending_block_is_replaced :
  let e1 := produce (fault_after 12 r1) in
  let e2 := produce (submit_to [tx 9] e1.2) in
  is_ok e1.1 = false /\ pending_txs e1.2 = Some [tx 7; tx 8] /\ e_hasPendingBlock e1.2 = false /\
  e2.1 = Ok tt /\ (rb_Height <$> proposed e2.2) = [1; 1] /\
  bool_decide ((rb_Hash <$> proposed e2.2) !! 0%nat = (rb_Hash <$> proposed e2.2) !! 1%nat) = false.
Proof. vm_compute. repeat split. Qed.

(** ** A forced transaction that halts the chain *)

(** The wall clock says 50; the forced transaction of DA height 5 has the time
    of the DA epoch, which is before that of the last block. *)
Definition f0 : Agg := agg_on empty_db [] (seq_on {[ 5 := [tx 9] ]} 50).
Definition f1 := Executing.initializeState f0.
Definition f2 := ProduceBlock f1.2.
Definition f3 := ProduceBlock f2.2.
Definition f4 := ProduceBlock f3.2.
(** After a crash the pending block is found, and fails again. *)
Definition f5 := Executing.initializeState (agg_on (e_store f4.2) [] (seq_on ∅ 60)).
Definition f6 := ProduceBlock f5.2.

Example forced_batch_goes_back_in_time :
  f2.1 = Ok tt /\ f3.1 = Ok tt /\ f4.1 = Err (ETypes ErrInvalidBlockTime) /\ f5.1 = Ok tt /\
  e_hasPendingBlock f5.2 = true /\ f6.1 = Err (ETypes ErrInvalidBlockTime) /\
  cp_DAHeight (checkpoint (e_sequencer f4.2)) = 6.
Proof. vm_compute. repeat split. Qed.

End ExecutingWitness.
