(* ===== verification/RaftWitness.v ===== *)
(** * A raft cluster at concrete states

    A codec for the replicated state and a library with one node that applies
    what it is given; replicas that snapshot and restore; an aggregator whose
    replaced block is reported as replicated although raft keeps the first. *)

From S2P Require Import Prelude Sha256 Datastore Types Serialization SerializationFacts ProtoInst Validation Store StoreFacts StoreMaintenance StoreAPI ChainWrites.
From S2P Require Import BlockCache Pending CacheManager DAClient DASubmitter Batching Submitter NodeInst SubmitterWitness.
From S2P Require Import ForcedInclusion BatchQueue BatchQueueProps Sequencing SequencerInst Execution Replayer ReplayerWitness ForcedCheck ForcedCheckWitness.
From S2P Require Import PriorityHeights DARetriever DARetrieverFacts DARetrieverWitness DecodeFacts Syncer SyncerFacts SyncWitness.
From S2P Require Import SingleSequencer BlockFacts Executing ExecutingFacts ExecutingRun ExecutingStart Following SequencerPorts ExecutingWitness.
From S2P Require Import Raft RaftFacts.
From stdpp Require Import base gmap strings list numbers relations.
Open Scope Z_scope.

Module RaftWitness.
Import ProtoInst MemDS MemDA StoreWitness BatchQueueWitness NodeInst SubmitterWitness SequencerInst ReplayerWitness ForcedCheckWitness DARetrieverWitness SyncWitness.
Import Executing ExecutingWitness.
Import Raft Election.

(** ** The codec *)

#[export] Instance RaftBlockState_eq_dec : EqDecision RaftBlockState.
Proof. solve_decision. Defined.
#[export] Instance RaftBlockState_countable : Countable RaftBlockState.
Proof.
  refine (inj_countable (fun m => [encode (rb_Height m); encode (rb_LastSubmittedDaHeaderHeight m);
      encode (rb_LastSubmittedDaDataHeight m); encode (rb_Hash m); encode (rb_Timestamp m); encode (rb_Header m); encode (rb_Data m)])
    (fun l => match l with
              | [a; b; c; d; e; f; g] => a ← decode a; b ← decode b; c ← decode c; d ← decode d; e ← decode e;
                                         f ← decode f; g ← decode g; Some (MkRaftBlockState a b c d e f g)
              | _ => None end) _).
  intros []. cbv beta iota. rewrite !decode_encode. reflexivity.
Defined.

Definition norm_rb (m : RaftBlockState) : RaftBlockState :=
  MkRaftBlockState (rb_Height m) (rb_LastSubmittedDaHeaderHeight m) (rb_LastSubmittedDaDataHeight m) (norm_slice (rb_Hash m))
    (rb_Timestamp m) (rb_Header m) (rb_Data m).
Definition range_rb (m : RaftBlockState) : bool :=
  u64b (rb_Height m) && u64b (rb_LastSubmittedDaHeaderHeight m) && u64b (rb_LastSubmittedDaDataHeight m) &&
  u64b (rb_Timestamp m) && bool_decide (norm_slice (rb_Hash m) = rb_Hash m).
#[export] Instance rb_msg : ProtoMsg RaftBlockState := ranged_msg norm_rb range_rb.

Lemma range_rb_wf m : range_rb m = true <-> rb_wf m.
Proof. unfold range_rb, rb_wf. rewrite !andb_true_iff, !u64b_spec, bool_decide_eq_true. tauto. Qed.

#[export] Instance rb_codec : RaftCodec.
Proof.
  split.
  - intros b m Hm. apply range_rb_wf. revert Hm. apply (ranged_msg_range norm_rb range_rb).
  - intros m b Hwf Hm. assert (Hn : norm_rb m = m).
    { destruct m. unfold norm_rb. simpl. f_equal. apply Hwf. }
    rewrite <- Hn. apply (ranged_msg_laws norm_rb range_rb rb_wf); [..|exact Hwf|exact Hm].
    + intros m0. unfold norm_rb. simpl. by rewrite norm_slice_idemp.
    + intros m0 Hm0. apply range_rb_wf. destruct Hm0 as (? & ? & ? & ? & ?). unfold rb_wf. simpl.
      by rewrite norm_slice_idemp.
Qed.

(** ** Replicas *)

Definition block (h t : Z) : RaftBlockState := MkRaftBlockState h 0 0 (Some [byte_of_Z h]) t [] [].
Definition entry (i : Z) (m : RaftBlockState) : Log := MkLog i 1 (match proto_Marshal m with Ok b => b | Err _ => [] end).
Definition applied (l : list Log) : FSM := foldl (fun f e => (FSM_Apply e f).2) new_FSM l.
Definition two : list Log := [entry 1 (block 1 10); entry 2 (block 2 20)].
Definition snap : bytes := (Persist (FSM_Snapshot (applied two)) [] : res string unit * bytes).2.
Definition restored : FSM := (FSM_Restore (Ok snap) new_FSM).2.
Definition after_restore : Cluster := MkCluster two [(applied two, 2%nat); (restored, 2%nat)] [(2%nat, snap)].

Lemma after_restore_reachable : rtc cl_step (new_cluster 2) after_restore.
Proof.
  eapply rtc_l; [apply (cl_commit _ _ _ (entry 1 (block 1 10)))|].
  eapply rtc_l; [apply (cl_commit _ _ _ (entry 2 (block 2 20)))|].
  eapply rtc_l; [apply (cl_apply _ _ _ 0 new_FSM 0 (entry 1 (block 1 10))); reflexivity|].
  eapply rtc_l; [apply (cl_apply _ _ _ 0 (applied (take 1 two)) 1 (entry 2 (block 2 20))); reflexivity|].
  eapply rtc_l; [apply (cl_snapshot _ _ _ 0 (applied two) 2 snap); [reflexivity|vm_compute; reflexivity]|].
  eapply rtc_l; [apply (cl_restore _ _ _ 1 new_FSM 0 2 snap restored); [reflexivity|apply list_elem_of_singleton; reflexivity|vm_compute; reflexivity]|].
  apply rtc_refl.
Qed.

Lemma replicas_agree_witness : fsm_state (applied two) = fsm_state restored /\ rb_Height (fsm_state restored) = 2.
Proof.
  split; [|vm_compute; reflexivity].
  apply (replicas_agree 2 after_restore 0 1 (applied two) restored 2 2); [exact after_restore_reachable|reflexivity..].
Defined.

(** ** A library with one node *)

Record onelib := MkOneLib { ol_fsm : FSM; ol_log : list Log }.
#[export] Instance one_lib : RaftLib onelib := {
  rl_fsm := ol_fsm;
  rl_set_fsm f l := MkOneLib f (ol_log l);
  rl_log := ol_log;
  rl_isLeader l := (true, l);
  rl_Apply data l :=
    let e := MkLog (Z.of_nat (length (ol_log l)) + 1) 1 data in
    (Ok tt, MkOneLib (FSM_Apply e (ol_fsm l)).2 (ol_log l ++ [e]));
  rl_Barrier l := (Ok tt, l);
  rl_GetConfiguration l := (Ok [], l);
  rl_BootstrapCluster _ l := (Ok tt, l);
  rl_AddVoter _ _ l := (Ok tt, l);
  rl_RemoveServer _ l := (Ok tt, l);
  rl_LeaderWithID l := ("n1"%string, l);
  rl_AppliedIndex l := (Z.of_nat (length (ol_log l)), l);
  rl_CommitIndex l := (Z.of_nat (length (ol_log l)), l);
  rl_LeadershipTransfer l := (Ok tt, l);
  rl_Shutdown l := (Ok tt, l)
}.
#[export] Instance one_lib_laws : RaftLibLaws onelib.
Proof.
  split.
  - intros l. exists []. by rewrite app_nil_r.
  - intros data l. unfold wp. simpl. eexists [_]. split_and!; [done|simpl; apply FSM_Apply_accept|].
    intros _. eexists. split; [by apply list_elem_of_singleton|done].
Qed.
#[export] Instance patient : Waits unit := { w_done u := (false, u); w_next u := (WTick, u) }.

Abbreviation N1 := (Node onelib unit).
Definition config1 : Config := MkRaftConfig "n1" "host:1" [] second second.
Definition node1 : N1 := MkNode (MkOneLib new_FSM []) config1 tt.
Definition node2 : N1 := (Broadcast (block 1 10) node1).2.
Definition node3 : N1 := (Broadcast (block 1 30) node2).2.

(** The second block of the height is dropped, and the call succeeds. *)
Lemma broadcast_correct_witness :
  later (GetState node2) (GetState node3) /\ (Broadcast (block 1 30) node2).1 = Ok tt /\ GetState node3 = GetState node2.
Proof.
  assert (Hrun : Broadcast (block 1 30) node2 = (Ok tt, node3)) by (vm_compute; reflexivity).
  split; [|split; vm_compute; reflexivity].
  apply (broadcast_correct (block 1 30) node2 node3); [|exact Hrun].
  apply range_rb_wf. vm_compute. reflexivity.
Defined.

(** ** An election *)

(** A runnable that knows its height, and one that recovers by one block. *)
#[export] Instance height_runnable : Runnable Z := {
  rn_IsSynced rs h := (Ok (h - rb_Height rs), h);
  rn_Recover rs h := if h + 1 =? rb_Height rs then (Ok tt, h + 1) else (Err "cannot recover"%string, h)
}.
#[export] Instance height_factory : Factories Z Z := { new_runnable _ h := (Ok h, h) }.
Abbreviation D1 := (DynamicLeaderElection N1 Z Z unit).
Definition el0 : D1 := NewDynamicLeaderElection node2 0 tt.
Definition el1 : D1 := (run_step 3 (EvLeader false) el0).2.
Definition el2 : D1 := (run_step 3 (EvLeader true) el1).2.

Lemma el1_inv : el_inv el1.
Proof. split; vm_compute; done. Qed.

(** A follower one block behind recovers before it leads. *)
Lemma leader_starts_in_step_witness : el_worker el1 = Some Follower /\ el_worker el2 = Some Leader /\ in_step el1 el2.
Proof.
  assert (Hrun : run_step 3 (EvLeader true) el1 = (Ok tt, el2)) by (vm_compute; reflexivity).
  destruct (leader_starts_in_step 3 (EvLeader true) el1 (Ok tt) el2 el1_inv Hrun) as [Hs _].
  assert (Hl : el_worker el2 = Some Leader) by (vm_compute; reflexivity).
  assert (Hf : el_worker el1 = Some Follower) by (vm_compute; reflexivity).
  split; [exact Hf|]. split; [exact Hl|]. destruct (Hs eq_refl) as [_ Hg]. destruct (Hg Hl) as [_ Hin].
  - rewrite Hf. discriminate.
  - apply Hin. vm_compute. reflexivity.
Defined.

(** ** The aggregator and raft disagree *)

Abbreviation NAgg := (Executor memds bytes chainexec Seq bytes N1 unit syncenv (gmap Z)).
Definition node_agg (st : memds) (n : N1) (q : Seq) : NAgg :=
  MkExecutor (mgr_on st) (MkChainExec 0 [] 0) q (Some key) false false 0 gen1
    DefaultAggregatorNodeSignatureBytesProvider DefaultValidatorHasherProvider (Some n) None false None 0 false
    (Some (1%nat, [])) false tt initial_tracking (MkSyncEnv 100 []).
Definition n_start : NAgg := (Executing.initializeState (node_agg empty_db node1 (submit [tx 7; tx 8] (seq_on ∅ 50)))).2.
Definition n_faulty : NAgg := set_e_store (MemDS (mem (e_store n_start)) (replicate 12 false ++ [true])) n_start.
Definition n_failed := (ProduceBlock n_faulty : res exec_error unit * NAgg).
Definition n_produced := (ProduceBlock (set_e_sequencer (submit [tx 9] (e_sequencer n_failed.2)) n_failed.2) : res exec_error unit * NAgg).
Definition the_node (e : NAgg) : N1 := default node1 (e_raft e).
(** After a restart of the aggregator on what it has stored. *)
Definition n_restarted := Executing.initializeState (node_agg (e_store n_produced.2) (the_node n_produced.2) (seq_on ∅ 60)).

(** The commit of the first block fails after it was proposed; the block of the
    next attempt is proposed for the same height, raft drops it, [Broadcast]
    reports success, and the block is committed. The node does not start again. *)
Example raft_keeps_the_replaced_block :
  is_ok n_failed.1 = false /\ n_produced.1 = Ok tt /\ length (ol_log (n_raft (the_node n_produced.2))) = 2%nat /\
  rb_Height (GetState (the_node n_produced.2)) = 1 /\ (LastBlockHeight <$> e_lastState n_produced.2) = Some 1 /\
  n_restarted.1 = Err (EMsg "block hash mismatch").
Proof. vm_compute. repeat split. Qed.

End RaftWitness.
