(* ===== verification/ReaperWitness.v ===== *)
(** * The reaper at concrete states

    A mempool that keeps its transactions until they are executed, the single
    sequencer, the solo sequencer, and an executor that listens. *)

From S2P Require Import Prelude Sha256 Datastore Types Serialization SerializationFacts ProtoInst Validation Store StoreFacts StoreMaintenance StoreAPI ChainWrites.
From S2P Require Import BlockCache Pending CacheManager DAClient DASubmitter Batching Submitter NodeInst SubmitterWitness.
From S2P Require Import ForcedInclusion BatchQueue BatchQueueFacts BatchQueueProps Sequencing SequencerInst Execution Replayer ReplayerWitness ForcedCheck ForcedCheckWitness.
From S2P Require Import PriorityHeights DARetriever DARetrieverFacts DARetrieverWitness DecodeFacts Syncer SyncerFacts SyncWitness.
From S2P Require Import SingleSequencer SoloSequencer BlockFacts Executing ExecutingFacts ExecutingRun ExecutingStart Following SequencerPorts ExecutingWitness Reaper.
From stdpp Require Import base gmap strings list numbers relations.
Open Scope Z_scope.

Module ReaperWitness.
Import ProtoInst MemDS MemDA StoreWitness BatchQueueWitness NodeInst SubmitterWitness SequencerInst ReplayerWitness ForcedCheckWitness DARetrieverWitness SyncWitness.
Import Executing ExecutingWitness Reaping.

(** The mempool, and whether its coming calls fail. *)
Definition mempool : Type := list bytes * list bool.
#[export] Instance list_mempool : Mempool mempool := {
  GetTxs m := match m.2 with
              | true :: fs => (Err "mempool"%string, (m.1, fs))
              | fs => (Ok m.1, (m.1, tail fs))
              end
}.
(** The executor is notified; here, only its channel. *)
#[export] Instance agg_callback : TxCallback Agg := { onTxsSubmitted := NotifyNewTransactions }.
#[export] Instance flag_callback : TxCallback bool := { onTxsSubmitted _ := true }.
#[export] Instance running : ReaperContext unit := { rp_done u := (false, u) }.

Definition pool : mempool := ([tx 7; tx 8], []).
Definition rp0 : Reaper mempool Seq bool unit := MkReaper pool (seq_on ∅ 50) "c" second (Some false) tt true 0.
Definition rp1 := (drainMempool rp0).2.
Definition rp2 := (drainMempool rp1).2.
Definition queued (r : Reaper mempool Seq bool unit) : list bytes := concat (Batch <$> live (rp_queue r)).

Lemma rp0_queue_inv : queue_inv (rp_queue rp0) /\ headroom (rp_queue rp0).
Proof.
  split; [exact (reachable_inv empty_db 0 (NewBatchQueue empty_db 0) (rtc_refl qstep _))|].
  split; vm_compute; reflexivity.
Qed.

(** Two passes over the same mempool queue its transactions once. *)
Lemma reaped_once_witness : txHash (tx 8) ∈ held (rp_queue rp1) /\ queued rp1 = [tx 7; tx 8] /\ live (rp_queue rp2) = live (rp_queue rp1).
Proof.
  assert (Hr1 : drainMempool rp0 = (Ok tt, rp1)) by (vm_compute; reflexivity).
  assert (Hr2 : drainMempool rp1 = (Ok tt, rp2)) by (vm_compute; reflexivity).
  assert (Hg : GetTxs (rp_exec rp0) = (Ok [tx 7; tx 8], pool)) by (vm_compute; reflexivity).
  destruct rp0_queue_inv as [Hinv Hroom].
  destruct (reaped_once rp0 rp1 rp2 [tx 7; tx 8] pool eq_refl Hinv Hroom Hg Hr1) as (Hq & _ & _ & _ & Hagain).
  split; [|split].
  - apply Hq. right. left.
  - vm_compute. reflexivity.
  - apply Hagain; [split; vm_compute; reflexivity|exists pool; vm_compute; reflexivity|exact Hr2].
Defined.

Definition failing : Reaper mempool Seq bool unit := MkReaper ([tx 7], [true]) (seq_on ∅ 50) "c" second (Some false) tt true 7.
Definition failed := reaper_turn failing.

Lemma reaper_turn_correct_witness :
  exists wait, failed.1 = Ok wait /\ wait <= MaxBackoffInterval /\ rp_failures failed.2 = 8 /\ wait = 30 * second.
Proof.
  destruct (reaper_turn_correct failing failed.1 failed.2) as (wait & Hw & _ & _ & _ & _ & Hc).
  - vm_compute. reflexivity.
  - vm_compute. reflexivity.
  - vm_compute. discriminate.
  - apply surjective_pairing.
  - exists wait. split; [exact Hw|]. assert (Hv : failed.1 = Ok (30 * second)) by (vm_compute; reflexivity).
    rewrite Hv in Hw. injection Hw as <-. split; [unfold MaxBackoffInterval; lia|]. split; [vm_compute; reflexivity|reflexivity].
Defined.

(** The solo sequencer does not remember what it has: a mempool that is reaped
    twice before the next block is queued twice. *)
Definition solo0 : Reaper mempool (Solo.SoloSequencer toyexec) bool unit :=
  MkReaper pool (Solo.NewSoloSequencer (string_bytes "c") (MkExec 99 []) 100) "c" second None tt true 0.
Example solo_queues_twice :
  Solo.queue (rp_sequencer (drainMempool (drainMempool solo0).2).2) = [tx 7; tx 8; tx 7; tx 8].
Proof. vm_compute. reflexivity. Qed.

End ReaperWitness.
