(* ===== verification/CachedStoreWitness.v ===== *)
(** * The cached store at concrete states

    A store with two blocks behind caches; metadata writes that are flushed
    together; and an aggregator that migrates a pending block of an old version
    and then reads it from its cache for ever. *)

From S2P Require Import Prelude Sha256 Datastore Types Serialization SerializationFacts ProtoInst Validation Store StoreFacts StoreMaintenance StoreAPI ChainWrites.
From S2P Require Import BlockCache Pending CachedStore CachedStoreFacts CacheManager DAClient DASubmitter Batching Submitter NodeInst SubmitterWitness.
From S2P Require Import ForcedInclusion BatchQueue BatchQueueProps Sequencing SequencerInst Execution Replayer ReplayerWitness ForcedCheck ForcedCheckWitness.
From S2P Require Import PriorityHeights DARetriever DARetrieverFacts DARetrieverWitness DecodeFacts Syncer SyncerFacts SyncWitness.
From S2P Require Import SingleSequencer BlockFacts Executing ExecutingFacts ExecutingRun ExecutingStart Following SequencerPorts ExecutingWitness.
From stdpp Require Import base gmap strings list numbers relations.
Open Scope Z_scope.

Module CachedStoreWitness.
Import ProtoInst MemDS MemDA StoreWitness BatchQueueWitness NodeInst SubmitterWitness SequencerInst ReplayerWitness ForcedCheckWitness DARetrieverWitness SyncWitness.
Import Executing ExecutingWitness.

#[export] Instance map_lru_remove : LRURemove (gmap Z) := {
  lru_Remove V k c := delete k c;
  lru_Purge V c := ∅
}.
#[export] Instance map_lru_remove_laws : LRURemoveLaws (gmap Z).
Proof.
  split.
  - intros V k k' c. simpl. case_decide as Hd; [subst; apply lookup_delete_eq|by apply lookup_delete_ne].
  - intros V k c. apply lookup_empty.
Qed.

Abbreviation CS := (Cached.CachedStore memds bytes (gmap Z)).
Definition cached (d : memds) : CS := Cached.MkCached d ∅ ∅ [] [] false.

(** ** Reads *)

Definition c1 : CS := (Cached.GetBlockData 2 (cached db2)).2.
Definition c2 : CS := (Cached.Rollback 1 true c1).2.

Lemma cached_reads_exact_witness :
  answers (Cached.GetHeader 2 c2).1 (held_header c2 2) c2 /\ is_ok (Cached.GetHeader 2 c1).1 = true /\
  is_ok (Cached.GetHeader 2 c2).1 = false.
Proof.
  assert (Hrun : rtc cs_step (cached db2) c2).
  { eapply rtc_l; [apply (step_block 2); lia|]. eapply rtc_l; [apply (step_rollback 1 true); unfold is_u64, two64; lia|]. apply rtc_refl. }
  assert (Hnew : Cached.NewCachedStore db2 10 10 = Ok (cached db2)) by reflexivity.
  destruct (cached_reads_exact db2 10 10 (cached db2) c2 2 Hnew Hrun ltac:(lia)) as (Ha & _).
  split; [exact Ha|]. split; vm_compute; reflexivity.
Defined.

(** ** Metadata *)

Definition w1 : CS := (Cached.SetMetadata "a" [byte_of_Z 1] (cached db2)).2.
Definition w2 : CS := (Cached.SetMetadata "b" [byte_of_Z 2] w1).2.
Definition w3 : CS := (Cached.SetMetadata "a" [byte_of_Z 3] w2).2.
Definition w4 : CS := Cached.loop_take (Cached.loop_take (Cached.loop_take w3)).
Definition w5 : CS := Cached.loop_flush ["b"%string; "a"%string] w4.

(** A write is not read back before it is flushed. *)
Example write_is_not_read_back : sview (cview w4) (KMeta "a") = None.
Proof. vm_compute. reflexivity. Qed.

Lemma w5_run : meta_run (cached db2)
  [MkWriteOp "a" [byte_of_Z 1] false; MkWriteOp "b" [byte_of_Z 2] false; MkWriteOp "a" [byte_of_Z 3] false] w5.
Proof.
  apply mr_flush; [do 3 apply mr_take|].
  - apply (mr_set _ [MkWriteOp "a" [byte_of_Z 1] false; MkWriteOp "b" [byte_of_Z 2] false] w2); [|reflexivity..].
    apply (mr_set _ [MkWriteOp "a" [byte_of_Z 1] false] w1); [|reflexivity..].
    apply (mr_set _ [] (cached db2)); [apply mr_start|reflexivity..].
  - intros j. set (m := Cached.last_ops _).
    assert (Hm : m = {["a"%string := MkWriteOp "a" [byte_of_Z 3] false; "b"%string := MkWriteOp "b" [byte_of_Z 2] false]})
      by (vm_compute; reflexivity).
    rewrite Hm, !elem_of_cons, elem_of_nil. split.
    + intros [->|[->|[]]]; vm_compute; eauto.
    + intros [o Ho]. apply lookup_insert_Some in Ho as [[<- _]|[_ Ho]]; [by right; left|].
      apply lookup_singleton_Some in Ho as [<- _]. by left.
Qed.

Lemma metadata_writes_in_order_witness : sview (cview w5) (KMeta "a") = Some [byte_of_Z 3].
Proof.
  assert (Hh : ds_healthy (Cached.cs_Store (cached db2))) by (vm_compute; constructor).
  rewrite (metadata_writes_in_order (cached db2) _ w5 "a" eq_refl eq_refl Hh w5_run eq_refl eq_refl).
  vm_compute. reflexivity.
Defined.

(** [Close] begins with a write in the queue: a later write of the key goes
    straight to the store, and the loop writes the older value over it. *)
Definition late : CS := (Cached.SetMetadata "a" [byte_of_Z 9] (Cached.close_begin w1)).2.

Example late_write_lost :
  (Cached.SetMetadata "a" [byte_of_Z 9] (Cached.close_begin w1)).1 = Ok tt /\
  sview (cview late) (KMeta "a") = Some [byte_of_Z 9] /\
  sview (cview (Cached.loop_flush ["a"%string] (Cached.loop_take late))) (KMeta "a") = Some [byte_of_Z 1].
Proof. vm_compute. repeat split; reflexivity. Qed.

(** ** A pending block of an old version *)

(** The node's store is the cached one. It is not claimed to keep the contract of
    a block store, and the example shows that it does not. *)
Definition unblocked {A} (m : M CS cached_error A) : M CS store_error A :=
  wrap (fun e => match e with CSStore e => e | CSBlocked => SMsg "blocked" end) m.
Definition inner {A} (m : M memds store_error A) : M CS store_error A := unblocked (Cached.on_inner m).
#[local] Instance cached_block_store : BlockStore CS bytes := {
  bs_contents c := bs_contents (Cached.cs_Store c);
  bs_healthy c := bs_healthy (PK := bytes) (Cached.cs_Store c);
  st_Height := inner st_Height;
  st_GetHeader h := unblocked (Cached.GetHeader h);
  st_GetBlockData h := unblocked (Cached.GetBlockData h);
  st_GetSignature h := inner (st_GetSignature h);
  st_GetState := inner st_GetState;
  st_GetStateAtHeight h := inner (st_GetStateAtHeight h);
  st_GetMetadata k := inner (st_GetMetadata k);
  st_SetMetadata k x := unblocked (Cached.SetMetadata k x);
  st_DeleteMetadata k := unblocked (Cached.DeleteMetadata k);
  bs_batch := bs_batch memds bytes;
  st_NewBatch := inner st_NewBatch;
  batch_SaveBlockData h d s b := inner (batch_SaveBlockData h d s b);
  batch_SetHeight h b := inner (batch_SetHeight h b);
  batch_UpdateState s b := inner (batch_UpdateState s b);
  batch_PutMeta k x b := inner (batch_PutMeta k x b);
  batch_Delete k b := inner (batch_Delete k b);
  batch_Commit b := inner (batch_Commit b);
  bs_staged := bs_staged
}.

(** The pending block of a node whose commit failed, stored the old way. *)
Definition pending_pair : SignedHeader bytes * Data :=
  match (getPendingBlock (produce (fault_after 12 r1)).2).1 with Ok (Some p) => p | _ => (header_at 1, data_at 1) end.
Definition legacy_db : memds :=
  (with_batch (_ ← Batch_SaveBlockData pending_pair.1 pending_pair.2 (Some []); Batch_Commit) empty_db).2.

Abbreviation CAgg := (Executor CS bytes chainexec Seq bytes unit unit syncenv (gmap Z)).
Definition mgr_cached (c : CS) : Manager CS bytes (gmap Z) :=
  let m := mgr_on empty_db in
  MkManager (headerCache m) (dataCache m) (pendingEvents m) (pendingHeaders m) (pendingData m) c.
Definition cached_agg (d : memds) : CAgg :=
  MkExecutor (mgr_cached (cached d)) (MkChainExec 0 [] 0) (submit [tx 9] (seq_on ∅ 60)) (Some key) false false 0 gen1
    DefaultAggregatorNodeSignatureBytesProvider DefaultValidatorHasherProvider None None false None 0 false
    (Some (1%nat, [])) false tt initial_tracking (MkSyncEnv 100 []).

Definition l1 := (Executing.initializeState (cached_agg legacy_db) : res exec_error unit * CAgg).
Definition l2 := (ProduceBlock l1.2 : res exec_error unit * CAgg).
(** Whether the block of a height is signed, as the node and as its disk have it. *)
Definition signed_as_read (h : Z) (e : CAgg) : option bool :=
  match (Cached.GetBlockData h (e_store e)).1 with Ok (sh, _) => Some (negb (slen (sh_Signature sh) =? 0)) | Err _ => None end.
Definition signed_on_disk (h : Z) (e : CAgg) : option bool :=
  match (Store.GetBlockData (PK := bytes) h (Cached.cs_Store (e_store e))).1 with
  | Ok (sh, _) => Some (negb (slen (sh_Signature sh) =? 0))
  | Err _ => None
  end.

(** The migration reads the unsigned block through the cache and deletes it with
    a batch. The block is signed and committed, and the node still reads the
    unsigned one. *)
Example migrated_block_is_stale :
  l1.1 = Ok tt /\ l2.1 = Ok tt /\ signed_on_disk 1 l2.2 = Some true /\ signed_as_read 1 l2.2 = Some false.
Proof. vm_compute. repeat split. Qed.

End CachedStoreWitness.
